(* ===== verification/_CoqProject ===== *)
-Q . S2P
Prelude.v
GoStd.v
DevshardTypes.v
DevshardHash.v
DevshardMachine.v
DevshardLedger.v
DevshardRefine.v
DevshardInit.v
DevshardCommit.v
DevshardSession.v
DevshardReach.v
DevshardSealed.v
DevshardStorage.v
DevshardSampling.v
DevshardSettlement.v
ChainSettlement.v
ChainStore.v
ChainSlots.v
ChainDecimal.v
ChainStats.v
ChainState.v
PowerCap.v
ChainCoins.v
Rewards.v
RewardsSpec.v
RewardsWeights.v
ChainBank.v
Restrictions.v
Bookkeeper.v
Vesting.v
VestingSpec.v
VestingTrace.v
Collateral.v
CollateralSpec.v
CollateralTrace.v
ChainStatus.v
ChainCollateral.v
ChainEscrow.v
ChainEscrowSpec.v
ChainPruning.v
ChainTrace.v
Settle.v
SettleSpec.v
SettleTrace.v
WholeChain.v
Demo.v
DemoChain.v
DemoCoins.v
DemoBank.v
DemoCollateral.v
DemoRewards.v
DemoSettle.v
