(* ===== verification/Prelude.v ===== *)
(** * Verification of gonka: devshard sessions, and the chain modules that pay for them

    Gonka sells language model inference.  A user locks an amount of coins in an
    escrow on a Cosmos chain and opens a _devshard session_ with a group of hosts,
    each holding one or more slots.  The session is an off-chain ledger: the user
    proposes numbered diffs, every host applies them to its own copy of a state
    machine, and all agree on a SHA-256 state root after each diff.  At the end the
    hosts sign the root, and the chain pays them out of the escrow.  An escrow that
    is not settled in time is distributed to the hosts when its epoch is pruned.

    On chain the participants of an epoch also share a minted reward.  At the end of
    the epoch their coin balances and their rewards become amounts that they claim and
    that vest over later epochs; they lock collateral, which is slashed when their
    status turns bad; and transfers between users are restricted at first.

    ** Files

    - [Prelude.v]: wrap-around integers, the state-and-error monad [GoM] with its
      weakest precondition [wp], maps, sums and sorting.
    - [GoStd.v]: what the code uses of the Go standard library: byte order,
      SHA-256 (the real function, [Sum256]), base64, decimal numbers, [math/bits].
    - [DevshardTypes.v] (devshard/types): statuses, phases, records, messages,
      errors, the 128-bit bitmap, configuration and nonce bounds.
    - [DevshardHash.v] (devshard/state/hash.go): the composition of the state root.
      Protobuf is the class [ProtoCodec]; its laws are [ProtoCodecLaws].
    - [DevshardMachine.v] (devshard/state/machine.go, seal.go): the state machine.
      Its record [StateMachine] has the Go struct's fields; each handler
      ([applyStartInference], [applyTimeout], ...), the nonce pipeline [applyCore]
      with its rollback, best-effort application, validate, preview and commit,
      sealing and recovery are one definition each, in the monad [GoM], so that what
      was mutated before an error stays mutated unless the code restores it.
      Signature recovery is the class [SigVerifier], the observability store the
      class [InferenceStorage].
    - [DevshardLedger.v]: the abstract specification, a ledger over unbounded
      integers with a step relation [lstep] and an invariant [linv].
    - [DevshardRefine.v], [DevshardInit.v], [DevshardSession.v]: every handler and
      the nonce pipeline refine ledger steps and preserve the representation
      invariant [Inv]; the constructor establishes it.
    - [DevshardCommit.v]: rollback, and validate-then-commit against apply.
    - [DevshardReach.v]: the sessions reachable by any sequence of operations
      ([reachable]) and what holds of all of them.
    - [DevshardSealed.v]: a session with its recoveries from snapshots ([lifetime]), in
      which sealing is final.
    - [DevshardStorage.v] (devshard/storage): the in-memory store: diff journal,
      signatures, snapshots, validation counters, leases, escrow cache, pruning.
    - [DevshardSampling.v] (devshard/state/validation.go): who must validate what.
    - [DevshardSettlement.v] (devshard/state/settlement.go): the settlement payload
      and its off-chain verification.
    - [ChainSettlement.v] (inference-chain/x/inference/keeper/devshard_settlement.go,
      devshard/signing, devshard/cmd/devshardctl, x/inference/module/commands.go): the
      settlement file, the message the chain's command makes of it, the verification on
      chain, and that the settlement of a session that followed the protocol passes it
      ([settled_session]: the session, its payload, the file and the message).
    - [ChainStore.v]: addresses, transactions and ordered iteration, shared by the keepers
      of the chain.
    - [ChainSlots.v] (inference-chain/x/inference/calculations/slots.go): drawing the
      group of an escrow in proportion to the weights of an epoch.
    - [ChainState.v] (x/inference/keeper: devshard_escrow.go, devshard_host_stats.go,
      claim_recipient_schedule.go, participant.go, permissions.go, params.go and
      others): the record [Chain] with the collections of the keeper that are modelled
      and the operations on them.  The bank, authz and the epoch groups are the class
      [ChainEnv] with the laws [ChainEnvLaws]; the participant status, as the other
      components rely on it, is [ParticipantStatusKeeper] with its laws: it changes no
      balance except that slashed collateral goes to governance ([only_slashed]).
    - [ChainStatus.v] (calculations/status.go, sprt.go, keeper/participant_status.go):
      the sequential test of a participant and the consequences of a bad status; it
      discharges [ParticipantStatusLaws].
    - [ChainEscrow.v]: the handlers [CreateDevshardEscrow] and
      [SettleDevshardEscrow] with each of their loops, and what each loop does;
      [ChainEscrowSpec.v]: what the handlers promise, and that they keep it.
    - [ChainPruning.v] (keeper/pruning.go, devshard_pruning.go): the generic pruner with
      its laws [PrunerLaws], and the pruners of escrows and of claim recipients.
    - [ChainTrace.v]: the chain as a step relation over all of these operations.
    - [ChainDecimal.v], [ChainCoins.v], [ChainBank.v]: what the modules use of the decimal
      library, of the coins and of the bank of the SDK, as classes with laws
      ([DecimalLib], [LegacyDecLib], [CoinLib], [CoinsLib], [BankKeeper]).
    - [ChainStats.v] (calculations/stats.go, stats_table.go): the test for missed requests,
      with its tables.
    - [PowerCap.v], [Rewards.v] (keeper/bitcoin_rewards.go, types/weight.go,
      module/power_capping.go): capping weights, and dividing the reward of an epoch;
      [RewardsSpec.v]: what the division promises; [RewardsWeights.v]: a reference for the
      weights, and that every stage computes it.
    - [Settle.v] (keeper/accountsettle.go, settle_amount.go, payment_handler.go,
      msg_server_claim_rewards.go, maintenance.go): settling the accounts of an epoch and
      claiming.  The record [Treasury] is a [Chain] with the further collections; minting,
      governance and vesting are the class [RewardBank], what other parts have stored the
      class [SettleEnv].  [SettleSpec.v]: what both promise; [SettleTrace.v]: settlements
      and claims between the steps of [ChainTrace.v].  Its states are pairs of a treasury
      and the coins that other parts of the chain hold on the module's account; those
      parts may spend only these and pay for every coin balance they promise.
    - [Collateral.v] (x/collateral), with [CollateralSpec.v] and [CollateralTrace.v]: the
      collateral module and its sequences of events; [ChainCollateral.v]
      (keeper/collateral.go): slashing and weights in the inference module, which
      discharges the slashing interface of [ChainStatus.v]; [WholeChain.v]: escrows,
      claims, settlements of epochs and the collateral module on one chain.
    - [Restrictions.v] (x/restrictions), [Bookkeeper.v] (x/bookkeeper), [Vesting.v]
      (x/streamvesting) with [VestingSpec.v] and [VestingTrace.v]: transfer restrictions,
      the journal of coin movements, and vesting schedules.
    - [Demo.v], [DemoChain.v], [DemoCoins.v], [DemoBank.v], [DemoCollateral.v],
      [DemoRewards.v], [DemoSettle.v]: concrete instances of the interfaces, a three-host
      session from its first diff to its settlement, a chain that pays it out, small
      epochs of the other modules, and an instance of every property with hypotheses.

    ** What the theorems show

    Conservation of the escrow amount, refinement of the ledger, the inference
    lifecycle, bounds of votes and counters, the finalization deadline
    ([DevshardReach.v]); finality of sealing, across recoveries ([DevshardSealed.v]); that a rejected diff is rolled back and that
    trial application and commit agree with direct application
    ([DevshardCommit.v]); journal round trip, fork detection, leases and the rebuild
    of the counters ([DevshardStorage.v]); exactness of the fixed-point sampling
    ([DevshardSampling.v]); exact decisions of both settlement verifications, the
    binding of a root to its payload up to a named SHA-256 collision, and acceptance
    on chain of honest settlements ([DevshardSettlement.v], [ChainSettlement.v]).

    On chain: exact and proportional slot sampling ([ChainSlots.v]); the exact payouts
    of a settlement and the conditions under which opening and settling succeed, and,
    joining both sides, that the chain pays every host what it earned in the session
    and the user the session's balance ([ChainEscrowSpec.v]); what pruning removes and
    pays, that it never takes an escrow that can still be settled; the atomic schedule of
    claim recipients ([ChainPruning.v]); that over any interleaving the module's account
    covers all open escrows and coin balances, that an escrow is paid out once, and a case
    in which pruning leaves escrows behind until its mark is reset ([ChainTrace.v]);
    that a bad status has its consequences once, and that batches of outcomes count
    like single ones ([ChainStatus.v]).

    Rewards: the limit on weights is the largest that leaves nobody above its share
    ([PowerCap.v]); the reward is divided by exactly the confirmed, capped, punished,
    fined and delegated weights, and the rewards and the part of governance add up to the
    minted amount ([RewardsWeights.v]); all emission is bounded, and near the supply limit
    the sum is off ([RewardsSpec.v]);
    more misses never help in the test for missed requests, except across the end of
    the tables ([ChainStats.v]).  A settlement goes through and is exact, and a claim
    pays exactly what was settled, once ([SettleSpec.v]); over any interleaving the module
    covers escrows, coin balances and unclaimed amounts, and what a participant earned
    in an epoch reaches its recipient ([SettleTrace.v]).  These two take settlements that do
    not cross the limit of the supply ([off_limit]): the one that does pays out more than
    it mints, as [RewardsSpec.v] shows.

    Other modules: collateral and queued withdrawals are always backed and withdrawals
    are paid, a slash takes the same fraction of every holding, genesis carries over all
    but what is named ([CollateralTrace.v]); a bad status slashes exactly the required
    share ([ChainCollateral.v]); both modules stay solvent together ([WholeChain.v]);
    what the restriction answers to any transfer is decided, panics included, emergency uses are limited but exempt sends are
    not counted ([Restrictions.v]); the journal explains every balance ([Bookkeeper.v]);
    vesting is backed and paid in full, and both ways of adding to a schedule agree
    ([VestingSpec.v], [VestingTrace.v]).

    ** Conventions

    Machine integers are [Z] with the wrap-around written out ([u32], [u64], [i64]).
    Iteration over a Go map is either order independent and proved so, or takes the
    order as an argument.  A nil dereference or an index out of range is the error
    [GoPanic] or a [None], and the theorems show that it does not occur.  Loops over
    lists are structural; the loops with fuel ([setBits_loop], 64 rounds for 64 bits,
    the block loop of SHA-256, one round for each block, and [sort_powers], one round for
    each element) have fuel equal to a proved bound of their rounds.  Sessions are bounded
    by 2^32 nonces, which is what the 32-bit [max_nonce] of the chain allows, and by 128
    slots.  The theorems on
    pruning take epochs below 2^62, so that the conversions between signed and
    unsigned epochs do nothing; those on escrows take a module balance below 2^63, as
    the code passes amounts to the bank as [int64].  Integers of the SDK stay below 2^256.
    The laws of the decimals are those of exact arithmetic and of quotients rounded to 16
    digits, which is why the theorem on the supply limit takes a reward below 10^16.

    ** Not modelled

    Locks, logging and metrics; the SQLite and Postgres stores; the JSON text of files
    and snapshots; networking (host, user, transport and gossip packages); elliptic curve arithmetic, RIPEMD-160,
    bech32, protobuf, decimal and coin arithmetic and the bank, which are interfaces with
    named laws.  Of claims, the verdict of [validateClaim] on the seed signature and the
    missed validations is an argument: it changes no state, and the theorems hold for
    every verdict.  Of maintenance only the credit that a claim grants is modelled.  The
    rest of the chain (inference requests, proof of compute, bridge, BLS, the transfer of
    genesis accounts, the pruners of their records, the queries), the decentralized-api,
    the proxies and the ML node are left out: network services and further keepers that
    the modelled parts do not call. *)

From stdpp Require Export prelude gmap strings list fin_maps sorting.
From Stdlib Require Export ZArith Lia.

(* ------------------------------------------------------------------ *)
(** ** Machine integers *)

Declare Scope go_scope.
Delimit Scope go_scope with go.
Open Scope Z_scope.

(** Wrap-around of Go's unsigned integer types. *)
Definition u8 (z : Z) : Z := z mod 2 ^ 8.
Definition u32 (z : Z) : Z := z mod 2 ^ 32.
Definition u64 (z : Z) : Z := z mod 2 ^ 64.

(** Wrap-around of Go's [int64] (two's complement). *)
Definition i64 (z : Z) : Z := (z + 2 ^ 63) mod 2 ^ 64 - 2 ^ 63.

(** Range predicates: a value that a Go variable of the type can hold. *)
Definition is_u8 (z : Z) : Prop := 0 <= z < 2 ^ 8.
Definition is_u32 (z : Z) : Prop := 0 <= z < 2 ^ 32.
Definition is_u64 (z : Z) : Prop := 0 <= z < 2 ^ 64.
Definition is_i64 (z : Z) : Prop := - 2 ^ 63 <= z < 2 ^ 63.

(** [math.MaxUint32] and [math.MaxInt64]. *)
Definition MaxUint32 : Z := 4294967295.
Definition MaxInt64 : Z := 9223372036854775807.

(* ------------------------------------------------------------------ *)
(** ** Outcomes and the state-and-error monad *)

(** A Go call returns a value or a non-nil error. *)
Inductive outcome (E A : Type) : Type :=
| Ok (a : A)
| Err (e : E).
Arguments Ok {E A} a.
Arguments Err {E A} e.

(** A Go method on a mutable receiver: the receiver's state is threaded
    through, and what was mutated before an error stays mutated. *)
Definition GoM (S E A : Type) : Type := S -> S * outcome E A.

Definition ret {S E A} (a : A) : GoM S E A := fun s => (s, Ok a).
Definition fail {S E A} (e : E) : GoM S E A := fun s => (s, Err e).
Definition bind {S E A B} (m : GoM S E A) (k : A -> GoM S E B) : GoM S E B :=
  fun s => match m s with
           | (s', Ok a) => k a s'
           | (s', Err e) => (s', Err e)
           end.
Definition get {S E} : GoM S E S := fun s => (s, Ok s).
Definition put {S E} (s : S) : GoM S E unit := fun _ => (s, Ok tt).
Definition modify {S E} (f : S -> S) : GoM S E unit := fun s => (f s, Ok tt).
(** Reading a part of the state, and the result of a pure call. *)
Definition reads {S E A} (f : S -> A) : GoM S E A := fun s => (s, Ok (f s)).
Definition from_outcome {S E A} (o : outcome E A) : GoM S E A := fun s => (s, o).
(** [if cond { return err }] *)
Definition check {S E} (ok : bool) (e : E) : GoM S E unit := if ok then ret tt else fail e.
(** [v, ok := f(); if !ok { return err }] *)
Definition lift_option {S E A} (o : option A) (e : E) : GoM S E A :=
  match o with Some a => ret a | None => fail e end.

Notation "'let*' x ':=' c 'in' k" := (bind c (fun x => k))
  (at level 10, x pattern, c at level 100, k at level 200) : go_scope.
Notation "'run*' c 'in' k" := (bind c (fun _ => k))
  (at level 10, c at level 100, k at level 200) : go_scope.

(** Pure fallible code: the same sequencing without a state. *)
Definition obind {E A B} (m : outcome E A) (k : A -> outcome E B) : outcome E B :=
  match m with Ok a => k a | Err e => Err e end.
Notation "'let!' x ':=' c 'in' k" := (obind c (fun x => k))
  (at level 10, x pattern, c at level 100, k at level 200) : go_scope.
Notation "'run!' c 'in' k" := (obind c (fun _ => k))
  (at level 10, c at level 100, k at level 200) : go_scope.
Definition ocheck {E} (ok : bool) (e : E) : outcome E unit := if ok then Ok tt else Err e.

(** A Go [for range] loop whose body may return early with an error. *)
Fixpoint ofold {E A S} (f : S -> A -> outcome E S) (s : S) (l : list A) : outcome E S :=
  match l with
  | [] => Ok s
  | a :: l' => obind (f s a) (fun s' => ofold f s' l')
  end.

(** The same over a stateful body. *)
Fixpoint mfold {S E A B} (f : B -> A -> GoM S E B) (b : B) (l : list A) : GoM S E B :=
  match l with
  | [] => ret b
  | a :: l' => bind (f b a) (fun b' => mfold f b' l')
  end.

(** [wp m Q s]: running [m] from [s] ends in a state and an outcome that satisfy [Q]. *)
Definition wp {S E A} (m : GoM S E A) (Q : S -> outcome E A -> Prop) (s : S) : Prop :=
  let '(s', r) := m s in Q s' r.

(** A postcondition: a success satisfies [Q], and under [P] there is no failure.  With
    [P := False] it says what a success implies, with [P := True] that there is one. *)
Definition ok_or {S E A} (P : Prop) (Q : S -> A -> Prop) : S -> outcome E A -> Prop :=
  fun c r => match r with Ok a => Q c a | Err _ => ~ P end.

(* ------------------------------------------------------------------ *)
(** ** Lookup, sorting and sums *)

(** [m[k]] of a Go map: the zero value when the key is absent. *)
Definition zget `{Countable K} {V} (d : V) (k : K) (m : gmap K V) : V := default d (m !! k).

(** The keys of a map in ascending order: [ids := keys(m); slices.Sort(ids)]. *)
Definition sort_Z (l : list Z) : list Z := merge_sort Z.le l.
Definition map_keys {V} (m : gmap Z V) : list Z := (map_to_list m).*1.
Definition sorted_keys {V} (m : gmap Z V) : list Z := sort_Z (map_keys m).

(** Sum of [f k v] over the entries of a map. *)
Definition msum `{Countable K} {V} (f : K -> V -> Z) (m : gmap K V) : Z :=
  map_fold (fun k v acc => f k v + acc) 0 m.

(** Sum of [f] over a list. *)
Definition lsum {A} (f : A -> Z) (l : list A) : Z := foldr (fun a acc => f a + acc) 0 l.

(** Index into a slice with a machine integer; [None] is Go's
    index-out-of-range panic. *)
Definition at_index {A} (l : list A) (i : Z) : option A :=
  if decide (0 <= i) then l !! Z.to_nat i else None.

(* ------------------------------------------------------------------ *)
(** ** Tactics and hint database *)

Create HintDb gonka.
Create Rewrite HintDb gonka.

(** Case analysis on the next [match]/[if] of a hypothesis or the goal. *)
Ltac step_match H :=
  match type of H with
  | context [match ?x with _ => _ end] => destruct x eqn:?
  end.
Ltac step_goal :=
  match goal with
  | |- context [match ?x with _ => _ end] => destruct x eqn:?
  end.

(** Turns boolean tests in the context into propositions. *)
Ltac boolify :=
  repeat match goal with
  | H : (_ && _) = true |- _ => apply andb_true_iff in H; destruct H
  | H : (_ || _) = false |- _ => apply orb_false_iff in H; destruct H
  | H : negb _ = true |- _ => apply negb_true_iff in H
  | H : negb _ = false |- _ => apply negb_false_iff in H
  | H : (_ <? _) = true |- _ => apply Z.ltb_lt in H
  | H : (_ <? _) = false |- _ => apply Z.ltb_ge in H
  | H : (_ <=? _) = true |- _ => apply Z.leb_le in H
  | H : (_ <=? _) = false |- _ => apply Z.leb_gt in H
  | H : (_ >? _) = true |- _ => apply Z.gtb_lt in H
  | H : (_ =? _) = true |- _ => apply Z.eqb_eq in H
  | H : (_ =? _) = false |- _ => apply Z.eqb_neq in H
  | H : bool_decide _ = true |- _ => apply bool_decide_eq_true in H
  | H : bool_decide _ = false |- _ => apply bool_decide_eq_false in H
  end.

(* ------------------------------------------------------------------ *)
(** ** Machine-integer lemmas *)

Lemma u64_small z : is_u64 z -> u64 z = z.
Proof. apply Z.mod_small. Qed.

Lemma u32_small z : is_u32 z -> u32 z = z.
Proof. apply Z.mod_small. Qed.

Lemma u64_range z : is_u64 (u64 z).
Proof. apply Z.mod_pos_bound. lia. Qed.

Lemma u32_range z : is_u32 (u32 z).
Proof. apply Z.mod_pos_bound. lia. Qed.

Lemma i64_small z : is_i64 z -> i64 z = z.
Proof. intros [? ?]. unfold i64. rewrite Z.mod_small; lia. Qed.

Lemma i64_nonneg z : is_u64 z -> 0 <= i64 z -> z < 2 ^ 63 /\ i64 z = z.
Proof.
  unfold is_u64. intros Hz Hi. destruct (decide (z < 2 ^ 63)) as [Hlt|Hge]; [split; [done|apply i64_small; unfold is_i64; lia]|].
  unfold i64 in Hi. replace (z + 2 ^ 63) with (z - 2 ^ 63 + 1 * 2 ^ 64) in Hi by lia. rewrite Z.mod_add, Z.mod_small in Hi by lia. lia.
Qed.

#[export] Hint Resolve u64_range u32_range : gonka.
#[export] Hint Rewrite @u64_small @u32_small @i64_small using (unfold is_u64, is_u32, is_i64; lia) : gonka.

(* ------------------------------------------------------------------ *)
(** ** Monad lemmas *)

Lemma bind_run {S E A B} (m : GoM S E A) (k : A -> GoM S E B) s s' a : m s = (s', Ok a) -> bind m k s = k a s'.
Proof. unfold bind. by intros ->. Qed.

Lemma bind_Ok {S E A B} (m : GoM S E A) (k : A -> GoM S E B) s s' b :
  bind m k s = (s', Ok b) -> exists s1 a, m s = (s1, Ok a) /\ k a s1 = (s', Ok b).
Proof. unfold bind. destruct (m s) as [s1 [a|e]]; [eauto | discriminate]. Qed.

Lemma bind_Err {S E A B} (m : GoM S E A) (k : A -> GoM S E B) s s' e :
  bind m k s = (s', Err e) ->
  m s = (s', Err e) \/ exists s1 a, m s = (s1, Ok a) /\ k a s1 = (s', Err e).
Proof. unfold bind. destruct (m s) as [s1 [a|e1]]; [eauto |]. intros [= -> ->]. auto. Qed.

Lemma check_Ok {S E} b (e : E) (s s' : S) u :
  check b e s = (s', Ok u) -> b = true /\ s' = s.
Proof. destruct b; cbn; intros [= <-]; auto. Qed.

Lemma check_Err {S E} b (e e' : E) (s s' : S) :
  check b e s = (s', Err e') -> b = false /\ s' = s /\ e' = e.
Proof. destruct b; cbn; intros [= <- <-]; auto. Qed.

Lemma lift_option_Ok {S E A} o (e : E) (s s' : S) (a : A) :
  lift_option o e s = (s', Ok a) -> o = Some a /\ s' = s.
Proof. destruct o; cbn; [intros [= <- <-]; auto | discriminate]. Qed.

Lemma lift_option_Err {S E A} (o : option A) (e e' : E) (s s' : S) :
  lift_option o e s = (s', Err e') -> o = None /\ s' = s /\ e' = e.
Proof. destruct o; cbn; [discriminate | intros [= <- <-]; auto]. Qed.

(** [injection] stopped at the constructor. *)
Lemma Ok_inj {E A} (a b : A) : @Ok E A a = Ok b -> a = b.
Proof. by intros [=]. Qed.

Lemma obind_Ok {E A B} (m : outcome E A) (k : A -> outcome E B) b :
  obind m k = Ok b -> exists a, m = Ok a /\ k a = Ok b.
Proof. destruct m; [eauto | discriminate]. Qed.

Lemma ocheck_Ok {E} b (e : E) u : ocheck b e = Ok u -> b = true.
Proof. by destruct b. Qed.

Lemma wp_bind {S E A B} (m : GoM S E A) (k : A -> GoM S E B) (Q : S -> outcome E B -> Prop) s :
  wp m (fun s' r => match r with Ok a => wp (k a) Q s' | Err e => Q s' (Err e) end) s ->
  wp (bind m k) Q s.
Proof. unfold wp, bind. by destruct (m s) as [s' [a|e]]. Qed.

Lemma wp_mono {S E A} (m : GoM S E A) (Q R : S -> outcome E A -> Prop) s :
  wp m Q s -> (forall s' r, Q s' r -> R s' r) -> wp m R s.
Proof. unfold wp. destruct (m s). auto. Qed.

Lemma wp_check {S E} b (e : E) (Q : S -> outcome E unit -> Prop) s :
  (b = true -> Q s (Ok tt)) -> (b = false -> Q s (Err e)) -> wp (check b e) Q s.
Proof. destruct b; unfold wp; cbn; auto. Qed.

Lemma wp_lift_option {S E A} (o : option A) (e : E) (Q : S -> outcome E A -> Prop) s :
  (forall a, o = Some a -> Q s (Ok a)) -> (o = None -> Q s (Err e)) -> wp (lift_option o e) Q s.
Proof. destruct o; unfold wp; cbn; auto. Qed.

Lemma wp_ret {S E A} (a : A) (Q : S -> outcome E A -> Prop) s : Q s (Ok a) -> wp (ret a) Q s.
Proof. done. Qed.

Lemma wp_fail {S E A} (e : E) (Q : S -> outcome E A -> Prop) s : Q s (Err e) -> wp (fail e) Q s.
Proof. done. Qed.

Lemma wp_modify {S E} f (Q : S -> outcome E unit -> Prop) s : Q (f s) (Ok tt) -> wp (modify f) Q s.
Proof. done. Qed.

Lemma wp_get {S E} (Q : S -> outcome E S -> Prop) s : Q s (Ok s) -> wp get Q s.
Proof. done. Qed.

Lemma wp_reads {S E A} (f : S -> A) (Q : S -> outcome E A -> Prop) s : Q s (Ok (f s)) -> wp (reads f) Q s.
Proof. done. Qed.

Lemma wp_from {S E A} (o : outcome E A) (Q : S -> outcome E A -> Prop) s :
  (forall a, o = Ok a -> Q s (Ok a)) -> (forall e, o = Err e -> Q s (Err e)) -> wp (from_outcome o) Q s.
Proof. destruct o; unfold wp; cbn; auto. Qed.

Lemma wp_run {S E A} (m : GoM S E A) (Q : S -> outcome E A -> Prop) s :
  (forall s' r, m s = (s', r) -> Q s' r) -> wp m Q s.
Proof. unfold wp. destruct (m s). auto. Qed.

(** A loop with an invariant on the state, the accumulator and what is left. *)
Lemma wp_mfold {S E A B} (f : B -> A -> GoM S E B) (I : S -> B -> list A -> Prop)
    (Q : S -> outcome E B -> Prop) b l s :
  I s b l ->
  (forall s b a l', I s b (a :: l') ->
     wp (f b a) (fun s' r => match r with Ok b' => I s' b' l' | Err e => Q s' (Err e) end) s) ->
  (forall s b, I s b [] -> Q s (Ok b)) ->
  wp (mfold f b l) Q s.
Proof.
  intros HI Hstep Hend. revert b s HI. induction l as [|a l IH]; intros b s HI; cbn.
  - apply wp_ret. auto.
  - apply wp_bind. eapply wp_mono; [by apply Hstep|]. intros s' [b'|e]; auto.
Qed.

(** One step of symbolic execution. *)
Ltac wp_step :=
  lazymatch goal with
  | |- wp (bind _ _) _ _ => apply wp_bind; cbv beta
  | |- wp (check _ _) _ _ => apply wp_check; [let H := fresh "Hchk" in intros H | let H := fresh "Hchk" in intros H]; cbv beta iota
  | |- wp (lift_option _ _) _ _ =>
      apply wp_lift_option; [let a := fresh "v" in let H := fresh "Hopt" in intros a H
                            | let H := fresh "Hopt" in intros H]; cbv beta iota
  | |- wp (ret _) _ _ => apply wp_ret; cbv beta iota
  | |- wp (fail _) _ _ => apply wp_fail; cbv beta iota
  | |- wp (modify _) _ _ => apply wp_modify; cbv beta iota
  | |- wp get _ _ => apply wp_get; cbv beta iota
  end.

(** The next check or lookup of a program, in a proof about its successes. *)
Ltac wp_succeed := wp_step; wp_step; [|cbn; tauto].

(** Programs that change a part [pr] of the state only as the preorder [R] allows, on
    every branch, errors included. *)
Definition keeps {S V E A} (pr : S -> V) (R : V -> V -> Prop) (m : GoM S E A) : Prop :=
  forall s s' r, m s = (s', r) -> R (pr s) (pr s').

Section Keeps.
Context {S V E : Type} (pr : S -> V) (R : V -> V -> Prop) `{!PreOrder R}.

Lemma keeps_bind {A B} (m : GoM S E A) (k : A -> GoM S E B) : keeps pr R m -> (forall x, keeps pr R (k x)) -> keeps pr R (bind m k).
Proof.
  intros Hm Hk s s' r. unfold bind. destruct (m s) as [s1 [x|e]] eqn:Hs.
  - intros Hr. transitivity (pr s1); [by eapply Hm|by eapply Hk].
  - intros [= <- _]. by eapply Hm.
Qed.
Lemma keeps_pure {A} (m : GoM S E A) : (forall s, (m s).1 = s) -> keeps pr R m.
Proof. intros Hm s s' r Hs. specialize (Hm s). rewrite Hs in Hm. cbn in Hm. by subst. Qed.
Lemma keeps_ret {A} (a : A) : keeps pr R (ret a : GoM S E A).
Proof. by apply keeps_pure. Qed.
Lemma keeps_get : keeps pr R (get : GoM S E S).
Proof. by apply keeps_pure. Qed.
Lemma keeps_reads {A} (f : S -> A) : keeps pr R (reads f : GoM S E A).
Proof. by apply keeps_pure. Qed.
Lemma keeps_from {A} (o : outcome E A) : keeps pr R (from_outcome o).
Proof. by apply keeps_pure. Qed.
Lemma keeps_check b (e : E) : keeps pr R (check b e).
Proof. apply keeps_pure. by destruct b. Qed.
Lemma keeps_lift {A} (o : option A) (e : E) : keeps pr R (lift_option o e).
Proof. apply keeps_pure. by destruct o. Qed.
Lemma keeps_bind_lift {A B} (o : option A) (e : E) (k : A -> GoM S E B) :
  (forall x, o = Some x -> keeps pr R (k x)) -> keeps pr R (bind (lift_option o e) k).
Proof. destruct o as [x|]; intros Hk; [exact (Hk x eq_refl)|by apply keeps_pure]. Qed.
Lemma keeps_modify f : (forall s, pr (f s) = pr s) -> keeps pr R (modify f : GoM S E unit).
Proof. intros Hf s s' r [= <- _]. by rewrite Hf. Qed.
Lemma keeps_mfold {A B} (f : B -> A -> GoM S E B) b l : (forall b a, keeps pr R (f b a)) -> keeps pr R (mfold f b l).
Proof. intros Hf. revert b. induction l as [|a l IH]; intros b; [apply keeps_ret|]. by apply keeps_bind. Qed.
End Keeps.

Lemma wp_keeps {S V E A} (pr : S -> V) (m : GoM S E A) (Q : S -> outcome E A -> Prop) s :
  keeps pr eq m -> (forall s' r, pr s' = pr s -> Q s' r) -> wp m Q s.
Proof. intros Hm HQ. unfold wp. destruct (m s) as [s' r] eqn:Hs. apply HQ. symmetry. by apply (Hm s s' r). Qed.

(** One step of such a proof. *)
Ltac keeps_step :=
  cbv beta zeta;
  lazymatch goal with
  | |- keeps _ _ (bind (lift_option _ _) _) => apply keeps_bind_lift; [exact _|intros ? ?]
  | |- keeps _ _ (bind _ _) => apply keeps_bind; [| |intros ?]; [exact _| |]
  | |- keeps _ _ (check _ _) => apply keeps_check; exact _
  | |- keeps _ _ (lift_option _ _) => apply keeps_lift; exact _
  | |- keeps _ _ (reads _) => apply keeps_reads; exact _
  | |- keeps _ _ (from_outcome _) => apply keeps_from; exact _
  | |- keeps _ _ (ret _) => apply keeps_ret; exact _
  | |- keeps _ _ get => apply keeps_get; exact _
  | |- keeps _ _ (modify _) => apply keeps_modify; [exact _|by intros ?]
  | |- keeps _ _ (mfold _ _ _) => apply keeps_mfold; [exact _|intros ? ?]
  | |- keeps _ _ (if ?b then _ else _) => destruct b
  | |- keeps _ _ (match ?x with _ => _ end) => destruct x eqn:?
  end.

(* ------------------------------------------------------------------ *)
(** ** Sum lemmas *)

Section msum.
Context `{Countable K} {V : Type}.
Implicit Types (m : gmap K V) (f g : K -> V -> Z).

Lemma msum_empty f : msum f (∅ : gmap K V) = 0.
Proof. apply map_fold_empty. Qed.

Lemma msum_insert f m k v : m !! k = None -> msum f (<[k:=v]> m) = f k v + msum f m.
Proof. intros Hk. unfold msum. rewrite map_fold_insert_L; [done | intros; lia | done]. Qed.

Lemma msum_delete f m k v : m !! k = Some v -> msum f (delete k m) = msum f m - f k v.
Proof.
  intros Hk. rewrite <- (insert_delete_id m k v Hk) at 2.
  rewrite msum_insert by apply lookup_delete_eq. lia.
Qed.

Lemma msum_update f m k v v' :
  m !! k = Some v -> msum f (<[k:=v']> m) = msum f m - f k v + f k v'.
Proof.
  intros Hk. rewrite <- insert_delete_eq, msum_insert by apply lookup_delete_eq.
  rewrite (msum_delete f m k v Hk). lia.
Qed.

Lemma msum_nonneg f m : (forall k v, m !! k = Some v -> 0 <= f k v) -> 0 <= msum f m.
Proof.
  induction m as [|k v m Hk IH] using map_ind; intros Hf.
  - by rewrite msum_empty.
  - rewrite msum_insert by done.
    assert (0 <= f k v) by (apply Hf, lookup_insert_eq).
    assert (0 <= msum f m); [|lia]. apply IH. intros k' v' Hk'. apply Hf.
    rewrite lookup_insert_ne; [done|]. intros ->. congruence.
Qed.

Lemma msum_lookup_le f m k v :
  (forall k v, m !! k = Some v -> 0 <= f k v) -> m !! k = Some v -> f k v <= msum f m.
Proof.
  intros Hf Hk. rewrite <- (insert_delete_id m k v Hk), msum_insert by apply lookup_delete_eq.
  assert (0 <= msum f (delete k m)); [|lia].
  apply msum_nonneg. intros k' v' [_ Hk']%lookup_delete_Some. eauto.
Qed.

Lemma msum_le f g m :
  (forall k v, m !! k = Some v -> f k v <= g k v) -> msum f m <= msum g m.
Proof.
  induction m as [|k v m Hk IH] using map_ind; intros Hf.
  - by rewrite !msum_empty.
  - rewrite !msum_insert by done.
    assert (f k v <= g k v) by (apply Hf, lookup_insert_eq).
    assert (msum f m <= msum g m); [|lia]. apply IH. intros k' v' Hk'. apply Hf.
    rewrite lookup_insert_ne; [done|]. intros ->. congruence.
Qed.

Lemma msum_filter_le (P : K * V -> Prop) `{!forall x, Decision (P x)} f m :
  (forall k v, m !! k = Some v -> 0 <= f k v) -> msum f (filter P m) <= msum f m.
Proof.
  induction m as [|k v m Hm IH] using map_ind; intros Hf; [done|]. rewrite msum_insert by done.
  assert (msum f (filter P m) <= msum f m) as Hle.
  { apply IH. intros k' v' Hk. apply Hf. by rewrite lookup_insert_ne by congruence. }
  pose proof (Hf k v ltac:(by rewrite lookup_insert_eq)). destruct (decide (P (k, v))).
  - rewrite map_filter_insert_True, msum_insert by (done || apply map_lookup_filter_None_2; by left). lia.
  - rewrite map_filter_insert_False, delete_id by done. lia.
Qed.

Lemma msum_ext f g m :
  (forall k v, m !! k = Some v -> f k v = g k v) -> msum f m = msum g m.
Proof. intros Hfg. apply Z.le_antisymm; apply msum_le; intros k v Hk; rewrite (Hfg k v Hk); lia. Qed.

Lemma msum_plus f g m : msum (fun k v => f k v + g k v) m = msum f m + msum g m.
Proof.
  induction m as [|k v m Hk IH] using map_ind.
  - by rewrite !msum_empty.
  - rewrite !msum_insert by done. lia.
Qed.

Lemma msum_map_to_list f m : msum f m = lsum (fun '(k, v) => f k v) (map_to_list m).
Proof. unfold msum, lsum. rewrite map_fold_foldr. induction (map_to_list m) as [|[? ?] ? IH]; [done|].
  cbn in *. by rewrite IH. Qed.

End msum.

Lemma msum_fmap `{Countable K} {V W} (h : V -> W) (f : K -> W -> Z) (m : gmap K V) :
  msum f (h <$> m) = msum (fun k v => f k (h v)) m.
Proof.
  induction m as [|k v m Hk IH] using map_ind.
  - by rewrite fmap_empty, !msum_empty.
  - rewrite fmap_insert, !msum_insert by (by rewrite ?lookup_fmap, Hk). lia.
Qed.

Lemma lsum_cons {A} (f : A -> Z) a l : lsum f (a :: l) = f a + lsum f l.
Proof. done. Qed.

Lemma lsum_one {A} (f : A -> Z) a : lsum f [a] = f a.
Proof. rewrite lsum_cons. apply Z.add_0_r. Qed.

Lemma lsum_app {A} (f : A -> Z) l1 l2 : lsum f (l1 ++ l2) = lsum f l1 + lsum f l2.
Proof. induction l1; cbn [app]; rewrite ?lsum_cons; [done|lia]. Qed.

Lemma lsum_perm {A} (f : A -> Z) l1 l2 : l1 ≡ₚ l2 -> lsum f l1 = lsum f l2.
Proof. induction 1; rewrite ?lsum_cons; lia. Qed.

#[export] Instance lsum_Proper {A} (f : A -> Z) : Proper ((≡ₚ) ==> (=)) (lsum f).
Proof. intros l1 l2. apply lsum_perm. Qed.

Lemma lsum_join {A} (f : A -> Z) (ls : list (list A)) : lsum f (mjoin ls) = lsum (lsum f) ls.
Proof.
  induction ls as [|l ls IH]; [done|]. change (mjoin (l :: ls)) with (l ++ mjoin ls).
  rewrite lsum_app, lsum_cons. by f_equal.
Qed.

Lemma lsum_fmap {A B} (f : B -> Z) (g : A -> B) l : lsum f (g <$> l) = lsum (fun a => f (g a)) l.
Proof. induction l as [|a l IH]; [done|]. rewrite fmap_cons, !lsum_cons. by f_equal. Qed.

Lemma lsum_nonneg {A} (f : A -> Z) l : (forall a, a ∈ l -> 0 <= f a) -> 0 <= lsum f l.
Proof.
  induction l as [|a l IH]; intros Hf; [done|]. rewrite lsum_cons.
  assert (0 <= f a) by (apply Hf; left).
  assert (0 <= lsum f l) by (apply IH; intros; apply Hf; by right). lia.
Qed.

Lemma lsum_ext {A} (f g : A -> Z) l : (forall a, a ∈ l -> f a = g a) -> lsum f l = lsum g l.
Proof.
  induction l as [|a l IH]; intros Hf; [done|]. rewrite !lsum_cons.
  rewrite (Hf a) by left. rewrite IH; [done | intros; apply Hf; by right].
Qed.

Lemma lsum_le {A} (f g : A -> Z) l : (forall a, a ∈ l -> f a <= g a) -> lsum f l <= lsum g l.
Proof.
  induction l as [|a l IH]; intros Hf; [done|]. rewrite !lsum_cons.
  assert (lsum f l <= lsum g l) by (apply IH; intros; apply Hf; by right). pose proof (Hf a ltac:(by left)). lia.
Qed.

Lemma lsum_zero {A} (l : list A) : lsum (fun _ => 0) l = 0.
Proof. induction l; rewrite ?lsum_cons; [done|lia]. Qed.

Lemma lsum_scale {A} (k : Z) (f : A -> Z) l : lsum (fun a => k * f a) l = k * lsum f l.
Proof. induction l; rewrite ?lsum_cons; [cbn; lia|lia]. Qed.

Lemma lsum_plus {A} (f g : A -> Z) l : lsum (fun a => f a + g a) l = lsum f l + lsum g l.
Proof. induction l; rewrite ?lsum_cons; [done|lia]. Qed.

(* ------------------------------------------------------------------ *)
(** ** Filtering lemmas *)

Section filter.
Context {A : Type} (P Q : A -> Prop) `{!forall i, Decision (P i), !forall i, Decision (Q i)}.

Lemma filter_iff_in (l : list A) : (forall i, i ∈ l -> P i <-> Q i) -> filter P l = filter Q l.
Proof.
  induction l as [|x l IH]; intros HPQ; [done|]. rewrite !filter_cons.
  rewrite IH by (intros; apply HPQ; by right).
  assert (P x <-> Q x) by (apply HPQ; left).
  destruct (decide (P x)), (decide (Q x)); tauto.
Qed.

Lemma filter_all (l : list A) : (forall i, i ∈ l -> P i) -> filter P l = l.
Proof.
  induction l as [|x l IH]; intros HP; [done|]. rewrite filter_cons, decide_True by (apply HP; left).
  f_equal. apply IH. intros. apply HP. by right.
Qed.

Lemma filter_none (l : list A) : (forall i, i ∈ l -> ~ P i) -> filter P l = [].
Proof.
  induction l as [|x l IH]; intros HP; [done|]. rewrite filter_cons, decide_False by (apply HP; left).
  apply IH. intros. apply HP. by right.
Qed.

Lemma length_filter_mono (l : list A) :
  (forall i, i ∈ l -> P i -> Q i) -> (length (filter P l) <= length (filter Q l))%nat.
Proof.
  intros HPQ. induction l as [|x l IH]; [done|]. rewrite !filter_cons.
  assert (length (filter P l) <= length (filter Q l))%nat by (apply IH; intros; apply HPQ; [by right|done]).
  pose proof (HPQ x ltac:(left)). destruct (decide (P x)), (decide (Q x)); cbn; try lia; exfalso; auto.
Qed.

Lemma length_filter_ext (l : list A) :
  (forall i, i ∈ l -> P i <-> Q i) -> length (filter P l) = length (filter Q l).
Proof. intros HPQ. by rewrite (filter_iff_in l HPQ). Qed.

End filter.

(* ------------------------------------------------------------------ *)
(** ** Sorting lemmas *)

Lemma sort_Z_perm l : sort_Z l ≡ₚ l.
Proof. apply merge_sort_Permutation. Qed.

Lemma sort_Z_sorted l : StronglySorted Z.le (sort_Z l).
Proof. apply StronglySorted_merge_sort; apply _. Qed.

(** Sorting forgets the order in which the elements were collected. *)
Lemma sort_Z_unique l1 l2 : l1 ≡ₚ l2 -> sort_Z l1 = sort_Z l2.
Proof.
  intros Hp. apply (StronglySorted_unique Z.le); [apply sort_Z_sorted..|].
  by rewrite !sort_Z_perm.
Qed.

Lemma elem_of_sort_Z x l : x ∈ sort_Z l <-> x ∈ l.
Proof. by rewrite sort_Z_perm. Qed.

Lemma elem_of_map_keys {V} k (m : gmap Z V) : k ∈ map_keys m <-> is_Some (m !! k).
Proof.
  unfold map_keys. rewrite list_elem_of_fmap. split.
  - intros [[k' v] [-> Hin]]. apply elem_of_map_to_list in Hin. eauto.
  - intros [v Hv]. exists (k, v). split; [done|]. by apply elem_of_map_to_list.
Qed.

Lemma elem_of_sorted_keys {V} k (m : gmap Z V) : k ∈ sorted_keys m <-> is_Some (m !! k).
Proof. unfold sorted_keys. by rewrite elem_of_sort_Z, elem_of_map_keys. Qed.

Lemma NoDup_sorted_keys {V} (m : gmap Z V) : NoDup (sorted_keys m).
Proof. unfold sorted_keys. rewrite sort_Z_perm. apply NoDup_fst_map_to_list. Qed.

#[export] Hint Resolve sort_Z_perm sort_Z_sorted NoDup_sorted_keys : gonka.
