(* ===== verification/GoStd.v ===== *)
(** Go standard library used by the modelled code: [crypto/sha256],
    [encoding/binary], [encoding/base64], [math/bits] and byte/string conversions.

    Bytes are [Z] values in [0, 256).  [Sum256] is the real SHA-256, so state
    roots of concrete states evaluate; nothing below assumes that it is
    injective.  A theorem that needs collision freedom says which two inputs
    would collide ([sha_collision]). *)

From Stdlib Require Import Ascii.
From stdpp Require Import pretty.
From S2P Require Import Prelude.

Open Scope Z_scope.

(* ------------------------------------------------------------------ *)
(** ** encoding/binary *)

(** [n] bytes of [z], least significant first. *)
Fixpoint le_bytes (n : nat) (z : Z) : list Z :=
  match n with
  | O => []
  | S n' => z mod 256 :: le_bytes n' (z / 256)
  end.
Definition be_bytes (n : nat) (z : Z) : list Z := rev (le_bytes n z).

Fixpoint le_value (l : list Z) : Z :=
  match l with [] => 0 | b :: l' => b + 256 * le_value l' end.
Definition be_value (l : list Z) : Z := le_value (rev l).

(** [binary.BigEndian.PutUint64], [PutUint32]; [binary.LittleEndian.PutUint64]. *)
Definition be_put_u64 (z : Z) : list Z := be_bytes 8 z.
Definition be_put_u32 (z : Z) : list Z := be_bytes 4 z.
Definition le_put_u64 (z : Z) : list Z := le_bytes 8 z.

(** [[]byte(s)] of a Go string. *)
Fixpoint string_bytes (s : string) : list Z :=
  match s with
  | EmptyString => []
  | String a s' => Z.of_nat (nat_of_ascii a) :: string_bytes s'
  end.

(* ------------------------------------------------------------------ *)
(** ** crypto/sha256 (FIPS 180-4) *)

Definition add32 (a b : Z) : Z := (a + b) mod 2 ^ 32.
Definition rotr32 (n x : Z) : Z :=
  Z.lor (Z.shiftr x n) (Z.land (Z.shiftl x (32 - n)) (Z.ones 32)).
Definition not32 (x : Z) : Z := Z.lxor x (Z.ones 32).
Definition sha_ch (x y z : Z) : Z := Z.lxor (Z.land x y) (Z.land (not32 x) z).
Definition sha_maj (x y z : Z) : Z :=
  Z.lxor (Z.lxor (Z.land x y) (Z.land x z)) (Z.land y z).
Definition big_sigma0 (x : Z) : Z := Z.lxor (Z.lxor (rotr32 2 x) (rotr32 13 x)) (rotr32 22 x).
Definition big_sigma1 (x : Z) : Z := Z.lxor (Z.lxor (rotr32 6 x) (rotr32 11 x)) (rotr32 25 x).
Definition small_sigma0 (x : Z) : Z := Z.lxor (Z.lxor (rotr32 7 x) (rotr32 18 x)) (Z.shiftr x 3).
Definition small_sigma1 (x : Z) : Z := Z.lxor (Z.lxor (rotr32 17 x) (rotr32 19 x)) (Z.shiftr x 10).

(** The constants of FIPS 180-4 by their definition: the first 32 bits of the
    fractional parts of the cube roots of the first 64 primes, and of the square
    roots of the first eight. *)
Fixpoint root_bits (bits : nat) (pow : Z) (n r : Z) : Z :=
  match bits with
  | O => r
  | S b => let c := r + 2 ^ Z.of_nat b in root_bits b pow n (if c ^ pow <=? n then c else r)
  end.
Definition fraction_of_root (pow p : Z) : Z := (root_bits 40 pow (p * 2 ^ (32 * pow)) 0) mod 2 ^ 32.
Definition is_prime (n : Z) : bool := forallb (fun d => negb (n mod d =? 0)) (seqZ 2 (n - 2)).
Definition first_primes : list Z := Eval vm_compute in List.filter is_prime (seqZ 2 310).
Definition sha_k : list Z := Eval vm_compute in fraction_of_root 3 <$> first_primes.

Record sha_state := ShaState { sa : Z; sb : Z; sc : Z; sd : Z; se : Z; sf : Z; sg : Z; sh : Z }.

Definition sha_init : sha_state := Eval vm_compute in
  match fraction_of_root 2 <$> take 8 first_primes with
  | [a; b; c; d; e; f; g; h] => ShaState a b c d e f g h
  | _ => ShaState 0 0 0 0 0 0 0 0
  end.

Definition sha_round (s : sha_state) (kw : Z * Z) : sha_state :=
  let t1 := add32 (add32 (add32 (sh s) (big_sigma1 (se s))) (sha_ch (se s) (sf s) (sg s)))
                  (add32 kw.1 kw.2) in
  let t2 := add32 (big_sigma0 (sa s)) (sha_maj (sa s) (sb s) (sc s)) in
  ShaState (add32 t1 t2) (sa s) (sb s) (sc s) (add32 (sd s) t1) (se s) (sf s) (sg s).

(** Message schedule; [w] holds the last sixteen words, oldest first. *)
Fixpoint sha_schedule (n : nat) (w : list Z) : list Z :=
  match n with
  | O => []
  | S n' =>
      match w with
      | w0 :: w' =>
          let nw := add32 (add32 (small_sigma1 (nth 14 w 0)) (nth 9 w 0))
                          (add32 (small_sigma0 (nth 1 w 0)) w0) in
          w0 :: sha_schedule n' (w' ++ [nw])
      | [] => []
      end
  end.

Fixpoint words_be (n : nat) (l : list Z) : list Z :=
  match n with
  | O => []
  | S n' => be_value (take 4 l) :: words_be n' (drop 4 l)
  end.

Definition sha_block (s : sha_state) (blk : list Z) : sha_state :=
  let r := fold_left sha_round (zip sha_k (sha_schedule 64 (words_be 16 blk))) s in
  ShaState (add32 (sa s) (sa r)) (add32 (sb s) (sb r)) (add32 (sc s) (sc r)) (add32 (sd s) (sd r))
           (add32 (se s) (se r)) (add32 (sf s) (sf r)) (add32 (sg s) (sg r)) (add32 (sh s) (sh r)).

Definition sha_pad (msg : list Z) : list Z :=
  let len := length msg in
  msg ++ [128] ++ replicate (Z.to_nat ((55 - Z.of_nat len) mod 64)) 0
      ++ be_bytes 8 (8 * Z.of_nat len).

Fixpoint sha_blocks (n : nat) (s : sha_state) (l : list Z) : sha_state :=
  match n with
  | O => s
  | S n' => sha_blocks n' (sha_block s (take 64 l)) (drop 64 l)
  end.

(** [sha256.Sum256] (and [h := sha256.New(); h.Write(..); h.Sum(nil)] on the
    concatenation of what was written). *)
Definition Sum256 (msg : list Z) : list Z :=
  let p := sha_pad msg in
  let s := sha_blocks (length p / 64)%nat sha_init p in
  be_bytes 4 (sa s) ++ be_bytes 4 (sb s) ++ be_bytes 4 (sc s) ++ be_bytes 4 (sd s) ++
  be_bytes 4 (se s) ++ be_bytes 4 (sf s) ++ be_bytes 4 (sg s) ++ be_bytes 4 (sh s).

(** Two different inputs with the same digest. *)
Definition sha_collision (x y : list Z) : Prop := x <> y /\ Sum256 x = Sum256 y.

(* ------------------------------------------------------------------ *)
(** ** math/bits *)

(** [math.MaxUint64] *)
Definition MaxUint64 : Z := 18446744073709551615.

(** [bits.Add64(x, y, 0)]: sum and carry. *)
Definition Add64 (x y : Z) : Z * Z := (u64 (x + y), (x + y) / 2 ^ 64).
(** [bits.Mul64(x, y)]: high and low words of the 128-bit product. *)
Definition Mul64 (x y : Z) : Z * Z := ((x * y) / 2 ^ 64, (x * y) mod 2 ^ 64).
(** [bits.Div64(hi, lo, y)]: quotient and remainder of the 128-bit value;
    [None] is the panic on [y <= hi] (overflow, or division by zero). *)
Definition Div64 (hi lo y : Z) : option (Z * Z) :=
  if y <=? hi then None else Some ((hi * 2 ^ 64 + lo) / y, (hi * 2 ^ 64 + lo) mod y).

(* ------------------------------------------------------------------ *)
(** ** strconv and strings *)

Definition digit_value (c : ascii) : option Z :=
  let n := Z.of_nat (nat_of_ascii c) in if (48 <=? n) && (n <=? 57) then Some (n - 48) else None.
Fixpoint digits_value (s : string) (acc : Z) : option Z :=
  match s with
  | EmptyString => Some acc
  | String c s' => d ← digit_value c; digits_value s' (acc * 10 + d)
  end.
(** [strconv.ParseUint(s, 10, 64)]; [None] is an error. *)
Definition ParseUint (s : string) : option Z :=
  if bool_decide (s = EmptyString) then None
  else n ← digits_value s 0; if n <? 2 ^ 64 then Some n else None.

(** [strings.ToLower] of ASCII letters, byte by byte. *)
Definition lower_ascii (c : ascii) : ascii :=
  let n := nat_of_ascii c in if (65 <=? n)%nat && (n <=? 90)%nat then ascii_of_nat (n + 32) else c.
Fixpoint ToLower (s : string) : string :=
  match s with
  | EmptyString => EmptyString
  | String c s' => String (lower_ascii c) (ToLower s')
  end.
(** [strings.Repeat(" ", n)] *)
Fixpoint spaces (n : nat) : string :=
  match n with O => EmptyString | S n' => String (ascii_of_nat 32) (spaces n') end.

(* ------------------------------------------------------------------ *)
(** ** encoding/base64 *)

Definition b64_alphabet : string := "ABCDEFGHIJKLMNOPQRSTUVWXYZabcdefghijklmnopqrstuvwxyz0123456789+/".
Definition b64_char (n : Z) : ascii := default "A"%char (String.get (Z.to_nat n) b64_alphabet).
Definition b64_pad : ascii := "="%char.
Fixpoint b64_index (c : ascii) (alphabet : string) (i : Z) : option Z :=
  match alphabet with
  | EmptyString => None
  | String a rest => if bool_decide (a = c) then Some i else b64_index c rest (i + 1)
  end.
Definition b64_value (c : ascii) : option Z := b64_index c b64_alphabet 0.

(** [base64.StdEncoding.EncodeToString]: four digits for three bytes, the last group padded. *)
Fixpoint EncodeToString (l : list Z) : string :=
  let digit v k := b64_char ((v / 2 ^ k) mod 64) in
  match l with
  | [] => EmptyString
  | [a] => let v := a * 2 ^ 16 in
      String (digit v 18) (String (digit v 12) (String b64_pad (String b64_pad EmptyString)))
  | [a; b] => let v := a * 2 ^ 16 + b * 2 ^ 8 in
      String (digit v 18) (String (digit v 12) (String (digit v 6) (String b64_pad EmptyString)))
  | a :: b :: c :: l' => let v := a * 2 ^ 16 + b * 2 ^ 8 + c in
      String (digit v 18) (String (digit v 12) (String (digit v 6) (String (digit v 0) (EncodeToString l'))))
  end.

(** [base64.StdEncoding.DecodeString]: line breaks are skipped, the last group is padded
    and what its last digit has too many of is dropped; [None] is an error. *)
Fixpoint b64_skip (s : string) : string :=
  match s with
  | EmptyString => EmptyString
  | String c s' => if bool_decide (c = "010"%char) || bool_decide (c = "013"%char) then b64_skip s' else String c (b64_skip s')
  end.
Fixpoint b64_decode (s : string) : option (list Z) :=
  match s with
  | EmptyString => Some []
  | String a (String b (String c (String d s'))) =>
      va ← b64_value a; vb ← b64_value b;
      let v := va * 2 ^ 18 + vb * 2 ^ 12 in
      if bool_decide (c = b64_pad) then
        if bool_decide (d = b64_pad) && bool_decide (s' = EmptyString) then Some [v / 2 ^ 16] else None
      else
        vc ← b64_value c;
        let v := v + vc * 2 ^ 6 in
        if bool_decide (d = b64_pad) then
          if bool_decide (s' = EmptyString) then Some [v / 2 ^ 16; (v / 2 ^ 8) mod 256] else None
        else
          vd ← b64_value d;
          let v := v + vd in
          rest ← b64_decode s'; Some (v / 2 ^ 16 :: (v / 2 ^ 8) mod 256 :: v mod 256 :: rest)
  | _ => None
  end.
Definition DecodeString (s : string) : option (list Z) := b64_decode (b64_skip s).

(* ------------------------------------------------------------------ *)
(** ** sort *)

(** [sort.Search(n, f)]: the binary search; each round shrinks the interval, so [n]
    rounds are enough. *)
Fixpoint search_loop (rounds i j : nat) (f : nat -> bool) : nat :=
  match rounds with
  | O => i
  | S rounds' =>
      if (i <? j)%nat then
        let h := ((i + j) / 2)%nat in
        if f h then search_loop rounds' i h f else search_loop rounds' (S h) j f
      else i
  end.
Definition Search (n : nat) (f : nat -> bool) : nat := search_loop n 0 n f.

(* ------------------------------------------------------------------ *)
(** ** Lemmas *)

(** The search finds the first index with [f], when [f] stays true once it is. *)
Lemma search_loop_spec rounds i j f :
  (j - i <= rounds)%nat -> (i <= j)%nat -> (forall k l, (k <= l < j)%nat -> f k = true -> f l = true) ->
  let r := search_loop rounds i j f in (i <= r <= j)%nat /\ (forall k, (i <= k < r)%nat -> f k = false) /\ (r < j -> f r = true)%nat.
Proof.
  revert i j. induction rounds as [|n IH]; intros i j Hn Hij Hf; cbn [search_loop]; [repeat split; lia|].
  destruct (Nat.ltb_spec i j); [|repeat split; lia].
  assert (i <= (i + j) / 2 < j)%nat as Hh by (split; [apply Nat.div_le_lower_bound|apply Nat.div_lt_upper_bound]; lia).
  set (h := ((i + j) / 2)%nat) in *. destruct (f h) eqn:E.
  - destruct (IH i h) as (H1 & H2 & H3); [lia|lia|intros k l Hk; apply Hf; lia|]. cbv zeta. split; [lia|]. split; [done|].
    intros Hr. destruct (decide (search_loop n i h f = h)) as [->|]; [done|]. apply H3. lia.
  - destruct (IH (S h) j) as (H1 & H2 & H3); [lia|lia|done|]. cbv zeta. split; [lia|]. split; [|done].
    intros k Hk. destruct (decide (k <= h)%nat); [|apply H2; lia]. destruct (f k) eqn:Ek; [|done]. rewrite (Hf k h) in E; [done|lia|done].
Qed.

Lemma le_bytes_length n z : length (le_bytes n z) = n.
Proof. revert z; induction n; intros; cbn; auto. Qed.

Lemma be_bytes_length n z : length (be_bytes n z) = n.
Proof. unfold be_bytes. by rewrite length_rev, le_bytes_length. Qed.

Lemma Sum256_length m : length (Sum256 m) = 32%nat.
Proof. unfold Sum256. cbv zeta. by rewrite !length_app, !be_bytes_length. Qed.

(** Reading back what was written, at any width. *)
Lemma le_value_bytes n z : le_value (le_bytes n z) = z mod 256 ^ Z.of_nat n.
Proof.
  revert z; induction n as [|n IH]; intros z.
  - cbn. by rewrite Z.mod_1_r.
  - cbn [le_bytes le_value]. rewrite IH, Nat2Z.inj_succ, Z.pow_succ_r by lia.
    rewrite (Z.rem_mul_r z 256) by lia. lia.
Qed.

Lemma le_bytes_value l :
  Forall is_u8 l -> le_bytes (length l) (le_value l) = l.
Proof.
  induction 1 as [|b l Hb Hl IH]; [done|]. cbn [length le_bytes le_value]. unfold is_u8 in Hb.
  rewrite (Z.mul_comm 256), Z.mod_add, Z.mod_small by lia.
  rewrite Z.div_add, Z.div_small, Z.add_0_l by lia. by rewrite IH.
Qed.

Lemma le_bytes_bytes n z : Forall is_u8 (le_bytes n z).
Proof.
  revert z; induction n; intros; cbn; constructor; auto.
  unfold is_u8. apply Z.mod_pos_bound. lia.
Qed.

Lemma le_bytes_inj n x y :
  0 <= x < 256 ^ Z.of_nat n -> 0 <= y < 256 ^ Z.of_nat n -> le_bytes n x = le_bytes n y -> x = y.
Proof.
  intros Hx Hy Heq. apply (f_equal le_value) in Heq. rewrite !le_value_bytes in Heq.
  by rewrite !Z.mod_small in Heq.
Qed.

Lemma be_bytes_inj n x y :
  0 <= x < 256 ^ Z.of_nat n -> 0 <= y < 256 ^ Z.of_nat n -> be_bytes n x = be_bytes n y -> x = y.
Proof.
  intros Hx Hy Heq. unfold be_bytes in Heq. apply (f_equal (@rev Z)) in Heq.
  rewrite !rev_involutive in Heq. by apply (le_bytes_inj n).
Qed.

Lemma be_put_u64_inj x y : is_u64 x -> is_u64 y -> be_put_u64 x = be_put_u64 y -> x = y.
Proof. apply (be_bytes_inj 8). Qed.

Lemma be_put_u32_inj x y : is_u32 x -> is_u32 y -> be_put_u32 x = be_put_u32 y -> x = y.
Proof. apply (be_bytes_inj 4). Qed.

Lemma string_bytes_inj s t : string_bytes s = string_bytes t -> s = t.
Proof.
  revert t; induction s as [|a s IH]; intros [|b t]; cbn; try discriminate; [done|].
  intros [= Hab Hst]. f_equal; [|by apply IH].
  apply Nat2Z.inj in Hab. rewrite <- (ascii_nat_embedding a), Hab. apply ascii_nat_embedding.
Qed.

Lemma string_bytes_length s : length (string_bytes s) = String.length s.
Proof. induction s; cbn; auto. Qed.

(** Digests agree: the inputs agree, or they are a collision. *)
Lemma Sum256_cases x y : Sum256 x = Sum256 y -> x = y \/ sha_collision x y.
Proof. destruct (decide (x = y)); [auto | right; by split]. Qed.

Lemma Add64_no_carry x y : is_u64 x -> is_u64 y -> (Add64 x y).2 = 0 <-> x + y < 2 ^ 64.
Proof.
  unfold is_u64, Add64; cbn [snd]; intros Hx Hy. split; intros Hd.
  - apply Z.div_small_iff in Hd; lia.
  - apply Z.div_small; lia.
Qed.

Lemma digit_value_range c d : digit_value c = Some d -> 0 <= d <= 9.
Proof. unfold digit_value. destruct (_ && _) eqn:Hc; [|discriminate]. intros [= <-]. boolify. lia. Qed.

Lemma ParseUint_range s n : ParseUint s = Some n -> is_u64 n.
Proof.
  unfold ParseUint, is_u64. case_bool_decide; [discriminate|]. intros (m & Hm & Hn)%bind_Some.
  destruct (m <? 2 ^ 64) eqn:Hlt; [|discriminate]. injection Hn as <-. boolify. split; [|lia].
  assert (forall s acc m, 0 <= acc -> digits_value s acc = Some m -> 0 <= m) as Hd.
  { clear. intros s. induction s as [|c s IH]; cbn; intros acc m Hacc; [by intros [= <-]|].
    intros (d & Hd%digit_value_range & Hs)%bind_Some. eapply IH, Hs. lia. }
  by eapply (Hd s 0).
Qed.

(** A number printed in decimal is read back. *)
Lemma digits_value_go x s : digits_value (pretty_N_go x s) 0 = digits_value s (Z.of_N x).
Proof.
  revert s. induction (N.lt_wf_0 x) as [x _ IH]; intros s. destruct (decide (x = 0)%N) as [->|Hx]; [done|].
  rewrite pretty_N_go_step by lia. rewrite IH by (apply N.div_lt; lia). cbn [digits_value].
  assert (x `mod` 10 < 10)%N as Hm by (by apply N.mod_lt).
  assert (digit_value (pretty_N_char (x `mod` 10)) = Some (Z.of_N (x `mod` 10))) as ->.
  { revert Hm. generalize (x `mod` 10)%N. intros d Hd.
    assert (d = 0 \/ d = 1 \/ d = 2 \/ d = 3 \/ d = 4 \/ d = 5 \/ d = 6 \/ d = 7 \/ d = 8 \/ d = 9)%N as Hc by lia.
    repeat destruct Hc as [->|Hc]; [done..|by subst d]. }
  cbn [mbind option_bind]. f_equal. rewrite N2Z.inj_div, N2Z.inj_mod. pose proof (Z.div_mod (Z.of_N x) 10 ltac:(lia)). change (Z.of_N 10) with 10. lia.
Qed.
Lemma ParseUint_pretty n : is_u64 n -> ParseUint (pretty n) = Some n.
Proof.
  intros Hn. unfold ParseUint. assert (digits_value (pretty n) 0 = Some n) as Hd.
  { destruct n as [|p|p]; [done| |unfold is_u64 in Hn; lia]. change (pretty (Z.pos p)) with (pretty_N_go (N.pos p) ""). by rewrite digits_value_go. }
  rewrite Hd. cbn [mbind option_bind]. unfold is_u64 in Hn. destruct (Z.ltb_spec n (2 ^ 64)); [|lia].
  case_bool_decide as He; [|done]. destruct n as [|p|p]; [done| |lia].
  change (pretty (Z.pos p)) with (pretty_N_go (N.pos p) "") in He. rewrite pretty_N_go_step in He by lia.
  assert (forall x c s, pretty_N_go x (String c s) <> EmptyString) as Hne; [|by destruct (Hne _ _ _ He)].
  clear. intros x. induction (N.lt_wf_0 x) as [x _ IH]; intros c s. destruct (decide (x = 0)%N) as [->|Hx]; [done|].
  rewrite pretty_N_go_step by lia. apply IH, N.div_lt; lia.
Qed.

(** What is encoded in base64 is decoded again. *)
Lemma b64_digits : Forall (fun n => b64_value (b64_char n) = Some n /\ b64_char n <> b64_pad /\
  b64_char n <> "010"%char /\ b64_char n <> "013"%char) (seqZ 0 64).
Proof. apply (bool_decide_unpack _). by vm_compute. Qed.
Lemma b64_digit v k : let c := b64_char ((v / 2 ^ k) mod 64) in b64_value c = Some ((v / 2 ^ k) mod 64) /\
  c <> b64_pad /\ c <> "010"%char /\ c <> "013"%char.
Proof.
  pose proof b64_digits as Hd. rewrite Forall_forall in Hd. apply Hd. apply elem_of_seqZ.
  pose proof (Z.mod_pos_bound (v / 2 ^ k) 64 ltac:(lia)). lia.
Qed.
Lemma b64_skip_digit v k s : b64_skip (String (b64_char ((v / 2 ^ k) mod 64)) s) = String (b64_char ((v / 2 ^ k) mod 64)) (b64_skip s).
Proof. cbn. destruct (b64_digit v k) as (_ & _ & Hn & Hr). by rewrite !bool_decide_eq_false_2. Qed.
Lemma DecodeString_Encode l : Forall is_u8 l -> DecodeString (EncodeToString l) = Some l.
Proof.
  unfold DecodeString. remember (length l) as n eqn:Hn. revert l Hn. induction (lt_wf n) as [n _ IH]. intros l -> Hl.
  destruct l as [|a [|b [|c l]]]; [done| | |]; repeat (apply Forall_cons in Hl as [?H Hl]); unfold is_u8 in *; cbn [EncodeToString].
  all: set (v := Z.add _ _) || set (v := Z.mul _ _).
  all: destruct (b64_digit v 18) as (H18 & _); destruct (b64_digit v 12) as (H12 & _);
    destruct (b64_digit v 6) as (H6 & Hn6 & _); destruct (b64_digit v 0) as (H00 & Hn0 & _).
  all: rewrite !b64_skip_digit; cbn [b64_decode]; rewrite H18, H12; cbn [mbind option_bind].
  - cbn. f_equal. f_equal. unfold v. Z.to_euclidean_division_equations. lia.
  - rewrite bool_decide_eq_false_2, H6 by done. cbn -[Z.div Z.modulo Z.pow]. f_equal. f_equal; [|f_equal]; unfold v; Z.to_euclidean_division_equations; lia.
  - rewrite (bool_decide_eq_false_2 _ Hn6), H6. cbn [mbind option_bind]. rewrite (bool_decide_eq_false_2 _ Hn0), H00. cbn [mbind option_bind].
    rewrite (IH (length l)) by (done || cbn; lia). cbn [mbind option_bind]. f_equal. f_equal; [|f_equal; [|f_equal]]; unfold v; Z.to_euclidean_division_equations; lia.
Qed.
Lemma Sum256_bytes m : Forall is_u8 (Sum256 m).
Proof.
  assert (forall n z, Forall is_u8 (be_bytes n z)) as Hb by (intros n z; apply Forall_rev, le_bytes_bytes).
  unfold Sum256. cbv zeta. rewrite !Forall_app. repeat (split || apply Hb).
Qed.

(** The test vector of FIPS 180-4 for the one-block message [abc]. *)
Example Sum256_abc :
  be_value (Sum256 (string_bytes "abc")) =
  0xba7816bf8f01cfea414140de5dae2223b00361a396177a9cb410ff61f20015ad.
Proof. vm_compute. reflexivity. Qed.
