(* ===== verification/DevshardTypes.v ===== *)
(** Data model of a devshard session: [devshard/types] (domain.go, bitmap.go,
    config.go, max_nonce.go, errors.go) and the protobuf messages of
    [devshard/proto/devshard/v1].

    A protobuf message is a record with the message's fields.  A field name is
    prefixed by its message's initials where two messages share it. *)

From S2P Require Import Prelude.
From S2P Require Import GoStd.

Open Scope Z_scope.

(* ------------------------------------------------------------------ *)
(** ** errors.go *)

(** The sentinel errors of errors.go that the modelled code returns.
    [ErrWrapped] is an unnamed [fmt.Errorf] error; [GoPanic] is a run-time
    panic (nil dereference, index out of range, division by zero). *)
Inductive DevshardError : Type :=
| ErrInvalidNonce | ErrInvalidUserSig | ErrInvalidProposerSig | ErrInvalidExecutorSig
| ErrInsufficientBalance | ErrMultipleStartMsgs | ErrSessionFinalizing | ErrInferenceNotFound
| ErrInferenceSealed | ErrInvalidTransition | ErrSelfValidation | ErrWrongExecutorSlot
| ErrInsufficientVotes | ErrInvalidTimeoutReason | ErrDuplicateVote | ErrAlreadyFinalizing
| ErrEmptyTx | ErrDuplicateInferenceID | ErrInvalidVoteSig | ErrInvalidInferenceID
| ErrCostOverflow | ErrSlotNotInGroup | ErrPostStateRootMismatch | ErrSeedTooShort
| ErrInvalidGroup | ErrEscrowIDMismatch
| ErrWrapped (what : string)
| GoPanic.

#[export] Instance DevshardError_eq_dec : EqDecision DevshardError.
Proof. solve_decision. Defined.

(* ------------------------------------------------------------------ *)
(** ** bitmap.go *)

(** [MaxGroupSize] *)
Definition MaxGroupSize : Z := 128.

(** [type Bitmap128 [2]uint64] *)
Record Bitmap128 := Bitmap { bm_lo : Z; bm_hi : Z }.

#[export] Instance Bitmap128_eq_dec : EqDecision Bitmap128.
Proof. solve_decision. Defined.

Definition bm_zero : Bitmap128 := Bitmap 0 0.

(** [b[w]] *)
Definition bm_word (b : Bitmap128) (w : Z) : Z := if w =? 0 then bm_lo b else bm_hi b.
(** [b[w] = v] *)
Definition bm_set_word (b : Bitmap128) (w v : Z) : Bitmap128 :=
  if w =? 0 then Bitmap v (bm_hi b) else Bitmap (bm_lo b) v.

(** [func (b *Bitmap128) Set(bit uint32)] *)
Definition bm_Set (b : Bitmap128) (bit : Z) : Bitmap128 :=
  if MaxGroupSize <=? bit then b
  else bm_set_word b (bit / 64) (Z.lor (bm_word b (bit / 64)) (u64 (Z.shiftl 1 (bit mod 64)))).

(** [func (b Bitmap128) IsSet(bit uint32) bool] *)
Definition bm_IsSet (b : Bitmap128) (bit : Z) : bool :=
  if MaxGroupSize <=? bit then false
  else Z.land (Z.shiftr (bm_word b (bit / 64)) (bit mod 64)) 1 =? 1.

(** [func (b Bitmap128) Bytes() []byte] *)
Definition bm_Bytes (b : Bitmap128) : list Z := le_put_u64 (bm_lo b) ++ le_put_u64 (bm_hi b).

(** [bits.TrailingZeros64], on a non-zero word. *)
Fixpoint trailing_zeros (fuel : nat) (w : Z) : Z :=
  match fuel with
  | O => 0
  | S f => if Z.testbit w 0 then 0 else 1 + trailing_zeros f (Z.shiftr w 1)
  end.
Definition TrailingZeros64 (w : Z) : Z := if w =? 0 then 64 else trailing_zeros 64 w.

(** The inner loop of [SetBits]: each turn clears the lowest set bit, so 64
    turns are enough for a 64-bit word ([setBits_loop_spec]). *)
Fixpoint setBits_loop (fuel : nat) (base word : Z) : list Z :=
  match fuel with
  | O => []
  | S f =>
      if word =? 0 then []
      else u32 (base + TrailingZeros64 word) :: setBits_loop f base (Z.land word (u64 (word - 1)))
  end.

(** [func (b Bitmap128) SetBits() []uint32] *)
Definition bm_SetBits (b : Bitmap128) : list Z :=
  setBits_loop 64 0 (bm_lo b) ++ setBits_loop 64 64 (bm_hi b).

(** [func Bitmap128FromBytes(data []byte) Bitmap128] *)
Definition Bitmap128FromBytes (data : list Z) : Bitmap128 :=
  if (16 <=? Z.of_nat (length data))
  then Bitmap (le_value (take 8 data)) (le_value (take 8 (drop 8 data)))
  else bm_zero.

(** Both words hold 64-bit values. *)
Definition bm_wf (b : Bitmap128) : Prop := is_u64 (bm_lo b) /\ is_u64 (bm_hi b).

(* ------------------------------------------------------------------ *)
(** ** domain.go *)

(** [type SessionPhase uint8] *)
Inductive SessionPhase := PhaseActive | PhaseFinalizing | PhaseSettlement.
#[export] Instance SessionPhase_eq_dec : EqDecision SessionPhase.
Proof. solve_decision. Defined.
(** [uint8(phase)] *)
Definition phase_byte (p : SessionPhase) : Z :=
  match p with PhaseActive => 0 | PhaseFinalizing => 1 | PhaseSettlement => 2 end.

(** [type InferenceStatus uint8]; [StatusOther] is a code outside the named
    constants, which only decoding foreign bytes can produce. *)
Inductive InferenceStatus :=
| StatusPending | StatusStarted | StatusFinished | StatusChallenged
| StatusValidated | StatusInvalidated | StatusTimedOut | StatusOther (code : Z).
#[export] Instance InferenceStatus_eq_dec : EqDecision InferenceStatus.
Proof. solve_decision. Defined.
(** [uint32(s)] *)
Definition status_code (s : InferenceStatus) : Z :=
  match s with
  | StatusPending => 0 | StatusStarted => 1 | StatusFinished => 2 | StatusChallenged => 3
  | StatusValidated => 4 | StatusInvalidated => 5 | StatusTimedOut => 6 | StatusOther c => c
  end.
(** [InferenceStatus(code)] of a [uint32]. *)
Definition status_of_code (code : Z) : InferenceStatus :=
  let c := u8 code in
  if c =? 0 then StatusPending else if c =? 1 then StatusStarted
  else if c =? 2 then StatusFinished else if c =? 3 then StatusChallenged
  else if c =? 4 then StatusValidated else if c =? 5 then StatusInvalidated
  else if c =? 6 then StatusTimedOut else StatusOther c.

(** [type InferenceRecord struct] *)
Record InferenceRecord := MkInference {
  Status : InferenceStatus;
  ExecutorSlot : Z;
  Model : string;
  PromptHash : list Z;
  ResponseHash : list Z;
  InputLength : Z;
  MaxTokens : Z;
  InputTokens : Z;
  OutputTokens : Z;
  ReservedCost : Z;
  ActualCost : Z;
  StartedAt : Z;
  ConfirmedAt : Z;
  VotesValid : Z;
  VotesInvalid : Z;
  ValidatedBy : Bitmap128
}.
#[export] Instance InferenceRecord_eq_dec : EqDecision InferenceRecord.
Proof. solve_decision. Defined.

(** [type HostStats struct] *)
Record HostStats := MkHostStats {
  Missed : Z;
  Invalid : Z;
  Cost : Z;
  RequiredValidations : Z;
  CompletedValidations : Z
}.
#[export] Instance HostStats_eq_dec : EqDecision HostStats.
Proof. solve_decision. Defined.

(** [&types.HostStats{}] *)
Definition zero_stats : HostStats := MkHostStats 0 0 0 0 0.

(** [type SessionConfig struct] *)
Record SessionConfig := MkConfig {
  RefusalTimeout : Z;
  ExecutionTimeout : Z;
  TokenPrice : Z;
  CreateDevshardFee : Z;
  FeePerNonce : Z;
  VoteThreshold : Z;
  ValidationRate : Z;
  InferenceSealGraceNonces : Z;
  InferenceSealGraceSeconds : Z;
  AutoSealEveryNNonces : Z
}.

(** [type SlotAssignment struct] *)
Record SlotAssignment := MkSlot { SlotID : Z; ValidatorAddress : string }.

(** [type EscrowState struct] *)
Record EscrowState := MkEscrowState {
  EscrowID : string;
  StateRootAndProtocolVersion : string;
  Config : SessionConfig;
  Group : list SlotAssignment;
  Balance : Z;
  Fees : Z;
  Phase : SessionPhase;
  FinalizeNonce : Z;
  Inferences : gmap Z InferenceRecord;
  HostStatsMap : gmap Z HostStats;
  WarmKeys : gmap Z string;
  LatestNonce : Z;
  SealedAcc : list Z
}.

(** [func ValidateGroup(group []SlotAssignment) error] *)
Fixpoint validate_slots (i : Z) (group : list SlotAssignment) : outcome DevshardError unit :=
  match group with
  | [] => Ok tt
  | s :: rest => if negb (SlotID s =? u32 i) then Err ErrInvalidGroup else validate_slots (i + 1) rest
  end.
Definition ValidateGroup (group : list SlotAssignment) : outcome DevshardError unit :=
  if Z.of_nat (length group) =? 0 then Err ErrInvalidGroup
  else if MaxGroupSize <? Z.of_nat (length group) then Err ErrInvalidGroup
  else validate_slots 0 group.

(** [func ComputeWarmKeyDelta(before, after map[uint32]string) map[uint32]string] *)
Definition ComputeWarmKeyDelta (before after : gmap Z string) : gmap Z string :=
  map_imap (fun k addr => if bool_decide (zget "" k before = addr) then None else Some addr) after.

(* ------------------------------------------------------------------ *)
(** ** config.go *)

Definition DefaultInferenceSealGraceSeconds : Z := 3600.
Definition DefaultAutoSealEveryNNonces : Z := 150.
Definition DefaultValidationRate : Z := 5000.
Definition defaultInferenceSealGraceMultiplier : Z := 1.
Definition minInferenceSealGraceNonces : Z := 20.

(** [func DefaultInferenceSealGraceNonces(groupSize int) uint32] *)
Definition DefaultInferenceSealGraceNonces (groupSize : Z) : Z :=
  let grace := groupSize * defaultInferenceSealGraceMultiplier in
  u32 (if grace <? minInferenceSealGraceNonces then minInferenceSealGraceNonces else grace).

(** [func NormalizeSessionConfig(cfg SessionConfig, groupSize int) SessionConfig] *)
Definition NormalizeSessionConfig (cfg : SessionConfig) (groupSize : Z) : SessionConfig :=
  MkConfig (RefusalTimeout cfg) (ExecutionTimeout cfg) (TokenPrice cfg) (CreateDevshardFee cfg)
    (FeePerNonce cfg) (VoteThreshold cfg) (ValidationRate cfg)
    (if InferenceSealGraceNonces cfg =? 0 then DefaultInferenceSealGraceNonces groupSize
     else InferenceSealGraceNonces cfg)
    (if InferenceSealGraceSeconds cfg =? 0 then DefaultInferenceSealGraceSeconds
     else InferenceSealGraceSeconds cfg)
    (if AutoSealEveryNNonces cfg =? 0 then DefaultAutoSealEveryNNonces
     else AutoSealEveryNNonces cfg).

(** [func DefaultSessionConfig(groupSize int) SessionConfig] *)
Definition DefaultSessionConfig (groupSize : Z) : SessionConfig :=
  NormalizeSessionConfig
    (MkConfig 60 (32 * 60) 1 10000 1000 (u32 groupSize / 2) DefaultValidationRate 0 0 0) groupSize.

(** [type EscrowSessionFields struct] *)
Record EscrowSessionFields := MkFields {
  esf_TokenPrice : Z;
  esf_CreateDevshardFee : Z;
  esf_FeePerNonce : Z;
  esf_InferenceSealGraceNonces : Z;
  esf_InferenceSealGraceSeconds : Z;
  esf_AutoSealEveryNNonces : Z;
  esf_ValidationRate : Z;
  esf_VoteThresholdFactor : Z
}.

(** [func ComputeVoteThreshold(groupSize int, factor uint32) uint32] *)
Definition ComputeVoteThreshold (groupSize factor : Z) : Z :=
  if factor =? 0 then u32 groupSize / 2 else u32 (u32 groupSize * factor) / 100.

(** [func SessionConfigFromEscrow(groupSize int, fields EscrowSessionFields) SessionConfig] *)
Definition SessionConfigFromEscrow (groupSize : Z) (fields : EscrowSessionFields) : SessionConfig :=
  let cfg := DefaultSessionConfig groupSize in
  let over (field dflt : Z) := if 0 <? field then field else dflt in
  NormalizeSessionConfig
    (MkConfig (RefusalTimeout cfg) (ExecutionTimeout cfg)
       (over (esf_TokenPrice fields) (TokenPrice cfg))
       (over (esf_CreateDevshardFee fields) (CreateDevshardFee cfg))
       (over (esf_FeePerNonce fields) (FeePerNonce cfg))
       (ComputeVoteThreshold groupSize (esf_VoteThresholdFactor fields))
       (over (esf_ValidationRate fields) (ValidationRate cfg))
       (over (esf_InferenceSealGraceNonces fields) (InferenceSealGraceNonces cfg))
       (over (esf_InferenceSealGraceSeconds fields) (InferenceSealGraceSeconds cfg))
       (over (esf_AutoSealEveryNNonces fields) (AutoSealEveryNNonces cfg)))
    groupSize.

(** [func SessionConfigWithPrice(groupSize int, tokenPrice uint64) SessionConfig] *)
Definition SessionConfigWithPrice (groupSize tokenPrice : Z) : SessionConfig :=
  SessionConfigFromEscrow groupSize (MkFields tokenPrice 0 0 0 0 0 0 0).

(* ------------------------------------------------------------------ *)
(** ** tx.proto: transactions *)

(** [enum TimeoutReason]; an open proto3 enum, so any other number decodes too. *)
Inductive TimeoutReason :=
| TIMEOUT_REASON_UNSPECIFIED | TIMEOUT_REASON_REFUSED | TIMEOUT_REASON_EXECUTION
| TIMEOUT_REASON_OTHER (n : Z).

Record MsgStartInference := MkStart {
  si_InferenceId : Z; si_PromptHash : list Z; si_Model : string;
  si_InputLength : Z; si_MaxTokens : Z; si_StartedAt : Z }.
Record MsgConfirmStart := MkConfirm {
  cs_InferenceId : Z; cs_ExecutorSig : list Z; cs_ConfirmedAt : Z }.
Record MsgFinishInference := MkFinish {
  fi_InferenceId : Z; fi_ResponseHash : list Z; fi_InputTokens : Z; fi_OutputTokens : Z;
  fi_ExecutorSlot : Z; fi_ProposerSig : list Z; fi_EscrowId : string }.
Record TimeoutVote := MkTimeoutVote { tv_VoterSlot : Z; tv_Accept : bool; tv_Signature : list Z }.
Record MsgTimeoutInference := MkTimeout {
  ti_InferenceId : Z; ti_Reason : TimeoutReason; ti_Votes : list TimeoutVote }.
Record MsgValidation := MkValidation {
  mv_InferenceId : Z; mv_ValidatorSlot : Z; mv_Valid : bool;
  mv_ProposerSig : list Z; mv_EscrowId : string }.
Record MsgValidationVote := MkVote {
  vv_InferenceId : Z; vv_VoterSlot : Z; vv_VoteValid : bool;
  vv_ProposerSig : list Z; vv_EscrowId : string }.
Record MsgRevealSeed := MkReveal {
  rs_SlotId : Z; rs_Signature : list Z; rs_ProposerSig : list Z; rs_EscrowId : string }.

(** [message DevshardTx]: a oneof, [EmptyTx] when no member is set. *)
Inductive DevshardTx :=
| StartInference (m : MsgStartInference)
| ConfirmStart (m : MsgConfirmStart)
| FinishInference (m : MsgFinishInference)
| TimeoutInference (m : MsgTimeoutInference)
| Validation (m : MsgValidation)
| ValidationVote (m : MsgValidationVote)
| RevealSeed (m : MsgRevealSeed)
| FinalizeRound
| EmptyTx.

(** [type Diff struct] *)
Record Diff := MkDiff {
  d_Nonce : Z; d_Txs : list DevshardTx; d_UserSig : list Z; d_PostStateRoot : list Z }.

(* ------------------------------------------------------------------ *)
(** ** max_nonce.go *)

(** [func FinalizeNonceReserve(groupSize int) uint64] *)
Definition FinalizeNonceReserve (groupSize : Z) : Z :=
  u64 ((if groupSize <? 0 then 0 else groupSize) + 1).

(** [func MaxActiveNonce(maxNonce uint32, groupSize int) uint64] *)
Definition MaxActiveNonce (maxNonce groupSize : Z) : Z :=
  if maxNonce =? 0 then 2 ^ 64 - 1
  else
    let reserve := FinalizeNonceReserve groupSize in
    if maxNonce <=? reserve then 0 else maxNonce - reserve.

(** [func DiffHasActiveCompletionWork(diff Diff) bool] *)
Definition DiffHasActiveCompletionWork (diff : Diff) : bool :=
  existsb (fun tx => match tx with
                     | StartInference _ | TimeoutInference _ | Validation _ | ValidationVote _ => true
                     | _ => false
                     end) (d_Txs diff).

(* ------------------------------------------------------------------ *)
(** ** state.proto, diff.proto: the messages that are serialized and signed *)

Record HostStatsProto := MkHostStatsProto {
  hp_SlotId : Z; hp_Missed : Z; hp_Invalid : Z; hp_Cost : Z;
  hp_RequiredValidations : Z; hp_CompletedValidations : Z }.
#[export] Instance HostStatsProto_eq_dec : EqDecision HostStatsProto.
Proof. solve_decision. Defined.

Record InferenceRecordProto := MkInferenceProto {
  ip_InferenceId : Z; ip_Status : Z; ip_ExecutorSlot : Z; ip_Model : string;
  ip_PromptHash : list Z; ip_ResponseHash : list Z; ip_InputLength : Z; ip_MaxTokens : Z;
  ip_InputTokens : Z; ip_OutputTokens : Z; ip_ReservedCost : Z; ip_ActualCost : Z;
  ip_StartedAt : Z; ip_ConfirmedAt : Z; ip_VotesValid : Z; ip_VotesInvalid : Z;
  ip_ValidatedBy : list Z }.

Inductive ProtoMsg :=
| PDiffContent (nonce : Z) (txs : list DevshardTx) (escrowID : string) (postStateRoot : list Z)
| PExecutorReceipt (id : Z) (promptHash : list Z) (model : string)
    (inputLength maxTokens startedAt : Z) (escrowID : string) (confirmedAt : Z)
| PTimeoutVote (escrowID : string) (id : Z) (reason : TimeoutReason) (accept : bool)
| PFinish (m : MsgFinishInference)
| PValidation (m : MsgValidation)
| PValidationVote (m : MsgValidationVote)
| PHostStatsMap (entries : list HostStatsProto)
| PInferenceRecord (r : InferenceRecordProto)
| PStateSignature (stateRoot : list Z) (escrowID : string) (nonce : Z).

(* ------------------------------------------------------------------ *)
(** ** Lemmas: the bitmap *)

Lemma land_shiftr_testbit w n : 0 <= n -> (Z.land (Z.shiftr w n) 1 =? 1) = Z.testbit w n.
Proof.
  intros Hn. change 1 with (Z.ones 1) at 1. rewrite Z.land_ones by lia.
  rewrite <- (Z.add_0_l n) at 2. rewrite <- Z.shiftr_spec by lia.
  rewrite Z.bit0_odd, (Zmod_odd _). by destruct (Z.odd _).
Qed.

Lemma bm_IsSet_testbit b i :
  0 <= i < MaxGroupSize -> bm_IsSet b i = Z.testbit (bm_word b (i / 64)) (i mod 64).
Proof.
  intros Hi. unfold bm_IsSet. destruct (Z.leb_spec MaxGroupSize i) as [?|_]; [lia|].
  apply land_shiftr_testbit, Z.mod_pos_bound. lia.
Qed.

Lemma lor_range a b n : 0 <= n -> 0 <= a < 2 ^ n -> 0 <= b < 2 ^ n -> 0 <= Z.lor a b < 2 ^ n.
Proof.
  intros Hn Ha Hb. split; [apply Z.lor_nonneg; lia|].
  rewrite <- (Z.mod_small a (2 ^ n)), <- (Z.mod_small b (2 ^ n)) by lia.
  rewrite <- !Z.land_ones, <- Z.land_lor_distr_l, Z.land_ones by lia.
  apply Z.mod_pos_bound. lia.
Qed.

Lemma land_range a b n : 0 <= n -> 0 <= a < 2 ^ n -> 0 <= Z.land a b < 2 ^ n.
Proof.
  intros Hn Ha. split; [apply Z.land_nonneg; lia|].
  rewrite <- (Z.mod_small a (2 ^ n)), <- Z.land_ones by lia.
  rewrite <- Z.land_assoc, (Z.land_comm (Z.ones n)), Z.land_assoc, Z.land_ones by lia.
  apply Z.mod_pos_bound. lia.
Qed.

Lemma bm_bit_small k : 0 <= k < 64 -> u64 (Z.shiftl 1 k) = 2 ^ k.
Proof.
  intros Hk. rewrite Z.shiftl_1_l. apply u64_small. split; [lia|].
  apply Z.pow_lt_mono_r; lia.
Qed.

Lemma bm_Set_wf b i : bm_wf b -> 0 <= i -> bm_wf (bm_Set b i).
Proof.
  intros [Hl Hh] Hi. unfold bm_Set. destruct (Z.leb_spec MaxGroupSize i); [by split|].
  pose proof (Z.mod_pos_bound i 64 ltac:(lia)) as Hm.
  unfold bm_set_word, bm_word.
  destruct (i / 64 =? 0); split; cbn; try done; apply (lor_range _ _ 64); try lia; try done;
    apply u64_range.
Qed.

(** Setting a bit sets that bit and no other. *)
Lemma bm_IsSet_Set b i j :
  0 <= i < MaxGroupSize -> 0 <= j < MaxGroupSize ->
  bm_IsSet (bm_Set b i) j = bm_IsSet b j || (i =? j).
Proof.
  intros Hi Hj. rewrite !bm_IsSet_testbit by done.
  unfold bm_Set. destruct (Z.leb_spec MaxGroupSize i) as [?|_]; [lia|].
  unfold MaxGroupSize in *.
  pose proof (Z.mod_pos_bound i 64 ltac:(lia)) as Hmi.
  pose proof (Z.mod_pos_bound j 64 ltac:(lia)) as Hmj.
  pose proof (Z.div_mod i 64 ltac:(lia)) as Hdi. pose proof (Z.div_mod j 64 ltac:(lia)) as Hdj.
  rewrite bm_bit_small by done.
  assert (i / 64 = 0 \/ i / 64 = 1) as Hqi by lia.
  assert (j / 64 = 0 \/ j / 64 = 1) as Hqj by lia.
  destruct Hqi as [Hqi|Hqi], Hqj as [Hqj|Hqj]; rewrite Hqi, Hqj; unfold bm_set_word, bm_word; cbn;
    rewrite ?Z.lor_spec, ?Z.pow2_bits_eqb by lia.
  - f_equal. rewrite (Z.eqb_sym i j). destruct (Z.eqb_spec (i mod 64) (j mod 64)), (Z.eqb_spec j i); lia.
  - destruct (Z.eqb_spec i j); [lia|]. by rewrite orb_false_r.
  - destruct (Z.eqb_spec i j); [lia|]. by rewrite orb_false_r.
  - f_equal. rewrite (Z.eqb_sym i j). destruct (Z.eqb_spec (i mod 64) (j mod 64)), (Z.eqb_spec j i); lia.
Qed.

Lemma bm_IsSet_zero i : bm_IsSet bm_zero i = false.
Proof.
  unfold bm_IsSet, bm_word, bm_zero. destruct (MaxGroupSize <=? i); [done|].
  assert ((if i / 64 =? 0 then bm_lo (Bitmap 0 0) else bm_hi (Bitmap 0 0)) = 0) as ->
    by by destruct (i / 64 =? 0).
  by rewrite Z.shiftr_0_l.
Qed.

Lemma FromBytes_Bytes b : bm_wf b -> Bitmap128FromBytes (bm_Bytes b) = b.
Proof.
  intros [Hl Hh]. unfold Bitmap128FromBytes, bm_Bytes, le_put_u64.
  rewrite length_app, !le_bytes_length. cbn [Nat.add Z.of_nat]. cbn.
  destruct b as [lo hi]; cbn in *. unfold is_u64 in *.
  f_equal.
  - change (le_value (le_bytes 8 lo) = lo). rewrite le_value_bytes. by apply Z.mod_small.
  - change (le_value (le_bytes 8 hi) = hi). rewrite le_value_bytes. by apply Z.mod_small.
Qed.

Lemma trailing_zeros_spec f w :
  0 < w < 2 ^ Z.of_nat f ->
  exists m, 0 <= m /\ 0 <= trailing_zeros f w < Z.of_nat f /\ w = 2 ^ trailing_zeros f w * (2 * m + 1).
Proof.
  revert w; induction f as [|f IH]; intros w Hw; [cbn in Hw; lia|].
  cbn [trailing_zeros]. rewrite Nat2Z.inj_succ, Z.pow_succ_r in * by lia.
  pose proof (Z.div_mod w 2 ltac:(lia)) as Hdm.
  rewrite Z.bit0_odd, Zodd_mod. destruct (Z.eqb_spec (w mod 2) 1) as [Ho|Ho].
  - exists (w / 2). repeat split; lia.
  - pose proof (Z.mod_pos_bound w 2 ltac:(lia)).
    rewrite Z.shiftr_div_pow2 by lia. change (2 ^ 1) with 2.
    destruct (IH (w / 2)) as (m & Hm & Htz & Heq); [lia|].
    exists m. repeat split; try lia. rewrite Z.add_1_l, Z.pow_succ_r by lia. lia.
Qed.

(** The positions of the set bits of a word. *)
Definition word_bits (w : Z) : list Z := filter (fun i => Z.testbit w i = true) (seqZ 0 64).

Lemma testbit_clear_lowest k m i :
  0 <= k -> 0 <= i -> 0 <= m ->
  let w := 2 ^ k * (2 * m + 1) in
  Z.testbit (Z.land w (w - 1)) i = Z.testbit w i && negb (i =? k).
Proof.
  intros Hk Hi Hm w. rewrite Z.land_spec. unfold w. clear w.
  assert (0 < 2 ^ k) by lia.
  destruct (Z.lt_trichotomy i k) as [Hlt|[->|Hgt]].
  - rewrite (Z.mul_comm (2 ^ k)), Z.mul_pow2_bits_low by lia. done.
  - rewrite Z.eqb_refl, andb_false_r. apply andb_false_iff. right.
    replace (2 ^ k * (2 * m + 1) - 1) with (2 ^ k - 1 + (2 * m) * 2 ^ k) by ring.
    rewrite <- (Z.add_0_l k) at 3. rewrite <- Z.div_pow2_bits by lia.
    rewrite Z.div_add, Z.div_small, Z.add_0_l by lia. by rewrite Z.testbit_even_0.
  - destruct (Z.eqb_spec i k); [lia|]. rewrite andb_true_r.
    replace (2 ^ k * (2 * m + 1) - 1) with (2 ^ k - 1 + (2 * m) * 2 ^ k) by ring.
    replace (2 ^ k * (2 * m + 1)) with (2 ^ k + m * 2 ^ (k + 1))
      by (rewrite Z.pow_add_r by lia; ring).
    replace (2 ^ k - 1 + 2 * m * 2 ^ k) with (2 ^ k - 1 + m * 2 ^ (k + 1))
      by (rewrite Z.pow_add_r by lia; ring).
    replace i with ((i - (k + 1)) + (k + 1)) by lia.
    assert (2 ^ k < 2 ^ (k + 1)) by (apply Z.pow_lt_mono_r; lia).
    rewrite <- !Z.div_pow2_bits, !Z.div_add, !Z.div_small by lia. by rewrite andb_diag.
Qed.

Lemma filter_head (P Q : Z -> Prop) `{!forall i, Decision (P i), !forall i, Decision (Q i)} (k : Z) (l : list Z) :
  StronglySorted Z.lt l -> k ∈ l -> P k -> (forall i, i ∈ l -> i < k -> ~ P i) ->
  (forall i, i ∈ l -> Q i <-> P i /\ i <> k) ->
  filter P l = k :: filter Q l.
Proof.
  induction l as [|x l IH]; intros Hs Hk HPk Hlow HQ; [by apply not_elem_of_nil in Hk|].
  inversion Hs as [|? ? Hsl Hx]; subst. rewrite Forall_forall in Hx.
  assert (Q x <-> P x /\ x <> k) as HQx by (apply HQ; left).
  rewrite !filter_cons. destruct (decide (x = k)) as [->|Hne].
  - rewrite decide_True by done. rewrite decide_False by (intros []%HQx; done). f_equal.
    apply filter_iff_in. intros i Hi. assert (k < i) by by apply Hx.
    rewrite HQ by by right. naive_solver lia.
  - assert (k ∈ l) as Hkl by set_solver.
    assert (x < k) by by apply Hx. assert (~ P x) by (apply Hlow; [left | done]).
    rewrite decide_False by done. rewrite decide_False by (intros []%HQx; done).
    apply IH; try done; intros; [apply Hlow | apply HQ]; set_solver.
Qed.

Lemma seqZ_sorted m n : StronglySorted Z.lt (seqZ m n).
Proof.
  unfold seqZ. generalize (Z.to_nat n) as k. intros k.
  assert (forall a, StronglySorted Z.lt ((fun i : nat => Z.add (Z.of_nat i) m) <$> seq a k)) as Hk; [|apply Hk].
  induction k as [|k IH]; intros a; cbn; constructor; [apply IH|].
  rewrite Forall_forall. intros x Hx. apply list_elem_of_fmap in Hx as (y & -> & Hy).
  apply elem_of_seq in Hy. lia.
Qed.

Lemma word_bits_step w :
  0 < w < 2 ^ 64 -> word_bits w = TrailingZeros64 w :: word_bits (Z.land w (u64 (w - 1))).
Proof.
  intros Hw. rewrite u64_small by (unfold is_u64; lia).
  destruct (trailing_zeros_spec 64 w Hw) as (m & Hm & Htz & Heq).
  unfold TrailingZeros64. destruct (Z.eqb_spec w 0); [lia|].
  set (k := trailing_zeros 64 w) in *.
  assert (forall i, 0 <= i -> Z.testbit (Z.land w (w - 1)) i = Z.testbit w i && negb (i =? k)) as Hcl.
  { intros i Hi. rewrite Heq. apply testbit_clear_lowest; lia. }
  unfold word_bits. apply filter_head; [apply seqZ_sorted| | | |].
  - apply elem_of_seqZ. lia.
  - rewrite Heq, (Z.mul_comm (2 ^ k)), Z.mul_pow2_bits, Z.sub_diag by lia.
    by rewrite Z.testbit_odd_0.
  - intros i Hi Hlt. rewrite Heq, (Z.mul_comm (2 ^ k)), Z.mul_pow2_bits_low by lia. done.
  - intros i Hi%elem_of_seqZ. rewrite Hcl by lia.
    rewrite andb_true_iff, negb_true_iff, Z.eqb_neq. done.
Qed.

(** The clearing loop lists the set bits of a word in ascending order. *)
Lemma setBits_loop_spec f base w :
  0 <= w < 2 ^ 64 -> 0 <= base <= 64 -> (length (word_bits w) <= f)%nat ->
  setBits_loop f base w = (fun i => base + i) <$> word_bits w.
Proof.
  revert w; induction f as [|f IH]; intros w Hw Hb Hf.
  - destruct (word_bits w); [done | cbn in Hf; lia].
  - cbn [setBits_loop]. destruct (Z.eqb_spec w 0) as [->|Hnz].
    + unfold word_bits. clear. induction (seqZ 0 64) as [|x l IHl]; [done|].
      rewrite filter_cons, decide_False by by rewrite Z.testbit_0_l. done.
    + pose proof (trailing_zeros_spec 64 w ltac:(lia)) as (m & _ & Htz & _).
      rewrite (word_bits_step w) in * by lia. cbn [length fmap list_fmap] in *.
      rewrite IH; try lia.
      * f_equal. apply u32_small. unfold TrailingZeros64, is_u32.
        destruct (Z.eqb_spec w 0); lia.
      * rewrite u64_small by (unfold is_u64; lia).
        apply land_range; lia.
Qed.

Lemma word_bits_length w : (length (word_bits w) <= 64)%nat.
Proof. unfold word_bits. etrans; [apply length_filter|]. by rewrite length_seqZ. Qed.

Lemma filter_fmap_Z (P Q : Z -> Prop) `{!forall i, Decision (P i), !forall i, Decision (Q i)} (g : Z -> Z) (l : list Z) :
  (forall i, i ∈ l -> Q (g i) <-> P i) -> g <$> filter P l = filter Q (g <$> l).
Proof.
  induction l as [|x l IH]; intros HQ; [done|]. cbn [fmap list_fmap]. rewrite !filter_cons.
  assert (Q (g x) <-> P x) by (apply HQ; left).
  assert (g <$> filter P l = filter Q (g <$> l)) as IH' by (apply IH; intros; apply HQ; by right).
  destruct (decide (P x)), (decide (Q (g x))); cbn [fmap list_fmap]; rewrite ?IH'; naive_solver.
Qed.

(** [SetBits] returns exactly the positions that [IsSet] reports, each
    once and in ascending order, for every bitmap of two 64-bit words. *)
Theorem bm_SetBits_spec b :
  bm_wf b -> bm_SetBits b = filter (fun i => bm_IsSet b i = true) (seqZ 0 128).
Proof.
  intros [Hl Hh]. unfold is_u64 in *. unfold bm_SetBits.
  rewrite !setBits_loop_spec by (try apply word_bits_length; lia).
  change (seqZ 0 128) with (seqZ 0 64 ++ ((fun i => 64 + i) <$> seqZ 0 64)).
  rewrite filter_app. f_equal.
  - unfold word_bits. rewrite (filter_fmap_Z _ (fun i => bm_IsSet b i = true)).
    + f_equal.
    + intros i Hi%elem_of_seqZ. rewrite Z.add_0_l, bm_IsSet_testbit by (unfold MaxGroupSize; lia).
      by rewrite Z.div_small, Z.mod_small by lia.
  - unfold word_bits. apply filter_fmap_Z. intros i Hi%elem_of_seqZ.
    rewrite bm_IsSet_testbit by (unfold MaxGroupSize; lia).
    replace (64 + i) with (i + 1 * 64) by lia.
    by rewrite Z.div_add, Z.mod_add, Z.div_small, Z.mod_small by lia.
Qed.

Lemma bm_SetBits_spec_witness :
  bm_wf (bm_Set (bm_Set bm_zero 3) 100) /\
  filter (fun i => bm_IsSet (bm_Set (bm_Set bm_zero 3) 100) i = true) (seqZ 0 128) = [3; 100].
Proof.
  assert (bm_wf (bm_Set (bm_Set bm_zero 3) 100)) as Hwf by (vm_compute; intuition congruence).
  split; [exact Hwf|].
  rewrite <- (bm_SetBits_spec (bm_Set (bm_Set bm_zero 3) 100) Hwf). vm_compute. reflexivity.
Defined.

(* ------------------------------------------------------------------ *)
(** ** Lemmas: groups and configuration *)

(** What [ValidateGroup] establishes: a non-empty group of at most 128 slots
    whose slot ids are their positions. *)
Definition group_wf (g : list SlotAssignment) : Prop :=
  (0 < Z.of_nat (length g) <= MaxGroupSize) /\
  forall i s, g !! i = Some s -> SlotID s = Z.of_nat i.

Lemma validate_slots_spec k g :
  0 <= k -> k + Z.of_nat (length g) <= MaxGroupSize ->
  validate_slots k g = Ok tt <-> (forall i s, g !! i = Some s -> SlotID s = k + Z.of_nat i).
Proof.
  revert k; induction g as [|s g IH]; intros k Hk Hlen; [split; [by intros _ [] | done]|].
  cbn [validate_slots length] in *. unfold MaxGroupSize in *.
  rewrite u32_small by (unfold is_u32; lia).
  destruct (Z.eqb_spec (SlotID s) k) as [Hs|Hs]; cbn.
  - rewrite IH by lia. split.
    + intros H [|i] t Ht; cbn in Ht; [injection Ht as <-; lia|]. rewrite (H i t Ht). lia.
    + intros H i t Ht. rewrite (H (S i) t Ht). lia.
  - split; [done|]. intros H. specialize (H 0%nat s eq_refl). lia.
Qed.

Lemma ValidateGroup_spec g : ValidateGroup g = Ok tt <-> group_wf g.
Proof.
  unfold ValidateGroup, group_wf.
  destruct (Z.eqb_spec (Z.of_nat (length g)) 0); [split; [done|lia]|].
  destruct (Z.ltb_spec MaxGroupSize (Z.of_nat (length g))); [split; [done|lia]|].
  rewrite (validate_slots_spec 0 g) by lia. split; [split; [lia|done] | by intros []].
Qed.

Lemma ValidateGroup_cases g : ValidateGroup g = Ok tt \/ ValidateGroup g = Err ErrInvalidGroup.
Proof.
  unfold ValidateGroup. destruct (_ =? _); [auto|]. destruct (_ <? _); [auto|].
  generalize 0 as k. induction g as [|s g IH]; intros k; cbn; [auto|].
  destruct (negb _); auto.
Qed.

(** keeping the active phase at or below [MaxActiveNonce] leaves room
    for the finalize diff and the [groupSize] rounds that follow it, so the
    settlement nonce stays within the chain's [max_nonce]; and a nonce above it
    does not. *)
Theorem MaxActiveNonce_leaves_room maxNonce groupSize nonce :
  0 < maxNonce < 2 ^ 32 -> 0 <= groupSize <= MaxGroupSize -> groupSize + 1 < maxNonce ->
  0 <= nonce ->
  nonce <= MaxActiveNonce maxNonce groupSize <-> nonce + 1 + groupSize <= maxNonce.
Proof.
  unfold MaxGroupSize. intros Hm Hg Hr Hn. unfold MaxActiveNonce, FinalizeNonceReserve.
  destruct (Z.eqb_spec maxNonce 0); [lia|]. destruct (Z.ltb_spec groupSize 0); [lia|].
  rewrite u64_small by (unfold is_u64; lia).
  destruct (Z.leb_spec maxNonce (groupSize + 1)); lia.
Qed.

Lemma MaxActiveNonce_leaves_room_witness :
  (983 <= MaxActiveNonce 1000 16 <-> 983 + 1 + 16 <= 1000).
Proof. apply (MaxActiveNonce_leaves_room 1000 16 983); unfold MaxGroupSize; lia. Defined.

(** A session config built from escrow fields never has a zero seal interval or
    grace, and its vote threshold is the escrow's. *)
Lemma SessionConfigFromEscrow_normal n f :
  0 <= n <= MaxGroupSize ->
  let c := SessionConfigFromEscrow n f in
  AutoSealEveryNNonces c <> 0 /\ InferenceSealGraceNonces c <> 0 /\
  InferenceSealGraceSeconds c <> 0 /\
  VoteThreshold c = ComputeVoteThreshold n (esf_VoteThresholdFactor f).
Proof.
  unfold MaxGroupSize. intros Hn. cbn. unfold NormalizeSessionConfig. cbn.
  assert (DefaultInferenceSealGraceNonces n <> 0) as Hg.
  { unfold DefaultInferenceSealGraceNonces, minInferenceSealGraceNonces, defaultInferenceSealGraceMultiplier.
    destruct (Z.ltb_spec (n * 1) 20); rewrite u32_small; unfold is_u32; lia. }
  repeat split; repeat match goal with
    | |- context [if ?b then _ else _] => destruct b eqn:?; boolify; try done
    end; lia.
Qed.
