(* ===== verification/DevshardHash.v ===== *)
(** State commitments of a devshard session: [devshard/state/hash.go].

    Protobuf serialization ([google.golang.org/protobuf]) is not part of the
    repository: it is the class [ProtoCodec], and what the code relies on is the
    class [ProtoCodecLaws]. *)

From S2P Require Import Prelude.
From S2P Require Import GoStd.
From S2P Require Import DevshardTypes.

Open Scope Z_scope.
Open Scope go_scope.

(* ------------------------------------------------------------------ *)
(** ** The protobuf interface *)

(** [deterministicMarshal.Marshal], [proto.Unmarshal] at the inference entry,
    and the two [protowire] appenders. [None] is a returned error. *)
Class ProtoCodec := {
  Marshal : ProtoMsg -> option (list Z);
  UnmarshalInference : list Z -> option InferenceRecordProto;
  AppendTag : Z -> Z -> list Z;
  AppendVarint : Z -> list Z
}.

(** [protowire.BytesType] *)
Definition BytesType : Z := 2.

(** The values that the Go struct of an inference entry can hold. *)
Definition entry_wf (r : InferenceRecordProto) : Prop :=
  is_u64 (ip_InferenceId r) /\ is_u32 (ip_Status r) /\ is_u32 (ip_ExecutorSlot r) /\
  is_u64 (ip_InputLength r) /\ is_u64 (ip_MaxTokens r) /\ is_u64 (ip_InputTokens r) /\
  is_u64 (ip_OutputTokens r) /\ is_u64 (ip_ReservedCost r) /\ is_u64 (ip_ActualCost r) /\
  is_i64 (ip_StartedAt r) /\ is_i64 (ip_ConfirmedAt r) /\
  is_u32 (ip_VotesValid r) /\ is_u32 (ip_VotesInvalid r) /\
  Forall is_u8 (ip_PromptHash r) /\ Forall is_u8 (ip_ResponseHash r) /\
  Forall is_u8 (ip_ValidatedBy r).

Definition stats_entry_wf (e : HostStatsProto) : Prop :=
  is_u32 (hp_SlotId e) /\ is_u32 (hp_Missed e) /\ is_u32 (hp_Invalid e) /\ is_u64 (hp_Cost e) /\
  is_u32 (hp_RequiredValidations e) /\ is_u32 (hp_CompletedValidations e).

(** What the wire format promises: an inference entry decodes to itself, two
    host-stats maps with the same bytes are the same map, whether an inference
    entry can be serialized depends on its only string field (which must be valid
    UTF-8), and a length prefix can be told apart from what follows it. *)
Class ProtoCodecLaws `{ProtoCodec} := {
  unmarshal_marshal : forall r b, entry_wf r ->
    Marshal (PInferenceRecord r) = Some b -> UnmarshalInference b = Some r;
  marshal_stats_inj : forall l1 l2 b, Forall stats_entry_wf l1 -> Forall stats_entry_wf l2 ->
    Marshal (PHostStatsMap l1) = Some b -> Marshal (PHostStatsMap l2) = Some b -> l1 = l2;
  marshal_model_only : forall r r', ip_Model r = ip_Model r' ->
    is_Some (Marshal (PInferenceRecord r)) -> is_Some (Marshal (PInferenceRecord r'));
  varint_prefix : forall m n x y, is_u64 m -> is_u64 n ->
    AppendVarint m ++ x = AppendVarint n ++ y -> m = n /\ x = y
}.

(* ------------------------------------------------------------------ *)
(** ** hash.go *)

Section Hash.
Context `{ProtoCodec}.

(** [func marshalInferenceEntry(id uint64, r *types.InferenceRecord) ([]byte, error)] *)
Definition inference_proto (id : Z) (r : InferenceRecord) : InferenceRecordProto :=
  MkInferenceProto id (status_code (Status r)) (ExecutorSlot r) (Model r) (PromptHash r)
    (ResponseHash r) (InputLength r) (MaxTokens r) (InputTokens r) (OutputTokens r)
    (ReservedCost r) (ActualCost r) (StartedAt r) (ConfirmedAt r) (VotesValid r) (VotesInvalid r)
    (bm_Bytes (ValidatedBy r)).
Definition marshalInferenceEntry (id : Z) (r : InferenceRecord) : outcome DevshardError (list Z) :=
  match Marshal (PInferenceRecord (inference_proto id r)) with
  | Some data => Ok data
  | None => Err (ErrWrapped "marshal inference")
  end.

(** [func unmarshalInferenceEntry(data []byte) (uint64, *types.InferenceRecord, error)] *)
Definition unmarshalInferenceEntry (data : list Z) : outcome DevshardError (Z * InferenceRecord) :=
  match UnmarshalInference data with
  | None => Err (ErrWrapped "unmarshal inference entry")
  | Some m =>
      Ok (ip_InferenceId m,
          MkInference (status_of_code (ip_Status m)) (ip_ExecutorSlot m) (ip_Model m)
            (ip_PromptHash m) (ip_ResponseHash m) (ip_InputLength m) (ip_MaxTokens m)
            (ip_InputTokens m) (ip_OutputTokens m) (ip_ReservedCost m) (ip_ActualCost m)
            (ip_StartedAt m) (ip_ConfirmedAt m) (ip_VotesValid m) (ip_VotesInvalid m)
            (Bitmap128FromBytes (ip_ValidatedBy m)))
  end.

(** [func computeInferencesHashFromEntries(entries map[uint64][]byte) []byte] *)
Definition frame_entry (entry : list Z) : list Z :=
  AppendTag 1 BytesType ++ AppendVarint (u64 (Z.of_nat (length entry))) ++ entry.
Definition entries_buf (entries : gmap Z (list Z)) : list Z :=
  concat ((fun id => frame_entry (zget [] id entries)) <$> sorted_keys entries).
Definition computeInferencesHashFromEntries (entries : gmap Z (list Z)) : list Z :=
  Sum256 (entries_buf entries).

(** [func computeInferencesHash(inferences map[uint64]*types.InferenceRecord) ([]byte, error)] *)
Definition marshal_entries (infs : list (Z * InferenceRecord))
  : outcome DevshardError (gmap Z (list Z)) :=
  ofold (fun entries '(id, rec) =>
           let! entry := marshalInferenceEntry id rec in Ok (<[id:=entry]> entries)) ∅ infs.
Definition computeInferencesHash (infs : gmap Z InferenceRecord) : outcome DevshardError (list Z) :=
  let! entries := marshal_entries (map_to_list infs) in
  Ok (computeInferencesHashFromEntries entries).

(** [func computeHostStatsHash(hostStats map[uint32]*types.HostStats) ([]byte, error)] *)
Definition stats_proto (id : Z) (s : HostStats) : HostStatsProto :=
  MkHostStatsProto id (Missed s) (Invalid s) (Cost s) (RequiredValidations s)
    (CompletedValidations s).
Definition stats_entries (hs : gmap Z HostStats) : list HostStatsProto :=
  (fun id => stats_proto id (zget zero_stats id hs)) <$> sorted_keys hs.
Definition computeHostStatsHash (hs : gmap Z HostStats) : outcome DevshardError (list Z) :=
  match Marshal (PHostStatsMap (stats_entries hs)) with
  | Some data => Ok (Sum256 data)
  | None => Err (ErrWrapped "marshal host stats")
  end.

(** [func computeWarmKeysHash(warmKeys map[uint32]string) []byte] *)
Definition warm_entry (warmKeys : gmap Z string) (id : Z) : list Z :=
  let addr := string_bytes (zget "" id warmKeys) in
  be_put_u32 id ++ be_put_u32 (u32 (Z.of_nat (length addr))) ++ addr.
Definition warm_buf (warmKeys : gmap Z string) : list Z :=
  concat (warm_entry warmKeys <$> sorted_keys warmKeys).
Definition computeWarmKeysHash (warmKeys : gmap Z string) : list Z :=
  if bool_decide (size warmKeys = 0%nat) then Sum256 [] else Sum256 (warm_buf warmKeys).

(** [func computeRestHash(balance, inferences, warmKeys) ([]byte, error)] *)
Definition computeRestHash (balance : Z) (infs : gmap Z InferenceRecord) (warmKeys : gmap Z string)
  : outcome DevshardError (list Z) :=
  let! infHash := computeInferencesHash infs in
  Ok (Sum256 (be_put_u64 balance ++ infHash ++ computeWarmKeysHash warmKeys)).

(** [func ComputeInferencesHashV2(sealedAcc [32]byte, liveInferences) ([]byte, error)] *)
Definition ComputeInferencesHashV2 (acc : list Z) (live : gmap Z InferenceRecord)
  : outcome DevshardError (list Z) :=
  let! liveHash := computeInferencesHash live in
  Ok (Sum256 (acc ++ liveHash)).

(** [func ComputeRestHashV2(balance, sealedAcc, liveInferences, warmKeys) ([]byte, error)] *)
Definition ComputeRestHashV2 (balance : Z) (acc : list Z) (live : gmap Z InferenceRecord)
    (warmKeys : gmap Z string) : outcome DevshardError (list Z) :=
  let! infHash := ComputeInferencesHashV2 acc live in
  Ok (Sum256 (be_put_u64 balance ++ infHash ++ computeWarmKeysHash warmKeys)).

(** [func sealedAccBytes32(b []byte) [32]byte] *)
Definition sealedAccBytes32 (b : list Z) : list Z :=
  take 32 b ++ replicate (32 - length (take 32 b)) 0.

(** [func FoldSealedAccumulator(acc [32]byte, sealNonce, infID uint64, committedEntry []byte) [32]byte] *)
Definition FoldSealedAccumulator (acc : list Z) (sealNonce infID : Z) (entry : list Z) : list Z :=
  Sum256 (acc ++ be_put_u64 sealNonce ++ be_put_u64 infID ++ entry).

(** [func ComputeVersionHash(version string) []byte] *)
Definition ComputeVersionHash (version : string) : list Z := Sum256 (string_bytes version).

(** [func ComputeStateRootFromRestHash(hostStatsHash, restHash, fees, phase, version) []byte] *)
Definition root_preimage (hostStatsHash restHash : list Z) (fees : Z) (phase : SessionPhase)
    (version : string) : list Z :=
  hostStatsHash ++ be_put_u64 fees ++ restHash ++ ComputeVersionHash version ++ [phase_byte phase].
Definition ComputeStateRootFromRestHash (hostStatsHash restHash : list Z) (fees : Z)
    (phase : SessionPhase) (version : string) : list Z :=
  Sum256 (root_preimage hostStatsHash restHash fees phase version).

(** [func ComputeStateRoot(balance, hostStats, inferences, phase, warmKeys, fees, version) ([]byte, error)] *)
Definition ComputeStateRoot (balance : Z) (hs : gmap Z HostStats) (infs : gmap Z InferenceRecord)
    (phase : SessionPhase) (warmKeys : gmap Z string) (fees : Z) (version : string)
  : outcome DevshardError (list Z) :=
  let! hostStatsHash := computeHostStatsHash hs in
  let! restHash := ComputeRestHashV2 balance (sealedAccBytes32 []) infs warmKeys in
  Ok (ComputeStateRootFromRestHash hostStatsHash restHash fees phase version).

End Hash.
