(* ===== verification/DevshardMachine.v ===== *)
(** The devshard session state machine: [devshard/state/machine.go] and
    [devshard/state/seal.go].

    [StateMachine] is the Go struct.  A Go method is a [GoM StateMachine
    DevshardError] computation: it threads the receiver and, as in Go, what was
    mutated before an error stays mutated.  Maps are [gmap]s; a Go loop over a
    map followed by a sort is a loop over [sorted_keys].

    Collaborators that are interfaces in Go are type classes: [SigVerifier] is
    [signing.Verifier] (secp256k1 recovery), [InferenceStorage] is the part of
    [storage.Storage] the machine writes observability rows to, [ProtoCodec] is
    protobuf.  Logging is left out.  The mutex is left out: every exported method
    holds it for its whole body, so methods are atomic. *)

From S2P Require Import Prelude.
From S2P Require Import GoStd.
From S2P Require Import DevshardTypes.
From S2P Require Import DevshardHash.

Open Scope Z_scope.
Open Scope go_scope.

(* ------------------------------------------------------------------ *)
(** ** Interfaces *)

(** [signing.Verifier]: [None] is an error. *)
Class SigVerifier := { RecoverAddress : list Z -> list Z -> option string }.

(** [storage.InferenceRow] *)
Record InferenceRow := MkRow {
  row_InferenceID : Z;
  row_SealedNonce : Z;
  row_ObsPresent : bool;
  row_Status : Z;
  row_ExecutorSlot : Z;
  row_VotesValid : Z;
  row_VotesInvalid : Z;
  row_ValidatedBy : list Z;
  row_Model : string;
  row_PromptHash : list Z;
  row_ResponseHash : list Z;
  row_InputLength : Z;
  row_MaxTokens : Z;
  row_InputTokens : Z;
  row_OutputTokens : Z;
  row_ReservedCost : Z;
  row_ActualCost : Z;
  row_StartedAt : Z;
  row_ConfirmedAt : Z
}.

(** The methods of [storage.Storage] that the machine calls. A failing call may
    leave the store changed, so it returns a store too;
    the store's own errors are opaque texts. *)
Class InferenceStorage (Store : Type) := {
  InsertSealedInference : Store -> string -> InferenceRow -> Store * outcome string unit;
  GetSealedInference : Store -> string -> Z -> outcome string (option InferenceRow);
  DeleteSealedInferences : Store -> string -> Store * outcome string unit;
  DrainInferenceValidationObs : Store -> string -> Z -> Store * outcome string unit
}.

(** [type deferredObsWrite struct] *)
Record deferredObsWrite := MkDeferred { do_id : Z; do_row : InferenceRow; do_drain : bool }.

(** [type WarmKeyResolver func(warmAddr, coldAddr string) (bool, error)] *)
Definition WarmKeyResolver : Type := string -> string -> option bool.

(* ------------------------------------------------------------------ *)
(** ** Checked arithmetic *)

(** [func safeMul(a, b uint64) (uint64, bool)] *)
Definition safeMul (a b : Z) : Z * bool :=
  if (a =? 0) || (b =? 0) then (0, true)
  else
    let result := u64 (a * b) in
    if negb (result / a =? b) then (0, false) else (result, true).

(** [func safeAdd(a, b uint64) (uint64, bool)] *)
Definition safeAdd (a b : Z) : Z * bool :=
  let result := u64 (a + b) in
  if result <? a then (0, false) else (result, true).

(** [func tokenCost(a, b, price uint64) (uint64, error)] *)
Definition tokenCost (a b price : Z) : outcome DevshardError Z :=
  match safeAdd a b with
  | (_, false) => Err ErrCostOverflow
  | (sum, true) =>
      match safeMul sum price with
      | (_, false) => Err ErrCostOverflow
      | (cost, true) => Ok cost
      end
  end.

(* ------------------------------------------------------------------ *)
(** ** Field updates *)

Definition st_Balance (v : Z) (s : EscrowState) : EscrowState :=
  MkEscrowState (EscrowID s) (StateRootAndProtocolVersion s) (Config s) (Group s) v (Fees s)
    (Phase s) (FinalizeNonce s) (Inferences s) (HostStatsMap s) (WarmKeys s) (LatestNonce s)
    (SealedAcc s).
Definition st_Fees (v : Z) (s : EscrowState) : EscrowState :=
  MkEscrowState (EscrowID s) (StateRootAndProtocolVersion s) (Config s) (Group s) (Balance s) v
    (Phase s) (FinalizeNonce s) (Inferences s) (HostStatsMap s) (WarmKeys s) (LatestNonce s)
    (SealedAcc s).
Definition st_Phase (v : SessionPhase) (s : EscrowState) : EscrowState :=
  MkEscrowState (EscrowID s) (StateRootAndProtocolVersion s) (Config s) (Group s) (Balance s)
    (Fees s) v (FinalizeNonce s) (Inferences s) (HostStatsMap s) (WarmKeys s) (LatestNonce s)
    (SealedAcc s).
Definition st_FinalizeNonce (v : Z) (s : EscrowState) : EscrowState :=
  MkEscrowState (EscrowID s) (StateRootAndProtocolVersion s) (Config s) (Group s) (Balance s)
    (Fees s) (Phase s) v (Inferences s) (HostStatsMap s) (WarmKeys s) (LatestNonce s)
    (SealedAcc s).
Definition st_Inferences (v : gmap Z InferenceRecord) (s : EscrowState) : EscrowState :=
  MkEscrowState (EscrowID s) (StateRootAndProtocolVersion s) (Config s) (Group s) (Balance s)
    (Fees s) (Phase s) (FinalizeNonce s) v (HostStatsMap s) (WarmKeys s) (LatestNonce s)
    (SealedAcc s).
Definition st_HostStatsMap (v : gmap Z HostStats) (s : EscrowState) : EscrowState :=
  MkEscrowState (EscrowID s) (StateRootAndProtocolVersion s) (Config s) (Group s) (Balance s)
    (Fees s) (Phase s) (FinalizeNonce s) (Inferences s) v (WarmKeys s) (LatestNonce s)
    (SealedAcc s).
Definition st_WarmKeys (v : gmap Z string) (s : EscrowState) : EscrowState :=
  MkEscrowState (EscrowID s) (StateRootAndProtocolVersion s) (Config s) (Group s) (Balance s)
    (Fees s) (Phase s) (FinalizeNonce s) (Inferences s) (HostStatsMap s) v (LatestNonce s)
    (SealedAcc s).
Definition st_LatestNonce (v : Z) (s : EscrowState) : EscrowState :=
  MkEscrowState (EscrowID s) (StateRootAndProtocolVersion s) (Config s) (Group s) (Balance s)
    (Fees s) (Phase s) (FinalizeNonce s) (Inferences s) (HostStatsMap s) (WarmKeys s) v
    (SealedAcc s).
Definition st_SealedAcc (v : list Z) (s : EscrowState) : EscrowState :=
  MkEscrowState (EscrowID s) (StateRootAndProtocolVersion s) (Config s) (Group s) (Balance s)
    (Fees s) (Phase s) (FinalizeNonce s) (Inferences s) (HostStatsMap s) (WarmKeys s)
    (LatestNonce s) v.
Definition st_Version (v : string) (s : EscrowState) : EscrowState :=
  MkEscrowState (EscrowID s) v (Config s) (Group s) (Balance s)
    (Fees s) (Phase s) (FinalizeNonce s) (Inferences s) (HostStatsMap s) (WarmKeys s)
    (LatestNonce s) (SealedAcc s).

(** [rec.Status = v] *)
Definition rec_Status (v : InferenceStatus) (r : InferenceRecord) : InferenceRecord :=
  MkInference v (ExecutorSlot r) (Model r) (PromptHash r) (ResponseHash r) (InputLength r)
    (MaxTokens r) (InputTokens r) (OutputTokens r) (ReservedCost r) (ActualCost r) (StartedAt r)
    (ConfirmedAt r) (VotesValid r) (VotesInvalid r) (ValidatedBy r).
(** [rec.ActualCost = v] *)
Definition rec_ActualCost (v : Z) (r : InferenceRecord) : InferenceRecord :=
  MkInference (Status r) (ExecutorSlot r) (Model r) (PromptHash r) (ResponseHash r) (InputLength r)
    (MaxTokens r) (InputTokens r) (OutputTokens r) (ReservedCost r) v (StartedAt r)
    (ConfirmedAt r) (VotesValid r) (VotesInvalid r) (ValidatedBy r).
(** [rec.ConfirmedAt = v] *)
Definition rec_ConfirmedAt (v : Z) (r : InferenceRecord) : InferenceRecord :=
  MkInference (Status r) (ExecutorSlot r) (Model r) (PromptHash r) (ResponseHash r) (InputLength r)
    (MaxTokens r) (InputTokens r) (OutputTokens r) (ReservedCost r) (ActualCost r) (StartedAt r)
    v (VotesValid r) (VotesInvalid r) (ValidatedBy r).
(** The four result fields that [applyFinishInference] fills in. *)
Definition rec_Result (hash : list Z) (inTok outTok cost : Z) (r : InferenceRecord) : InferenceRecord :=
  MkInference StatusFinished (ExecutorSlot r) (Model r) (PromptHash r) hash (InputLength r)
    (MaxTokens r) inTok outTok (ReservedCost r) cost (StartedAt r)
    (ConfirmedAt r) (VotesValid r) (VotesInvalid r) (ValidatedBy r).
(** The tally fields of a record. *)
Definition rec_Votes (valid invalid : Z) (by_ : Bitmap128) (r : InferenceRecord) : InferenceRecord :=
  MkInference (Status r) (ExecutorSlot r) (Model r) (PromptHash r) (ResponseHash r) (InputLength r)
    (MaxTokens r) (InputTokens r) (OutputTokens r) (ReservedCost r) (ActualCost r) (StartedAt r)
    (ConfirmedAt r) valid invalid by_.

Definition hs_Cost (v : Z) (h : HostStats) : HostStats :=
  MkHostStats (Missed h) (Invalid h) v (RequiredValidations h) (CompletedValidations h).
Definition hs_Missed (v : Z) (h : HostStats) : HostStats :=
  MkHostStats v (Invalid h) (Cost h) (RequiredValidations h) (CompletedValidations h).
Definition hs_Invalid (v : Z) (h : HostStats) : HostStats :=
  MkHostStats (Missed h) v (Cost h) (RequiredValidations h) (CompletedValidations h).

(* ------------------------------------------------------------------ *)
(** ** The machine *)

(** [type StateMachine struct] *)
Record StateMachine (Store : Type) := MkSM {
  state : EscrowState;
  userAddress : string;
  committedEntries : gmap Z (list Z);
  sealedNonces : gmap Z Z;
  inferenceStore : Store;
  slotToAddress : gmap Z string;
  addressToSlotCount : gmap string Z;
  addressToSlots : gmap string (list Z);
  totalSlots : Z;
  warmResolver : option WarmKeyResolver;
  obsDeferred : option (list deferredObsWrite)
}.
Arguments MkSM {Store}.
Arguments state {Store}.
Arguments userAddress {Store}.
Arguments committedEntries {Store}.
Arguments sealedNonces {Store}.
Arguments inferenceStore {Store}.
Arguments slotToAddress {Store}.
Arguments addressToSlotCount {Store}.
Arguments addressToSlots {Store}.
Arguments totalSlots {Store}.
Arguments warmResolver {Store}.
Arguments obsDeferred {Store}.

Definition on_state {Store} (f : EscrowState -> EscrowState) (sm : StateMachine Store) :=
  MkSM (f (state sm)) (userAddress sm) (committedEntries sm) (sealedNonces sm) (inferenceStore sm)
    (slotToAddress sm) (addressToSlotCount sm) (addressToSlots sm) (totalSlots sm)
    (warmResolver sm) (obsDeferred sm).
Definition set_committed {Store} (v : gmap Z (list Z)) (sm : StateMachine Store) :=
  MkSM (state sm) (userAddress sm) v (sealedNonces sm) (inferenceStore sm)
    (slotToAddress sm) (addressToSlotCount sm) (addressToSlots sm) (totalSlots sm)
    (warmResolver sm) (obsDeferred sm).
Definition set_sealedNonces {Store} (v : gmap Z Z) (sm : StateMachine Store) :=
  MkSM (state sm) (userAddress sm) (committedEntries sm) v (inferenceStore sm)
    (slotToAddress sm) (addressToSlotCount sm) (addressToSlots sm) (totalSlots sm)
    (warmResolver sm) (obsDeferred sm).
Definition set_store {Store} (v : Store) (sm : StateMachine Store) :=
  MkSM (state sm) (userAddress sm) (committedEntries sm) (sealedNonces sm) v
    (slotToAddress sm) (addressToSlotCount sm) (addressToSlots sm) (totalSlots sm)
    (warmResolver sm) (obsDeferred sm).
Definition set_obsDeferred {Store} (v : option (list deferredObsWrite)) (sm : StateMachine Store) :=
  MkSM (state sm) (userAddress sm) (committedEntries sm) (sealedNonces sm) (inferenceStore sm)
    (slotToAddress sm) (addressToSlotCount sm) (addressToSlots sm) (totalSlots sm)
    (warmResolver sm) v.
Definition set_warmResolver {Store} (v : option WarmKeyResolver) (sm : StateMachine Store) :=
  MkSM (state sm) (userAddress sm) (committedEntries sm) (sealedNonces sm) (inferenceStore sm)
    (slotToAddress sm) (addressToSlotCount sm) (addressToSlots sm) (totalSlots sm)
    v (obsDeferred sm).

(** [type mutableSnapshot struct]: the fields that a diff may change. *)
Record mutableSnapshot := MkSnapshot {
  snap_Balance : Z;
  snap_Fees : Z;
  snap_Phase : SessionPhase;
  snap_FinalizeNonce : Z;
  snap_LatestNonce : Z;
  snap_Inferences : gmap Z InferenceRecord;
  snap_Committed : gmap Z (list Z);
  snap_HostStats : gmap Z HostStats;
  snap_WarmKeys : gmap Z string;
  snap_SealedAcc : list Z;
  snap_SealedNonces : gmap Z Z
}.

(** [type ValidatedDiff struct] *)
Record ValidatedDiff := MkValidated {
  vd_Root : list Z;
  vd_WarmAfter : gmap Z string;
  vd_Applied : list DevshardTx;
  vd_nonce : Z;
  vd_post : mutableSnapshot;
  vd_obs : list deferredObsWrite
}.

(** [type StateClockWindow struct] *)
Record StateClockWindow := MkClock {
  clk_Clock : Z; clk_Min : Z; clk_Max : Z; clk_Known : bool }.
Definition zero_clock : StateClockWindow := MkClock 0 0 0 false.

(** [const stateClockWindowFactor = 3] *)
Definition stateClockWindowFactor : Z := 3.

(* ------------------------------------------------------------------ *)
(** ** Pure helpers of seal.go *)

(** [func autoSealInterval(cfg types.SessionConfig) uint64] *)
Definition autoSealInterval (cfg : SessionConfig) : Z :=
  if AutoSealEveryNNonces cfg =? 0 then DefaultAutoSealEveryNNonces else AutoSealEveryNNonces cfg.

(** [func shouldAutoSealAtNonce(interval uint64, nonce uint64) bool] *)
Definition shouldAutoSealAtNonce (interval nonce : Z) : bool :=
  if interval =? 0 then true else nonce mod interval =? 0.

(** [func nextAutoSealNonceAtInterval(interval uint64, after uint64) uint64] *)
Definition nextAutoSealNonceAtInterval (interval after : Z) : Z :=
  let n := u64 (after + 1) in
  if interval =? 0 then n
  else
    let r := n mod interval in
    if negb (r =? 0) then u64 (n + (interval - r)) else n.

(** [func sealEligibleStatus(s types.InferenceStatus) bool] *)
Definition sealEligibleStatus (s : InferenceStatus) : bool :=
  match s with
  | StatusFinished | StatusValidated | StatusInvalidated | StatusTimedOut => true
  | _ => false
  end.

(** [func terminalAutoSealStatus(s types.InferenceStatus) bool] *)
Definition terminalAutoSealStatus (s : InferenceStatus) : bool :=
  match s with
  | StatusValidated | StatusInvalidated | StatusTimedOut => true
  | _ => false
  end.

(** [func inferenceObsRow(id, sealedNonce uint64, rec *types.InferenceRecord) storage.InferenceRow] *)
Definition inferenceObsRow (id sealedNonce : Z) (r : InferenceRecord) : InferenceRow :=
  MkRow id sealedNonce true (status_code (Status r)) (ExecutorSlot r) (VotesValid r)
    (VotesInvalid r) (bm_Bytes (ValidatedBy r)) (Model r) (PromptHash r) (ResponseHash r)
    (InputLength r) (MaxTokens r) (InputTokens r) (OutputTokens r) (ReservedCost r)
    (ActualCost r) (StartedAt r) (ConfirmedAt r).

(** [func inferenceRecordFromObsRow(row storage.InferenceRow) types.InferenceRecord] *)
Definition inferenceRecordFromObsRow (row : InferenceRow) : InferenceRecord :=
  MkInference (status_of_code (row_Status row)) (row_ExecutorSlot row) (row_Model row)
    (row_PromptHash row) (row_ResponseHash row) (row_InputLength row) (row_MaxTokens row)
    (row_InputTokens row) (row_OutputTokens row) (row_ReservedCost row) (row_ActualCost row)
    (row_StartedAt row) (row_ConfirmedAt row) (row_VotesValid row) (row_VotesInvalid row)
    (Bitmap128FromBytes (row_ValidatedBy row)).

(** One step of the confirmed-at scan of [stateClockLocked]: [None] until the
    first confirmed record, then the running minimum and maximum. *)
Definition clock_step (acc : option (Z * Z)) (c : Z) : option (Z * Z) :=
  if c <=? 0 then acc
  else match acc with
       | None => Some (c, c)
       | Some (mn, mx) => Some (if c <? mn then c else mn, if mx <? c then c else mx)
       end.

(** The seal gates of [autoSealLocked] for one live record. *)
Definition seal_gate (graceNonces graceSeconds stateClock sealNonce : Z) (id : Z)
    (r : InferenceRecord) : bool :=
  sealEligibleStatus (Status r) &&
  (u64 (id + graceNonces) <=? sealNonce) &&
  (terminalAutoSealStatus (Status r) ||
   (i64 (graceSeconds - i64 (stateClock - ConfirmedAt r)) <=? 0)).

(** [if start := tx.GetStartInference(); start != nil] *)
Definition is_start (tx : DevshardTx) : bool :=
  match tx with StartInference _ => true | _ => false end.

(** The pre-check of [applyCore] and [localBestEffortLocked]: at most one
    [MsgStartInference], with [inference_id == nonce]. *)
Fixpoint check_starts (nonce : Z) (startCount : Z) (txs : list DevshardTx) : outcome DevshardError Z :=
  match txs with
  | [] => Ok startCount
  | StartInference m :: rest =>
      if negb (si_InferenceId m =? nonce) then Err ErrInvalidInferenceID
      else check_starts nonce (startCount + 1) rest
  | _ :: rest => check_starts nonce startCount rest
  end.
Definition precheck_starts (nonce : Z) (txs : list DevshardTx) : outcome DevshardError unit :=
  let! n := check_starts nonce 0 txs in
  if 1 <? n then Err ErrMultipleStartMsgs else Ok tt.

(* ------------------------------------------------------------------ *)
(** ** Methods *)

Section Machine.
Context {Store : Type} `{!InferenceStorage Store} `{!ProtoCodec} `{!SigVerifier}.

Abbreviation SM := (StateMachine Store).
Abbreviation M := (GoM SM DevshardError).

(** The receiver's state, read. *)
Definition gets {A} (f : SM -> A) : M A := fun sm => (sm, Ok (f sm)).
Definition lift {A} (o : outcome DevshardError A) : M A := fun sm => (sm, o).

(** *** Construction *)

(** [type SMOption func(sm *StateMachine)] with its two constructors. *)
Definition SMOption : Type := SM -> SM.
(** [func WithWarmKeyResolver(r WarmKeyResolver) SMOption] *)
Definition WithWarmKeyResolver (r : WarmKeyResolver) : SMOption := set_warmResolver (Some r).
(** [func WithStateRootAndProtocolVersion(version string) SMOption] *)
Definition WithStateRootAndProtocolVersion (version : string) : SMOption :=
  on_state (st_Version version).

(** The lookup maps that [NewStateMachine] derives from the group. *)
Definition build_slotToAddr (group : list SlotAssignment) : gmap Z string :=
  fold_left (fun m s => <[SlotID s := ValidatorAddress s]> m) group ∅.
Definition build_addrToSlotCount (group : list SlotAssignment) : gmap string Z :=
  fold_left (fun m s => <[ValidatorAddress s := u32 (zget 0 (ValidatorAddress s) m + 1)]> m) group ∅.
Definition build_hostStats (group : list SlotAssignment) : gmap Z HostStats :=
  fold_left (fun m s => <[SlotID s := zero_stats]> m) group ∅.
Definition build_addrToSlots (slotToAddr : gmap Z string) : gmap string (list Z) :=
  sort_Z <$>
    fold_left (fun m '(slot, addr) => <[addr := zget [] addr m ++ [slot]]> m)
      (map_to_list slotToAddr) (∅ : gmap string (list Z)).

(** [func NewStateMachine(escrowID, config, group, balance, userAddress, verifier, store, opts...)];
    [effectiveVersion] is [types.EffectiveStateRootAndProtocolVersion], a link-time value. *)
Definition NewStateMachine (effectiveVersion escrowID : string) (config0 : SessionConfig)
    (group : list SlotAssignment) (balance : Z) (user : string) (store : option Store)
    (opts : list SMOption) : outcome DevshardError SM :=
  match store with
  | None => Err (ErrWrapped "inference store is required")
  | Some st =>
      let slotToAddr := build_slotToAddr group in
      let config := NormalizeSessionConfig config0 (Z.of_nat (length group)) in
      if balance <? CreateDevshardFee config then Err ErrInsufficientBalance
      else
        let sm0 :=
          MkSM (MkEscrowState escrowID effectiveVersion config group
                  (u64 (balance - CreateDevshardFee config)) (CreateDevshardFee config)
                  PhaseActive 0 ∅ (build_hostStats group) ∅ 0 [])
            user ∅ ∅ st slotToAddr (build_addrToSlotCount group) (build_addrToSlots slotToAddr)
            (u32 (Z.of_nat (length group))) None None in
        Ok (fold_left (fun sm o => o sm) opts sm0)
  end.

(** *** Small accessors *)

(** [func (sm *StateMachine) isDuplicateInferenceID(id uint64) bool] *)
Definition isDuplicateInferenceID (sm : SM) (id : Z) : bool :=
  bool_decide (is_Some (Inferences (state sm) !! id)) ||
  bool_decide (is_Some (committedEntries sm !! id)) ||
  bool_decide (is_Some (sealedNonces sm !! id)).

(** [func (sm *StateMachine) isInferenceEvictedFromLive(id uint64) bool] *)
Definition isInferenceEvictedFromLive (sm : SM) (id : Z) : bool :=
  if bool_decide (is_Some (Inferences (state sm) !! id)) then false
  else bool_decide (is_Some (committedEntries sm !! id)) ||
       bool_decide (is_Some (sealedNonces sm !! id)).

(** [sm.slotToAddress[slot]] *)
Definition SlotAddress (sm : SM) (slot : Z) : string := zget "" slot (slotToAddress sm).
(** [sm.addressToSlotCount[addr]] *)
Definition AddressSlotCount (sm : SM) (addr : string) : Z := zget 0 addr (addressToSlotCount sm).
(** [sm.addressToSlots[addr]] *)
Definition AddressSlots (sm : SM) (addr : string) : list Z := zget [] addr (addressToSlots sm).

(** [func (sm *StateMachine) QuorumThreshold() uint32] *)
Definition QuorumThreshold (sm : SM) : Z := u32 (u32 (2 * totalSlots sm) / 3 + 1).

(** [func (sm *StateMachine) addressHasValidated(rec, slotID) (bool, uint32)] *)
Definition addressHasValidated (sm : SM) (r : InferenceRecord) (slotID : Z) : bool :=
  existsb (bm_IsSet (ValidatedBy r)) (AddressSlots sm (SlotAddress sm slotID)).

(** *** Snapshots *)

(** [func (sm *StateMachine) snapshotMutable() mutableSnapshot]: deep copies,
    so the snapshot and the machine share nothing. *)
Definition snapshotMutable (sm : SM) : mutableSnapshot :=
  let s := state sm in
  MkSnapshot (Balance s) (Fees s) (Phase s) (FinalizeNonce s) (LatestNonce s) (Inferences s)
    (committedEntries sm) (HostStatsMap s) (WarmKeys s) (SealedAcc s) (sealedNonces sm).

(** [func (sm *StateMachine) restoreMutable(snap mutableSnapshot)] *)
Definition restoreMutable (snap : mutableSnapshot) (sm : SM) : SM :=
  let s := state sm in
  set_sealedNonces (snap_SealedNonces snap)
    (set_committed (snap_Committed snap)
      (on_state (fun _ =>
        MkEscrowState (EscrowID s) (StateRootAndProtocolVersion s) (Config s) (Group s)
          (snap_Balance snap) (snap_Fees snap) (snap_Phase snap) (snap_FinalizeNonce snap)
          (snap_Inferences snap) (snap_HostStats snap) (snap_WarmKeys snap)
          (snap_LatestNonce snap) (snap_SealedAcc snap)) sm)).

(** *** Observability rows *)

(** [func (sm *StateMachine) upsertInferenceObsLocked(id, sealedNonce, rec) error] *)
Definition upsertInferenceObsLocked (id sealedNonce : Z) (r : InferenceRecord) : M unit :=
  fun sm =>
    let row := inferenceObsRow id sealedNonce r in
    match obsDeferred sm with
    | Some buf =>
        (set_obsDeferred (Some (buf ++ [MkDeferred id row (0 <? sealedNonce)])) sm, Ok tt)
    | None =>
        let '(st1, r1) := InsertSealedInference (inferenceStore sm) (EscrowID (state sm)) row in
        let sm1 := set_store st1 sm in
        match r1 with
        | Err e => (sm1, Err (ErrWrapped e))
        | Ok _ =>
            if 0 <? sealedNonce then
              let '(st2, r2) := DrainInferenceValidationObs st1 (EscrowID (state sm)) id in
              (set_store st2 sm1,
               match r2 with Err _ => Err (ErrWrapped "drain validation obs") | Ok u => Ok u end)
            else (sm1, Ok tt)
        end
    end.

(** [func (sm *StateMachine) persistLiveInferenceObsBestEffortLocked(id, rec)] (with
    [persistLiveInferenceObsLocked]): a storage error is logged and dropped. *)
Definition persistLiveInferenceObsBestEffortLocked (id : Z) (r : InferenceRecord) : M unit :=
  fun sm =>
    let sealNonce := zget 0 id (sealedNonces sm) in
    ((upsertInferenceObsLocked id sealNonce r sm).1, Ok tt).

(** *** Committed entries *)

(** [func (sm *StateMachine) updateCommittedEntryLocked(id, rec) error] *)
Definition updateCommittedEntryLocked (id : Z) (r : InferenceRecord) : M unit :=
  let* entry := lift (marshalInferenceEntry id r) in
  modify (fun sm => set_committed (<[id:=entry]> (committedEntries sm)) sm).

(** [func (sm *StateMachine) hydrateCommittedInferenceLocked(id uint64) (rec, error)] *)
Definition hydrateCommittedInferenceLocked (sm : SM) (id : Z) : outcome DevshardError InferenceRecord :=
  match committedEntries sm !! id with
  | None => Err ErrInferenceNotFound
  | Some entry =>
      let! (entryID, r) := unmarshalInferenceEntry entry in
      if negb (entryID =? id) then Err (ErrWrapped "committed inference mismatch") else Ok r
  end.

(** *** Signatures and warm keys *)

(** [func (sm *StateMachine) ResolveWarmKey(slotID uint32, recovered, expected string) bool] *)
Definition ResolveWarmKey (slotID : Z) (recovered expected : string) : M bool :=
  fun sm =>
    match WarmKeys (state sm) !! slotID with
    | Some warm => (sm, Ok (bool_decide (warm = recovered)))
    | None =>
        match warmResolver sm with
        | None => (sm, Ok false)
        | Some resolve =>
            match resolve recovered expected with
            | Some true =>
                (on_state (st_WarmKeys (<[slotID:=recovered]> (WarmKeys (state sm)))) sm, Ok true)
            | _ => (sm, Ok false)
            end
        end
    end.

(** [func (sm *StateMachine) CheckWarmKey(warmAddr, coldAddr string) bool] *)
Definition CheckWarmKey (sm : SM) (warmAddr coldAddr : string) : bool :=
  match warmResolver sm with
  | None => false
  | Some resolve => match resolve warmAddr coldAddr with Some b => b | None => false end
  end.

(** [func (sm *StateMachine) InjectWarmKeys(delta map[uint32]string)] *)
Definition InjectWarmKeys (delta : gmap Z string) (sm : SM) : SM :=
  on_state (st_WarmKeys (WarmKeys (state sm) ∪ delta)) sm.

(** Accepts [recovered] when it is the expected address or its warm key. *)
Definition accept_signer (slotID : Z) (recovered expected : string) (e : DevshardError) : M unit :=
  if bool_decide (recovered = expected) then ret tt
  else
    let* ok := ResolveWarmKey slotID recovered expected in
    check ok e.

(** [func (sm *StateMachine) verifyProposerSig(msgWithoutSig, sig, expectedAddress, slotID) error] *)
Definition verifyProposerSig (msg : ProtoMsg) (sig : list Z) (expected : string) (slotID : Z) : M unit :=
  let* data := lift_option (Marshal msg) (ErrWrapped "marshal for proposer sig") in
  let* recovered := lift_option (RecoverAddress data sig) ErrInvalidProposerSig in
  if bool_decide (recovered = expected) then ret tt
  else if slotID =? MaxUint32 then fail ErrInvalidProposerSig
  else
    let* ok := ResolveWarmKey slotID recovered expected in
    check ok ErrInvalidProposerSig.

(** [func (sm *StateMachine) verifyDiffUserSig(diff types.Diff) error] (with [BuildDiffContent]) *)
Definition verifyDiffUserSig (diff : Diff) : M unit :=
  let* escrow := gets (fun sm => EscrowID (state sm)) in
  let* data := lift_option
    (Marshal (PDiffContent (d_Nonce diff) (d_Txs diff) escrow (d_PostStateRoot diff)))
    (ErrWrapped "marshal diff content") in
  let* recovered := lift_option (RecoverAddress data (d_UserSig diff)) ErrInvalidUserSig in
  let* user := gets userAddress in
  check (bool_decide (recovered = user)) ErrInvalidUserSig.

(** *** Transactions *)

(** [sm.state.HostStats[slot]], dereferenced: a missing slot is a nil pointer. *)
Definition host_stats (slot : Z) : M HostStats :=
  let* hs := gets (fun sm => HostStatsMap (state sm)) in
  lift_option (hs !! slot) GoPanic.
Definition put_host_stats (slot : Z) (h : HostStats) : M unit :=
  modify (fun sm => on_state (st_HostStatsMap (<[slot:=h]> (HostStatsMap (state sm)))) sm).
(** Writes through the [rec] pointer taken from [sm.state.Inferences[id]]. *)
Definition put_record (id : Z) (r : InferenceRecord) : M unit :=
  modify (fun sm => on_state (st_Inferences (<[id:=r]> (Inferences (state sm)))) sm).
Definition put_balance (v : Z) : M unit := modify (on_state (st_Balance v)).

(** [rec, ok := sm.state.Inferences[id]] with the not-found error of
    confirm, finish and timeout. *)
Definition live_record (id : Z) : M InferenceRecord :=
  fun sm => match Inferences (state sm) !! id with
            | Some r => (sm, Ok r)
            | None => (sm, Err (if isInferenceEvictedFromLive sm id then ErrInvalidTransition
                                else ErrInferenceNotFound))
            end.
(** The same with the not-found error of validation and vote. *)
Definition votable_record (id : Z) : M InferenceRecord :=
  fun sm => match Inferences (state sm) !! id with
            | Some r => (sm, Ok r)
            | None => (sm, Err (if 0 <? zget 0 id (sealedNonces sm) then ErrInferenceSealed
                                else ErrInferenceNotFound))
            end.

(** [func (sm *StateMachine) applyStartInference(msg *types.MsgStartInference) error] *)
Definition applyStartInference (msg : MsgStartInference) : M unit :=
  let* st := gets state in
  run* check (bool_decide (Phase st = PhaseActive)) ErrSessionFinalizing in
  let* dup := gets (fun sm => isDuplicateInferenceID sm (si_InferenceId msg)) in
  run* check (negb dup) ErrDuplicateInferenceID in
  let n := u64 (Z.of_nat (length (Group st))) in
  run* check (negb (n =? 0)) GoPanic in
  let* slot := lift_option (at_index (Group st) (si_InferenceId msg mod n)) GoPanic in
  let* reservedCost :=
    lift (tokenCost (si_InputLength msg) (si_MaxTokens msg) (TokenPrice (Config st))) in
  run* check (negb (Balance st <? reservedCost)) ErrInsufficientBalance in
  run* put_balance (u64 (Balance st - reservedCost)) in
  let r := MkInference StatusPending (SlotID slot) (si_Model msg) (si_PromptHash msg) []
             (si_InputLength msg) (si_MaxTokens msg) 0 0 reservedCost 0 (si_StartedAt msg) 0 0 0
             bm_zero in
  run* put_record (si_InferenceId msg) r in
  updateCommittedEntryLocked (si_InferenceId msg) r.

(** [func (sm *StateMachine) applyConfirmStart(msg *types.MsgConfirmStart) error] *)
Definition applyConfirmStart (msg : MsgConfirmStart) : M unit :=
  let id := cs_InferenceId msg in
  let* r := live_record id in
  run* check (bool_decide (Status r = StatusPending)) ErrInvalidTransition in
  let* escrow := gets (fun sm => EscrowID (state sm)) in
  let* receiptData := lift_option
    (Marshal (PExecutorReceipt id (PromptHash r) (Model r) (InputLength r) (MaxTokens r)
                (StartedAt r) escrow (cs_ConfirmedAt msg))) (ErrWrapped "marshal executor receipt") in
  let* recovered := lift_option (RecoverAddress receiptData (cs_ExecutorSig msg)) ErrInvalidExecutorSig in
  let* expectedAddr := gets (fun sm => SlotAddress sm (ExecutorSlot r)) in
  run* accept_signer (ExecutorSlot r) recovered expectedAddr ErrInvalidExecutorSig in
  let r' := rec_ConfirmedAt (cs_ConfirmedAt msg) (rec_Status StatusStarted r) in
  run* put_record id r' in
  updateCommittedEntryLocked id r'.

(** The message with its proposer signature cleared ([proto.Clone] + [nil]). *)
Definition finish_unsigned (m : MsgFinishInference) : MsgFinishInference :=
  MkFinish (fi_InferenceId m) (fi_ResponseHash m) (fi_InputTokens m) (fi_OutputTokens m)
    (fi_ExecutorSlot m) [] (fi_EscrowId m).
Definition validation_unsigned (m : MsgValidation) : MsgValidation :=
  MkValidation (mv_InferenceId m) (mv_ValidatorSlot m) (mv_Valid m) [] (mv_EscrowId m).
Definition vote_unsigned (m : MsgValidationVote) : MsgValidationVote :=
  MkVote (vv_InferenceId m) (vv_VoterSlot m) (vv_VoteValid m) [] (vv_EscrowId m).

(** [func (sm *StateMachine) applyFinishInference(msg *types.MsgFinishInference) error] *)
Definition applyFinishInference (msg : MsgFinishInference) : M unit :=
  let id := fi_InferenceId msg in
  let* r := live_record id in
  run* check (bool_decide (Status r = StatusStarted)) ErrInvalidTransition in
  run* check (fi_ExecutorSlot msg =? ExecutorSlot r) ErrWrongExecutorSlot in
  let* addr := gets (fun sm => SlotAddress sm (ExecutorSlot r)) in
  run* verifyProposerSig (PFinish (finish_unsigned msg)) (fi_ProposerSig msg) addr (ExecutorSlot r) in
  let* st := gets state in
  run* check (bool_decide (fi_EscrowId msg = EscrowID st)) ErrEscrowIDMismatch in
  let* cost := lift (tokenCost (fi_InputTokens msg) (fi_OutputTokens msg) (TokenPrice (Config st))) in
  let actualCost := if ReservedCost r <? cost then ReservedCost r else cost in
  let surplus := u64 (ReservedCost r - actualCost) in
  run* put_balance (u64 (Balance st + surplus)) in
  let r' := rec_Result (fi_ResponseHash msg) (fi_InputTokens msg) (fi_OutputTokens msg) actualCost r in
  run* put_record id r' in
  let* h := host_stats (ExecutorSlot r) in
  run* put_host_stats (ExecutorSlot r) (hs_Cost (u64 (Cost h + actualCost)) h) in
  updateCommittedEntryLocked id r'.

(** [switch rec.Status] of [applyValidation]. *)
Definition validatable (s : InferenceStatus) : bool :=
  match s with
  | StatusFinished | StatusChallenged | StatusValidated | StatusInvalidated => true
  | _ => false
  end.

(** [func (sm *StateMachine) applyValidation(msg *types.MsgValidation) error] *)
Definition applyValidation (msg : MsgValidation) : M unit :=
  let id := mv_InferenceId msg in
  let slot := mv_ValidatorSlot msg in
  let* r := votable_record id in
  let* known := gets (fun sm => bool_decide (is_Some (slotToAddress sm !! slot))) in
  run* check known ErrSlotNotInGroup in
  run* check (negb (slot =? ExecutorSlot r)) ErrSelfValidation in
  let* done_ := gets (fun sm => addressHasValidated sm r slot) in
  if done_ then ret tt
  else
    run* check (validatable (Status r)) ErrInvalidTransition in
    let* addr := gets (fun sm => SlotAddress sm slot) in
    run* verifyProposerSig (PValidation (validation_unsigned msg)) (mv_ProposerSig msg) addr slot in
    let* escrow := gets (fun sm => EscrowID (state sm)) in
    run* check (bool_decide (mv_EscrowId msg = escrow)) ErrEscrowIDMismatch in
    let by_ := bm_Set (ValidatedBy r) slot in
    if bool_decide (Status r = StatusFinished) then
      let* weight := gets (fun sm => AddressSlotCount sm addr) in
      if mv_Valid msg then
        let r' := rec_Votes (u32 (VotesValid r + weight)) (VotesInvalid r) by_ r in
        run* put_record id r' in
        updateCommittedEntryLocked id r'
      else
        let r' := rec_Status StatusChallenged
                    (rec_Votes (VotesValid r) (u32 (VotesInvalid r + weight)) by_ r) in
        run* put_record id r' in
        run* persistLiveInferenceObsBestEffortLocked id r' in
        updateCommittedEntryLocked id r'
    else
      let r' := rec_Votes (VotesValid r) (VotesInvalid r) by_ r in
      run* put_record id r' in
      updateCommittedEntryLocked id r'.

(** The tally of [applyValidationVote], then its threshold decision. *)
Definition voted_record (sm : SM) (msg : MsgValidationVote) (r : InferenceRecord) : InferenceRecord :=
  let voterAddr := SlotAddress sm (vv_VoterSlot msg) in
  let weight := AddressSlotCount sm voterAddr in
  let by_ := fold_left bm_Set (AddressSlots sm voterAddr) (ValidatedBy r) in
  if vv_VoteValid msg then rec_Votes (u32 (VotesValid r + weight)) (VotesInvalid r) by_ r
  else rec_Votes (VotesValid r) (u32 (VotesInvalid r + weight)) by_ r.

(** [func (sm *StateMachine) applyValidationVote(msg *types.MsgValidationVote) error] *)
Definition applyValidationVote (msg : MsgValidationVote) : M unit :=
  let id := vv_InferenceId msg in
  let slot := vv_VoterSlot msg in
  let* r := votable_record id in
  let* known := gets (fun sm => bool_decide (is_Some (slotToAddress sm !! slot))) in
  run* check known ErrSlotNotInGroup in
  if bool_decide (Status r = StatusValidated) || bool_decide (Status r = StatusInvalidated) then ret tt
  else
    run* check (bool_decide (Status r = StatusChallenged)) ErrInvalidTransition in
    let* voterAddr := gets (fun sm => SlotAddress sm slot) in
    let* found := gets (fun sm => addressHasValidated sm r slot) in
    run* check (negb found) ErrDuplicateVote in
    run* verifyProposerSig (PValidationVote (vote_unsigned msg)) (vv_ProposerSig msg) voterAddr slot in
    let* st := gets state in
    run* check (bool_decide (vv_EscrowId msg = EscrowID st)) ErrEscrowIDMismatch in
    let* r1 := gets (fun sm => voted_record sm msg r) in
    let threshold := VoteThreshold (Config st) in
    if threshold <? VotesInvalid r1 then
      let r2 := rec_Status StatusInvalidated r1 in
      run* put_record id r2 in
      let* h := host_stats (ExecutorSlot r) in
      let h1 := hs_Invalid (u32 (Invalid h + 1)) h in
      let h2 := if Cost h1 <? ActualCost r then hs_Cost 0 h1
                else hs_Cost (u64 (Cost h1 - ActualCost r)) h1 in
      run* put_host_stats (ExecutorSlot r) h2 in
      run* put_balance (u64 (Balance st + ActualCost r)) in
      run* persistLiveInferenceObsBestEffortLocked id r2 in
      updateCommittedEntryLocked id r2
    else if threshold <? VotesValid r1 then
      let r2 := rec_Status StatusValidated r1 in
      run* put_record id r2 in
      run* persistLiveInferenceObsBestEffortLocked id r2 in
      updateCommittedEntryLocked id r2
    else
      run* put_record id r1 in
      updateCommittedEntryLocked id r1.

(** The body of the vote loop of [applyTimeout]: membership, one vote per
    address, signature; the accumulator is [(acceptCount, seenAddrs)]. *)
Definition count_timeout_vote (id : Z) (reason : TimeoutReason) (acc : Z * gset string)
    (vote : TimeoutVote) : M (Z * gset string) :=
  let* owner := gets (fun sm => slotToAddress sm !! tv_VoterSlot vote) in
  let* voterAddr := lift_option owner ErrSlotNotInGroup in
  run* check (negb (bool_decide (voterAddr ∈ acc.2))) ErrDuplicateVote in
  let* escrow := gets (fun sm => EscrowID (state sm)) in
  let* voteData := lift_option (Marshal (PTimeoutVote escrow id reason (tv_Accept vote)))
                     (ErrWrapped "marshal timeout vote") in
  let* recovered := lift_option (RecoverAddress voteData (tv_Signature vote)) ErrInvalidVoteSig in
  run* accept_signer (tv_VoterSlot vote) recovered voterAddr ErrInvalidVoteSig in
  let* weight := gets (fun sm => AddressSlotCount sm voterAddr) in
  ret (if tv_Accept vote then u32 (acc.1 + weight) else acc.1, {[voterAddr]} ∪ acc.2).

(** [switch msg.Reason] of [applyTimeout]: the reason must match the status. *)
Definition reason_matches (reason : TimeoutReason) (s : InferenceStatus) : bool :=
  match reason with
  | TIMEOUT_REASON_REFUSED => bool_decide (s = StatusPending)
  | TIMEOUT_REASON_EXECUTION => bool_decide (s = StatusStarted)
  | _ => false
  end.

(** [func (sm *StateMachine) applyTimeout(msg *types.MsgTimeoutInference) error] *)
Definition applyTimeout (msg : MsgTimeoutInference) : M unit :=
  let id := ti_InferenceId msg in
  let* r := live_record id in
  run* check (reason_matches (ti_Reason msg) (Status r)) ErrInvalidTimeoutReason in
  let* (acceptCount, _) := mfold (count_timeout_vote id (ti_Reason msg)) (0, ∅) (ti_Votes msg) in
  let* st := gets state in
  run* check (negb (acceptCount <=? VoteThreshold (Config st))) ErrInsufficientVotes in
  let r' := rec_Status StatusTimedOut r in
  run* put_record id r' in
  let* h := host_stats (ExecutorSlot r) in
  run* put_host_stats (ExecutorSlot r) (hs_Missed (u32 (Missed h + 1)) h) in
  run* put_balance (u64 (Balance st + ReservedCost r)) in
  updateCommittedEntryLocked id r'.

(** [func (sm *StateMachine) applyRevealSeed(msg *types.MsgRevealSeed) error] *)
Definition applyRevealSeed (msg : MsgRevealSeed) : M unit := ret tt.

(** [func (sm *StateMachine) applyFinalizeRound() error] *)
Definition applyFinalizeRound : M unit :=
  let* st := gets state in
  run* check (bool_decide (Phase st = PhaseActive)) ErrAlreadyFinalizing in
  modify (on_state (st_Phase PhaseFinalizing)).

(** [func (sm *StateMachine) applyTx(tx *types.DevshardTx) error] *)
Definition applyTx (tx : DevshardTx) : M unit :=
  match tx with
  | StartInference m => applyStartInference m
  | ConfirmStart m => applyConfirmStart m
  | FinishInference m => applyFinishInference m
  | Validation m => applyValidation m
  | ValidationVote m => applyValidationVote m
  | TimeoutInference m => applyTimeout m
  | RevealSeed m => applyRevealSeed m
  | FinalizeRound => applyFinalizeRound
  | EmptyTx => fail ErrEmptyTx
  end.

(** *** Sealing *)

(** [func (sm *StateMachine) settleLiveRecordLocked(rec *types.InferenceRecord)] *)
Definition settleLiveRecordLocked (r : InferenceRecord) : M InferenceRecord :=
  match Status r with
  | StatusStarted =>
      let* h := host_stats (ExecutorSlot r) in
      run* put_host_stats (ExecutorSlot r) (hs_Cost (u64 (Cost h + ReservedCost r)) h) in
      ret (rec_Status StatusFinished (rec_ActualCost (ReservedCost r) r))
  | StatusPending =>
      let* st := gets state in
      run* put_balance (u64 (Balance st + ReservedCost r)) in
      ret (rec_Status StatusTimedOut (rec_ActualCost 0 r))
  | _ => ret r
  end.

(** The part of a seal that [drainLiveIntoSealedAccLocked], [autoSealLocked] and
    [SealInference] share: refresh the committed entry, fold it into the
    accumulator, record the seal nonce and drop the committed entry. *)
Definition fold_record (sealNonce : Z) (cur : list Z) (id : Z) (r : InferenceRecord) : M (list Z) :=
  run* updateCommittedEntryLocked id r in
  let* entry := gets (fun sm => zget [] id (committedEntries sm)) in
  run* modify (fun sm => set_sealedNonces (<[id:=sealNonce]> (sealedNonces sm)) sm) in
  run* modify (fun sm => set_committed (delete id (committedEntries sm)) sm) in
  ret (FoldSealedAccumulator cur sealNonce id entry).

Definition drop_live (id : Z) : M unit :=
  modify (fun sm => on_state (st_Inferences (delete id (Inferences (state sm)))) sm).

(** The loop body of [drainLiveIntoSealedAccLocked]; a failing observability
    write is an error here. *)
Definition drain_one (sealNonce : Z) (cur : list Z) (id : Z) : M (list Z) :=
  let* found := gets (fun sm => Inferences (state sm) !! id) in
  let* r := lift_option found GoPanic in
  let* r' := settleLiveRecordLocked r in
  run* put_record id r' in
  let* cur' := fold_record sealNonce cur id r' in
  run* upsertInferenceObsLocked id sealNonce r' in
  run* drop_live id in
  ret cur'.

(** [func (sm *StateMachine) drainLiveIntoSealedAccLocked(sealNonce uint64) error] *)
Definition drainLiveIntoSealedAccLocked (sealNonce : Z) : M unit :=
  let* st := gets state in
  if bool_decide (size (Inferences st) = 0%nat) then ret tt
  else
    let* cur := mfold (drain_one sealNonce) (sealedAccBytes32 (SealedAcc st))
                  (sorted_keys (Inferences st)) in
    modify (on_state (st_SealedAcc cur)).

(** [func (sm *StateMachine) stateClockLocked() StateClockWindow] *)
Definition stateClockLocked (st : EscrowState) : StateClockWindow :=
  if bool_decide (size (Inferences st) = 0%nat) then zero_clock
  else
    let window0 := Z.of_nat (length (Group st)) * stateClockWindowFactor in
    let window := if window0 <=? 0 then stateClockWindowFactor else window0 in
    let ids := sorted_keys (Inferences st) in
    let tail := drop (length ids - Z.to_nat window)%nat ids in
    let confirmed := (fun id => match Inferences st !! id with
                                | Some r => ConfirmedAt r | None => 0 end) <$> tail in
    match fold_left clock_step confirmed None with
    | None => zero_clock
    | Some (mn, mx) => MkClock mx mn mx true
    end.

(** The ids whose gates have cleared, in the order the map iteration [order]
    visits them. *)
Definition eligible_ids (st : EscrowState) (stateClock sealNonce : Z)
    (order : list (Z * InferenceRecord)) : list Z :=
  (filter (fun p => seal_gate (InferenceSealGraceNonces (Config st))
                      (InferenceSealGraceSeconds (Config st)) stateClock sealNonce p.1 p.2 = true)
     order).*1.

(** The loop body of [autoSealLocked]; a failing observability write is logged
    and dropped here. *)
Definition seal_one (sealNonce : Z) (cur : list Z) (id : Z) : M (list Z) :=
  let* found := gets (fun sm => Inferences (state sm) !! id) in
  let* r := lift_option found GoPanic in
  let* cur' := fold_record sealNonce cur id r in
  run* (fun sm => ((upsertInferenceObsLocked id sealNonce r sm).1, Ok tt)) in
  run* drop_live id in
  ret cur'.

(** [func (sm *StateMachine) autoSealLocked(side string, sealNonce uint64) ([]uint64, StateClockWindow, error)] *)
Definition autoSealLocked (sealNonce : Z) : M (list Z * StateClockWindow) :=
  let* st := gets state in
  if bool_decide (size (Inferences st) = 0%nat) then ret ([], zero_clock)
  else
    let clockWin := stateClockLocked st in
    if clk_Clock clockWin =? 0 then ret ([], zero_clock)
    else
      let eligible := sort_Z (eligible_ids st (clk_Clock clockWin) sealNonce
                                (map_to_list (Inferences st))) in
      if bool_decide (eligible = []) then ret ([], clockWin)
      else
        let* cur := mfold (seal_one sealNonce) (sealedAccBytes32 (SealedAcc st)) eligible in
        run* modify (on_state (st_SealedAcc cur)) in
        ret (eligible, clockWin).

(** [func (sm *StateMachine) SealInference(id uint64) error] *)
Definition SealInference (id : Z) : M unit :=
  let* found := gets (fun sm => Inferences (state sm) !! id) in
  match found with
  | None => ret tt
  | Some r =>
      let* st := gets state in
      let sealedNonce := LatestNonce st in
      let* cur := fold_record sealedNonce (sealedAccBytes32 (SealedAcc st)) id r in
      run* modify (on_state (st_SealedAcc cur)) in
      run* upsertInferenceObsLocked id sealedNonce r in
      drop_live id
  end.

(** *** Diffs *)

(** [func (sm *StateMachine) computeStateRootLocked() ([]byte, error)] *)
Definition computeStateRootLocked (st : EscrowState) : outcome DevshardError (list Z) :=
  let! hostStatsHash := computeHostStatsHash (HostStatsMap st) in
  let! restHash := ComputeRestHashV2 (Balance st) (sealedAccBytes32 (SealedAcc st)) (Inferences st)
                     (WarmKeys st) in
  Ok (ComputeStateRootFromRestHash hostStatsHash restHash (Fees st) (Phase st)
        (StateRootAndProtocolVersion st)).

(** Steps 5 to 7 of [applyCore], which [localBestEffortLocked] repeats: charge
    the nonce fee in the active phase, advance the nonce, track finalization and
    drain at the deadline, run the auto-seal sweep, compute the root. *)
Definition finish_nonce (nonce : Z) : M (list Z) :=
  let* st := gets state in
  run* (if bool_decide (Phase st = PhaseActive) then
          run* check (negb (Balance st <? FeePerNonce (Config st))) ErrInsufficientBalance in
          run* put_balance (u64 (Balance st - FeePerNonce (Config st))) in
          modify (on_state (st_Fees (u64 (Fees st + FeePerNonce (Config st)))))
        else ret tt) in
  run* modify (on_state (st_LatestNonce nonce)) in
  run* (if bool_decide (Phase st = PhaseFinalizing) && (FinalizeNonce st =? 0)
        then modify (on_state (st_FinalizeNonce nonce)) else ret tt) in
  run* (if bool_decide (Phase st = PhaseFinalizing) then
          let* st1 := gets state in
          if u64 (FinalizeNonce st1 + u64 (Z.of_nat (length (Group st1)))) <=? LatestNonce st1 then
            run* modify (on_state (st_Phase PhaseSettlement)) in
            drainLiveIntoSealedAccLocked (LatestNonce st1)
          else ret tt
        else ret tt) in
  let* st2 := gets state in
  run* (if bool_decide (Phase st2 = PhaseActive)
             && shouldAutoSealAtNonce (autoSealInterval (Config st2)) nonce
        then (let* _ := autoSealLocked nonce in ret tt) else ret tt) in
  let* st3 := gets state in
  lift (computeStateRootLocked st3).

(** On an error, [sm.restoreMutable(snap)] and return it; a panic unwinds
    without restoring. *)
Definition or_restore {A} (snap : mutableSnapshot) (m : M A) : M A :=
  fun sm => match m sm with
            | (sm', Ok a) => (sm', Ok a)
            | (sm', Err GoPanic) => (sm', Err GoPanic)
            | (sm', Err e) => (restoreMutable snap sm', Err e)
            end.

(** [func (sm *StateMachine) applyCore(nonce, txs, postStateRoot, side) ([]byte, error)] *)
Definition applyCore (nonce : Z) (txs : list DevshardTx) (postStateRoot : list Z) : M (list Z) :=
  let* sm := get in
  run* check (nonce =? u64 (LatestNonce (state sm) + 1)) ErrInvalidNonce in
  run* lift (precheck_starts nonce txs) in
  or_restore (snapshotMutable sm)
    (run* mfold (fun _ tx => applyTx tx) tt txs in
     let* root := finish_nonce nonce in
     run* check (bool_decide (postStateRoot = []) || bool_decide (root = postStateRoot))
            ErrPostStateRootMismatch in
     ret root).

(** The candidate loop of [localBestEffortLocked]: a failing transaction is
    skipped unless it is the start of the nonce's inference. *)
Definition best_effort_one (applied : list DevshardTx) (tx : DevshardTx) : M (list DevshardTx) :=
  fun sm => match applyTx tx sm with
            | (sm', Ok _) => (sm', Ok (applied ++ [tx]))
            | (sm', Err GoPanic) => (sm', Err GoPanic)
            | (sm', Err e) => if is_start tx then (sm', Err e) else (sm', Ok applied)
            end.

(** [func (sm *StateMachine) localBestEffortLocked(nonce, txs) ([]byte, []*types.DevshardTx, error)] *)
Definition localBestEffortLocked (nonce : Z) (txs : list DevshardTx)
  : M (list Z * list DevshardTx) :=
  let* sm := get in
  run* check (nonce =? u64 (LatestNonce (state sm) + 1)) ErrInvalidNonce in
  run* lift (precheck_starts nonce txs) in
  or_restore (snapshotMutable sm)
    (let* applied := mfold best_effort_one [] txs in
     let* root := finish_nonce nonce in
     ret (root, applied)).

(** [func (sm *StateMachine) ApplyLocal(nonce, txs) ([]byte, error)] *)
Definition ApplyLocal (nonce : Z) (txs : list DevshardTx) : M (list Z) := applyCore nonce txs [].

(** [func (sm *StateMachine) ApplyLocalBestEffort(nonce, txs) ([]byte, []*types.DevshardTx, error)] *)
Definition ApplyLocalBestEffort (nonce : Z) (txs : list DevshardTx) : M (list Z * list DevshardTx) :=
  localBestEffortLocked nonce txs.

(** [func (sm *StateMachine) ApplyDiff(diff types.Diff) ([]byte, error)] *)
Definition ApplyDiff (diff : Diff) : M (list Z) :=
  run* verifyDiffUserSig diff in
  applyCore (d_Nonce diff) (d_Txs diff) (d_PostStateRoot diff).

(** Runs [m] with observability writes buffered, and hands the buffer back. *)
Definition with_deferred {A} (m : M A) : M (A * list deferredObsWrite) :=
  fun sm =>
    let '(sm', r) := m (set_obsDeferred (Some []) sm) in
    let obs := default [] (obsDeferred sm') in
    (set_obsDeferred None sm', match r with Ok a => Ok (a, obs) | Err e => Err e end).

(** [func (sm *StateMachine) ValidateDiff(diff types.Diff) (vd, error)] *)
Definition ValidateDiff (diff : Diff) : M ValidatedDiff :=
  run* verifyDiffUserSig diff in
  let* sm := get in
  let pre := snapshotMutable sm in
  let* (root, obs) :=
    with_deferred (applyCore (d_Nonce diff) (d_Txs diff) (d_PostStateRoot diff)) in
  let* post := gets snapshotMutable in
  let* warmAfter := gets (fun sm => WarmKeys (state sm)) in
  run* modify (restoreMutable pre) in
  ret (MkValidated root warmAfter [] (d_Nonce diff) post obs).

(** [func (sm *StateMachine) PreviewLocalBestEffort(nonce, txs) (vd, error)] *)
Definition PreviewLocalBestEffort (nonce : Z) (txs : list DevshardTx) : M ValidatedDiff :=
  let* sm := get in
  let pre := snapshotMutable sm in
  let* (p, obs) := with_deferred (localBestEffortLocked nonce txs) in
  let* warmAfter := gets (fun sm => WarmKeys (state sm)) in
  let* post := gets snapshotMutable in
  run* modify (restoreMutable pre) in
  ret (MkValidated p.1 warmAfter p.2 nonce post obs).

(** [func (sm *StateMachine) flushDeferredObsLocked(writes []deferredObsWrite)] *)
Definition flush_one (sm : SM) (w : deferredObsWrite) : SM :=
  match InsertSealedInference (inferenceStore sm) (EscrowID (state sm)) (do_row w) with
  | (st1, Err _) => set_store st1 sm
  | (st1, Ok _) =>
      if do_drain w
      then set_store (DrainInferenceValidationObs st1 (EscrowID (state sm)) (do_id w)).1 sm
      else set_store st1 sm
  end.
Definition flushDeferredObsLocked (writes : list deferredObsWrite) (sm : SM) : SM :=
  fold_left flush_one writes sm.

(** [func (sm *StateMachine) CommitValidated(vd *ValidatedDiff) bool] *)
Definition CommitValidated (vd : ValidatedDiff) (sm : SM) : SM * bool :=
  if negb (vd_nonce vd =? u64 (LatestNonce (state sm) + 1)) then (sm, false)
  else (flushDeferredObsLocked (vd_obs vd) (restoreMutable (vd_post vd) sm), true).

(** *** Recovery and inspection *)

(** [func (sm *StateMachine) rebuildCommittedEntriesLocked()]: an entry that
    fails to marshal is logged and left out. *)
Definition rebuild_entries (sm : SM) : gmap Z (list Z) :=
  map_imap (fun id r => match marshalInferenceEntry id r with Ok e => Some e | Err _ => None end)
    (Inferences (state sm)).
Definition rebuildCommittedEntriesLocked (sm : SM) : SM := set_committed (rebuild_entries sm) sm.

(** [func (sm *StateMachine) RestoreState(state *types.EscrowState)] *)
Definition RestoreState (st : option EscrowState) (sm : SM) : SM :=
  match st with
  | None => sm
  | Some s => rebuildCommittedEntriesLocked (on_state (fun _ => s) sm)
  end.

(** [func (sm *StateMachine) RestoreCommittedEntries(entries map[uint64][]byte)] *)
Definition RestoreCommittedEntries (entries : gmap Z (list Z)) (sm : SM) : SM :=
  if bool_decide (size entries = 0%nat) then rebuildCommittedEntriesLocked sm
  else set_committed (rebuild_entries sm ∪ entries) sm.

(** [func (sm *StateMachine) RestoreSealedNonces(nonces map[uint64]uint64)] *)
Definition RestoreSealedNonces (nonces : gmap Z Z) (sm : SM) : SM := set_sealedNonces nonces sm.

(** [func (sm *StateMachine) GetCommittedRecord(id uint64) (types.InferenceRecord, bool)] *)
Definition GetCommittedRecord (sm : SM) (id : Z) : option InferenceRecord :=
  match Inferences (state sm) !! id with
  | Some r => Some r
  | None => match hydrateCommittedInferenceLocked sm id with Ok r => Some r | Err _ => None end
  end.

(** [func (sm *StateMachine) lookupSealedInferenceLocked(id uint64) (types.InferenceRecord, bool)] *)
Definition lookupSealedInferenceLocked (sm : SM) (id : Z) : option InferenceRecord :=
  match GetSealedInference (inferenceStore sm) (EscrowID (state sm)) id with
  | Ok (Some row) => if row_ObsPresent row then Some (inferenceRecordFromObsRow row) else None
  | _ => None
  end.

(** [func (sm *StateMachine) ExportAllInferenceRecords() map[uint64]types.InferenceRecord] *)
Definition ExportAllInferenceRecords (sm : SM) : gmap Z InferenceRecord :=
  Inferences (state sm) ∪
  map_imap (fun id (_ : Z) =>
              match lookupSealedInferenceLocked sm id with
              | Some r => Some r
              | None => match hydrateCommittedInferenceLocked sm id with
                        | Ok r => Some r | Err _ => None end
              end) (sealedNonces sm).

(** [func (sm *StateMachine) RebuildSealedInferenceIndex() error] *)
Definition index_row (sm : SM) (id nonce : Z) : InferenceRow :=
  match committedEntries sm !! id with
  | Some cached =>
      match unmarshalInferenceEntry cached with
      | Ok (entryID, r) =>
          if entryID =? id then inferenceObsRow id nonce r
          else MkRow id nonce false 0 0 0 0 [] "" [] [] 0 0 0 0 0 0 0 0
      | Err _ => MkRow id nonce false 0 0 0 0 [] "" [] [] 0 0 0 0 0 0 0 0
      end
  | None => MkRow id nonce false 0 0 0 0 [] "" [] [] 0 0 0 0 0 0 0 0
  end.
Definition RebuildSealedInferenceIndex : M unit :=
  fun sm =>
    match DeleteSealedInferences (inferenceStore sm) (EscrowID (state sm)) with
    | (st0, Err e) => (set_store st0 sm, Err (ErrWrapped e))
    | (st0, Ok _) =>
        mfold (fun _ id => fun sm =>
          if bool_decide (is_Some (Inferences (state sm) !! id)) then (sm, Ok tt)
          else
            let nonce := default (LatestNonce (state sm)) (sealedNonces sm !! id) in
            let '(st1, r1) := InsertSealedInference (inferenceStore sm) (EscrowID (state sm))
                                (index_row sm id nonce) in
            (set_store st1 sm, match r1 with Err e => Err (ErrWrapped e) | Ok u => Ok u end)) tt (sorted_keys (sealedNonces sm)) (set_store st0 sm)
    end.

End Machine.
