(* ===== verification/DevshardLedger.v ===== *)
(** The abstract specification of a devshard session: an escrow ledger.

    The ledger has unbounded integers and no signatures, hashes or storage: an
    amount is split between the free balance, the collected fees, the
    reservations of open inferences and the earnings of the hosts.  [lstep] is
    what a session may do to it.  [DevshardRefine] shows that the state machine
    of [devshard/state] implements it with 64-bit arithmetic. *)

From S2P Require Import Prelude.
From S2P Require Import GoStd.
From S2P Require Import DevshardTypes.

Open Scope Z_scope.

(* ------------------------------------------------------------------ *)
(** ** Ledger states *)

Record Entry := MkEntry {
  e_status : InferenceStatus; e_slot : Z; e_reserved : Z; e_actual : Z }.
Record Host := MkHost { h_cost : Z; h_missed : Z; h_invalid : Z }.
Record Ledger := MkLedger {
  l_balance : Z;
  l_fees : Z;
  l_live : gmap Z Entry;
  l_hosts : gmap Z Host;
  l_closed : gset Z
}.

Definition with_status (s : InferenceStatus) (e : Entry) : Entry :=
  MkEntry s (e_slot e) (e_reserved e) (e_actual e).
Definition with_result (s : InferenceStatus) (actual : Z) (e : Entry) : Entry :=
  MkEntry s (e_slot e) (e_reserved e) actual.
Definition earn (c : Z) (h : Host) : Host := MkHost (h_cost h + c) (h_missed h) (h_invalid h).
Definition miss (h : Host) : Host := MkHost (h_cost h) (h_missed h + 1) (h_invalid h).
Definition invalidate (c : Z) (h : Host) : Host :=
  MkHost (h_cost h - c) (h_missed h) (h_invalid h + 1).

(** A reservation is open while its inference is pending or started. *)
Definition is_open (s : InferenceStatus) : bool :=
  match s with StatusPending | StatusStarted => true | _ => false end.
(** A paid inference counts in its host's earnings and may still be clawed back. *)
Definition is_paid (s : InferenceStatus) : bool :=
  match s with StatusFinished | StatusChallenged | StatusValidated => true | _ => false end.
(** A failed inference has been charged to its host as missed or invalid. *)
Definition is_failed (s : InferenceStatus) : bool :=
  match s with StatusTimedOut | StatusInvalidated => true | _ => false end.

(* ------------------------------------------------------------------ *)
(** ** Ledger steps *)

(** [top] bounds the ids that may be used, [slot_of] is the executor routing. *)
Inductive lstep (top : Z) (slot_of : Z -> Z) : Ledger -> Ledger -> Prop :=
| L_start bal fees live hosts closed id reserved :
    live !! id = None -> id ∉ closed -> 1 <= id <= top ->
    is_Some (hosts !! slot_of id) -> 0 <= reserved <= bal ->
    lstep top slot_of (MkLedger bal fees live hosts closed)
      (MkLedger (bal - reserved) fees
         (<[id := MkEntry StatusPending (slot_of id) reserved 0]> live) hosts closed)
| L_confirm bal fees live hosts closed id e :
    live !! id = Some e -> e_status e = StatusPending ->
    lstep top slot_of (MkLedger bal fees live hosts closed)
      (MkLedger bal fees (<[id := with_status StatusStarted e]> live) hosts closed)
| L_finish bal fees live hosts closed id e h actual :
    live !! id = Some e -> e_status e = StatusStarted -> 0 <= actual <= e_reserved e ->
    hosts !! e_slot e = Some h ->
    lstep top slot_of (MkLedger bal fees live hosts closed)
      (MkLedger (bal + (e_reserved e - actual)) fees
         (<[id := with_result StatusFinished actual e]> live)
         (<[e_slot e := earn actual h]> hosts) closed)
| L_challenge bal fees live hosts closed id e :
    live !! id = Some e -> e_status e = StatusFinished ->
    lstep top slot_of (MkLedger bal fees live hosts closed)
      (MkLedger bal fees (<[id := with_status StatusChallenged e]> live) hosts closed)
| L_validated bal fees live hosts closed id e :
    live !! id = Some e -> e_status e = StatusChallenged ->
    lstep top slot_of (MkLedger bal fees live hosts closed)
      (MkLedger bal fees (<[id := with_status StatusValidated e]> live) hosts closed)
| L_invalidated bal fees live hosts closed id e h :
    live !! id = Some e -> e_status e = StatusChallenged -> hosts !! e_slot e = Some h ->
    lstep top slot_of (MkLedger bal fees live hosts closed)
      (MkLedger (bal + e_actual e) fees (<[id := with_status StatusInvalidated e]> live)
         (<[e_slot e := invalidate (e_actual e) h]> hosts) closed)
| L_timeout bal fees live hosts closed id e h :
    live !! id = Some e -> is_open (e_status e) = true -> hosts !! e_slot e = Some h ->
    lstep top slot_of (MkLedger bal fees live hosts closed)
      (MkLedger (bal + e_reserved e) fees (<[id := with_status StatusTimedOut e]> live)
         (<[e_slot e := miss h]> hosts) closed)
| L_refund bal fees live hosts closed id e :
    live !! id = Some e -> e_status e = StatusPending ->
    lstep top slot_of (MkLedger bal fees live hosts closed)
      (MkLedger (bal + e_reserved e) fees (<[id := with_result StatusTimedOut 0 e]> live) hosts closed)
| L_seal bal fees live hosts closed id e :
    live !! id = Some e -> is_open (e_status e) = false ->
    lstep top slot_of (MkLedger bal fees live hosts closed)
      (MkLedger bal fees (delete id live) hosts ({[id]} ∪ closed))
| L_fee bal fees live hosts closed fee :
    0 <= fee <= bal ->
    lstep top slot_of (MkLedger bal fees live hosts closed)
      (MkLedger (bal - fee) (fees + fee) live hosts closed).

(* ------------------------------------------------------------------ *)
(** ** The ledger invariant *)

(** Sums over the live inferences. *)
Definition open_value (_ : Z) (e : Entry) : Z := if is_open (e_status e) then e_reserved e else 0.
Definition paid_value (s : Z) (_ : Z) (e : Entry) : Z :=
  if (e_slot e =? s) && is_paid (e_status e) then e_actual e else 0.
Definition unfailed (s : Z) (_ : Z) (e : Entry) : Z :=
  if (e_slot e =? s) && negb (is_failed (e_status e)) then 1 else 0.
Definition host_cost (_ : Z) (h : Host) : Z := h_cost h.

(** Every id that was ever started. *)
Definition ids (l : Ledger) : gset Z := dom (l_live l) ∪ l_closed l.
(** The started ids that were routed to slot [s]. *)
Definition routed (slot_of : Z -> Z) (s : Z) (l : Ledger) : gset Z :=
  filter (fun id => slot_of id = s) (ids l).

Definition entry_ok (slot_of : Z -> Z) (hosts : gmap Z Host) (id : Z) (e : Entry) : Prop :=
  e_slot e = slot_of id /\ is_Some (hosts !! e_slot e) /\ 0 <= e_actual e <= e_reserved e.

Definition host_ok (slot_of : Z -> Z) (l : Ledger) (s : Z) (h : Host) : Prop :=
  0 <= h_cost h /\ 0 <= h_missed h /\ 0 <= h_invalid h /\
  msum (paid_value s) (l_live l) <= h_cost h /\
  h_missed h + h_invalid h + msum (unfailed s) (l_live l) <= Z.of_nat (size (routed slot_of s l)).

(** [amount] is the escrow amount, all of it accounted for. *)
Record linv (amount top : Z) (slot_of : Z -> Z) (l : Ledger) : Prop := {
  linv_balance : 0 <= l_balance l;
  linv_fees : 0 <= l_fees l;
  linv_conservation :
    l_balance l + l_fees l + msum open_value (l_live l) + msum host_cost (l_hosts l) = amount;
  linv_entries : forall id e, l_live l !! id = Some e -> entry_ok slot_of (l_hosts l) id e;
  linv_hosts : forall s h, l_hosts l !! s = Some h -> host_ok slot_of l s h;
  linv_ids : forall id, id ∈ ids l -> 1 <= id <= top;
  linv_disjoint : forall id, id ∈ l_closed l -> l_live l !! id = None
}.

(** The lifecycle of an inference. *)
Inductive status_edge : InferenceStatus -> InferenceStatus -> Prop :=
| E_confirm : status_edge StatusPending StatusStarted
| E_refused : status_edge StatusPending StatusTimedOut
| E_finish : status_edge StatusStarted StatusFinished
| E_execution : status_edge StatusStarted StatusTimedOut
| E_challenge : status_edge StatusFinished StatusChallenged
| E_validated : status_edge StatusChallenged StatusValidated
| E_invalidated : status_edge StatusChallenged StatusInvalidated.

(** What later steps may do to a live entry: move along the lifecycle with its
    executor and reservation fixed, or close. *)
Definition follows (id : Z) (e : Entry) (l : Ledger) : Prop :=
  id ∈ l_closed l \/
  exists e', l_live l !! id = Some e' /\ rtc status_edge (e_status e) (e_status e') /\
             e_slot e' = e_slot e /\ e_reserved e' = e_reserved e.

(* ------------------------------------------------------------------ *)
(** ** Lemmas *)

Ltac ledger_cases :=
  repeat match goal with
  | H : e_status ?e = _ |- _ => rewrite H in *
  end.

Section LedgerLemmas.
Context (amount top : Z) (slot_of : Z -> Z).

Lemma unfailed_nonneg s k e : 0 <= unfailed s k e.
Proof. unfold unfailed. destruct (_ && _); lia. Qed.

(** Everything in the ledger is at most the escrow amount. *)
Lemma linv_open_nonneg l : linv amount top slot_of l -> 0 <= msum open_value (l_live l).
Proof.
  intros Hl. apply msum_nonneg. intros k e Hk. destruct (linv_entries _ _ _ _ Hl k e Hk) as (_ & _ & ?).
  unfold open_value. destruct (is_open _); lia.
Qed.

Lemma linv_cost_nonneg l : linv amount top slot_of l -> 0 <= msum host_cost (l_hosts l).
Proof. intros Hl. apply msum_nonneg. intros k h Hk. apply (linv_hosts _ _ _ _ Hl k h Hk). Qed.

Lemma linv_reserved_le l id e :
  linv amount top slot_of l -> l_live l !! id = Some e -> is_open (e_status e) = true ->
  l_balance l + e_reserved e <= amount.
Proof.
  intros Hl Hid Ho. pose proof (linv_conservation _ _ _ _ Hl). pose proof (linv_fees _ _ _ _ Hl).
  pose proof (linv_cost_nonneg l Hl).
  assert (open_value id e <= msum open_value (l_live l)) as Hle.
  { apply msum_lookup_le; [|done]. intros k e' Hk.
    destruct (linv_entries _ _ _ _ Hl k e' Hk) as (_ & _ & ?). unfold open_value.
    destruct (is_open (e_status e')); lia. }
  unfold open_value in Hle at 1. rewrite Ho in Hle. lia.
Qed.

Lemma linv_host_le l s h :
  linv amount top slot_of l -> l_hosts l !! s = Some h ->
  l_balance l + h_cost h + msum open_value (l_live l) <= amount.
Proof.
  intros Hl Hs. pose proof (linv_conservation _ _ _ _ Hl). pose proof (linv_fees _ _ _ _ Hl).
  assert (host_cost s h <= msum host_cost (l_hosts l)) as Hle.
  { apply msum_lookup_le; [|done]. intros k h' Hk. apply (linv_hosts _ _ _ _ Hl k h' Hk). }
  unfold host_cost in Hle at 1. lia.
Qed.

Lemma linv_paid_le l id e h :
  linv amount top slot_of l -> l_live l !! id = Some e -> is_paid (e_status e) = true ->
  l_hosts l !! e_slot e = Some h -> e_actual e <= h_cost h.
Proof.
  intros Hl Hid Hp Hs. destruct (linv_hosts _ _ _ _ Hl _ _ Hs) as (_ & _ & _ & Hsum & _).
  assert (paid_value (e_slot e) id e <= msum (paid_value (e_slot e)) (l_live l)) as Hle.
  { apply msum_lookup_le; [|done]. intros k e' Hk.
    destruct (linv_entries _ _ _ _ Hl k e' Hk) as (_ & _ & ?). unfold paid_value. destruct (_ && _); lia. }
  unfold paid_value in Hle at 1. rewrite Z.eqb_refl, Hp in Hle. cbn in Hle. lia.
Qed.

Lemma routed_update live hosts hosts' closed bal bal' fees fees' id e e' s :
  live !! id = Some e ->
  routed slot_of s (MkLedger bal' fees' (<[id:=e']> live) hosts' closed) =
  routed slot_of s (MkLedger bal fees live hosts closed).
Proof.
  intros Hid. unfold routed, ids. cbn. rewrite dom_insert_lookup_L; [done|]. by eexists.
Qed.

(** Every step on one inference is a change of its entry and of its host's
    record that keeps the books: one lemma for all of them. *)
Lemma linv_update bal bal' fees live hosts closed id e e' h h' :
  linv amount top slot_of (MkLedger bal fees live hosts closed) ->
  live !! id = Some e -> hosts !! e_slot e = Some h ->
  e_slot e' = e_slot e -> 0 <= e_actual e' <= e_reserved e' ->
  0 <= bal' -> 0 <= h_cost h' -> 0 <= h_missed h' -> 0 <= h_invalid h' ->
  bal' + open_value id e' + h_cost h' = bal + open_value id e + h_cost h ->
  paid_value (e_slot e) id e' - paid_value (e_slot e) id e <= h_cost h' - h_cost h ->
  h_missed h' + h_invalid h' + unfailed (e_slot e) id e' <=
  h_missed h + h_invalid h + unfailed (e_slot e) id e ->
  linv amount top slot_of
    (MkLedger bal' fees (<[id:=e']> live) (<[e_slot e:=h']> hosts) closed).
Proof.
  intros Hl Hid Hh Hslot Hact Hb Hc Hm Hi Hcons Hpaid Hunf.
  destruct Hl as [_ Hf Hc0 He Hhosts Hids Hdis]. cbn in *. split; cbn; try done.
  - rewrite (msum_update open_value live id e e' Hid), (msum_update host_cost hosts _ h h' Hh).
    unfold host_cost at 2 3. lia.
  - intros k e0 Hk. apply lookup_insert_Some in Hk as [[<- <-]|[Hne Hk]].
    + destruct (He id e Hid) as (Hs & Hsome & _). split; [congruence|]. split; [|done].
      rewrite Hslot. exists h'. apply lookup_insert_eq.
    + destruct (He k e0 Hk) as (Hs & [h0 Hh0] & Ha). split; [done|]. split; [|done].
      destruct (decide (e_slot e = e_slot e0)) as [Heq|Hne0].
      * rewrite Heq. exists h'. apply lookup_insert_eq.
      * exists h0. by rewrite lookup_insert_ne.
  - intros s h0 Hs. unfold host_ok. cbn [l_live].
    rewrite (msum_update (paid_value s) live id e e' Hid).
    rewrite (msum_update (unfailed s) live id e e' Hid).
    rewrite (routed_update live hosts _ closed bal _ fees _ id e e' s Hid).
    apply lookup_insert_Some in Hs as [[<- <-]|[Hne Hs]].
    + destruct (Hhosts _ _ Hh) as (_ & _ & _ & Hp & Hu). cbn in Hp, Hu. repeat split; lia.
    + destruct (Hhosts _ _ Hs) as (H1 & H2 & H3 & Hp & Hu). cbn in Hp, Hu.
      unfold paid_value at 2 3. unfold unfailed at 2 3. rewrite Hslot.
      destruct (Z.eqb_spec (e_slot e) s); [done|]. cbn. repeat split; try done; lia.
  - intros k Hk. apply Hids. unfold ids in *. cbn in *.
    rewrite dom_insert_lookup_L in Hk; [done | by eexists].
  - intros k Hk. rewrite lookup_insert_ne; [by apply Hdis|]. intros <-.
    specialize (Hdis _ Hk). congruence.
Qed.

Lemma linv_update_entry bal bal' fees live hosts closed id e e' :
  linv amount top slot_of (MkLedger bal fees live hosts closed) ->
  live !! id = Some e -> e_slot e' = e_slot e -> 0 <= e_actual e' <= e_reserved e' -> 0 <= bal' ->
  bal' + open_value id e' = bal + open_value id e ->
  paid_value (e_slot e) id e' <= paid_value (e_slot e) id e ->
  unfailed (e_slot e) id e' <= unfailed (e_slot e) id e ->
  linv amount top slot_of (MkLedger bal' fees (<[id:=e']> live) hosts closed).
Proof.
  intros Hl Hid Hslot Hact Hb Hcons Hp Hu.
  destruct (linv_entries _ _ _ _ Hl id e Hid) as (_ & [h Hh] & _). cbn in Hh.
  destruct (linv_hosts _ _ _ _ Hl _ _ Hh) as (? & ? & ? & _).
  rewrite <- (insert_id hosts (e_slot e) h Hh).
  eapply linv_update; eauto; lia.
Qed.

Lemma linv_start bal fees live hosts closed id reserved :
  linv amount top slot_of (MkLedger bal fees live hosts closed) ->
  live !! id = None -> id ∉ closed -> 1 <= id <= top ->
  is_Some (hosts !! slot_of id) -> 0 <= reserved <= bal ->
  linv amount top slot_of
    (MkLedger (bal - reserved) fees
       (<[id := MkEntry StatusPending (slot_of id) reserved 0]> live) hosts closed).
Proof.
  intros [Hb Hf Hc He Hh Hids Hdis] Hnew Hcl Hid Hslot Hr. cbn in *.
  split; cbn; try done; try lia.
  - rewrite msum_insert by done. unfold open_value at 1. cbn. lia.
  - intros k e Hk. apply lookup_insert_Some in Hk as [[<- <-]|[Hne Hk]]; [|by apply He].
    split; [done|]. split; [done|]. cbn. lia.
  - intros s h Hs. destruct (Hh s h Hs) as (H1 & H2 & H3 & Hp & Hu). cbn in Hp, Hu.
    unfold host_ok. cbn [l_live]. rewrite !msum_insert by done.
    unfold paid_value at 1, unfailed at 1. cbn [e_slot e_status is_paid is_failed negb].
    rewrite andb_false_r, andb_true_r. repeat split; try done; try lia.
    unfold routed, ids in *. cbn in *. rewrite dom_insert_L, <- (assoc_L (∪)), filter_union_L by apply _.
    destruct (Z.eqb_spec (slot_of id) s) as [Heq|Hne].
    + rewrite filter_singleton_True_L by (done || apply _).
      rewrite size_union by (apply disjoint_singleton_l; rewrite elem_of_filter; intros [_ Hin];
        apply elem_of_union in Hin as [Hin|Hin]; [apply not_elem_of_dom in Hnew|]; done).
      rewrite size_singleton. lia.
    + rewrite filter_singleton_False_L by (done || apply _).
      rewrite (left_id_L ∅ (∪)). lia.
  - intros k Hk. unfold ids in *. cbn in *. rewrite dom_insert_L in Hk.
    destruct (decide (k = id)) as [->|Hne]; [done|]. apply Hids. set_solver.
  - intros k Hk. rewrite lookup_insert_ne; [by apply Hdis|]. by intros ->.
Qed.

Lemma linv_seal bal fees live hosts closed id e :
  linv amount top slot_of (MkLedger bal fees live hosts closed) ->
  live !! id = Some e -> is_open (e_status e) = false ->
  linv amount top slot_of (MkLedger bal fees (delete id live) hosts ({[id]} ∪ closed)).
Proof.
  intros [Hb Hf Hc He Hh Hids Hdis] Hid Ho. cbn in *.
  assert (forall bal fees hosts, ids (MkLedger bal fees (delete id live) hosts ({[id]} ∪ closed)) =
          ids (MkLedger bal fees live hosts closed)) as Hsame.
  { intros. unfold ids. cbn. rewrite dom_delete_L. apply elem_of_dom_2 in Hid.
    apply set_eq. intros k. destruct (decide (k = id)); set_solver. }
  split; cbn; try done.
  - rewrite (msum_delete open_value live id e Hid). unfold open_value at 2. rewrite Ho. lia.
  - intros k e0 [_ Hk]%lookup_delete_Some. by apply He.
  - intros s h Hs. destruct (Hh s h Hs) as (H1 & H2 & H3 & Hp & Hu). cbn in Hp, Hu.
    unfold host_ok, routed in *. rewrite Hsame. cbn [l_live].
    rewrite (msum_delete (paid_value s) live id e Hid), (msum_delete (unfailed s) live id e Hid).
    pose proof (unfailed_nonneg s id e). destruct (He id e Hid) as (_ & _ & ?).
    assert (0 <= paid_value s id e) by (unfold paid_value; destruct (_ && _); lia).
    repeat split; try done; lia.
  - intros k Hk. rewrite Hsame in Hk. by apply Hids.
  - intros k [->%elem_of_singleton|Hk]%elem_of_union; [apply lookup_delete_eq|].
    destruct (decide (id = k)) as [->|Hne]; [apply lookup_delete_eq|].
    rewrite lookup_delete_ne by done. by apply Hdis.
Qed.

(** Every ledger step keeps the books. *)
Lemma lstep_linv l l' :
  lstep top slot_of l l' -> linv amount top slot_of l -> linv amount top slot_of l'.
Proof.
  intros Hstep Hl. pose proof (linv_balance _ _ _ _ Hl) as Hb.
  destruct Hstep; cbn in Hb;
    try (pose proof (linv_entries _ _ _ _ Hl _ _ H) as (_ & _ & Ha); cbn in H).
  - by apply linv_start.
  - eapply linv_update_entry; eauto; unfold open_value, paid_value, unfailed; cbn;
      rewrite ?H0; cbn; lia.
  - destruct (linv_hosts _ _ _ _ Hl _ _ H2) as (? & ? & ? & _).
    eapply linv_update; eauto; unfold open_value, paid_value, unfailed; cbn;
      rewrite ?H0, ?Z.eqb_refl; cbn; lia.
  - eapply linv_update_entry; eauto; unfold open_value, paid_value, unfailed; cbn;
      rewrite ?H0; cbn; lia.
  - eapply linv_update_entry; eauto; unfold open_value, paid_value, unfailed; cbn;
      rewrite ?H0; cbn; lia.
  - destruct (linv_hosts _ _ _ _ Hl _ _ H1) as (? & ? & ? & _).
    assert (e_actual e <= h_cost h) by (eapply (linv_paid_le (MkLedger bal fees live hosts closed)); eauto; by rewrite H0).
    eapply linv_update; eauto; unfold open_value, paid_value, unfailed; cbn;
      rewrite ?H0, ?Z.eqb_refl; cbn; lia.
  - destruct (linv_hosts _ _ _ _ Hl _ _ H1) as (? & ? & ? & _).
    eapply linv_update; eauto; unfold open_value, paid_value, unfailed; cbn;
      destruct (e_status e); try done; cbn; rewrite ?Z.eqb_refl; cbn; lia.
  - eapply linv_update_entry; eauto; unfold open_value, paid_value, unfailed; cbn;
      rewrite ?H0; cbn; rewrite ?andb_false_r; try destruct (_ && _); lia.
  - by eapply linv_seal.
  - destruct Hl as [? ? ? ? ? ? ?]. cbn in *. split; cbn; try done; lia.
Qed.

Lemma lsteps_linv l l' :
  rtc (lstep top slot_of) l l' -> linv amount top slot_of l -> linv amount top slot_of l'.
Proof. induction 1; [done | eauto using lstep_linv]. Qed.

(** Fewer ids than the bound. *)
Lemma linv_top l top' : top <= top' -> linv amount top slot_of l -> linv amount top' slot_of l.
Proof.
  intros Ht [? ? ? ? ? Hids ?]. split; try done. intros id Hid. specialize (Hids id Hid). lia.
Qed.

(** A fresh ledger: fees paid, nothing live, nothing earned. *)
Lemma linv_init bal fees hosts :
  0 <= bal -> 0 <= fees -> bal + fees = amount ->
  (forall s h, hosts !! s = Some h -> h = MkHost 0 0 0) ->
  linv amount top slot_of (MkLedger bal fees ∅ hosts ∅).
Proof.
  intros Hb Hf Hsum Hh. split; cbn; try done.
  - rewrite msum_empty. assert (msum host_cost hosts = 0); [|lia].
    apply Z.le_antisymm.
    + rewrite (msum_ext _ (fun _ _ => 0)) by (intros k v Hk; by rewrite (Hh k v Hk)).
      rewrite msum_map_to_list. induction (map_to_list hosts) as [|[] l IH]; [done|]. rewrite lsum_cons. lia.
    + apply msum_nonneg. intros k v Hk. by rewrite (Hh k v Hk).
  - intros s h Hs. rewrite (Hh s h Hs). unfold host_ok; cbn. rewrite !msum_empty. lia.
Qed.

Lemma linv_routed_le l s :
  linv amount top slot_of l -> 0 <= top -> Z.of_nat (size (routed slot_of s l)) <= top.
Proof.
  intros Hl Ht.
  assert (size (routed slot_of s l) <= size (list_to_set (seqZ 1 top) : gset Z))%nat as Hle.
  { apply subseteq_size. intros id [_ Hid]%elem_of_filter.
    apply elem_of_list_to_set, elem_of_seqZ. pose proof (linv_ids _ _ _ _ Hl id Hid). lia. }
  rewrite size_list_to_set in Hle by apply NoDup_seqZ. rewrite length_seqZ in Hle. lia.
Qed.

(** Closed ids stay closed. *)
Lemma lstep_closed l l' : lstep top slot_of l l' -> l_closed l ⊆ l_closed l'.
Proof. destruct 1; cbn; set_solver. Qed.

Lemma lsteps_closed l l' : rtc (lstep top slot_of) l l' -> l_closed l ⊆ l_closed l'.
Proof. induction 1; [done|]. etrans; [by eapply lstep_closed|done]. Qed.

Lemma lstep_ids l l' : lstep top slot_of l l' -> ids l ⊆ ids l'.
Proof. destruct 1; unfold ids; cbn; rewrite ?dom_insert_L, ?dom_delete_L; try set_solver.
  intros k. destruct (decide (k = id)); set_solver. Qed.

Lemma lsteps_ids l l' : rtc (lstep top slot_of) l l' -> ids l ⊆ ids l'.
Proof. induction 1; [done|]. etrans; [by eapply lstep_ids|done]. Qed.

(** Entries move along the lifecycle. *)
Lemma follows_insert id e l k e0 e1 :
  l_live l !! id = Some e -> l_live l !! k = Some e0 -> status_edge (e_status e0) (e_status e1) ->
  e_slot e1 = e_slot e0 -> e_reserved e1 = e_reserved e0 ->
  exists e', <[k:=e1]> (l_live l) !! id = Some e' /\ rtc status_edge (e_status e) (e_status e') /\
             e_slot e' = e_slot e /\ e_reserved e' = e_reserved e.
Proof.
  intros He Hk Hs H1 H2. destruct (decide (k = id)) as [->|Hne].
  - exists e1. rewrite lookup_insert_eq. assert (e0 = e) as -> by congruence. by split; [|split; [apply rtc_once|]].
  - exists e. by rewrite lookup_insert_ne.
Qed.

Lemma lstep_follows l l' id e : lstep top slot_of l l' -> l_live l !! id = Some e -> follows id e l'.
Proof.
  intros Hs He. destruct Hs as
    [bal fees live hosts closed k rsv Hk _ _ _ _ | bal fees live hosts closed k e0 Hk Hst
    |bal fees live hosts closed k e0 h act Hk Hst _ _ | bal fees live hosts closed k e0 Hk Hst
    |bal fees live hosts closed k e0 Hk Hst | bal fees live hosts closed k e0 h Hk Hst _
    |bal fees live hosts closed k e0 h Hk Hst _ | bal fees live hosts closed k e0 Hk Hst
    |bal fees live hosts closed k e0 Hk Hst | bal fees live hosts closed fee _];
    try (right; apply (follows_insert id e (MkLedger bal fees live hosts closed) k e0); try done;
         cbn; try rewrite Hst; by constructor).
  - right. exists e. cbn in *. rewrite lookup_insert_ne by congruence. done.
  - right. apply (follows_insert id e (MkLedger bal fees live hosts closed) k e0); try done.
    cbn. destruct (e_status e0); try done; constructor.
  - cbn in *. destruct (decide (k = id)) as [->|Hne]; [left; set_solver|]. right. exists e. cbn. by rewrite lookup_delete_ne.
  - right. by exists e.
Qed.

Lemma lsteps_follows l l' id e : rtc (lstep top slot_of) l l' -> l_live l !! id = Some e -> follows id e l'.
Proof.
  intros Hs. revert e. induction Hs as [l|l l1 l' H1 Hs IH]; intros e He; [right; by exists e|].
  destruct (lstep_follows _ _ _ _ H1 He) as [Hc|(e1 & He1 & Hr & Hsl & Hrs)].
  - left. by eapply lsteps_closed.
  - destruct (IH e1 He1) as [Hc|(e2 & He2 & Hr2 & Hsl2 & Hrs2)]; [by left|right].
    exists e2. split; [done|]. split; [by etrans|]. split; congruence.
Qed.

End LedgerLemmas.
