(* ===== verification/DevshardRefine.v ===== *)
(** The state machine implements the escrow ledger.

    [abs] forgets signatures, hashes, storage and the 64-bit representation.
    [Inv] is the invariant of a session: its lookup maps describe its group, its
    ledger keeps the books ([linv]), every live record is well formed and its
    committed bytes are its serialization.  Every transaction that succeeds is a
    sequence of ledger steps and keeps [Inv]; one that fails changes nothing but
    warm-key bindings. *)

From S2P Require Import Prelude.
From S2P Require Import GoStd.
From S2P Require Import DevshardTypes.
From S2P Require Import DevshardHash.
From S2P Require Import DevshardMachine.
From S2P Require Import DevshardLedger.

Open Scope Z_scope.

(* ------------------------------------------------------------------ *)
(** ** Abstraction *)

Definition abs_entry (r : InferenceRecord) : Entry :=
  MkEntry (Status r) (ExecutorSlot r) (ReservedCost r) (ActualCost r).
Definition abs_host (h : HostStats) : Host := MkHost (Cost h) (Missed h) (Invalid h).

Section Defs.
Context {Store : Type} `{!InferenceStorage Store} `{!ProtoCodec} `{!SigVerifier}.
Abbreviation SM := (StateMachine Store).

Definition abs (sm : SM) : Ledger :=
  let st := state sm in
  MkLedger (Balance st) (Fees st) (abs_entry <$> Inferences st) (abs_host <$> HostStatsMap st)
    (dom (sealedNonces sm)).

(** Everything that no diff changes. *)
Definition immut (sm : SM) :=
  let st := state sm in
  (EscrowID st, StateRootAndProtocolVersion st, Config st, Group st, userAddress sm,
   slotToAddress sm, addressToSlotCount sm, addressToSlots sm, totalSlots sm, warmResolver sm).

Definition nslots (sm : SM) : Z := Z.of_nat (length (Group (state sm))).
(** Executor routing: [group[id % len(group)].SlotID] in a validated group. *)
Definition slot_of (sm : SM) (id : Z) : Z := id mod nslots sm.

(** The slots of an address, from the group. *)
Definition owned (sm : SM) (a : string) : list Z :=
  filter (fun i => slotToAddress sm !! i = Some a) (seqZ 0 (nslots sm)).
(** The owner of slot [i] has a bit in [b]. *)
Definition participated (sm : SM) (b : Bitmap128) (i : Z) : bool :=
  existsb (bm_IsSet b) (AddressSlots sm (SlotAddress sm i)).
(** How many slots belong to addresses with a bit in [b]. *)
Definition voted_weight (sm : SM) (b : Bitmap128) : Z :=
  Z.of_nat (length (filter (fun i => participated sm b i = true) (seqZ 0 (nslots sm)))).

(** A record's bitmap is two words, and its tallies are covered by the slots of
    the addresses that took part. *)
Definition rec_ok (sm : SM) (r : InferenceRecord) : Prop :=
  bm_wf (ValidatedBy r) /\ 0 <= VotesValid r /\ 0 <= VotesInvalid r /\
  VotesValid r + VotesInvalid r <= voted_weight sm (ValidatedBy r).

Record static_ok (sm : SM) : Prop := {
  so_group : group_wf (Group (state sm));
  so_owner : forall i, is_Some (slotToAddress sm !! i) <-> 0 <= i < nslots sm;
  so_slots : forall a j, j ∈ AddressSlots sm a <-> slotToAddress sm !! j = Some a;
  so_count : forall a, AddressSlotCount sm a = Z.of_nat (length (owned sm a));
  so_price : is_u64 (TokenPrice (Config (state sm)));
  so_fee : is_u64 (FeePerNonce (Config (state sm)))
}.

(** The bytes that [committedEntries] holds for a set of live records. *)
Definition committed_of (m : gmap Z InferenceRecord) : gmap Z (list Z) :=
  map_imap (fun id r => Marshal (PInferenceRecord (inference_proto id r))) m.

(** The invariant of a session that was funded with [amount] and has used ids up
    to [top]. *)
Record Inv (amount top : Z) (sm : SM) : Prop := {
  inv_amount : is_u64 amount;
  inv_top : 0 <= top < 2 ^ 32;
  inv_static : static_ok sm;
  inv_hosts : forall s, is_Some (HostStatsMap (state sm) !! s) <-> 0 <= s < nslots sm;
  inv_ledger : linv amount top (slot_of sm) (abs sm);
  inv_records : forall id r, Inferences (state sm) !! id = Some r ->
    rec_ok sm r /\ is_Some (Marshal (PInferenceRecord (inference_proto id r)));
  inv_committed : committedEntries sm = committed_of (Inferences (state sm))
}.

(** Only warm-key bindings were added. *)
Definition warm_only (sm sm' : SM) : Prop :=
  exists w, WarmKeys (state sm) ⊆ w /\ sm' = on_state (st_WarmKeys w) sm.

(** Observability writes are buffered or not as before, and a buffered write does
    not touch the store. *)
Definition obs_frame (sm sm' : SM) : Prop :=
  (obsDeferred sm' = None <-> obsDeferred sm = None) /\
  (obsDeferred sm <> None -> inferenceStore sm' = inferenceStore sm).

(** Only observability rows were written. *)
Definition obs_only (sm sm' : SM) : Prop :=
  (exists st ob, sm' = set_obsDeferred ob (set_store st sm)) /\ obs_frame sm sm'.

(** What no transaction touches, phase aside. *)
Definition tx_frame (sm sm' : SM) : Prop :=
  immut sm' = immut sm /\ LatestNonce (state sm') = LatestNonce (state sm) /\
  FinalizeNonce (state sm') = FinalizeNonce (state sm) /\
  SealedAcc (state sm') = SealedAcc (state sm) /\ sealedNonces sm' = sealedNonces sm /\
  obs_frame sm sm' /\
  WarmKeys (state sm) ⊆ WarmKeys (state sm') /\ Fees (state sm') = Fees (state sm).

(** A transaction's outcome: ledger steps and the invariant, or an error that
    left only warm keys behind; never a panic. *)
Definition tx_post (amount top : Z) (sm : SM) (sm' : SM) (r : outcome DevshardError unit) : Prop :=
  match r with
  | Ok _ => tx_frame sm sm' /\ Phase (state sm') = Phase (state sm) /\ Inv amount top sm' /\
            dom (Inferences (state sm')) = dom (Inferences (state sm)) /\
            rtc (lstep top (slot_of sm)) (abs sm) (abs sm')
  | Err GoPanic => False
  | Err _ => warm_only sm sm'
  end.

(** Nothing but the mutable part of the machine and its store changed. *)
Definition mut_only (sm sm' : SM) : Prop :=
  immut sm' = immut sm /\ obs_frame sm sm'.

(** The outcome of [applyTx]: as [tx_post], where a finalize round moves the
    phase, and a start whose record does not marshal has mutated first. *)
Definition step_post (amount top : Z) (tx : DevshardTx) (sm : SM) (sm' : SM)
    (r : outcome DevshardError unit) : Prop :=
  match r with
  | Ok _ => tx_frame sm sm' /\
            Phase (state sm') = match tx with FinalizeRound => PhaseFinalizing | _ => Phase (state sm) end /\
            (tx = FinalizeRound \/ is_start tx = true -> Phase (state sm) = PhaseActive) /\
            (is_start tx = false -> dom (Inferences (state sm')) = dom (Inferences (state sm))) /\
            Inv amount top sm' /\ rtc (lstep top (slot_of sm)) (abs sm) (abs sm')
  | Err GoPanic => False
  | Err _ => mut_only sm sm' /\ (is_start tx = false -> warm_only sm sm')
  end.

(** Machine-width fields of a transaction; a start uses a fresh id up to [top]. *)
Definition tx_wf (top : Z) (tx : DevshardTx) : Prop :=
  match tx with
  | StartInference m => 1 <= si_InferenceId m <= top /\ is_u64 (si_InputLength m) /\ is_u64 (si_MaxTokens m)
  | FinishInference m => is_u64 (fi_InputTokens m) /\ is_u64 (fi_OutputTokens m)
  | _ => True
  end.

End Defs.

(* ------------------------------------------------------------------ *)
(** ** Checked arithmetic *)

Lemma safeAdd_spec a b :
  is_u64 a -> is_u64 b ->
  safeAdd a b = if a + b <? 2 ^ 64 then (a + b, true) else (0, false).
Proof.
  unfold is_u64, safeAdd, u64. intros Ha Hb. destruct (Z.ltb_spec (a + b) (2 ^ 64)).
  - rewrite Z.mod_small by lia. destruct (Z.ltb_spec (a + b) a); [lia|done].
  - replace ((a + b) mod 2 ^ 64) with (a + b - 2 ^ 64).
    + destruct (Z.ltb_spec (a + b - 2 ^ 64) a); [done|lia].
    + apply Z.mod_unique with 1; lia.
Qed.

Lemma safeMul_spec a b :
  is_u64 a -> is_u64 b ->
  safeMul a b = if a * b <? 2 ^ 64 then (a * b, true) else (0, false).
Proof.
  unfold is_u64, safeMul, u64. intros Ha Hb.
  destruct (Z.eqb_spec a 0) as [->|Ha0]; [done|].
  destruct (Z.eqb_spec b 0) as [->|Hb0]; [by rewrite Z.mul_0_r|]. cbn [orb].
  destruct (Z.ltb_spec (a * b) (2 ^ 64)).
  - rewrite Z.mod_small by nia. by rewrite Z.mul_comm, Z.div_mul, Z.eqb_refl by lia.
  - destruct (Z.eqb_spec ((a * b) mod 2 ^ 64 / a) b) as [Heq|]; [|done].
    assert ((a * b) mod 2 ^ 64 < a * b).
    { apply Z.lt_le_trans with (2 ^ 64); [apply Z.mod_pos_bound; lia | done]. }
    assert ((a * b) mod 2 ^ 64 / a < b) by (apply Z.div_lt_upper_bound; lia). lia.
Qed.

(** [tokenCost] is exact: it returns [(a + b) * price] when neither the
    sum nor the product leaves the 64-bit range, and [ErrCostOverflow] otherwise. *)
Theorem tokenCost_spec a b price :
  is_u64 a -> is_u64 b -> is_u64 price ->
  tokenCost a b price =
  if (a + b <? 2 ^ 64) && ((a + b) * price <? 2 ^ 64) then Ok ((a + b) * price) else Err ErrCostOverflow.
Proof.
  intros Ha Hb Hp. unfold tokenCost. rewrite safeAdd_spec by done.
  destruct (Z.ltb_spec (a + b) (2 ^ 64)); [|done]. cbn [andb].
  rewrite safeMul_spec; [|unfold is_u64 in *; lia|done].
  by destruct (Z.ltb_spec ((a + b) * price) (2 ^ 64)).
Qed.

Lemma tokenCost_spec_witness :
  tokenCost (2 ^ 63) (2 ^ 62) 2 = Err ErrCostOverflow /\ tokenCost 7 5 10 = Ok 120.
Proof.
  split; (rewrite tokenCost_spec by (unfold is_u64; lia)); reflexivity.
Defined.

Lemma tokenCost_Ok a b price c :
  is_u64 a -> is_u64 b -> is_u64 price -> tokenCost a b price = Ok c -> is_u64 c /\ c = (a + b) * price.
Proof.
  intros Ha Hb Hp. unfold tokenCost. rewrite safeAdd_spec by done.
  destruct (Z.ltb_spec (a + b) (2 ^ 64)); [|done].
  rewrite safeMul_spec; [|unfold is_u64 in *; lia|done].
  destruct (Z.ltb_spec ((a + b) * price) (2 ^ 64)); [|done]. intros [= <-].
  unfold is_u64 in *. split; [nia|done].
Qed.

(* ------------------------------------------------------------------ *)
(** ** Frames *)

Section Frames.
Context {Store : Type} `{!InferenceStorage Store} `{!ProtoCodec} `{!SigVerifier}.
Abbreviation SM := (StateMachine Store).
Implicit Types (sm : SM).

Lemma wp_gets {A} (f : SM -> A) (Q : SM -> outcome DevshardError A -> Prop) sm :
  Q sm (Ok (f sm)) -> wp (gets f) Q sm.
Proof. done. Qed.

Lemma wp_lift {A} (o : outcome DevshardError A) (Q : SM -> outcome DevshardError A -> Prop) sm :
  (forall a, o = Ok a -> Q sm (Ok a)) -> (forall e, o = Err e -> Q sm (Err e)) -> wp (lift o) Q sm.
Proof. destruct o; unfold wp; cbn; auto. Qed.

Lemma warm_only_refl sm : warm_only sm sm.
Proof. exists (WarmKeys (state sm)). split; [done|]. by destruct sm as [[] ? ? ? ? ? ? ? ? ? ?]. Qed.

Lemma warm_only_trans sm1 sm2 sm3 : warm_only sm1 sm2 -> warm_only sm2 sm3 -> warm_only sm1 sm3.
Proof. intros (w1 & Hw1 & ->) (w2 & Hw2 & ->). exists w2. split; [|done]. by etrans. Qed.

Lemma obs_only_refl sm : obs_only sm sm.
Proof. split; [|done]. exists (inferenceStore sm), (obsDeferred sm). by destruct sm. Qed.

Lemma obs_frame_trans sm1 sm2 sm3 : obs_frame sm1 sm2 -> obs_frame sm2 sm3 -> obs_frame sm1 sm3.
Proof. intros [Hi1 Hs1] [Hi2 Hs2]. split; [by rewrite Hi2|]. intros Hn. rewrite Hs2; [auto|]. by rewrite Hi1. Qed.

(** Resolving a warm key binds it or leaves the machine alone. *)
Lemma ResolveWarmKey_wp slot recovered expected sm (Q : SM -> outcome DevshardError bool -> Prop) :
  (forall sm' b, warm_only sm sm' -> Q sm' (Ok b)) -> wp (ResolveWarmKey slot recovered expected) Q sm.
Proof.
  intros HQ. unfold wp, ResolveWarmKey.
  destruct (WarmKeys (state sm) !! slot) eqn:Hw; [apply HQ, warm_only_refl|].
  destruct (warmResolver sm) as [f|]; [|apply HQ, warm_only_refl].
  destruct (f recovered expected) as [[]|]; try apply HQ, warm_only_refl.
  apply HQ. eexists. split; [by apply insert_subseteq | done].
Qed.

Lemma accept_signer_wp slot recovered expected e sm (Q : SM -> outcome DevshardError unit -> Prop) :
  (forall sm', warm_only sm sm' -> Q sm' (Ok tt)) -> (forall sm', warm_only sm sm' -> Q sm' (Err e)) ->
  wp (accept_signer slot recovered expected e) Q sm.
Proof.
  intros Hok Herr. unfold accept_signer. destruct (bool_decide _); [apply Hok, warm_only_refl|].
  apply wp_bind, ResolveWarmKey_wp. intros sm' b Hw. apply wp_check; auto.
Qed.

Lemma verifyProposerSig_wp msg sig expected slot sm (Q : SM -> outcome DevshardError unit -> Prop) :
  (forall sm', warm_only sm sm' -> Q sm' (Ok tt)) ->
  (forall sm' e, warm_only sm sm' -> e <> GoPanic -> Q sm' (Err e)) ->
  wp (verifyProposerSig msg sig expected slot) Q sm.
Proof.
  intros Hok Herr. unfold verifyProposerSig.
  wp_step. wp_step; [|by apply Herr; [apply warm_only_refl|]].
  wp_step. wp_step; [|by apply Herr; [apply warm_only_refl|]].
  destruct (bool_decide _); [apply Hok, warm_only_refl|].
  destruct (_ =? _); [by apply Herr; [apply warm_only_refl|]|].
  wp_step. apply ResolveWarmKey_wp. intros sm' b Hw. apply wp_check; intros; [by apply Hok | by apply Herr].
Qed.

(** Observability writes touch nothing else. *)
Lemma upsert_obs id nonce r sm :
  obs_only sm (upsertInferenceObsLocked id nonce r sm).1 /\
  (forall e, (upsertInferenceObsLocked id nonce r sm).2 = Err e -> obsDeferred sm = None).
Proof.
  unfold upsertInferenceObsLocked. destruct (obsDeferred sm) as [buf|] eqn:Hob; cbn.
  - split; [|done]. split; [exists (inferenceStore sm); eexists; by destruct sm|].
    split; [cbn; split; congruence|done].
  - destruct (InsertSealedInference _ _ _) as [st1 [u|e]]; cbn.
    + destruct (0 <? nonce); cbn.
      * destruct (DrainInferenceValidationObs _ _ _) as [st2 r2]; cbn.
        split; [|done]. split; [exists st2, None; by destruct sm; cbn in *; subst|done].
      * split; [|done]. split; [exists st1, None; by destruct sm; cbn in *; subst|done].
    + split; [|done]. split; [exists st1, None; by destruct sm; cbn in *; subst|done].
Qed.

Lemma persist_wp id r sm (Q : SM -> outcome DevshardError unit -> Prop) :
  (forall sm', obs_only sm sm' -> Q sm' (Ok tt)) ->
  wp (persistLiveInferenceObsBestEffortLocked id r) Q sm.
Proof.
  intros HQ. unfold wp, persistLiveInferenceObsBestEffortLocked. apply HQ, upsert_obs.
Qed.

Lemma updateCommitted_wp id r sm (Q : SM -> outcome DevshardError unit -> Prop) :
  (forall entry, Marshal (PInferenceRecord (inference_proto id r)) = Some entry ->
     Q (set_committed (<[id:=entry]> (committedEntries sm)) sm) (Ok tt)) ->
  (Marshal (PInferenceRecord (inference_proto id r)) = None ->
     Q sm (Err (ErrWrapped "marshal inference"))) ->
  wp (updateCommittedEntryLocked id r) Q sm.
Proof.
  intros Hok Herr. unfold updateCommittedEntryLocked, marshalInferenceEntry. wp_step. apply wp_lift.
  - intros a Ha. destruct (Marshal _) eqn:Hm; [|done]. injection Ha as <-. by apply wp_modify, Hok.
  - intros e He. destruct (Marshal _) eqn:Hm; [done|]. injection He as <-. by apply Herr.
Qed.

(** What an invariant-related fact needs of a machine is in [abs], the records,
    the committed entries, the host slots and the immutable part. *)
Lemma static_ok_immut sm sm' : immut sm' = immut sm -> static_ok sm -> static_ok sm'.
Proof.
  unfold immut. intros [= He Hv Hc Hg Hu Hs Hn Ha Ht Hr] [Ho1 Ho2 Ho3 Ho4 Ho5 Ho6].
  split; unfold nslots, AddressSlots, AddressSlotCount, owned, nslots in *; rewrite ?Hg, ?Hs, ?Ha, ?Hn, ?Hc; done.
Qed.

Lemma nslots_immut sm sm' : immut sm' = immut sm -> nslots sm' = nslots sm.
Proof. unfold immut, nslots. by intros [= _ _ _ -> _ _ _ _ _ _]. Qed.

Lemma slot_of_immut sm sm' : immut sm' = immut sm -> slot_of sm' = slot_of sm.
Proof. intros Hi. unfold slot_of. by rewrite (nslots_immut _ _ Hi). Qed.

Lemma rec_ok_immut sm sm' r : immut sm' = immut sm -> rec_ok sm r -> rec_ok sm' r.
Proof.
  intros Hi. unfold rec_ok, voted_weight. rewrite (nslots_immut _ _ Hi).
  unfold participated, AddressSlots, SlotAddress. revert Hi. unfold immut.
  by intros [= _ _ _ _ _ -> _ -> _ _].
Qed.

Lemma Inv_intro amount top sm sm' :
  Inv amount top sm -> immut sm' = immut sm ->
  rtc (lstep top (slot_of sm)) (abs sm) (abs sm') ->
  (forall s, is_Some (HostStatsMap (state sm') !! s) <-> is_Some (HostStatsMap (state sm) !! s)) ->
  (forall id r, Inferences (state sm') !! id = Some r ->
     rec_ok sm r /\ is_Some (Marshal (PInferenceRecord (inference_proto id r)))) ->
  committedEntries sm' = committed_of (Inferences (state sm')) ->
  Inv amount top sm'.
Proof.
  intros [Ha Ht Hs Hh Hl Hr Hc] Hi Hsteps Hhosts Hrecs Hcom. split; try done.
  - by apply (static_ok_immut sm).
  - intros s. rewrite Hhosts, (nslots_immut _ _ Hi). apply Hh.
  - rewrite (slot_of_immut _ _ Hi). by eapply lsteps_linv.
  - intros id r Hid. destruct (Hrecs id r Hid). split; [|done]. by apply (rec_ok_immut sm).
Qed.

(** A change that [abs], the records and the committed entries do not see. *)
Lemma Inv_frame amount top sm sm' :
  Inv amount top sm -> immut sm' = immut sm -> abs sm' = abs sm ->
  Inferences (state sm') = Inferences (state sm) -> HostStatsMap (state sm') = HostStatsMap (state sm) ->
  committedEntries sm' = committedEntries sm -> Inv amount top sm'.
Proof.
  intros HI Hi Hab Hin Hho Hco. eapply Inv_intro; eauto.
  - by rewrite Hab.
  - by rewrite Hho.
  - rewrite Hin. apply HI.
  - rewrite Hin, Hco. apply HI.
Qed.

Lemma warm_only_frame sm sm' : warm_only sm sm' -> tx_frame sm sm' /\ Phase (state sm') = Phase (state sm) /\ abs sm' = abs sm.
Proof. intros (w & Hw & ->). unfold tx_frame, immut, abs; cbn. repeat split; try done; intros []; done. Qed.

Lemma warm_only_Inv amount top sm sm' : warm_only sm sm' -> Inv amount top sm -> Inv amount top sm'.
Proof. intros (w & Hw & ->) HI. by eapply Inv_frame. Qed.

Lemma obs_only_Inv amount top sm sm' : obs_only sm sm' -> Inv amount top sm -> Inv amount top sm'.
Proof. intros [(st & ob & ->) _] HI. by eapply Inv_frame. Qed.

Lemma tx_frame_trans sm1 sm2 sm3 : tx_frame sm1 sm2 -> tx_frame sm2 sm3 -> tx_frame sm1 sm3.
Proof.
  intros (H1 & H2 & H3 & H4 & H5 & H6 & H7 & H8) (K1 & K2 & K3 & K4 & K5 & K6 & K7 & K8).
  unfold tx_frame. rewrite K1, K2, K3, K4, K5, K8, H1, H2, H3, H4, H5, H8.
  pose proof (obs_frame_trans _ _ _ H6 K6). assert (WarmKeys (state sm1) ⊆ WarmKeys (state sm3)) by by etrans. done.
Qed.

(** A transaction that starts from where only warm keys changed. *)
Lemma tx_post_warm amount top sm sm1 sm' r :
  warm_only sm sm1 -> tx_post amount top sm1 sm' r -> tx_post amount top sm sm' r.
Proof.
  intros Hw. destruct (warm_only_frame _ _ Hw) as (Hf & Hp & Hab).
  destruct r as [u|e]; cbn.
  - assert (Inferences (state sm1) = Inferences (state sm)) as Hinf by (by destruct Hw as (w & _ & ->)).
    intros (Hf' & Hp' & HI & Hd & Hs). split; [by eapply tx_frame_trans|]. split; [congruence|]. split; [done|].
    split; [by rewrite Hd, Hinf|].
    rewrite <- Hab. rewrite <- (slot_of_immut _ _ (proj1 Hf)). done.
  - destruct e; try done; intros; by eapply warm_only_trans.
Qed.

End Frames.

(* ------------------------------------------------------------------ *)
(** ** Facts of the invariant *)

Section Facts.
Context {Store : Type} `{!InferenceStorage Store} `{!ProtoCodec} `{!ProtoCodecLaws} `{!SigVerifier}.
Abbreviation SM := (StateMachine Store).
Implicit Types (sm : SM).

Lemma abs_live sm id r :
  Inferences (state sm) !! id = Some r -> l_live (abs sm) !! id = Some (abs_entry r).
Proof. intros Hr. cbn. by rewrite lookup_fmap, Hr. Qed.

Lemma abs_host_lookup sm s h :
  HostStatsMap (state sm) !! s = Some h -> l_hosts (abs sm) !! s = Some (abs_host h).
Proof. intros Hh. cbn. by rewrite lookup_fmap, Hh. Qed.

Lemma Inv_host amount top sm id r :
  Inv amount top sm -> Inferences (state sm) !! id = Some r ->
  exists h, HostStatsMap (state sm) !! ExecutorSlot r = Some h.
Proof.
  intros HI Hr. destruct (linv_entries _ _ _ _ (inv_ledger _ _ _ HI) _ _ (abs_live _ _ _ Hr)) as (_ & [h Hh] & _).
  cbn in Hh. rewrite lookup_fmap in Hh. destruct (HostStatsMap (state sm) !! _) as [h0|]; [eauto|done].
Qed.

Lemma Inv_cost amount top sm id r :
  Inv amount top sm -> Inferences (state sm) !! id = Some r ->
  0 <= ActualCost r <= ReservedCost r.
Proof.
  intros HI Hr. apply (linv_entries _ _ _ _ (inv_ledger _ _ _ HI) _ _ (abs_live _ _ _ Hr)).
Qed.

Lemma Inv_balance amount top sm : Inv amount top sm -> 0 <= Balance (state sm) <= amount.
Proof.
  intros HI. pose proof (inv_ledger _ _ _ HI) as Hl.
  pose proof (linv_balance _ _ _ _ Hl). pose proof (linv_fees _ _ _ _ Hl).
  pose proof (linv_conservation _ _ _ _ Hl). pose proof (linv_open_nonneg _ _ _ _ Hl).
  pose proof (linv_cost_nonneg _ _ _ _ Hl). cbn in *. lia.
Qed.

Lemma Inv_reserved amount top sm id r :
  Inv amount top sm -> Inferences (state sm) !! id = Some r -> is_open (Status r) = true ->
  Balance (state sm) + ReservedCost r <= amount.
Proof.
  intros HI Hr Ho. apply (linv_reserved_le _ _ _ _ id _ (inv_ledger _ _ _ HI) (abs_live _ _ _ Hr) Ho).
Qed.

Lemma Inv_host_cost amount top sm s h :
  Inv amount top sm -> HostStatsMap (state sm) !! s = Some h ->
  0 <= Cost h /\ Balance (state sm) + Cost h + msum open_value (l_live (abs sm)) <= amount.
Proof.
  intros HI Hh. pose proof (abs_host_lookup _ _ _ Hh) as Ha. split.
  - apply (linv_hosts _ _ _ _ (inv_ledger _ _ _ HI) _ _ Ha).
  - apply (linv_host_le _ _ _ _ s _ (inv_ledger _ _ _ HI) Ha).
Qed.

Lemma Inv_open_cost amount top sm id r h :
  Inv amount top sm -> Inferences (state sm) !! id = Some r -> is_open (Status r) = true ->
  HostStatsMap (state sm) !! ExecutorSlot r = Some h ->
  0 <= Cost h /\ Cost h + ReservedCost r <= amount.
Proof.
  intros HI Hr Ho Hh. destruct (Inv_host_cost _ _ _ _ _ HI Hh) as [Hc Hle]. split; [done|].
  pose proof (Inv_balance _ _ _ HI).
  assert (open_value id (abs_entry r) <= msum open_value (l_live (abs sm))) as Hv.
  { apply msum_lookup_le; [|by apply abs_live]. intros k e Hk.
    destruct (linv_entries _ _ _ _ (inv_ledger _ _ _ HI) k e Hk) as (_ & _ & ?).
    unfold open_value. destruct (is_open (e_status e)); lia. }
  unfold open_value in Hv at 1. cbn [abs_entry e_status e_reserved] in Hv. rewrite Ho in Hv. lia.
Qed.

Lemma Inv_paid amount top sm id r h :
  Inv amount top sm -> Inferences (state sm) !! id = Some r -> is_paid (Status r) = true ->
  HostStatsMap (state sm) !! ExecutorSlot r = Some h -> ActualCost r <= Cost h.
Proof.
  intros HI Hr Hp Hh.
  apply (linv_paid_le _ _ _ _ id (abs_entry r) (abs_host h) (inv_ledger _ _ _ HI) (abs_live _ _ _ Hr) Hp).
  by apply abs_host_lookup.
Qed.

(** An inference that is not yet failed leaves room in its host's counters. *)
Lemma Inv_counters amount top sm id r h :
  Inv amount top sm -> Inferences (state sm) !! id = Some r -> is_failed (Status r) = false ->
  HostStatsMap (state sm) !! ExecutorSlot r = Some h ->
  0 <= Missed h /\ 0 <= Invalid h /\ Missed h + Invalid h + 1 <= top.
Proof.
  intros HI Hr Hf Hh. pose proof (inv_ledger _ _ _ HI) as Hl.
  destruct (linv_hosts _ _ _ _ Hl _ _ (abs_host_lookup _ _ _ Hh)) as (_ & Hm & Hi & _ & Hu).
  assert (unfailed (ExecutorSlot r) id (abs_entry r) <= msum (unfailed (ExecutorSlot r)) (l_live (abs sm))) as Hv.
  { apply msum_lookup_le; [|by apply abs_live]. intros; apply unfailed_nonneg. }
  unfold unfailed in Hv at 1. cbn [abs_entry e_slot e_status] in Hv. rewrite Z.eqb_refl, Hf in Hv. cbn [andb negb] in Hv.
  pose proof (linv_routed_le _ _ _ _ (ExecutorSlot r) Hl ltac:(apply (inv_top _ _ _ HI))).
  cbn [abs_host h_missed h_invalid] in *. lia.
Qed.

Lemma Inv_marshal amount top sm id r r' :
  Inv amount top sm -> Inferences (state sm) !! id = Some r -> Model r' = Model r ->
  is_Some (Marshal (PInferenceRecord (inference_proto id r'))).
Proof.
  intros HI Hr Hm. destruct (inv_records _ _ _ HI id r Hr) as [_ Hs].
  eapply marshal_model_only; [|exact Hs]. by cbn.
Qed.

Lemma committed_of_insert m id r entry :
  Marshal (PInferenceRecord (inference_proto id r)) = Some entry ->
  committed_of (<[id:=r]> m) = <[id:=entry]> (committed_of m).
Proof.
  intros Hm. unfold committed_of. apply map_eq. intros k. rewrite map_lookup_imap.
  destruct (decide (id = k)) as [->|Hne].
  - by rewrite !lookup_insert_eq.
  - by rewrite !lookup_insert_ne, map_lookup_imap by done.
Qed.

Lemma committed_of_delete m id : committed_of (delete id m) = delete id (committed_of m).
Proof.
  unfold committed_of. apply map_eq. intros k. rewrite map_lookup_imap.
  destruct (decide (id = k)) as [->|Hne].
  - by rewrite !lookup_delete_eq.
  - by rewrite !lookup_delete_ne, map_lookup_imap by done.
Qed.

(** A transaction rewrote the record of one live inference. *)
Lemma post_update amount top sm sm' id r r' entry :
  Inv amount top sm -> Inferences (state sm) !! id = Some r ->
  Marshal (PInferenceRecord (inference_proto id r')) = Some entry -> rec_ok sm r' ->
  tx_frame sm sm' -> Phase (state sm') = Phase (state sm) ->
  Inferences (state sm') = <[id:=r']> (Inferences (state sm)) ->
  committedEntries sm' = <[id:=entry]> (committedEntries sm) ->
  (forall s, is_Some (HostStatsMap (state sm') !! s) <-> is_Some (HostStatsMap (state sm) !! s)) ->
  rtc (lstep top (slot_of sm)) (abs sm) (abs sm') ->
  tx_post amount top sm sm' (Ok tt).
Proof.
  intros HI Hr Hm Hok Hf Hp Hin Hco Hho Hs. split; [done|]. split; [done|]. split.
  2: { split; [|done]. rewrite Hin, dom_insert_L. apply subseteq_union_1_L, singleton_subseteq_l.
       by apply elem_of_dom. }
  eapply Inv_intro; eauto; [apply Hf| |].
  - intros k r0. rewrite Hin. intros [[<- <-]|[Hne Hk]]%lookup_insert_Some; [eauto|].
    by apply (inv_records _ _ _ HI).
  - rewrite Hin, Hco, (inv_committed _ _ _ HI). symmetry. by apply committed_of_insert.
Qed.

Lemma insert_is_Some {V} (m : gmap Z V) k v s :
  is_Some (m !! k) -> is_Some (<[k:=v]> m !! s) <-> is_Some (m !! s).
Proof.
  intros Hk. destruct (decide (k = s)) as [->|Hne].
  - rewrite lookup_insert_eq. split; intros; [done | by eexists].
  - by rewrite lookup_insert_ne.
Qed.

Lemma Inv_executor amount top sm id r :
  Inv amount top sm -> Inferences (state sm) !! id = Some r -> ExecutorSlot r = slot_of sm id.
Proof. intros HI Hr. apply (linv_entries _ _ _ _ (inv_ledger _ _ _ HI) _ _ (abs_live _ _ _ Hr)). Qed.

(** In a validated group the executor of an id is its residue. *)
Lemma group_route sm id :
  static_ok sm -> 1 <= id ->
  exists s, at_index (Group (state sm)) (id mod u64 (nslots sm)) = Some s /\ SlotID s = slot_of sm id /\
            0 <= slot_of sm id < nslots sm.
Proof.
  intros Hst Hid. destruct (so_group _ Hst) as [Hlen Hpos]. unfold MaxGroupSize in Hlen.
  fold (nslots sm) in Hlen. rewrite u64_small by (unfold is_u64; lia).
  pose proof (Z.mod_pos_bound id (nslots sm) ltac:(lia)) as Hm. fold (slot_of sm id) in Hm |- *.
  unfold at_index. rewrite decide_True by lia.
  destruct (Group (state sm) !! Z.to_nat (slot_of sm id)) as [s|] eqn:Hs.
  - exists s. split; [done|]. rewrite (Hpos _ _ Hs). lia.
  - apply lookup_ge_None in Hs. unfold nslots in Hm. lia.
Qed.

End Facts.

(* ------------------------------------------------------------------ *)
(** ** Votes *)

Section Votes.
Context {Store : Type} `{!InferenceStorage Store} `{!ProtoCodec} `{!SigVerifier}.
Abbreviation SM := (StateMachine Store).
Implicit Types (sm : SM).

Lemma length_filter_le_disj (P Q R : Z -> Prop)
    `{!forall i, Decision (P i), !forall i, Decision (Q i), !forall i, Decision (R i)} (l : list Z) :
  (forall i, i ∈ l -> P i -> R i) -> (forall i, i ∈ l -> Q i -> R i) ->
  (forall i, i ∈ l -> P i -> Q i -> False) ->
  (length (filter P l) + length (filter Q l) <= length (filter R l))%nat.
Proof.
  induction l as [|x l IH]; intros HP HQ HPQ; [done|]. rewrite !filter_cons.
  assert (length (filter P l) + length (filter Q l) <= length (filter R l))%nat as IH'.
  { apply IH; intros; [apply HP|apply HQ|eapply HPQ]; eauto; by right. }
  pose proof (HP x ltac:(left)). pose proof (HQ x ltac:(left)). pose proof (HPQ x ltac:(left)).
  destruct (decide (P x)), (decide (Q x)), (decide (R x)); cbn; try lia; exfalso; auto.
Qed.

Lemma participated_iff sm b i :
  static_ok sm -> participated sm b i = true <->
  exists j, slotToAddress sm !! j = Some (SlotAddress sm i) /\ bm_IsSet b j = true.
Proof.
  intros Hst. unfold participated. rewrite existsb_exists. split.
  - intros (j & Hj & Hb). exists j. split; [|done]. apply so_slots; [done|]. by apply list_elem_of_In.
  - intros (j & Hj & Hb). exists j. split; [|done]. apply list_elem_of_In. by apply so_slots.
Qed.

(** Bits of the voter's own slots make all of the voter's slots count. *)
Lemma voted_weight_add sm b b' slot :
  static_ok sm -> is_Some (slotToAddress sm !! slot) ->
  participated sm b slot = false ->
  (forall j, 0 <= j < nslots sm -> bm_IsSet b j = true -> bm_IsSet b' j = true) ->
  bm_IsSet b' slot = true ->
  voted_weight sm b + AddressSlotCount sm (SlotAddress sm slot) <= voted_weight sm b'.
Proof.
  intros Hst [a Ha] Hno Hmono Hnew.
  assert (SlotAddress sm slot = a) as Hsa by (unfold SlotAddress, zget; by rewrite Ha).
  rewrite (so_count _ Hst). unfold voted_weight, owned. rewrite Hsa.
  assert (forall x y z : nat, (x + y <= z)%nat -> Z.of_nat x + Z.of_nat y <= Z.of_nat z) as Hnat by lia.
  apply Hnat, length_filter_le_disj.
  - intros i Hi Hp. apply (participated_iff sm b' i Hst).
    apply (participated_iff sm b i Hst) in Hp as (j & Hj & Hbj). exists j. split; [done|].
    apply Hmono; [|done]. by apply (so_owner _ Hst); eexists.
  - intros i Hi Hown. apply (participated_iff sm b' i Hst). exists slot. split; [|done].
    unfold SlotAddress, zget. by rewrite Hown, Ha.
  - intros i Hi Hp Hown. apply (participated_iff sm b i Hst) in Hp as (j & Hj & Hbj).
    assert (participated sm b slot = true); [|congruence].
    apply (participated_iff sm b slot Hst). exists j. split; [|done]. rewrite Hsa.
    unfold SlotAddress, zget in Hj. by rewrite Hown in Hj.
Qed.

Lemma voted_weight_le sm b : static_ok sm -> 0 <= voted_weight sm b <= nslots sm.
Proof.
  intros Hst. unfold voted_weight. destruct (so_group _ Hst) as [Hg _]. fold (nslots sm) in Hg.
  pose proof (length_filter (fun i => participated sm b i = true) (seqZ 0 (nslots sm))) as Hl.
  rewrite length_seqZ in Hl. lia.
Qed.

Lemma voted_weight_mono sm b b' :
  static_ok sm -> (forall j, 0 <= j < nslots sm -> bm_IsSet b j = true -> bm_IsSet b' j = true) ->
  voted_weight sm b <= voted_weight sm b'.
Proof.
  intros Hst Hmono. unfold voted_weight. apply Nat2Z.inj_le, length_filter_mono.
  intros i Hi Hp. apply (participated_iff sm b' i Hst).
  apply (participated_iff sm b i Hst) in Hp as (j & Hj & Hbj). exists j. split; [done|].
  apply Hmono; [|done]. by apply (so_owner _ Hst); eexists.
Qed.

Lemma slot_range sm slot :
  static_ok sm -> is_Some (slotToAddress sm !! slot) -> 0 <= slot < MaxGroupSize.
Proof.
  intros Hst Hs. apply (so_owner _ Hst) in Hs. destruct (so_group _ Hst) as [Hg _].
  unfold nslots in *. lia.
Qed.

Lemma bm_Set_mono b i j : 0 <= i < MaxGroupSize -> 0 <= j < MaxGroupSize ->
  bm_IsSet b j = true -> bm_IsSet (bm_Set b i) j = true.
Proof. intros Hi Hj Hb. rewrite bm_IsSet_Set by done. by rewrite Hb. Qed.

Lemma fold_Set_mono l b j :
  Forall (fun i => 0 <= i < MaxGroupSize) l -> 0 <= j < MaxGroupSize ->
  bm_IsSet b j = true \/ j ∈ l -> bm_IsSet (fold_left bm_Set l b) j = true.
Proof.
  intros Hl Hj. revert b. induction Hl as [|i l Hi Hl IH]; intros b; cbn.
  - intros [?|[]%not_elem_of_nil]; done.
  - intros Hor. apply IH. destruct Hor as [Hor|[->|Hor]%elem_of_cons]; [left; by apply bm_Set_mono| |by right].
    left. rewrite bm_IsSet_Set, Z.eqb_refl by done. apply orb_true_r.
Qed.

Lemma fold_Set_wf l b : Forall (fun i => 0 <= i < MaxGroupSize) l -> bm_wf b -> bm_wf (fold_left bm_Set l b).
Proof.
  intros Hl. revert b. induction Hl as [|i l Hi Hl IH]; intros b Hb; cbn; [done|].
  apply IH, bm_Set_wf; [done|lia].
Qed.

Lemma AddressSlots_range sm a : static_ok sm -> Forall (fun i => 0 <= i < MaxGroupSize) (AddressSlots sm a).
Proof.
  intros Hst. apply Forall_forall. intros i Hi. apply (slot_range sm); [done|].
  apply (so_slots _ Hst) in Hi. by eexists.
Qed.

(** Counting a fresh address's weight keeps the tallies covered and 32-bit. *)
Lemma rec_ok_vote sm r b' slot (valid : bool) :
  static_ok sm -> rec_ok sm r -> is_Some (slotToAddress sm !! slot) ->
  addressHasValidated sm r slot = false -> bm_wf b' ->
  (forall j, 0 <= j < nslots sm -> bm_IsSet (ValidatedBy r) j = true -> bm_IsSet b' j = true) ->
  bm_IsSet b' slot = true ->
  let w := AddressSlotCount sm (SlotAddress sm slot) in
  rec_ok sm (if valid then rec_Votes (u32 (VotesValid r + w)) (VotesInvalid r) b' r
             else rec_Votes (VotesValid r) (u32 (VotesInvalid r + w)) b' r) /\
  u32 (VotesValid r + w) = VotesValid r + w /\ u32 (VotesInvalid r + w) = VotesInvalid r + w.
Proof.
  intros Hst (Hwf & Hv & Hi & Hsum) Hslot Hno Hwf' Hmono Hnew w.
  pose proof (voted_weight_add sm (ValidatedBy r) b' slot Hst Hslot Hno Hmono Hnew) as Hadd.
  fold w in Hadd. pose proof (voted_weight_le sm b' Hst) as Hle.
  destruct (so_group _ Hst) as [Hg _]. unfold MaxGroupSize in Hg. fold (nslots sm) in Hg.
  assert (0 <= w) by (unfold w; rewrite (so_count _ Hst); lia).
  rewrite !u32_small by (unfold is_u32; lia). split; [|done].
  destruct valid; split; cbn; try done; lia.
Qed.

End Votes.

(* ------------------------------------------------------------------ *)
(** ** Transactions *)

Section Handlers.
Context {Store : Type} `{!InferenceStorage Store} `{!ProtoCodec} `{!ProtoCodecLaws} `{!SigVerifier}.
Abbreviation SM := (StateMachine Store).
Implicit Types (sm : SM).

Lemma live_record_wp id sm (Q : SM -> outcome DevshardError InferenceRecord -> Prop) :
  (forall r, Inferences (state sm) !! id = Some r -> Q sm (Ok r)) ->
  (forall e, e <> GoPanic -> Q sm (Err e)) -> wp (live_record id) Q sm.
Proof.
  intros Hok Herr. unfold wp, live_record. destruct (Inferences (state sm) !! id); [by apply Hok|].
  apply Herr. by destruct (isInferenceEvictedFromLive sm id).
Qed.

Lemma votable_record_wp id sm (Q : SM -> outcome DevshardError InferenceRecord -> Prop) :
  (forall r, Inferences (state sm) !! id = Some r -> Q sm (Ok r)) ->
  (forall e, e <> GoPanic -> Q sm (Err e)) -> wp (votable_record id) Q sm.
Proof.
  intros Hok Herr. unfold wp, votable_record. destruct (Inferences (state sm) !! id); [by apply Hok|].
  apply Herr. by destruct (0 <? _).
Qed.

Lemma host_stats_wp slot sm (Q : SM -> outcome DevshardError HostStats -> Prop) h :
  HostStatsMap (state sm) !! slot = Some h -> Q sm (Ok h) -> wp (host_stats slot) Q sm.
Proof. intros Hh HQ. unfold wp, host_stats, bind, gets. cbn. by rewrite Hh. Qed.

Lemma tx_post_err amount top sm sm' e : e <> GoPanic -> warm_only sm sm' -> tx_post amount top sm sm' (Err e).
Proof. by destruct e. Qed.

(** Runs a handler's reads, guards and writes; a failed guard leaves the machine
    as it was. *)
Ltac run_step :=
  match goal with
  | |- tx_post _ _ ?sm ?sm (Err _) => solve [by apply warm_only_refl | by apply tx_post_err; [|apply warm_only_refl]]
  | |- wp (gets _) _ _ => apply wp_gets; cbv beta iota
  | |- wp (put_record _ _) _ _ => apply wp_modify; cbv beta iota
  | |- wp (put_host_stats _ _) _ _ => apply wp_modify; cbv beta iota
  | |- wp (put_balance _) _ _ => apply wp_modify; cbv beta iota
  | |- wp (live_record _) _ _ => apply live_record_wp; intros
  | |- wp (votable_record _) _ _ => apply votable_record_wp; intros
  | |- _ => wp_step
  end.

(** The frame of an update by fields: closed by computation. *)
Ltac solve_frame :=
  unfold tx_frame, immut, obs_frame in *; cbn in *; repeat split; solve [done | tauto | naive_solver].

(** The last step of a handler that rewrites one record: the entry marshals,
    because the model string did not change. *)
Lemma commit_wp amount top sm sm1 id r r' :
  Inv amount top sm -> Inferences (state sm) !! id = Some r -> Model r' = Model r -> rec_ok sm r' ->
  tx_frame sm sm1 -> Phase (state sm1) = Phase (state sm) ->
  Inferences (state sm1) = <[id:=r']> (Inferences (state sm)) ->
  committedEntries sm1 = committedEntries sm ->
  (forall s, is_Some (HostStatsMap (state sm1) !! s) <-> is_Some (HostStatsMap (state sm) !! s)) ->
  rtc (lstep top (slot_of sm)) (abs sm) (abs sm1) ->
  wp (updateCommittedEntryLocked id r') (tx_post amount top sm) sm1.
Proof.
  intros HI Hr Hmod Hok Hf Hp Hin Hco Hho Hs.
  destruct (Inv_marshal _ _ _ id r r' HI Hr Hmod) as [entry Hentry].
  apply updateCommitted_wp; [|congruence]. intros entry' Hm. assert (entry' = entry) as -> by congruence.
  eapply post_update; eauto. cbn. by rewrite Hco.
Qed.

(** The ledger after a rewritten record, and after a rewritten host too. *)
Lemma abs_record sm sm' id r' :
  Inferences (state sm') = <[id:=r']> (Inferences (state sm)) ->
  HostStatsMap (state sm') = HostStatsMap (state sm) -> sealedNonces sm' = sealedNonces sm ->
  abs sm' = MkLedger (Balance (state sm')) (Fees (state sm')) (<[id:=abs_entry r']> (l_live (abs sm)))
              (l_hosts (abs sm)) (l_closed (abs sm)).
Proof. intros Hi Hh Hs. unfold abs. cbn [l_live l_hosts l_closed]. by rewrite Hi, Hh, Hs, fmap_insert. Qed.

Lemma abs_record_host sm sm' id r' s h' :
  Inferences (state sm') = <[id:=r']> (Inferences (state sm)) ->
  HostStatsMap (state sm') = <[s:=h']> (HostStatsMap (state sm)) -> sealedNonces sm' = sealedNonces sm ->
  abs sm' = MkLedger (Balance (state sm')) (Fees (state sm')) (<[id:=abs_entry r']> (l_live (abs sm)))
              (<[s:=abs_host h']> (l_hosts (abs sm))) (l_closed (abs sm)).
Proof. intros Hi Hh Hs. unfold abs. cbn [l_live l_hosts l_closed]. by rewrite Hi, Hh, Hs, !fmap_insert. Qed.

Lemma abs_step top f l sm' l' : lstep top f l l' -> abs sm' = l' -> rtc (lstep top f) l (abs sm').
Proof. intros Hs ->. by apply rtc_once. Qed.

Lemma tokenCost_no_panic a b p : tokenCost a b p <> Err GoPanic.
Proof. unfold tokenCost. destruct (safeAdd a b) as [? []]; [|done]. by destruct (safeMul _ p) as [? []]. Qed.

Lemma applyConfirmStart_post amount top sm m :
  Inv amount top sm -> wp (applyConfirmStart m) (tx_post amount top sm) sm.
Proof.
  intros HI. unfold applyConfirmStart. repeat run_step. boolify.
  apply accept_signer_wp; [|done]. intros sm1 (w & Hsub & ->). repeat run_step.
  eapply commit_wp; eauto; try solve_frame; [apply (inv_records _ _ _ HI _ _ H2)|].
  eapply abs_step; [by apply (L_confirm _ _ _ _ _ _ _ _ _ (abs_live _ _ _ H2))|].
  etrans; [by eapply (abs_record sm)|done].
Qed.

Lemma applyFinishInference_post amount top sm m :
  Inv amount top sm -> tx_wf top (FinishInference m) ->
  wp (applyFinishInference m) (tx_post amount top sm) sm.
Proof.
  intros HI (Hwi & Hwo). unfold applyFinishInference. repeat run_step. boolify.
  apply verifyProposerSig_wp; [|intros; by apply tx_post_err]. intros sm1 Hw. pose proof Hw as (w & Hsub & ->).
  repeat run_step; [|done]. apply wp_lift;
    [|intros e He; apply tx_post_err; [|done]; intros ->; by apply tokenCost_no_panic in He].
  intros cost Hcost. cbn [on_state state] in Hcost.
  apply tokenCost_Ok in Hcost as [Hc64 _]; [|done|done|apply (inv_static _ _ _ HI)]. repeat run_step.
  destruct (Inv_host _ _ _ _ _ HI H2) as [h Hh]. eapply host_stats_wp; [done|]. repeat run_step.
  set (actual := if ReservedCost r <? cost then ReservedCost r else cost).
  pose proof (Inv_open_cost _ _ _ _ _ _ HI H2 ltac:(by rewrite Hchk) Hh) as [Hc0 Hc1].
  pose proof (Inv_reserved _ _ _ _ _ HI H2 ltac:(by rewrite Hchk)).
  pose proof (Inv_balance _ _ _ HI). pose proof (Inv_cost _ _ _ _ _ HI H2).
  pose proof (inv_amount _ _ _ HI) as Ham. unfold is_u64 in *.
  assert (0 <= actual <= ReservedCost r).
  { unfold actual. destruct (Z.ltb_spec (ReservedCost r) cost); lia. }
  cbn [on_state state st_WarmKeys st_Balance Balance].
  rewrite !u64_small by (unfold is_u64; rewrite ?u64_small by (unfold is_u64; lia); lia).
  eapply commit_wp; eauto; try solve_frame.
  - apply (inv_records _ _ _ HI _ _ H2).
  - intros s. by apply insert_is_Some.
  - eapply abs_step; [by apply (L_finish _ _ _ _ _ _ _ _ _ (abs_host h) actual (abs_live _ _ _ H2) Hchk); [|apply abs_host_lookup]|].
    etrans; [by eapply (abs_record_host sm)|done].
Qed.

Lemma rec_ok_status sm r s : rec_ok sm r -> rec_ok sm (rec_Status s r).
Proof. done. Qed.

(** A record whose tallies moved while its ledger entry did not. *)
Lemma tally_step top f sm sm' id r r' :
  Inferences (state sm') = <[id:=r']> (Inferences (state sm)) ->
  Inferences (state sm) !! id = Some r -> abs_entry r' = abs_entry r ->
  HostStatsMap (state sm') = HostStatsMap (state sm) -> sealedNonces sm' = sealedNonces sm ->
  Balance (state sm') = Balance (state sm) -> Fees (state sm') = Fees (state sm) ->
  rtc (lstep top f) (abs sm) (abs sm').
Proof.
  intros Hi Hr He Hh Hs Hb Hf. erewrite (abs_record sm sm') by done.
  rewrite He, insert_id by by apply abs_live. rewrite Hb, Hf. done.
Qed.

(** Setting the validator's own bit counts as its vote. *)
Lemma rec_ok_set sm r slot (valid : bool) :
  static_ok sm -> rec_ok sm r -> is_Some (slotToAddress sm !! slot) ->
  addressHasValidated sm r slot = false ->
  let w := AddressSlotCount sm (SlotAddress sm slot) in
  rec_ok sm (if valid then rec_Votes (u32 (VotesValid r + w)) (VotesInvalid r) (bm_Set (ValidatedBy r) slot) r
             else rec_Votes (VotesValid r) (u32 (VotesInvalid r + w)) (bm_Set (ValidatedBy r) slot) r).
Proof.
  intros Hst Hok Hslot Hval w. pose proof (slot_range _ _ Hst Hslot) as Hr.
  destruct (so_group _ Hst) as [Hg _]. fold (nslots sm) in Hg.
  apply rec_ok_vote; try done.
  - apply bm_Set_wf; [apply Hok|lia].
  - intros j Hj. apply bm_Set_mono; lia.
  - rewrite bm_IsSet_Set, Z.eqb_refl by done. apply orb_true_r.
Qed.

(** A bit alone, as [applyValidation] sets on an inference past [StatusFinished]. *)
Lemma rec_ok_bit sm r slot :
  static_ok sm -> rec_ok sm r -> is_Some (slotToAddress sm !! slot) ->
  rec_ok sm (rec_Votes (VotesValid r) (VotesInvalid r) (bm_Set (ValidatedBy r) slot) r).
Proof.
  intros Hst (Hwf & Hv & Hi & Hsum) Hslot. pose proof (slot_range _ _ Hst Hslot) as Hr.
  destruct (so_group _ Hst) as [Hg _]. fold (nslots sm) in Hg.
  split; [|split; [|split]]; try done; cbn [rec_Votes ValidatedBy VotesValid VotesInvalid].
  - apply bm_Set_wf; [done|lia].
  - etrans; [exact Hsum|]. apply voted_weight_mono; [done|]. intros j Hj. apply bm_Set_mono; lia.
Qed.

Lemma applyValidation_post amount top sm m :
  Inv amount top sm -> wp (applyValidation m) (tx_post amount top sm) sm.
Proof.
  intros HI. unfold applyValidation. repeat run_step. boolify.
  pose proof (inv_static _ _ _ HI) as Hst. destruct (inv_records _ _ _ HI _ _ H2) as [Hrok _].
  destruct (addressHasValidated sm r (mv_ValidatorSlot m)) eqn:Hval.
  { repeat run_step. split; [solve_frame|done]. }
  repeat run_step.
  apply verifyProposerSig_wp; [|intros; by apply tx_post_err]. intros sm1 Hw. pose proof Hw as (w & Hsub & ->).
  repeat run_step; [|done]. destruct (bool_decide (Status r = StatusFinished)) eqn:Hfin; boolify.
  - repeat run_step. pose proof (fun b => rec_ok_set sm r _ b Hst Hrok Hchk Hval) as Hvote.
    destruct (mv_Valid m); repeat run_step.
    + eapply commit_wp; eauto; try solve_frame; [apply (Hvote true)|]. by eapply (tally_step _ _ sm _ _ r).
    + apply persist_wp. intros sm2 [(st & ob & ->) Hob]. cbv beta iota.
      eapply commit_wp; eauto; try solve_frame; [apply rec_ok_status, (Hvote false)|].
      eapply abs_step; [by apply (L_challenge _ _ _ _ _ _ _ _ _ (abs_live _ _ _ H2))|].
      etrans; [by eapply (abs_record sm)|done].
  - repeat run_step. eapply commit_wp; eauto; try solve_frame; [by apply rec_ok_bit|].
    by eapply (tally_step _ _ sm _ _ r).
Qed.

(** A vote sets the bits of all of the voter's slots. *)
Lemma rec_ok_voted sm m r :
  static_ok sm -> rec_ok sm r -> is_Some (slotToAddress sm !! vv_VoterSlot m) ->
  addressHasValidated sm r (vv_VoterSlot m) = false -> rec_ok sm (voted_record sm m r).
Proof.
  intros Hst Hok Hslot Hval. pose proof (slot_range _ _ Hst Hslot) as Hr.
  destruct (so_group _ Hst) as [Hg _]. fold (nslots sm) in Hg.
  set (slots := AddressSlots sm (SlotAddress sm (vv_VoterSlot m))).
  pose proof (AddressSlots_range sm (SlotAddress sm (vv_VoterSlot m)) Hst) as Hrange. fold slots in Hrange.
  apply (rec_ok_vote sm r (fold_left bm_Set slots (ValidatedBy r)) (vv_VoterSlot m)); try done.
  - apply fold_Set_wf; [done|apply Hok].
  - intros j Hj Hb. apply fold_Set_mono; [done|lia|by left].
  - apply fold_Set_mono; [done|done|right]. apply (so_slots _ Hst).
    destruct Hslot as [a Ha]. unfold SlotAddress, zget. by rewrite Ha.
Qed.

Lemma voted_record_entry sm m r : abs_entry (voted_record sm m r) = abs_entry r /\ Model (voted_record sm m r) = Model r.
Proof. unfold voted_record. by destruct (vv_VoteValid m). Qed.

Lemma abs_entry_status s r : abs_entry (rec_Status s r) = with_status s (abs_entry r).
Proof. done. Qed.

Lemma applyValidationVote_post amount top sm m :
  Inv amount top sm -> wp (applyValidationVote m) (tx_post amount top sm) sm.
Proof.
  intros HI. unfold applyValidationVote. repeat run_step. boolify.
  pose proof (inv_static _ _ _ HI) as Hst. destruct (inv_records _ _ _ HI _ _ H2) as [Hrok _].
  destruct (_ || _); [repeat run_step; split; [solve_frame|done]|].
  repeat run_step. boolify.
  apply verifyProposerSig_wp; [|intros; by apply tx_post_err]. intros sm1 Hw. pose proof Hw as (w & Hsub & ->).
  repeat run_step; [|done].
  change (voted_record (on_state (st_WarmKeys w) sm) m r) with (voted_record sm m r).
  pose proof (rec_ok_voted sm m r Hst Hrok Hchk Hchk1) as Hvok.
  destruct (voted_record_entry sm m r) as [Hent Hmod].
  set (r1 := voted_record sm m r) in *.
  destruct (_ <? VotesInvalid r1); [|destruct (_ <? VotesValid r1)]; repeat run_step.
  - destruct (Inv_host _ _ _ _ _ HI H2) as [h Hh]. eapply host_stats_wp; [done|]. repeat run_step.
    apply persist_wp. intros sm2 [(st & ob & ->) Hob]. cbv beta iota.
    destruct (Inv_counters _ _ _ _ _ _ HI H2 ltac:(by rewrite Hchk0) Hh) as (Hm0 & Hi0 & Hmi).
    pose proof (Inv_paid _ _ _ _ _ _ HI H2 ltac:(by rewrite Hchk0) Hh) as Hpaid.
    pose proof (Inv_host_cost _ _ _ _ _ HI Hh) as [Hc0 Hc1]. pose proof (Inv_balance _ _ _ HI).
    pose proof (linv_open_nonneg _ _ _ _ (inv_ledger _ _ _ HI)).
    pose proof (Inv_cost _ _ _ _ _ HI H2). pose proof (inv_amount _ _ _ HI). pose proof (inv_top _ _ _ HI).
    cbn [hs_Invalid Cost] in *. destruct (Z.ltb_spec (Cost h) (ActualCost r)); [lia|]. unfold is_u64 in *.
    cbn [on_state state st_WarmKeys Balance] in *.
    rewrite !u64_small, u32_small in * by (unfold is_u64, is_u32; lia).
    eapply commit_wp; eauto; try solve_frame; [intros s; by apply insert_is_Some|].
    eapply abs_step;
      [by apply (L_invalidated _ _ _ _ _ _ _ _ _ (abs_host h) (abs_live _ _ _ H2) Hchk0), abs_host_lookup|].
    etrans; [by eapply (abs_record_host sm)|]. by rewrite abs_entry_status, Hent.
  - apply persist_wp. intros sm2 [(st & ob & ->) Hob]. cbv beta iota.
    eapply commit_wp; eauto; try solve_frame.
    eapply abs_step; [by apply (L_validated _ _ _ _ _ _ _ _ _ (abs_live _ _ _ H2))|].
    etrans; [by eapply (abs_record sm)|]. by rewrite abs_entry_status, Hent.
  - eapply commit_wp; eauto; try solve_frame. by eapply (tally_step _ _ sm _ _ r).
Qed.

(** Counting timeout votes binds warm keys at most. *)
Lemma timeout_votes_wp id reason votes acc sm (Q : SM -> outcome DevshardError (Z * gset string) -> Prop) :
  (forall sm' acc', warm_only sm sm' -> Q sm' (Ok acc')) ->
  (forall sm' e, warm_only sm sm' -> e <> GoPanic -> Q sm' (Err e)) ->
  wp (mfold (count_timeout_vote id reason) acc votes) Q sm.
Proof.
  intros Hok Herr. apply (wp_mfold _ (fun sm' _ _ => warm_only sm sm')); [apply warm_only_refl| |auto].
  intros sm1 b v rest Hw. unfold count_timeout_vote.
  repeat first [run_step | by apply Herr].
  apply accept_signer_wp; intros sm2 Hw2; [|apply Herr; [by eapply warm_only_trans|done]].
  repeat run_step. by eapply warm_only_trans.
Qed.

Lemma reason_open reason s : reason_matches reason s = true -> is_open s = true.
Proof. destruct reason; cbn; try done; intros; boolify; by subst. Qed.

Lemma applyTimeout_post amount top sm m :
  Inv amount top sm -> wp (applyTimeout m) (tx_post amount top sm) sm.
Proof.
  intros HI. unfold applyTimeout. repeat run_step. boolify.
  apply timeout_votes_wp; [|intros; by apply tx_post_err]. intros sm1 [n seen] Hw. pose proof Hw as (w & Hsub & ->).
  repeat run_step; [|done].
  destruct (Inv_host _ _ _ _ _ HI H2) as [h Hh]. eapply host_stats_wp; [done|]. repeat run_step.
  assert (is_open (Status r) = true) as Hopen by by eapply reason_open.
  destruct (Inv_counters _ _ _ _ _ _ HI H2 ltac:(by destruct (Status r)) Hh) as (Hm0 & Hi0 & Hmi).
  pose proof (Inv_reserved _ _ _ _ _ HI H2 Hopen). pose proof (Inv_balance _ _ _ HI).
  pose proof (Inv_cost _ _ _ _ _ HI H2). pose proof (inv_amount _ _ _ HI). pose proof (inv_top _ _ _ HI).
  unfold is_u64 in *. cbn [on_state state st_WarmKeys Balance] in *.
  rewrite u64_small, u32_small in * by (unfold is_u64, is_u32; lia).
  eapply commit_wp; eauto; try solve_frame.
  - apply (inv_records _ _ _ HI _ _ H2).
  - intros s. by apply insert_is_Some.
  - eapply abs_step;
      [by apply (L_timeout _ _ _ _ _ _ _ _ _ (abs_host h) (abs_live _ _ _ H2) Hopen), abs_host_lookup|].
    etrans; [by eapply (abs_record_host sm)|done].
Qed.

Lemma mut_only_refl sm : mut_only sm sm.
Proof. done. Qed.

Lemma mut_only_trans sm1 sm2 sm3 : mut_only sm1 sm2 -> mut_only sm2 sm3 -> mut_only sm1 sm3.
Proof. intros [H1' H2'] [H3 H4]. split; [by rewrite H3|]. by eapply obs_frame_trans. Qed.

Lemma warm_only_mut sm sm' : warm_only sm sm' -> mut_only sm sm'.
Proof. by intros (w & _ & ->). Qed.

Lemma tx_frame_mut sm sm' : tx_frame sm sm' -> mut_only sm sm'.
Proof. intros Hf. split; apply Hf. Qed.

(** A fresh id is neither live nor closed. *)
Lemma fresh_id sm id :
  isDuplicateInferenceID sm id = false ->
  Inferences (state sm) !! id = None /\ l_live (abs sm) !! id = None /\ id ∉ l_closed (abs sm).
Proof.
  unfold isDuplicateInferenceID. intros Hd. boolify.
  apply eq_None_not_Some in H2. split; [done|]. cbn. rewrite lookup_fmap, H2. split; [done|].
  by rewrite elem_of_dom.
Qed.

Lemma rec_ok_new sm slot model hash inlen maxtok cost at_ :
  static_ok sm ->
  rec_ok sm (MkInference StatusPending slot model hash [] inlen maxtok 0 0 cost 0 at_ 0 0 0 bm_zero).
Proof. intros Hst. split; [done|]. cbn. pose proof (voted_weight_le sm bm_zero Hst). lia. Qed.

Lemma applyStartInference_post amount top sm m :
  Inv amount top sm -> tx_wf top (StartInference m) ->
  wp (applyStartInference m) (step_post amount top (StartInference m) sm) sm.
Proof.
  intros HI (Hid & Hwi & Hwo). unfold applyStartInference. pose proof (inv_static _ _ _ HI) as Hst.
  repeat first [run_step | by split].
  2: { destruct (group_route sm _ Hst (proj1 Hid)) as (s & Hs & _). fold (nslots sm) in Hopt. congruence. }
  2: { destruct (so_group _ Hst) as [Hg _]. unfold MaxGroupSize in Hg.
       rewrite u64_small in Hchk1 by (unfold is_u64; lia). boolify. lia. }
  destruct (group_route sm _ Hst (proj1 Hid)) as (s & Hs & Hslot & Hrange).
  assert (v = s) as -> by (fold (nslots sm) in Hopt; congruence). boolify.
  apply wp_lift; [|intros e He; destruct e; try (by split); by apply tokenCost_no_panic in He].
  intros cost Hcost. apply tokenCost_Ok in Hcost as [Hc64 _]; [|done|done|apply Hst].
  repeat first [run_step | by split]. boolify.
  destruct (fresh_id _ _ Hchk0) as (Hfresh & Hlive & Hclosed).
  pose proof (Inv_balance _ _ _ HI). pose proof (inv_amount _ _ _ HI). unfold is_u64 in *.
  rewrite u64_small by (unfold is_u64; lia). rewrite Hslot.
  apply updateCommitted_wp; [|by split]. intros entry Hm.
  assert (rtc (lstep top (slot_of sm)) (abs sm)
            (abs (on_state (st_Inferences (<[si_InferenceId m:=MkInference StatusPending (slot_of sm (si_InferenceId m))
               (si_Model m) (si_PromptHash m) [] (si_InputLength m) (si_MaxTokens m) 0 0 cost 0 (si_StartedAt m) 0 0 0 bm_zero]>
               (Inferences (state sm)))) (on_state (st_Balance (Balance (state sm) - cost)) sm)))) as Hstep.
  { eapply abs_step; [apply (L_start _ _ _ _ _ _ _ (si_InferenceId m) cost Hlive Hclosed Hid); [|lia]|].
    - destruct (proj2 (inv_hosts _ _ _ HI (slot_of sm (si_InferenceId m))) ltac:(lia)) as [h Hh].
      eexists. by apply (abs_host_lookup sm).
    - etrans; [by eapply (abs_record sm)|done]. }
  split; [solve_frame|]. split; [done|]. split; [done|]. split; [done|]. split; [|exact Hstep].
  eapply Inv_intro; eauto; try done.
  - cbn. intros k r. intros [[<- <-]|[Hne Hk]]%lookup_insert_Some; [split; [by apply rec_ok_new|eauto]|].
    by apply (inv_records _ _ _ HI).
  - cbn. rewrite (inv_committed _ _ _ HI). symmetry. by apply committed_of_insert.
Qed.

(** Every transaction is ledger steps or an error that commits nothing. *)
Lemma tx_post_step amount top tx sm sm' r :
  tx <> FinalizeRound -> is_start tx = false -> tx_post amount top sm sm' r -> step_post amount top tx sm sm' r.
Proof.
  intros Hf Hs. destruct r as [u|e]; cbn.
  - intros (Hfr & -> & HI & Hdom & Hrtc). split; [done|]. split; [by destruct tx|]. split; [intros []; congruence|done].
  - destruct e; try done; intros; (split; [by apply warm_only_mut|done]).
Qed.

Lemma applyTx_post amount top tx sm :
  Inv amount top sm -> tx_wf top tx -> wp (applyTx tx) (step_post amount top tx sm) sm.
Proof.
  intros HI Hwf. destruct tx; cbn [applyTx];
    try (eapply wp_mono; [|intros s' r; by apply tx_post_step]).
  - by apply applyStartInference_post.
  - by apply applyConfirmStart_post.
  - by apply applyFinishInference_post.
  - by apply applyTimeout_post.
  - by apply applyValidation_post.
  - by apply applyValidationVote_post.
  - apply wp_ret. split; [solve_frame|done].
  - unfold applyFinalizeRound. repeat first [run_step | split; [done|intros; apply warm_only_refl]]. boolify.
    split; [solve_frame|]. split; [done|]. split; [done|]. split; [done|].
    split; [by eapply Inv_frame|done].
  - by apply warm_only_refl.
Qed.

End Handlers.
