(* ===== verification/DevshardInit.v ===== *)
(** The lookup maps of [NewStateMachine] describe the group: who owns a slot,
    how many slots an address has and which ones. *)

From S2P Require Import Prelude.
From S2P Require Import GoStd.
From S2P Require Import DevshardTypes.
From S2P Require Import DevshardHash.
From S2P Require Import DevshardMachine.
From S2P Require Import DevshardLedger.
From S2P Require Import DevshardRefine.

Open Scope Z_scope.

Section Group.
Implicit Types (g : list SlotAssignment).

(** Slot ids are positions. *)
Definition positional g : Prop := forall i s, g !! i = Some s -> SlotID s = Z.of_nat i.

Lemma positional_snoc g s : positional (g ++ [s]) -> positional g /\ SlotID s = Z.of_nat (length g).
Proof.
  intros Hp. split.
  - intros i t Hi. apply Hp. by apply lookup_app_l_Some.
  - apply Hp. rewrite lookup_app_r by lia. by rewrite Nat.sub_diag.
Qed.

(** Inserting every slot under its id gives the map from positions. *)
Lemma fold_slots {V} (f : SlotAssignment -> V) g i :
  positional g ->
  fold_left (fun m s => <[SlotID s := f s]> m) g (∅ : gmap Z V) !! i = f <$> at_index g i.
Proof.
  revert i. induction g as [|s g IH] using rev_ind; intros i Hp.
  - unfold at_index. by destruct (decide _).
  - apply positional_snoc in Hp as [Hp Hs]. rewrite fold_left_app. cbn. rewrite Hs.
    destruct (decide (i = Z.of_nat (length g))) as [->|Hne].
    + rewrite lookup_insert_eq. unfold at_index. rewrite decide_True by lia.
      rewrite lookup_app_r by lia. by replace (Z.to_nat (Z.of_nat (length g)) - length g)%nat with 0%nat by lia.
    + rewrite lookup_insert_ne, IH by done. unfold at_index. destruct (decide (0 <= i)); [|done].
      destruct (decide (Z.to_nat i < length g)%nat) as [Hlt|Hge].
      * by rewrite lookup_app_l.
      * rewrite lookup_ge_None_2 by lia. rewrite lookup_app_r by lia.
        destruct (Z.to_nat i - length g)%nat as [|k] eqn:Hk; [lia|done].
Qed.

Lemma at_index_is_Some {A} (l : list A) i : is_Some (at_index l i) <-> 0 <= i < Z.of_nat (length l).
Proof.
  unfold at_index. destruct (decide (0 <= i)); [|split; [by intros []|lia]].
  rewrite lookup_lt_is_Some. lia.
Qed.

Lemma slotToAddr_lookup g i :
  positional g -> build_slotToAddr g !! i = ValidatorAddress <$> at_index g i.
Proof. apply (fold_slots ValidatorAddress). Qed.

Lemma hostStats_lookup g i : positional g -> build_hostStats g !! i = (fun _ => zero_stats) <$> at_index g i.
Proof. apply (fold_slots (fun _ => zero_stats)). Qed.

(** How often an address occurs in the group. *)
Definition occurrences g (a : string) : nat := length (filter (fun s => ValidatorAddress s = a) g).

Lemma slotCount_lookup g a :
  Z.of_nat (length g) < 2 ^ 32 -> zget 0 a (build_addrToSlotCount g) = Z.of_nat (occurrences g a).
Proof.
  revert a. induction g as [|s g IH] using rev_ind; intros a; [done|].
  rewrite length_app. cbn [length]. intros Hlen. unfold build_addrToSlotCount. rewrite fold_left_app. cbn [fold_left].
  fold (build_addrToSlotCount g). rewrite (IH (ValidatorAddress s)) by lia.
  assert (occurrences g (ValidatorAddress s) <= length g)%nat by apply length_filter.
  rewrite u32_small by (unfold is_u32; lia). unfold occurrences, zget. rewrite filter_app, length_app, filter_cons.
  destruct (decide (ValidatorAddress s = a)) as [<-|Hne].
  - rewrite lookup_insert_eq. cbn [default length]. unfold occurrences. cbn. lia.
  - rewrite lookup_insert_ne by done. fold (zget 0 a (build_addrToSlotCount g)). rewrite IH by lia. unfold occurrences. cbn. lia.
Qed.

Lemma at_index_app_l {A} (l k : list A) i : 0 <= i < Z.of_nat (length l) -> at_index (l ++ k) i = at_index l i.
Proof. intros Hi. unfold at_index. destruct (decide _); [|done]. apply lookup_app_l. lia. Qed.

(** Counting over slots is counting over positions. *)
Lemma occurrences_seq g a :
  positional g ->
  occurrences g a = length (filter (fun i => build_slotToAddr g !! i = Some a) (seqZ 0 (Z.of_nat (length g)))).
Proof.
  induction g as [|s g IH] using rev_ind; [done|]. intros Hp. pose proof (positional_snoc _ _ Hp) as [Hpg Hs].
  unfold occurrences. rewrite filter_app, !length_app, Nat2Z.inj_add, seqZ_app, filter_app, length_app by (cbn; lia).
  f_equal.
  - fold (occurrences g a). rewrite IH by done. apply length_filter_ext. intros i Hi%elem_of_seqZ.
    rewrite !slotToAddr_lookup, at_index_app_l by (done || lia). done.
  - assert (build_slotToAddr (g ++ [s]) !! Z.of_nat (length g) = Some (ValidatorAddress s)) as Hl.
    { rewrite slotToAddr_lookup by done. unfold at_index. rewrite decide_True by lia.
      rewrite lookup_app_r by lia. by replace (Z.to_nat (Z.of_nat (length g)) - length g)%nat with 0%nat by lia. }
    cbn [length]. rewrite Z.add_0_l. change (Z.of_nat 1) with 1. rewrite seqZ_cons by lia. change (Z.pred 1) with 0.
    rewrite seqZ_nil, !filter_cons by lia.
    destruct (decide (ValidatorAddress s = a)), (decide (_ !! _ = Some a)); done || congruence.
Qed.

(** Grouping slots by owner loses and adds none. *)
Lemma grouped_lookup (l : list (Z * string)) (m : gmap string (list Z)) a j :
  j ∈ zget [] a (fold_left (fun m '(slot, addr) => <[addr := zget [] addr m ++ [slot]]> m) l m) <->
  j ∈ zget [] a m \/ (j, a) ∈ l.
Proof.
  revert m. induction l as [|[k b] l IH]; intros m; cbn [fold_left].
  - rewrite elem_of_nil. tauto.
  - rewrite IH, elem_of_cons. unfold zget at 1. destruct (decide (b = a)) as [->|Hne].
    + rewrite lookup_insert_eq. cbn [from_option id]. rewrite elem_of_app, list_elem_of_singleton. naive_solver.
    + rewrite lookup_insert_ne by done. fold (zget [] a m). naive_solver.
Qed.

Lemma addrToSlots_lookup g a j :
  j ∈ zget [] a (build_addrToSlots (build_slotToAddr g)) <-> build_slotToAddr g !! j = Some a.
Proof.
  unfold build_addrToSlots. set (m := fold_left _ _ _).
  assert (j ∈ zget [] a (sort_Z <$> m) <-> j ∈ zget [] a m) as ->.
  { unfold zget. rewrite lookup_fmap. destruct (m !! a); cbn; [apply elem_of_sort_Z|done]. }
  subst m. rewrite grouped_lookup, elem_of_map_to_list. unfold zget. rewrite lookup_empty. cbn.
  rewrite elem_of_nil. tauto.
Qed.

End Group.

(* ------------------------------------------------------------------ *)
(** ** A new machine *)

Section Init.
Context {Store : Type} `{!InferenceStorage Store} `{!ProtoCodec} `{!SigVerifier}.
Abbreviation SM := (StateMachine Store).

(** The two options that [machine.go] exports. *)
Definition is_option (o : SM -> SM) : Prop :=
  (exists r, o = WithWarmKeyResolver r) \/ (exists v, o = WithStateRootAndProtocolVersion v).

(** Widths of the session's configuration. *)
Definition config_sized (c : SessionConfig) : Prop :=
  is_u64 (TokenPrice c) /\ is_u64 (FeePerNonce c) /\ is_u64 (CreateDevshardFee c).

(** An option touches neither the ledger, the group nor the maps. *)
Lemma options_frame (opts : list (SM -> SM)) (sm0 : SM) :
  Forall is_option opts ->
  let sm := fold_left (fun sm o => o sm) opts sm0 in
  abs sm = abs sm0 /\ committedEntries sm = committedEntries sm0 /\ obsDeferred sm = obsDeferred sm0 /\
  (exists v, state sm = st_Version v (state sm0)) /\
  slotToAddress sm = slotToAddress sm0 /\ addressToSlotCount sm = addressToSlotCount sm0 /\
  addressToSlots sm = addressToSlots sm0.
Proof.
  intros Ho. revert sm0. induction Ho as [|o opts Ho _ IH]; intros sm0; cbn [fold_left].
  - repeat (split; [done|]). split; [|done].
    exists (StateRootAndProtocolVersion (state sm0)). by destruct sm0 as [[] ? ? ? ? ? ? ? ? ? ?].
  - specialize (IH (o sm0)). cbv zeta in *. destruct IH as (-> & -> & -> & [w ->] & -> & -> & ->).
    destruct Ho as [[r ->]|[v ->]]; repeat (split; [done|]); (split; [|done]); by exists w.
Qed.

(** The invariant at the start of a session. *)
Lemma NewStateMachine_Inv version escrow cfg group balance user store opts sm :
  ValidateGroup group = Ok tt -> is_u64 balance -> config_sized cfg -> Forall is_option opts ->
  NewStateMachine version escrow cfg group balance user store opts = Ok sm ->
  Inv balance 0 sm /\ LatestNonce (state sm) = 0 /\ Phase (state sm) = PhaseActive /\
  FinalizeNonce (state sm) = 0 /\ Inferences (state sm) = ∅ /\ sealedNonces sm = ∅ /\ obsDeferred sm = None.
Proof.
  intros Hg Hbal (Hp & Hf & Hc) Ho. unfold NewStateMachine. destruct store as [st|]; [|done].
  destruct (balance <? _) eqn:Hle; [done|]. boolify. cbn [NormalizeSessionConfig CreateDevshardFee] in Hle. intros [= <-].
  set (sm0 := MkSM _ _ _ _ _ _ _ _ _ _ _). set (sm := fold_left _ opts sm0).
  destruct (options_frame opts sm0 Ho) as (Habs & Hco & Hob & [v Hst] & Hs1 & Hs2 & Hs3).
  fold sm in Habs, Hco, Hob, Hst, Hs1, Hs2, Hs3. apply ValidateGroup_spec in Hg as Hgw. destruct Hgw as [Hlen Hpos].
  assert (positional group) as Hpg by exact Hpos.
  assert (sealedNonces sm = ∅) as Hsn.
  { apply dom_empty_inv_L. change (dom (sealedNonces sm)) with (l_closed (abs sm)). rewrite Habs. apply dom_empty_L. }
  unfold is_u64, MaxGroupSize in *. rewrite Hob, Hst, Hsn. split; [|done].
  split.
  - done.
  - lia.
  - split; unfold nslots, AddressSlots, AddressSlotCount, owned, nslots; rewrite ?Hst, ?Hs1, ?Hs2, ?Hs3;
      cbn [sm0 st_Version state Group slotToAddress addressToSlots addressToSlotCount Config]; try done.
    + intros i. by rewrite slotToAddr_lookup, fmap_is_Some, at_index_is_Some.
    + intros a j. apply addrToSlots_lookup.
    + intros a. rewrite slotCount_lookup by lia. by rewrite occurrences_seq.
  - intros s. unfold nslots. rewrite Hst. cbn [sm0 st_Version state Group HostStatsMap].
    by rewrite hostStats_lookup, fmap_is_Some, at_index_is_Some.
  - rewrite Habs. unfold abs, sm0. cbn [state Balance Fees Inferences HostStatsMap sealedNonces NormalizeSessionConfig CreateDevshardFee].
    rewrite u64_small, fmap_empty, dom_empty_L by (unfold is_u64; lia).
    apply linv_init; [lia..|]. intros s h. rewrite lookup_fmap, hostStats_lookup by done.
    destruct (at_index group s); [|done]. by intros [= <-].
  - rewrite Hst. intros id r Hr. change ((∅ : gmap Z InferenceRecord) !! id = Some r) in Hr. by rewrite lookup_empty in Hr.
  - by rewrite Hco, Hst.
Qed.

End Init.
