(* ===== verification/DevshardCommit.v ===== *)
(** Rollback and the persist-first commit protocol of the devshard machine.

    A diff that is rejected leaves the machine as it was, whatever its state;
    validating a diff changes nothing; and a diff that is validated, then
    committed, leaves the machine exactly where applying it at once would have,
    observability rows included. *)

From S2P Require Import Prelude.
From S2P Require Import GoStd.
From S2P Require Import DevshardTypes.
From S2P Require Import DevshardHash.
From S2P Require Import DevshardMachine.
From S2P Require Import DevshardLedger.
From S2P Require Import DevshardRefine.

Open Scope Z_scope.
Open Scope go_scope.

(* ------------------------------------------------------------------ *)
(** ** Definitions *)

Section Defs.
Context {Store : Type} `{!InferenceStorage Store} `{!ProtoCodec} `{!SigVerifier}.
Abbreviation SM := (StateMachine Store).
Abbreviation M := (GoM SM DevshardError).

(** A method that changes only the mutable part of the machine and its store. *)
Definition mutates {A} (m : M A) : Prop := forall sm, mut_only sm (m sm).1.

(** [b] is [a] with its observability writes buffered since the store was [st0]. *)
Definition buffered (st0 : Store) (a b : SM) : Prop :=
  exists buf, obsDeferred a = None /\ b = set_obsDeferred (Some buf) (set_store st0 a) /\
              inferenceStore (flushDeferredObsLocked buf (set_store st0 a)) = inferenceStore a.

(** A read and an update that do not look at the store or the buffer. *)
Definition obs_blind {A} (f : SM -> A) : Prop :=
  forall ob st sm, f (set_obsDeferred ob (set_store st sm)) = f sm.
Definition obs_neutral (f : SM -> SM) : Prop :=
  forall ob st sm, f (set_obsDeferred ob (set_store st sm)) = set_obsDeferred ob (set_store st (f sm)) /\
    obsDeferred (f sm) = obsDeferred sm /\ inferenceStore (f sm) = inferenceStore sm /\
    EscrowID (state (f sm)) = EscrowID (state sm).

(** The method behaves the same with its writes buffered. *)
Definition mirrors {A} (m : M A) : Prop :=
  forall st0 a b, buffered st0 a b ->
    (m b).2 = (m a).2 /\ buffered st0 (m a).1 (m b).1.

(** The same when the unbuffered run succeeds. *)
Definition mirrors_ok {A} (m : M A) : Prop :=
  forall st0 a b x, buffered st0 a b -> (m a).2 = Ok x ->
    (m b).2 = Ok x /\ buffered st0 (m a).1 (m b).1.

End Defs.

(* ------------------------------------------------------------------ *)
(** ** Rollback *)

Section Rollback.
Context {Store : Type} `{!InferenceStorage Store} `{!ProtoCodec} `{!SigVerifier}.
Abbreviation SM := (StateMachine Store).
Abbreviation M := (GoM SM DevshardError).
Implicit Types (sm : SM).

Lemma mutates_pure {A} (m : M A) : (forall sm, (m sm).1 = sm) -> mutates m.
Proof. intros Hm sm. by rewrite Hm. Qed.

Lemma mutates_ret {A} (a : A) : mutates (ret a : M A).
Proof. done. Qed.
Lemma mutates_fail {A} e : mutates (fail e : M A).
Proof. done. Qed.
Lemma mutates_check b e : mutates (check b e : M unit).
Proof. by destruct b. Qed.
Lemma mutates_lift_option {A} (o : option A) e : mutates (lift_option o e : M A).
Proof. by destruct o. Qed.
Lemma mutates_lift {A} (o : outcome DevshardError A) : mutates (lift o : M A).
Proof. done. Qed.
Lemma mutates_gets {A} (f : SM -> A) : mutates (gets f).
Proof. done. Qed.
Lemma mutates_get : mutates (get : M SM).
Proof. done. Qed.
Lemma mutates_modify (f : SM -> SM) : (forall sm, mut_only sm (f sm)) -> mutates (modify f : M unit).
Proof. done. Qed.

Lemma mutates_bind {A B} (m : M A) (k : A -> M B) :
  mutates m -> (forall a, mutates (k a)) -> mutates (bind m k).
Proof.
  intros Hm Hk sm. specialize (Hm sm). unfold bind. destruct (m sm) as [sm1 [a|e]]; [|done].
  eapply mut_only_trans; [done|]. apply Hk.
Qed.

Lemma mutates_mfold {A B} (f : B -> A -> M B) b l : (forall b a, mutates (f b a)) -> mutates (mfold f b l).
Proof. intros Hf. revert b. induction l as [|a l IH]; intros b; cbn; [done|]. by apply mutates_bind. Qed.

Lemma mutates_upsert id n r : mutates (upsertInferenceObsLocked id n r : M _).
Proof. intros sm. destruct (upsert_obs id n r sm) as [[(st & ob & ->) Hob] _]. by split. Qed.

Lemma mutates_drop {A} (m : M A) : mutates m -> mutates (fun sm => ((m sm).1, Ok tt) : SM * outcome DevshardError unit).
Proof. done. Qed.

Lemma mutates_resolve slot r e : mutates (ResolveWarmKey slot r e : M _).
Proof. intros sm. unfold ResolveWarmKey. repeat case_match; done. Qed.

Lemma mutates_live id : mutates (live_record id : M _).
Proof. intros sm. unfold live_record. by destruct (_ !! _). Qed.

Lemma mutates_votable id : mutates (votable_record id : M _).
Proof. intros sm. unfold votable_record. by destruct (_ !! _). Qed.

Lemma mutates_if {A} (b : bool) (m1 m2 : M A) : mutates m1 -> mutates m2 -> mutates (if b then m1 else m2).
Proof. by destruct b. Qed.

Lemma mutates_persist id r : mutates (persistLiveInferenceObsBestEffortLocked id r : M _).
Proof. intros sm. apply mutates_upsert. Qed.

(** Walks through a method's body. *)
Ltac mut_step :=
  match goal with
  | |- mutates (bind _ _) => apply mutates_bind; [|intros ?]
  | |- mutates (if _ then _ else _) => apply mutates_if
  | |- mutates (match ?x with _ => _ end) => destruct x
  | |- mutates (mfold _ _ _) => apply mutates_mfold; intros ? ?
  | |- mutates (ResolveWarmKey _ _ _) => apply mutates_resolve
  | |- mutates (live_record _) => apply mutates_live
  | |- mutates (votable_record _) => apply mutates_votable
  | |- mutates (upsertInferenceObsLocked _ _ _) => apply mutates_upsert
  | |- mutates (persistLiveInferenceObsBestEffortLocked _ _) => apply mutates_persist
  | |- mutates (check _ _) => apply mutates_check
  | |- mutates (lift_option _ _) => apply mutates_lift_option
  | |- mutates (modify _) => apply mutates_modify; intros ?; done
  | |- mutates ?m => done
  end.

Lemma mutates_applyTx tx : mutates (applyTx tx : M unit).
Proof.
  destruct tx; cbn [applyTx];
    unfold applyStartInference, applyConfirmStart, applyFinishInference, applyTimeout, count_timeout_vote,
      applyValidation, applyValidationVote, applyRevealSeed, applyFinalizeRound, verifyProposerSig, accept_signer,
      updateCommittedEntryLocked, host_stats, put_host_stats, put_record, put_balance;
    repeat mut_step.
Qed.

Lemma mutates_finish n : mutates (finish_nonce n : M _).
Proof.
  unfold finish_nonce, drainLiveIntoSealedAccLocked, autoSealLocked, drain_one, seal_one, fold_record,
    settleLiveRecordLocked, updateCommittedEntryLocked, drop_live, host_stats, put_host_stats, put_record, put_balance.
  repeat first [mut_step | apply mutates_drop].
Qed.

(** A snapshot restores everything but the store. *)
Lemma restore_snapshot sm sm' : mut_only sm sm' -> obs_only sm (restoreMutable (snapshotMutable sm) sm').
Proof.
  intros [Hi Hob]. split; [|exact Hob]. exists (inferenceStore sm'), (obsDeferred sm').
  revert Hi. clear Hob. unfold immut. destruct sm as [[] ? ? ? ? ? ? ? ? ? ?], sm' as [[] ? ? ? ? ? ? ? ? ? ?].
  cbn. intros [=]; subst. done.
Qed.

Lemma or_restore_rollback {A} (m : M A) sm sm' e :
  mutates m -> or_restore (snapshotMutable sm) m sm = (sm', Err e) -> e <> GoPanic -> obs_only sm sm'.
Proof.
  intros Hm. specialize (Hm sm). unfold or_restore. destruct (m sm) as [sm1 [a|e1]]; [done|]. cbn in Hm.
  destruct e1; intros [= <- <-]; try done; intros _; by apply restore_snapshot.
Qed.

Lemma mutates_txs txs : mutates (mfold (fun _ tx => applyTx tx) tt txs : M unit).
Proof. apply mutates_mfold. intros _ tx. apply mutates_applyTx. Qed.

Lemma applyCore_rollback nonce txs psr sm sm' e :
  applyCore nonce txs psr sm = (sm', Err e) -> e <> GoPanic -> obs_only sm sm'.
Proof.
  unfold applyCore. intros Hr He.
  apply bind_Err in Hr as [Hr|(s1 & a & [= <- <-] & Hr)]; [done|].
  apply bind_Err in Hr as [(_ & -> & _)%check_Err|(s1 & [] & [_ ->]%check_Ok & Hr)]; [apply obs_only_refl|].
  apply bind_Err in Hr as [[= <- _]|(s1 & [] & [= <- _] & Hr)]; [apply obs_only_refl|].
  eapply or_restore_rollback; [|done|done].
  apply mutates_bind; [apply mutates_txs|intros _].
  apply mutates_bind; [apply mutates_finish|intros root]. repeat mut_step.
Qed.

Lemma mutates_best_effort applied tx : mutates (best_effort_one applied tx : M _).
Proof.
  intros sm. pose proof (mutates_applyTx tx sm) as Hm. unfold best_effort_one.
  destruct (applyTx tx sm) as [sm1 [u|e]]; [done|]. destruct e; try done; by destruct (is_start tx).
Qed.

Lemma best_effort_rollback nonce txs sm sm' e :
  localBestEffortLocked nonce txs sm = (sm', Err e) -> e <> GoPanic -> obs_only sm sm'.
Proof.
  unfold localBestEffortLocked. intros Hr He.
  apply bind_Err in Hr as [Hr|(s1 & a & [= <- <-] & Hr)]; [done|].
  apply bind_Err in Hr as [(_ & -> & _)%check_Err|(s1 & [] & [_ ->]%check_Ok & Hr)]; [apply obs_only_refl|].
  apply bind_Err in Hr as [[= <- _]|(s1 & [] & [= <- _] & Hr)]; [apply obs_only_refl|].
  eapply or_restore_rollback; [|done|done].
  apply mutates_bind; [apply mutates_mfold; intros; apply mutates_best_effort|intros applied].
  apply mutates_bind; [apply mutates_finish|intros root]. repeat mut_step.
Qed.

Lemma verify_pure diff sm : (verifyDiffUserSig diff sm).1 = sm.
Proof. unfold verifyDiffUserSig, bind, gets, lift_option, check, ret, fail. repeat case_match; by simplify_eq/=. Qed.

Lemma verify_no_panic diff sm : (verifyDiffUserSig diff sm).2 <> Err GoPanic.
Proof. unfold verifyDiffUserSig, bind, gets, lift_option, check, ret, fail. repeat case_match; by simplify_eq/=. Qed.

Lemma mutates_restore {A} snap (m : M A) : mutates m -> mutates (or_restore snap m).
Proof.
  intros Hm sm. specialize (Hm sm). unfold or_restore. destruct (m sm) as [sm1 [a|e]]; [done|]. by destruct e.
Qed.

Lemma mutates_core nonce txs psr : mutates (applyCore nonce txs psr : M _).
Proof.
  unfold applyCore. repeat mut_step. apply mutates_restore. repeat first [apply mutates_finish | apply mutates_applyTx | mut_step].
Qed.

(** With the writes buffered, the trial run touches nothing that the snapshot
    does not put back. *)
Lemma trial_restores {A} (m : M A) sm sm1 r :
  mutates m -> obsDeferred sm = None -> with_deferred m sm = (sm1, r) ->
  restoreMutable (snapshotMutable sm) sm1 = sm.
Proof.
  intros Hm Hnone. specialize (Hm (set_obsDeferred (Some []) sm)). unfold with_deferred.
  destruct (m _) as [sm2 r2]. intros [= <- <-]. cbn in Hm. destruct Hm as [Hi [_ Hst]].
  specialize (Hst ltac:(done)). revert Hi Hst Hnone. unfold immut.
  destruct sm as [[] ? ? ? ? ? ? ? ? ? ?], sm2 as [[] ? ? ? ? ? ? ? ? ? ?]. cbn. intros [=] -> ->; by subst.
Qed.

Lemma mutates_best nonce txs : mutates (localBestEffortLocked nonce txs : M _).
Proof.
  unfold localBestEffortLocked. apply mutates_bind; [done|intros sm]. repeat (apply mutates_bind; [mut_step|intros _]).
  apply mutates_restore. apply mutates_bind; [apply mutates_mfold; intros; apply mutates_best_effort|intros applied].
  repeat first [apply mutates_finish | mut_step].
Qed.

Lemma core_nonce nonce txs psr sm sm' root :
  applyCore nonce txs psr sm = (sm', Ok root) -> nonce = u64 (LatestNonce (state sm) + 1).
Proof.
  unfold applyCore. intros (s1 & a & [= <- <-] & Hr)%bind_Ok.
  apply bind_Ok in Hr as (s2 & [] & [Hc _]%check_Ok & _). by boolify.
Qed.

Lemma best_nonce nonce txs sm sm' r :
  localBestEffortLocked nonce txs sm = (sm', Ok r) -> nonce = u64 (LatestNonce (state sm) + 1).
Proof.
  unfold localBestEffortLocked. intros (s1 & a & [= <- <-] & Hr)%bind_Ok.
  apply bind_Ok in Hr as (s2 & [] & [Hc _]%check_Ok & _). by boolify.
Qed.

(** A rejected trial was already rolled back by [applyCore]. *)
Lemma trial_rejected sm sm1 e nonce txs psr :
  obsDeferred sm = None -> applyCore nonce txs psr (set_obsDeferred (Some []) sm) = (sm1, Err e) -> e <> GoPanic ->
  set_obsDeferred None sm1 = sm.
Proof.
  intros Hnone Hr He. apply applyCore_rollback in Hr as [(st & ob & ->) [_ Hst]]; [|done].
  specialize (Hst ltac:(done)). cbn in Hst. subst. destruct sm; cbn in *. by subst.
Qed.

(** The shape of an accepted trial. *)
Lemma ValidateDiff_Ok diff sm sm' vd :
  obsDeferred sm = None -> ValidateDiff diff sm = (sm', Ok vd) ->
  exists sm1 root obs,
    with_deferred (applyCore (d_Nonce diff) (d_Txs diff) (d_PostStateRoot diff)) sm = (sm1, Ok (root, obs)) /\
    sm' = sm /\ vd = MkValidated root (WarmKeys (state sm1)) [] (d_Nonce diff) (snapshotMutable sm1) obs.
Proof.
  intros Hnone. unfold ValidateDiff, bind at 1. pose proof (verify_pure diff sm) as Hv.
  destruct (verifyDiffUserSig diff sm) as [? [[]|]]; [|done]. cbn in Hv. subst.
  unfold bind, get, gets, modify, ret.
  destruct (with_deferred _ sm) as [sm1 [[root obs]|e]] eqn:Hw; [|done]. intros [= <- <-].
  exists sm1, root, obs. split; [done|]. split; [|done]. eapply trial_restores; [apply mutates_core|done|exact Hw].
Qed.

Lemma Preview_Ok nonce txs sm sm' vd :
  obsDeferred sm = None -> PreviewLocalBestEffort nonce txs sm = (sm', Ok vd) ->
  exists sm1 p obs,
    with_deferred (localBestEffortLocked nonce txs) sm = (sm1, Ok (p, obs)) /\
    sm' = sm /\ vd = MkValidated p.1 (WarmKeys (state sm1)) p.2 nonce (snapshotMutable sm1) obs.
Proof.
  intros Hnone. unfold PreviewLocalBestEffort, bind, get, gets, modify, ret.
  destruct (with_deferred _ sm) as [sm1 [[p obs]|e]] eqn:Hw; [|done]. intros [= <- <-].
  exists sm1, p, obs. split; [done|]. split; [|done]. eapply trial_restores; [apply mutates_best|done|exact Hw].
Qed.

End Rollback.

(* ------------------------------------------------------------------ *)
(** ** Buffered runs *)

Section Mirror.
Context {Store : Type} `{!InferenceStorage Store} `{!ProtoCodec} `{!SigVerifier}.
Abbreviation SM := (StateMachine Store).
Abbreviation M := (GoM SM DevshardError).
Implicit Types (sm : SM).

Lemma flush_snoc buf w sm :
  flushDeferredObsLocked (buf ++ [w]) sm = flush_one (flushDeferredObsLocked buf sm) w.
Proof. unfold flushDeferredObsLocked. by rewrite fold_left_app. Qed.

(** A flush only writes the store, and reads only the store and the escrow id. *)
Lemma flush_frame buf sm : exists st, flushDeferredObsLocked buf sm = set_store st sm.
Proof.
  induction buf as [|w buf IH] using rev_ind; [exists (inferenceStore sm); by destruct sm|].
  destruct IH as [st IH]. rewrite flush_snoc, IH. unfold flush_one.
  repeat case_match; eexists; done.
Qed.

Lemma flush_dep buf sm1 sm2 :
  inferenceStore sm1 = inferenceStore sm2 -> EscrowID (state sm1) = EscrowID (state sm2) ->
  inferenceStore (flushDeferredObsLocked buf sm1) = inferenceStore (flushDeferredObsLocked buf sm2).
Proof.
  intros Hs He. induction buf as [|w buf IH] using rev_ind; [done|]. rewrite !flush_snoc. unfold flush_one.
  destruct (flush_frame buf sm1) as [st1 H1], (flush_frame buf sm2) as [st2 H2].
  rewrite H1, H2 in *. cbn in *. rewrite IH, He. by repeat case_match.
Qed.

Lemma buffered_neutral st0 f a b : obs_neutral f -> buffered st0 a b -> buffered st0 (f a) (f b).
Proof.
  intros Hf (buf & Hn & -> & Hfl). destruct (Hf (Some buf) st0 a) as (-> & Ho & Hs & He).
  exists buf. split; [congruence|]. split; [done|]. rewrite Hs, <- Hfl. by apply flush_dep.
Qed.

Lemma buffered_blind {A} st0 (f : SM -> A) a b : obs_blind f -> buffered st0 a b -> f b = f a.
Proof. intros Hf (buf & _ & -> & _). apply Hf. Qed.

Lemma mirrors_weak {A} (m : M A) : mirrors m -> mirrors_ok m.
Proof. intros Hm st0 a b x Hb Hx. destruct (Hm st0 a b Hb) as [-> ?]. done. Qed.

Lemma mirrors_const {A} (m : M A) r : (forall sm, m sm = (sm, r)) -> mirrors m.
Proof. intros Hm st0 a b Hb. by rewrite !Hm. Qed.

Lemma mirrors_gets {A} (f : SM -> A) : obs_blind f -> mirrors (gets f).
Proof. intros Hf st0 a b Hb. split; [cbn; f_equal; by eapply buffered_blind|done]. Qed.

Lemma mirrors_modify (f : SM -> SM) : obs_neutral f -> mirrors (modify f : M unit).
Proof. intros Hf st0 a b Hb. split; [done|]. by apply buffered_neutral. Qed.

Lemma mirrors_bind {A B} (m : M A) (k : A -> M B) :
  mirrors m -> (forall a, mirrors (k a)) -> mirrors (bind m k).
Proof.
  intros Hm Hk st0 a b Hb. destruct (Hm st0 a b Hb) as [Hr Hb1]. unfold bind.
  destruct (m a) as [a1 [x|e]], (m b) as [b1 rb]; cbn in *; subst; [by apply Hk|done].
Qed.

Lemma mirrors_ok_bind {A B} (m : M A) (k : A -> M B) :
  mirrors_ok m -> (forall a, mirrors_ok (k a)) -> mirrors_ok (bind m k).
Proof.
  intros Hm Hk st0 a b x Hb Hx. unfold bind in *.
  destruct (m a) as [a1 [y|e]] eqn:Ha; [|done].
  destruct (Hm st0 a b y Hb ltac:(by rewrite Ha)) as [Hr Hb1]. rewrite Ha in Hb1.
  destruct (m b) as [b1 rb]; cbn in *; subst. by apply Hk.
Qed.

Lemma mirrors_bind_get {B} (k : SM -> M B) :
  obs_blind k -> (forall sm, mirrors_ok (k sm)) -> mirrors_ok (bind get k).
Proof.
  intros Hbl Hk st0 a b x Hb Hx. unfold bind, get in *. rewrite (buffered_blind st0 k a b Hbl Hb).
  by apply (Hk a st0 a b x).
Qed.

Lemma mirrors_mfold {A B} (f : B -> A -> M B) b l : (forall b a, mirrors (f b a)) -> mirrors (mfold f b l).
Proof.
  intros Hf. revert b. induction l as [|a l IH]; intros b; [by eapply mirrors_const|]. by apply mirrors_bind.
Qed.

Lemma mirrors_ok_mfold {A B} (f : B -> A -> M B) b l : (forall b a, mirrors_ok (f b a)) -> mirrors_ok (mfold f b l).
Proof.
  intros Hf. revert b. induction l as [|a l IH]; intros b; [by eapply mirrors_weak, mirrors_const|].
  by apply mirrors_ok_bind.
Qed.

(** The buffered write replays the direct one, errors included. *)
Lemma upsert_buffered st0 id n r a b :
  buffered st0 a b ->
  buffered st0 (upsertInferenceObsLocked id n r a).1 (upsertInferenceObsLocked id n r b).1 /\
  (upsertInferenceObsLocked id n r b).2 = Ok tt.
Proof.
  intros (buf & Hn & -> & Hfl). unfold upsertInferenceObsLocked at 2 3. cbn. split; [|done].
  set (w := MkDeferred id (inferenceObsRow id n r) (0 <? n)).
  assert (upsertInferenceObsLocked id n r a = (flush_one a w, (upsertInferenceObsLocked id n r a).2)) as Hup.
  { unfold upsertInferenceObsLocked, flush_one. rewrite Hn. cbn [do_row do_drain do_id w].
    destruct (InsertSealedInference _ _ _) as [st1 [u|e]]; [|done]. destruct (0 <? n); [|done].
    by destruct (DrainInferenceValidationObs _ _ _). }
  rewrite Hup. cbn [fst]. assert (exists st, flush_one a w = set_store st a) as [st Hst] by apply (flush_frame [w] a).
  exists (buf ++ [w]). rewrite Hst. split; [done|]. split; [done|].
  rewrite flush_snoc. destruct (flush_frame buf (set_store st0 (set_store st a))) as [st' Hst'].
  assert (st' = inferenceStore a) as ->.
  { rewrite <- Hfl. erewrite (flush_dep buf (set_store st0 a) (set_store st0 (set_store st a))) by done. by rewrite Hst'. }
  rewrite Hst'. transitivity (inferenceStore (flush_one a w)); [by apply (flush_dep [w])|by rewrite Hst].
Qed.

Lemma mirrors_best_effort_upsert id n r :
  mirrors ((fun sm => ((upsertInferenceObsLocked id n r sm).1, Ok tt)) : M unit).
Proof. intros st0 a b Hb. split; [done|]. by apply upsert_buffered. Qed.

Lemma mirrors_ok_upsert id n r : mirrors_ok (upsertInferenceObsLocked id n r : M unit).
Proof. intros st0 a b [] Hb Hx. by apply and_comm, upsert_buffered. Qed.

Lemma mirrors_persist id r : mirrors (persistLiveInferenceObsBestEffortLocked id r : M unit).
Proof.
  intros st0 a b Hb. split; [done|]. unfold persistLiveInferenceObsBestEffortLocked.
  replace (sealedNonces b) with (sealedNonces a) by (symmetry; by eapply (buffered_blind st0 sealedNonces)).
  by apply upsert_buffered.
Qed.

Lemma mirrors_resolve slot r e : mirrors (ResolveWarmKey slot r e : M bool).
Proof.
  intros st0 a b (buf & Hn & -> & Hfl). unfold ResolveWarmKey. cbn.
  repeat case_match; cbn; (split; [done|]); exists buf; (split; [done|]); (split; [done|]);
    (etrans; [|exact Hfl]); by apply flush_dep.
Qed.

Lemma mirrors_live id : mirrors (live_record id : M InferenceRecord).
Proof.
  intros st0 a b (buf & Hn & -> & Hfl). unfold live_record, isInferenceEvictedFromLive. cbn.
  destruct (_ !! id); cbn; (split; [done|]); by exists buf.
Qed.

Lemma mirrors_votable id : mirrors (votable_record id : M InferenceRecord).
Proof.
  intros st0 a b (buf & Hn & -> & Hfl). unfold votable_record. cbn.
  destruct (_ !! id); cbn; (split; [done|]); by exists buf.
Qed.

Lemma mirrors_check b e : mirrors (check b e : M unit).
Proof. destruct b; by eapply mirrors_const. Qed.

Lemma mirrors_lift_option {A} (o : option A) e : mirrors (lift_option o e : M A).
Proof. destruct o; by eapply mirrors_const. Qed.

Ltac mirror_step :=
  match goal with
  | |- mirrors (bind _ _) => apply mirrors_bind; [|intros ?]
  | |- mirrors (if ?b then _ else _) => destruct b
  | |- mirrors (match ?x with _ => _ end) => destruct x
  | |- mirrors (mfold _ _ _) => apply mirrors_mfold; intros ? ?
  | |- mirrors (gets _) => apply mirrors_gets; intros ? ? ?; reflexivity
  | |- mirrors (modify _) => apply mirrors_modify; intros ? ? ?; done
  | |- mirrors (check _ _) => apply mirrors_check
  | |- mirrors (lift_option _ _) => apply mirrors_lift_option
  | |- mirrors (ResolveWarmKey _ _ _) => apply mirrors_resolve
  | |- mirrors (live_record _) => apply mirrors_live
  | |- mirrors (votable_record _) => apply mirrors_votable
  | |- mirrors (persistLiveInferenceObsBestEffortLocked _ _) => apply mirrors_persist
  | |- mirrors _ => eapply mirrors_const; intros ?; reflexivity
  end.

Lemma mirrors_applyTx tx : mirrors (applyTx tx : M unit).
Proof.
  destruct tx; cbn [applyTx];
    unfold applyStartInference, applyConfirmStart, applyFinishInference, applyTimeout, count_timeout_vote,
      applyValidation, applyValidationVote, applyRevealSeed, applyFinalizeRound, verifyProposerSig, accept_signer,
      updateCommittedEntryLocked, host_stats, put_host_stats, put_record, put_balance;
    repeat mirror_step.
Qed.

Ltac mirror_ok_step :=
  match goal with
  | |- mirrors_ok (bind _ _) => apply mirrors_ok_bind; [|intros ?]
  | |- mirrors_ok (if ?b then _ else _) => destruct b
  | |- mirrors_ok (match ?x with _ => _ end) => destruct x
  | |- mirrors_ok (mfold _ _ _) => apply mirrors_ok_mfold; intros ? ?
  | |- mirrors_ok (upsertInferenceObsLocked _ _ _) => apply mirrors_ok_upsert
  | |- mirrors_ok (fun _ => ((upsertInferenceObsLocked _ _ _ _).1, _)) => apply mirrors_weak, mirrors_best_effort_upsert
  | |- mirrors_ok _ => apply mirrors_weak; mirror_step
  end.

Lemma mirrors_finish n : mirrors_ok (finish_nonce n : M (list Z)).
Proof.
  unfold finish_nonce, drainLiveIntoSealedAccLocked, autoSealLocked, drain_one, seal_one, fold_record,
    settleLiveRecordLocked, updateCommittedEntryLocked, drop_live, host_stats, put_host_stats, put_record, put_balance.
  repeat mirror_ok_step.
Qed.

Lemma mirrors_restore {A} snap (m : M A) : mirrors_ok m -> mirrors_ok (or_restore snap m).
Proof.
  intros Hm st0 a b x Hb Hx. unfold or_restore in *.
  destruct (m a) as [a1 [y|e]] eqn:Ha; [|by destruct e]. injection Hx as ->.
  destruct (Hm st0 a b x Hb ltac:(by rewrite Ha)) as [Hr Hb1]. rewrite Ha in Hb1.
  destruct (m b) as [b1 rb]; cbn in *; by subst.
Qed.

Lemma mirrors_core nonce txs psr : mirrors_ok (applyCore nonce txs psr : M (list Z)).
Proof.
  unfold applyCore. apply mirrors_bind_get; [intros ? ? ?; reflexivity|]. intros sm.
  apply mirrors_ok_bind; [apply mirrors_weak; mirror_step|intros _].
  apply mirrors_ok_bind; [apply mirrors_weak; mirror_step|intros _]. apply mirrors_restore.
  apply mirrors_ok_bind; [apply mirrors_weak, mirrors_mfold; intros; apply mirrors_applyTx|intros _].
  apply mirrors_ok_bind; [apply mirrors_finish|intros root]. repeat mirror_ok_step.
Qed.

Lemma mirrors_best_effort nonce txs : mirrors_ok (localBestEffortLocked nonce txs : M _).
Proof.
  unfold localBestEffortLocked. apply mirrors_bind_get; [intros ? ? ?; reflexivity|]. intros sm.
  apply mirrors_ok_bind; [apply mirrors_weak; mirror_step|intros _].
  apply mirrors_ok_bind; [apply mirrors_weak; mirror_step|intros _]. apply mirrors_restore.
  apply mirrors_ok_bind; [|intros applied; apply mirrors_ok_bind; [apply mirrors_finish|intros root; repeat mirror_ok_step]].
  apply mirrors_weak, mirrors_mfold. intros applied tx st0 a b Hb. unfold best_effort_one.
  destruct (mirrors_applyTx tx st0 a b Hb) as [Hr Hb1].
  destruct (applyTx tx a) as [a1 [x|e]], (applyTx tx b) as [b1 rb]; cbn in *; subst; [done|].
  by destruct e; try done; destruct (is_start tx).
Qed.

(** The trial run of a successful method, and what its commit restores. *)
Lemma trial_commit {A} (m : M A) sm sm' x :
  mutates m -> mirrors_ok m -> obsDeferred sm = None -> m sm = (sm', Ok x) ->
  exists sm1 obs, with_deferred m sm = (sm1, Ok (x, obs)) /\ WarmKeys (state sm1) = WarmKeys (state sm') /\
    flushDeferredObsLocked obs (restoreMutable (snapshotMutable sm1) sm) = sm'.
Proof.
  intros Hmut Hmir Hnone Hm.
  destruct (Hmir (inferenceStore sm) sm (set_obsDeferred (Some []) sm) x) as [Hr Hb].
  { exists []. split; [done|]. split; [by destruct sm|]. done. }
  { by rewrite Hm. }
  unfold with_deferred. rewrite Hm in Hb. destruct (m (set_obsDeferred _ sm)) as [b1 rb]. cbn in Hr, Hb. subst rb.
  destruct Hb as (buf & Hn' & -> & Hfl). eexists _, buf. split; [done|]. split; [done|].
  specialize (Hmut sm). rewrite Hm in Hmut. destruct Hmut as [Hi _]. cbn in Hi.
  assert (restoreMutable (snapshotMutable (set_obsDeferred None (set_obsDeferred (Some buf) (set_store (inferenceStore sm) sm')))) sm
          = set_store (inferenceStore sm) sm') as ->.
  { revert Hi Hnone Hn'. clear. unfold immut. destruct sm as [[] ? ? ? ? ? ? ? ? ? ?], sm' as [[] ? ? ? ? ? ? ? ? ? ?].
    cbn. intros [=] -> ->; by subst. }
  destruct (flush_frame buf (set_store (inferenceStore sm) sm')) as [st Hst]. rewrite Hst in *. cbn in Hfl. subst st.
  by destruct sm'.
Qed.

End Mirror.

(* ------------------------------------------------------------------ *)
(** ** Properties *)

Section Properties.
Context {Store : Type} `{!InferenceStorage Store} `{!ProtoCodec} `{!SigVerifier}.
Abbreviation SM := (StateMachine Store).

(** A diff that is rejected is rolled back: in any state of the machine, an
    error of [ApplyDiff] or of [ApplyLocalBestEffort] (other than a run-time
    panic) leaves every field as it was, the observability store aside. *)
Theorem rejected_diff_rolled_back (sm : SM) :
  (forall diff sm' e, ApplyDiff diff sm = (sm', Err e) -> e <> GoPanic -> obs_only sm sm') /\
  (forall nonce txs sm' e, ApplyLocalBestEffort nonce txs sm = (sm', Err e) -> e <> GoPanic -> obs_only sm sm').
Proof.
  split; [|intros nonce txs; apply best_effort_rollback].
  intros diff sm' e. unfold ApplyDiff. intros Hr He. pose proof (verify_pure diff sm) as Hv.
  apply bind_Err in Hr as [Hr|(s1 & [] & Hr1 & Hr2)].
  - rewrite Hr in Hv. cbn in Hv. subst. apply obs_only_refl.
  - rewrite Hr1 in Hv. cbn in Hv. subst. by eapply applyCore_rollback.
Qed.

(** Validating a diff changes nothing: whether [ValidateDiff] accepts or
    rejects it, the machine and its store are as before (a run-time panic
    aside).  The same holds of [PreviewLocalBestEffort]. *)
Theorem trial_apply_changes_nothing (sm : SM) :
  obsDeferred sm = None ->
  (forall diff sm' vd, ValidateDiff diff sm = (sm', Ok vd) -> sm' = sm) /\
  (forall diff sm' e, ValidateDiff diff sm = (sm', Err e) -> e <> GoPanic -> sm' = sm) /\
  (forall nonce txs sm' vd, PreviewLocalBestEffort nonce txs sm = (sm', Ok vd) -> sm' = sm).
Proof.
  intros Hnone. split; [|split].
  - intros diff sm' vd Hv. by apply ValidateDiff_Ok in Hv as (? & ? & ? & _ & -> & _).
  - intros diff sm' e. unfold ValidateDiff, bind at 1. pose proof (verify_pure diff sm) as Hv.
    destruct (verifyDiffUserSig diff sm) as [? [[]|]]; cbn in Hv; subst; [|by intros [= <-]].
    unfold bind, get, gets, modify, ret, with_deferred.
    destruct (applyCore _ _ _ _) as [sm1 [root|e1]] eqn:Hw; [done|]. intros [= <- <-] He.
    by apply (trial_rejected sm sm1 e1 _ _ _ Hnone Hw).
  - intros nonce txs sm' vd Hv. by apply Preview_Ok in Hv as (? & ? & ? & _ & -> & _).
Qed.

(** C21: Validate-then-commit is apply: when [ApplyDiff] accepts a diff,
    [ValidateDiff] accepts it with the same root and [CommitValidated] of the
    result takes the machine to exactly the state that [ApplyDiff] reaches,
    observability rows in the store included. *)
Theorem commit_validated_is_apply (sm : SM) diff sm' root :
  obsDeferred sm = None -> ApplyDiff diff sm = (sm', Ok root) ->
  exists vd, ValidateDiff diff sm = (sm, Ok vd) /\ vd_Root vd = root /\
             vd_WarmAfter vd = WarmKeys (state sm') /\ CommitValidated vd sm = (sm', true).
Proof.
  intros Hnone Ha. unfold ApplyDiff, bind in Ha. unfold ValidateDiff. unfold bind at 1.
  pose proof (verify_pure diff sm) as Hv. destruct (verifyDiffUserSig diff sm) as [? [[]|]]; [|done].
  cbn in Hv. subst. pose proof (core_nonce _ _ _ _ _ _ Ha) as Hnonce.
  destruct (trial_commit _ sm sm' root (mutates_core _ _ _) (mirrors_core _ _ _) Hnone Ha) as (sm1 & obs & Hw & Hwk & Hfl).
  unfold bind, get, gets, modify, ret. rewrite Hw.
  exists (MkValidated root (WarmKeys (state sm1)) [] (d_Nonce diff) (snapshotMutable sm1) obs).
  split; [|split; [done|split; [done|]]].
  - f_equal. by eapply trial_restores; [apply mutates_core|done|].
  - unfold CommitValidated. cbn [vd_nonce vd_post vd_obs]. rewrite Hnonce, Z.eqb_refl. cbn [negb]. by rewrite Hfl.
Qed.

(** The same for the user side: previewing a nonce with
    [PreviewLocalBestEffort] and committing the preview is [ApplyLocalBestEffort]:
    same root, same applied transactions, same state. *)
Theorem commit_preview_is_apply (sm : SM) nonce txs sm' root applied :
  obsDeferred sm = None -> ApplyLocalBestEffort nonce txs sm = (sm', Ok (root, applied)) ->
  exists vd, PreviewLocalBestEffort nonce txs sm = (sm, Ok vd) /\ vd_Root vd = root /\
             vd_Applied vd = applied /\ CommitValidated vd sm = (sm', true).
Proof.
  intros Hnone Ha. unfold ApplyLocalBestEffort in Ha. pose proof (best_nonce _ _ _ _ _ Ha) as Hnonce.
  destruct (trial_commit _ sm sm' _ (mutates_best _ _) (mirrors_best_effort _ _) Hnone Ha) as (sm1 & obs & Hw & Hwk & Hfl).
  unfold PreviewLocalBestEffort, bind, get, gets, modify, ret. rewrite Hw.
  exists (MkValidated root (WarmKeys (state sm1)) applied nonce (snapshotMutable sm1) obs).
  split; [|split; [done|split; [done|]]].
  - f_equal. by eapply trial_restores; [apply mutates_best|done|].
  - unfold CommitValidated. cbn [vd_nonce vd_post vd_obs]. rewrite Hnonce, Z.eqb_refl. cbn [negb]. by rewrite Hfl.
Qed.

End Properties.
