(* ===== verification/DevshardSession.v ===== *)
(** Sessions: sealing, diffs and reachable states of the devshard machine.

    Builds on [DevshardRefine]: a diff that is accepted is ledger steps and keeps
    the session invariant, one that is rejected is rolled back.  The theorems
    about whole sessions (conservation, settlement, phases, commit protocol) are
    here. *)

From S2P Require Import Prelude.
From S2P Require Import GoStd.
From S2P Require Import DevshardTypes.
From S2P Require Import DevshardHash.
From S2P Require Import DevshardMachine.
From S2P Require Import DevshardLedger.
From S2P Require Import DevshardRefine.
From S2P Require Import DevshardCommit.

Open Scope Z_scope.
Open Scope go_scope.

(* ------------------------------------------------------------------ *)
(** ** Definitions *)

Section Defs.
Context {Store : Type} `{!InferenceStorage Store} `{!ProtoCodec} `{!SigVerifier}.
Abbreviation SM := (StateMachine Store).

(** What sealing leaves alone, the accumulator aside. *)
Definition seal_frame (sm sm' : SM) : Prop :=
  mut_only sm sm' /\ Phase (state sm') = Phase (state sm) /\
  LatestNonce (state sm') = LatestNonce (state sm) /\
  FinalizeNonce (state sm') = FinalizeNonce (state sm) /\
  WarmKeys (state sm') = WarmKeys (state sm) /\ Fees (state sm') = Fees (state sm).

(** Ledger steps that keep the invariant. *)
Definition advances (amount top : Z) (sm sm' : SM) : Prop :=
  Inv amount top sm' /\ rtc (lstep top (slot_of sm)) (abs sm) (abs sm').

(** An error that is not a panic and touched only the mutable part. *)
Definition fails {A} (sm sm' : SM) (r : outcome DevshardError A) : Prop :=
  match r with Ok _ => True | Err e => e <> GoPanic /\ mut_only sm sm' end.

(** One iteration of the drain or of the sweep: [id] leaves the live set. *)
Definition sealed_one (amount top n : Z) (sm : SM) (id : Z) (sm' : SM) : Prop :=
  seal_frame sm sm' /\ advances amount top sm sm' /\
  Inferences (state sm') = delete id (Inferences (state sm)) /\
  sealedNonces sm' = <[id:=n]> (sealedNonces sm) /\ SealedAcc (state sm') = SealedAcc (state sm).

(** The phase and finalize nonce after nonce [nonce] of a session of [n] slots. *)
Definition next_phase (n nonce : Z) (p : SessionPhase) (f : Z) : SessionPhase * Z :=
  match p with
  | PhaseFinalizing =>
      let f' := if f =? 0 then nonce else f in
      (if f' + n <=? nonce then PhaseSettlement else PhaseFinalizing, f')
  | _ => (p, f)
  end.

(** The end of a nonce: ledger steps, the nonce and the phase advance, entering
    settlement leaves nothing live, and the returned root is the state's. *)
Definition nonce_post (amount nonce : Z) (sm sm' : SM) (r : outcome DevshardError (list Z)) : Prop :=
  match r with
  | Ok root =>
      mut_only sm sm' /\ advances amount nonce sm sm' /\
      LatestNonce (state sm') = nonce /\ WarmKeys (state sm') = WarmKeys (state sm) /\
      (Phase (state sm'), FinalizeNonce (state sm')) =
        next_phase (nslots sm) nonce (Phase (state sm)) (FinalizeNonce (state sm)) /\
      (Phase (state sm') = PhaseSettlement ->
         Inferences (state sm') = if decide (Phase (state sm) = PhaseSettlement)
                                  then Inferences (state sm) else ∅) /\
      computeStateRootLocked (state sm') = Ok root
  | Err e => e <> GoPanic /\ mut_only sm sm'
  end.

(** The deadline test at the end of a finalizing nonce. *)
Definition deadline_tail (nonce : Z) : GoM SM DevshardError (list Z) :=
  run* (let* st1 := gets state in
        if u64 (FinalizeNonce st1 + u64 (Z.of_nat (length (Group st1)))) <=? LatestNonce st1 then
          run* modify (on_state (st_Phase PhaseSettlement)) in
          drainLiveIntoSealedAccLocked (LatestNonce st1)
        else ret tt) in
  let* st2 := gets state in
  run* (if bool_decide (Phase st2 = PhaseActive)
             && shouldAutoSealAtNonce (autoSealInterval (Config st2)) nonce
        then (let* _ := autoSealLocked nonce in ret tt) else ret tt) in
  let* st3 := gets state in
  lift (computeStateRootLocked st3).

(** The widths of a transaction's fields. *)
Definition tx_sized (tx : DevshardTx) : Prop :=
  match tx with
  | StartInference m => is_u64 (si_InputLength m) /\ is_u64 (si_MaxTokens m)
  | FinishInference m => is_u64 (fi_InputTokens m) /\ is_u64 (fi_OutputTokens m)
  | _ => True
  end.

(** How the phase, the finalize nonce and the nonce of a session fit together;
    nothing is live in settlement. *)
Definition phase_ok (sm : SM) : Prop :=
  let st := state sm in
  match Phase st with
  | PhaseActive => FinalizeNonce st = 0
  | PhaseFinalizing => 0 < FinalizeNonce st <= LatestNonce st /\ LatestNonce st < FinalizeNonce st + nslots sm
  | PhaseSettlement => 0 < FinalizeNonce st /\ FinalizeNonce st + nslots sm <= LatestNonce st /\ Inferences st = ∅
  end.

(** The invariant between diffs of a session funded with [amount]. *)
Record session_ok (amount : Z) (sm : SM) : Prop := {
  sn_inv : Inv amount (LatestNonce (state sm)) sm;
  sn_phase : phase_ok sm;
  sn_obs : obsDeferred sm = None
}.

(** What the transactions of a diff may do before the nonce is closed. *)
Definition txs_post (amount nonce : Z) (sm sm' : SM) : Prop :=
  mut_only sm sm' /\ advances amount nonce sm sm' /\
  LatestNonce (state sm') = LatestNonce (state sm) /\ FinalizeNonce (state sm') = FinalizeNonce (state sm) /\
  (Phase (state sm') = Phase (state sm) \/
   Phase (state sm) = PhaseActive /\ Phase (state sm') = PhaseFinalizing) /\
  (Phase (state sm) <> PhaseActive -> dom (Inferences (state sm')) = dom (Inferences (state sm))).

(** An accepted nonce. *)
Definition diff_post (amount nonce : Z) (sm sm' : SM) (root : list Z) : Prop :=
  nonce = LatestNonce (state sm) + 1 /\ LatestNonce (state sm') = nonce /\
  immut sm' = immut sm /\ Inv amount nonce sm' /\ phase_ok sm' /\ obs_frame sm sm' /\
  rtc (lstep nonce (slot_of sm)) (abs sm) (abs sm') /\
  computeStateRootLocked (state sm') = Ok root.

End Defs.

(* ------------------------------------------------------------------ *)
(** ** Sealing *)

Section Sealing.
Context {Store : Type} `{!InferenceStorage Store} `{!ProtoCodec} `{!ProtoCodecLaws} `{!SigVerifier}.
Abbreviation SM := (StateMachine Store).
Implicit Types (sm : SM).

Lemma seal_frame_refl sm : seal_frame sm sm.
Proof. done. Qed.

Lemma seal_frame_trans sm1 sm2 sm3 : seal_frame sm1 sm2 -> seal_frame sm2 sm3 -> seal_frame sm1 sm3.
Proof.
  intros (A1 & A2 & A3 & A4 & A5 & A6) (B1 & B2 & B3 & B4 & B5 & B6).
  unfold seal_frame. rewrite B2, B3, B4, B5, B6. split; [by eapply mut_only_trans|done].
Qed.

Lemma advances_refl amount top sm : Inv amount top sm -> advances amount top sm sm.
Proof. done. Qed.

Lemma advances_trans amount top sm1 sm2 sm3 :
  immut sm2 = immut sm1 -> advances amount top sm1 sm2 -> advances amount top sm2 sm3 ->
  advances amount top sm1 sm3.
Proof.
  intros Hi [_ Hs1] [HI Hs2]. split; [done|]. etrans; [exact Hs1|]. by rewrite <- (slot_of_immut _ _ Hi).
Qed.

(** One live record leaves the live set for the accumulator. *)
Lemma close_record amount top sm sm' id r e n :
  Inv amount top sm -> seal_frame sm sm' -> Inferences (state sm) !! id = Some r ->
  is_open (e_status e) = false ->
  Inferences (state sm') = delete id (Inferences (state sm)) ->
  committedEntries sm' = delete id (committedEntries sm) ->
  sealedNonces sm' = <[id:=n]> (sealedNonces sm) ->
  (forall s, is_Some (HostStatsMap (state sm') !! s) <-> is_Some (HostStatsMap (state sm) !! s)) ->
  rtc (lstep top (slot_of sm)) (abs sm)
    (MkLedger (Balance (state sm')) (Fees (state sm)) (<[id:=e]> (l_live (abs sm)))
       (abs_host <$> HostStatsMap (state sm')) (l_closed (abs sm))) ->
  advances amount top sm sm'.
Proof.
  intros HI (Hm & _ & _ & _ & _ & Hfees) Hr Hopen Hin Hco Hsn Hho Hsteps.
  assert (rtc (lstep top (slot_of sm)) (abs sm) (abs sm')) as Hrtc.
  { etrans; [exact Hsteps|]. apply rtc_once. unfold abs at 3. rewrite Hin, Hsn, Hfees, fmap_delete, dom_insert_L.
    rewrite <- (delete_insert_eq _ id e).
    eapply L_seal; [apply lookup_insert_eq|done]. }
  split; [|done]. eapply Inv_intro; eauto; [apply Hm| |].
  - rewrite Hin. intros k r0 [_ Hk]%lookup_delete_Some. by apply (inv_records _ _ _ HI).
  - rewrite Hin, Hco, committed_of_delete. by rewrite (inv_committed _ _ _ HI).
Qed.

Lemma fold_record_wp amount top n cur id r r' sm0 sm (Q : SM -> outcome DevshardError (list Z) -> Prop) :
  Inv amount top sm0 -> Inferences (state sm0) !! id = Some r -> Model r' = Model r ->
  (forall entry, Marshal (PInferenceRecord (inference_proto id r')) = Some entry ->
     Q (set_committed (delete id (committedEntries sm)) (set_sealedNonces (<[id:=n]> (sealedNonces sm)) sm))
       (Ok (FoldSealedAccumulator cur n id entry))) ->
  wp (fold_record n cur id r') Q sm.
Proof.
  intros HI Hr Hmod HQ. destruct (Inv_marshal _ _ _ id r r' HI Hr Hmod) as [entry Hentry].
  specialize (HQ entry Hentry). unfold fold_record. wp_step. apply updateCommitted_wp; [|congruence].
  intros entry' Hm. assert (entry' = entry) as -> by congruence.
  unfold wp, bind, gets, modify, ret. cbn. unfold zget. rewrite lookup_insert_eq. cbn.
  rewrite delete_insert_eq. exact HQ.
Qed.

(** Deadline settlement of one record: a started inference is paid in full, a
    pending one is refunded, anything else is left alone. *)
Lemma settle_wp amount top sm id r (Q : SM -> outcome DevshardError InferenceRecord -> Prop) :
  Inv amount top sm -> Inferences (state sm) !! id = Some r ->
  (forall r' bal hs, Model r' = Model r -> is_open (Status r') = false ->
     (forall s, is_Some (hs !! s) <-> is_Some (HostStatsMap (state sm) !! s)) ->
     rtc (lstep top (slot_of sm)) (abs sm)
       (MkLedger bal (Fees (state sm)) (<[id:=abs_entry r']> (l_live (abs sm))) (abs_host <$> hs) (l_closed (abs sm))) ->
     Q (on_state (fun st => st_Balance bal (st_HostStatsMap hs st)) sm) (Ok r')) ->
  wp (settleLiveRecordLocked r) Q sm.
Proof.
  intros HI Hr HQ.
  pose proof (Inv_balance _ _ _ HI). pose proof (inv_amount _ _ _ HI). pose proof (Inv_cost _ _ _ _ _ HI Hr).
  unfold settleLiveRecordLocked.
  assert (is_open (Status r) = false -> Q sm (Ok r)) as Hskip.
  { intros Hcl. specialize (HQ r (Balance (state sm)) (HostStatsMap (state sm)) eq_refl Hcl ltac:(done)).
    rewrite insert_id in HQ by by apply abs_live.
    replace sm with (on_state (fun st => st_Balance (Balance (state sm)) (st_HostStatsMap (HostStatsMap (state sm)) st)) sm)
      by by destruct sm as [[] ? ? ? ? ? ? ? ? ? ?]. by apply HQ. }
  destruct (Status r) eqn:Hs; try (apply wp_ret, Hskip; done).
  - pose proof (Inv_reserved _ _ _ _ _ HI Hr ltac:(by rewrite Hs)). unfold is_u64 in *.
    wp_step. apply wp_gets. unfold put_balance. wp_step. wp_step. wp_step.
    rewrite u64_small by (unfold is_u64; lia).
    replace (on_state (st_Balance (Balance (state sm) + ReservedCost r)) sm)
      with (on_state (fun st => st_Balance (Balance (state sm) + ReservedCost r) (st_HostStatsMap (HostStatsMap (state sm)) st)) sm)
      by by destruct sm as [[] ? ? ? ? ? ? ? ? ? ?].
    apply HQ; try done. apply rtc_once. by apply (L_refund _ _ _ _ _ _ _ _ _ (abs_live _ _ _ Hr)).
  - destruct (Inv_host _ _ _ _ _ HI Hr) as [h Hh]. wp_step. eapply host_stats_wp; [done|].
    pose proof (Inv_open_cost _ _ _ _ _ _ HI Hr ltac:(by rewrite Hs) Hh) as [Hc0 Hc1]. unfold is_u64 in *.
    unfold put_host_stats. wp_step. wp_step. wp_step. rewrite u64_small by (unfold is_u64; lia).
    set (hs := <[ExecutorSlot r := hs_Cost (Cost h + ReservedCost r) h]> (HostStatsMap (state sm))).
    change (on_state (st_HostStatsMap hs) sm)
      with (on_state (fun st => st_Balance (Balance (state sm)) (st_HostStatsMap hs st)) sm).
    apply HQ; try done; [intros s; by apply insert_is_Some|].
    apply rtc_once. unfold hs. rewrite fmap_insert.
    replace (Balance (state sm)) with (Balance (state sm) + (ReservedCost r - ReservedCost r)) by lia.
    apply (L_finish _ _ _ _ _ _ _ _ _ (abs_host h) (ReservedCost r) (abs_live _ _ _ Hr) Hs); [cbn; lia|].
    by apply abs_host_lookup.
Qed.

Lemma upsert_wp id n r sm (Q : SM -> outcome DevshardError unit -> Prop) :
  (forall sm', obs_only sm sm' -> Q sm' (Ok tt)) ->
  (forall sm' e, obs_only sm sm' -> e <> GoPanic -> obsDeferred sm = None -> Q sm' (Err e)) ->
  wp (upsertInferenceObsLocked id n r) Q sm.
Proof.
  intros Hok Herr. destruct (upsert_obs id n r sm) as [Hobs Hnone]. unfold wp.
  destruct (upsertInferenceObsLocked id n r sm) as [sm' [[]|e]] eqn:Hu; [by apply Hok|].
  apply Herr; [done| |by eapply Hnone].
  intros ->. unfold upsertInferenceObsLocked in Hu. repeat step_match Hu; congruence.
Qed.

Ltac solve_seal_frame := unfold seal_frame, mut_only, immut, obs_frame in *; cbn in *; repeat split; solve [done | tauto | naive_solver].

Lemma drain_one_wp amount top n cur sm id :
  Inv amount top sm -> is_Some (Inferences (state sm) !! id) ->
  wp (drain_one n cur id)
    (fun sm' r => match r with Ok _ => sealed_one amount top n sm id sm'
                  | Err e => e <> GoPanic /\ mut_only sm sm' /\ obsDeferred sm = None end) sm.
Proof.
  intros HI [r Hr]. unfold drain_one. wp_step. apply wp_gets. cbv beta iota. rewrite Hr. wp_step. wp_step; [|done].
  assert (v = r) as -> by congruence. wp_step. eapply settle_wp; [done..|].
  intros r' bal hs Hmod Hopen Hhs Hsteps. wp_step. apply wp_modify. cbv beta iota.
  wp_step. eapply fold_record_wp; [done..|]. intros entry _. cbv beta iota.
  wp_step. apply upsert_wp; cbv beta iota.
  - intros sm1 [(st & ob & ->) Hob]. wp_step. apply wp_modify. cbv beta iota. apply wp_ret.
    split; [solve_seal_frame|]. split; [|split; [cbn; by rewrite delete_insert_eq|done]].
    eapply (close_record _ _ _ _ id r (abs_entry r') n); eauto; [solve_seal_frame|]. cbn. by rewrite delete_insert_eq.
  - intros sm1 e [(st & ob & ->) Hob] He Hnone. split; [done|]. split; [split; [done|]; cbn in *; tauto|done].
Qed.

Lemma seal_one_wp amount top n cur sm id r :
  Inv amount top sm -> Inferences (state sm) !! id = Some r -> is_open (Status r) = false ->
  wp (seal_one n cur id)
    (fun sm' o => match o with Ok _ => sealed_one amount top n sm id sm' | Err _ => False end) sm.
Proof.
  intros HI Hr Hopen. unfold seal_one. wp_step. apply wp_gets. cbv beta iota. rewrite Hr. wp_step. wp_step; [|done].
  assert (v = r) as -> by congruence.
  wp_step. eapply fold_record_wp; [done..|]. intros entry _. cbv beta iota.
  wp_step. set (sm1 := set_committed _ _). unfold wp at 1.
  destruct (upsert_obs id n r sm1) as [[(st & ob & Hu) Hob] _]. rewrite Hu in Hob |- *. clear Hu.
  wp_step. apply wp_modify. cbv beta iota. apply wp_ret. cbv beta iota.
  split; [subst sm1; solve_seal_frame|]. split; [|done].
  eapply (close_record _ _ _ _ id r (abs_entry r) n); eauto; [subst sm1; solve_seal_frame|].
  rewrite insert_id by by apply abs_live. done.
Qed.

Lemma size_zero {V} (m : gmap Z V) : bool_decide (size m = 0%nat) = true -> m = ∅.
Proof. intros Hb. boolify. by apply map_size_empty_inv. Qed.

Lemma drain_wp amount top n sm :
  Inv amount top sm ->
  wp (drainLiveIntoSealedAccLocked n)
    (fun sm' r => match r with
                  | Ok _ => seal_frame sm sm' /\ advances amount top sm sm' /\ Inferences (state sm') = ∅
                  | Err e => e <> GoPanic /\ mut_only sm sm' end) sm.
Proof.
  intros HI. unfold drainLiveIntoSealedAccLocked. wp_step. apply wp_gets. cbv beta iota.
  destruct (bool_decide (size _ = _)) eqn:Hsz; [apply wp_ret; by apply size_zero in Hsz|]. wp_step.
  apply (wp_mfold _ (fun sm' _ rest => seal_frame sm sm' /\ advances amount top sm sm' /\ NoDup rest /\
                       forall k, is_Some (Inferences (state sm') !! k) <-> k ∈ rest)).
  - split; [done|]. split; [done|]. split; [auto with gonka|]. intros k. by rewrite elem_of_sorted_keys.
  - intros sm1 cur id rest (Hf & Ha & Hnd & Hdom). apply NoDup_cons in Hnd as [Hid Hnd].
    eapply wp_mono; [apply (drain_one_wp amount top); [apply Ha|apply Hdom; left]|].
    intros sm2 [cur'|e].
    + intros (Hf2 & Ha2 & Hinf & _ & _). split; [by eapply seal_frame_trans|].
      split; [eapply advances_trans; [apply Hf|done..]|]. split; [done|].
      intros k. rewrite Hinf, lookup_delete_is_Some, Hdom, elem_of_cons. naive_solver.
    + intros (He & Hm & _). split; [done|]. eapply mut_only_trans; [apply Hf|done].
  - intros sm1 cur (Hf & Ha & _ & Hdom). apply wp_modify.
    split; [by eapply seal_frame_trans|]. split.
    + split; [|apply Ha]. destruct Ha as [Ha _]. by eapply Inv_frame.
    + apply map_empty. intros k. apply eq_None_not_Some. cbn. rewrite Hdom. apply not_elem_of_nil.
Qed.

Lemma eligible_spec st clock n id :
  id ∈ eligible_ids st clock n (map_to_list (Inferences st)) ->
  exists r, Inferences st !! id = Some r /\
    seal_gate (InferenceSealGraceNonces (Config st)) (InferenceSealGraceSeconds (Config st)) clock n id r = true.
Proof.
  unfold eligible_ids. rewrite list_elem_of_fmap. intros ([k r] & -> & Hin).
  apply list_elem_of_filter in Hin as [Hg Hin]. apply elem_of_map_to_list in Hin. by exists r.
Qed.

Lemma eligible_nodup st clock n :
  NoDup (sort_Z (eligible_ids st clock n (map_to_list (Inferences st)))).
Proof.
  rewrite sort_Z_perm. unfold eligible_ids. eapply (NoDup_fmap_fst); [|apply NoDup_filter, NoDup_map_to_list].
  intros k r1 r2 [_ H2]%list_elem_of_filter [_ H3]%list_elem_of_filter.
  apply elem_of_map_to_list in H2, H3. congruence.
Qed.

Lemma seal_gate_closed a b c n id r : seal_gate a b c n id r = true -> is_open (Status r) = false.
Proof. unfold seal_gate. intros Hg. boolify. by destruct (Status r). Qed.

Lemma autoSeal_wp amount top n sm :
  Inv amount top sm ->
  wp (autoSealLocked n)
    (fun sm' r => match r with Ok _ => seal_frame sm sm' /\ advances amount top sm sm'
                  | Err _ => False end) sm.
Proof.
  intros HI. unfold autoSealLocked. wp_step. apply wp_gets. cbv beta iota.
  destruct (bool_decide (size _ = _)); [by apply wp_ret|].
  destruct (_ =? 0); [by apply wp_ret|]. case_bool_decide; [by apply wp_ret|]. wp_step.
  set (el := sort_Z _).
  apply (wp_mfold _ (fun sm' _ rest => seal_frame sm sm' /\ advances amount top sm sm' /\ NoDup rest /\
     forall k, k ∈ rest -> exists r, Inferences (state sm') !! k = Some r /\ is_open (Status r) = false)).
  - split; [done|]. split; [done|]. split; [apply eligible_nodup|]. intros k Hk. subst el.
    apply elem_of_sort_Z, eligible_spec in Hk as (r & Hr & Hg). exists r. split; [done|]. by eapply seal_gate_closed.
  - intros sm1 cur id rest (Hf & Ha & Hnd & Hdom). apply NoDup_cons in Hnd as [Hid Hnd].
    destruct (Hdom id ltac:(left)) as (r & Hr & Hopen).
    eapply wp_mono; [apply (seal_one_wp amount top _ _ _ _ r); [apply Ha|done..]|].
    intros sm2 [cur'|e]; [|done]. intros (Hf2 & Ha2 & Hinf & _ & _).
    split; [by eapply seal_frame_trans|].
    split; [eapply advances_trans; [apply Hf|done..]|]. split; [done|].
    intros k Hk. rewrite Hinf, lookup_delete_ne by (intros ->; done). apply Hdom. by right.
  - intros sm1 cur (Hf & Ha & _ & _). wp_step. wp_step. wp_step.
    split; [by eapply seal_frame_trans|]. split; [|apply Ha]. destruct Ha as [Ha _]. by eapply Inv_frame.
Qed.

Lemma marshal_entries_no_panic l : marshal_entries l <> Err GoPanic.
Proof.
  unfold marshal_entries. generalize (∅ : gmap Z (list Z)). induction l as [|[k r] l IH]; intros m; cbn; [done|].
  unfold marshalInferenceEntry. destruct (Marshal _); cbn; [apply IH|done].
Qed.

Lemma root_no_panic st : computeStateRootLocked st <> Err GoPanic.
Proof.
  unfold computeStateRootLocked, computeHostStatsHash. destruct (Marshal _); cbn [obind]; [|done].
  unfold ComputeRestHashV2, ComputeInferencesHashV2, computeInferencesHash.
  pose proof (marshal_entries_no_panic (map_to_list (Inferences st))) as Hp.
  destruct (marshal_entries _); cbn [obind]; [discriminate|]. intros [= ->]. done.
Qed.

Lemma root_wp sm0 sm (Q : SM -> outcome DevshardError (list Z) -> Prop) :
  mut_only sm0 sm ->
  (forall root, computeStateRootLocked (state sm) = Ok root -> Q sm (Ok root)) ->
  (forall e, e <> GoPanic -> mut_only sm0 sm -> Q sm (Err e)) ->
  wp (let* st := gets state in lift (computeStateRootLocked st)) Q sm.
Proof.
  intros Hm Hok Herr. wp_step. apply wp_gets. cbv beta iota. apply wp_lift; [done|].
  intros e He. apply Herr; [|done]. intros ->. by apply root_no_panic in He.
Qed.

(** The fee of an active nonce fits the balance and the 64-bit counters. *)
Lemma charge_fee amount top sm :
  Inv amount top sm -> FeePerNonce (Config (state sm)) <= Balance (state sm) ->
  let fee := FeePerNonce (Config (state sm)) in
  u64 (Balance (state sm) - fee) = Balance (state sm) - fee /\
  u64 (Fees (state sm) + fee) = Fees (state sm) + fee /\
  lstep top (slot_of sm) (abs sm)
    (MkLedger (Balance (state sm) - fee) (Fees (state sm) + fee) (l_live (abs sm)) (l_hosts (abs sm)) (l_closed (abs sm))).
Proof.
  intros HI Hle fee. pose proof (inv_ledger _ _ _ HI) as Hl. pose proof (inv_amount _ _ _ HI).
  pose proof (linv_conservation _ _ _ _ Hl) as Hc. pose proof (linv_open_nonneg _ _ _ _ Hl).
  pose proof (linv_cost_nonneg _ _ _ _ Hl). pose proof (linv_balance _ _ _ _ Hl). pose proof (linv_fees _ _ _ _ Hl).
  pose proof (so_fee _ (inv_static _ _ _ HI)) as Hf. fold fee in Hf, Hle |- *.
  change (l_balance (abs sm)) with (Balance (state sm)) in *. change (l_fees (abs sm)) with (Fees (state sm)) in *.
  unfold is_u64 in *. rewrite !u64_small by (unfold is_u64; lia). repeat split. apply L_fee. lia.
Qed.

Ltac go_step :=
  match goal with
  | |- wp (gets _) _ _ => apply wp_gets; cbv beta iota
  | |- wp (put_balance _) _ _ => apply wp_modify; cbv beta iota
  | |- wp (let* _ := gets state in lift _) _ _ => fail 1
  | |- wp (if bool_decide ?P then _ else _) _ _ =>
      first [rewrite (bool_decide_true P) by done | rewrite (bool_decide_false P) by done]
  | |- wp (if bool_decide ?P && _ then _ else _) _ _ =>
      first [rewrite (bool_decide_true P) by done | rewrite (bool_decide_false P) by done]; cbn [andb]
  | |- _ => wp_step
  end.

Lemma finish_active amount nonce sm :
  Inv amount nonce sm -> Phase (state sm) = PhaseActive ->
  wp (finish_nonce nonce) (nonce_post amount nonce sm) sm.
Proof.
  intros HI Hph. unfold finish_nonce. wp_step. go_step. rewrite Hph. wp_step. repeat go_step; [|done]. boolify.
  destruct (charge_fee _ _ _ HI Hchk) as (Hb & Hf & Hstep). rewrite Hb, Hf.
  set (sm1 := on_state (st_LatestNonce nonce) _).
  assert (advances amount nonce sm sm1) as Ha.
  { assert (rtc (lstep nonce (slot_of sm)) (abs sm) (abs sm1)) as Hr by by eapply rtc_once.
    split; [|done]. eapply Inv_intro; eauto; try done; apply HI. }
  assert (mut_only sm sm1) as Hm by done.
  destruct (shouldAutoSealAtNonce _ _); repeat go_step.
  - eapply wp_mono; [apply (autoSeal_wp amount nonce), Ha|]. intros sm2 [[ids win]|e]; [|done]. intros [Hsf Ha2].
    cbv beta iota. assert (mut_only sm sm2) as Hm2 by (eapply mut_only_trans; [done|apply Hsf]).
    repeat go_step. apply (root_wp sm); [done| |by intros].
    intros root Hroot. destruct Hsf as (_ & Hp & Hn & Hfn & Hw & _).
    split; [done|]. split; [by apply (advances_trans _ _ _ sm1)|]. unfold next_phase. rewrite Hph, Hp, Hn, Hfn, Hw. cbn.
    by rewrite Hph.
  - apply (root_wp sm); [done| |by intros]. intros root Hroot.
    split; [done|]. split; [done|]. unfold next_phase. cbn. by rewrite Hph.
Qed.

Lemma finish_settlement amount nonce sm :
  Inv amount nonce sm -> Phase (state sm) = PhaseSettlement ->
  wp (finish_nonce nonce) (nonce_post amount nonce sm) sm.
Proof.
  intros HI Hph. unfold finish_nonce. wp_step. go_step. rewrite Hph. repeat go_step. cbn [on_state state st_LatestNonce Phase].
  rewrite Hph. repeat go_step. apply (root_wp sm); [done| |by intros]. intros root Hroot.
  split; [done|]. split; [split; [by eapply Inv_frame|done]|]. unfold next_phase. cbn. rewrite Hph. by rewrite decide_True.
Qed.

Lemma deadline_tail_wp amount nonce f sm :
  Inv amount nonce sm -> Phase (state sm) = PhaseFinalizing -> 0 <= f <= nonce ->
  wp (deadline_tail nonce)
    (fun sm' r => match r with
     | Ok root => mut_only sm sm' /\ advances amount nonce sm sm' /\ LatestNonce (state sm') = nonce /\
         WarmKeys (state sm') = WarmKeys (state sm) /\ FinalizeNonce (state sm') = f /\
         Phase (state sm') = (if f + nslots sm <=? nonce then PhaseSettlement else PhaseFinalizing) /\
         (Phase (state sm') = PhaseSettlement -> Inferences (state sm') = ∅) /\
         computeStateRootLocked (state sm') = Ok root
     | Err e => e <> GoPanic /\ mut_only sm sm' end)
    (on_state (fun st => st_FinalizeNonce f (st_LatestNonce nonce st)) sm).
Proof.
  intros HI Hph Hf. pose proof (inv_top _ _ _ HI) as Htop.
  destruct (so_group _ (inv_static _ _ _ HI)) as [Hg _]. unfold MaxGroupSize in Hg.
  set (sm1 := on_state _ sm). assert (Inv amount nonce sm1) as HI1 by by eapply Inv_frame.
  unfold deadline_tail. wp_step. wp_step. go_step. change (LatestNonce (state sm1)) with nonce.
  change (FinalizeNonce (state sm1)) with f. change (Group (state sm1)) with (Group (state sm)).
  rewrite !u64_small by (unfold is_u64; rewrite ?u64_small by (unfold is_u64; lia); lia). fold (nslots sm).
  destruct (f + nslots sm <=? nonce) eqn:Hle.
  - wp_step. wp_step. set (sm2 := on_state (st_Phase PhaseSettlement) sm1).
    assert (Inv amount nonce sm2) as HI2 by by eapply Inv_frame.
    eapply wp_mono; [by apply (drain_wp amount nonce)|]. intros sm3 [[]|e]; [|done]. cbv beta iota.
    intros ((Hm & Hp & Hn & Hfn & Hw & _) & Ha & Hempty). assert (mut_only sm sm3) as Hm3 by by eapply mut_only_trans.
    wp_step. go_step. change (Phase (state sm2)) with PhaseSettlement in Hp. rewrite Hp. repeat go_step.
    apply (root_wp sm); [done| |by intros]. intros root Hroot. rewrite Hp, Hn, Hfn, Hw. done.
  - wp_step. wp_step. go_step. change (Phase (state sm1)) with (Phase (state sm)). rewrite Hph. repeat go_step.
    apply (root_wp sm); [done| |by intros]. intros root Hroot. cbn. by rewrite Hph.
Qed.

Lemma finish_finalizing amount nonce sm :
  Inv amount nonce sm -> Phase (state sm) = PhaseFinalizing -> 0 <= FinalizeNonce (state sm) <= nonce ->
  wp (finish_nonce nonce) (nonce_post amount nonce sm) sm.
Proof.
  intros HI Hph Hf. pose proof (inv_top _ _ _ HI) as Htop.
  unfold finish_nonce. wp_step. go_step. rewrite Hph. do 5 go_step. 
  set (f := if FinalizeNonce (state sm) =? 0 then nonce else FinalizeNonce (state sm)).
  assert (0 <= f <= nonce) as Hf' by (unfold f; destruct (_ =? 0); lia).
  assert (wp (deadline_tail nonce) (nonce_post amount nonce sm)
            (on_state (fun st => st_FinalizeNonce f (st_LatestNonce nonce st)) sm)) as Htail.
  { eapply wp_mono; [by apply (deadline_tail_wp amount nonce f sm)|]. intros sm' [root|e]; [|done].
    intros (Hm & Ha & Hn & Hw & Hfn & Hp & Hem & Hroot). unfold nonce_post, next_phase. rewrite Hph, Hn, Hfn, Hp.
    fold f. repeat (split; [done|]). split; [|done]. rewrite decide_False by done. by rewrite <- Hp. }
  rewrite bool_decide_true by done. cbn [andb].
  unfold f in Htail. destruct (FinalizeNonce (state sm) =? 0) eqn:H0f; wp_step; wp_step; exact Htail.
Qed.

Lemma finish_nonce_wp amount nonce sm :
  Inv amount nonce sm -> 0 <= FinalizeNonce (state sm) <= nonce ->
  wp (finish_nonce nonce) (nonce_post amount nonce sm) sm.
Proof.
  intros HI Hfin. destruct (Phase (state sm)) eqn:Hph.
  - by apply finish_active.
  - by apply finish_finalizing.
  - by apply finish_settlement.
Qed.

End Sealing.

(* ------------------------------------------------------------------ *)
(** ** Diffs *)

Section Diffs.
Context {Store : Type} `{!InferenceStorage Store} `{!ProtoCodec} `{!ProtoCodecLaws} `{!SigVerifier}.
Abbreviation SM := (StateMachine Store).
Implicit Types (sm : SM).

Lemma Inv_top amount top top' sm : top <= top' < 2 ^ 32 -> Inv amount top sm -> Inv amount top' sm.
Proof.
  intros Ht [Ha Hb Hs Hh Hl Hr Hc]. split; try done; [lia|]. eapply linv_top; [|done]. lia.
Qed.

Lemma check_starts_ids nonce n txs k :
  check_starts nonce n txs = Ok k ->
  Forall (fun tx => match tx with StartInference m => si_InferenceId m = nonce | _ => True end) txs.
Proof.
  revert n. induction txs as [|tx txs IH]; intros n; [constructor|].
  destruct tx; cbn; try (intros Hc; constructor; [done|by eapply IH]).
  destruct (Z.eqb_spec (si_InferenceId m) nonce); cbn; [|done]. intros Hc. constructor; [done|by eapply IH].
Qed.

Lemma check_starts_no_panic nonce n txs : check_starts nonce n txs <> Err GoPanic.
Proof. revert n. induction txs as [|tx txs IH]; intros n; [done|]. destruct tx; cbn; auto. by destruct (negb _). Qed.

Lemma precheck_wf nonce txs :
  precheck_starts nonce txs = Ok tt -> 1 <= nonce -> Forall tx_sized txs -> Forall (tx_wf nonce) txs.
Proof.
  unfold precheck_starts. intros (k & Hk & _)%obind_Ok Hn Hs. apply check_starts_ids in Hk.
  rewrite Forall_forall in *. intros tx Hin. specialize (Hk tx Hin). specialize (Hs tx Hin).
  destruct tx; cbn in *; try done. split; [lia|done].
Qed.

Lemma txs_post_refl amount nonce sm : Inv amount nonce sm -> txs_post amount nonce sm sm.
Proof. intros HI. split; [apply mut_only_refl|]. split; [done|]. auto. Qed.

Lemma txs_post_step amount nonce sm sm1 sm2 tx u :
  txs_post amount nonce sm sm1 -> step_post amount nonce tx sm1 sm2 (Ok u) -> txs_post amount nonce sm sm2.
Proof.
  intros (Hm & Ha & Hn & Hf & Hp & Hd) (Hfr & Hph & Hact & Hdom & HI & Hs).
  assert (advances amount nonce sm sm2) as Ha2 by (by eapply (advances_trans _ _ _ sm1); [apply Hm| |split]).
  destruct Hfr as (Hi & Hn2 & Hf2 & _ & _ & Hob & _).
  split; [by eapply mut_only_trans|]. split; [done|]. split; [congruence|]. split; [congruence|]. split.
  - rewrite Hph. destruct Hp as [Hp|[Hp1 Hp2]]; rewrite ?Hp; destruct tx; auto.
    right. split; [|done]. rewrite <- Hp. auto.
  - intros Hna. rewrite <- (Hd Hna). apply Hdom. destruct (is_start tx) eqn:Hst; [|done].
    specialize (Hact (or_intror eq_refl)). destruct Hp as [Hp|[Hp1 Hp2]]; congruence.
Qed.

(** A failed transaction of the user's best-effort loop is skipped. *)
Lemma txs_post_skip amount nonce sm sm1 sm2 :
  txs_post amount nonce sm sm1 -> warm_only sm1 sm2 -> txs_post amount nonce sm sm2.
Proof.
  intros (Hm & (HI & Hs) & Hn & Hf & Hp & Hd) Hw. pose proof (warm_only_Inv _ _ _ _ Hw HI) as HI2.
  destruct Hw as (w & Hw & ->). split; [by eapply mut_only_trans|]. done.
Qed.

Lemma txs_wp amount nonce sm txs :
  Inv amount nonce sm -> Forall (tx_wf nonce) txs ->
  wp (mfold (fun _ tx => applyTx tx) tt txs)
    (fun sm' r => match r with Ok _ => txs_post amount nonce sm sm' | Err e => e <> GoPanic /\ mut_only sm sm' end) sm.
Proof.
  intros HI Hwf. apply (wp_mfold _ (fun sm' _ rest => txs_post amount nonce sm sm' /\ Forall (tx_wf nonce) rest)).
  - split; [by apply txs_post_refl|done].
  - intros sm1 _ tx rest [Hp [Hx Hrest]%Forall_cons]. eapply wp_mono; [apply (applyTx_post amount nonce); [apply Hp|done]|].
    intros sm2 [[]|e] Hst; [split; [by eapply txs_post_step|done]|].
    assert (e <> GoPanic /\ mut_only sm1 sm2) as [He Hm] by (destruct e; try done; by destruct Hst).
    split; [done|]. eapply mut_only_trans; [apply Hp|done].
  - intros sm1 _ [Hp _]. done.
Qed.

Lemma best_effort_wp amount nonce sm txs :
  Inv amount nonce sm -> Forall (tx_wf nonce) txs ->
  wp (mfold best_effort_one [] txs)
    (fun sm' r => match r with Ok _ => txs_post amount nonce sm sm' | Err e => e <> GoPanic /\ mut_only sm sm' end) sm.
Proof.
  intros HI Hwf. apply (wp_mfold _ (fun sm' _ rest => txs_post amount nonce sm sm' /\ Forall (tx_wf nonce) rest)).
  - split; [by apply txs_post_refl|done].
  - intros sm1 applied tx rest [Hp [Hx Hrest]%Forall_cons].
    pose proof (applyTx_post amount nonce tx sm1 ltac:(apply Hp) Hx) as Hst. unfold wp, best_effort_one in *.
    destruct (applyTx tx sm1) as [sm2 [[]|e]]; [split; [by eapply txs_post_step|done]|].
    assert (e <> GoPanic /\ mut_only sm1 sm2 /\ (is_start tx = false -> warm_only sm1 sm2)) as (He & Hm & Hw)
      by (destruct e; try done; by destruct Hst).
    assert (mut_only sm sm2) as Hm2 by (eapply mut_only_trans; [apply Hp|done]).
    destruct (is_start tx); destruct e; try done; (split; [eapply txs_post_skip; eauto|done]).
  - intros sm1 _ [Hp _]. done.
Qed.

Lemma group_size sm : static_ok sm -> 0 < nslots sm <= 128.
Proof. intros Hst. destruct (so_group _ Hst) as [Hg _]. done. Qed.

(** Closing the nonce moves the phase along. *)
Lemma phase_closed amount nonce sm sm1 sm2 root :
  Inv amount (LatestNonce (state sm)) sm -> phase_ok sm -> nonce = LatestNonce (state sm) + 1 ->
  txs_post amount nonce sm sm1 -> nonce_post amount nonce sm1 sm2 (Ok root) -> phase_ok sm2.
Proof.
  intros HI Hph -> (Hm & _ & _ & Hf & Hp & Hd) (Hm2 & _ & Hn & _ & Hnp & Hset & _).
  pose proof (inv_top _ _ _ HI). pose proof (group_size sm (inv_static _ _ _ HI)).
  assert (nslots sm2 = nslots sm) as Hn2 by (rewrite (nslots_immut sm1 sm2), (nslots_immut sm sm1); [done|apply Hm|apply Hm2]).
  assert (nslots sm1 = nslots sm) as Hn1 by (apply nslots_immut, Hm).
  unfold phase_ok in *. rewrite Hn, Hn2. rewrite Hf, Hn1 in Hnp.
  destruct (Phase (state sm)) eqn:Hp0.
  - destruct Hp as [Hp|[_ Hp]]; rewrite Hp in Hnp; cbn in Hnp.
    + by injection Hnp as -> ->.
    + rewrite Hph in Hnp. cbn in Hnp. destruct (Z.leb_spec (LatestNonce (state sm) + 1 + nslots sm) (LatestNonce (state sm) + 1)); [lia|].
      injection Hnp as -> ->. lia.
  - destruct Hp as [Hp|[? _]]; [|done]. rewrite Hp in Hnp, Hset. cbn in Hnp.
    destruct (Z.eqb_spec (FinalizeNonce (state sm)) 0); [lia|].
    destruct (Z.leb_spec (FinalizeNonce (state sm) + nslots sm) (LatestNonce (state sm) + 1));
      injection Hnp as Hpp Hff; rewrite Hpp, Hff; [|lia]. split; [lia|]. split; [lia|]. by apply Hset.
  - destruct Hp as [Hp|[? _]]; [|done]. rewrite Hp in Hnp, Hset. cbn in Hnp. injection Hnp as Hpp Hff.
    rewrite Hpp, Hff. split; [lia|]. split; [lia|]. rewrite Hset by done. rewrite decide_True by done.
    apply dom_empty_inv_L. rewrite Hd by done. destruct Hph as (_ & _ & ->). apply dom_empty_L.
Qed.

Lemma close_nonce amount nonce sm sm1 sm2 root :
  Inv amount (LatestNonce (state sm)) sm -> phase_ok sm -> nonce = LatestNonce (state sm) + 1 ->
  txs_post amount nonce sm sm1 -> nonce_post amount nonce sm1 sm2 (Ok root) ->
  diff_post amount nonce sm sm2 root.
Proof.
  intros HI Hph Hnonce Ht Hn. pose proof (phase_closed _ _ _ _ _ _ HI Hph Hnonce Ht Hn) as Hph2.
  destruct Ht as (Hm & Ha & _). destruct Hn as (Hm2 & Ha2 & Hl & _ & _ & _ & Hroot).
  destruct (advances_trans _ _ _ _ _ (proj1 Hm) Ha Ha2) as [HI2 Hs].
  destruct (mut_only_trans _ _ _ Hm Hm2) as [Hi Hob]. done.
Qed.

Lemma or_restore_wp {A} snap (m : GoM SM DevshardError A) (Q : SM -> outcome DevshardError A -> Prop) sm :
  wp m (fun sm' r => match r with Ok a => Q sm' (Ok a)
                     | Err e => e <> GoPanic /\ Q (restoreMutable snap sm') (Err e) end) sm ->
  wp (or_restore snap m) Q sm.
Proof.
  unfold wp, or_restore. destruct (m sm) as [sm' [a|e]]; [done|]. intros [He HQ]. by destruct e.
Qed.

Lemma txs_finalize amount nonce sm sm1 :
  Inv amount (LatestNonce (state sm)) sm -> phase_ok sm -> nonce = LatestNonce (state sm) + 1 ->
  txs_post amount nonce sm sm1 -> 0 <= FinalizeNonce (state sm1) <= nonce.
Proof.
  intros HI Hph -> (_ & _ & _ & -> & _). pose proof (inv_top _ _ _ HI). pose proof (group_size sm (inv_static _ _ _ HI)).
  unfold phase_ok in Hph. destruct (Phase (state sm)); lia.
Qed.

Lemma precheck_no_panic nonce txs : precheck_starts nonce txs <> Err GoPanic.
Proof.
  unfold precheck_starts. destruct (check_starts nonce 0 txs) as [k|e] eqn:Hk; cbn; [by destruct (1 <? k)|].
  intros [= ->]. by apply check_starts_no_panic in Hk.
Qed.

(** The nonce and start checks, then a body that is rolled back on an error. *)
Lemma guarded_wp {A} amount nonce txs sm (body : GoM SM DevshardError A) (Q : SM -> A -> Prop) :
  Inv amount (LatestNonce (state sm)) sm -> LatestNonce (state sm) + 1 < 2 ^ 32 -> Forall tx_sized txs ->
  (nonce = LatestNonce (state sm) + 1 -> Inv amount nonce sm -> Forall (tx_wf nonce) txs ->
     wp body (fun sm' r => match r with Ok a => Q sm' a | Err e => e <> GoPanic /\ mut_only sm sm' end) sm) ->
  wp (let* sm0 := get in
      run* check (nonce =? u64 (LatestNonce (state sm0) + 1)) ErrInvalidNonce in
      run* lift (precheck_starts nonce txs) in
      or_restore (snapshotMutable sm0) body)
    (fun sm' r => match r with Ok a => Q sm' a | Err e => e <> GoPanic /\ obs_only sm sm' end) sm.
Proof.
  intros HI Hlt Hsz Hbody. pose proof (inv_top _ _ _ HI). wp_step. wp_step.
  wp_step. wp_step; [|split; [done|apply obs_only_refl]]. boolify. rewrite u64_small in Hchk by (unfold is_u64; lia).
  wp_step. apply wp_lift; [|intros e He; split; [intros ->; by apply precheck_no_panic in He|apply obs_only_refl]].
  intros [] Hpre. apply precheck_wf in Hpre; [|lia|done]. apply or_restore_wp.
  eapply wp_mono; [apply Hbody; [done| |done]; eapply Inv_top; [|exact HI]; lia|].
  intros sm1 [a|e]; [done|]. intros [He Hm]. split; [done|]. split; [done|]. by apply restore_snapshot.
Qed.

(** Closing the nonce after the transactions. *)
Lemma finish_after_txs amount nonce sm sm1 :
  Inv amount (LatestNonce (state sm)) sm -> phase_ok sm -> nonce = LatestNonce (state sm) + 1 ->
  txs_post amount nonce sm sm1 ->
  wp (finish_nonce nonce)
    (fun sm2 r => match r with
                  | Ok root => diff_post amount nonce sm sm2 root /\ mut_only sm sm2
                  | Err e => e <> GoPanic /\ mut_only sm sm2 end) sm1.
Proof.
  intros HI Hph Hnonce Ht. assert (mut_only sm sm1) as Hm by apply Ht.
  eapply wp_mono; [apply (finish_nonce_wp amount nonce); [apply Ht|by eapply txs_finalize]|].
  intros sm2 [root|e] Hn.
  - split; [by eapply close_nonce|]. eapply mut_only_trans; [done|apply Hn].
  - destruct Hn. split; [done|]. by eapply mut_only_trans.
Qed.

(** A diff on a session: accepted with the session's invariant and ledger steps,
    or rejected without a trace; never a panic. *)
Lemma applyCore_wp amount nonce txs psr sm :
  Inv amount (LatestNonce (state sm)) sm -> phase_ok sm -> LatestNonce (state sm) + 1 < 2 ^ 32 -> Forall tx_sized txs ->
  wp (applyCore nonce txs psr)
    (fun sm' r => match r with
                  | Ok root => diff_post amount nonce sm sm' root /\ (psr = [] \/ psr = root)
                  | Err e => e <> GoPanic /\ obs_only sm sm' end) sm.
Proof.
  intros HI Hph Hlt Hsz.
  apply (guarded_wp amount nonce txs sm _ (fun sm' root => diff_post amount nonce sm sm' root /\ (psr = [] \/ psr = root)));
    [done..|]. intros Hn HI' Hwf. wp_step.
  eapply wp_mono; [by apply txs_wp|]. intros sm1 [[]|e]; [|done]. intros Ht. cbv beta iota. wp_step.
  eapply wp_mono; [by eapply finish_after_txs|]. intros sm2 [root|e]; [|done]. cbv beta iota. intros [Hd Hm].
  wp_step. wp_step; [|done]. wp_step. split; [done|]. apply orb_true_iff in Hchk as [|]; boolify; auto.
Qed.

Lemma localBestEffort_wp amount nonce txs sm :
  Inv amount (LatestNonce (state sm)) sm -> phase_ok sm -> LatestNonce (state sm) + 1 < 2 ^ 32 -> Forall tx_sized txs ->
  wp (localBestEffortLocked nonce txs)
    (fun sm' r => match r with
                  | Ok (root, _) => diff_post amount nonce sm sm' root
                  | Err e => e <> GoPanic /\ obs_only sm sm' end) sm.
Proof.
  intros HI Hph Hlt Hsz.
  eapply wp_mono; [apply (guarded_wp amount nonce txs sm _ (fun sm' p => diff_post amount nonce sm sm' p.1)); [done..|]|].
  2: { by intros sm' [[root applied]|e]. }
  intros Hn HI' Hwf. wp_step.
  eapply wp_mono; [by apply best_effort_wp|]. intros sm1 [applied|e]; [|done]. intros Ht. cbv beta iota. wp_step.
  eapply wp_mono; [by eapply finish_after_txs|]. intros sm2 [root|e]; [|done]. cbv beta iota. intros [Hd Hm]. by wp_step.
Qed.

End Diffs.
