(* ===== verification/DevshardReach.v ===== *)
(** Reachable sessions of the devshard machine and their properties.

    A session starts with [NewStateMachine] on a validated group and goes on by
    the state changes that hosts and users make: a diff applied, applied locally,
    applied best-effort, or validated (previewed) and then committed, and warm keys
    injected.  The nonce stays below 2^32, the range of the chain's settlement
    counters.  A machine that was recovered with [RestoreState] is not among the
    reachable ones (see DevshardSealed); the exported [SealInference],
    [RestoreCommittedEntries] and [RestoreSealedNonces] have no caller in the
    services and are no steps either. *)

From S2P Require Import Prelude.
From S2P Require Import GoStd.
From S2P Require Import DevshardTypes.
From S2P Require Import DevshardHash.
From S2P Require Import DevshardMachine.
From S2P Require Import DevshardLedger.
From S2P Require Import DevshardRefine.
From S2P Require Import DevshardInit.
From S2P Require Import DevshardCommit.
From S2P Require Import DevshardSession.

Open Scope Z_scope.
Open Scope go_scope.

(* ------------------------------------------------------------------ *)
(** ** Definitions *)

Section Defs.
Context {Store : Type} `{!InferenceStorage Store} `{!ProtoCodec} `{!SigVerifier}.
Abbreviation SM := (StateMachine Store).

Inductive session_step : SM -> SM -> Prop :=
| S_apply diff sm : Forall tx_sized (d_Txs diff) -> session_step sm (ApplyDiff diff sm).1
| S_local nonce txs sm : Forall tx_sized txs -> session_step sm (ApplyLocal nonce txs sm).1
| S_best nonce txs sm : Forall tx_sized txs -> session_step sm (ApplyLocalBestEffort nonce txs sm).1
| S_validated diff sm sm1 vd :
    Forall tx_sized (d_Txs diff) -> ValidateDiff diff sm = (sm1, Ok vd) ->
    session_step sm (CommitValidated vd sm1).1
| S_previewed nonce txs sm sm1 vd :
    Forall tx_sized txs -> PreviewLocalBestEffort nonce txs sm = (sm1, Ok vd) ->
    session_step sm (CommitValidated vd sm1).1
| S_inject delta sm : session_step sm (InjectWarmKeys delta sm).

Inductive reachable (amount : Z) : SM -> Prop :=
| R_new version escrow cfg group user store opts sm :
    ValidateGroup group = Ok tt -> is_u64 amount -> config_sized cfg -> Forall is_option opts ->
    NewStateMachine version escrow cfg group amount user store opts = Ok sm -> reachable amount sm
| R_step sm sm' :
    reachable amount sm -> LatestNonce (state sm) + 1 < 2 ^ 32 -> session_step sm sm' ->
    reachable amount sm'.

(** A step of a session: ledger steps within the next nonce, the invariant kept. *)
Definition goes (amount : Z) (sm sm' : SM) : Prop :=
  session_ok amount sm' /\ rtc (lstep (LatestNonce (state sm) + 1) (slot_of sm)) (abs sm) (abs sm') /\
  immut sm' = immut sm.

(** Any number of steps later in the same session. *)
Definition later : SM -> SM -> Prop :=
  rtc (fun sm sm' => LatestNonce (state sm) + 1 < 2 ^ 32 /\ session_step sm sm').

(** What is locked by the open inferences, and what the hosts have earned. *)
Definition reserved_total (sm : SM) : Z :=
  msum (fun _ r => if is_open (Status r) then ReservedCost r else 0) (Inferences (state sm)).
Definition earned_total (sm : SM) : Z := msum (fun _ h => Cost h) (HostStatsMap (state sm)).

End Defs.

(* ------------------------------------------------------------------ *)
(** ** Invariance *)

Section Reach.
Context {Store : Type} `{!InferenceStorage Store} `{!ProtoCodec} `{!ProtoCodecLaws} `{!SigVerifier}.
Abbreviation SM := (StateMachine Store).
Implicit Types (sm : SM).

Lemma obs_only_goes amount sm sm' : session_ok amount sm -> obs_only sm sm' -> goes amount sm sm'.
Proof.
  intros [HI Hp Ho] [(st & ob & ->) [Hob _]]. cbn in Hob. split; [|done].
  split; [by eapply Inv_frame|done|]. cbn. tauto.
Qed.

Lemma goes_refl amount sm : session_ok amount sm -> goes amount sm sm.
Proof. done. Qed.

Lemma diff_post_goes amount nonce sm sm' root :
  session_ok amount sm -> diff_post amount nonce sm sm' root -> goes amount sm sm'.
Proof.
  intros [HI Hp Ho] (-> & Hn & Hi & HI' & Hp' & [Hob _] & Hs & _). split; [|done].
  split; [by rewrite Hn|done|]. by apply Hob.
Qed.

(** The same machine with its store and buffer replaced. *)
Lemma session_restored amount sm1 st ob :
  Inv amount (LatestNonce (state sm1)) sm1 -> phase_ok sm1 -> ob = None ->
  session_ok amount (set_obsDeferred ob (set_store st sm1)).
Proof. intros HI Hp ->. split; [by eapply Inv_frame|done|done]. Qed.

(** Committing a trial restores the trial's end state. *)
Lemma commit_goes {A} amount nonce (m : GoM SM DevshardError A) sm sm1 r obs root :
  session_ok amount sm -> mutates m ->
  with_deferred m sm = (sm1, r) -> diff_post amount nonce (set_obsDeferred (Some []) sm) (m (set_obsDeferred (Some []) sm)).1 root ->
  let sm' := flushDeferredObsLocked obs (restoreMutable (snapshotMutable sm1) sm) in
  goes amount sm sm'.
Proof.
  intros [HI Hp Ho] Hmut Hw Hd. cbv zeta. unfold with_deferred in Hw. specialize (Hmut (set_obsDeferred (Some []) sm)).
  destruct (m _) as [sm2 r2]. cbn [fst] in *. injection Hw as <- _. destruct Hd as (-> & Hn & Hi2 & HI2 & Hp2 & _ & Hs & _).
  destruct (flush_frame obs (restoreMutable (snapshotMutable (set_obsDeferred None sm2)) sm)) as [st ->].
  assert (set_store st (restoreMutable (snapshotMutable (set_obsDeferred None sm2)) sm)
          = set_obsDeferred None (set_store st sm2)) as ->.
  { destruct Hmut as [Hi _]. revert Hi Ho. clear. unfold immut.
    destruct sm as [[] ? ? ? ? ? ? ? ? ? ?], sm2 as [[] ? ? ? ? ? ? ? ? ? ?]. cbn. intros [=] ->; by subst. }
  split; [|done]. apply session_restored; [by rewrite Hn|done|done].
Qed.

Lemma deferred_ok amount sm : session_ok amount sm ->
  Inv amount (LatestNonce (state (set_obsDeferred (Some []) sm))) (set_obsDeferred (Some []) sm) /\
  phase_ok (set_obsDeferred (Some []) sm).
Proof. intros [HI Hp _]. split; [by eapply Inv_frame|done]. Qed.

Lemma core_goes amount nonce txs psr sm :
  session_ok amount sm -> LatestNonce (state sm) + 1 < 2 ^ 32 -> Forall tx_sized txs ->
  goes amount sm (applyCore nonce txs psr sm).1.
Proof.
  intros Hok Hlt Hsz. pose proof (applyCore_wp amount nonce txs psr sm (sn_inv _ _ Hok) (sn_phase _ _ Hok) Hlt Hsz) as Hw.
  unfold wp in Hw. destruct (applyCore nonce txs psr sm) as [sm' [root|e]]; [by eapply diff_post_goes; [|apply Hw]|].
  apply obs_only_goes; [done|apply Hw].
Qed.

Lemma validated_goes amount diff sm sm' vd :
  session_ok amount sm -> LatestNonce (state sm) + 1 < 2 ^ 32 -> Forall tx_sized (d_Txs diff) ->
  ValidateDiff diff sm = (sm', Ok vd) -> goes amount sm (CommitValidated vd sm').1.
Proof.
  intros Hok Hlt Hsz Hv. apply ValidateDiff_Ok in Hv as (sm1 & root & obs & Hwd & -> & ->); [|apply Hok].
  destruct (deferred_ok _ _ Hok) as [HI' Hp'].
  pose proof (applyCore_wp amount (d_Nonce diff) (d_Txs diff) (d_PostStateRoot diff) _ HI' Hp' Hlt Hsz) as Hw.
  unfold CommitValidated. cbn [vd_nonce vd_post vd_obs]. destruct (negb _); [done|]. cbn [fst].
  apply (commit_goes amount (d_Nonce diff) _ sm sm1 _ obs root Hok (mutates_core _ _ _) Hwd). unfold wp, with_deferred in *.
  destruct (applyCore _ _ _ _) as [sm2 [root2|e]]; [|done]. injection Hwd as _ -> _. exact (proj1 Hw).
Qed.

Lemma previewed_goes amount nonce txs sm sm' vd :
  session_ok amount sm -> LatestNonce (state sm) + 1 < 2 ^ 32 -> Forall tx_sized txs ->
  PreviewLocalBestEffort nonce txs sm = (sm', Ok vd) -> goes amount sm (CommitValidated vd sm').1.
Proof.
  intros Hok Hlt Hsz Hv. apply Preview_Ok in Hv as (sm1 & p & obs & Hwd & -> & ->); [|apply Hok].
  destruct (deferred_ok _ _ Hok) as [HI' Hp'].
  pose proof (localBestEffort_wp amount nonce txs _ HI' Hp' Hlt Hsz) as Hw.
  unfold CommitValidated. cbn [vd_nonce vd_post vd_obs]. destruct (negb _); [done|]. cbn [fst].
  apply (commit_goes amount nonce _ sm sm1 _ obs p.1 Hok (mutates_best _ _) Hwd). unfold wp, with_deferred in *.
  destruct (localBestEffortLocked _ _ _) as [sm2 [[root2 ap]|e]]; [|done]. injection Hwd as _ <- _. exact Hw.
Qed.

Lemma step_goes amount sm sm' :
  session_ok amount sm -> LatestNonce (state sm) + 1 < 2 ^ 32 -> session_step sm sm' -> goes amount sm sm'.
Proof.
  intros Hok Hlt Hstep. destruct Hstep as [diff sm Hsz|nonce txs sm Hsz|nonce txs sm Hsz|diff sm sm1 vd Hsz Hv|nonce txs sm sm1 vd Hsz Hv|delta sm].
  - unfold ApplyDiff, bind. pose proof (verify_pure diff sm) as Hv.
    destruct (verifyDiffUserSig diff sm) as [? [[]|]]; cbn in Hv; subst; [by apply core_goes|by apply goes_refl].
  - by apply core_goes.
  - pose proof (localBestEffort_wp amount nonce txs sm (sn_inv _ _ Hok) (sn_phase _ _ Hok) Hlt Hsz) as Hw.
    unfold wp, ApplyLocalBestEffort in *. destruct (localBestEffortLocked nonce txs sm) as [sm' [[root ap]|e]].
    + by eapply diff_post_goes.
    + apply obs_only_goes; [done|apply Hw].
  - by eapply validated_goes.
  - by eapply previewed_goes.
  - destruct Hok as [HI Hp Ho]. split; [|done]. split; [by eapply Inv_frame|done|done].
Qed.

Lemma later_goes amount sm sm' :
  session_ok amount sm -> later sm sm' ->
  session_ok amount sm' /\ l_closed (abs sm) ⊆ l_closed (abs sm') /\
  (forall id e, l_live (abs sm) !! id = Some e -> follows id e (abs sm')).
Proof.
  intros Hok Hl. revert Hok. induction Hl as [sm|sm sm1 sm2 [Hlt Hs] Hl IH]; intros Hok.
  - split; [done|]. split; [done|]. intros id e He. right. by exists e.
  - destruct (step_goes _ _ _ Hok Hlt Hs) as (Hok1 & Hr & Hi). destruct (IH Hok1) as (Hok2 & Hc & Hf).
    split; [done|]. split; [etrans; [by eapply lsteps_closed|done]|]. intros id e He.
    destruct (lsteps_follows _ _ _ _ _ _ Hr He) as [Hcl|(e1 & He1 & Hst & Hsl & Hrs)].
    + left. by apply Hc.
    + destruct (Hf id e1 He1) as [Hcl|(e2 & He2 & Hst2 & Hsl2 & Hrs2)]; [by left|right].
      exists e2. split; [done|]. split; [by etrans|]. split; congruence.
Qed.

Lemma reachable_ok amount sm : reachable amount sm -> session_ok amount sm.
Proof.
  induction 1 as [version escrow cfg group user store opts sm Hg Hb Hc Ho Hn|sm sm' Hr IH Hlt Hs].
  - destruct (NewStateMachine_Inv _ _ _ _ _ _ _ _ _ Hg Hb Hc Ho Hn) as (HI & Hl & Hp & Hf & _ & _ & Hob).
    split; [by rewrite Hl|unfold phase_ok; by rewrite Hp|done].
  - by eapply step_goes.
Qed.

Lemma reachable_total amount sm : reachable amount sm -> totalSlots sm = nslots sm.
Proof.
  induction 1 as [version escrow cfg group user store opts sm Hg Hb Hc Ho Hn|sm sm' Hr IH Hlt Hs].
  - apply ValidateGroup_spec in Hg as [Hlen _]. unfold MaxGroupSize in Hlen. unfold NewStateMachine in Hn.
    destruct store as [st|]; [|done]. destruct (_ <? _); [done|]. injection Hn as <-.
    match goal with |- totalSlots (fold_left _ _ ?x) = _ =>
      assert (totalSlots x = nslots x) as H0' by (cbn; by rewrite u32_small by (unfold is_u32; lia)); revert H0'; generalize x end.
    clear - Ho. induction Ho as [|o opts Ho _ IH]; intros sm0 H0'; [done|]. cbn. apply IH.
    by destruct Ho as [[r ->]|[v ->]].
  - destruct (step_goes _ _ _ (reachable_ok _ _ Hr) Hlt Hs) as (_ & _ & Hi).
    rewrite (nslots_immut _ _ Hi), <- IH. revert Hi. unfold immut. by intros [=].
Qed.

End Reach.

(* ------------------------------------------------------------------ *)
(** ** Properties *)

Section Properties.
Context {Store : Type} `{!InferenceStorage Store} `{!ProtoCodec} `{!ProtoCodecLaws} `{!SigVerifier}.
Abbreviation SM := (StateMachine Store).
Implicit Types (sm : SM).

Lemma ledger_totals amount top sm :
  Inv amount top sm ->
  Balance (state sm) + Fees (state sm) + reserved_total sm + earned_total sm = amount.
Proof.
  intros HI. pose proof (linv_conservation _ _ _ _ (inv_ledger _ _ _ HI)) as Hc.
  unfold abs in Hc. cbn [l_balance l_fees l_live l_hosts] in Hc. by rewrite !msum_fmap in Hc.
Qed.

Lemma closed_iff sm id : id ∈ l_closed (abs sm) <-> is_Some (sealedNonces sm !! id).
Proof. apply elem_of_dom. Qed.

(** C4: Conservation.  In every reachable state of a session the escrow amount
    is split exactly into the free balance, the collected fees, the reservations
    of pending and started inferences and the hosts' earnings, and no part is
    negative; so no 64-bit counter of the state ever wraps around. *)
Theorem session_conservation amount sm :
  reachable amount sm ->
  Balance (state sm) + Fees (state sm) + reserved_total sm + earned_total sm = amount /\
  0 <= Balance (state sm) /\ 0 <= Fees (state sm) /\
  (forall s h, HostStatsMap (state sm) !! s = Some h -> 0 <= Cost h <= amount).
Proof.
  intros Hr. pose proof (reachable_ok _ _ Hr) as [HI _ _]. pose proof (inv_ledger _ _ _ HI) as Hl.
  split; [by eapply ledger_totals|]. split; [apply (linv_balance _ _ _ _ Hl)|]. split; [apply (linv_fees _ _ _ _ Hl)|].
  intros s h Hh. destruct (Inv_host_cost _ _ _ _ _ HI Hh). pose proof (Inv_balance _ _ _ HI).
  pose proof (linv_open_nonneg _ _ _ _ Hl). lia.
Qed.

(** C18: A session that has reached settlement has nothing left open: every
    inference has been sealed, and the escrow amount is exactly what is returned
    to the user, the fees and what the hosts are paid. *)
Theorem settlement_accounts amount sm :
  reachable amount sm -> Phase (state sm) = PhaseSettlement ->
  Inferences (state sm) = ∅ /\ committedEntries sm = ∅ /\
  Balance (state sm) + Fees (state sm) + earned_total sm = amount.
Proof.
  intros Hr Hp. pose proof (reachable_ok _ _ Hr) as [HI Hph _]. unfold phase_ok in Hph. rewrite Hp in Hph.
  destruct Hph as (_ & _ & He). split; [done|]. split; [by rewrite (inv_committed _ _ _ HI), He|].
  pose proof (ledger_totals _ _ _ HI) as Ht. unfold reserved_total in Ht. rewrite He, msum_empty in Ht. lia.
Qed.

(** C12: Applying a diff to a reachable session is total and refines the ledger:
    it never panics (no nil host, no index out of range); it is either rejected,
    which leaves everything but observability rows untouched, or accepted, which
    advances the nonce by one, is a sequence of ledger steps on unbounded
    integers, and returns the root of the new state, equal to the one the diff
    declares if it declares one. *)
Theorem diff_refines_ledger amount sm diff :
  reachable amount sm -> LatestNonce (state sm) + 1 < 2 ^ 32 -> Forall tx_sized (d_Txs diff) ->
  match ApplyDiff diff sm with
  | (sm', Ok root) =>
      d_Nonce diff = LatestNonce (state sm) + 1 /\ LatestNonce (state sm') = d_Nonce diff /\
      rtc (lstep (d_Nonce diff) (slot_of sm)) (abs sm) (abs sm') /\
      computeStateRootLocked (state sm') = Ok root /\ (d_PostStateRoot diff = [] \/ d_PostStateRoot diff = root)
  | (sm', Err e) => e <> GoPanic /\ obs_only sm sm'
  end.
Proof.
  intros Hr Hlt Hsz. pose proof (reachable_ok _ _ Hr) as [HI Hph _]. unfold ApplyDiff, bind.
  pose proof (verify_pure diff sm) as Hv. pose proof (verify_no_panic diff sm) as Hnp.
  destruct (verifyDiffUserSig diff sm) as [? [[]|e]]; cbn in Hv, Hnp; subst; [|split; [congruence|apply obs_only_refl]].
  pose proof (applyCore_wp amount (d_Nonce diff) (d_Txs diff) (d_PostStateRoot diff) sm HI Hph Hlt Hsz) as Hw.
  unfold wp in Hw. destruct (applyCore _ _ _ sm) as [sm' [root|e]]; [|done].
  destruct Hw as [(Hn & Hl & _ & _ & _ & _ & Hs & Hroot) Hpsr]. done.
Qed.

(** C32: The lifecycle of an inference.  Later in the same session a live
    inference is either sealed or still live with the same executor and the same
    reservation, in a status that the lifecycle graph (pending, started,
    finished, challenged, then validated or invalidated; timed out from pending
    or started) reaches from its earlier one. *)
Theorem inference_lifecycle amount sm sm' id r :
  reachable amount sm -> later sm sm' -> Inferences (state sm) !! id = Some r ->
  is_Some (sealedNonces sm' !! id) \/
  exists r', Inferences (state sm') !! id = Some r' /\ rtc status_edge (Status r) (Status r') /\
             ExecutorSlot r' = ExecutorSlot r /\ ReservedCost r' = ReservedCost r.
Proof.
  intros Hr Hl Hid. destruct (later_goes _ _ _ (reachable_ok _ _ Hr) Hl) as (_ & _ & Hf).
  destruct (Hf id _ (abs_live _ _ _ Hid)) as [Hc|(e & He & Hst & Hsl & Hrs)]; [left; by apply closed_iff|right].
  cbn in He. rewrite lookup_fmap in He. destruct (Inferences (state sm') !! id) as [r'|]; [|done].
  injection He as <-. by exists r'.
Qed.

(** Votes are counted once per slot: in a reachable session the valid and
    invalid tallies of an inference together never exceed the group size, so with
    a threshold of at least half the group at most one of the two decisions of
    [applyValidationVote] can ever be taken. *)
Theorem vote_tallies_bounded amount sm id r :
  reachable amount sm -> Inferences (state sm) !! id = Some r ->
  0 <= VotesValid r /\ 0 <= VotesInvalid r /\ VotesValid r + VotesInvalid r <= nslots sm /\
  (nslots sm <= 2 * VoteThreshold (Config (state sm)) ->
   ~ (VoteThreshold (Config (state sm)) < VotesValid r /\ VoteThreshold (Config (state sm)) < VotesInvalid r)).
Proof.
  intros Hr Hid. pose proof (reachable_ok _ _ Hr) as [HI _ _].
  destruct (inv_records _ _ _ HI id r Hid) as [(_ & Hv & Hi & Hsum) _].
  pose proof (voted_weight_le sm (ValidatedBy r) (inv_static _ _ _ HI)). lia.
Qed.

(** The counters of a host are bounded: what it missed and what
    was invalidated together never exceed the nonce of the session, so the 32-bit
    counters do not wrap around. *)
Theorem host_counters_bounded amount sm s h :
  reachable amount sm -> HostStatsMap (state sm) !! s = Some h ->
  0 <= Missed h /\ 0 <= Invalid h /\ Missed h + Invalid h <= LatestNonce (state sm) < 2 ^ 32.
Proof.
  intros Hr Hh. pose proof (reachable_ok _ _ Hr) as [HI _ _]. pose proof (inv_ledger _ _ _ HI) as Hl.
  destruct (linv_hosts _ _ _ _ Hl _ _ (abs_host_lookup _ _ _ Hh)) as (_ & Hm & Hi & _ & Hu).
  pose proof (inv_top _ _ _ HI). pose proof (linv_routed_le _ _ _ _ s Hl ltac:(lia)).
  assert (0 <= msum (unfailed s) (l_live (abs sm))) by (apply msum_nonneg; intros; apply unfailed_nonneg).
  cbn [abs_host h_missed h_invalid] in *. lia.
Qed.

(** C40: Finalization ends on time: a session that is finalizing since nonce [F]
    stays so for the nonces below [F + n] ([n] slots) and is in settlement from
    [F + n] on; while it is active no finalize nonce is set. *)
Theorem finalization_deadline amount sm :
  reachable amount sm ->
  match Phase (state sm) with
  | PhaseActive => FinalizeNonce (state sm) = 0
  | PhaseFinalizing => 0 < FinalizeNonce (state sm) <= LatestNonce (state sm) /\
                       LatestNonce (state sm) < FinalizeNonce (state sm) + nslots sm
  | PhaseSettlement => 0 < FinalizeNonce (state sm) /\ FinalizeNonce (state sm) + nslots sm <= LatestNonce (state sm)
  end.
Proof.
  intros Hr. pose proof (reachable_ok _ _ Hr) as [_ Hph _]. unfold phase_ok in Hph.
  destruct (Phase (state sm)); [done|done|]. by destruct Hph as (? & ? & _).
Qed.

(** The machine's quorum is reachable and any two quorums overlap in more
    than a third of the slots. *)
Theorem quorum_intersection amount sm :
  reachable amount sm ->
  0 < QuorumThreshold sm <= nslots sm /\ 3 * (2 * QuorumThreshold sm - nslots sm) > nslots sm.
Proof.
  intros Hr. pose proof (reachable_ok _ _ Hr) as [HI _ _]. pose proof (group_size sm (inv_static _ _ _ HI)) as Hn.
  unfold QuorumThreshold. rewrite (reachable_total _ _ Hr). rewrite (u32_small (2 * nslots sm)) by (unfold is_u32; lia).
  rewrite u32_small by (unfold is_u32; split; [|apply Z.lt_le_trans with 200; [|lia]]; Z.to_euclidean_division_equations; lia).
  Z.to_euclidean_division_equations; lia.
Qed.

End Properties.
