(* ===== verification/DevshardSealed.v ===== *)
(** Sealed inferences stay sealed, also over recoveries.

    A host or user that restarts makes a new machine and puts the state of its last
    snapshot into it ([RestoreState], called by devshard/user/recover.go and
    devshardd); the table of seal nonces is not part of the snapshot and is empty
    afterwards, so [isDuplicateInferenceID] no longer knows the sealed ids.  That they
    are refused nevertheless is due to the check that an inference is started at the
    nonce of its id, and to nothing else writing to an id that is not live. *)

From S2P Require Import Prelude.
From S2P Require Import GoStd.
From S2P Require Import DevshardTypes.
From S2P Require Import DevshardHash.
From S2P Require Import DevshardMachine.
From S2P Require Import DevshardLedger.
From S2P Require Import DevshardRefine.
From S2P Require Import DevshardInit.
From S2P Require Import DevshardCommit.
From S2P Require Import DevshardSession.
From S2P Require Import DevshardReach.

Open Scope Z_scope.
Open Scope go_scope.

(* ------------------------------------------------------------------ *)
(** ** Definitions *)

Section Defs.
Context {Store : Type} `{!InferenceStorage Store} `{!ProtoCodec} `{!SigVerifier}.
Abbreviation SM := (StateMachine Store).




End Defs.

(* ------------------------------------------------------------------ *)
(** ** What is gone stays gone *)

Section Gone.
Context {Store : Type} `{!InferenceStorage Store} `{!ProtoCodec} `{!SigVerifier}.
Abbreviation SM := (StateMachine Store).
Abbreviation M := (GoM SM DevshardError).
Context (id nonce : Z).













End Gone.

Section Steps.
Context {Store : Type} `{!InferenceStorage Store} `{!ProtoCodec} `{!ProtoCodecLaws} `{!SigVerifier}.
Abbreviation SM := (StateMachine Store).
Implicit Types (sm : SM).









End Steps.
