(* ===== verification/DevshardStorage.v ===== *)
(** The in-memory session store: [devshard/storage] (memory.go, leases.go,
    diff_identity.go, validation_obs.go, validation_obs_rebuild.go,
    session_version.go and the comparison helpers of migrate.go).

    [Memory] is the Go struct: a session per escrow with its diff journal,
    signatures, snapshot and observability rows; validation leases; the escrow
    cache.  Methods thread the store as [GoM Memory StorageError].  The mutex is
    held for a method's whole body, so methods are atomic.  The SQL backends
    implement the same interface and are not modelled. *)

From S2P Require Import Prelude.
From S2P Require Import GoStd.
From S2P Require Import DevshardTypes.
From S2P Require Import DevshardMachine.

Open Scope Z_scope.
Open Scope go_scope.

(* ------------------------------------------------------------------ *)
(** ** Data *)

(** [proto.Equal] on transactions, from [google.golang.org/protobuf]. *)
Class ProtoEqual := { proto_equal : DevshardTx -> DevshardTx -> bool }.
(** It compares messages field by field. *)
Class ProtoEqualLaws `{ProtoEqual} := { proto_equal_spec : forall a b, proto_equal a b = true <-> a = b }.

(** The sentinel errors of interface.go, diff_identity.go and leases.go. *)
Inductive StorageError :=
| ErrSessionNotFound | ErrSessionEpochConflict | ErrSessionVersionRequired | ErrSessionVersionConflict
| ErrSnapshotNotFound | ErrEscrowCacheNotFound | ErrDiffFork | ErrLeaseNotOwned
| ErrDiffNotFound | ErrEmptyEscrowID.

(** [types.DiffRecord] *)
Record DiffRecord := MkDiffRecord {
  dr_Diff : Diff;
  dr_StateHash : list Z;
  dr_Signatures : gmap Z (list Z);
  dr_WarmKeyDelta : gmap Z string;
  dr_CreatedAt : Z
}.
Definition dr_Nonce (r : DiffRecord) : Z := d_Nonce (dr_Diff r).
Definition dr_set_sigs (v : gmap Z (list Z)) (r : DiffRecord) : DiffRecord :=
  MkDiffRecord (dr_Diff r) (dr_StateHash r) v (dr_WarmKeyDelta r) (dr_CreatedAt r).

(** [type SlotValidationObs struct] *)
Record SlotValidationObs := MkObs { so_SlotID : Z; so_Required : Z; so_Completed : Z }.
(** [type ValidationObsEntry struct] *)
Record ValidationObsEntry := MkObsEntry { oe_InferenceID : Z; oe_SlotID : Z }.
#[export] Instance ValidationObsEntry_eq_dec : EqDecision ValidationObsEntry.
Proof. solve_decision. Defined.
(** [type ValidationObsRow struct] *)
Record ValidationObsRow := MkObsRow { or_InferenceID : Z; or_SlotID : Z; or_Required : Z; or_Completed : Z }.
Abbreviation ObsTable := (gmap Z (gmap Z SlotValidationObs)).

(** [type sessionData struct] *)
Record sessionData := MkSession {
  sd_escrowID : string;
  sd_epochID : Z;
  sd_version : string;
  sd_creatorAddr : string;
  sd_config : SessionConfig;
  sd_group : list SlotAssignment;
  sd_balance : Z;
  sd_diffs : list DiffRecord;
  sd_nonceToIndex : gmap Z nat;
  sd_lastFinalized : Z;
  sd_status : string;
  sd_snapshot : option (Z * list Z);
  sd_inferences : gmap Z InferenceRow;
  sd_liveObs : ObsTable;
  sd_sealedObs : ObsTable
}.

(** [type LeaseStatus string] *)
Inductive LeaseStatus := LeaseStatusPending | LeaseStatusSubmitted | LeaseStatusSkipped.
#[export] Instance LeaseStatus_eq_dec : EqDecision LeaseStatus.
Proof. solve_decision. Defined.
(** [type memoryLease struct] *)
Record memoryLease := MkLease {
  ls_epochID : Z; ls_instanceAddr : string; ls_claimedAt : Z; ls_status : LeaseStatus }.

(** [type EscrowCacheInfo struct] *)
Record EscrowCacheInfo := MkCache {
  ec_EscrowID : string; ec_Amount : Z; ec_CreatorAddress : string; ec_AppHash : list Z;
  ec_Slots : list string; ec_TokenPrice : Z; ec_CreateDevshardFee : Z; ec_FeePerNonce : Z;
  ec_InferenceSealGraceNonces : Z; ec_InferenceSealGraceSeconds : Z; ec_AutoSealEveryNNonces : Z;
  ec_ValidationRate : Z; ec_VoteThresholdFactor : Z; ec_EpochID : Z }.

(** [type CreateSessionParams struct] *)
Record CreateSessionParams := MkParams {
  cp_EscrowID : string; cp_EpochID : Z; cp_Version : string; cp_CreatorAddr : string;
  cp_Config : SessionConfig; cp_Group : list SlotAssignment; cp_InitialBalance : Z }.

(** [type SessionMeta struct] *)
Record SessionMeta := MkMeta {
  sm_EscrowID : string; sm_EpochID : Z; sm_Version : string; sm_CreatorAddr : string;
  sm_Config : SessionConfig; sm_Group : list SlotAssignment; sm_InitialBalance : Z;
  sm_LatestNonce : Z; sm_LastFinalized : Z; sm_Status : string }.

(** [type Memory struct] *)
Record Memory := MkMemory {
  sessions : gmap string sessionData;
  validationLeases : gmap string (gmap Z memoryLease);
  escrowCache : gmap string EscrowCacheInfo
}.
(** [func NewMemory() *Memory] *)
Definition NewMemory : Memory := MkMemory ∅ ∅ ∅.

Definition set_sessions (v : gmap string sessionData) (m : Memory) : Memory :=
  MkMemory v (validationLeases m) (escrowCache m).
Definition set_leases (v : gmap string (gmap Z memoryLease)) (m : Memory) : Memory :=
  MkMemory (sessions m) v (escrowCache m).
Definition set_cache (v : gmap string EscrowCacheInfo) (m : Memory) : Memory :=
  MkMemory (sessions m) (validationLeases m) v.

(** Field updates of a session. *)
Definition sd_set_diffs (d : list DiffRecord) (ix : gmap Z nat) (s : sessionData) : sessionData :=
  MkSession (sd_escrowID s) (sd_epochID s) (sd_version s) (sd_creatorAddr s) (sd_config s) (sd_group s)
    (sd_balance s) d ix (sd_lastFinalized s) (sd_status s) (sd_snapshot s) (sd_inferences s)
    (sd_liveObs s) (sd_sealedObs s).
Definition sd_set_lastFinalized (v : Z) (s : sessionData) : sessionData :=
  MkSession (sd_escrowID s) (sd_epochID s) (sd_version s) (sd_creatorAddr s) (sd_config s) (sd_group s)
    (sd_balance s) (sd_diffs s) (sd_nonceToIndex s) v (sd_status s) (sd_snapshot s) (sd_inferences s)
    (sd_liveObs s) (sd_sealedObs s).
Definition sd_set_status (v : string) (s : sessionData) : sessionData :=
  MkSession (sd_escrowID s) (sd_epochID s) (sd_version s) (sd_creatorAddr s) (sd_config s) (sd_group s)
    (sd_balance s) (sd_diffs s) (sd_nonceToIndex s) (sd_lastFinalized s) v (sd_snapshot s)
    (sd_inferences s) (sd_liveObs s) (sd_sealedObs s).
Definition sd_set_snapshot (v : option (Z * list Z)) (s : sessionData) : sessionData :=
  MkSession (sd_escrowID s) (sd_epochID s) (sd_version s) (sd_creatorAddr s) (sd_config s) (sd_group s)
    (sd_balance s) (sd_diffs s) (sd_nonceToIndex s) (sd_lastFinalized s) (sd_status s) v
    (sd_inferences s) (sd_liveObs s) (sd_sealedObs s).
Definition sd_set_inferences (v : gmap Z InferenceRow) (s : sessionData) : sessionData :=
  MkSession (sd_escrowID s) (sd_epochID s) (sd_version s) (sd_creatorAddr s) (sd_config s) (sd_group s)
    (sd_balance s) (sd_diffs s) (sd_nonceToIndex s) (sd_lastFinalized s) (sd_status s) (sd_snapshot s)
    v (sd_liveObs s) (sd_sealedObs s).
Definition sd_set_obs (live sealed : ObsTable) (s : sessionData) : sessionData :=
  MkSession (sd_escrowID s) (sd_epochID s) (sd_version s) (sd_creatorAddr s) (sd_config s) (sd_group s)
    (sd_balance s) (sd_diffs s) (sd_nonceToIndex s) (sd_lastFinalized s) (sd_status s) (sd_snapshot s)
    (sd_inferences s) live sealed.

(* ------------------------------------------------------------------ *)
(** ** Helpers *)

(** [strings.TrimSpace(s) == ""]: the bytes are white-space code points in UTF-8. *)
Fixpoint blank (b : list Z) : bool :=
  match b with
  | [] => true
  | c :: rest =>
      if (c =? 32) || ((9 <=? c) && (c <=? 13)) then blank rest
      else match c, rest with
           | 194, d :: rest' => ((d =? 133) || (d =? 160)) && blank rest'
           | 225, 154 :: 128 :: rest' => blank rest'
           | 226, 128 :: d :: rest' =>
               (((128 <=? d) && (d <=? 138)) || (d =? 168) || (d =? 169) || (d =? 175)) && blank rest'
           | 226, 129 :: 159 :: rest' => blank rest'
           | 227, 128 :: 128 :: rest' => blank rest'
           | _, _ => false
           end
  end.
Definition blank_string (s : string) : bool := blank (string_bytes s).

(** [func requireSessionVersion(version string) (string, error)] *)
Definition requireSessionVersion (version : string) : outcome StorageError string :=
  if blank_string version then Err ErrSessionVersionRequired else Ok version.

(** [func finalizeSessionMeta(meta *SessionMeta) error] *)
Definition finalizeSessionMeta (meta : SessionMeta) : outcome StorageError unit :=
  if blank_string (sm_Version meta) then Err ErrSessionVersionRequired else Ok tt.

(** [func equalWarmKeyDelta(a, b map[uint32]string) bool] *)
Definition equalWarmKeyDelta (a b : gmap Z string) : bool :=
  if negb (size a =? size b)%nat then false
  else forallb (fun '(k, av) => bool_decide (zget "" k b = av)) (map_to_list a).

Section Memory.
Context `{!ProtoEqual}.
Abbreviation M := (GoM Memory StorageError).

(** [func equalTxs(a, b []*types.DevshardTx) bool] *)
Definition equalTxs (a b : list DevshardTx) : bool :=
  if negb (length a =? length b)%nat then false
  else forallb (fun '(x, y) => proto_equal x y) (zip a b).

(** [func checkDiffReplayIdentity(escrowID string, want, have types.DiffRecord) error] *)
Definition checkDiffReplayIdentity (want have : DiffRecord) : outcome StorageError unit :=
  if negb (dr_Nonce want =? dr_Nonce have)
     || negb (bool_decide (d_UserSig (dr_Diff want) = d_UserSig (dr_Diff have)))
     || negb (bool_decide (d_PostStateRoot (dr_Diff want) = d_PostStateRoot (dr_Diff have)))
     || negb (bool_decide (dr_StateHash want = dr_StateHash have))
     || negb (equalWarmKeyDelta (dr_WarmKeyDelta want) (dr_WarmKeyDelta have))
     || negb (equalTxs (d_Txs (dr_Diff want)) (d_Txs (dr_Diff have)))
  then Err ErrDiffFork else Ok tt.

(** [s, ok := m.sessions[escrowID]] and writing through the pointer. *)
Definition session (escrowID : string) : M sessionData :=
  fun m => (m, match sessions m !! escrowID with Some s => Ok s | None => Err ErrSessionNotFound end).
Definition put_session (escrowID : string) (s : sessionData) : M unit :=
  modify (fun m => set_sessions (<[escrowID:=s]> (sessions m)) m).

(* ------------------------------------------------------------------ *)
(** ** Sessions and the diff journal *)

(** [func (m *Memory) CreateSession(params CreateSessionParams) error] *)
Definition CreateSession (p : CreateSessionParams) : M unit :=
  let config := NormalizeSessionConfig (cp_Config p) (Z.of_nat (length (cp_Group p))) in
  fun m =>
    match requireSessionVersion (cp_Version p) with
    | Err e => (m, Err e)
    | Ok requestedVersion =>
        match sessions m !! cp_EscrowID p with
        | Some existing =>
            if negb (sd_epochID existing =? cp_EpochID p) then (m, Err ErrSessionEpochConflict)
            else if negb (bool_decide (sd_version existing = requestedVersion))
            then (m, Err ErrSessionVersionConflict)
            else (m, Ok tt)
        | None =>
            (set_sessions
               (<[cp_EscrowID p :=
                    MkSession (cp_EscrowID p) (cp_EpochID p) requestedVersion (cp_CreatorAddr p) config
                      (cp_Group p) (cp_InitialBalance p) [] ∅ 0 "active" None ∅ ∅ ∅]> (sessions m)) m, Ok tt)
        end
    end.

(** [func (m *Memory) MarkSettled(escrowID string) error] *)
Definition MarkSettled (escrowID : string) : M unit :=
  let* s := session escrowID in put_session escrowID (sd_set_status "settled" s).

(** [func (m *Memory) ListActiveSessions() ([]ActiveSession, error)]; the order of
    the result is the map's iteration order. *)
Definition ListActiveSessions (m : Memory) : list (string * Z) :=
  (fun p => (p.1, sd_epochID p.2)) <$>
    filter (fun p => sd_status p.2 = "active") (map_to_list (sessions m)).

(** [func (m *Memory) AppendDiff(escrowID string, rec types.DiffRecord) error] *)
Definition AppendDiff (escrowID : string) (rec : DiffRecord) : M unit :=
  let* s := session escrowID in
  match sd_nonceToIndex s !! dr_Nonce rec with
  | Some idx =>
      match sd_diffs s !! idx with
      | None => fail ErrDiffNotFound (* index out of range: excluded by [journal_ok] *)
      | Some existing =>
          fun m =>
            match checkDiffReplayIdentity rec existing with
            | Err e => (m, Err e)
            | Ok _ =>
                put_session escrowID
                  (sd_set_diffs
                     (<[idx := dr_set_sigs (dr_Signatures rec ∪ dr_Signatures existing) existing]> (sd_diffs s))
                     (sd_nonceToIndex s) s) m
            end
      end
  | None =>
      put_session escrowID
        (sd_set_diffs (sd_diffs s ++ [rec])
           (<[dr_Nonce rec := length (sd_diffs s)]> (sd_nonceToIndex s)) s)
  end.

(** [func (m *Memory) AppendDiffs(escrowID string, diffs []types.DiffRecord) error] *)
Definition AppendDiffs (escrowID : string) (diffs : list DiffRecord) : M unit :=
  mfold (fun _ rec => AppendDiff escrowID rec) tt diffs.

(** [func (m *Memory) AddSignature(escrowID, nonce, slotID, sig) error] *)
Definition AddSignature (escrowID : string) (nonce slotID : Z) (sig : list Z) : M unit :=
  let* s := session escrowID in
  let* idx := lift_option (sd_nonceToIndex s !! nonce) ErrDiffNotFound in
  let* d := lift_option (sd_diffs s !! idx) ErrDiffNotFound in
  put_session escrowID
    (sd_set_diffs (<[idx := dr_set_sigs (<[slotID := sig]> (dr_Signatures d)) d]> (sd_diffs s))
       (sd_nonceToIndex s) s).

(** [func (m *Memory) GetSessionMeta(escrowID string) (meta, error)] *)
Definition GetSessionMeta (escrowID : string) (m : Memory) : outcome StorageError SessionMeta :=
  match sessions m !! escrowID with
  | None => Err ErrSessionNotFound
  | Some s =>
      let latest := match last (sd_diffs s) with Some d => dr_Nonce d | None => 0 end in
      let meta := MkMeta (sd_escrowID s) (sd_epochID s) (sd_version s) (sd_creatorAddr s) (sd_config s)
                    (sd_group s) (sd_balance s) latest (sd_lastFinalized s) (sd_status s) in
      run! finalizeSessionMeta meta in Ok meta
  end.

(** [func (m *Memory) GetSignatures(escrowID string, nonce uint64) (map[uint32][]byte, error)] *)
Definition GetSignatures (escrowID : string) (nonce : Z) (m : Memory) : outcome StorageError (gmap Z (list Z)) :=
  match sessions m !! escrowID with
  | None => Err ErrSessionNotFound
  | Some s =>
      match sd_nonceToIndex s !! nonce with
      | None => Err ErrDiffNotFound
      | Some idx => match sd_diffs s !! idx with
                    | None => Err ErrDiffNotFound
                    | Some d => Ok (dr_Signatures d)
                    end
      end
  end.

(** [func (m *Memory) MarkFinalized(escrowID string, nonce uint64) error] *)
Definition MarkFinalized (escrowID : string) (nonce : Z) : M unit :=
  let* s := session escrowID in
  if sd_lastFinalized s <? nonce then put_session escrowID (sd_set_lastFinalized nonce s) else ret tt.

(** [func (m *Memory) LastFinalized(escrowID string) (uint64, error)] *)
Definition LastFinalized (escrowID : string) (m : Memory) : outcome StorageError Z :=
  match sessions m !! escrowID with None => Err ErrSessionNotFound | Some s => Ok (sd_lastFinalized s) end.

(** [func (m *Memory) SaveSnapshot(escrowID string, nonce uint64, data []byte) error] *)
Definition SaveSnapshot (escrowID : string) (nonce : Z) (data : list Z) : M unit :=
  let* s := session escrowID in
  match sd_snapshot s with
  | Some (n0, _) => if nonce <? n0 then ret tt
                    else put_session escrowID (sd_set_snapshot (Some (nonce, data)) s)
  | None => put_session escrowID (sd_set_snapshot (Some (nonce, data)) s)
  end.

(** [func (m *Memory) LoadSnapshot(escrowID string) (uint64, []byte, error)] *)
Definition LoadSnapshot (escrowID : string) (m : Memory) : outcome StorageError (Z * list Z) :=
  match sessions m !! escrowID with
  | None => Err ErrSnapshotNotFound
  | Some s => match sd_snapshot s with None => Err ErrSnapshotNotFound | Some p => Ok p end
  end.

(** [func (m *Memory) GetDiffs(escrowID string, fromNonce, toNonce uint64) ([]types.DiffRecord, error)] *)
Definition GetDiffs (escrowID : string) (fromNonce toNonce : Z) (m : Memory)
  : outcome StorageError (list DiffRecord) :=
  match sessions m !! escrowID with
  | None => Err ErrSessionNotFound
  | Some s => Ok (filter (fun d => (negb ((dr_Nonce d <? fromNonce) || (toNonce <? dr_Nonce d))) = true)
                    (sd_diffs s))
  end.

(* ------------------------------------------------------------------ *)
(** ** Sealed inferences and validation observability *)

(** [func (m *Memory) InsertSealedInference(escrowID string, row InferenceRow) error] *)
Definition mem_InsertSealedInference (escrowID : string) (row : InferenceRow) : M unit :=
  let* s := session escrowID in
  put_session escrowID (sd_set_inferences (<[row_InferenceID row := row]> (sd_inferences s)) s).

(** [func (m *Memory) GetSealedInference(escrowID string, inferenceID uint64) (InferenceRow, bool, error)] *)
Definition mem_GetSealedInference (escrowID : string) (inferenceID : Z) (m : Memory)
  : outcome StorageError (option InferenceRow) :=
  match sessions m !! escrowID with
  | None => Err ErrSessionNotFound
  | Some s => Ok (sd_inferences s !! inferenceID)
  end.

(** [func (m *Memory) DeleteSealedInferences(escrowID string) error] *)
Definition mem_DeleteSealedInferences (escrowID : string) : M unit :=
  let* s := session escrowID in put_session escrowID (sd_set_inferences ∅ s).

(** [func (m *Memory) ClearValidationObs(escrowID string) error] *)
Definition ClearValidationObs (escrowID : string) : M unit :=
  let* s := session escrowID in put_session escrowID (sd_set_obs ∅ ∅ s).

(** The closure [put] of [ImportValidationObs]. *)
Definition import_rows (rows : list ValidationObsRow) (dst : ObsTable) : ObsTable :=
  fold_left (fun dst r =>
    <[or_InferenceID r :=
        <[or_SlotID r := MkObs (or_SlotID r) (or_Required r) (or_Completed r)]>
          (zget ∅ (or_InferenceID r) dst)]> dst) rows dst.
(** [func (m *Memory) ImportValidationObs(escrowID string, live, sealed []ValidationObsRow) error] *)
Definition ImportValidationObs (escrowID : string) (live sealed : list ValidationObsRow) : M unit :=
  let* s := session escrowID in
  put_session escrowID (sd_set_obs (import_rows live ∅) (import_rows sealed ∅) s).

(** [func (m *Memory) recordValidationAppliedOnceLockedSession(s, inferenceID, slotID)] *)
Definition record_once (t : ObsTable) (e : ValidationObsEntry) : ObsTable :=
  let bySlot := zget ∅ (oe_InferenceID e) t in
  <[oe_InferenceID e :=
      match bySlot !! oe_SlotID e with
      | Some _ => bySlot
      | None => <[oe_SlotID e := MkObs (oe_SlotID e) 1 1]> bySlot
      end]> t.
(** [func (m *Memory) RecordValidationsAppliedOnce(escrowID string, entries []ValidationObsEntry) error] *)
Definition RecordValidationsAppliedOnce (escrowID : string) (entries : list ValidationObsEntry) : M unit :=
  if bool_decide (entries = []) then ret tt
  else
    let* s := session escrowID in
    put_session escrowID (sd_set_obs (fold_left record_once entries (sd_liveObs s)) (sd_sealedObs s) s).

(** The slot-wise addition of [DrainInferenceValidationObs] and [mergeValidationObsBySlot]. *)
Definition add_obs (acc : gmap Z SlotValidationObs) (slotID : Z) (obs : SlotValidationObs)
  : gmap Z SlotValidationObs :=
  let cur := zget (MkObs 0 0 0) slotID acc in
  <[slotID := MkObs slotID (u32 (so_Required cur + so_Required obs)) (u32 (so_Completed cur + so_Completed obs))]> acc.

(** [func (m *Memory) DrainInferenceValidationObs(escrowID string, inferenceID uint64) error] *)
Definition mem_DrainInferenceValidationObs (escrowID : string) (inferenceID : Z) : M unit :=
  let* s := session escrowID in
  let bySlot := zget ∅ inferenceID (sd_liveObs s) in
  if bool_decide (bySlot = ∅) then ret tt
  else
    let sealed := zget ∅ inferenceID (sd_sealedObs s) in
    let sealed' := fold_left (fun acc '(slotID, obs) => add_obs acc slotID obs) (map_to_list bySlot) sealed in
    put_session escrowID
      (sd_set_obs (delete inferenceID (sd_liveObs s)) (<[inferenceID := sealed']> (sd_sealedObs s)) s).

(** [func flattenInferenceValidationObs(src) []SlotValidationObs]; map iteration order. *)
Definition flattenInferenceValidationObs (src : ObsTable) : list SlotValidationObs :=
  mjoin ((fun p : Z * gmap Z SlotValidationObs => (map_to_list p.2).*2) <$> map_to_list src).

(** [func mergeValidationObsBySlot(lists ...[]SlotValidationObs) []SlotValidationObs] *)
Definition mergeValidationObsBySlot (rows : list SlotValidationObs) : list SlotValidationObs :=
  let bySlot := fold_left (fun acc row => add_obs acc (so_SlotID row) row) rows ∅ in
  (fun id => zget (MkObs 0 0 0) id bySlot) <$> sorted_keys bySlot.

(** [func (m *Memory) GetValidationObservability(escrowID string) ([]SlotValidationObs, error)] *)
Definition GetValidationObservability (escrowID : string) (m : Memory)
  : outcome StorageError (list SlotValidationObs) :=
  match sessions m !! escrowID with
  | None => Err ErrSessionNotFound
  | Some s => Ok (mergeValidationObsBySlot (flattenInferenceValidationObs (sd_liveObs s)
                                            ++ flattenInferenceValidationObs (sd_sealedObs s)))
  end.

(* ------------------------------------------------------------------ *)
(** ** Escrow cache *)

(** [func (m *Memory) PutEscrowCache(info EscrowCacheInfo) error] *)
Definition PutEscrowCache (info : EscrowCacheInfo) : M unit :=
  run* check (negb (bool_decide (ec_EscrowID info = ""))) ErrEmptyEscrowID in
  modify (fun m => set_cache (<[ec_EscrowID info := info]> (escrowCache m)) m).

(** [func (m *Memory) GetEscrowCache(escrowID string) (info, error)] *)
Definition GetEscrowCache (escrowID : string) (m : Memory) : outcome StorageError EscrowCacheInfo :=
  match escrowCache m !! escrowID with Some i => Ok i | None => Err ErrEscrowCacheNotFound end.

(** [func (m *Memory) DeleteEscrowCache(escrowID string) error] *)
Definition DeleteEscrowCache (escrowID : string) : M unit :=
  modify (fun m => set_cache (delete escrowID (escrowCache m)) m).

(* ------------------------------------------------------------------ *)
(** ** Validation leases *)

Definition escrow_leases (escrowID : string) (m : Memory) : gmap Z memoryLease :=
  zget ∅ escrowID (validationLeases m).
Definition put_leases (escrowID : string) (v : gmap Z memoryLease) : M unit :=
  modify (fun m => set_leases (<[escrowID := v]> (validationLeases m)) m).

(** [func (m *Memory) Acquire(ctx, escrowID, inferenceID, epochID, instanceAddr) (bool, error)];
    [now] is [time.Now()]. *)
Definition Acquire (now : Z) (escrowID : string) (inferenceID epochID : Z) (instanceAddr : string) : M bool :=
  fun m =>
    let byInference := escrow_leases escrowID m in
    let m1 := set_leases (<[escrowID := byInference]> (validationLeases m)) m in
    match byInference !! inferenceID with
    | Some _ => (m1, Ok false)
    | None =>
        (set_leases (<[escrowID := <[inferenceID := MkLease epochID instanceAddr now LeaseStatusPending]>
                                     byInference]> (validationLeases m)) m, Ok true)
    end.

(** A pending lease claimed before the cutoff. *)
Definition stale (cutoff : Z) (l : memoryLease) : bool :=
  bool_decide (ls_status l = LeaseStatusPending) && (ls_claimedAt l <? cutoff).

(** [func (m *Memory) AcquireOneStale(ctx, escrowID, instanceAddr, ttl) (uint64, uint64, error)];
    [order] is the order in which the map iteration visits the leases. *)
Definition AcquireOneStale (now ttl : Z) (order : list (Z * memoryLease)) (escrowID instanceAddr : string)
  : M (Z * Z) :=
  fun m =>
    let byInference := escrow_leases escrowID m in
    match list_find (fun p => stale (now - ttl) p.2 = true) order with
    | None => (m, Ok (0, 0))
    | Some (_, (foundID, l)) =>
        (set_leases (<[escrowID := <[foundID := MkLease (ls_epochID l) instanceAddr now (ls_status l)]>
                                     byInference]> (validationLeases m)) m, Ok (foundID, ls_epochID l))
    end.

(** [func (m *Memory) SetResult(ctx, escrowID, inferenceID, status, instanceAddr) error] *)
Definition SetResult (escrowID : string) (inferenceID : Z) (status : LeaseStatus) (instanceAddr : string)
  : M unit :=
  fun m =>
    let byInference := escrow_leases escrowID m in
    match byInference !! inferenceID with
    | None => (m, Err ErrLeaseNotOwned)
    | Some l =>
        if negb (bool_decide (ls_status l = LeaseStatusPending)) || negb (bool_decide (ls_instanceAddr l = instanceAddr))
        then (m, Err ErrLeaseNotOwned)
        else put_leases escrowID
               (<[inferenceID := MkLease (ls_epochID l) (ls_instanceAddr l) (ls_claimedAt l) status]> byInference) m
    end.

(** [func (m *Memory) OwnsPendingLease(ctx, escrowID, inferenceID, instanceAddr) (bool, error)] *)
Definition OwnsPendingLease (escrowID : string) (inferenceID : Z) (instanceAddr : string) (m : Memory) : bool :=
  match escrow_leases escrowID m !! inferenceID with
  | None => false
  | Some l => bool_decide (ls_status l = LeaseStatusPending) && bool_decide (ls_instanceAddr l = instanceAddr)
  end.

(** [func (m *Memory) pruneValidationLeasesBefore(cutoff uint64)]: drops the leases of
    earlier epochs and then the escrows left without any. *)
Definition pruneValidationLeasesBefore (cutoff : Z) (m : Memory) : Memory :=
  set_leases
    (filter (fun p => p.2 <> ∅)
       ((fun byInference : gmap Z memoryLease => filter (fun p => cutoff <= ls_epochID p.2) byInference)
          <$> validationLeases m)) m.

(* ------------------------------------------------------------------ *)
(** ** Pruning *)

(** [func (m *Memory) PruneEpoch(epochID uint64) error] *)
Definition PruneEpoch (epochID : Z) (m : Memory) : Memory :=
  let m1 := set_sessions (filter (fun p => sd_epochID p.2 <> epochID) (sessions m)) m in
  let m2 := pruneValidationLeasesBefore (u64 (epochID + 1)) m1 in
  set_cache (filter (fun p => ec_EpochID p.2 <> epochID) (escrowCache m2)) m2.

(** [func (m *Memory) pruneBefore(cutoff uint64) error] *)
Definition pruneBefore (cutoff : Z) (m : Memory) : Memory :=
  let m1 := set_sessions (filter (fun p => cutoff <= sd_epochID p.2) (sessions m)) m in
  let m2 := pruneValidationLeasesBefore cutoff m1 in
  set_cache (filter (fun p => cutoff <= ec_EpochID p.2) (escrowCache m2)) m2.

(* ------------------------------------------------------------------ *)
(** ** Rebuilding observability from the journal *)

(** [func ValidationObsEntriesFromTxs(txs) []ValidationObsEntry]:
    distinct entries in order of first occurrence. *)
Definition obs_entry (tx : DevshardTx) : option ValidationObsEntry :=
  match tx with
  | Validation v => Some (MkObsEntry (mv_InferenceId v) (mv_ValidatorSlot v))
  | ValidationVote v => Some (MkObsEntry (vv_InferenceId v) (vv_VoterSlot v))
  | _ => None
  end.
Definition ValidationObsEntriesFromTxs (txs : list DevshardTx) : list ValidationObsEntry :=
  fold_left (fun entries tx =>
    match obs_entry tx with
    | Some e => if decide (e ∈ entries) then entries else entries ++ [e]
    | None => entries
    end) txs [].

(** [func RebuildValidationObsFromDiffs(store, escrowID, records, sealedInferenceIDs) error] *)
Definition RebuildValidationObsFromDiffs (escrowID : string) (records : list DiffRecord)
    (sealedInferenceIDs : list Z) : M unit :=
  run* ClearValidationObs escrowID in
  run* mfold (fun _ rec =>
         let entries := ValidationObsEntriesFromTxs (d_Txs (dr_Diff rec)) in
         if bool_decide (entries = []) then ret tt
         else RecordValidationsAppliedOnce escrowID entries) tt records in
  mfold (fun _ id => mem_DrainInferenceValidationObs escrowID id) tt (sort_Z sealedInferenceIDs).

(** [func SealedInferenceIDsSorted(sealedNonces map[uint64]uint64) []uint64] *)
Definition SealedInferenceIDsSorted (sealedNonces : gmap Z Z) : list Z := sorted_keys sealedNonces.

End Memory.

(** The state machine's storage interface, implemented by [Memory]. *)
Definition error_text (e : StorageError) : string :=
  match e with ErrSessionNotFound => "session not found" | _ => "storage error" end.
Definition as_text {A} (r : outcome StorageError A) : outcome string A :=
  match r with Ok a => Ok a | Err e => Err (error_text e) end.
#[export] Instance Memory_storage : InferenceStorage Memory := {
  InsertSealedInference m escrow row :=
    let '(m', r) := mem_InsertSealedInference escrow row m in (m', as_text r);
  GetSealedInference m escrow id := as_text (mem_GetSealedInference escrow id m);
  DeleteSealedInferences m escrow := let '(m', r) := mem_DeleteSealedInferences escrow m in (m', as_text r);
  DrainInferenceValidationObs m escrow id :=
    let '(m', r) := mem_DrainInferenceValidationObs escrow id m in (m', as_text r)
}.

(* ------------------------------------------------------------------ *)
(** ** Invariants *)

(** The nonce index of a journal points at the diff of that nonce, and at every
    diff. *)
Definition journal_ok (s : sessionData) : Prop :=
  forall n i, sd_nonceToIndex s !! n = Some i <-> exists d, sd_diffs s !! i = Some d /\ dr_Nonce d = n.

(** An observability table files each row under its slot, with 32-bit counters. *)
Definition obs_ok (t : ObsTable) : Prop :=
  forall id bySlot slot o, t !! id = Some bySlot -> bySlot !! slot = Some o ->
    so_SlotID o = slot /\ is_u32 (so_Required o) /\ is_u32 (so_Completed o).

Definition session_wf (s : sessionData) : Prop :=
  journal_ok s /\ obs_ok (sd_liveObs s) /\ obs_ok (sd_sealedObs s).
Definition store_ok (m : Memory) : Prop := forall e s, sessions m !! e = Some s -> session_wf s.

(** A row that a backend can hand to [ImportValidationObs]. *)
Definition row_sized (r : ValidationObsRow) : Prop := is_u32 (or_Required r) /\ is_u32 (or_Completed r).

(** Every operation that writes sessions. *)
Inductive mem_step `{!ProtoEqual} : Memory -> Memory -> Prop :=
| M_create p m : mem_step m (CreateSession p m).1
| M_settled e m : mem_step m (MarkSettled e m).1
| M_append e rec m : mem_step m (AppendDiff e rec m).1
| M_sign e n slot sig m : mem_step m (AddSignature e n slot sig m).1
| M_finalized e n m : mem_step m (MarkFinalized e n m).1
| M_snapshot e n data m : mem_step m (SaveSnapshot e n data m).1
| M_insert e row m : mem_step m (mem_InsertSealedInference e row m).1
| M_delete e m : mem_step m (mem_DeleteSealedInferences e m).1
| M_clear e m : mem_step m (ClearValidationObs e m).1
| M_import e live sealed m :
    Forall row_sized live -> Forall row_sized sealed -> mem_step m (ImportValidationObs e live sealed m).1
| M_record e entries m : mem_step m (RecordValidationsAppliedOnce e entries m).1
| M_drain e id m : mem_step m (mem_DrainInferenceValidationObs e id m).1
| M_prune n m : mem_step m (PruneEpoch n m)
| M_prune_before n m : mem_step m (pruneBefore n m).

(** Slot maps: every row under its slot, 32-bit. *)
Definition slots_ok (b : gmap Z SlotValidationObs) : Prop :=
  forall slot o, b !! slot = Some o -> so_SlotID o = slot /\ is_u32 (so_Required o) /\ is_u32 (so_Completed o).
(** The sum of a counter over the rows of a slot, and over a table's cells of it. *)
Definition slot_sum (f : SlotValidationObs -> Z) (slot : Z) (rows : list SlotValidationObs) : Z :=
  lsum (fun o => if so_SlotID o =? slot then f o else 0) rows.
Definition cell (f : SlotValidationObs -> Z) (slot : Z) (b : gmap Z SlotValidationObs) : Z :=
  match b !! slot with Some o => f o | None => 0 end.
Definition table_sum (f : SlotValidationObs -> Z) (slot : Z) (t : ObsTable) : Z :=
  msum (fun _ b => cell f slot b) t.
Definition in_table (slot : Z) (t : ObsTable) : Prop :=
  exists id b, t !! id = Some b /\ is_Some (b !! slot).
(** The counters that are reported. *)
Definition counter (f : SlotValidationObs -> Z) : Prop := f = so_Required \/ f = so_Completed.
(** Without empty addresses the comparison of warm-key maps is equality. *)
Definition no_blank_keys (a : gmap Z string) : Prop := forall k v, a !! k = Some v -> v <> "".
(** What a rebuild computes from the journal: live rows by first application,
    then the sealed ids drained. *)
Definition drain_table (p : ObsTable * ObsTable) (id : Z) : ObsTable * ObsTable :=
  let bySlot := zget ∅ id p.1 in
  if bool_decide (bySlot = ∅) then p
  else (delete id p.1,
        <[id := fold_left (fun acc '(slotID, obs) => add_obs acc slotID obs) (map_to_list bySlot) (zget ∅ id p.2)]> p.2).
Definition rebuilt_obs (records : list DiffRecord) (ids : list Z) : ObsTable * ObsTable :=
  let live := fold_left (fun t rec => fold_left record_once (ValidationObsEntriesFromTxs (d_Txs (dr_Diff rec))) t) records ∅ in
  fold_left drain_table (sort_Z ids) (live, ∅).
(** The store of [m] with the observability tables of session [e] replaced. *)
Definition with_obs (e : string) (s : sessionData) (p : ObsTable * ObsTable) (m : Memory) : Memory :=
  set_sessions (<[e := sd_set_obs p.1 p.2 s]> (sessions m)) m.

(* ------------------------------------------------------------------ *)
(** ** Lemmas *)

Section Lemmas.
Context `{!ProtoEqual}.
Implicit Types (m : Memory) (s : sessionData).

(** A method that looks a session up and writes it back. *)
Lemma session_put_ok e m (f : sessionData -> sessionData) :
  store_ok m -> (forall s, sessions m !! e = Some s -> session_wf s -> session_wf (f s)) ->
  store_ok (bind (session e) (fun s => put_session e (f s)) m).1.
Proof.
  intros Hm Hf. unfold bind, session. destruct (sessions m !! e) as [s|] eqn:Hs; [|done].
  cbn. intros e' s' Hs'. cbn in Hs'. apply lookup_insert_Some in Hs' as [[<- <-]|[_ Hs']]; [by eapply Hf, Hm|by eapply Hm].
Qed.

Lemma put_session_ok e m s : store_ok m -> session_wf s -> store_ok (put_session e s m).1.
Proof. intros Hm Hs e' s' Hs'. cbn in Hs'. apply lookup_insert_Some in Hs' as [[<- <-]|[_ Hs']]; [done|by eapply Hm]. Qed.

Lemma journal_append s rec :
  journal_ok s -> sd_nonceToIndex s !! dr_Nonce rec = None ->
  journal_ok (sd_set_diffs (sd_diffs s ++ [rec]) (<[dr_Nonce rec := length (sd_diffs s)]> (sd_nonceToIndex s)) s).
Proof.
  intros Hj Hnone n i. cbn. rewrite lookup_insert_Some. split.
  - intros [[<- <-]|[Hne Hi]].
    + exists rec. split; [|done]. by rewrite lookup_app_r, Nat.sub_diag by lia.
    + apply Hj in Hi as (d & Hd & Hn). exists d. split; [by apply lookup_app_l_Some|done].
  - intros (d & Hd & Hn). apply lookup_app_Some in Hd as [Hd|[Hge Hd]].
    + right. split; [|apply Hj; by exists d]. intros He. assert (sd_nonceToIndex s !! n = Some i) by (apply Hj; by exists d). congruence.
    + left. apply list_lookup_singleton_Some in Hd as [Hi ->]. split; [done|lia].
Qed.

Lemma journal_update s idx d d' :
  journal_ok s -> sd_diffs s !! idx = Some d -> dr_Nonce d' = dr_Nonce d ->
  journal_ok (sd_set_diffs (<[idx:=d']> (sd_diffs s)) (sd_nonceToIndex s) s).
Proof.
  intros Hj Hd Hn n i. cbn. rewrite (Hj n i). destruct (decide (idx = i)) as [->|Hne].
  - rewrite list_lookup_insert_eq by (by eapply lookup_lt_Some). rewrite Hd. naive_solver.
  - by rewrite list_lookup_insert_ne.
Qed.

Lemma obs_ok_empty : obs_ok ∅.
Proof. intros id bySlot slot o Hid. by rewrite lookup_empty in Hid. Qed.

Lemma obs_ok_insert t id bySlot :
  obs_ok t ->
  (forall slot o, bySlot !! slot = Some o -> so_SlotID o = slot /\ is_u32 (so_Required o) /\ is_u32 (so_Completed o)) ->
  obs_ok (<[id:=bySlot]> t).
Proof. intros Ht Hb id' b' slot o [[<- <-]|[_ Hid]]%lookup_insert_Some; [apply Hb|by eapply Ht]. Qed.

Lemma obs_ok_zget t id slot o :
  obs_ok t -> zget ∅ id t !! slot = Some o -> so_SlotID o = slot /\ is_u32 (so_Required o) /\ is_u32 (so_Completed o).
Proof.
  intros Ht. unfold zget. destruct (t !! id) as [b|] eqn:Hb; cbn; [by eapply Ht|]. by rewrite lookup_empty.
Qed.

Lemma record_once_ok t e : obs_ok t -> obs_ok (record_once t e).
Proof.
  intros Ht. unfold record_once. apply obs_ok_insert; [done|]. intros slot o.
  destruct (zget ∅ (oe_InferenceID e) t !! oe_SlotID e) eqn:He; [by apply obs_ok_zget|].
  intros [[<- <-]|[_ Ho]]%lookup_insert_Some; [cbn; unfold is_u32; lia|by eapply obs_ok_zget].
Qed.

Lemma fold_record_ok t es : obs_ok t -> obs_ok (fold_left record_once es t).
Proof. revert t. induction es as [|e es IH]; intros t Ht; cbn; [done|]. by apply IH, record_once_ok. Qed.

Lemma import_rows_ok rows t : Forall row_sized rows -> obs_ok t -> obs_ok (import_rows rows t).
Proof.
  intros Hr. revert t. induction Hr as [|r rows [Hr1 Hr2] _ IH]; intros t Ht; [done|]. cbn. apply IH.
  apply obs_ok_insert; [done|]. intros slot o [[<- <-]|[_ Ho]]%lookup_insert_Some; [done|by eapply obs_ok_zget].
Qed.

Lemma add_obs_ok acc slot o : slots_ok acc -> slots_ok (add_obs acc slot o).
Proof.
  unfold add_obs. intros Ha slot' o' [[<- <-]|[_ Ho]]%lookup_insert_Some; [cbn; auto using u32_range|by apply Ha].
Qed.

Lemma fold_add_ok l acc :
  slots_ok acc -> slots_ok (fold_left (fun acc '(slotID, obs) => add_obs acc slotID obs) l acc).
Proof. revert acc. induction l as [|[k o] l IH]; intros acc Ha; cbn; [done|]. by apply IH, add_obs_ok. Qed.

Lemma drain_ok e id m : store_ok m -> store_ok (mem_DrainInferenceValidationObs e id m).1.
Proof.
  intros Hm. unfold mem_DrainInferenceValidationObs, bind, session.
  destruct (sessions m !! e) as [s|] eqn:Hs; [|done]. destruct (Hm e s Hs) as (Hj & Hl & Hsl).
  case_bool_decide; [done|]. apply put_session_ok; [done|]. split; [done|]. split; cbn.
  - intros id' b slot o [_ Hid]%lookup_delete_Some. by eapply Hl.
  - apply obs_ok_insert; [done|]. apply fold_add_ok. intros slot o. by apply obs_ok_zget.
Qed.

Lemma append_ok e rec m : store_ok m -> store_ok (AppendDiff e rec m).1.
Proof.
  intros Hm. unfold AppendDiff, bind, session. destruct (sessions m !! e) as [s|] eqn:Hs; [|done].
  destruct (Hm e s Hs) as (Hj & Hl & Hsl).
  destruct (sd_nonceToIndex s !! dr_Nonce rec) as [idx|] eqn:Hi.
  - destruct (sd_diffs s !! idx) as [d|] eqn:Hd; [|done].
    destruct (checkDiffReplayIdentity rec d); [|done]. apply put_session_ok; [done|]. split; [|done].
    by eapply journal_update.
  - apply put_session_ok; [done|]. split; [by apply journal_append|done].
Qed.

Lemma prune_ok (P : string * sessionData -> Prop) `{!forall p, Decision (P p)} m :
  store_ok m -> forall e s, filter P (sessions m) !! e = Some s -> session_wf s.
Proof. intros Hm e s [Hs _]%map_lookup_filter_Some. by eapply Hm. Qed.

Lemma mem_step_ok m m' : store_ok m -> mem_step m m' -> store_ok m'.
Proof.
  intros Hm Hstep. destruct Hstep as [p m|e m|e rec m|e n slot sig m|e n m|e n data m|e row m|e m|e m|e live sealed m Hr1 Hr2|e entries m|e id m|n m|n m].
  - unfold CreateSession. destruct (requireSessionVersion _); [|done]. destruct (sessions m !! _).
    + repeat case_match; done.
    + intros e s Hs. cbn in Hs. apply lookup_insert_Some in Hs as [[<- <-]|[_ Hs]]; [|by eapply Hm].
      split; [|split; apply obs_ok_empty]. intros n i. cbn. rewrite lookup_empty. naive_solver.
  - by apply (session_put_ok e m (sd_set_status "settled")).
  - by apply append_ok.
  - unfold AddSignature, bind, session. destruct (sessions m !! e) as [s|] eqn:Hs; [|done].
    destruct (Hm e s Hs) as (Hj & Hl & Hsl). unfold lift_option.
    destruct (sd_nonceToIndex s !! n) as [idx|]; [|done]. cbn. destruct (sd_diffs s !! idx) as [d|] eqn:Hd; [|done]. cbn.
    apply put_session_ok; [done|]. split; [by eapply journal_update|done].
  - unfold MarkFinalized, bind, session. destruct (sessions m !! e) as [s|] eqn:Hs; [|done].
    destruct (_ <? _); [|done]. apply put_session_ok; [done|]. exact (Hm e s Hs).
  - unfold SaveSnapshot, bind, session. destruct (sessions m !! e) as [s|] eqn:Hs; [|done].
    repeat case_match; try done; apply put_session_ok; try done; exact (Hm e s Hs).
  - by apply (session_put_ok e m (fun s => sd_set_inferences _ s)).
  - by apply (session_put_ok e m (sd_set_inferences ∅)).
  - apply (session_put_ok e m (sd_set_obs ∅ ∅)); [done|]. intros s _ (Hj & _). split; [done|]. split; apply obs_ok_empty.
  - apply (session_put_ok e m (sd_set_obs _ _)); [done|]. intros s _ (Hj & _).
    split; [done|]. split; apply import_rows_ok; try done; apply obs_ok_empty.
  - unfold RecordValidationsAppliedOnce. case_bool_decide; [done|].
    apply (session_put_ok e m (fun s => sd_set_obs _ _ s)); [done|]. intros s _ (Hj & Hl & Hsl).
    split; [done|]. split; [by apply fold_record_ok|done].
  - by apply drain_ok.
  - intros e s Hs. by eapply (prune_ok (fun p => sd_epochID p.2 <> n)).
  - intros e s Hs. by eapply (prune_ok (fun p => n <= sd_epochID p.2)).
Qed.

End Lemmas.

(* ------------------------------------------------------------------ *)
(** ** The diff journal *)

Section Journal.
Context `{!ProtoEqual} `{!ProtoEqualLaws}.
Implicit Types (m : Memory) (s : sessionData).

Lemma equalTxs_spec a b : equalTxs a b = true <-> a = b.
Proof.
  unfold equalTxs. revert b. induction a as [|x a IH]; intros [|y b]; cbn; try done.
  specialize (IH b). cbn in IH. destruct (length a =? length b)%nat eqn:Hl; cbn in *.
  - rewrite andb_true_iff, proto_equal_spec, IH. naive_solver.
  - split; [done|]. intros [= -> ->]. rewrite Nat.eqb_refl in Hl. done.
Qed.

Lemma equalWarmKeyDelta_refl a : equalWarmKeyDelta a a = true.
Proof.
  unfold equalWarmKeyDelta. rewrite Nat.eqb_refl. cbn. apply forallb_forall. intros [k v] Hin.
  apply list_elem_of_In, elem_of_map_to_list in Hin. unfold zget. rewrite Hin. by apply bool_decide_eq_true.
Qed.

Lemma equalWarmKeyDelta_spec a b :
  no_blank_keys a -> equalWarmKeyDelta a b = true <-> a = b.
Proof.
  intros Ha. split; [|intros <-; apply equalWarmKeyDelta_refl]. unfold equalWarmKeyDelta.
  destruct (size a =? size b)%nat eqn:Hsz; [|done]. cbn. intros Hall. apply Nat.eqb_eq in Hsz.
  assert (a ⊆ b) as Hsub.
  { apply map_subseteq_spec. intros k v Hk. rewrite forallb_forall in Hall.
    specialize (Hall (k, v) ltac:(by apply list_elem_of_In, elem_of_map_to_list)). cbn in Hall. boolify.
    unfold zget in Hall. destruct (b !! k) eqn:Hb; cbn in Hall; [by subst|]. by destruct (Ha k v Hk). }
  apply map_subseteq_size_eq in Hsub; [done|lia].
Qed.

Lemma identity_Ok want have :
  checkDiffReplayIdentity want have = Ok tt <->
  dr_Diff want = dr_Diff have /\ dr_StateHash want = dr_StateHash have /\
  equalWarmKeyDelta (dr_WarmKeyDelta want) (dr_WarmKeyDelta have) = true.
Proof.
  unfold checkDiffReplayIdentity, dr_Nonce. destruct want as [[n1 t1 u1 p1] h1 s1 w1 c1], have as [[n2 t2 u2 p2] h2 s2 w2 c2]. cbn.
  destruct (Z.eqb_spec n1 n2); cbn; [|split; [done|naive_solver]].
  case_bool_decide; cbn; [|split; [done|naive_solver]].
  case_bool_decide; cbn; [|split; [done|naive_solver]].
  case_bool_decide; cbn; [|split; [done|naive_solver]].
  destruct (equalWarmKeyDelta w1 w2); cbn; [|split; [done|naive_solver]].
  pose proof (equalTxs_spec t1 t2) as Ht. destruct (equalTxs t1 t2); cbn.
  - split; [|done]. intros _. by rewrite (proj1 Ht eq_refl); subst.
  - split; [done|]. intros (Hd & _). injection Hd as _ Ht2 _ _. apply Ht in Ht2. done.
Qed.

Lemma identity_refl d : checkDiffReplayIdentity d d = Ok tt.
Proof. apply identity_Ok. split; [done|]. split; [done|apply equalWarmKeyDelta_refl]. Qed.

(** In a sound journal exactly one diff has an indexed nonce. *)
Lemma journal_filter s n i d :
  journal_ok s -> sd_diffs s !! i = Some d -> dr_Nonce d = n ->
  filter (fun d => negb ((dr_Nonce d <? n) || (n <? dr_Nonce d)) = true) (sd_diffs s) = [d].
Proof.
  intros Hj Hd Hn. assert (forall k x, sd_diffs s !! k = Some x -> dr_Nonce x = n -> k = i) as Huniq.
  { intros k x Hx Hxn. assert (sd_nonceToIndex s !! n = Some k) by (apply Hj; eauto).
    assert (sd_nonceToIndex s !! n = Some i) by (apply Hj; eauto). congruence. }
  rewrite <- (take_drop_middle _ _ _ Hd), filter_app, filter_cons.
  rewrite decide_True by (rewrite Hn, Z.ltb_irrefl; done).
  assert (forall l, (forall x, x ∈ l -> dr_Nonce x <> n) ->
            filter (fun d => negb ((dr_Nonce d <? n) || (n <? dr_Nonce d)) = true) l = []) as Hnil.
  { intros l Hl. induction l as [|x l IH]; [done|]. rewrite filter_cons, IH by (intros; apply Hl; by right).
    rewrite decide_False; [done|]. intros Hc. apply (Hl x ltac:(left)). boolify. lia. }
  rewrite !Hnil; [done| |].
  - intros x (k & Hk)%list_elem_of_lookup Hxn. rewrite lookup_drop in Hk. apply (Huniq _ _) in Hk; [lia|done].
  - intros x (k & Hk)%list_elem_of_lookup Hxn. apply lookup_take_Some in Hk as [Hk ?]. apply Huniq in Hk; [lia|done].
Qed.

(** What a successful append leaves in the journal. *)
Lemma append_Ok e rec m m' :
  store_ok m -> AppendDiff e rec m = (m', Ok tt) ->
  exists s' i d, sessions m' !! e = Some s' /\ session_wf s' /\ sd_nonceToIndex s' !! dr_Nonce rec = Some i /\
    sd_diffs s' !! i = Some d /\ dr_Nonce d = dr_Nonce rec /\
    dr_Diff d = dr_Diff rec /\ dr_StateHash d = dr_StateHash rec /\
    equalWarmKeyDelta (dr_WarmKeyDelta rec) (dr_WarmKeyDelta d) = true /\
    dr_Signatures rec ⊆ dr_Signatures d.
Proof.
  intros Hm Ha. pose proof (append_ok e rec m Hm) as Hm'. rewrite Ha in Hm'. cbn in Hm'. revert Ha.
  unfold AppendDiff, bind, session. destruct (sessions m !! e) as [s|] eqn:Hs; [|done].
  destruct (Hm e s Hs) as (Hj & Hl & Hsl).
  destruct (sd_nonceToIndex s !! dr_Nonce rec) as [idx|] eqn:Hi.
  - destruct (sd_diffs s !! idx) as [d|] eqn:Hd; [|done].
    destruct (checkDiffReplayIdentity rec d) as [[]|] eqn:Hid; [|done]. intros [= <-].
    apply identity_Ok in Hid as (Hdd & Hh & Hw).
    eexists _, idx, _. split; [apply lookup_insert_eq|]. split; [eapply Hm', lookup_insert_eq|].
    split; [done|]. cbn. rewrite list_lookup_insert_eq by (by eapply lookup_lt_Some). split; [done|].
    unfold dr_Nonce. cbn. rewrite Hdd, Hh. do 4 (split; [done|]). apply map_union_subseteq_l.
  - intros [= <-]. eexists _, (length (sd_diffs s)), rec. split; [apply lookup_insert_eq|].
    split; [eapply Hm', lookup_insert_eq|]. cbn. rewrite lookup_insert_eq. split; [done|].
    rewrite lookup_app_r, Nat.sub_diag by lia. split; [done|]. do 3 (split; [done|]). split; [apply equalWarmKeyDelta_refl|done].
Qed.

Lemma reachable_store_ok m : rtc mem_step NewMemory m -> store_ok m.
Proof.
  intros Hr. assert (store_ok NewMemory) as H0' by (intros e s Hs; cbn in Hs; by rewrite lookup_empty in Hs).
  induction Hr as [|m1 m2 m3 Hs _ IH]; [done|]. apply IH. by eapply mem_step_ok.
Qed.

(** Appending a diff makes it readable: in a store built by the operations, a
    successful [AppendDiff] is followed by [GetDiffs] of that nonce returning one
    record, with the same diff and state hash and at least the same signatures;
    and by appending the same record again succeeding without any change. *)
Theorem append_then_read e rec m m' :
  rtc mem_step NewMemory m -> AppendDiff e rec m = (m', Ok tt) ->
  (exists d, GetDiffs e (dr_Nonce rec) (dr_Nonce rec) m' = Ok [d] /\ dr_Diff d = dr_Diff rec /\
             dr_StateHash d = dr_StateHash rec /\ dr_Signatures rec ⊆ dr_Signatures d) /\
  AppendDiff e rec m' = (m', Ok tt).
Proof.
  intros Hr Ha. pose proof (reachable_store_ok m Hr) as Hm.
  destruct (append_Ok e rec m m' Hm Ha) as (s & i & d & Hs & (Hj & _) & Hi & Hd & Hn & Hdd & Hh & Hw & Hsig).
  split.
  - exists d. unfold GetDiffs. rewrite Hs. split; [|done]. f_equal. by eapply journal_filter.
  - unfold AppendDiff, bind, session. rewrite Hs, Hi, Hd.
    assert (checkDiffReplayIdentity rec d = Ok tt) as -> by (by apply identity_Ok).
    rewrite map_subseteq_union by done. unfold put_session, modify, sd_set_diffs, dr_set_sigs, set_sessions.
    rewrite list_insert_id by (by destruct d). rewrite insert_id by (by destruct s). by destruct m'.
Qed.

(** A fork is detected and refused: appending a different diff, state hash or
    warm-key delta at a nonce that is already in the journal fails with
    [ErrDiffFork] and leaves the store as it was. *)
Theorem fork_refused e rec rec' m m' :
  rtc mem_step NewMemory m -> AppendDiff e rec m = (m', Ok tt) ->
  dr_Nonce rec' = dr_Nonce rec -> no_blank_keys (dr_WarmKeyDelta rec) -> no_blank_keys (dr_WarmKeyDelta rec') ->
  dr_Diff rec' <> dr_Diff rec \/ dr_StateHash rec' <> dr_StateHash rec \/ dr_WarmKeyDelta rec' <> dr_WarmKeyDelta rec ->
  AppendDiff e rec' m' = (m', Err ErrDiffFork).
Proof.
  intros Hr Ha Hnonce Hb Hb' Hdiff. pose proof (reachable_store_ok m Hr) as Hm.
  destruct (append_Ok e rec m m' Hm Ha) as (s & i & d & Hs & (Hj & _) & Hi & Hd & Hn & Hdd & Hh & Hw & Hsig).
  unfold AppendDiff, bind, session. rewrite Hs, Hnonce, Hi, Hd.
  destruct (checkDiffReplayIdentity rec' d) as [[]|err] eqn:Hid.
  - apply identity_Ok in Hid as (H1 & H2 & H3).
    apply equalWarmKeyDelta_spec in H3; [|done]. apply equalWarmKeyDelta_spec in Hw; [|done]. destruct Hdiff as [Hx|[Hx|Hx]]; destruct Hx; congruence.
  - f_equal. unfold checkDiffReplayIdentity in Hid. by destruct (_ || _); [injection Hid as <-|].
Qed.

End Journal.

(* ------------------------------------------------------------------ *)
(** ** Validation observability *)

Section Observability.
Context `{!ProtoEqual}.

Lemma u32_add_l a b : u32 (u32 a + b) = u32 (a + b).
Proof. apply Zplus_mod_idemp_l. Qed.

Lemma add_obs_lookup acc k o slot :
  add_obs acc k o !! slot =
  if k =? slot then Some (MkObs k (u32 (cell so_Required k acc + so_Required o)) (u32 (cell so_Completed k acc + so_Completed o)))
  else acc !! slot.
Proof.
  unfold add_obs, cell, zget. destruct (Z.eqb_spec k slot) as [<-|Hne]; [|by rewrite lookup_insert_ne].
  rewrite lookup_insert_eq. by destruct (acc !! k).
Qed.

(** The merged row of a slot holds the slot's sums, wrapped to 32 bits. *)
Lemma merged_lookup rows slot :
  fold_left (fun acc row => add_obs acc (so_SlotID row) row) rows (∅ : gmap Z SlotValidationObs) !! slot =
  if decide (slot ∈ so_SlotID <$> rows)
  then Some (MkObs slot (u32 (slot_sum so_Required slot rows)) (u32 (slot_sum so_Completed slot rows))) else None.
Proof.
  induction rows as [|row rows IH] using rev_ind; [done|].
  rewrite fold_left_app. cbn [fold_left]. rewrite add_obs_lookup, fmap_app. cbn [fmap list_fmap].
  unfold slot_sum, cell in *. rewrite !lsum_app, !lsum_cons. cbn [lsum foldr].
  destruct (Z.eqb_spec (so_SlotID row) slot) as [Hs|Hne].
  - rewrite Hs, IH. rewrite (decide_True (P := slot ∈ _ ++ _)) by set_solver.
    destruct (decide (slot ∈ so_SlotID <$> rows)) as [Hin|Hout]; cbn [so_Required so_Completed].
    + rewrite !u32_add_l. do 2 f_equal; f_equal; lia.
    + assert (forall f, lsum (fun o => if so_SlotID o =? slot then f o else 0) rows = 0) as H0'.
      { intros f. clear IH. induction rows as [|r rows IHr]; [done|]. rewrite lsum_cons, IHr by set_solver.
        destruct (Z.eqb_spec (so_SlotID r) slot); [|done]. set_solver. }
      rewrite !H0'. do 2 f_equal; f_equal; lia.
  - rewrite IH, !Z.add_0_r.
    destruct (decide (slot ∈ so_SlotID <$> rows)), (decide (slot ∈ (so_SlotID <$> rows) ++ [so_SlotID row])); try done; set_solver.
Qed.

Lemma merge_ext rows1 rows2 :
  (forall slot, slot ∈ so_SlotID <$> rows1 <-> slot ∈ so_SlotID <$> rows2) ->
  (forall slot, u32 (slot_sum so_Required slot rows1) = u32 (slot_sum so_Required slot rows2)) ->
  (forall slot, u32 (slot_sum so_Completed slot rows1) = u32 (slot_sum so_Completed slot rows2)) ->
  mergeValidationObsBySlot rows1 = mergeValidationObsBySlot rows2.
Proof.
  intros Hs Hr Hc. unfold mergeValidationObsBySlot.
  assert (fold_left (fun acc row => add_obs acc (so_SlotID row) row) rows1 (∅ : gmap Z SlotValidationObs) =
          fold_left (fun acc row => add_obs acc (so_SlotID row) row) rows2 (∅ : gmap Z SlotValidationObs)) as ->; [|done].
  apply map_eq. intros slot. rewrite !merged_lookup, Hr, Hc.
  destruct (decide (slot ∈ so_SlotID <$> rows1)), (decide (slot ∈ so_SlotID <$> rows2)); try done; naive_solver.
Qed.

Lemma slots_sum f slot b :
  slots_ok b -> slot_sum f slot (map_to_list b).*2 = cell f slot b.
Proof.
  unfold cell, slots_ok, slot_sum. induction b as [|k o b Hk IH] using map_ind; intros Hb.
  - by rewrite map_to_list_empty, lookup_empty.
  - rewrite map_to_list_insert by done. cbn [fmap list_fmap snd]. rewrite lsum_cons.
    destruct (Hb k o (lookup_insert_eq _ _ _)) as [Hko _]. rewrite Hko, IH.
    + destruct (Z.eqb_spec k slot) as [->|Hne]; [by rewrite lookup_insert_eq, Hk, Z.add_0_r|by rewrite lookup_insert_ne].
    + intros s o' Ho. apply Hb. rewrite lookup_insert_ne; [done|]. intros ->. congruence.
Qed.

Lemma obs_ok_slots t id b : obs_ok t -> t !! id = Some b -> slots_ok b.
Proof. intros Ht Hid slot o. by eapply Ht. Qed.

Lemma flatten_sum f slot t : obs_ok t -> slot_sum f slot (flattenInferenceValidationObs t) = table_sum f slot t.
Proof.
  intros Ht. unfold flattenInferenceValidationObs, table_sum, slot_sum. rewrite lsum_join, lsum_fmap, msum_map_to_list.
  apply lsum_ext. intros [id b] Hb%elem_of_map_to_list. by apply slots_sum, (obs_ok_slots t id).
Qed.

Lemma flatten_slots slot t : obs_ok t -> slot ∈ so_SlotID <$> flattenInferenceValidationObs t <-> in_table slot t.
Proof.
  intros Ht. unfold flattenInferenceValidationObs, in_table. rewrite list_elem_of_fmap. split.
  - intros (o & -> & Ho). apply list_elem_of_join in Ho as (l & Ho & Hl).
    apply list_elem_of_fmap in Hl as ([id b] & -> & Hb). apply elem_of_map_to_list in Hb. cbn in Ho.
    apply list_elem_of_fmap in Ho as ([k o'] & -> & Hk). apply elem_of_map_to_list in Hk. cbn.
    exists id, b. split; [done|]. destruct (Ht id b k o' Hb Hk) as [-> _]. eauto.
  - intros (id & b & Hb & [o Ho]). exists o. destruct (Ht id b slot o Hb Ho) as [-> _]. split; [done|].
    apply list_elem_of_join. exists (map_to_list b).*2. split.
    + apply list_elem_of_fmap. exists (slot, o). split; [done|]. by apply elem_of_map_to_list.
    + apply list_elem_of_fmap. exists (id, b). split; [done|]. by apply elem_of_map_to_list.
Qed.

(** Adding a slot map to another, cell by cell. *)
Lemma fold_add_lookup b acc slot :
  fold_left (fun acc '(slotID, obs) => add_obs acc slotID obs) (map_to_list b) acc !! slot =
  match b !! slot with
  | Some o => Some (MkObs slot (u32 (cell so_Required slot acc + so_Required o)) (u32 (cell so_Completed slot acc + so_Completed o)))
  | None => acc !! slot
  end.
Proof.
  pose proof (NoDup_fst_map_to_list b) as Hnd.
  assert (forall o, (slot, o) ∈ map_to_list b <-> b !! slot = Some o) as Hin by (intros; apply elem_of_map_to_list).
  revert Hnd Hin. generalize (b !! slot) as c. generalize (map_to_list b) as l. clear b.
  intros l. revert acc. induction l as [|[k o] l IH]; intros acc c Hnd Hin.
  - destruct c as [o|]; [|done]. by destruct (not_elem_of_nil _ (proj2 (Hin o) eq_refl)).
  - cbn [fold_left]. cbn in Hnd. apply NoDup_cons in Hnd as [Hk Hnd].
    destruct (decide (k = slot)) as [->|Hne].
    + assert (c = Some o) as -> by (apply Hin; left).
      rewrite (IH _ None Hnd); [by rewrite add_obs_lookup, Z.eqb_refl|].
      intros o'. split; [|done]. intros Ho. destruct Hk. apply list_elem_of_fmap. by exists (slot, o').
    + rewrite (IH _ c Hnd).
      * unfold cell. by rewrite add_obs_lookup, (proj2 (Z.eqb_neq k slot)).
      * intros o'. rewrite <- Hin, elem_of_cons. naive_solver.
Qed.

Lemma drained_cell f slot b sealed :
  counter f ->
  u32 (cell f slot (fold_left (fun acc '(slotID, obs) => add_obs acc slotID obs) (map_to_list b) sealed)) =
  u32 (cell f slot b + cell f slot sealed).
Proof.
  intros Hf. unfold cell at 1 2. rewrite fold_add_lookup. destruct (b !! slot) as [o|].
  - destruct Hf as [-> | ->]; cbn; rewrite (Z.add_comm (_ o)); apply Zmod_mod.
  - by rewrite Z.add_0_l.
Qed.

Lemma table_sum_delete f slot id t : table_sum f slot (delete id t) = table_sum f slot t - cell f slot (zget ∅ id t).
Proof.
  unfold table_sum, zget. destruct (t !! id) as [b|] eqn:Hb; cbn [from_option Datatypes.id].
  - by rewrite (msum_delete _ _ _ _ Hb).
  - rewrite delete_id by done. assert (cell f slot ∅ = 0) as -> by (unfold cell; by rewrite lookup_empty). lia.
Qed.

Lemma table_sum_insert f slot id b t :
  table_sum f slot (<[id:=b]> t) = table_sum f slot t - cell f slot (zget ∅ id t) + cell f slot b.
Proof.
  rewrite <- insert_delete_eq. unfold table_sum at 1. rewrite msum_insert by apply lookup_delete_eq.
  fold (table_sum f slot (delete id t)). rewrite table_sum_delete. lia.
Qed.

Lemma slot_sum_app f slot l1 l2 : slot_sum f slot (l1 ++ l2) = slot_sum f slot l1 + slot_sum f slot l2.
Proof. apply lsum_app. Qed.

Lemma u32_exchange x y c d k : u32 k = u32 (c + d) -> u32 (x - c + (y - d + k)) = u32 (x + y).
Proof.
  unfold u32. intros Hk. replace (x - c + (y - d + k)) with (x + y - (c + d) + k) by lia.
  rewrite <- Zplus_mod_idemp_r, Hk, Zplus_mod_idemp_r. f_equal. lia.
Qed.

Lemma drained_slots live sealed id slot :
  in_table slot (delete id live) \/
  in_table slot (<[id := fold_left (fun acc '(slotID, obs) => add_obs acc slotID obs)
                            (map_to_list (zget ∅ id live)) (zget ∅ id sealed)]> sealed) <->
  in_table slot live \/ in_table slot sealed.
Proof.
  set (s' := fold_left _ _ _).
  assert (is_Some (s' !! slot) <-> is_Some (zget ∅ id live !! slot) \/ is_Some (zget ∅ id sealed !! slot)) as Hs'.
  { unfold s'. rewrite fold_add_lookup. destruct (zget ∅ id live !! slot); naive_solver. }
  assert (forall t : ObsTable, is_Some (zget ∅ id t !! slot) <-> exists b, t !! id = Some b /\ is_Some (b !! slot)) as Hz.
  { intros t. unfold zget. destruct (t !! id) as [b|]; cbn; [naive_solver|]. rewrite lookup_empty. split; [by intros []|naive_solver]. }
  rewrite !Hz in Hs'. unfold in_table. split.
  - intros [(k & b & [_ Hk]%lookup_delete_Some & Hb)|(k & b & Hk & Hb)]; [left; eauto|].
    apply lookup_insert_Some in Hk as [[<- <-]|[_ Hk]]; [|right; eauto]. apply Hs' in Hb as [(b & ? & ?)|(b & ? & ?)]; eauto.
  - intros [(k & b & Hk & Hb)|(k & b & Hk & Hb)]; destruct (decide (id = k)) as [->|Hne].
    + right. exists k, s'. rewrite lookup_insert_eq. split; [done|]. apply Hs'. left. eauto.
    + left. exists k, b. by rewrite lookup_delete_ne.
    + right. exists k, s'. rewrite lookup_insert_eq. split; [done|]. apply Hs'. right. eauto.
    + right. exists k, b. by rewrite lookup_insert_ne.
Qed.

(** Draining an inference's validation counters into the sealed table changes
    nothing that is reported: [GetValidationObservability] returns the same rows
    before and after [DrainInferenceValidationObs], and so before and after an
    inference is sealed. *)
Theorem drain_preserves_observability e id m :
  rtc mem_step NewMemory m ->
  GetValidationObservability e (mem_DrainInferenceValidationObs e id m).1 = GetValidationObservability e m.
Proof.
  intros Hr. pose proof (reachable_store_ok m Hr) as Hm.
  unfold mem_DrainInferenceValidationObs, bind, session. unfold GetValidationObservability at 2.
  destruct (sessions m !! e) as [s|] eqn:Hs; [|unfold GetValidationObservability; cbn; by rewrite Hs].
  pose proof (drain_ok e id m Hm) as Hm'. unfold mem_DrainInferenceValidationObs, bind, session in Hm'. rewrite Hs in Hm'.
  destruct (Hm e s Hs) as (_ & Hl & Hsl). case_bool_decide as Hempty.
  - unfold GetValidationObservability. cbn. by rewrite Hs.
  - cbn in Hm'. destruct (Hm' e _ (lookup_insert_eq _ _ _)) as (_ & Hl' & Hsl').
    unfold GetValidationObservability. cbn [put_session modify fst set_sessions sessions]. rewrite lookup_insert_eq.
    f_equal. cbn [sd_set_obs sd_liveObs sd_sealedObs] in *.
    set (b := zget ∅ id (sd_liveObs s)) in *. set (sealed := zget ∅ id (sd_sealedObs s)) in *.
    set (sealed' := fold_left _ _ sealed) in *.
    assert (forall f slot, counter f ->
      u32 (slot_sum f slot (flattenInferenceValidationObs (delete id (sd_liveObs s)) ++
                            flattenInferenceValidationObs (<[id:=sealed']> (sd_sealedObs s)))) =
      u32 (slot_sum f slot (flattenInferenceValidationObs (sd_liveObs s) ++ flattenInferenceValidationObs (sd_sealedObs s)))) as Hsum.
    { intros f slot Hf. rewrite !slot_sum_app, !flatten_sum by done. rewrite table_sum_delete, table_sum_insert.
      by apply u32_exchange, drained_cell. }
    apply merge_ext; [|intros; apply Hsum; by left|intros; apply Hsum; by right].
    intros slot. rewrite !fmap_app, !elem_of_app, !flatten_slots by done.
    by apply drained_slots.
Qed.

End Observability.

(* ------------------------------------------------------------------ *)
(** ** Leases *)

Section Leases.
Implicit Types (m : Memory).

Lemma leases_put e v m : escrow_leases e (set_leases (<[e:=v]> (validationLeases m)) m) = v.
Proof. unfold escrow_leases, zget. cbn. by rewrite lookup_insert_eq. Qed.

Lemma SetResult_owner e id st b m :
  (SetResult e id st b m).2 = Ok tt <-> OwnsPendingLease e id b m = true.
Proof.
  unfold SetResult, OwnsPendingLease. destruct (escrow_leases e m !! id) as [l|]; [|done].
  by destruct (bool_decide (ls_status l = LeaseStatusPending)), (bool_decide (ls_instanceAddr l = b)).
Qed.

(** A validation lease is exclusive: once [Acquire] gives it to an instance,
    no instance can acquire it again, and that instance is the only one whose
    [SetResult] is accepted. *)
Theorem lease_exclusive now e id epoch a m m' :
  Acquire now e id epoch a m = (m', Ok true) ->
  (forall now' epoch' b, (Acquire now' e id epoch' b m').2 = Ok false) /\
  (forall st b, (SetResult e id st b m').2 = Ok tt <-> b = a).
Proof.
  unfold Acquire at 1. destruct (escrow_leases e m !! id) as [l|] eqn:Hl; [done|]. intros [= <-]. split.
  - intros now' epoch' b. unfold Acquire. by rewrite leases_put, lookup_insert_eq.
  - intros st b. rewrite SetResult_owner. unfold OwnsPendingLease. rewrite leases_put, lookup_insert_eq.
    cbn [ls_status ls_instanceAddr]. rewrite (bool_decide_true (LeaseStatusPending = LeaseStatusPending)) by done.
    cbn [andb]. rewrite bool_decide_eq_true. naive_solver.
Qed.

(** Taking over a stale lease: what [AcquireOneStale] hands out was pending and
    older than the time to live; from then on the new owner is the only one that
    can complete it. *)
Theorem stale_takeover now ttl order e b m m' id epoch :
  order ≡ₚ map_to_list (escrow_leases e m) ->
  AcquireOneStale now ttl order e b m = (m', Ok (id, epoch)) ->
  m' = m /\ (id, epoch) = (0, 0) \/
  (exists l, escrow_leases e m !! id = Some l /\ stale (now - ttl) l = true /\ ls_epochID l = epoch /\
             forall st c, (SetResult e id st c m').2 = Ok tt <-> c = b).
Proof.
  intros Ho. unfold AcquireOneStale. destruct (list_find _ order) as [[i [k l]]|] eqn:Hf; [|naive_solver].
  intros [= <- <- <-]. right. apply list_find_Some in Hf as (Hi & Hst & _). cbn [snd] in Hst. exists l.
  assert (escrow_leases e m !! k = Some l) as Hk.
  { apply elem_of_map_to_list. rewrite <- Ho. by eapply list_elem_of_lookup_2. }
  split; [done|]. split; [done|]. split; [done|]. intros st c. rewrite SetResult_owner. unfold OwnsPendingLease.
  rewrite leases_put, lookup_insert_eq. cbn [ls_status ls_instanceAddr].
  unfold stale in Hst. apply andb_true_iff in Hst as [Hp _]. rewrite Hp. cbn [andb]. rewrite bool_decide_eq_true. naive_solver.
Qed.

(** A validation is reported once: after a lease was completed it can neither
    be completed again, nor acquired again, nor taken over as stale. *)
Theorem lease_completed_once e id st a m m' :
  st <> LeaseStatusPending -> SetResult e id st a m = (m', Ok tt) ->
  (forall st' b, (SetResult e id st' b m').2 = Err ErrLeaseNotOwned) /\
  (forall now epoch b, (Acquire now e id epoch b m').2 = Ok false) /\
  (forall now ttl order b id' epoch m2, order ≡ₚ map_to_list (escrow_leases e m') -> id <> 0 ->
     AcquireOneStale now ttl order e b m' = (m2, Ok (id', epoch)) -> id' <> id).
Proof.
  intros Hst. unfold SetResult at 1. destruct (escrow_leases e m !! id) as [l|] eqn:Hl; [|done].
  destruct (_ || _); [done|]. intros [= <-]. split; [|split].
  - intros st' b. unfold SetResult. rewrite leases_put, lookup_insert_eq. cbn.
    by rewrite (bool_decide_false (st = LeaseStatusPending)).
  - intros now epoch b. unfold Acquire. by rewrite leases_put, lookup_insert_eq.
  - intros now ttl order b id' epoch m2 Ho Hid. unfold AcquireOneStale.
    destruct (list_find _ order) as [[i [k l']]|] eqn:Hf; [|naive_solver]. intros [= _ <- _] ->.
    apply list_find_Some in Hf as (Hi & Hs & _). apply list_elem_of_lookup_2 in Hi. rewrite Ho, leases_put in Hi.
    apply elem_of_map_to_list in Hi. rewrite lookup_insert_eq in Hi. injection Hi as <-. unfold stale in Hs. cbn in Hs.
    by rewrite (bool_decide_false (st = LeaseStatusPending)) in Hs.
Qed.

End Leases.

(* ------------------------------------------------------------------ *)
(** ** Rebuilding *)

Section Rebuild.
Context `{!ProtoEqual}.

Lemma set_obs_set_obs l1 s1 l2 s2 s : sd_set_obs l1 s1 (sd_set_obs l2 s2 s) = sd_set_obs l1 s1 s.
Proof. done. Qed.

Lemma set_sessions_twice e s1 s2 m :
  set_sessions (<[e:=s1]> (sessions (set_sessions (<[e:=s2]> (sessions m)) m))) (set_sessions (<[e:=s2]> (sessions m)) m)
  = set_sessions (<[e:=s1]> (sessions m)) m.
Proof. unfold set_sessions. cbn. by rewrite insert_insert_eq. Qed.

Lemma record_with_obs e s p m es :
  RecordValidationsAppliedOnce e es (with_obs e s p m) = (with_obs e s (fold_left record_once es p.1, p.2) m, Ok tt).
Proof.
  unfold RecordValidationsAppliedOnce. case_bool_decide as Hes.
  - subst. unfold ret. by destruct p.
  - unfold bind, session, with_obs at 1. cbn [sessions set_sessions]. rewrite lookup_insert_eq.
    unfold put_session, modify. f_equal. unfold with_obs. by rewrite set_sessions_twice.
Qed.

Lemma drain_with_obs e s p m id :
  mem_DrainInferenceValidationObs e id (with_obs e s p m) = (with_obs e s (drain_table p id) m, Ok tt).
Proof.
  unfold mem_DrainInferenceValidationObs, bind, session, with_obs at 1. cbn [sessions set_sessions]. rewrite lookup_insert_eq.
  unfold drain_table. cbn [sd_liveObs sd_sealedObs sd_set_obs]. case_bool_decide; [done|].
  unfold put_session, modify. f_equal. unfold with_obs. by rewrite set_sessions_twice.
Qed.

(** Rebuilding observability from the diff journal is deterministic and
    idempotent: the two tables it leaves depend only on the journal and on the
    sealed ids, whatever was there before, and nothing else in the store changes. *)
Theorem rebuild_from_journal e records ids m s :
  sessions m !! e = Some s ->
  RebuildValidationObsFromDiffs e records ids m = (with_obs e s (rebuilt_obs records ids) m, Ok tt).
Proof.
  intros Hs. unfold RebuildValidationObsFromDiffs, bind.
  assert (ClearValidationObs e m = (with_obs e s (∅, ∅) m, Ok tt)) as ->.
  { unfold ClearValidationObs, bind, session. by rewrite Hs. }
  assert (forall recs p, mfold (fun _ rec => let entries := ValidationObsEntriesFromTxs (d_Txs (dr_Diff rec)) in
            if bool_decide (entries = []) then ret tt else RecordValidationsAppliedOnce e entries) tt recs (with_obs e s p m)
          = (with_obs e s (fold_left (fun t rec => fold_left record_once (ValidationObsEntriesFromTxs (d_Txs (dr_Diff rec))) t) recs p.1, p.2) m, Ok tt)) as Hrec.
  { induction recs as [|r recs IH]; intros p; [by destruct p|]. cbn [mfold fold_left]. unfold bind. cbv zeta.
    case_bool_decide as He.
    - unfold ret at 1. rewrite IH. by rewrite He.
    - rewrite record_with_obs. rewrite IH. done. }
  rewrite Hrec. unfold rebuilt_obs. cbn [fst snd]. generalize (sort_Z ids) as l.
  generalize (fold_left (fun t rec => fold_left record_once (ValidationObsEntriesFromTxs (d_Txs (dr_Diff rec))) t) records (∅ : ObsTable), ∅ : ObsTable) as p.
  intros p l. revert p. induction l as [|id l IH]; intros p; [done|]. cbn [mfold fold_left]. unfold bind.
  rewrite drain_with_obs. apply IH.
Qed.

End Rebuild.
