(* ===== verification/DevshardSampling.v ===== *)
(** Validation sampling of a devshard session: [devshard/state/validation.go].

    Which finished inferences a validator must check is drawn from its seed with
    integer arithmetic only.  The theorems say that the 64-bit and 128-bit
    arithmetic never overflows or panics, and that the draw is exactly the
    rational comparison that the comments of the file describe. *)

From stdpp Require Import pretty.
From S2P Require Import Prelude.
From S2P Require Import GoStd.
From S2P Require Import DevshardTypes.

Open Scope Z_scope.
Open Scope go_scope.

(* ------------------------------------------------------------------ *)
(** ** validation.go *)

(** [func DeriveSeed(signature []byte) (int64, error)] *)
Definition DeriveSeed (signature : list Z) : outcome DevshardError Z :=
  if (length signature <? 8)%nat then Err ErrSeedTooShort
  else
    let raw := be_value (take 8 signature) in
    let seed := i64 (Z.land raw (Z.shiftl 1 63 - 1)) in
    Ok (if seed =? 0 then 1 else seed).

(** [func deterministicHash(seed int64, inferenceID uint64) uint64]; the decimal
    rendering of [fmt.Sprintf("%d:%d", ..)] is stdpp's [pretty]. *)
Definition hash_input (seed inferenceID : Z) : list Z :=
  string_bytes (pretty seed +:+ ":" +:+ pretty inferenceID).
Definition deterministicHash (seed inferenceID : Z) : Z :=
  be_value (take 8 (Sum256 (hash_input seed inferenceID))).

(** [func uint64ProbabilityScale32(numerator, denominator uint64) uint64]; [None] is
    the panic of [bits.Div64]. *)
Definition maxP : Z := u64 (Z.shiftl 1 32).
Definition uint64ProbabilityScale32 (numerator denominator : Z) : option Z :=
  if denominator <=? numerator then Some maxP
  else
    let '(hi, lo) := Mul64 numerator (Z.shiftl 1 32) in
    match Div64 hi lo denominator with
    | Some (q, _) => Some q
    | None => None
    end.

(** [func uint32CeilScaledSum32(sumScaled uint64) uint32] *)
Definition uint32CeilScaledSum32 (sumScaled : Z) : Z :=
  u32 (Z.shiftr (u64 (u64 (sumScaled + Z.shiftl 1 32) - 1)) 32).

(** [func penalizePerInferenceScaled32(rateBasisPoints, validatorSlotCount, totalSlotsMinusExecutor uint64) uint64] *)
Definition penalizePerInferenceScaled32 (rateBasisPoints validatorSlotCount totalSlotsMinusExecutor : Z)
  : option Z :=
  uint64ProbabilityScale32 (u64 (rateBasisPoints * validatorSlotCount)) (u64 (10000 * totalSlotsMinusExecutor)).

(** [func ShouldValidate(seed, inferenceID, validatorSlotCount, executorSlotCount, totalSlots, rateBasisPoints) bool] *)
Definition ShouldValidate (seed inferenceID validatorSlotCount executorSlotCount totalSlots rateBasisPoints : Z)
  : option bool :=
  if totalSlots <=? executorSlotCount then Some false
  else
    let numer := u64 (rateBasisPoints * validatorSlotCount) in
    let denom := u64 (u32 (totalSlots - executorSlotCount) * 10000) in
    match uint64ProbabilityScale32 numer denom with
    | None => None
    | Some threshold =>
        let hashInt := deterministicHash seed inferenceID in
        Some (Z.shiftr hashInt 32 <? threshold)
    end.

(* ------------------------------------------------------------------ *)
(** ** Lemmas *)

Lemma maxP_value : maxP = 2 ^ 32.
Proof. reflexivity. Qed.

Lemma be_value_range l : Forall is_u8 l -> 0 <= be_value l < 256 ^ Z.of_nat (length l).
Proof.
  intros Hl. unfold be_value. rewrite <- length_rev. apply Forall_rev in Hl. revert Hl.
  generalize (rev l) as k. clear l. induction 1 as [|b k Hb Hk IH]; [cbn; lia|].
  cbn [length le_value]. unfold is_u8 in Hb. rewrite Nat2Z.inj_succ, Z.pow_succ_r by lia. lia.
Qed.

Lemma deterministicHash_range seed id : is_u64 (deterministicHash seed id).
Proof.
  unfold deterministicHash. pose proof (Sum256_length (hash_input seed id)) as Hl.
  pose proof (be_value_range (take 8 (Sum256 (hash_input seed id))) ltac:(apply Forall_take, Sum256_bytes)) as Hr.
  rewrite length_take, Hl in Hr. exact Hr.
Qed.

(** The scaled quotient is the floor, capped at one. *)
Lemma scale_floor n d :
  is_u64 n -> is_u64 d ->
  uint64ProbabilityScale32 n d = Some (if d <=? n then 2 ^ 32 else n * 2 ^ 32 / d).
Proof.
  unfold is_u64, uint64ProbabilityScale32. intros Hn Hd. destruct (Z.leb_spec d n) as [|Hlt]; [done|].
  unfold Mul64, Div64. change (Z.shiftl 1 32) with (2 ^ 32).
  assert (n * 2 ^ 32 / 2 ^ 64 < d) as Hhi by (apply Z.div_lt_upper_bound; nia).
  rewrite (proj2 (Z.leb_gt _ _) Hhi). do 2 f_equal.
  rewrite (Z.mul_comm (_ / _)), <- Z.div_mod by lia. done.
Qed.

Lemma lt_floor_iff x a b : 0 < b -> x < a / b <-> (x + 1) * b <= a.
Proof.
  intros Hb. split; intros Hx.
  - pose proof (Z.mul_div_le a b Hb). nia.
  - assert (x + 1 <= a / b); [|lia]. apply Z.div_le_lower_bound; nia.
Qed.

(* ------------------------------------------------------------------ *)
(** ** Properties *)

(** A seed derived from any signature of at least eight bytes is a positive
    [int64], and a shorter signature is refused. *)
Theorem seed_positive sig :
  Forall is_u8 sig ->
  match DeriveSeed sig with
  | Ok seed => 0 < seed <= MaxInt64 /\ (8 <= length sig)%nat
  | Err e => e = ErrSeedTooShort /\ (length sig < 8)%nat
  end.
Proof.
  intros Hs. unfold DeriveSeed. destruct (Nat.ltb_spec (length sig) 8) as [Hl|Hl]; [done|].
  set (raw := be_value (take 8 sig)). change (Z.shiftl 1 63 - 1) with (Z.ones 63).
  rewrite Z.land_ones by lia. pose proof (Z.mod_pos_bound raw (2 ^ 63) ltac:(lia)) as Hr.
  rewrite i64_small by (unfold is_i64; lia). unfold MaxInt64. split; [|done].
  destruct (Z.eqb_spec (raw mod 2 ^ 63) 0); lia.
Qed.

(** Sampling is exact.  For 32-bit inputs the decision never panics, and a
    validator must check an inference iff the upper half [x] of its hash, taken
    as the fraction [(x+1)/2^32], is at most the rational probability
    [rate * slots / (10000 * (total - executor))]; with nobody but the executor
    in the group nothing is sampled. *)
Theorem sampling_exact seed id slots exec total rate :
  is_u32 slots -> is_u32 exec -> is_u32 total -> is_u32 rate ->
  exists b, ShouldValidate seed id slots exec total rate = Some b /\
    (b = true <-> exec < total /\
       (Z.shiftr (deterministicHash seed id) 32 + 1) * (10000 * (total - exec)) <= rate * slots * 2 ^ 32).
Proof.
  unfold is_u32. intros Hs He Ht Hr. unfold ShouldValidate. destruct (Z.leb_spec total exec) as [Hle|Hlt].
  { exists false. split; [done|]. split; [done|lia]. }
  rewrite u32_small by (unfold is_u32; lia). rewrite !u64_small by (unfold is_u64; nia).
  rewrite scale_floor by (unfold is_u64; nia). eexists. split; [reflexivity|].
  pose proof (deterministicHash_range seed id) as Hh. unfold is_u64 in Hh.
  rewrite Z.shiftr_div_pow2 by lia. set (x := deterministicHash seed id / 2 ^ 32).
  assert (0 <= x < 2 ^ 32) as Hx by (split; [apply Z.div_pos; lia|apply Z.div_lt_upper_bound; lia]).
  rewrite Z.ltb_lt. destruct (Z.leb_spec ((total - exec) * 10000) (rate * slots)) as [Hge|Hl].
  - split; [intros _; split; [done|nia]|lia].
  - rewrite lt_floor_iff by lia. split; intros H; [split; [done|]|destruct H]; nia.
Qed.

(** The penalty of an unrevealed seed is a probability at 32-bit scale: for
    32-bit inputs with a non-empty rest of the group it never panics, is at most
    one, and rounding up its sum over [n] inferences charges at least that sum and
    less than one check more. *)
Theorem penalty_rounds_up rate slots rest n :
  is_u32 rate -> is_u32 slots -> 0 < rest < 2 ^ 32 -> 0 <= n < 2 ^ 31 ->
  exists p, penalizePerInferenceScaled32 rate slots rest = Some p /\ 0 <= p <= 2 ^ 32 /\
    (p < 2 ^ 32 -> p = rate * slots * 2 ^ 32 / (10000 * rest)) /\
    n * p <= 2 ^ 32 * uint32CeilScaledSum32 (n * p) < n * p + 2 ^ 32.
Proof.
  unfold is_u32, penalizePerInferenceScaled32. intros Hr Hs Hd Hn. rewrite !u64_small by (unfold is_u64; nia).
  rewrite scale_floor by (unfold is_u64; nia). eexists. split; [reflexivity|].
  set (p := if 10000 * rest <=? rate * slots then 2 ^ 32 else rate * slots * 2 ^ 32 / (10000 * rest)). assert (0 <= p <= 2 ^ 32) as Hp.
  { unfold p. destruct (Z.leb_spec (10000 * rest) (rate * slots)) as [|Hl]; [lia|].
    split; [apply Z.div_pos; nia|]. apply Z.div_le_upper_bound; nia. }
  split; [done|]. split; [unfold p; destruct (_ <=? _); lia|].
  assert (0 <= n * p < 2 ^ 63) as Hnp by nia. unfold uint32CeilScaledSum32. change (Z.shiftl 1 32) with (2 ^ 32).
  rewrite (u64_small (n * p + 2 ^ 32)) by (unfold is_u64; lia). rewrite u64_small by (unfold is_u64; lia).
  rewrite Z.shiftr_div_pow2 by lia. pose proof (Z.div_mod (n * p + 2 ^ 32 - 1) (2 ^ 32) ltac:(lia)) as Hdm.
  pose proof (Z.mod_pos_bound (n * p + 2 ^ 32 - 1) (2 ^ 32) ltac:(lia)).
  rewrite u32_small; [lia|]. unfold is_u32. lia.
Qed.
