(* ===== verification/DevshardSettlement.v ===== *)
(** Settlement payloads of a devshard session: [devshard/state/settlement.go].

    [BuildSettlement] packs the final state; [VerifySettlement] recomputes the
    root from the payload and counts signatures, one per owner, each weighing all
    the slots of that owner.  Go ranges over the signature map in an arbitrary
    order: the order is an argument of the model and the theorems hold for every
    order. *)

From S2P Require Import Prelude.
From S2P Require Import GoStd.
From S2P Require Import DevshardTypes.
From S2P Require Import DevshardHash.
From S2P Require Import DevshardMachine.
From S2P Require Import DevshardLedger.
From S2P Require Import DevshardRefine.
From S2P Require Import DevshardInit.
From S2P Require Import DevshardCommit.
From S2P Require Import DevshardSession.
From S2P Require Import DevshardReach.

Open Scope Z_scope.
Open Scope go_scope.

(* ------------------------------------------------------------------ *)
(** ** settlement.go *)

(** [type SettlementPayload struct] *)
Record SettlementPayload := MkPayload {
  sp_EscrowID : string; sp_Version : string; sp_Nonce : Z; sp_Fees : Z; sp_RestHash : list Z;
  sp_HostStats : gmap Z HostStats; sp_Signatures : gmap Z (list Z) }.

Section Settlement.
Context `{!ProtoCodec} `{!SigVerifier}.

(** [func BuildSettlement(escrowID, st, signatures, nonce) (SettlementPayload, error)] *)
Definition BuildSettlement (escrowID : string) (st : EscrowState) (signatures : gmap Z (list Z))
    (nonce : Z) : outcome DevshardError SettlementPayload :=
  let acc := sealedAccBytes32 (SealedAcc st) in
  let! restHash := ComputeRestHashV2 (Balance st) acc (Inferences st) (WarmKeys st) in
  Ok (MkPayload escrowID (StateRootAndProtocolVersion st) nonce (Fees st) restHash
        (HostStatsMap st) signatures).

(** One iteration of the signature loop; the accumulator holds [totalWeight] and
    the owners already [verified]. *)
Definition verify_signature (sigData : list Z) (slotToAddr : gmap Z string)
    (addressSlots : gmap string Z) (warmKeys : option (gmap Z string))
    (acc : Z * gset string) (p : Z * list Z) : outcome DevshardError (Z * gset string) :=
  let '(totalWeight, verified) := acc in
  let '(slotID, sig) := p in
  match RecoverAddress sigData sig with
  | None => Err (ErrWrapped "recover address")
  | Some addr =>
      match slotToAddr !! slotID with
      | None => Err (ErrWrapped "slot not in group")
      | Some coldAddr =>
          run! ocheck (bool_decide (addr = coldAddr) ||
                       match warmKeys with
                       | None => false
                       | Some wk => bool_decide (zget "" slotID wk = addr)
                       end) (ErrWrapped "signer not in group") in
          if bool_decide (coldAddr ∈ verified) then Ok acc
          else Ok (u32 (totalWeight + zget 0 coldAddr addressSlots), {[coldAddr]} ∪ verified)
      end
  end.

(** [func VerifySettlement(payload, group, verifier, warmKeys) ([]byte, error)];
    [order] is the order in which [payload.Signatures] is ranged over. *)
Definition VerifySettlement (payload : SettlementPayload) (order : list (Z * list Z))
    (group : list SlotAssignment) (warmKeys : option (gmap Z string))
  : outcome DevshardError (list Z) :=
  run! ocheck (negb (length group =? 0)%nat) (ErrWrapped "empty group") in
  run! ocheck (negb (bool_decide (sp_Version payload = ""))) (ErrWrapped "empty state_root_and_protocol_version") in
  let! hostStatsHash := computeHostStatsHash (sp_HostStats payload) in
  let stateRoot := ComputeStateRootFromRestHash hostStatsHash (sp_RestHash payload)
                     (sp_Fees payload) PhaseSettlement (sp_Version payload) in
  match Marshal (PStateSignature stateRoot (sp_EscrowID payload) (sp_Nonce payload)) with
  | None => Err (ErrWrapped "marshal signature content")
  | Some sigData =>
      let slotToAddr := build_slotToAddr group in
      let addressSlots := build_addrToSlotCount group in
      let! acc := ofold (verify_signature sigData slotToAddr addressSlots warmKeys) (0, ∅) order in
      let required := u32 (2 * Z.of_nat (length group) / 3 + 1) in
      run! ocheck (negb (acc.1 <? required)) (ErrWrapped "insufficient quorum") in
      Ok stateRoot
  end.

(* ------------------------------------------------------------------ *)
(** ** What a verified payload is *)

(** The signature recovers to the owner of the slot, or to the slot's warm key. *)
Definition signed_for (sigData : list Z) (group : list SlotAssignment)
    (warmKeys : option (gmap Z string)) (p : Z * list Z) : Prop :=
  exists addr cold, RecoverAddress sigData p.2 = Some addr /\
    build_slotToAddr group !! p.1 = Some cold /\
    (addr = cold \/ exists wk, warmKeys = Some wk /\ zget "" p.1 wk = addr).

(** The owners of the slots that signed, and the slots that those owners hold. *)
Definition signers (group : list SlotAssignment) (sigs : list (Z * list Z)) : gset string :=
  list_to_set ((fun p => zget "" p.1 (build_slotToAddr group)) <$> sigs).
Definition slots_of (group : list SlotAssignment) (owners : gset string) : Z :=
  Z.of_nat (length (filter (fun s => ValidatorAddress s ∈ owners) group)).

(** The root that a payload stands for. *)
Definition payload_root (payload : SettlementPayload) : outcome DevshardError (list Z) :=
  let! h := computeHostStatsHash (sp_HostStats payload) in
  Ok (ComputeStateRootFromRestHash h (sp_RestHash payload) (sp_Fees payload) PhaseSettlement (sp_Version payload)).

End Settlement.

(* ------------------------------------------------------------------ *)
(** ** Lemmas *)

Lemma slots_of_add g a V :
  a ∉ V -> slots_of g ({[a]} ∪ V) = Z.of_nat (occurrences g a) + slots_of g V.
Proof.
  intros Ha. unfold slots_of, occurrences. induction g as [|s g IH]; [done|].
  rewrite !filter_cons. destruct (decide (ValidatorAddress s = a)) as [->|Hne].
  - rewrite (decide_True (P := a ∈ {[a]} ∪ V)) by set_solver. rewrite (decide_False (P := a ∈ V)) by done.
    cbn [length]. lia.
  - destruct (decide (ValidatorAddress s ∈ V)) as [Hv|Hv].
    + rewrite decide_True by set_solver. cbn [length]. lia.
    + rewrite decide_False by set_solver. lia.
Qed.

Lemma slots_of_range g V : 0 <= slots_of g V <= Z.of_nat (length g).
Proof. unfold slots_of. pose proof (length_filter (fun s => ValidatorAddress s ∈ V) g). lia. Qed.

Lemma slots_of_empty g : slots_of g ∅ = 0.
Proof. unfold slots_of. induction g as [|s g IH]; [done|]. rewrite filter_cons_False; [done|set_solver]. Qed.

Section Lemmas.
Context `{!ProtoCodec} `{!SigVerifier}.
Context (sigData : list Z) (group : list SlotAssignment) (warmKeys : option (gmap Z string)).
Hypothesis small_group : Z.of_nat (length group) < 2 ^ 31.

Abbreviation verify := (verify_signature sigData (build_slotToAddr group) (build_addrToSlotCount group) warmKeys).

(** One signature: the loop goes on iff it is by the owner or the warm key, and
    the weight stays the number of slots of the owners seen. *)
Lemma verify_one V p :
  match verify (slots_of group V, V) p with
  | Ok acc => signed_for sigData group warmKeys p /\
      let V' := {[zget "" p.1 (build_slotToAddr group)]} ∪ V in acc = (slots_of group V', V')
  | Err _ => ~ signed_for sigData group warmKeys p
  end.
Proof.
  destruct p as [slot sig]. unfold verify_signature, signed_for. cbn [fst snd].
  destruct (RecoverAddress sigData sig) as [addr|]; [|naive_solver].
  destruct (build_slotToAddr group !! slot) as [cold|] eqn:Hc; [|naive_solver].
  assert (zget "" slot (build_slotToAddr group) = cold) as -> by (unfold zget; by rewrite Hc).
  destruct (_ || _) eqn:Hb; cbn [ocheck obind].
  - assert (addr = cold \/ exists wk, warmKeys = Some wk /\ zget "" slot wk = addr) as Hw.
    { apply orb_true_iff in Hb as [Hb|Hb]; [left; by boolify|right]. destruct warmKeys; [|done]. boolify. eauto. }
    destruct (bool_decide (cold ∈ V)) eqn:Hv; boolify; (split; [by eauto 6|]); cbv zeta.
    + by replace ({[cold]} ∪ V) with V by set_solver.
    + rewrite slots_of_add, slotCount_lookup by (done || lia).
      assert (Z.of_nat (occurrences group cold) <= Z.of_nat (length group)) by (apply inj_le, length_filter).
      pose proof (slots_of_range group V). rewrite u32_small by (unfold is_u32; lia). f_equal. lia.
  - intros (a & c & [= <-] & [= <-] & Hw). apply orb_false_iff in Hb as [Hb1 Hb2]. boolify.
    destruct Hw as [->|(wk & -> & Hz)]; [done|]. boolify. done.
Qed.

Lemma verify_all V sigs :
  match ofold verify (slots_of group V, V) sigs with
  | Ok acc => Forall (signed_for sigData group warmKeys) sigs /\ acc.1 = slots_of group (signers group sigs ∪ V)
  | Err _ => ~ Forall (signed_for sigData group warmKeys) sigs
  end.
Proof.
  revert V. induction sigs as [|p sigs IH]; intros V; cbn [ofold].
  - split; [done|]. cbn. f_equal. unfold signers. cbn. set_solver.
  - pose proof (verify_one V p) as H1. destruct (verify (slots_of group V, V) p) as [acc|e]; cbn [obind].
    + destruct H1 as [Hs ->]. specialize (IH ({[zget "" p.1 (build_slotToAddr group)]} ∪ V)).
      destruct (ofold _ _ sigs) as [acc|e].
      * destruct IH as [Hf ->]. split; [by constructor|]. f_equal. unfold signers. cbn [fmap list_fmap list_to_set]. set_solver.
      * intros Hf. apply IH. by inversion Hf.
    + intros Hf. apply H1. by inversion Hf.
Qed.

End Lemmas.

Section Binding.
Context `{!ProtoCodec} `{!ProtoCodecLaws}.

Lemma stats_entries_inj hs1 hs2 : stats_entries hs1 = stats_entries hs2 -> hs1 = hs2.
Proof.
  intros Heq. assert (forall hs id h, hs !! id = Some h <-> stats_proto id h ∈ stats_entries hs) as Hin.
  { intros hs id h. unfold stats_entries. rewrite list_elem_of_fmap. split.
    - intros Hh. exists id. split; [unfold zget; by rewrite Hh|]. apply elem_of_sorted_keys. eauto.
    - intros (id' & Hp & Hk%elem_of_sorted_keys). destruct Hk as [h' Hh]. unfold zget in Hp. rewrite Hh in Hp.
      destruct h, h'. cbn in Hp. injection Hp as -> -> -> -> -> ->. done. }
  apply map_eq. intros id. apply option_eq. intros h. by rewrite !Hin, Heq.
Qed.

(** The statistics that the Go struct can hold. *)
Definition stats_wf (hs : gmap Z HostStats) : Prop := Forall stats_entry_wf (stats_entries hs).

(** Equal digests of host statistics: equal statistics, or a collision between
    their serializations. *)
Lemma host_stats_binding hs1 hs2 h :
  stats_wf hs1 -> stats_wf hs2 -> computeHostStatsHash hs1 = Ok h -> computeHostStatsHash hs2 = Ok h ->
  hs1 = hs2 \/
  exists b1 b2, Marshal (PHostStatsMap (stats_entries hs1)) = Some b1 /\
    Marshal (PHostStatsMap (stats_entries hs2)) = Some b2 /\ sha_collision b1 b2.
Proof.
  unfold computeHostStatsHash. intros Hw1 Hw2 H1 H2.
  destruct (Marshal (PHostStatsMap (stats_entries hs1))) as [b1|] eqn:Hb1; [|done].
  destruct (Marshal (PHostStatsMap (stats_entries hs2))) as [b2|] eqn:Hb2; [|done].
  injection H1 as H1. injection H2 as H2. destruct (Sum256_cases b1 b2) as [->|Hc]; [congruence| |right; eauto].
  left. apply stats_entries_inj. by eapply marshal_stats_inj.
Qed.

Lemma computeHostStatsHash_length hs h : computeHostStatsHash hs = Ok h -> length h = 32%nat.
Proof. unfold computeHostStatsHash. destruct (Marshal _); [|done]. intros [= <-]. apply Sum256_length. Qed.

(** The preimage of a root determines its parts. *)
Lemma root_preimage_inj h1 h2 r1 r2 f1 f2 p1 p2 v1 v2 :
  length h1 = 32%nat -> length h2 = 32%nat -> is_u64 f1 -> is_u64 f2 ->
  root_preimage h1 r1 f1 p1 v1 = root_preimage h2 r2 f2 p2 v2 ->
  h1 = h2 /\ r1 = r2 /\ f1 = f2 /\ phase_byte p1 = phase_byte p2 /\ ComputeVersionHash v1 = ComputeVersionHash v2.
Proof.
  unfold root_preimage. intros Hh1 Hh2 Hf1 Hf2 Heq. apply app_inj_1 in Heq as [-> Heq]; [|congruence].
  apply app_inj_1 in Heq as [Hf Heq]; [|by unfold be_put_u64; rewrite !be_bytes_length].
  apply app_inj_2 in Heq as [-> Heq]; [|by unfold ComputeVersionHash; rewrite !length_app, !Sum256_length].
  apply app_inj_1 in Heq as [Hv [= Hp]]; [|by unfold ComputeVersionHash; rewrite !Sum256_length].
  split; [done|]. split; [done|]. split; [by apply be_put_u64_inj|done].
Qed.

End Binding.

(* ------------------------------------------------------------------ *)
(** ** Properties *)

Section Properties.
Context {Store : Type} `{!InferenceStorage Store} `{!ProtoCodec} `{!ProtoCodecLaws} `{!SigVerifier}.

(** Settlement verification decided exactly.  For a validated group, and
    whatever the order in which Go ranges over the signature map, a payload is
    accepted with root [root] iff it names a protocol version, [root] is the
    settlement root of its own contents, every signature in it recovers over that
    root to the owner or the warm key of its slot, and the owners who signed hold
    at least [2n/3 + 1] of the [n] slots. *)
Theorem verified_iff payload order group warmKeys root :
  ValidateGroup group = Ok tt -> order ≡ₚ map_to_list (sp_Signatures payload) ->
  VerifySettlement payload order group warmKeys = Ok root <->
  sp_Version payload <> "" /\ payload_root payload = Ok root /\
  exists sigData, Marshal (PStateSignature root (sp_EscrowID payload) (sp_Nonce payload)) = Some sigData /\
    Forall (signed_for sigData group warmKeys) (map_to_list (sp_Signatures payload)) /\
    2 * Z.of_nat (length group) / 3 + 1 <= slots_of group (signers group (map_to_list (sp_Signatures payload))).
Proof.
  intros [Hlen _]%ValidateGroup_spec Hperm. unfold MaxGroupSize in Hlen. unfold VerifySettlement, payload_root.
  rewrite (proj2 (Nat.eqb_neq (length group) 0)) by lia. change (ocheck (negb false) ?e) with (@Ok DevshardError unit tt).
  cbn [obind]. destruct (bool_decide (sp_Version payload = "")) eqn:Hv; boolify; cbn [negb ocheck obind].
  { split; [done|]. by intros [? _]. }
  destruct (computeHostStatsHash (sp_HostStats payload)) as [h|e]; cbn [obind]; [|split; [done|by intros (_ & ? & _)]].
  set (rt := ComputeStateRootFromRestHash _ _ _ _ _). destruct (Marshal (PStateSignature rt _ _)) as [sigData|] eqn:Hm.
  2: { split; [done|]. intros (_ & [= <-] & s & Hs & _). congruence. }
  assert (signers group order = signers group (map_to_list (sp_Signatures payload))) as Hsg.
  { unfold signers. apply leibniz_equiv. by rewrite Hperm. }
  pose proof (verify_all sigData group warmKeys ltac:(lia) ∅ order) as Hall.
  rewrite slots_of_empty in Hall.
  assert (Forall (signed_for sigData group warmKeys) order <-> Forall (signed_for sigData group warmKeys) (map_to_list (sp_Signatures payload))) as Hff by (by rewrite Hperm).
  destruct (ofold _ _ order) as [[w V]|e]; cbn [obind fst] in *.
  - destruct Hall as [Hf ->]. rewrite (right_id_L ∅ (∪)), Hsg.
    rewrite u32_small by (unfold is_u32; Z.to_euclidean_division_equations; lia).
    destruct (Z.ltb_spec (slots_of group (signers group (map_to_list (sp_Signatures payload)))) (2 * Z.of_nat (length group) / 3 + 1)) as [Hq|Hq];
      cbn [negb ocheck obind]; split; try done.
    + intros (_ & _ & s & _ & _ & ?). lia.
    + intros [= <-]. split; [done|]. split; [done|]. exists sigData. by rewrite <- Hff.
    + by intros (_ & [= ->] & _).
  - split; [done|]. intros (_ & [= <-] & s & Hs & Hf & _). rewrite Hm in Hs. injection Hs as <-. by rewrite <- Hff in Hf.
Qed.

(** The root of a verified payload is that of its contents. *)
Lemma verified_root payload order group warmKeys root :
  VerifySettlement payload order group warmKeys = Ok root -> payload_root payload = Ok root.
Proof.
  unfold VerifySettlement, payload_root. intros (_ & _ & (_ & _ & (h & -> & Hv)%obind_Ok)%obind_Ok)%obind_Ok. cbn [obind].
  destruct (Marshal _); [|done]. apply obind_Ok in Hv as (? & _ & Hv). by apply obind_Ok in Hv as (_ & _ & <-).
Qed.

(** What is verified is what the session agreed on.  If the payload built
    from a reachable session verifies, then in the settlement phase the verified
    root is the root of the session's state, and fees and host costs in the
    payload are what the escrow amount leaves after the refund; before the
    settlement phase a payload whose verified root is the session's root would be
    a SHA-256 collision between two preimages that differ in the phase byte. *)
Theorem verified_payload_of_session amount (sm : StateMachine Store) escrowID sigs nonce payload order warmKeys root :
  reachable amount sm -> BuildSettlement escrowID (state sm) sigs nonce = Ok payload ->
  VerifySettlement payload order (Group (state sm)) warmKeys = Ok root ->
  match Phase (state sm) with
  | PhaseSettlement =>
      computeStateRootLocked (state sm) = Ok root /\
      sp_Fees payload + msum (fun _ h => Cost h) (sp_HostStats payload) = amount - Balance (state sm)
  | phase =>
      computeStateRootLocked (state sm) = Ok root ->
      exists h, computeHostStatsHash (sp_HostStats payload) = Ok h /\
        sha_collision (root_preimage h (sp_RestHash payload) (sp_Fees payload) PhaseSettlement (sp_Version payload))
                      (root_preimage h (sp_RestHash payload) (sp_Fees payload) phase (sp_Version payload))
  end.
Proof.
  intros Hr Hb Hv. pose proof (reachable_ok _ _ Hr) as [HI Hph _]. unfold BuildSettlement in Hb.
  apply obind_Ok in Hb as (rest & Hrest & [= <-]).
  assert (exists h, computeHostStatsHash (HostStatsMap (state sm)) = Ok h /\
    root = ComputeStateRootFromRestHash h rest (Fees (state sm)) PhaseSettlement (StateRootAndProtocolVersion (state sm)))
    as (h & Hh & ->).
  { apply verified_root in Hv. unfold payload_root in Hv. apply obind_Ok in Hv as (h & Hh & [= <-]). by exists h. }
  cbn [sp_Fees sp_HostStats sp_RestHash sp_Version]. unfold computeStateRootLocked. rewrite Hh, Hrest. cbn [obind].
  destruct (Phase (state sm)) eqn:Hp.
  1-2: intros Heq%Ok_inj; exists h; split; [done|]; symmetry in Heq; destruct (Sum256_cases _ _ Heq) as [Hpre|Hc]; [|done].
  1-2: exfalso; unfold root_preimage in Hpre; rewrite !app_assoc in Hpre; by apply app_inj_2 in Hpre as [_ [=]].
  split; [done|]. pose proof (ledger_totals _ _ _ HI) as Ht. unfold reserved_total, earned_total in Ht.
  unfold phase_ok in Hph. rewrite Hp in Hph. destruct Hph as (_ & _ & He). rewrite He, msum_empty in Ht. lia.
Qed.

(** C33: A verified root binds its payload.  When two payloads are verified with the same
    root, each by its own group, warm keys and order of its signatures, they have the same
    host statistics, fees, rest hash and version, unless one of three named pairs of byte
    strings collides under SHA-256. *)
Theorem verified_root_binds p1 order1 group1 warmKeys1 p2 order2 group2 warmKeys2 root :
  stats_wf (sp_HostStats p1) -> stats_wf (sp_HostStats p2) -> is_u64 (sp_Fees p1) -> is_u64 (sp_Fees p2) ->
  VerifySettlement p1 order1 group1 warmKeys1 = Ok root -> VerifySettlement p2 order2 group2 warmKeys2 = Ok root ->
  (sp_HostStats p1 = sp_HostStats p2 /\ sp_Fees p1 = sp_Fees p2 /\ sp_RestHash p1 = sp_RestHash p2 /\
   sp_Version p1 = sp_Version p2) \/
  (exists h1 h2, computeHostStatsHash (sp_HostStats p1) = Ok h1 /\ computeHostStatsHash (sp_HostStats p2) = Ok h2 /\
     sha_collision (root_preimage h1 (sp_RestHash p1) (sp_Fees p1) PhaseSettlement (sp_Version p1))
                   (root_preimage h2 (sp_RestHash p2) (sp_Fees p2) PhaseSettlement (sp_Version p2))) \/
  (exists b1 b2, Marshal (PHostStatsMap (stats_entries (sp_HostStats p1))) = Some b1 /\
     Marshal (PHostStatsMap (stats_entries (sp_HostStats p2))) = Some b2 /\ sha_collision b1 b2) \/
  sha_collision (string_bytes (sp_Version p1)) (string_bytes (sp_Version p2)).
Proof.
  intros Hw1 Hw2 Hf1 Hf2 Hr1%verified_root Hr2%verified_root. unfold payload_root in *.
  apply obind_Ok in Hr1 as (h1 & Hh1 & Hr1). apply obind_Ok in Hr2 as (h2 & Hh2 & Hr2).
  apply Ok_inj in Hr1. apply Ok_inj in Hr2. rewrite <- Hr2 in Hr1.
  destruct (Sum256_cases _ _ Hr1) as [Hpre|Hc]; [|by right; left; eauto].
  destruct (root_preimage_inj _ _ _ _ _ _ _ _ _ _ (computeHostStatsHash_length _ _ Hh1)
    (computeHostStatsHash_length _ _ Hh2) Hf1 Hf2 Hpre) as (-> & Hrest & Hfees & _ & Hver).
  destruct (host_stats_binding _ _ _ Hw1 Hw2 Hh1 Hh2) as [Hstats|Hc]; [|by right; right; left].
  destruct (Sum256_cases _ _ Hver) as [Hv%string_bytes_inj|Hc]; [by left|by right; right; right].
Qed.

End Properties.
