(* ===== verification/ChainSettlement.v ===== *)
(** On-chain verification of a devshard settlement:
    [inference-chain/x/inference/keeper/devshard_settlement.go], the address
    recovery of [devshard/signing/secp256k1.go] that produces the signatures, and the way
    of a settlement from its payload to the message: the file that
    [devshard/cmd/devshardctl/main.go] writes and that the command of
    [inference-chain/x/inference/module/commands.go] reads.

    Elliptic-curve recovery, RIPEMD-160 and bech32 are third-party code: the class
    [Secp256k1].  The chain serializes with gogoproto, the session with
    google.golang.org/protobuf: the class [ChainCodec], and the law [same_bytes]
    that the comment of [deterministicMarshal] states.

    The file proves what an accepted settlement is, that the work bound of a slot
    is exactly the number of ids routed to it, and that the settlement of every
    session that follows the protocol is accepted. *)

From stdpp Require Import pretty.
From S2P Require Import Prelude.
From S2P Require Import GoStd.
From S2P Require Import DevshardTypes.
From S2P Require Import DevshardHash.
From S2P Require Import DevshardMachine.
From S2P Require Import DevshardLedger.
From S2P Require Import DevshardRefine.
From S2P Require Import DevshardInit.
From S2P Require Import DevshardCommit.
From S2P Require Import DevshardSession.
From S2P Require Import DevshardReach.
From S2P Require Import DevshardSettlement.

Open Scope Z_scope.
Open Scope go_scope.

(* ------------------------------------------------------------------ *)
(** ** Messages and parameters *)

(** [types.DevshardSettlementHostStats] *)
Record DevshardSettlementHostStats := MkSettlementStats {
  ss_SlotId : Z; ss_Missed : Z; ss_Invalid : Z; ss_Cost : Z;
  ss_RequiredValidations : Z; ss_CompletedValidations : Z }.

(** [types.DevshardSlotSignature] *)
Record DevshardSlotSignature := MkSlotSignature { sg_SlotId : Z; sg_Signature : list Z }.

(** [types.MsgSettleDevshardEscrow] *)
Record MsgSettleDevshardEscrow := MkMsgSettle {
  ms_Settler : string; ms_EscrowId : Z; ms_StateRoot : list Z; ms_Nonce : Z; ms_RestHash : list Z;
  ms_HostStats : list DevshardSettlementHostStats; ms_Signatures : list DevshardSlotSignature;
  ms_Version : string; ms_Fees : Z }.

(** [types.DevshardEscrow] *)
Record DevshardEscrow := MkEscrow {
  de_Id : Z; de_Creator : string; de_Amount : Z; de_Slots : list string; de_EpochIndex : Z;
  de_AppHash : string; de_Settled : bool; de_TokenPrice : Z; de_ModelId : string;
  de_CreateDevshardFee : Z; de_FeePerNonce : Z; de_InferenceSealGraceNonces : Z;
  de_InferenceSealGraceSeconds : Z; de_AutoSealEveryNNonces : Z; de_ValidationRate : Z;
  de_VoteThresholdFactor : Z }.

(** [types.DevshardEscrowParams]; an approved version is its name, [None] a nil entry. *)
Record DevshardEscrowParams := MkEscrowParams {
  ep_MinAmount : Z; ep_MaxAmount : Z; ep_MaxEscrowsPerEpoch : Z; ep_GroupSize : Z;
  ep_AllowedCreatorAddresses : list string; ep_TokenPrice : Z;
  ep_ApprovedVersions : list (option string); ep_MaxNonce : Z;
  ep_DefaultInferenceSealGraceNonces : Z; ep_DefaultInferenceSealGraceSeconds : Z;
  ep_CreateDevshardFee : Z; ep_FeePerNonce : Z; ep_ValidationRate : Z;
  ep_VoteThresholdFactor : Z; ep_DefaultAutoSealEveryNNonces : Z }.

(* ------------------------------------------------------------------ *)
(** ** Interfaces *)

(** gogoproto's [XXX_Marshal(b, deterministic = true)]. *)
Class ChainCodec := { XXX_Marshal : ProtoMsg -> option (list Z) }.

(** [ecdsa.RecoverCompact] (decred; compressed key of the recovered point),
    [crypto.Ecrecover] with [UnmarshalPubkey] and [CompressPubkey] (go-ethereum),
    [ripemd160] of a digest, the bech32 string of address bytes. *)
Class Secp256k1 := {
  RecoverCompact : list Z -> list Z -> option (list Z);
  EcrecoverCompressed : list Z -> list Z -> option (list Z);
  Ripemd160 : list Z -> list Z;
  Bech32 : list Z -> string
}.

(** The two recoveries find the same key; decred takes the recovery byte first
    and shifted by 27, go-ethereum takes it last. *)
Class Secp256k1Laws `{Secp256k1} := {
  recover_agree : forall hash r v, length r = 64%nat -> is_u8 v ->
    EcrecoverCompressed hash (r ++ [v]) = RecoverCompact (u8 (v + 27) :: r) hash
}.

(** Both serializers write the same bytes. *)
Class SameBytes `{ProtoCodec} `{ChainCodec} := { same_bytes : forall m, XXX_Marshal m = Marshal m }.

(* ------------------------------------------------------------------ *)
(** ** devshard_settlement.go *)

Section Settle.
Context `{!ChainCodec} `{!Secp256k1}.

(** [const DevshardSettlementPhase = byte(0x02)] *)
Definition DevshardSettlementPhase : Z := 2.

(** [func validateDevshardSettlementVersionApproved(approved, version) error] *)
Definition validateDevshardSettlementVersionApproved (approved : list (option string)) (version : string)
  : outcome string unit :=
  match approved with
  | [] => Ok tt
  | _ => if existsb (fun v => match v with Some name => bool_decide (name = version) | None => false end) approved
         then Ok tt else Err "settlement version is not listed"
  end.

(** [func DevshardQuorumFor(groupSize int) int] *)
Definition DevshardQuorumFor (groupSize : Z) : Z := 2 * groupSize / 3 + 1.

(** [func devshardAssignedUpperBoundForSlot(latestNonce, slotCount uint64, slotID uint32) (uint64, error)] *)
Definition devshardAssignedUpperBoundForSlot (latestNonce slotCount slotID : Z) : outcome string Z :=
  if slotCount =? 0 then Err "slot count cannot be zero"
  else if slotCount <=? slotID then Err "slot out of range"
  else
    let firstAssignedNonce := if slotID =? 0 then slotCount else slotID in
    if latestNonce <? firstAssignedNonce then Ok 0
    else Ok (u64 (1 + u64 (latestNonce - firstAssignedNonce) / slotCount)).

(** [func ComputeDevshardHostStatsHash(hostStats) ([]byte, error)]: the entries
    sorted (stably) by slot, serialized and hashed. *)
Definition settlement_stats_proto (hs : DevshardSettlementHostStats) : HostStatsProto :=
  MkHostStatsProto (ss_SlotId hs) (ss_Missed hs) (ss_Invalid hs) (ss_Cost hs)
    (ss_RequiredValidations hs) (ss_CompletedValidations hs).
Definition slot_le (a b : HostStatsProto) : Prop := hp_SlotId a <= hp_SlotId b.
#[export] Instance slot_le_dec a b : Decision (slot_le a b).
Proof. unfold slot_le. apply _. Defined.
Definition ComputeDevshardHostStatsHash (hostStats : list DevshardSettlementHostStats)
  : outcome string (list Z) :=
  let entries := merge_sort slot_le (settlement_stats_proto <$> hostStats) in
  match XXX_Marshal (PHostStatsMap entries) with
  | Some data => Ok (Sum256 data)
  | None => Err "marshal host stats"
  end.

(** [func recoverCosmosAddress(hash, sig []byte) (sdk.AccAddress, error)], with the
    [String()] that every caller applies. *)
Definition recoverCosmosAddress (hash sig : list Z) : outcome string string :=
  if negb (length sig =? 65)%nat then Err "signature must be 65 bytes"
  else
    let v := nth 64 sig 0 in
    let dcrdSig := u8 (v + 27) :: take 32 sig ++ take 32 (drop 32 sig) in
    match RecoverCompact dcrdSig hash with
    | None => Err "ecrecover failed"
    | Some pubKey => Ok (Bech32 (Ripemd160 (Sum256 pubKey)))
    end.

(** [type WarmKeyChecker func(granter, grantee string) bool], possibly nil. *)
Definition WarmKeyChecker : Type := option (string -> string -> bool).

(** One iteration of the signature loop: [seenSlots] and [slotVotes]. *)
Definition check_signature (slots : list string) (sigHash : list Z) (isWarmKey : WarmKeyChecker)
    (acc : gset Z * Z) (sig : DevshardSlotSignature) : outcome string (gset Z * Z) :=
  let '(seenSlots, slotVotes) := acc in
  run! ocheck (negb (bool_decide (sg_SlotId sig ∈ seenSlots))) "duplicate signature" in
  match at_index slots (sg_SlotId sig) with
  | None => Err "slot_id out of range"
  | Some expectedAddr =>
      let! recovered := recoverCosmosAddress sigHash (sg_Signature sig) in
      run! ocheck (bool_decide (recovered = expectedAddr) ||
                   match isWarmKey with Some f => f expectedAddr recovered | None => false end)
           "signature recovered another address" in
      Ok ({[sg_SlotId sig]} ∪ seenSlots, slotVotes + 1)
  end.

(** One iteration of the statistics loop: [seenStatSlots] and [totalCost]. *)
Definition check_stats (nonce slotCount : Z) (acc : gset Z * Z) (hs : DevshardSettlementHostStats)
  : outcome string (gset Z * Z) :=
  let '(seenStatSlots, totalCost) := acc in
  run! ocheck (negb (bool_decide (ss_SlotId hs ∈ seenStatSlots))) "duplicate host_stats slot_id" in
  let! assignedToSlot := devshardAssignedUpperBoundForSlot nonce slotCount (ss_SlotId hs) in
  run! ocheck (negb (assignedToSlot <? ss_Missed hs)) "missed count exceeds assigned per slot" in
  let completed := u64 (assignedToSlot - ss_Missed hs) in
  run! ocheck (negb (completed <? ss_Invalid hs)) "invalid count exceeds completed per slot" in
  let '(nextTotalCost, carry) := Add64 totalCost (ss_Cost hs) in
  run! ocheck (carry =? 0) "total cost overflow" in
  Ok ({[ss_SlotId hs]} ∪ seenStatSlots, nextTotalCost).

(** [func VerifyDevshardSettlement(escrow, msg, params, isWarmKey) error] *)
Definition VerifyDevshardSettlement (escrow : DevshardEscrow) (msg : MsgSettleDevshardEscrow)
    (params : option DevshardEscrowParams) (isWarmKey : WarmKeyChecker) : outcome string unit :=
  match params with
  | None => Err "devshard escrow params is required"
  | Some params =>
      run! ocheck (negb (de_Settled escrow)) "escrow already settled" in
      run! ocheck (bool_decide (ms_Settler msg = de_Creator escrow)) "settler is not the escrow creator" in
      run! ocheck (negb (bool_decide (ms_Version msg = ""))) "version is required" in
      run! ocheck (negb (ep_MaxNonce params <? ms_Nonce msg)) "nonce exceeds maximum" in
      run! ocheck (negb (128 <? Z.of_nat (String.length (ms_Version msg)))) "version exceeds maximum length" in
      run! validateDevshardSettlementVersionApproved (ep_ApprovedVersions params) (ms_Version msg) in
      let! hostStatsHash := ComputeDevshardHostStatsHash (ms_HostStats msg) in
      let rootInput := hostStatsHash ++ be_put_u64 (ms_Fees msg) ++ ms_RestHash msg ++
                       Sum256 (string_bytes (ms_Version msg)) ++ [DevshardSettlementPhase] in
      let expectedRoot := Sum256 rootInput in
      run! ocheck (length (ms_StateRoot msg) =? 32)%nat "state_root must be 32 bytes" in
      run! ocheck (bool_decide (expectedRoot = ms_StateRoot msg)) "state_root mismatch" in
      match XXX_Marshal (PStateSignature (ms_StateRoot msg) (pretty (de_Id escrow)) (ms_Nonce msg)) with
      | None => Err "failed to marshal sig content"
      | Some sigData =>
          let sigHash := Sum256 sigData in
          let! sv := ofold (check_signature (de_Slots escrow) sigHash isWarmKey) (∅, 0) (ms_Signatures msg) in
          let requiredQuorum := DevshardQuorumFor (Z.of_nat (length (de_Slots escrow))) in
          run! ocheck (negb (sv.2 <? requiredQuorum)) "insufficient quorum" in
          let slotCount := Z.of_nat (length (de_Slots escrow)) in
          run! ocheck (negb (slotCount =? 0)) "no slots in escrow" in
          let! st := ofold (check_stats (ms_Nonce msg) slotCount) (∅, 0) (ms_HostStats msg) in
          let totalCost := st.2 in
          let '(totalDebit, carry) := Add64 totalCost (ms_Fees msg) in
          run! ocheck (carry =? 0) "total cost plus fees overflow" in
          run! ocheck (negb (de_Amount escrow <? totalDebit)) "total debit exceeds escrow amount" in
          Ok tt
      end
  end.

(* ------------------------------------------------------------------ *)
(** ** devshard/signing/secp256k1.go *)

(** [func addressFromCompressed(compressed []byte) (string, error)] *)
Definition addressFromCompressed (compressed : list Z) : string :=
  Bech32 (Ripemd160 (Sum256 compressed)).

(** [func (v *Secp256k1Verifier) RecoverAddress(message, sig []byte) (string, error)] *)
Definition Secp256k1Verifier_RecoverAddress (message sig : list Z) : option string :=
  if negb (length sig =? 65)%nat then None
  else addressFromCompressed <$> EcrecoverCompressed (Sum256 message) sig.

(** The session's [signing.Verifier]. *)
Definition Secp256k1Verifier : SigVerifier := {| RecoverAddress := Secp256k1Verifier_RecoverAddress |}.

(* ------------------------------------------------------------------ *)
(** ** devshard/cmd/devshardctl/main.go and inference-chain/x/inference/module/commands.go *)

(** [type HostStatsJSON struct], [type SlotSignatureJSON struct], [type SettlementJSON struct]:
    the settlement file.  The command of the chain reads it into [settlementFileJSON],
    which has the same fields under the same names; the text in between is JSON. *)
Record HostStatsJSON := MkHostStatsJSON {
  hj_SlotID : Z; hj_Missed : Z; hj_Invalid : Z; hj_Cost : Z; hj_RequiredValidations : Z; hj_CompletedValidations : Z }.
Record SlotSignatureJSON := MkSlotSignatureJSON { gj_SlotID : Z; gj_Signature : string }.
Record SettlementJSON := MkSettlementJSON {
  sj_EscrowID : string; sj_StateRootAndProtocolVersion : string; sj_StateRoot : string; sj_Nonce : Z;
  sj_Fees : Z; sj_RestHash : string; sj_HostStats : list HostStatsJSON; sj_Signatures : list SlotSignatureJSON }.

(** [func hostStatsJSONFromDomain(slot uint32, hs *types.HostStats) HostStatsJSON] *)
Definition hostStatsJSONFromDomain (p : Z * HostStats) : HostStatsJSON :=
  MkHostStatsJSON p.1 (Missed p.2) (Invalid p.2) (Cost p.2)
    (if RequiredValidations p.2 =? 0 then 0 else RequiredValidations p.2)
    (if CompletedValidations p.2 =? 0 then 0 else CompletedValidations p.2).

(** [func buildSettlementJSON(p) (SettlementJSON, error)].  The two loops range over Go
    maps, so the orders in which they visit the entries are arguments. *)
Definition buildSettlementJSON `{!ProtoCodec} (p : SettlementPayload) (hostStats : list (Z * HostStats)) (signatures : list (Z * list Z))
    : outcome DevshardError SettlementJSON :=
  let! hsHash := computeHostStatsHash (sp_HostStats p) in
  let root := ComputeStateRootFromRestHash hsHash (sp_RestHash p) (sp_Fees p) PhaseSettlement (sp_Version p) in
  let stats := hostStatsJSONFromDomain <$> hostStats in
  let sigs := (fun e => MkSlotSignatureJSON e.1 (EncodeToString e.2)) <$> signatures in
  Ok (MkSettlementJSON (sp_EscrowID p) (sp_Version p) (EncodeToString root) (sp_Nonce p) (sp_Fees p)
        (EncodeToString (sp_RestHash p)) stats sigs).

(** [func SettleDevshardEscrowCmd() *cobra.Command]: the message that is broadcast for the
    file [sf] by the key with address [from]. *)
Definition settlement_stats (hs : HostStatsJSON) : DevshardSettlementHostStats :=
  MkSettlementStats (hj_SlotID hs) (hj_Missed hs) (hj_Invalid hs) (hj_Cost hs) (hj_RequiredValidations hs) (hj_CompletedValidations hs).
Definition decode_signature (sigs : list DevshardSlotSignature) (s : SlotSignatureJSON) : outcome string (list DevshardSlotSignature) :=
  match DecodeString (gj_Signature s) with
  | None => Err "decode signature for slot"
  | Some sigBytes => Ok (sigs ++ [MkSlotSignature (gj_SlotID s) sigBytes])
  end.
Definition SettleDevshardEscrowCmd (from : string) (sf : SettlementJSON) : outcome string MsgSettleDevshardEscrow :=
  run! ocheck (negb (bool_decide (sj_StateRootAndProtocolVersion sf = ""))) "settlement JSON missing state_root_and_protocol_version" in
  match ParseUint (sj_EscrowID sf) with
  | None => Err "parse escrow_id"
  | Some escrowID =>
      match DecodeString (sj_StateRoot sf) with
      | None => Err "decode state_root"
      | Some stateRoot =>
          match DecodeString (sj_RestHash sf) with
          | None => Err "decode rest_hash"
          | Some restHash =>
              let hostStats := settlement_stats <$> sj_HostStats sf in
              let! sigs := ofold decode_signature [] (sj_Signatures sf) in
              Ok (MkMsgSettle from escrowID stateRoot (sj_Nonce sf) restHash hostStats sigs
                    (sj_StateRootAndProtocolVersion sf) (sj_Fees sf))
          end
      end
  end.

(* ------------------------------------------------------------------ *)
(** ** What an accepted settlement is *)

(** The ids in [1 .. nonce] that the session routes to slot [s] of [n]. *)
Definition assigned_to (nonce n s : Z) : Z :=
  Z.of_nat (length (filter (fun id => id mod n = s) (seqZ 1 nonce))).

(** The values that the fields of the message can hold. *)
Definition stats_sized (hs : DevshardSettlementHostStats) : Prop :=
  is_u32 (ss_SlotId hs) /\ is_u32 (ss_Missed hs) /\ is_u32 (ss_Invalid hs) /\ is_u64 (ss_Cost hs).
Definition msg_sized (msg : MsgSettleDevshardEscrow) : Prop :=
  is_u64 (ms_Nonce msg) /\ is_u64 (ms_Fees msg) /\ Forall stats_sized (ms_HostStats msg).

Definition signature_ok (slots : list string) (sigHash : list Z) (isWarmKey : WarmKeyChecker)
    (sig : DevshardSlotSignature) : Prop :=
  exists addr rec, at_index slots (sg_SlotId sig) = Some addr /\
    recoverCosmosAddress sigHash (sg_Signature sig) = Ok rec /\
    (rec = addr \/ exists f, isWarmKey = Some f /\ f addr rec = true).

Definition stats_ok (nonce n : Z) (hs : DevshardSettlementHostStats) : Prop :=
  ss_SlotId hs < n /\ ss_Missed hs + ss_Invalid hs <= assigned_to nonce n (ss_SlotId hs).

(** The session-side reading of the message's root. *)
Definition msg_root (msg : MsgSettleDevshardEscrow) (root : list Z) : Prop :=
  exists h, ComputeDevshardHostStatsHash (ms_HostStats msg) = Ok h /\
    root = ComputeStateRootFromRestHash h (ms_RestHash msg) (ms_Fees msg) PhaseSettlement (ms_Version msg).

Definition total_cost (msg : MsgSettleDevshardEscrow) : Z := lsum ss_Cost (ms_HostStats msg).

Record accepted (escrow : DevshardEscrow) (msg : MsgSettleDevshardEscrow)
    (params : DevshardEscrowParams) (isWarmKey : WarmKeyChecker) : Prop := {
  ac_open : de_Settled escrow = false;
  ac_settler : ms_Settler msg = de_Creator escrow;
  ac_version : ms_Version msg <> "" /\ Z.of_nat (String.length (ms_Version msg)) <= 128;
  ac_approved : ep_ApprovedVersions params = [] \/ Some (ms_Version msg) ∈ ep_ApprovedVersions params;
  ac_nonce : ms_Nonce msg <= ep_MaxNonce params;
  ac_root : msg_root msg (ms_StateRoot msg);
  ac_signatures : exists sigData,
    XXX_Marshal (PStateSignature (ms_StateRoot msg) (pretty (de_Id escrow)) (ms_Nonce msg)) = Some sigData /\
    Forall (signature_ok (de_Slots escrow) (Sum256 sigData) isWarmKey) (ms_Signatures msg);
  ac_distinct : NoDup (sg_SlotId <$> ms_Signatures msg);
  ac_quorum : DevshardQuorumFor (Z.of_nat (length (de_Slots escrow))) <= Z.of_nat (length (ms_Signatures msg));
  ac_slots : de_Slots escrow <> [];
  ac_stats : NoDup (ss_SlotId <$> ms_HostStats msg) /\
    Forall (stats_ok (ms_Nonce msg) (Z.of_nat (length (de_Slots escrow)))) (ms_HostStats msg);
  ac_debit : total_cost msg + ms_Fees msg <= de_Amount escrow
}.

End Settle.

Section SessionDefs.
Context {Store : Type}.

(** The open escrow that a session was opened for. *)
Definition escrow_of (amount : Z) (sm : StateMachine Store) (escrow : DevshardEscrow) : Prop :=
  de_Settled escrow = false /\ de_Amount escrow = amount /\
  de_Slots escrow = ValidatorAddress <$> Group (state sm) /\
  is_u64 (de_Id escrow) /\ EscrowID (state sm) = pretty (de_Id escrow).

(** Every signature is by the owner of its slot, under the session's verifier. *)
Definition owners_signed `{!Secp256k1} (sm : StateMachine Store) (sigData : list Z) (sigs : gmap Z (list Z)) : Prop :=
  forall slot sig, sigs !! slot = Some sig -> Forall is_u8 sig /\
    exists addr, slotToAddress sm !! slot = Some addr /\ Secp256k1Verifier_RecoverAddress sigData sig = Some addr.

(** The version tag passes the chain's length and allowlist tests. *)
Definition version_allowed (params : DevshardEscrowParams) (v : string) : Prop :=
  v <> "" /\ Z.of_nat (String.length v) <= 128 /\
  (ep_ApprovedVersions params = [] \/ Some v ∈ ep_ApprovedVersions params).

End SessionDefs.

(* ------------------------------------------------------------------ *)
(** ** Lemmas: routing *)

(** Counting multiples: one more exactly at a multiple. *)
Lemma div_succ a n : 0 < n -> (a + 1) / n = a / n + (if bool_decide ((a + 1) mod n = 0) then 1 else 0).
Proof.
  intros Hn. pose proof (Z.div_mod a n ltac:(lia)) as Ha. pose proof (Z.mod_pos_bound a n Hn) as Hr.
  destruct (decide (a mod n = n - 1)) as [He|Hne].
  - assert (a + 1 = n * (a / n + 1)) as -> by lia.
    rewrite bool_decide_true by (rewrite Z.mul_comm; apply Z.mod_mul; lia).
    rewrite Z.mul_comm, Z.div_mul; lia.
  - assert ((a + 1) / n = a / n) as -> by (symmetry; apply (Z.div_unique _ _ _ (a mod n + 1)); lia).
    rewrite bool_decide_false; [lia|]. rewrite <- (Z.mod_unique (a + 1) n (a / n) (a mod n + 1)); lia.
Qed.

(** The number of routed ids in closed form; [f] is the first id of the slot. *)
Lemma assigned_to_closed nonce n s f :
  0 < n -> 0 <= nonce -> 1 <= f <= n -> f mod n = s -> assigned_to nonce n s = (nonce - f + n) / n.
Proof.
  intros Hn Hnn Hf Hs. revert nonce Hnn. apply natlike_ind.
  - unfold assigned_to. rewrite seqZ_nil by lia. cbn [filter length]. symmetry. apply Z.div_small. lia.
  - intros k Hk IH. replace (Z.succ k - f + n) with (k - f + n + 1) by lia. rewrite div_succ, <- IH by lia.
    unfold assigned_to. rewrite <- Z.add_1_r, seqZ_app, filter_app, length_app, Nat2Z.inj_add by lia. f_equal.
    rewrite seqZ_cons, seqZ_nil, filter_cons by lia.
    assert ((1 + k) mod n = s <-> (k - f + n + 1) mod n = 0) as Hiff.
    { replace (k - f + n + 1) with ((1 + k - f) + 1 * n) by lia. rewrite Z.mod_add, <- Hs by lia.
      rewrite <- Z.cong_iff_0. done. }
    destruct (decide ((1 + k) mod n = s)) as [He|Hne]; [rewrite bool_decide_true|rewrite bool_decide_false]; tauto || done.
Qed.

(** The upper bound of the chain is the exact number of ids routed to the slot. *)
Lemma assigned_bound nonce n s :
  is_u64 nonce -> 0 <= s < n -> n < 2 ^ 63 ->
  devshardAssignedUpperBoundForSlot nonce n s = Ok (assigned_to nonce n s).
Proof.
  unfold is_u64. intros Hn Hs Hm. unfold devshardAssignedUpperBoundForSlot.
  rewrite (proj2 (Z.eqb_neq n 0)), (proj2 (Z.leb_gt n s)) by lia. cbv zeta.
  set (f := if s =? 0 then n else s).
  assert (1 <= f <= n /\ f mod n = s) as [Hf Hfs].
  { unfold f. destruct (Z.eqb_spec s 0) as [->|]; [rewrite Z.mod_same; lia|rewrite Z.mod_small; lia]. }
  rewrite (assigned_to_closed nonce n s f) by lia. destruct (Z.ltb_spec nonce f) as [Hlt|Hge].
  - rewrite Z.div_small by lia. done.
  - rewrite (u64_small (nonce - f)) by (unfold is_u64; lia).
    replace (nonce - f + n) with (nonce - f + 1 * n) by lia. rewrite Z.div_add by lia.
    assert ((nonce - f) / n <= nonce - f) by (apply Z.div_le_upper_bound; nia).
    pose proof (Z.div_pos (nonce - f) n ltac:(lia) ltac:(lia)).
    rewrite u64_small by (unfold is_u64; lia). f_equal. lia.
Qed.

(* ------------------------------------------------------------------ *)
(** ** Lemmas: the loops of the verification *)

Section Loops.
Context `{!ChainCodec} `{!Secp256k1}.

(** Slots that are pairwise different and were not seen before. *)
Definition fresh (seen : gset Z) (slots : list Z) : Prop := NoDup slots /\ Forall (fun s => s ∉ seen) slots.

Lemma fresh_cons seen s slots : fresh seen (s :: slots) <-> (s ∉ seen) /\ fresh ({[s]} ∪ seen) slots.
Proof.
  unfold fresh. rewrite NoDup_cons, Forall_cons, !Forall_forall. split.
  - intros ((Hn & Hd) & Hs & Hf). split; [done|]. split; [done|]. intros t Ht. specialize (Hf t Ht). set_solver.
  - intros (Hs & Hd & Hf). split; [split; [|done]|split; [done|]].
    + intros Ht. specialize (Hf s Ht). set_solver.
    + intros t Ht. specialize (Hf t Ht). set_solver.
Qed.

Lemma fresh_nodup slots : fresh ∅ slots <-> NoDup slots.
Proof. unfold fresh. rewrite Forall_forall. split; [by intros [? _]|]. intros Hd. split; [done|set_solver]. Qed.

Lemma signature_step slots h wk seen v sig :
  match check_signature slots h wk (seen, v) sig with
  | Ok acc => (sg_SlotId sig ∉ seen) /\ signature_ok slots h wk sig /\ acc = ({[sg_SlotId sig]} ∪ seen, v + 1)
  | Err _ => ~ ((sg_SlotId sig ∉ seen) /\ signature_ok slots h wk sig)
  end.
Proof.
  unfold check_signature, signature_ok. destruct (bool_decide (sg_SlotId sig ∈ seen)) eqn:Hb; boolify; cbn [negb ocheck obind]; [tauto|].
  destruct (at_index slots (sg_SlotId sig)) as [addr|]; [|by intros (_ & ? & ? & [=] & _)].
  destruct (recoverCosmosAddress h (sg_Signature sig)) as [rec|]; cbn [obind]; [|by intros (_ & ? & ? & _ & [=] & _)].
  destruct (bool_decide (rec = addr)) eqn:He; boolify; cbn [orb ocheck obind]; [by eauto 9|].
  assert (forall P : Prop, (P -> exists f, wk = Some f /\ f addr rec = true) ->
    P -> exists a r, Some addr = Some a /\ @Ok string _ rec = Ok r /\ (r = a \/ exists f, wk = Some f /\ f a r = true)) as Hw by (intros P HP p; eauto 9).
  destruct wk as [f|]; cbn [ocheck obind]; [destruct (f addr rec) eqn:Hf; cbn [ocheck obind]|].
  - split; [done|]. split; [apply (Hw True); eauto|done].
  - intros (_ & a & r & [= <-] & [= <-] & [->|(g & [= <-] & Hg)]); congruence.
  - by intros (_ & a & r & [= <-] & [= <-] & [->|(g & [=] & Hg)]).
Qed.

Lemma signature_loop slots h wk seen v sigs :
  match ofold (check_signature slots h wk) (seen, v) sigs with
  | Ok acc => fresh seen (sg_SlotId <$> sigs) /\ Forall (signature_ok slots h wk) sigs /\
              acc.2 = v + Z.of_nat (length sigs)
  | Err _ => ~ (fresh seen (sg_SlotId <$> sigs) /\ Forall (signature_ok slots h wk) sigs)
  end.
Proof.
  revert seen v. induction sigs as [|sig sigs IH]; intros seen v; cbn [ofold].
  - cbn. unfold fresh. rewrite NoDup_nil. split; [done|]. split; [done|lia].
  - pose proof (signature_step slots h wk seen v sig) as Hs. rewrite fmap_cons.
    pose proof (fresh_cons seen (sg_SlotId sig) (sg_SlotId <$> sigs)) as Hfc.
    pose proof (Forall_cons (signature_ok slots h wk) sig sigs) as Hac.
    destruct (check_signature slots h wk (seen, v) sig) as [acc|e]; cbn [obind]; [|tauto].
    destruct Hs as (Hn & Hok & ->). specialize (IH ({[sg_SlotId sig]} ∪ seen) (v + 1)).
    destruct (ofold _ _ sigs) as [acc|e]; [|tauto]. destruct IH as (Hf & Ha & ->). cbn [length]. split; [tauto|]. split; [tauto|lia].
Qed.

Lemma stats_step nonce n seen t hs :
  is_u64 nonce -> 0 < n < 2 ^ 63 -> is_u64 t -> stats_sized hs ->
  match check_stats nonce n (seen, t) hs with
  | Ok acc => (ss_SlotId hs ∉ seen) /\ stats_ok nonce n hs /\ t + ss_Cost hs < 2 ^ 64 /\
              acc = ({[ss_SlotId hs]} ∪ seen, t + ss_Cost hs)
  | Err _ => ~ ((ss_SlotId hs ∉ seen) /\ stats_ok nonce n hs /\ t + ss_Cost hs < 2 ^ 64)
  end.
Proof.
  unfold is_u64, stats_sized, is_u32. intros Hn Hm Ht (Hs & Hmi & Hiv & Hc). unfold check_stats, stats_ok.
  destruct (bool_decide (ss_SlotId hs ∈ seen)) eqn:Hb; boolify; cbn [negb ocheck obind]; [tauto|].
  destruct (Z.lt_ge_cases (ss_SlotId hs) n) as [Hlt|Hge].
  2: { unfold devshardAssignedUpperBoundForSlot. rewrite (proj2 (Z.eqb_neq n 0)), (proj2 (Z.leb_le n _)) by lia.
       cbn [obind]. lia. }
  rewrite assigned_bound by (unfold is_u64; lia). cbn [obind]. set (a := assigned_to nonce n (ss_SlotId hs)).
  assert (0 <= a <= nonce) as Ha.
  { unfold a, assigned_to. pose proof (length_filter (fun id => id mod n = ss_SlotId hs) (seqZ 1 nonce)) as Hl.
    rewrite length_seqZ in Hl. lia. }
  destruct (Z.ltb_spec a (ss_Missed hs)); cbn [negb ocheck obind]; [lia|]. rewrite (u64_small (a - _)) by (unfold is_u64; lia).
  destruct (Z.ltb_spec (a - ss_Missed hs) (ss_Invalid hs)); cbn [negb ocheck obind]; [lia|].
  pose proof (Add64_no_carry t (ss_Cost hs) Ht Hc) as Hcar. unfold Add64 in *. cbn [snd] in Hcar.
  destruct (Z.eqb_spec ((t + ss_Cost hs) / 2 ^ 64) 0) as [He|Hne]; cbn [ocheck obind]; [|rewrite Hcar in Hne; lia].
  apply Hcar in He. unfold stats_sized, is_u32, is_u64 in *. rewrite u64_small by (unfold is_u64; lia). split; [done|]. split; [lia|]. split; [lia|done].
Qed.

Lemma stats_loop nonce n seen t l :
  is_u64 nonce -> 0 < n < 2 ^ 63 -> is_u64 t -> Forall stats_sized l ->
  match ofold (check_stats nonce n) (seen, t) l with
  | Ok acc => fresh seen (ss_SlotId <$> l) /\ Forall (stats_ok nonce n) l /\ t + lsum ss_Cost l < 2 ^ 64 /\
              acc.2 = t + lsum ss_Cost l
  | Err _ => ~ (fresh seen (ss_SlotId <$> l) /\ Forall (stats_ok nonce n) l /\ t + lsum ss_Cost l < 2 ^ 64)
  end.
Proof.
  intros Hn Hm. revert seen t. induction l as [|hs l IH]; intros seen t Ht Hsz; cbn [ofold].
  - change (lsum ss_Cost []) with 0. unfold fresh, is_u64 in *. rewrite NoDup_nil. split; [done|]. split; [done|]. cbn [snd]. lia.
  - apply Forall_cons in Hsz as [Hs Hsz]. pose proof (stats_step nonce n seen t hs Hn Hm Ht Hs) as Hst.
    assert (0 <= lsum ss_Cost l) as Hpos.
    { apply lsum_nonneg. intros a Ha. rewrite Forall_forall in Hsz. destruct (Hsz a Ha) as (_ & _ & _ & ? & _). lia. }
    rewrite fmap_cons, lsum_cons.
    pose proof (fresh_cons seen (ss_SlotId hs) (ss_SlotId <$> l)) as Hfc.
    pose proof (Forall_cons (stats_ok nonce n) hs l) as Hac.
    destruct (check_stats nonce n (seen, t) hs) as [acc|e]; cbn [obind].
    + destruct Hst as (Hnin & Hok & Hlt & ->). specialize (IH ({[ss_SlotId hs]} ∪ seen) (t + ss_Cost hs)).
      assert (is_u64 (t + ss_Cost hs)) as Hu by (destruct Hs as (_ & _ & _ & ? & _), Ht; unfold is_u64; lia). specialize (IH Hu Hsz).
      destruct (ofold _ _ l) as [acc|e]; [|rewrite Z.add_assoc; tauto]. destruct IH as (Hf & Ha & Hl & ->).
      split; [tauto|]. split; [tauto|]. cbn [snd] in *. lia.
    + rewrite Hfc, Hac. intros ((Hnin & _) & (Hok & _) & Hlt). apply Hst. split; [done|]. split; [done|lia].
Qed.

End Loops.

(* ------------------------------------------------------------------ *)
(** ** The verification decided *)

Section Accepted.
Context `{!ChainCodec} `{!Secp256k1}.

Lemma approved_iff l v : validateDevshardSettlementVersionApproved l v = Ok tt <-> l = [] \/ Some v ∈ l.
Proof.
  unfold validateDevshardSettlementVersionApproved. destruct l as [|x l]; [tauto|].
  destruct (existsb _ (x :: l)) eqn:Hex.
  - split; [intros _; right|done]. apply existsb_exists in Hex as ([name|] & Hin & Hb); [|done]. boolify. subst.
    by apply list_elem_of_In.
  - split; [done|]. intros [?|Hin]; [done|]. apply list_elem_of_In in Hin.
    assert (existsb (fun v0 => match v0 with Some name => bool_decide (name = v) | None => false end) (x :: l) = true); [|congruence].
    apply existsb_exists. exists (Some v). split; [done|]. by apply bool_decide_true.
Qed.

Lemma ocheck_iff {A} b (e : string) (k : outcome string A) (r : A) :
  obind (ocheck b e) (fun _ => k) = Ok r <-> b = true /\ k = Ok r.
Proof. destruct b; cbn; [tauto|]. split; [done|]. by intros [? _]. Qed.

Lemma negb_ltb_iff a b : negb (a <? b) = true <-> b <= a.
Proof. rewrite negb_true_iff, Z.ltb_ge. done. Qed.

(** The second half of the verification: signatures, quorum, statistics, debit. *)
Lemma accepted_tail escrow msg sigHash isWarmKey :
  msg_sized msg -> is_u64 (de_Amount escrow) -> Z.of_nat (length (de_Slots escrow)) < 2 ^ 63 ->
  (let! sv := ofold (check_signature (de_Slots escrow) sigHash isWarmKey) (∅, 0) (ms_Signatures msg) in
   run! ocheck (negb (sv.2 <? DevshardQuorumFor (Z.of_nat (length (de_Slots escrow))))) "insufficient quorum" in
   run! ocheck (negb (Z.of_nat (length (de_Slots escrow)) =? 0)) "no slots in escrow" in
   let! st := ofold (check_stats (ms_Nonce msg) (Z.of_nat (length (de_Slots escrow)))) (∅, 0) (ms_HostStats msg) in
   let '(totalDebit, carry) := Add64 st.2 (ms_Fees msg) in
   run! ocheck (carry =? 0) "total cost plus fees overflow" in
   run! ocheck (negb (de_Amount escrow <? totalDebit)) "total debit exceeds escrow amount" in
   Ok tt) = Ok tt <->
  NoDup (sg_SlotId <$> ms_Signatures msg) /\ Forall (signature_ok (de_Slots escrow) sigHash isWarmKey) (ms_Signatures msg) /\
  DevshardQuorumFor (Z.of_nat (length (de_Slots escrow))) <= Z.of_nat (length (ms_Signatures msg)) /\
  de_Slots escrow <> [] /\ NoDup (ss_SlotId <$> ms_HostStats msg) /\
  Forall (stats_ok (ms_Nonce msg) (Z.of_nat (length (de_Slots escrow)))) (ms_HostStats msg) /\
  total_cost msg + ms_Fees msg <= de_Amount escrow.
Proof.
  intros (Hn & Hf & Hst) Ha Hlen. pose proof (signature_loop (de_Slots escrow) sigHash isWarmKey ∅ 0 (ms_Signatures msg)) as Hs.
  destruct (ofold (check_signature _ _ _) _ _) as [sv|e]; rewrite fresh_nodup in Hs; cbn [obind]; [|split; [done|tauto]].
  destruct Hs as (Hd & Hok & Hv). rewrite Hv, ocheck_iff, ocheck_iff, negb_ltb_iff, negb_true_iff, Z.eqb_neq, Z.add_0_l.
  assert (Z.of_nat (length (de_Slots escrow)) <> 0 <-> de_Slots escrow <> []) as -> by (destruct (de_Slots escrow); cbn; split; done || lia).
  destruct (decide (de_Slots escrow = [])) as [->|Hne]; [tauto|].
  assert (0 < Z.of_nat (length (de_Slots escrow))) by (destruct (de_Slots escrow); [done|cbn; lia]).
  pose proof (stats_loop (ms_Nonce msg) (Z.of_nat (length (de_Slots escrow))) ∅ 0 (ms_HostStats msg) Hn ltac:(lia) ltac:(unfold is_u64; lia) Hst) as Hl.
  rewrite Z.add_0_l in Hl. fold (total_cost msg) in Hl.
  destruct (ofold (check_stats _ _) _ _) as [st|e]; rewrite fresh_nodup in Hl; cbn [obind]; [|unfold is_u64 in *; split; [by intros (_ & _ & [=])|]; intros (_ & _ & _ & _ & ? & ? & ?); exfalso; apply Hl; split; [done|]; split; [done|lia]].
  destruct Hl as (Hd2 & Hok2 & Hlt & ->). assert (0 <= total_cost msg) as Hc.
  { apply lsum_nonneg. intros a Hin. rewrite Forall_forall in Hst. destruct (Hst a Hin) as (_ & _ & _ & ? & _). lia. }
  pose proof (Add64_no_carry (total_cost msg) (ms_Fees msg) ltac:(unfold is_u64; lia) Hf) as Hcar.
  unfold Add64 in *. cbn [snd] in Hcar. rewrite !ocheck_iff, negb_ltb_iff, Z.eqb_eq, Hcar. unfold is_u64 in *.
  destruct (decide (total_cost msg + ms_Fees msg < 2 ^ 64)); [rewrite u64_small by (unfold is_u64; lia); tauto|].
  split; [tauto|]. intros (_ & _ & _ & _ & _ & _ & ?). lia.
Qed.

Lemma accepted_iff escrow msg params isWarmKey :
  msg_sized msg -> is_u64 (de_Amount escrow) -> Z.of_nat (length (de_Slots escrow)) < 2 ^ 63 ->
  VerifyDevshardSettlement escrow msg (Some params) isWarmKey = Ok tt <-> accepted escrow msg params isWarmKey.
Proof.
  intros Hsz Ha Hlen. unfold VerifyDevshardSettlement.
  rewrite !ocheck_iff, !negb_ltb_iff, !negb_true_iff, bool_decide_eq_true, bool_decide_eq_false.
  assert (forall k : outcome string unit, obind (validateDevshardSettlementVersionApproved (ep_ApprovedVersions params) (ms_Version msg)) (fun _ => k) = Ok tt
    <-> (ep_ApprovedVersions params = [] \/ Some (ms_Version msg) ∈ ep_ApprovedVersions params) /\ k = Ok tt) as ->.
  { intros k. rewrite <- approved_iff. destruct (validateDevshardSettlementVersionApproved _ _) as [[]|]; cbn; [tauto|].
    split; [done|]. by intros [? _]. }
  destruct (ComputeDevshardHostStatsHash (ms_HostStats msg)) as [h|e] eqn:Hh; cbn [obind].
  2: { split; [by intros (_ & _ & _ & _ & _ & _ & [=])|]. intros []. destruct ac_root0 as (h & ? & _). congruence. }
  rewrite !ocheck_iff, Nat.eqb_eq, bool_decide_eq_true.
  change (Sum256 (h ++ _)) with (ComputeStateRootFromRestHash h (ms_RestHash msg) (ms_Fees msg) PhaseSettlement (ms_Version msg)).
  destruct (XXX_Marshal _) as [sigData|] eqn:Hm.
  2: { split; [by intros (_ & _ & _ & _ & _ & _ & _ & _ & [=])|]. intros []. destruct ac_signatures0 as (s & ? & _). congruence. }
  cbv zeta. rewrite accepted_tail by done. split.
  - intros (H1 & H2 & H3 & H4 & H5 & H6 & _ & H7 & H8 & H9 & H10 & H11 & H12 & H13 & H14).
    split; try done; [by exists h|by exists sigData].
  - intros [H1 H2 [H3 H4] H5 H6 (h' & Hh' & Hr) (sd & Hsd & Hok) H9 H10 H11 [H12 H13] H14].
    rewrite Hh in Hh'. injection Hh' as <-. rewrite Hm in Hsd. injection Hsd as <-.
    assert (length (ms_StateRoot msg) = 32%nat) by (rewrite Hr; apply Sum256_length). done.
Qed.

End Accepted.

(** A session that followed the protocol to its end, signatures of its root by the owners
    of enough slots, and the settlement of it: the payload, the file written for it with
    the maps visited in any order, and the message that the chain's command makes of the
    file for the creator of the open escrow that the session was opened for. *)
Record settled_session {Store} `{!InferenceStorage Store} `{!SigVerifier} `{!ProtoCodec} `{!Secp256k1} (amount : Z)
    (sm : StateMachine Store) (escrow : DevshardEscrow) (msg : MsgSettleDevshardEscrow) : Prop := {
  ss_reachable : reachable amount sm;
  ss_phase : Phase (state sm) = PhaseSettlement;
  ss_message : exists sigs root sigData payload statsOrder sigsOrder sf,
    computeStateRootLocked (state sm) = Ok root /\
    Marshal (PStateSignature root (EscrowID (state sm)) (LatestNonce (state sm))) = Some sigData /\
    owners_signed sm sigData sigs /\ QuorumThreshold sm <= Z.of_nat (size sigs) /\
    BuildSettlement (EscrowID (state sm)) (state sm) sigs (LatestNonce (state sm)) = Ok payload /\
    statsOrder ≡ₚ map_to_list (sp_HostStats payload) /\ sigsOrder ≡ₚ map_to_list (sp_Signatures payload) /\
    buildSettlementJSON payload statsOrder sigsOrder = Ok sf /\
    SettleDevshardEscrowCmd (de_Creator escrow) sf = Ok msg;
  ss_escrow : escrow_of amount sm escrow
}.

(* ------------------------------------------------------------------ *)
(** ** Session and chain *)

(** One entry of a message, from the map of the payload. *)
Definition stats_of_host (p : Z * HostStats) : DevshardSettlementHostStats :=
  MkSettlementStats p.1 (Missed p.2) (Invalid p.2) (Cost p.2) (RequiredValidations p.2) (CompletedValidations p.2).
Definition signature_of (p : Z * list Z) : DevshardSlotSignature := MkSlotSignature p.1 p.2.

Section Agree.
Context `{!ProtoCodec} `{!ProtoCodecLaws} `{!ChainCodec} `{!SameBytes} `{!Secp256k1} `{!Secp256k1Laws}.

#[local] Instance slot_le_trans : Transitive slot_le.
Proof. intros x y z. unfold slot_le. lia. Qed.
#[local] Instance slot_le_total : Total slot_le.
Proof. intros x y. unfold slot_le. lia. Qed.

(** The chain recovers the address that the session's verifier recovers. *)
Lemma recover_same data sig addr :
  Forall is_u8 sig -> Secp256k1Verifier_RecoverAddress data sig = Some addr ->
  recoverCosmosAddress (Sum256 data) sig = Ok addr.
Proof.
  intros Hu Hr. unfold Secp256k1Verifier_RecoverAddress, recoverCosmosAddress in *.
  destruct (Nat.eqb_spec (length sig) 65) as [Hl|]; [|done]. cbn [negb] in *.
  assert (sig = take 64 sig ++ [nth 64 sig 0]) as Hsplit.
  { assert (length (drop 64 sig) = 1%nat) as Hd by (rewrite length_drop; lia).
    destruct (drop 64 sig) as [|v [|? ?]] eqn:Hdr; try done. rewrite <- (take_drop 64 sig) at 1. rewrite Hdr. f_equal. f_equal.
    rewrite <- (take_drop 64 sig), Hdr, app_nth2; rewrite length_take; [|lia]. replace (64 - min 64 (length sig))%nat with 0%nat by lia. done. }
  assert (take 32 sig ++ take 32 (drop 32 sig) = take 64 sig) as Htk by (rewrite take_take_drop; done).
  cbv zeta. rewrite Htk. rewrite Hsplit in Hr. rewrite recover_agree in Hr.
  - destruct (RecoverCompact _ _); [|done]. cbn in Hr. unfold addressFromCompressed in Hr. by injection Hr as ->.
  - rewrite length_take. lia.
  - rewrite Forall_forall in Hu. apply Hu, list_elem_of_In, nth_In. lia.
Qed.

(** Both sides hash the same statistics, in whatever order the message has them. *)
Lemma stats_hash_same hs l h :
  l ≡ₚ (stats_of_host <$> map_to_list hs) -> computeHostStatsHash hs = Ok h -> ComputeDevshardHostStatsHash l = Ok h.
Proof.
  intros Hp Hh. unfold computeHostStatsHash, ComputeDevshardHostStatsHash in *. rewrite same_bytes.
  assert (merge_sort slot_le (settlement_stats_proto <$> l) = stats_entries hs) as ->; [|by destruct (Marshal _); [injection Hh as <-|]].
  assert (stats_entries hs ≡ₚ (fun p => stats_proto p.1 p.2) <$> map_to_list hs) as Hse.
  { unfold stats_entries, sorted_keys. rewrite sort_Z_perm. unfold map_keys. rewrite <- list_fmap_compose.
    apply Permutation_refl'. apply list_fmap_ext. intros i [k v] Hi. cbn. apply list_elem_of_lookup_2, elem_of_map_to_list in Hi.
    unfold zget. by rewrite Hi. }
  apply (StronglySorted_unique_strong slot_le).
  - intros x y Hx Hy Hxy Hyx. assert (hp_SlotId x = hp_SlotId y) as Heq by (unfold slot_le in *; lia).
    rewrite merge_sort_Permutation, Hp, <- list_fmap_compose in Hx. rewrite Hse in Hy.
    apply list_elem_of_fmap in Hx as ([k v] & -> & Hx). apply list_elem_of_fmap in Hy as ([k' v'] & -> & Hy).
    cbn in Heq. subst k'. apply elem_of_map_to_list in Hx, Hy. rewrite Hx in Hy. by injection Hy as <-.
  - by apply StronglySorted_merge_sort; apply _.
  - unfold stats_entries. pose proof (sort_Z_sorted (map_keys hs)) as Hs. unfold sorted_keys. revert Hs. generalize (sort_Z (map_keys hs)).
    induction 1 as [|k ks Hs IH Hf]; [constructor|]. rewrite fmap_cons. constructor; [done|]. rewrite Forall_fmap.
    eapply Forall_impl; [exact Hf|]. intros. by unfold slot_le.
  - rewrite merge_sort_Permutation, Hp, Hse, <- list_fmap_compose. done.
Qed.

(** A host of a session has failed at most the ids that the chain counts for it. *)
Lemma host_within_bound {Store} `{!InferenceStorage Store} `{!SigVerifier} amount (sm : StateMachine Store) s h :
  Inv amount (LatestNonce (state sm)) sm -> HostStatsMap (state sm) !! s = Some h ->
  0 <= s < nslots sm /\ 0 <= Missed h /\ 0 <= Invalid h /\ Missed h + Invalid h <= assigned_to (LatestNonce (state sm)) (nslots sm) s.
Proof.
  intros HI Hh. pose proof (inv_ledger _ _ _ HI) as Hl. pose proof (inv_top _ _ _ HI) as Ht.
  destruct (linv_hosts _ _ _ _ Hl _ _ (abs_host_lookup _ _ _ Hh)) as (_ & Hm & Hi & _ & Hu).
  split; [apply (inv_hosts _ _ _ HI); eauto|]. cbn [abs_host h_missed h_invalid] in *. split; [done|]. split; [done|].
  assert (0 <= msum (unfailed s) (l_live (abs sm))) by (apply msum_nonneg; intros; apply unfailed_nonneg).
  assert (Z.of_nat (size (routed (slot_of sm) s (abs sm))) <= assigned_to (LatestNonce (state sm)) (nslots sm) s); [|lia].
  unfold assigned_to. apply inj_le.
  rewrite <- (size_list_to_set (C := gset Z)) by (apply NoDup_filter, NoDup_seqZ). apply subseteq_size.
  intros id [Hs Hid]%elem_of_filter. apply elem_of_list_to_set, list_elem_of_filter. split; [done|].
  apply elem_of_seqZ. pose proof (linv_ids _ _ _ _ Hl id Hid). lia.
Qed.

(** The lookup tables of a session are those of its group. *)
Lemma reachable_owner {Store} `{!InferenceStorage Store} `{!SigVerifier} amount (sm : StateMachine Store) s :
  reachable amount sm -> slotToAddress sm !! s = at_index (ValidatorAddress <$> Group (state sm)) s.
Proof.
  induction 1 as [version escrow cfg group user store opts sm Hg Hb Hc Ho Hn|sm sm' Hr IH Hlt Hs].
  - apply ValidateGroup_spec in Hg as [_ Hpos]. unfold NewStateMachine in Hn.
    destruct store as [st|]; [|done]. destruct (_ <? _); [done|]. injection Hn as <-.
    match goal with |- slotToAddress (fold_left _ _ ?x) !! _ = _ =>
      assert (slotToAddress x !! s = at_index (ValidatorAddress <$> Group (state x)) s) as H0'; [cbn|revert H0'; generalize x] end.
    + rewrite slotToAddr_lookup by done. unfold at_index. destruct (decide _); [|done]. by rewrite list_lookup_fmap.
    + clear - Ho. induction Ho as [|o opts Ho _ IH]; intros sm0 H0'; [done|]. cbn. apply IH. by destruct Ho as [[r ->]|[v ->]].
  - destruct (step_goes _ _ _ (reachable_ok _ _ Hr) Hlt Hs) as (_ & _ & Hi). revert Hi IH. unfold immut.
    intros [=] IH. congruence.
Qed.

Lemma BuildSettlement_fields eid st sigs nonce p :
  BuildSettlement eid st sigs nonce = Ok p ->
  ComputeRestHashV2 (Balance st) (sealedAccBytes32 (SealedAcc st)) (Inferences st) (WarmKeys st) = Ok (sp_RestHash p) /\
  sp_Version p = StateRootAndProtocolVersion st /\ sp_Nonce p = nonce /\ sp_Fees p = Fees st /\
  sp_HostStats p = HostStatsMap st /\ sp_Signatures p = sigs /\ sp_EscrowID p = eid.
Proof. unfold BuildSettlement. intros (rest & Hr & [= <-])%obind_Ok. done. Qed.

(** The statistics of a session's message, in any order. *)
Lemma message_stats {Store} `{!InferenceStorage Store} `{!SigVerifier} amount (sm : StateMachine Store) l :
  reachable amount sm -> l ≡ₚ (stats_of_host <$> map_to_list (HostStatsMap (state sm))) ->
  NoDup (ss_SlotId <$> l) /\ Forall (stats_ok (LatestNonce (state sm)) (nslots sm)) l /\ Forall stats_sized l /\
  lsum ss_Cost l = earned_total sm.
Proof.
  intros Hr Hp. pose proof (reachable_ok _ _ Hr) as [HI _ _]. pose proof (inv_top _ _ _ HI) as Ht.
  pose proof (group_size sm (inv_static _ _ _ HI)) as Hg.
  assert (forall hs, hs ∈ l -> exists s h, hs = stats_of_host (s, h) /\ HostStatsMap (state sm) !! s = Some h) as Hin.
  { intros hs Hh. rewrite Hp in Hh. apply list_elem_of_fmap in Hh as ([s h] & -> & Hh). apply elem_of_map_to_list in Hh. eauto. }
  split; [|split; [|split]].
  - rewrite Hp, <- list_fmap_compose. apply NoDup_fst_map_to_list.
  - apply Forall_forall. intros hs (s & h & -> & Hh)%Hin. destruct (host_within_bound _ _ _ _ HI Hh) as (? & ? & ? & ?).
    unfold stats_ok. cbn. lia.
  - apply Forall_forall. intros hs (s & h & -> & Hh)%Hin. destruct (host_within_bound _ _ _ _ HI Hh) as (? & ? & ? & Hb).
    destruct (Inv_host_cost _ _ _ _ _ HI Hh) as [Hc1 Hc2]. pose proof (Inv_balance _ _ _ HI). pose proof (inv_amount _ _ _ HI) as Ha.
    pose proof (linv_open_nonneg _ _ _ _ (inv_ledger _ _ _ HI)).
    pose proof (length_filter (fun id => id mod nslots sm = s) (seqZ 1 (LatestNonce (state sm)))) as Hl.
    rewrite length_seqZ in Hl. unfold assigned_to in Hb. unfold stats_sized, is_u32, is_u64 in *. cbn. lia.
  - rewrite Hp, lsum_fmap. unfold earned_total. rewrite msum_map_to_list. apply lsum_ext. by intros [].
Qed.

(** The signatures of a session's message, in any order. *)
Lemma message_signatures {Store} `{!InferenceStorage Store} `{!SigVerifier} amount (sm : StateMachine Store) sigs sigData wk l :
  reachable amount sm -> l ≡ₚ (signature_of <$> map_to_list sigs) -> owners_signed sm sigData sigs ->
  NoDup (sg_SlotId <$> l) /\ Forall (signature_ok (ValidatorAddress <$> Group (state sm)) (Sum256 sigData) wk) l /\
  length l = size sigs.
Proof.
  intros Hr Hp Hs. split; [|split].
  - rewrite Hp, <- list_fmap_compose. apply NoDup_fst_map_to_list.
  - apply Forall_forall. intros x Hx. rewrite Hp in Hx. apply list_elem_of_fmap in Hx as ([s sig] & -> & Hx).
    apply elem_of_map_to_list in Hx. destruct (Hs s sig Hx) as (Hu & addr & Ho & Hrec).
    exists addr, addr. rewrite <- (reachable_owner _ _ _ Hr). cbn [signature_of sg_SlotId sg_Signature fst snd].
    split; [done|]. split; [by apply recover_same|by left].
  - rewrite Hp, length_fmap. by rewrite length_map_to_list.
Qed.

Lemma stats_of_json p : settlement_stats (hostStatsJSONFromDomain p) = stats_of_host p.
Proof. unfold settlement_stats, hostStatsJSONFromDomain, stats_of_host. cbn. by destruct (Z.eqb_spec (RequiredValidations p.2) 0) as [->|], (Z.eqb_spec (CompletedValidations p.2) 0) as [->|]. Qed.

Lemma decode_signatures l : forall acc, Forall (fun p => Forall is_u8 p.2) l ->
  ofold decode_signature acc ((fun e => MkSlotSignatureJSON e.1 (EncodeToString e.2)) <$> l) = Ok (acc ++ (signature_of <$> l)).
Proof.
  induction l as [|p l IH]; intros acc Hl; cbn [ofold fmap list_fmap]; [by rewrite app_nil_r|]. apply Forall_cons in Hl as [Hp Hl].
  unfold decode_signature at 1. cbn [gj_Signature gj_SlotID]. rewrite DecodeString_Encode by done. cbn [obind]. rewrite IH by done. by rewrite <-app_assoc.
Qed.

(** The message made of a payload by way of the file: nothing is lost on the way. *)
Record message_of (p : SettlementPayload) (from : string) (msg : MsgSettleDevshardEscrow) : Prop := {
  mo_root : exists h, computeHostStatsHash (sp_HostStats p) = Ok h /\
    ms_StateRoot msg = ComputeStateRootFromRestHash h (sp_RestHash p) (sp_Fees p) PhaseSettlement (sp_Version p);
  mo_settler : ms_Settler msg = from;
  mo_escrow : ParseUint (sp_EscrowID p) = Some (ms_EscrowId msg);
  mo_version : ms_Version msg = sp_Version p;
  mo_nonce : ms_Nonce msg = sp_Nonce p;
  mo_fees : ms_Fees msg = sp_Fees p;
  mo_rest : ms_RestHash msg = sp_RestHash p;
  mo_stats : ms_HostStats msg ≡ₚ (stats_of_host <$> map_to_list (sp_HostStats p));
  mo_sigs : ms_Signatures msg ≡ₚ (signature_of <$> map_to_list (sp_Signatures p))
}.
Lemma message_of_file p statsOrder sigsOrder from sf msg :
  statsOrder ≡ₚ map_to_list (sp_HostStats p) -> sigsOrder ≡ₚ map_to_list (sp_Signatures p) ->
  Forall is_u8 (sp_RestHash p) -> (forall slot sig, sp_Signatures p !! slot = Some sig -> Forall is_u8 sig) ->
  buildSettlementJSON p statsOrder sigsOrder = Ok sf -> SettleDevshardEscrowCmd from sf = Ok msg -> message_of p from msg.
Proof.
  intros Hst Hsi Hu Hsu (h & Hh & <-%Ok_inj)%obind_Ok. unfold SettleDevshardEscrowCmd. cbn [sj_EscrowID sj_StateRootAndProtocolVersion sj_StateRoot sj_RestHash sj_HostStats sj_Signatures sj_Nonce sj_Fees].
  case_bool_decide; [done|]. cbn [negb ocheck obind]. destruct (ParseUint (sp_EscrowID p)) as [id|] eqn:Hid; [|done].
  rewrite (DecodeString_Encode (ComputeStateRootFromRestHash _ _ _ _ _)) by apply Sum256_bytes. rewrite (DecodeString_Encode (sp_RestHash p)) by done.
  rewrite decode_signatures.
  2: { rewrite Hsi. apply Forall_forall. intros [slot sig] Hin%elem_of_map_to_list. cbn. by eapply Hsu. }
  cbn [obind app]. intros <-%Ok_inj. split; cbn [ms_Settler ms_EscrowId ms_StateRoot ms_Nonce ms_RestHash ms_HostStats ms_Signatures ms_Version ms_Fees]; try done; [by exists h| |by rewrite Hsi].
  rewrite Hst, <-list_fmap_compose. apply Permutation_refl', list_fmap_ext. intros _ q _. apply stats_of_json.
Qed.

(** The root that the session signs is the root of the message. *)
Lemma message_root payload from st root msg :
  sp_HostStats payload = HostStatsMap st -> sp_Fees payload = Fees st -> sp_Version payload = StateRootAndProtocolVersion st ->
  ComputeRestHashV2 (Balance st) (sealedAccBytes32 (SealedAcc st)) (Inferences st) (WarmKeys st) = Ok (sp_RestHash payload) ->
  Phase st = PhaseSettlement -> computeStateRootLocked st = Ok root -> message_of payload from msg ->
  ms_StateRoot msg = root /\ msg_root msg root.
Proof.
  intros Hh Hf Hv Hr Hp Hroot [(h' & Hh' & B1) _ _ B2 B3 B4 B5 B6 B7]. unfold computeStateRootLocked in Hroot.
  apply obind_Ok in Hroot as (h & Hhh & Hroot). rewrite Hr, Hp in Hroot. cbn [obind] in Hroot. apply Ok_inj in Hroot.
  rewrite Hh in Hh'. assert (h' = h) as -> by congruence. split; [congruence|].
  exists h. split; [eapply stats_hash_same; [exact B6|by rewrite Hh]|]. congruence.
Qed.

(** The message of a session, by way of the payload and the file. *)
Lemma session_message {Store} `{!InferenceStorage Store} `{!SigVerifier} amount (sm : StateMachine Store) escrow msg :
  settled_session amount sm escrow msg -> exists sigs root sigData payload,
    computeStateRootLocked (state sm) = Ok root /\
    Marshal (PStateSignature root (EscrowID (state sm)) (LatestNonce (state sm))) = Some sigData /\
    owners_signed sm sigData sigs /\ QuorumThreshold sm <= Z.of_nat (size sigs) /\
    BuildSettlement (EscrowID (state sm)) (state sm) sigs (LatestNonce (state sm)) = Ok payload /\
    message_of payload (de_Creator escrow) msg.
Proof.
  intros [_ _ (sigs & root & sigData & payload & so & go & sf & Hr & Hm & Ho & Hq & Hb & Hso & Hgo & Hj & Hc) _].
  exists sigs, root, sigData, payload. repeat (split; [done|]).
  destruct (BuildSettlement_fields _ _ _ _ _ Hb) as (Hrest & _ & _ & _ & _ & Hs & _).
  eapply message_of_file; [exact Hso|exact Hgo| | |exact Hj|exact Hc].
  - unfold ComputeRestHashV2 in Hrest. apply obind_Ok in Hrest as (h & _ & [= <-]). apply Sum256_bytes.
  - intros slot sig. rewrite Hs. intros Hl. by destruct (Ho slot sig Hl).
Qed.

Lemma session_root {Store} `{!InferenceStorage Store} `{!SigVerifier} amount (sm : StateMachine Store) escrow msg :
  settled_session amount sm escrow msg -> computeStateRootLocked (state sm) = Ok (ms_StateRoot msg).
Proof.
  intros Hss. destruct (session_message _ _ _ _ Hss) as (sigs & root & sigData & payload & Hroot & _ & _ & _ & Hb & Hmsg).
  destruct (BuildSettlement_fields _ _ _ _ _ Hb) as (Hrest & Hf1 & _ & Hf3 & Hf4 & _).
  by destruct (message_root _ _ _ _ _ Hf4 Hf3 Hf1 Hrest (ss_phase _ _ _ _ Hss) Hroot Hmsg) as [-> _].
Qed.

(** The message of such a session is accepted, and carries the session's totals. *)
Lemma session_accepted {Store} `{!InferenceStorage Store} `{!SigVerifier} amount
    (sm : StateMachine Store) escrow msg params isWarmKey :
  settled_session amount sm escrow msg ->
  version_allowed params (StateRootAndProtocolVersion (state sm)) -> LatestNonce (state sm) <= ep_MaxNonce params ->
  msg_sized msg /\ accepted escrow msg params isWarmKey /\ ms_Fees msg = Fees (state sm) /\ total_cost msg = earned_total sm /\
  ms_HostStats msg ≡ₚ (stats_of_host <$> map_to_list (HostStatsMap (state sm))) /\ ms_EscrowId msg = de_Id escrow.
Proof.
  intros Hss (Hv1 & Hv2 & Hv3) Hmax. destruct (session_message _ _ _ _ Hss) as (sigs & root & sigData & payload & Hroot & Hm & Hsig & Hq & Hb & Hmsg).
  destruct Hss as [Hr Hph _ (He1 & He2 & He3 & He5 & He4)].
  pose proof (reachable_ok _ _ Hr) as [HI _ _]. pose proof (group_size sm (inv_static _ _ _ HI)) as Hn.
  assert (Z.of_nat (length (de_Slots escrow)) = nslots sm) as Hlen by (by rewrite He3, length_fmap).
  destruct (BuildSettlement_fields _ _ _ _ _ Hb) as (Hrest & Hf1 & Hf2 & Hf3 & Hf4 & Hf5 & Hf6).
  destruct (message_root _ _ _ _ _ Hf4 Hf3 Hf1 Hrest Hph Hroot Hmsg) as [B1 Hmr]. destruct Hmsg as [_ Hset B0 B2 B3 B4 B5 B6 B7].
  rewrite Hf6, He4, ParseUint_pretty in B0 by done. injection B0 as B0.
  rewrite Hf4 in B6. rewrite Hf5 in B7. rewrite Hf1 in B2. rewrite Hf2 in B3. rewrite Hf3 in B4.
  destruct (message_stats _ _ _ Hr B6) as (Hd & Hok & Hsz & Htot).
  destruct (message_signatures _ _ _ _ isWarmKey _ Hr B7 Hsig) as (Hs1 & Hs2 & Hs3).
  pose proof (ledger_totals _ _ _ HI) as Hcons. pose proof (Inv_balance _ _ _ HI) as Hbal.
  pose proof (inv_amount _ _ _ HI) as Hamt. pose proof (inv_top _ _ _ HI) as Htop.
  pose proof (linv_fees _ _ _ _ (inv_ledger _ _ _ HI)) as Hfee. cbn in Hfee.
  assert (0 <= reserved_total sm /\ 0 <= earned_total sm) as [Hrt Het].
  { split; [pose proof (linv_open_nonneg _ _ _ _ (inv_ledger _ _ _ HI)) as Ho; unfold abs in Ho; cbn [l_live] in Ho; by rewrite msum_fmap in Ho|].
    apply msum_nonneg. intros s h Hh. apply (Inv_host_cost _ _ _ _ _ HI Hh). }
  unfold is_u64 in Hamt. split; [split; [unfold is_u64; rewrite B3; lia|]; split; [unfold is_u64; rewrite B4; lia|done]|].
  split; [|done]. split; rewrite ?Hlen, ?B1, ?B2, ?B3, ?He2, ?He3, <-?He4; try done.
  - exists sigData. by rewrite same_bytes.
  - rewrite Hs3. etrans; [|exact Hq]. unfold DevshardQuorumFor, QuorumThreshold. rewrite (reachable_total _ _ Hr).
    rewrite (u32_small (2 * nslots sm)) by (unfold is_u32; lia).
    rewrite u32_small; [done|unfold is_u32; Z.to_euclidean_division_equations; lia].
  - intros Hnil. rewrite He3, Hnil in Hlen. cbn in Hlen. lia.
  - unfold total_cost. rewrite Htot, B4. lia.
Qed.

End Agree.

(* ------------------------------------------------------------------ *)
(** ** Properties *)

Section Properties.
Context `{!ProtoCodec} `{!ProtoCodecLaws} `{!ChainCodec} `{!SameBytes} `{!Secp256k1} `{!Secp256k1Laws}.

(** The work bound of a slot is exact: for a slot of the escrow it is the
    number of ids in [1 .. nonce] that [id mod slotCount] routes to the slot, and
    an empty escrow or a slot outside of it is an error. *)
Theorem work_bound_exact nonce n s :
  is_u64 nonce -> 0 <= n < 2 ^ 63 -> 0 <= s ->
  match devshardAssignedUpperBoundForSlot nonce n s with
  | Ok bound => s < n /\ bound = Z.of_nat (length (filter (fun id => id mod n = s) (seqZ 1 nonce)))
  | Err _ => n <= s
  end.
Proof.
  intros Hnn Hn Hs. destruct (Z.lt_ge_cases s n) as [Hlt|Hge]; [by rewrite assigned_bound by (done || lia)|].
  unfold devshardAssignedUpperBoundForSlot. destruct (n =? 0); [done|]. by rewrite (proj2 (Z.leb_le n s)).
Qed.

(** The chain's verification decided exactly.  A settlement is accepted iff
    the parameters exist and: the escrow is open and the settler is its creator;
    the version is named, at most 128 bytes long and approved; the nonce is within
    the limit; the root is the settlement root of the message's own contents;
    the signatures are for pairwise different slots, each by the owner of its slot
    or by a granted warm key over that root, this escrow and this nonce, and there
    are at least [2n/3 + 1] of them; the statistics are for pairwise different
    slots with failures within the work routed to the slot; and costs plus fees
    are covered by the escrow. *)
Theorem settlement_decided escrow msg params isWarmKey :
  msg_sized msg -> is_u64 (de_Amount escrow) -> Z.of_nat (length (de_Slots escrow)) < 2 ^ 63 ->
  VerifyDevshardSettlement escrow msg params isWarmKey = Ok tt <->
  exists p, params = Some p /\ accepted escrow msg p isWarmKey.
Proof.
  intros Hsz Ha Hl. destruct params as [p|]; [|split; [done|by intros (? & [=] & _)]].
  rewrite accepted_iff by done. split; [eauto|]. by intros (? & [= <-] & Hac).
Qed.

(** C13: The settlement of a session that followed the protocol is accepted by the
    chain.  Take any session that reached settlement, signatures of its root by the
    owners of enough slots, the payload of [BuildSettlement], the file that [devshardctl]
    writes for it in any map order, the message that the chain's command makes of that
    file, and the open escrow that the session was opened for: the message is for that
    escrow, its root is the root the hosts signed, and the chain's verification succeeds. *)
Theorem session_settlement_accepted {Store} `{!InferenceStorage Store} `{!SigVerifier} amount
    (sm : StateMachine Store) escrow msg params isWarmKey :
  settled_session amount sm escrow msg ->
  version_allowed params (StateRootAndProtocolVersion (state sm)) -> LatestNonce (state sm) <= ep_MaxNonce params ->
  ms_EscrowId msg = de_Id escrow /\ computeStateRootLocked (state sm) = Ok (ms_StateRoot msg) /\
  VerifyDevshardSettlement escrow msg (Some params) isWarmKey = Ok tt.
Proof.
  intros Hs Hv Hmax. destruct (session_accepted _ _ _ _ params isWarmKey Hs Hv Hmax) as (Hsz & Hac & _ & _ & _ & Hid).
  split; [done|]. split; [by eapply session_root|].
  pose proof (ss_escrow _ _ _ _ Hs) as (_ & He2 & He3 & _). pose proof (reachable_ok _ _ (ss_reachable _ _ _ _ Hs)) as [HI _ _].
  pose proof (group_size sm (inv_static _ _ _ HI)) as Hn. apply accepted_iff; [done| | |done].
  - rewrite He2. apply (inv_amount _ _ _ HI).
  - rewrite He3, length_fmap. unfold nslots in Hn. lia.
Qed.

End Properties.
