(* ===== verification/ChainStore.v ===== *)
(** * What the keepers of the chain's modules share

    Addresses as bytes and as strings, the transaction that drops the writes of a
    failed call, and the iteration over an index whose keys start with an epoch, in
    the byte order of the store. *)

From stdpp Require Import sorting.
From S2P Require Import Prelude.
Open Scope Z_scope.
Open Scope go_scope.

(** [sdk.AccAddress]: the bytes of an address. *)
Abbreviation AccAddress := (list Z).

(** [sdk.AccAddressFromBech32] and [AccAddress.String]. *)
Class AccAddressCodec := {
  AccAddressFromBech32 : string -> option AccAddress;
  AccAddress_String : AccAddress -> string
}.

(** The string of an address that was parsed parses to the same address. *)
Class AccAddressLaws `{AccAddressCodec} := {
  bech32_string : forall s a, AccAddressFromBech32 s = Some a -> AccAddressFromBech32 (AccAddress_String a) = Some a
}.

Section Addresses.
Context `{!AccAddressCodec}.

(** An address string as the SDK prints it. *)
Definition canonical (addr : string) : Prop :=
  exists a, AccAddressFromBech32 addr = Some a /\ AccAddress_String a = addr.

Lemma canonical_inj x y a :
  canonical x -> canonical y -> AccAddressFromBech32 x = Some a -> AccAddressFromBech32 y = Some a -> x = y.
Proof. intros (? & ? & <-) (? & ? & <-) ? ?. by simplify_eq. Qed.

End Addresses.

(** [ctx.CacheContext()]: the writes are kept only when the batch succeeds. *)
Definition cached {S E A} (m : GoM S E A) : GoM S E A :=
  fun c => match m c with (c', Ok a) => (c', Ok a) | (_, Err e) => (c, Err e) end.

Lemma keeps_cached {S V E A} (pr : S -> V) R `{!PreOrder R} (m : GoM S E A) : keeps pr R m -> keeps pr R (cached m).
Proof. intros Hm s s' r. unfold cached. destruct (m s) as [s1 [x|e]] eqn:Hs; intros [= <- _]; [by eapply Hm|done]. Qed.

(** The keys of an epoch in an index by epoch, in the order [le] of the store. *)
Definition epoch_keys `{Countable A} (le : A -> A -> Prop) `{!RelDecision le} (ix : gset (Z * A)) (epoch : Z) : list (Z * A) :=
  pair (u64 epoch) <$> merge_sort le (filter (fun k => k.1 = u64 epoch) (elements ix)).*2.

(** The order of raw bytes. *)
Fixpoint bytes_leb (a b : AccAddress) : bool :=
  match a, b with
  | [], _ => true
  | _ :: _, [] => false
  | x :: a', y :: b' => (x <? y) || ((x =? y) && bytes_leb a' b')
  end.
Definition bytes_le (a b : AccAddress) : Prop := bytes_leb a b = true.
#[export] Instance bytes_le_dec : RelDecision bytes_le.
Proof. intros a b. unfold bytes_le. apply _. Defined.

(* ------------------------------------------------------------------ *)
(** ** Order and keys *)

#[export] Instance bytes_le_trans : Transitive bytes_le.
Proof.
  unfold bytes_le. intros a. induction a as [|x a IH]; intros [|y b] [|z c]; cbn; try done.
  rewrite !orb_true_iff, !andb_true_iff, !Z.ltb_lt, !Z.eqb_eq. intros [?|[-> ?]] [?|[-> ?]]; [left; lia..|]. right. eauto.
Qed.
#[export] Instance bytes_le_total : Total bytes_le.
Proof.
  unfold bytes_le. intros a. induction a as [|x a IH]; intros [|y b]; cbn; auto.
  rewrite !orb_true_iff, !andb_true_iff, !Z.ltb_lt, !Z.eqb_eq. destruct (Z.lt_trichotomy x y) as [?|[->|?]]; auto.
  destruct (IH b); auto.
Qed.
#[export] Instance bytes_le_antisym : AntiSymm eq bytes_le.
Proof.
  unfold bytes_le. intros a. induction a as [|x a IH]; intros [|y b]; cbn; try done.
  rewrite !orb_true_iff, !andb_true_iff, !Z.ltb_lt, !Z.eqb_eq. intros [?|[-> ?]] [?|[? ?]]; [lia..|]. f_equal. by apply IH.
Qed.

Section Keys.
Context `{Countable A} (le : A -> A -> Prop) `{!RelDecision le} `{!Transitive le} `{!Total le} `{!AntiSymm eq le}.
Implicit Types (ix : gset (Z * A)).

Lemma elem_epoch_keys ix e k : k ∈ epoch_keys le ix e <-> k.1 = u64 e /\ k ∈ ix.
Proof.
  unfold epoch_keys. rewrite list_elem_of_fmap. setoid_rewrite (merge_sort_Permutation le). setoid_rewrite list_elem_of_fmap.
  setoid_rewrite list_elem_of_filter. setoid_rewrite elem_of_elements. destruct k as [k1 k2]. cbn. split.
  - intros (y & [= -> ->] & [z1 z2] & -> & Hz & ?). cbn in *. by subst z1.
  - intros [-> Hin]. exists k2. split; [done|]. by exists (u64 e, k2).
Qed.

Lemma NoDup_epoch_keys ix e : NoDup (epoch_keys le ix e).
Proof.
  unfold epoch_keys. apply NoDup_fmap_2; [intros ? ? [= ->]; done|]. rewrite (merge_sort_Permutation le).
  apply NoDup_fmap_2_strong; [|apply NoDup_filter, NoDup_elements].
  intros [a b] [c d] [Ha _]%list_elem_of_filter [Hc _]%list_elem_of_filter. cbn in *. intros ->. by subst.
Qed.

Lemma sorted_epoch_keys ix e : StronglySorted (fun x y => le x.2 y.2) (epoch_keys le ix e).
Proof.
  unfold epoch_keys. pose proof (StronglySorted_merge_sort le (filter (fun k => k.1 = u64 e) (elements ix)).*2) as Hs.
  induction Hs as [|x l Hs IH Hx]; cbn; constructor; [done|]. by apply Forall_fmap.
Qed.

Lemma StronglySorted_filter {B} (R : B -> B -> Prop) (Q : B -> Prop) `{!forall x, Decision (Q x)} l :
  StronglySorted R l -> StronglySorted R (filter Q l).
Proof.
  induction 1 as [|x l Hs IH Hx]; [constructor|]. rewrite filter_cons. destruct (decide (Q x)); [|done]. constructor; [done|].
  rewrite Forall_forall in Hx |- *. intros y [_ Hy]%list_elem_of_filter. by apply Hx.
Qed.

(** Removing a key from the index removes it from the keys of its epoch, in place. *)
Lemma epoch_keys_remove ix k e : epoch_keys le (ix ∖ {[k]}) e = filter (fun x => x <> k) (epoch_keys le ix e).
Proof.
  apply (StronglySorted_unique_strong (fun x y : Z * A => le x.2 y.2)).
  - intros [a b] [c d] [Ha _]%elem_epoch_keys Hc. apply list_elem_of_filter in Hc as [_ [Hc _]%elem_epoch_keys]. cbn in *.
    intros ? ?. subst a c. f_equal. by apply (anti_symm le).
  - apply sorted_epoch_keys.
  - apply StronglySorted_filter, sorted_epoch_keys.
  - apply NoDup_Permutation; [apply NoDup_epoch_keys|apply NoDup_filter, NoDup_epoch_keys|]. intros x.
    rewrite list_elem_of_filter, !elem_epoch_keys. set_solver.
Qed.

End Keys.

(* ------------------------------------------------------------------ *)
(** ** Changing a map key by key *)

Lemma zget_insert_eq `{Countable A} {V} (d : V) (k : A) v m : zget d k (<[k:=v]> m) = v.
Proof. unfold zget. by rewrite lookup_insert_eq. Qed.
Lemma zget_insert_ne `{Countable A} {V} (d : V) (k k' : A) v m : k <> k' -> zget d k' (<[k:=v]> m) = zget d k' m.
Proof. intros. unfold zget. by rewrite lookup_insert_ne. Qed.

(** The keys of a map, as its domain lists them. *)
Lemma dom_perm `{Countable Key} {V} (m : gmap Key V) : elements (dom m) ≡ₚ (map_to_list m).*1.
Proof.
  apply NoDup_Permutation; [apply NoDup_elements|apply NoDup_fst_map_to_list|]. intros k.
  rewrite elem_of_elements, elem_of_dom, list_elem_of_fmap. split.
  - intros [v Hv]. exists (k, v). by rewrite elem_of_map_to_list.
  - intros ([k' v] & -> & Hv). apply elem_of_map_to_list in Hv. by eexists.
Qed.

(** Changing one entry of a map changes a sum over it by the difference. *)
Lemma msum_insert_any `{Countable Key} {V} (f : Key -> V -> Z) (m : gmap Key V) k v :
  msum f (<[k := v]> m) = msum f m + f k v - from_option (f k) 0 (m !! k).
Proof.
  destruct (m !! k) as [v0|] eqn:Hk; cbn; [rewrite (msum_update _ m k v0 v Hk)|rewrite (msum_insert _ m k v Hk)]; lia.
Qed.
Lemma msum_from_option `{Countable Key} {V} (f : V -> Z) (m : gmap Key V) k v :
  msum (fun _ x => f x) (<[k := v]> m) = msum (fun _ x => f x) m + f v - from_option f 0 (m !! k).
Proof. apply msum_insert_any. Qed.

Lemma msum_delete_option `{Countable Key} {V} (f : V -> Z) (m : gmap Key V) k :
  msum (fun _ x => f x) (delete k m) = msum (fun _ x => f x) m - from_option f 0 (m !! k).
Proof.
  destruct (m !! k) as [v0|] eqn:Hk; cbn; [rewrite (msum_delete _ m k v0 Hk); lia|].
  rewrite delete_id by done. lia.
Qed.

Lemma msum_option_le `{Countable Key} {V} (f : V -> Z) (m : gmap Key V) k :
  (forall k v, m !! k = Some v -> 0 <= f v) -> from_option f 0 (m !! k) <= msum (fun _ x => f x) m.
Proof.
  intros Hnn. destruct (m !! k) as [v|] eqn:Hk; [|by apply msum_nonneg]. exact (msum_lookup_le (fun _ => f) m k v Hnn Hk).
Qed.

(** [g] applied to the entries at [ks]; where it is [None] the entry is removed. *)
Section Alter.
Context `{Countable Key} {V : Type} (g : V -> option V).
Implicit Types (m : gmap Key V) (ks : list Key).
Definition alter_all ks m : gmap Key V := fold_left (fun m k => partial_alter (fun o => o ≫= g) k m) ks m.

Lemma alter_all_lookup ks m k :
  NoDup ks -> alter_all ks m !! k = if bool_decide (k ∈ ks) then m !! k ≫= g else m !! k.
Proof.
  unfold alter_all. revert m. induction ks as [|x ks IH]; intros m Hnd; cbn [fold_left]; [done|].
  apply NoDup_cons in Hnd as [Hx Hnd]. rewrite IH by done. destruct (decide (k = x)) as [->|Hne].
  - rewrite lookup_partial_alter_eq. repeat case_bool_decide; set_solver.
  - rewrite lookup_partial_alter_ne by done. repeat case_bool_decide; set_solver.
Qed.

Lemma msum_alter (f : V -> Z) m k :
  msum (fun _ v => f v) (partial_alter (fun o => o ≫= g) k m) =
    msum (fun _ v => f v) m - from_option f 0 (m !! k) + from_option f 0 (m !! k ≫= g).
Proof.
  rewrite (partial_alter_ext _ (fun _ => m !! k ≫= g)) by (by intros o <-).
  destruct (m !! k ≫= g) as [v|] eqn:Hg; cbn.
  - change (partial_alter _ k m) with (<[k := v]> m). rewrite (msum_from_option f). lia.
  - change (partial_alter _ k m) with (delete k m). rewrite (msum_delete_option f). lia.
Qed.

Lemma alter_all_sum (f cut : V -> Z) ks m :
  NoDup ks -> (forall k v, k ∈ ks -> m !! k = Some v -> from_option f 0 (g v) = f v - cut v) ->
  msum (fun _ v => f v) (alter_all ks m) = msum (fun _ v => f v) m - lsum (fun k => from_option cut 0 (m !! k)) ks.
Proof.
  unfold alter_all. revert m. induction ks as [|x ks IH]; intros m Hnd Hcut; cbn [fold_left]; [cbn; lia|].
  apply NoDup_cons in Hnd as [Hx Hnd].
  assert (forall k, k ∈ ks -> partial_alter (fun o => o ≫= g) x m !! k = m !! k) as Hsame.
  { intros k Hk. apply lookup_partial_alter_ne. intros ->. done. }
  rewrite IH by (done || (intros k v Hk; rewrite Hsame by done; apply Hcut; set_solver)).
  rewrite msum_alter, lsum_cons. rewrite (lsum_ext (fun k => from_option cut 0 (partial_alter _ x m !! k))
    (fun k => from_option cut 0 (m !! k)) ks) by (intros k Hk; by rewrite Hsame).
  destruct (m !! x) as [v|] eqn:Hv; cbn; [|lia]. rewrite (Hcut x v) by set_solver. lia.
Qed.
End Alter.

(** Writing back the entries of a map, key by key. *)
Definition write_back `{Countable Key} {V} (m : gmap Key V) (ks : list Key) (acc : gmap Key V) : gmap Key V :=
  fold_left (fun acc k => match m !! k with Some v => <[k := v]> acc | None => acc end) ks acc.

Lemma write_back_lookup `{Countable Key} {V} (m : gmap Key V) ks acc k :
  write_back m ks acc !! k = if bool_decide (k ∈ ks /\ is_Some (m !! k)) then m !! k else acc !! k.
Proof.
  unfold write_back. revert acc. induction ks as [|x ks IH]; intros acc; cbn [fold_left].
  { rewrite bool_decide_eq_false_2; [done|]. intros [Hin _]. by apply not_elem_of_nil in Hin. }
  rewrite IH. destruct (decide (k ∈ ks /\ is_Some (m !! k))) as [Hin|Hout].
  - rewrite !bool_decide_eq_true_2; [done|split; [set_solver|apply Hin]|done].
  - rewrite (bool_decide_eq_false_2 _ Hout). destruct (decide (k = x)) as [->|Hne].
    + destruct (m !! x) as [v|] eqn:Hv.
      * rewrite lookup_insert_eq, bool_decide_eq_true_2; [done|]. split; [set_solver|by eexists].
      * rewrite bool_decide_eq_false_2; [done|]. intros [_ [? ?]]. congruence.
    + rewrite (bool_decide_eq_false_2 (k ∈ x :: ks /\ _)) by set_solver.
      destruct (m !! x); [by rewrite lookup_insert_ne by done|done].
Qed.

Lemma write_back_all `{Countable Key} {V} (m : gmap Key V) ks :
  (forall k, is_Some (m !! k) -> k ∈ ks) -> write_back m ks ∅ = m.
Proof.
  intros Hks. apply map_eq. intros k. rewrite write_back_lookup, lookup_empty.
  case_bool_decide as Hk; [done|]. destruct (m !! k) eqn:Hm; [|done]. exfalso. apply Hk. split; [|done]. apply Hks. by eexists.
Qed.
