(* ===== verification/ChainSlots.v ===== *)
(** * Weighted slot sampling on chain (inference-chain/x/inference/calculations/slots.go)

    An escrow's group is drawn from the validation weights of an epoch: each slot
    hashes to a random value below the total weight and goes to the participant
    whose interval of the cumulative weights contains it.  [GetSlotFromSorted] looks
    one slot up; [GetSlotsFromSorted] draws all of them in one sweep over the sorted
    random values.  The theorems show that the sweep agrees with the lookup for every
    slot, whatever order the sort gives to equal values, and that the lookup is
    exactly proportional to the weights. *)

From stdpp Require Import sorting pretty.
From S2P Require Import Prelude.
From S2P Require Import GoStd.
Open Scope Z_scope.
Open Scope go_scope.

(** [type WeightEntry struct] *)
Record WeightEntry := MkWeight { we_Address : string; we_Weight : Z }.

(** [type slotRandom struct] *)
Record slotRandom := MkRandom { sr_randomVal : Z; sr_origIdx : nat }.

(** [slices.Sort] on strings, which compares bytes. *)
Definition str_le (a b : string) : Prop := String.leb a b = true.
#[export] Instance str_le_dec a b : Decision (str_le a b).
Proof. unfold str_le. apply _. Defined.
Definition sort_strings (l : list string) : list string := merge_sort str_le l.

(** [func PrepareSortedEntries(weights map[string]int64) ([]WeightEntry, int64)] *)
Definition PrepareSortedEntries (weights : gmap string Z) : list WeightEntry * Z :=
  let keys := sort_strings (map_to_list weights).*1 in
  let '(sortedEntries, totalWeight) :=
    fold_left (fun '(es, total) addr =>
        let w := zget 0 addr weights in
        if w <=? 0 then (es, total) else (es ++ [MkWeight addr w], i64 (total + w)))
      keys ([], 0) in
  if (totalWeight =? 0) || bool_decide (sortedEntries = []) then ([], 0)
  else (sortedEntries, totalWeight).

(** [func slotRandomVal(appHash, participantAddress, modelID string, slotIdx int, totalWeight int64) int64] *)
Definition slot_seed (appHash participantAddress modelID : string) (slotIdx : nat) : string :=
  appHash +:+ participantAddress +:+ modelID +:+ pretty (Z.of_nat slotIdx).
Definition slotRandomVal (appHash participantAddress modelID : string) (slotIdx : nat) (totalWeight : Z) : Z :=
  let hash := Sum256 (string_bytes (slot_seed appHash participantAddress modelID slotIdx)) in
  i64 (be_value (take 8 hash) mod u64 totalWeight).

(** The inner loop of [GetSlotsFromSorted]: the random values below the current
    cumulative weight go to the current entry. *)
Fixpoint fill_below (cumulative : Z) (addr : string) (randoms : list slotRandom) (result : list string)
  : list slotRandom * list string :=
  match randoms with
  | r :: rest =>
      if sr_randomVal r <? cumulative
      then fill_below cumulative addr rest (<[sr_origIdx r := addr]> result)
      else (randoms, result)
  | [] => ([], result)
  end.

(** The outer loop. *)
Fixpoint sweep (cumulative : Z) (entries : list WeightEntry) (randoms : list slotRandom) (result : list string)
  : list string :=
  match entries with
  | [] => result
  | e :: es =>
      let cumulative' := i64 (cumulative + we_Weight e) in
      let '(randoms', result') := fill_below cumulative' (we_Address e) randoms result in
      sweep cumulative' es randoms' result'
  end.

(** [func GetSlotsFromSorted(appHash, participantAddress, modelID, sortedEntries, totalWeight, nSlots) []string];
    [SortFunc] is [slices.SortFunc] by random value, which may leave equal values in
    any order. *)
Definition GetSlotsFromSorted (SortFunc : list slotRandom -> list slotRandom)
    (appHash participantAddress modelID : string) (sortedEntries : list WeightEntry) (totalWeight : Z)
    (nSlots : nat) : list string :=
  if (nSlots =? 0)%nat || (totalWeight <=? 0) then []
  else
    let randoms := (fun i => MkRandom (slotRandomVal appHash participantAddress modelID i totalWeight) i)
                     <$> seq 0 nSlots in
    sweep 0 sortedEntries (SortFunc randoms) (replicate nSlots "").

(** The loop of [GetSlotFromSorted]. *)
Fixpoint find_entry (cumulative : Z) (entries : list WeightEntry) (randomVal : Z) : option string :=
  match entries with
  | [] => None
  | e :: es =>
      let cumulative' := i64 (cumulative + we_Weight e) in
      if randomVal <? cumulative' then Some (we_Address e) else find_entry cumulative' es randomVal
  end.

(** [func GetSlotFromSorted(appHash, participantAddress, modelID, sortedEntries, totalWeight, slotIdx) string] *)
Definition GetSlotFromSorted (appHash participantAddress modelID : string)
    (sortedEntries : list WeightEntry) (totalWeight : Z) (slotIdx : nat) : string :=
  if bool_decide (sortedEntries = []) || (totalWeight <=? 0) then ""
  else
    let randomVal := slotRandomVal appHash participantAddress modelID slotIdx totalWeight in
    match find_entry 0 sortedEntries randomVal with
    | Some addr => addr
    | None => from_option we_Address "" (last sortedEntries)
    end.

(** [func ComputeSampledSlotCount(modelVotingPower, totalNetworkWeight int64, nSlots int) int] *)
Definition ComputeSampledSlotCount (modelVotingPower totalNetworkWeight nSlots : Z) : Z :=
  if (nSlots <=? 0) || (modelVotingPower <=? 0) || (totalNetworkWeight <=? 0) then 0
  else if totalNetworkWeight <=? modelVotingPower then nSlots
  else
    let groupSlots := Z.quot (i64 (modelVotingPower * nSlots)) totalNetworkWeight in
    if groupSlots <=? 0 then 0
    else if nSlots <=? groupSlots then nSlots
    else groupSlots.

(* ------------------------------------------------------------------ *)
(** ** Specification *)

(** What a sort by random value promises. *)
Definition sorts_randoms (SortFunc : list slotRandom -> list slotRandom) : Prop :=
  forall l, SortFunc l ≡ₚ l /\ StronglySorted (fun a b => sr_randomVal a <= sr_randomVal b) (SortFunc l).

Definition weight_sum (entries : list WeightEntry) : Z := lsum we_Weight entries.

(** A list of entries as [PrepareSortedEntries] leaves it: positive weights whose
    sum fits in an [int64], and no address twice. *)
Definition entries_ok (entries : list WeightEntry) : Prop :=
  Forall (fun e => 0 < we_Weight e) entries /\ weight_sum entries < 2 ^ 63 /\ NoDup (we_Address <$> entries).

(* ------------------------------------------------------------------ *)
(** ** The sweep *)

Lemma fill_below_spec c addr randoms result :
  exists pre post, randoms = pre ++ post /\ Forall (fun r => sr_randomVal r < c) pre /\
    (forall r, head post = Some r -> c <= sr_randomVal r) /\
    fill_below c addr randoms result =
      (post, fold_left (fun l r => <[sr_origIdx r := addr]> l) pre result).
Proof.
  revert result. induction randoms as [|r rest IH]; intros result; cbn [fill_below].
  - exists [], []. by repeat split.
  - destruct (Z.ltb_spec (sr_randomVal r) c) as [Hlt|Hge].
    + destruct (IH (<[sr_origIdx r := addr]> result)) as (pre & post & -> & Hpre & Hpost & ->).
      exists (r :: pre), post. by repeat split; try constructor.
    + exists [], (r :: rest). split; [done|]. split; [done|]. split; [by intros ? [= <-]|done].
Qed.

Lemma fill_lookup addr pre (result : list string) i :
  Forall (fun r => (sr_origIdx r < length result)%nat) pre ->
  fold_left (fun l r => <[sr_origIdx r := addr]> l) pre result !! i =
  if decide (i ∈ sr_origIdx <$> pre) then Some addr else result !! i.
Proof.
  revert result. induction pre as [|r pre IH]; intros result Hlt; cbn [fold_left fmap list_fmap].
  - by rewrite decide_False by apply not_elem_of_nil.
  - apply Forall_cons in Hlt as [Hr Hlt]. rewrite IH by (by rewrite length_insert).
    destruct (decide (i ∈ sr_origIdx <$> pre)) as [Hin|Hni]; [by rewrite decide_True by (by constructor)|].
    destruct (decide (i = sr_origIdx r)) as [->|Hne].
    + rewrite decide_True by constructor. by apply list_lookup_insert_eq.
    + rewrite decide_False by (intros [?|?]%elem_of_cons; done). by apply list_lookup_insert_ne.
Qed.

Lemma fill_length addr pre (result : list string) :
  length (fold_left (fun l r => <[sr_origIdx r := addr]> l) pre result) = length result.
Proof. revert result. induction pre as [|r pre IH]; intros result; [done|]. cbn. by rewrite IH, length_insert. Qed.

Lemma sorted_head_le c post :
  StronglySorted (fun a b => sr_randomVal a <= sr_randomVal b) post ->
  (forall r, head post = Some r -> c <= sr_randomVal r) -> Forall (fun r => c <= sr_randomVal r) post.
Proof.
  destruct post as [|r post]; [done|]. intros [_ Hall]%StronglySorted_inv Hh. specialize (Hh r eq_refl).
  constructor; [done|]. eapply Forall_impl; [done|]. intros. cbn in *. lia.
Qed.

(** The sweep leaves in every slot what the lookup finds for its random value. *)
Lemma sweep_lookup c entries randoms result i :
  StronglySorted (fun a b => sr_randomVal a <= sr_randomVal b) randoms ->
  NoDup (sr_origIdx <$> randoms) -> Forall (fun r => (sr_origIdx r < length result)%nat) randoms ->
  (i ∉ sr_origIdx <$> randoms -> sweep c entries randoms result !! i = result !! i) /\
  (forall r, r ∈ randoms -> sr_origIdx r = i ->
     sweep c entries randoms result !! i =
     match find_entry c entries (sr_randomVal r) with Some a => Some a | None => result !! i end).
Proof.
  revert c randoms result. induction entries as [|e es IH]; intros c randoms result Hs Hnd Hlt; [done|].
  cbn [sweep find_entry]. set (c' := i64 (c + we_Weight e)).
  destruct (fill_below_spec c' (we_Address e) randoms result) as (pre & post & -> & Hpre & Hhead & ->).
  apply StronglySorted_app in Hs as (_ & _ & Hpost). rewrite fmap_app in Hnd |- *.
  apply NoDup_app in Hnd as (Hnd1 & Hdis & Hnd2). apply Forall_app in Hlt as [Hlt1 Hlt2].
  pose proof (sorted_head_le _ _ Hpost Hhead) as Hge.
  destruct (IH c' post (fold_left (fun l r => <[sr_origIdx r := we_Address e]> l) pre result)) as [IHn IHy];
    [done|done|by rewrite fill_length|]. rewrite fill_lookup in IHn, IHy by done.
  split.
  - intros Hni. rewrite IHn by (intros ?; apply Hni, elem_of_app; by right).
    rewrite decide_False; [done|]. intros ?. apply Hni, elem_of_app. by left.
  - intros r Hr Hi. apply elem_of_app in Hr as [Hr|Hr].
    + assert (i ∈ sr_origIdx <$> pre) as Hin by (apply list_elem_of_fmap; eauto).
      rewrite Forall_forall in Hpre. specialize (Hpre _ Hr). cbn in Hpre.
      replace (sr_randomVal r <? c') with true by lia.
      rewrite IHn by (intros ?; by apply (Hdis i)). by rewrite decide_True.
    + rewrite Forall_forall in Hge. specialize (Hge _ Hr). cbn in Hge.
      replace (sr_randomVal r <? c') with false by lia. rewrite (IHy r Hr Hi).
      rewrite decide_False; [done|]. intros ?. apply (Hdis i); [done|]. apply list_elem_of_fmap. eauto.
Qed.

Lemma sweep_length c entries randoms result : length (sweep c entries randoms result) = length result.
Proof.
  revert c randoms result. induction entries as [|e es IH]; intros c randoms result; [done|]. cbn [sweep].
  destruct (fill_below_spec (i64 (c + we_Weight e)) (we_Address e) randoms result) as (pre & post & _ & _ & _ & ->).
  by rewrite IH, fill_length.
Qed.

(* ------------------------------------------------------------------ *)
(** ** The lookup *)

Lemma weight_sum_nonneg entries : Forall (fun e => 0 < we_Weight e) entries -> 0 <= lsum we_Weight entries.
Proof.
  intros Hp. apply lsum_nonneg. intros a Ha. rewrite Forall_forall in Hp. specialize (Hp a Ha). cbn in Hp. lia.
Qed.

(** Below the total weight the lookup finds an entry. *)
Lemma find_entry_total c entries r :
  Forall (fun e => 0 < we_Weight e) entries -> 0 <= c -> c + weight_sum entries < 2 ^ 63 ->
  r < c + weight_sum entries -> c <= r ->
  exists e, e ∈ entries /\ find_entry c entries r = Some (we_Address e).
Proof.
  unfold weight_sum. revert c. induction entries as [|e es IH]; intros c Hpos Hc Hsum Hr Hle.
  { cbn in Hr. lia. }
  apply Forall_cons in Hpos as [He Hpos]. rewrite lsum_cons in Hsum, Hr.
  pose proof (weight_sum_nonneg es Hpos).
  cbn [find_entry]. rewrite i64_small by (unfold is_i64; lia).
  destruct (Z.ltb_spec r (c + we_Weight e)); [exists e; split; [constructor|done]|].
  destruct (IH (c + we_Weight e)) as (e' & Hin & Hf); [done|lia..|]. exists e'. split; [by constructor|done].
Qed.

Lemma find_entry_in c entries r a : find_entry c entries r = Some a -> a ∈ we_Address <$> entries.
Proof.
  revert c. induction entries as [|e es IH]; intros c; cbn [find_entry]; [done|].
  destruct (r <? _); [intros [= <-]; constructor|]. intros Hf. constructor. by eapply IH.
Qed.

(** Every address is found for exactly as many values as its weight. *)
Lemma find_entry_count c entries e :
  entries_ok entries -> 0 <= c -> c + weight_sum entries < 2 ^ 63 -> e ∈ entries ->
  Z.of_nat (length (filter (fun r => find_entry c entries r = Some (we_Address e))
                      (seqZ c (weight_sum entries)))) = we_Weight e.
Proof.
  unfold weight_sum. revert c. induction entries as [|e0 es IH]; intros c Hok Hc Hsum Hin; [by apply not_elem_of_nil in Hin|].
  destruct Hok as ((He0 & Hpos)%Forall_cons & Htot & (Hni & Hnd)%NoDup_cons). unfold weight_sum in Htot.
  rewrite lsum_cons in Hsum, Htot |- *.
  pose proof (weight_sum_nonneg es Hpos) as Hnn.
  rewrite seqZ_app, filter_app, length_app, Nat2Z.inj_add by lia.
  assert (forall r, find_entry c (e0 :: es) r =
                    if r <? c + we_Weight e0 then Some (we_Address e0) else find_entry (c + we_Weight e0) es r) as Hf.
  { intros r. cbn [find_entry]. by rewrite i64_small by (unfold is_i64; lia). }
  apply elem_of_cons in Hin as [->|Hin].
  - rewrite filter_all, filter_none, length_seqZ; [cbn; lia|..].
    + intros r Hr%elem_of_seqZ. rewrite Hf. replace (r <? c + we_Weight e0) with false by lia.
      intros ?%find_entry_in. done.
    + intros r Hr%elem_of_seqZ. rewrite Hf. by replace (r <? c + we_Weight e0) with true by lia.
  - assert (we_Address e0 <> we_Address e) as Hne by (intros Heq; apply Hni; rewrite Heq; apply list_elem_of_fmap; eauto).
    rewrite filter_none.
    + rewrite (filter_iff_in _ (fun r => find_entry (c + we_Weight e0) es r = Some (we_Address e))).
      * rewrite IH; [done| |lia|lia|done]. split; [done|]. split; [unfold weight_sum; lia|done].
      * intros r Hr%elem_of_seqZ. rewrite Hf. by replace (r <? c + we_Weight e0) with false by lia.
    + intros r Hr%elem_of_seqZ. rewrite Hf. replace (r <? c + we_Weight e0) with true by lia. naive_solver.
Qed.

(* ------------------------------------------------------------------ *)
(** ** Preparing the entries *)

Lemma prepare_fold weights keys es total :
  0 <= total -> total + lsum (fun k => Z.max 0 (zget 0 k weights)) keys < 2 ^ 63 ->
  fold_left (fun '(es, total) addr =>
        let w := zget 0 addr weights in
        if w <=? 0 then (es, total) else (es ++ [MkWeight addr w], i64 (total + w))) keys (es, total) =
  (es ++ ((fun k => MkWeight k (zget 0 k weights)) <$> filter (fun k => 0 < zget 0 k weights) keys),
   total + lsum (fun k => Z.max 0 (zget 0 k weights)) keys).
Proof.
  revert es total. induction keys as [|k keys IH]; intros es total Htot Hsum; cbn [fold_left].
  - cbn. by rewrite app_nil_r, Z.add_0_r.
  - rewrite lsum_cons in Hsum |- *. rewrite filter_cons.
    assert (0 <= lsum (fun k => Z.max 0 (zget 0 k weights)) keys) by (apply lsum_nonneg; lia).
    destruct (Z.leb_spec (zget 0 k weights) 0) as [Hle|Hgt].
    + rewrite decide_False by lia. rewrite IH by lia. f_equal. lia.
    + rewrite decide_True by lia. rewrite i64_small by (unfold is_i64; lia). rewrite IH by lia.
      rewrite <-app_assoc. f_equal. lia.
Qed.

Lemma lsum_filter_pos (f : string -> Z) keys :
  lsum (fun k => Z.max 0 (f k)) keys = lsum f (filter (fun k => 0 < f k) keys).
Proof.
  induction keys as [|k keys IH]; [done|]. rewrite lsum_cons, filter_cons, IH.
  destruct (decide (0 < f k)); [rewrite lsum_cons|]; lia.
Qed.

Lemma prepare_spec weights entries total :
  msum (fun _ w => Z.max 0 w) weights < 2 ^ 63 -> PrepareSortedEntries weights = (entries, total) ->
  entries_ok entries /\ total = weight_sum entries /\
  (forall a w, MkWeight a w ∈ entries <-> weights !! a = Some w /\ 0 < w).
Proof.
  intros Hsum. unfold PrepareSortedEntries. set (keys := sort_strings (map_to_list weights).*1).
  assert (keys ≡ₚ (map_to_list weights).*1) as Hk by apply merge_sort_Permutation.
  assert (NoDup keys) as Hnd by (rewrite Hk; apply NoDup_fst_map_to_list).
  assert (lsum (fun k => Z.max 0 (zget 0 k weights)) keys = msum (fun _ w => Z.max 0 w) weights) as Hms.
  { rewrite Hk, msum_map_to_list, lsum_fmap. apply lsum_ext. intros [k w] Hin%elem_of_map_to_list.
    cbn. unfold zget. by rewrite Hin. }
  rewrite prepare_fold by (rewrite ?Hms; lia). cbn [app]. rewrite Z.add_0_l, lsum_filter_pos.
  set (pos := filter (fun k => 0 < zget 0 k weights) keys).
  set (es := (fun k => MkWeight k (zget 0 k weights)) <$> pos).
  assert (weight_sum es = lsum (fun k => zget 0 k weights) pos) as Hws by (unfold weight_sum, es; by rewrite lsum_fmap).
  assert (forall a w, MkWeight a w ∈ es <-> weights !! a = Some w /\ 0 < w) as Hmem.
  { intros a w. unfold es, pos. rewrite list_elem_of_fmap. setoid_rewrite list_elem_of_filter.
    setoid_rewrite Hk. setoid_rewrite list_elem_of_fmap. split.
    - intros (k & [= -> ->] & Hpos & [? ?] & -> & Hin%elem_of_map_to_list). cbn in *.
      unfold zget in *. rewrite Hin in *. done.
    - intros [Hw Hpos]. exists a. unfold zget. rewrite Hw. split; [done|]. split; [done|].
      exists (a, w). split; [done|]. by apply elem_of_map_to_list. }
  assert (entries_ok es) as Hok.
  { split; [apply Forall_forall; intros [a w] [_ ?]%Hmem; done|]. split.
    - rewrite Hws. subst pos. rewrite <-lsum_filter_pos, Hms. done.
    - unfold es. rewrite <-list_fmap_compose. cbn. rewrite list_fmap_id. by apply NoDup_filter. }
  rewrite <-Hws. destruct (decide (es = [])) as [He|Hne].
  - rewrite bool_decide_eq_true_2, orb_true_r by done. intros [= <- <-]. rewrite <-He. split; [done|].
    split; [by rewrite He|done].
  - rewrite bool_decide_eq_false_2, orb_false_r by done. intros Hres.
    destruct es as [|e es'] eqn:Ees; [done|]. destruct Hok as (Hp & ?).
    assert (0 < weight_sum (e :: es')).
    { unfold weight_sum. rewrite lsum_cons. apply Forall_cons in Hp as [? Hp].
      pose proof (weight_sum_nonneg es' Hp). lia. }
    replace (weight_sum (e :: es') =? 0) with false in Hres by lia. injection Hres as <- <-. done.
Qed.

(* ------------------------------------------------------------------ *)
(** ** Theorems *)

Lemma slotRandomVal_range appHash addr model i total :
  0 < total < 2 ^ 63 -> 0 <= slotRandomVal appHash addr model i total < total.
Proof.
  intros Ht. unfold slotRandomVal. rewrite (u64_small total) by (unfold is_u64; lia).
  pose proof (Z.mod_pos_bound (be_value (take 8 (Sum256 (string_bytes (slot_seed appHash addr model i))))) total ltac:(lia)).
  rewrite i64_small; [done|]. unfold is_i64. lia.
Qed.

Lemma GetSlot_found appHash addr model entries i :
  entries_ok entries -> 0 < weight_sum entries ->
  exists e, e ∈ entries /\
    find_entry 0 entries (slotRandomVal appHash addr model i (weight_sum entries)) = Some (we_Address e) /\
    GetSlotFromSorted appHash addr model entries (weight_sum entries) i = we_Address e.
Proof.
  intros (Hp & Hs & _) Ht. pose proof (slotRandomVal_range appHash addr model i (weight_sum entries) ltac:(lia)) as Hr.
  destruct (find_entry_total 0 entries _ Hp ltac:(lia) ltac:(lia) ltac:(rewrite Z.add_0_l; apply Hr) ltac:(lia))
    as (e & Hin & Hf). exists e. split; [done|]. split; [done|].
  unfold GetSlotFromSorted. rewrite bool_decide_eq_false_2 by (intros ->; by apply not_elem_of_nil in Hin).
  replace (weight_sum entries <=? 0) with false by lia. cbn [orb]. by rewrite Hf.
Qed.

(** The sweep gives every slot what the lookup gives it. *)
Lemma slots_are_lookups SortFunc appHash addr model entries n :
  sorts_randoms SortFunc -> entries_ok entries -> 0 < weight_sum entries ->
  GetSlotsFromSorted SortFunc appHash addr model entries (weight_sum entries) n =
    GetSlotFromSorted appHash addr model entries (weight_sum entries) <$> seq 0 n.
Proof.
  intros Hsort Hok Ht. unfold GetSlotsFromSorted. destruct (Nat.eqb_spec n 0) as [->|Hn]; [done|].
  replace (weight_sum entries <=? 0) with false by lia. cbn [orb].
  set (rs := (fun i => _) <$> seq 0 n). destruct (Hsort rs) as [Hp Hss].
  assert (sr_origIdx <$> rs = seq 0 n) as Hidx by (unfold rs; rewrite <-list_fmap_compose; apply list_fmap_id).
  apply list_eq. intros i. destruct (decide (i < n)%nat) as [Hi|Hi].
  - set (r := MkRandom (slotRandomVal appHash addr model i (weight_sum entries)) i).
    assert (r ∈ SortFunc rs) as Hin.
    { rewrite Hp. apply list_elem_of_fmap. exists i. split; [done|]. apply elem_of_seq. lia. }
    destruct (sweep_lookup 0 entries (SortFunc rs) (replicate n "") i Hss) as [_ Hl].
    { rewrite Hp, Hidx. apply NoDup_seq. }
    { rewrite Hp. apply Forall_fmap, Forall_seq. intros j Hj. cbn. rewrite length_replicate. lia. }
    rewrite (Hl r Hin eq_refl). cbn [sr_randomVal r].
    destruct (GetSlot_found appHash addr model entries i Hok Ht) as (e & _ & -> & Hg).
    rewrite list_lookup_fmap, lookup_seq_lt by lia. cbn. by rewrite Hg.
  - rewrite !lookup_ge_None_2; [done|..]; rewrite ?sweep_length, ?length_fmap, ?length_seq, ?length_replicate; lia.
Qed.

(** The lookup finds a participant of positive weight. *)
Lemma lookup_member appHash addr model weights entries total i :
  msum (fun _ w => Z.max 0 w) weights < 2 ^ 63 -> PrepareSortedEntries weights = (entries, total) -> 0 < total ->
  exists w, weights !! GetSlotFromSorted appHash addr model entries total i = Some w /\ 0 < w.
Proof.
  intros Hsum Hprep Ht. destruct (prepare_spec _ _ _ Hsum Hprep) as (Hok & -> & Hmem).
  destruct (GetSlot_found appHash addr model entries i Hok Ht) as ([a w] & Hin & _ & ->).
  exists w. by apply Hmem.
Qed.

(** Drawing all slots of a group in one sweep over the sorted random values
    gives every slot the participant that the one-slot lookup gives it, however the
    sort orders equal values; so the group has the requested size and every member
    has a positive weight. *)
Theorem slots_sweep_exact SortFunc appHash addr model weights entries total n :
  sorts_randoms SortFunc -> msum (fun _ w => Z.max 0 w) weights < 2 ^ 63 ->
  PrepareSortedEntries weights = (entries, total) -> 0 < total ->
  GetSlotsFromSorted SortFunc appHash addr model entries total n =
    GetSlotFromSorted appHash addr model entries total <$> seq 0 n /\
  Forall (fun a => exists w, weights !! a = Some w /\ 0 < w)
    (GetSlotsFromSorted SortFunc appHash addr model entries total n).
Proof.
  intros Hsort Hsum Hprep Ht. destruct (prepare_spec _ _ _ Hsum Hprep) as (Hok & Htot & _).
  assert (GetSlotsFromSorted SortFunc appHash addr model entries total n =
    GetSlotFromSorted appHash addr model entries total <$> seq 0 n) as Heq by (subst total; by apply slots_are_lookups).
  split; [done|]. rewrite Heq. apply Forall_fmap, Forall_forall. intros i _. by apply lookup_member.
Qed.

(** Slot sampling is exactly proportional: the random value of a slot is below
    the total weight, the slot goes to the participant found for that value, and a
    participant is found for exactly as many of the values as its weight. *)
Theorem slots_proportional appHash addr model weights entries total i a w :
  msum (fun _ w => Z.max 0 w) weights < 2 ^ 63 -> PrepareSortedEntries weights = (entries, total) ->
  weights !! a = Some w -> 0 < w ->
  let r := slotRandomVal appHash addr model i total in
  0 <= r < total /\
  find_entry 0 entries r = Some (GetSlotFromSorted appHash addr model entries total i) /\
  Z.of_nat (length (filter (fun r => find_entry 0 entries r = Some a) (seqZ 0 total))) = w.
Proof.
  intros Hsum Hprep Ha Hw. destruct (prepare_spec _ _ _ Hsum Hprep) as (Hok & -> & Hmem).
  assert (MkWeight a w ∈ entries) as Hin by (by apply Hmem).
  assert (0 < weight_sum entries) as Ht.
  { destruct Hok as (Hp & _). apply list_elem_of_split in Hin as (l1 & l2 & ->). unfold weight_sum.
    rewrite lsum_app, lsum_cons. cbn.
    apply Forall_app in Hp as [Hp1 [_ Hp2]%Forall_cons].
    pose proof (weight_sum_nonneg l1 Hp1). pose proof (weight_sum_nonneg l2 Hp2). lia. }
  cbn zeta. split; [apply slotRandomVal_range; destruct Hok; lia|]. split.
  - destruct (GetSlot_found appHash addr model entries i Hok Ht) as (e & _ & -> & ->). done.
  - apply (find_entry_count 0 entries (MkWeight a w)); [done|lia|destruct Hok; lia|done].
Qed.

(** The number of slots sampled from a model is the floor of its share, never more
    than the group, when the product does not leave the [int64] range. *)
Lemma ComputeSampledSlotCount_floor power total n :
  0 < n -> 0 < power < total -> power * n < 2 ^ 63 ->
  ComputeSampledSlotCount power total n = power * n / total /\ 0 <= power * n / total < n.
Proof.
  intros Hn Hp Hov. assert (0 <= power * n / total < n) as Hr.
  { split; [apply Z.div_pos; nia|]. apply Z.div_lt_upper_bound; nia. }
  split; [|done]. unfold ComputeSampledSlotCount. rewrite i64_small by (unfold is_i64; nia).
  rewrite Z.quot_div_nonneg by nia.
  replace (n <=? 0) with false by lia. replace (power <=? 0) with false by lia.
  replace (total <=? 0) with false by lia. replace (total <=? power) with false by lia. cbn [orb].
  destruct (Z.leb_spec (power * n / total) 0); [lia|].
  by replace (n <=? power * n / total) with false by lia.
Qed.

(** The seed of a slot does not separate its fields, so two models can share the
    draws of some slots: slot 12 of model [m] and slot 2 of model [m1]. *)
Example slot_seed_ambiguous appHash addr total :
  slotRandomVal appHash addr "m" 12 total = slotRandomVal appHash addr "m1" 2 total.
Proof.
  unfold slotRandomVal, slot_seed. change (pretty (Z.of_nat 12)) with "12". change (pretty (Z.of_nat 2)) with "2".
  reflexivity.
Qed.
