(* ===== verification/ChainDecimal.v ===== *)
(** * Decimals of the chain

    The decimals of messages and parameters ([types.Decimal]), and what the chain uses of
    github.com/shopspring/decimal, as an interface with its documented laws. *)

From Stdlib Require Import QArith Qabs Qround Lqa.
From S2P Require Import Prelude.
Open Scope Z_scope.

(** [types.Decimal] *)
Record Decimal := MkDecimal { dc_Value : Z; dc_Exponent : Z }.

(** github.com/shopspring/decimal. *)
Class DecimalLib := {
  dec : Type;
  dec_New : Z -> Z -> dec;
  dec_Add : dec -> dec -> dec;
  dec_Sub : dec -> dec -> dec;
  dec_Mul : dec -> dec -> dec;
  dec_Div : dec -> dec -> dec;
  dec_Neg : dec -> dec;
  dec_Cmp : dec -> dec -> comparison;
  dec_Pow : dec -> dec -> dec;
  (** [None] for 0 to the power of 0. *)
  dec_PowInt32 : dec -> Z -> option dec;
  dec_Round : Z -> dec -> dec;
  dec_CoefficientInt64 : dec -> Z;
  dec_Exponent : dec -> Z;
  dec_IntPart : dec -> Z;
  (** [d.Round(0).IntPart()] *)
  dec_RoundInt : dec -> Z
}.

(** What its documentation says: a decimal is a rational; sums, products and powers are
    exact, and quotients are rounded to the nearest multiple of 10^-16. *)
Class DecimalLaws `{DecimalLib} := {
  dec_val : dec -> Q;
  dec_val_New : forall v e, (dec_val (dec_New v e) == inject_Z v * inject_Z 10 ^ e)%Q;
  dec_val_Add : forall x y, (dec_val (dec_Add x y) == dec_val x + dec_val y)%Q;
  dec_val_Sub : forall x y, (dec_val (dec_Sub x y) == dec_val x - dec_val y)%Q;
  dec_val_Mul : forall x y, (dec_val (dec_Mul x y) == dec_val x * dec_val y)%Q;
  dec_val_Neg : forall x, (dec_val (dec_Neg x) == - dec_val x)%Q;
  dec_val_PowInt32 : forall x n, 0 < n -> exists y, dec_PowInt32 x n = Some y /\ (dec_val y == dec_val x ^ n)%Q;
  dec_Div_near : forall x y, ~ (dec_val y == 0)%Q -> (Qabs (dec_val (dec_Div x y) - dec_val x / dec_val y) <= 1 # (2 * 10 ^ 16))%Q;
  dec_Div_multiple : forall x y, exists k, (dec_val (dec_Div x y) == k # (10 ^ 16))%Q;
  dec_Cmp_spec : forall x y, dec_Cmp x y = (dec_val x ?= dec_val y)%Q;
  dec_IntPart_floor : forall x, (0 <= dec_val x)%Q -> Qfloor (dec_val x) < 2 ^ 63 -> dec_IntPart x = Qfloor (dec_val x);
  dec_IntPart_range : forall x, - 2 ^ 63 <= dec_IntPart x < 2 ^ 63
}.

Section Decimals.
Context `{!DecimalLib}.

(** [decimal.NewFromInt], [decimal.NewFromUint64] *)
Definition NewFromInt (n : Z) : dec := dec_New n 0.
Definition dec_LessThan (x y : dec) : bool := match dec_Cmp x y with Lt => true | _ => false end.
Definition dec_LessThanOrEqual (x y : dec) : bool := match dec_Cmp x y with Gt => false | _ => true end.
Definition dec_GreaterThan (x y : dec) : bool := match dec_Cmp x y with Gt => true | _ => false end.
Definition dec_GreaterThanOrEqual (x y : dec) : bool := match dec_Cmp x y with Lt => false | _ => true end.
Definition dec_Equal (x y : dec) : bool := match dec_Cmp x y with Eq => true | _ => false end.

(** [func (d *Decimal) ToDecimal()], [func DecimalFromDecimal(d decimal.Decimal) *Decimal] *)
Definition ToDecimal (d : Decimal) : dec := dec_New (dc_Value d) (dc_Exponent d).
Definition DecimalFromDecimal (d : dec) : Decimal := MkDecimal (dec_CoefficientInt64 d) (dec_Exponent d).
End Decimals.

Section Values.
Context `{!DecimalLib} `{!DecimalLaws}.
Local Open Scope Q_scope.

Lemma val_int n : dec_val (NewFromInt n) == inject_Z n.
Proof. unfold NewFromInt. rewrite dec_val_New. cbn. ring. Qed.

(** The comparison of two decimals whose values are fractions of the same denominator. *)
Lemma gt_val x y m n (d : positive) : dec_val x == m # d -> dec_val y == n # d -> dec_GreaterThan x y = (n <? m)%Z.
Proof.
  intros Hx Hy. unfold dec_GreaterThan. rewrite dec_Cmp_spec, (Qcompare_comp _ _ Hx _ _ Hy). unfold Qcompare. cbn [Qnum Qden].
  pose proof (Pos2Z.is_pos d) as Hd. destruct (Z.compare_spec (m * Z.pos d) (n * Z.pos d)), (Z.ltb_spec n m); try done; nia.
Qed.
Lemma le_val x y m n (d : positive) : dec_val x == m # d -> dec_val y == n # d -> dec_LessThanOrEqual x y = (m <=? n)%Z.
Proof.
  intros Hx Hy. pose proof (gt_val x y m n d Hx Hy) as Hgt. unfold dec_GreaterThan, dec_LessThanOrEqual in *.
  destruct (Z.leb_spec m n), (Z.ltb_spec n m); try lia; by destruct (dec_Cmp x y).
Qed.

(** A quotient of integers is rounded, but not past an integer when the divisor is below
    10^16: its integer part is exact. *)
Lemma floor_near (a b : Z) (q : Q) : (0 <= a)%Z -> (0 < b < 10 ^ 16)%Z ->
  (exists k, q == k # (10 ^ 16)) -> Qabs (q - inject_Z a / inject_Z b) <= 1 # (2 * 10 ^ 16) ->
  Qfloor q = (a / b)%Z /\ 0 <= q.
Proof.
  intros Ha Hb [k Hk] Hq. rewrite Hk in Hq. apply Qabs_Qle_condition in Hq as [H1 H2].
  assert (inject_Z a / inject_Z b == a # Z.to_pos b) as Hab.
  { destruct b as [|b|b]; try lia. unfold Qeq, Qdiv, Qmult, Qinv. cbn. lia. }
  rewrite Hab in H1, H2. unfold Qle, Qminus, Qplus, Qopp in H1, H2. cbn [Qnum Qden] in H1, H2.
  rewrite !Pos2Z.inj_mul, !Z2Pos.id in * by lia. change (Z.pos (10 ^ 16)) with (10 ^ 16)%Z in *.
  pose proof (Z.div_mod a b ltac:(lia)) as Hdm. pose proof (Z.mod_pos_bound a b ltac:(lia)) as Hm.
  set (d := (a / b)%Z) in *. set (r := (a mod b)%Z) in *. assert (0 <= d)%Z by (apply Z.div_pos; lia).
  assert (2 * (k * b - a * 10 ^ 16) <= b /\ - b <= 2 * (k * b - a * 10 ^ 16))%Z as [Hlo Hhi] by (change (Z.pos 2) with 2%Z in *; nia).
  assert (d * 10 ^ 16 <= k < (d + 1) * 10 ^ 16)%Z as [Hk1 Hk2] by (split; nia).
  split; [|rewrite Hk; unfold Qle; cbn [Qnum Qden]; nia].
  rewrite (Qfloor_comp _ _ Hk). unfold Qfloor. change (Z.pos (10 ^ 16)) with (10 ^ 16)%Z. symmetry.
  apply (Z.div_unique k (10 ^ 16) d (k - d * 10 ^ 16)); lia.
Qed.

Lemma div_int x y a b : (0 <= a)%Z -> (0 < b < 10 ^ 16)%Z -> (a / b < 2 ^ 63)%Z ->
  dec_val x / dec_val y == inject_Z a / inject_Z b -> ~ dec_val y == 0 ->
  dec_IntPart (dec_Div x y) = (a / b)%Z.
Proof.
  intros Ha Hb Hr Hv Hy. pose proof (dec_Div_near x y Hy) as Hn. rewrite Hv in Hn.
  destruct (floor_near a b _ Ha Hb (dec_Div_multiple x y) Hn) as [Hf Hpos]. rewrite <-Hf in *. by apply dec_IntPart_floor.
Qed.
End Values.
