(* ===== verification/ChainStats.v ===== *)
(** * The test for missed requests

    Whether the requests that a participant missed are more than chance explains:
    inference-chain/x/inference/calculations/stats.go and stats_table.go.  For the usual
    rates the test looks up critical values; for others it computes a binomial tail. *)

From Stdlib Require Import QArith Qpower.
From S2P Require Import Prelude.
From S2P Require Import GoStd.
From S2P Require Import ChainDecimal.
Open Scope Z_scope.
Open Scope go_scope.

(* ------------------------------------------------------------------ *)
(** ** The tables *)

Record Threshold := MkThreshold { th_Total : Z; th_CriticalMisses : Z }.
Definition thresholds (rows : list (Z * Z)) : list Threshold := (fun r => MkThreshold r.1 r.2) <$> rows.
Definition maxTableN : Z := 990.

Definition criticalValueTableP005 : list Threshold := thresholds [
  (2, 2); (3, 3); (4, 4); (5, 4); (6, 4); (7, 4); (8, 4); (9, 4); (10, 4); (20, 4); (30, 4); (40, 4);
  (50, 5); (60, 5); (70, 6); (80, 7); (90, 7); (100, 8); (110, 9); (120, 9); (130, 10); (140, 11); (150, 11); (160, 12);
  (170, 13); (180, 13); (190, 14); (200, 15); (210, 15); (220, 16); (230, 16); (240, 17); (250, 18); (260, 18); (270, 19); (280, 19);
  (290, 20); (300, 21); (310, 21); (320, 22); (330, 23); (340, 23); (350, 24); (360, 24); (370, 25); (380, 25); (390, 26); (400, 27);
  (410, 27); (420, 28); (430, 28); (440, 29); (450, 30); (460, 30); (470, 31); (480, 31); (490, 32); (500, 33); (510, 33); (520, 34);
  (530, 34); (540, 35); (550, 35); (560, 36); (570, 37); (580, 37); (590, 38); (600, 38); (610, 39); (620, 39); (630, 40); (640, 41);
  (650, 41); (660, 42); (670, 42); (680, 43); (690, 43); (700, 44); (710, 45); (720, 45); (730, 46); (740, 46); (750, 47); (760, 47);
  (770, 48); (780, 49); (790, 49); (800, 50); (810, 50); (820, 51); (830, 51); (840, 52); (850, 52); (860, 53); (870, 54); (880, 54);
  (890, 55); (900, 55); (910, 56); (920, 56); (930, 57); (940, 57); (950, 58); (960, 59); (970, 59); (980, 60); (990, 60)].

Definition criticalValueTableP010 : list Threshold := thresholds [
  (2, 2); (3, 3); (4, 4); (5, 4); (6, 4); (7, 4); (8, 4); (9, 4); (10, 4); (20, 4); (30, 5); (40, 7);
  (50, 8); (60, 9); (70, 11); (80, 12); (90, 13); (100, 14); (110, 16); (120, 17); (130, 18); (140, 19); (150, 21); (160, 22);
  (170, 23); (180, 24); (190, 25); (200, 26); (210, 28); (220, 29); (230, 30); (240, 31); (250, 32); (260, 33); (270, 35); (280, 36);
  (290, 37); (300, 38); (310, 39); (320, 40); (330, 41); (340, 43); (350, 44); (360, 45); (370, 46); (380, 47); (390, 48); (400, 49);
  (410, 50); (420, 52); (430, 53); (440, 54); (450, 55); (460, 56); (470, 57); (480, 58); (490, 59); (500, 61); (510, 62); (520, 63);
  (530, 64); (540, 65); (550, 66); (560, 67); (570, 68); (580, 69); (590, 70); (600, 72); (610, 73); (620, 74); (630, 75); (640, 76);
  (650, 77); (660, 78); (670, 79); (680, 80); (690, 81); (700, 83); (710, 84); (720, 85); (730, 86); (740, 87); (750, 88); (760, 89);
  (770, 90); (780, 91); (790, 92); (800, 93); (810, 95); (820, 96); (830, 97); (840, 98); (850, 99); (860, 100); (870, 101); (880, 102);
  (890, 103); (900, 104); (910, 105); (920, 106); (930, 108); (940, 109); (950, 110); (960, 111); (970, 112); (980, 113); (990, 114)].

Definition criticalValueTableP020 : list Threshold := thresholds [
  (2, 2); (3, 3); (4, 4); (5, 4); (6, 4); (7, 4); (8, 4); (9, 4); (10, 4); (20, 6); (30, 9); (40, 12);
  (50, 14); (60, 17); (70, 19); (80, 21); (90, 24); (100, 26); (110, 28); (120, 31); (130, 33); (140, 35); (150, 38); (160, 40);
  (170, 42); (180, 44); (190, 47); (200, 49); (210, 51); (220, 53); (230, 55); (240, 58); (250, 60); (260, 62); (270, 64); (280, 67);
  (290, 69); (300, 71); (310, 73); (320, 75); (330, 77); (340, 80); (350, 82); (360, 84); (370, 86); (380, 88); (390, 90); (400, 93);
  (410, 95); (420, 97); (430, 99); (440, 101); (450, 103); (460, 106); (470, 108); (480, 110); (490, 112); (500, 114); (510, 116); (520, 119);
  (530, 121); (540, 123); (550, 125); (560, 127); (570, 129); (580, 131); (590, 133); (600, 136); (610, 138); (620, 140); (630, 142); (640, 144);
  (650, 146); (660, 148); (670, 151); (680, 153); (690, 155); (700, 157); (710, 159); (720, 161); (730, 163); (740, 165); (750, 168); (760, 170);
  (770, 172); (780, 174); (790, 176); (800, 178); (810, 180); (820, 182); (830, 184); (840, 187); (850, 189); (860, 191); (870, 193); (880, 195);
  (890, 197); (900, 199); (910, 201); (920, 203); (930, 206); (940, 208); (950, 210); (960, 212); (970, 214); (980, 216); (990, 218)].

Definition criticalValueTableP030 : list Threshold := thresholds [
  (2, 2); (3, 3); (4, 4); (5, 4); (6, 4); (7, 4); (8, 4); (9, 4); (10, 5); (20, 9); (30, 13); (40, 16);
  (50, 20); (60, 23); (70, 27); (80, 30); (90, 34); (100, 37); (110, 40); (120, 44); (130, 47); (140, 50); (150, 54); (160, 57);
  (170, 60); (180, 64); (190, 67); (200, 70); (210, 73); (220, 77); (230, 80); (240, 83); (250, 86); (260, 90); (270, 93); (280, 96);
  (290, 99); (300, 103); (310, 106); (320, 109); (330, 112); (340, 115); (350, 119); (360, 122); (370, 125); (380, 128); (390, 131); (400, 135);
  (410, 138); (420, 141); (430, 144); (440, 147); (450, 150); (460, 154); (470, 157); (480, 160); (490, 163); (500, 166); (510, 170); (520, 173);
  (530, 176); (540, 179); (550, 182); (560, 185); (570, 188); (580, 192); (590, 195); (600, 198); (610, 201); (620, 204); (630, 207); (640, 211);
  (650, 214); (660, 217); (670, 220); (680, 223); (690, 226); (700, 229); (710, 233); (720, 236); (730, 239); (740, 242); (750, 245); (760, 248);
  (770, 251); (780, 255); (790, 258); (800, 261); (810, 264); (820, 267); (830, 270); (840, 273); (850, 276); (860, 280); (870, 283); (880, 286);
  (890, 289); (900, 292); (910, 295); (920, 298); (930, 301); (940, 305); (950, 308); (960, 311); (970, 314); (980, 317); (990, 320)].

Definition criticalValueTableP040 : list Threshold := thresholds [
  (2, 2); (3, 3); (4, 4); (5, 4); (6, 4); (7, 4); (8, 5); (9, 6); (10, 6); (20, 11); (30, 16); (40, 21);
  (50, 25); (60, 30); (70, 34); (80, 39); (90, 43); (100, 48); (110, 52); (120, 56); (130, 61); (140, 65); (150, 69); (160, 74);
  (170, 78); (180, 82); (190, 87); (200, 91); (210, 95); (220, 99); (230, 104); (240, 108); (250, 112); (260, 116); (270, 121); (280, 125);
  (290, 129); (300, 133); (310, 138); (320, 142); (330, 146); (340, 150); (350, 155); (360, 159); (370, 163); (380, 167); (390, 171); (400, 176);
  (410, 180); (420, 184); (430, 188); (440, 192); (450, 197); (460, 201); (470, 205); (480, 209); (490, 213); (500, 218); (510, 222); (520, 226);
  (530, 230); (540, 234); (550, 238); (560, 243); (570, 247); (580, 251); (590, 255); (600, 259); (610, 263); (620, 268); (630, 272); (640, 276);
  (650, 280); (660, 284); (670, 288); (680, 293); (690, 297); (700, 301); (710, 305); (720, 309); (730, 313); (740, 317); (750, 322); (760, 326);
  (770, 330); (780, 334); (790, 338); (800, 342); (810, 346); (820, 351); (830, 355); (840, 359); (850, 363); (860, 367); (870, 371); (880, 375);
  (890, 380); (900, 384); (910, 388); (920, 392); (930, 396); (940, 400); (950, 404); (960, 408); (970, 413); (980, 417); (990, 421)].

Definition criticalValueTableP050 : list Threshold := thresholds [
  (2, 2); (3, 3); (4, 4); (5, 4); (6, 5); (7, 5); (8, 6); (9, 6); (10, 7); (20, 13); (30, 19); (40, 25);
  (50, 30); (60, 36); (70, 41); (80, 47); (90, 52); (100, 58); (110, 63); (120, 69); (130, 74); (140, 79); (150, 85); (160, 90);
  (170, 95); (180, 101); (190, 106); (200, 111); (210, 116); (220, 122); (230, 127); (240, 132); (250, 138); (260, 143); (270, 148); (280, 153);
  (290, 159); (300, 164); (310, 169); (320, 174); (330, 179); (340, 185); (350, 190); (360, 195); (370, 200); (380, 206); (390, 211); (400, 216);
  (410, 221); (420, 226); (430, 232); (440, 237); (450, 242); (460, 247); (470, 252); (480, 258); (490, 263); (500, 268); (510, 273); (520, 278);
  (530, 283); (540, 289); (550, 294); (560, 299); (570, 304); (580, 309); (590, 314); (600, 320); (610, 325); (620, 330); (630, 335); (640, 340);
  (650, 345); (660, 351); (670, 356); (680, 361); (690, 366); (700, 371); (710, 376); (720, 382); (730, 387); (740, 392); (750, 397); (760, 402);
  (770, 407); (780, 412); (790, 418); (800, 423); (810, 428); (820, 433); (830, 438); (840, 443); (850, 448); (860, 454); (870, 459); (880, 464);
  (890, 469); (900, 474); (910, 479); (920, 484); (930, 490); (940, 495); (950, 500); (960, 505); (970, 510); (980, 515); (990, 520)].

Definition criticalValueTables (permille : Z) : option (list Threshold) :=
  if permille =? 50 then Some criticalValueTableP005
  else if permille =? 100 then Some criticalValueTableP010
  else if permille =? 200 then Some criticalValueTableP020
  else if permille =? 300 then Some criticalValueTableP030
  else if permille =? 400 then Some criticalValueTableP040
  else if permille =? 500 then Some criticalValueTableP050
  else None.
(** Numerator and denominator of the rate that is used beyond the tables. *)
Definition p0Multipliers (permille : Z) : option (Z * Z) :=
  if permille =? 50 then Some (1, 20)
  else if permille =? 100 then Some (1, 10)
  else if permille =? 200 then Some (1, 5)
  else if permille =? 300 then Some (3, 10)
  else if permille =? 400 then Some (2, 5)
  else if permille =? 500 then Some (1, 2)
  else None.

(* ------------------------------------------------------------------ *)
(** ** The test *)

(** [table[i]], in the search. *)
Definition total_above (table : list Threshold) (nTotal : Z) (i : nat) : bool :=
  match table !! i with Some t => nTotal <? th_Total t | None => false end.

(** [None] is an error. *)
Definition MissedStatTestLookupWithP0 (nMissed nTotal p0Permille : Z) : option bool :=
  if nTotal =? 0 then Some true
  else if (nMissed <? 0) || (nTotal <? 0) || (nTotal <? nMissed) then None
  else
    table ← criticalValueTables p0Permille;
    if maxTableN <? nTotal then
      multiplier ← p0Multipliers p0Permille;
      Some (i64 (nMissed * multiplier.2) <=? i64 (nTotal * multiplier.1))
    else
      match Search (length table) (total_above table nTotal) with
      | O => Some true
      | S idx => t ← table !! idx; Some (nMissed <=? th_CriticalMisses t)
      end.

Section Binomial.
Context `{!DecimalLib}.

Definition decimalToPermille (p0 : dec) : Z :=
  let permille := dec_IntPart (dec_Mul p0 (NewFromInt 1000)) in
  if bool_decide (is_Some (criticalValueTables permille)) then permille else -1.

(** [pow(base, exp, prec)]: the loop has one round for each bit of the exponent. *)
Fixpoint pow_loop (result b : dec) (exp : positive) : dec :=
  match exp with
  | xH => dec_Mul result b
  | xO exp' => pow_loop result (dec_Mul b b) exp'
  | xI exp' => pow_loop (dec_Mul result b) (dec_Mul b b) exp'
  end.
Definition pow (base : dec) (exp : Z) (prec : Z) : dec :=
  match exp with
  | Zpos xH => base
  | Zpos e => dec_Round prec (pow_loop (NewFromInt 1) base e)
  | 0 => NewFromInt 1
  | Zneg _ => dec_Round prec (NewFromInt 1)
  end.

(** [C(n,k) * p^k * (1-p)^(n-k)] *)
Definition binomialPMF (k n : Z) (p q : dec) (prec : Z) : dec :=
  if k =? 0 then pow q n prec
  else if k =? n then pow p n prec
  else
    let coeff := fold_left (fun coeff i => dec_Div (dec_Mul coeff (NewFromInt (n - i))) (NewFromInt (i + 1)))
      (Z.of_nat <$> seq 0 (Z.to_nat k)) (NewFromInt 1) in
    dec_Mul (dec_Mul coeff (pow p k prec)) (pow q (n - k) prec).

Definition BinomialPValue (k n : Z) (p0 : dec) (prec : Z) : option dec :=
  if (k <? 0) || (n <? 0) || (n <? k) then None
  else if dec_LessThanOrEqual p0 (NewFromInt 0) || dec_GreaterThanOrEqual p0 (NewFromInt 1) then None
  else if k =? 0 then Some (NewFromInt 1)
  else
    let q0 := dec_Sub (NewFromInt 1) p0 in
    let prob := binomialPMF k n p0 q0 prec in
    let ratio := dec_Div p0 q0 in
    let '(_, sum) := fold_left (fun acc i =>
        let factor := dec_Div (NewFromInt (n - i)) (NewFromInt (i + 1)) in
        let prob' := dec_Mul (dec_Mul acc.1 factor) ratio in
        (prob', dec_Add acc.2 prob'))
      ((fun i => k + Z.of_nat i) <$> seq 0 (Z.to_nat (n - k))) (prob, prob) in
    Some (dec_Round prec sum).

(** [MissedStatTest(nMissed, nTotal, p0)]: whether the misses are acceptable. *)
Definition MissedStatTest (nMissed nTotal : Z) (p0 : dec) : option bool :=
  if nTotal =? 0 then Some true
  else if (nMissed <? 0) || (nTotal <? 0) || (nTotal <? nMissed) then None
  else
    let permille := decimalToPermille p0 in
    if 0 <? permille then MissedStatTestLookupWithP0 nMissed nTotal permille
    else
      pValue ← BinomialPValue nMissed nTotal p0 16;
      Some (dec_GreaterThanOrEqual pValue (dec_New 5 (-2))).
End Binomial.

(* ------------------------------------------------------------------ *)
(** ** More requests and fewer misses never hurt, within the tables *)

Definition rises (x y : Threshold) : bool := (th_Total x <=? th_Total y) && (th_CriticalMisses x <=? th_CriticalMisses y).
Fixpoint rising (l : list Threshold) : bool :=
  match l with
  | x :: (y :: _) as l' => rises x y && rising l'
  | _ => true
  end.
Definition table_ok (table : list Threshold) : bool :=
  match table with
  | x :: _ => (th_Total x =? 2) && (2 <=? th_CriticalMisses x) && rising table
  | [] => false
  end.

Lemma tables_ok p table : criticalValueTables p = Some table -> table_ok table = true /\ is_Some (p0Multipliers p).
Proof.
  unfold criticalValueTables, p0Multipliers. repeat (case_match; [intros [= <-]; split; [vm_compute; reflexivity|done]|]). discriminate.
Qed.

Lemma rising_lookup l i j x y : rising l = true -> (i <= j)%nat -> l !! i = Some x -> l !! j = Some y -> rises x y = true.
Proof.
  revert i j x. induction l as [|a l IH]; intros i j x Hr Hij Hi Hj; [done|].
  assert (rising l = true) as Hr' by (destruct l; cbn in Hr; boolify; done).
  destruct i as [|i], j as [|j]; cbn in Hi, Hj; try lia; [| |by apply (IH i j x); try done; lia].
  - simplify_eq. unfold rises. by rewrite !Z.leb_refl.
  - simplify_eq. destruct l as [|b l]; [done|]. assert (rises b y = true) as Hb by (by eapply (IH 0%nat j b); try done; lia).
    cbn in Hr. unfold rises in *. boolify. lia.
Qed.

(** What the search finds: the first row beyond [nTotal]. *)
Lemma search_row table nTotal : table_ok table = true ->
  let r := Search (length table) (total_above table nTotal) in
  (forall i t, (i < r)%nat -> table !! i = Some t -> th_Total t <= nTotal) /\
  (forall t, table !! r = Some t -> nTotal < th_Total t) /\ (r <= length table)%nat.
Proof.
  intros Hok. assert (rising table = true) as Hr by (destruct table; [done|]; unfold table_ok in Hok; boolify; done).
  destruct (search_loop_spec (length table) 0 (length table) (total_above table nTotal)) as (H1 & H2 & H3); [lia|lia| |].
  { intros k l Hkl. unfold total_above. destruct (lookup_lt_is_Some_2 table l ltac:(lia)) as [y Hy]. destruct (lookup_lt_is_Some_2 table k ltac:(lia)) as [x Hx].
    rewrite Hx, Hy. pose proof (rising_lookup table k l x y Hr ltac:(lia) Hx Hy) as Hxy. unfold rises in Hxy. boolify. lia. }
  fold (Search (length table) (total_above table nTotal)) in *. cbv zeta. set (r := Search _ _) in *. split; [|split; [|lia]].
  - intros i t Hi Ht. specialize (H2 i ltac:(lia)). unfold total_above in H2. rewrite Ht in H2. boolify. lia.
  - intros t Ht. specialize (H3 (lookup_lt_Some _ _ _ Ht)). unfold total_above in H3. rewrite Ht in H3. boolify. lia.
Qed.

Lemma lookup_pass table nMissed nTotal nMissed' nTotal' :
  table_ok table = true -> 0 <= nMissed' <= nMissed -> nMissed <= nTotal <= nTotal' -> nMissed' <= nTotal' ->
  let pass m n := match Search (length table) (total_above table n) with
    | O => Some true | S idx => t ← table !! idx; Some (m <=? th_CriticalMisses t) end in
  pass nMissed nTotal = Some true -> pass nMissed' nTotal' = Some true.
Proof.
  intros Hok Hm Ht Hm' pass. unfold pass. destruct (search_row table nTotal Hok) as (H1 & H2 & H3). destruct (search_row table nTotal' Hok) as (H1' & H2' & H3').
  set (r := Search _ (total_above table nTotal)) in *. set (r' := Search _ (total_above table nTotal')) in *.
  assert (rising table = true) as Hr by (destruct table; [done|]; unfold table_ok in Hok; boolify; done).
  assert (forall i, (i < r')%nat -> exists t, table !! i = Some t) as Hrow by (intros i Hi; apply lookup_lt_is_Some_2; lia).
  assert (r <= r')%nat as Hrr.
  { destruct (decide (r <= r')%nat); [done|]. destruct (lookup_lt_is_Some_2 table r' ltac:(lia)) as [t Htt]. specialize (H1 r' t ltac:(lia) Htt). specialize (H2' t Htt). lia. }
  destruct r' as [|k']; [done|]. destruct (Hrow k' ltac:(lia)) as [y Hy]. rewrite Hy. cbn [mbind option_bind]. destruct r as [|k].
  - intros _. f_equal. destruct (Hrow 0%nat ltac:(lia)) as [x Hx]. pose proof (rising_lookup table 0 k' x y Hr ltac:(lia) Hx Hy) as Hxy.
    destruct table as [|x' table]; [done|]. injection Hx as ->. pose proof (H2 x eq_refl). unfold table_ok, rises in *. boolify. lia.
  - destruct (Hrow k ltac:(lia)) as [x Hx]. rewrite Hx. cbn [mbind option_bind]. intros [= Hle].
    pose proof (rising_lookup table k k' x y Hr ltac:(lia) Hx Hy) as Hxy. unfold rises in *. f_equal. boolify. lia.
Qed.

(** C36: The test for missed requests is monotone on each side of the end of the tables:
    who passes it passes with fewer misses among more requests too.  Across the end it is
    not: with 10% allowed, 114 misses of 990 requests pass and 100 of 991 do not. *)
Theorem missed_test_monotone nMissed nTotal nMissed' nTotal' p :
  0 <= nMissed' <= nMissed -> nMissed <= nTotal <= nTotal' -> 0 < nTotal -> nTotal' < 2 ^ 58 ->
  MissedStatTestLookupWithP0 nMissed nTotal p = Some true ->
  (nTotal' <= maxTableN \/ maxTableN < nTotal -> MissedStatTestLookupWithP0 nMissed' nTotal' p = Some true) /\
  MissedStatTestLookupWithP0 114 990 100 = Some true /\ MissedStatTestLookupWithP0 100 991 100 = Some false.
Proof.
  intros Hm Ht Hpos Hsmall. unfold MissedStatTestLookupWithP0 at 1 2. destruct (Z.eqb_spec nTotal 0), (Z.eqb_spec nTotal' 0); try lia.
  destruct (Z.ltb_spec nMissed 0), (Z.ltb_spec nTotal 0), (Z.ltb_spec nTotal nMissed); try lia.
  destruct (Z.ltb_spec nMissed' 0), (Z.ltb_spec nTotal' 0), (Z.ltb_spec nTotal' nMissed'); try lia. cbn [orb].
  intros (table & Htab & Hpass)%bind_Some. rewrite Htab. cbn [mbind option_bind]. destruct (tables_ok p table Htab) as [Hok [[a b] Hmul]].
  split; [|by vm_compute]. intros Hside. destruct (Z.ltb_spec maxTableN nTotal), (Z.ltb_spec maxTableN nTotal'); try lia.
  - rewrite Hmul in *. cbn [mbind option_bind fst snd] in *.
    assert (1 <= a <= 3 /\ 1 <= b <= 20) as [Ha Hb] by (clear -Hmul; unfold p0Multipliers in Hmul; repeat case_match; simplify_eq; lia).
    assert (0 <= nMissed * b <= 2 ^ 58 * 20 /\ 0 <= nTotal * a <= 2 ^ 58 * 3) by nia. assert (0 <= nMissed' * b <= nMissed * b /\ nTotal * a <= nTotal' * a <= 2 ^ 58 * 3) by nia.
    rewrite !i64_small in * by (unfold is_i64; lia). f_equal. injection Hpass as Hpass. boolify. lia.
  - eapply lookup_pass; [done|done|done|lia|exact Hpass].
Qed.

(* ------------------------------------------------------------------ *)
(** ** Powers *)

Section Powers.
Context `{!DecimalLib} `{!DecimalLaws}.

Lemma pow_loop_exact result b e : (dec_val (pow_loop result b e) == dec_val result * dec_val b ^ Zpos e)%Q.
Proof.
  revert result b. induction e as [e IH|e IH|]; intros result b; cbn [pow_loop].
  - rewrite IH, !dec_val_Mul. rewrite (Pos2Z.inj_xI e), Qpower_plus', Qpower_mult, Qpower_1_r; [|lia]. change (dec_val b ^ 2)%Q with (dec_val b * dec_val b)%Q. ring.
  - rewrite IH, dec_val_Mul. rewrite (Pos2Z.inj_xO e), Qpower_mult. change (dec_val b ^ 2)%Q with (dec_val b * dec_val b)%Q. reflexivity.
  - rewrite dec_val_Mul. change (dec_val b ^ 1)%Q with (dec_val b). reflexivity.
Qed.

(** [pow] is the power, rounded once. *)
Lemma pow_exact base e prec : exists x, (dec_val x == dec_val base ^ Zpos e)%Q /\
  pow base (Zpos e) prec = if bool_decide (e = 1%positive) then base else dec_Round prec x.
Proof.
  exists (pow_loop (NewFromInt 1) base e). split; [rewrite pow_loop_exact, val_int; ring|]. by destruct e.
Qed.
End Powers.
