(* ===== verification/ChainState.v ===== *)
(** * The state of the chain's inference module that devshard escrows touch

    The collections of the keeper ([Chain]), the participants, and the keeper
    operations that the message handlers of [ChainEscrow.v] and the pruner of
    [ChainPruning.v] are made of: inference-chain/x/inference/keeper/devshard_escrow.go,
    devshard_host_stats.go, claim_recipient_schedule.go, msg_server_set_claim_recipients.go,
    account_helpers.go, participant.go, permissions.go and types/coin.go.

    The bank, the authz grants and the epoch groups are other modules: they live in
    a type [W] behind the class [ChainEnv], whose laws are [ChainEnvLaws].  The status
    update that saving a participant triggers is the class [ParticipantStatusKeeper];
    [ChainStatus.v] implements it. *)

From stdpp Require Import pretty.
From S2P Require Import Prelude.
From S2P Require Import GoStd.
From S2P Require Import ChainStore.
From S2P Require Import ChainDecimal.
From S2P Require Import ChainSlots.
From S2P Require Import DevshardTypes.
From S2P Require Import DevshardHash.
From S2P Require Import DevshardMachine.
From S2P Require Import DevshardSettlement.
From S2P Require Import ChainSettlement.
Open Scope Z_scope.
Open Scope go_scope.

(* ------------------------------------------------------------------ *)
(** ** Data *)

(** [type ParticipantStatus int32] *)
Inductive ParticipantStatus :=
| Participant_UNSPECIFIED | Participant_ACTIVE | Participant_INACTIVE | Participant_INVALID
| Participant_RAMPING | Participant_UNCONFIRMED.
#[export] Instance ParticipantStatus_eq_dec : EqDecision ParticipantStatus.
Proof. solve_decision. Defined.

(** [types.CurrentEpochStats] *)
Record CurrentEpochStats := MkEpochStats {
  ce_InferenceCount : Z; ce_MissedRequests : Z; ce_EarnedCoins : Z; ce_RewardedCoins : Z; ce_BurnedCoins : Z;
  ce_ValidatedInferences : Z; ce_InvalidatedInferences : Z;
  ce_InvalidLLR : option Decimal; ce_InactiveLLR : option Decimal; ce_ConfirmationPoCRatio : option Decimal }.

(** [types.Participant] *)
Record Participant := MkParticipant {
  pp_Index : string; pp_Address : string; pp_Weight : Z; pp_JoinTime : Z; pp_JoinHeight : Z;
  pp_LastInferenceTime : Z; pp_InferenceUrl : string; pp_Status : ParticipantStatus; pp_CoinBalance : Z;
  pp_ValidatorKey : string; pp_ConsecutiveInvalidInferences : Z; pp_WorkerPublicKey : string;
  pp_EpochsCompleted : Z; pp_CurrentEpochStats : option CurrentEpochStats }.

(** The fields of [types.ActiveParticipant] that are used. *)
Record ActiveParticipant := MkActive { ap_Index : string; ap_Weight : Z }.

(** [types.DevshardHostEpochStats] *)
Record DevshardHostEpochStats := MkHostEpochStats {
  he_Participant : string; he_EpochIndex : Z; he_Missed : Z; he_Invalid : Z; he_Cost : Z;
  he_RequiredValidations : Z; he_CompletedValidations : Z; he_EscrowCount : Z }.

(** [types.ExcludedParticipant] *)
Record ExcludedParticipant := MkExcluded {
  xp_Address : string; xp_EpochIndex : Z; xp_Reason : string; xp_ExclusionBlockHeight : Z }.

(** [types.PruningState]: the fields of the two pruners that are modelled. *)
Record PruningState := MkPruningState { ps_DevshardPrunedEpoch : Z; ps_ClaimRecipientsPrunedEpoch : Z }.

(** [types.MsgCreateDevshardEscrow] *)
Record MsgCreateDevshardEscrow := MkMsgCreate { mc_Creator : string; mc_Amount : Z; mc_ModelId : string }.

(** [types.ClaimRecipientEntry], [types.MsgSetClaimRecipients] *)
Record ClaimRecipientEntry := MkClaimEntry { cl_Epoch : Z; cl_Recipient : string }.
Record MsgSetClaimRecipients := MkMsgClaims { sc_Creator : string; sc_Entries : list ClaimRecipientEntry }.

(** The collections of [Keeper] that are modelled.  [ch_Params] is [None] when
    [GetParams] fails and [Some None] when [DevshardEscrowParams] is nil;
    [ch_PruningState] is [None] when the item is not set. *)
Record Chain (W : Type) := MkChain {
  DevshardEscrows : gmap Z DevshardEscrow;
  DevshardEscrowsByEpoch : gset (Z * Z);
  DevshardEscrowEpochCount : gmap Z Z;
  DevshardEscrowCounter : option Z;
  DevshardHostEpochStatsMap : gmap (Z * AccAddress) DevshardHostEpochStats;
  Participants : gmap AccAddress Participant;
  ActiveParticipantsSet : gset (Z * AccAddress);
  ExcludedParticipantsMap : gmap (Z * AccAddress) ExcludedParticipant;
  ClaimRecipients : gmap (AccAddress * Z) string;
  ClaimRecipientsByEpoch : gset (Z * AccAddress);
  EffectiveEpochIndex : option Z;
  ch_Params : option (option DevshardEscrowParams);
  ch_PruningState : option PruningState;
  ch_World : W
}.
Arguments MkChain {W} _ _ _ _ _ _ _ _ _ _ _ _ _ _.
Arguments DevshardEscrows {W} _. Arguments DevshardEscrowsByEpoch {W} _.
Arguments DevshardEscrowEpochCount {W} _. Arguments DevshardEscrowCounter {W} _.
Arguments DevshardHostEpochStatsMap {W} _. Arguments Participants {W} _.
Arguments ActiveParticipantsSet {W} _. Arguments ExcludedParticipantsMap {W} _. Arguments ClaimRecipients {W} _.
Arguments ClaimRecipientsByEpoch {W} _. Arguments EffectiveEpochIndex {W} _.
Arguments ch_Params {W} _. Arguments ch_PruningState {W} _. Arguments ch_World {W} _.

Section Setters.
Context {W : Type}.
Abbreviation CS := (Chain W).

Definition set_Escrows x (c : CS) : CS :=
  MkChain x (DevshardEscrowsByEpoch c) (DevshardEscrowEpochCount c) (DevshardEscrowCounter c)
    (DevshardHostEpochStatsMap c) (Participants c) (ActiveParticipantsSet c) (ExcludedParticipantsMap c) (ClaimRecipients c)
    (ClaimRecipientsByEpoch c) (EffectiveEpochIndex c) (ch_Params c) (ch_PruningState c) (ch_World c).
Definition set_EscrowsByEpoch x (c : CS) : CS :=
  MkChain (DevshardEscrows c) x (DevshardEscrowEpochCount c) (DevshardEscrowCounter c)
    (DevshardHostEpochStatsMap c) (Participants c) (ActiveParticipantsSet c) (ExcludedParticipantsMap c) (ClaimRecipients c)
    (ClaimRecipientsByEpoch c) (EffectiveEpochIndex c) (ch_Params c) (ch_PruningState c) (ch_World c).
Definition set_EpochCount x (c : CS) : CS :=
  MkChain (DevshardEscrows c) (DevshardEscrowsByEpoch c) x (DevshardEscrowCounter c)
    (DevshardHostEpochStatsMap c) (Participants c) (ActiveParticipantsSet c) (ExcludedParticipantsMap c) (ClaimRecipients c)
    (ClaimRecipientsByEpoch c) (EffectiveEpochIndex c) (ch_Params c) (ch_PruningState c) (ch_World c).
Definition set_Counter x (c : CS) : CS :=
  MkChain (DevshardEscrows c) (DevshardEscrowsByEpoch c) (DevshardEscrowEpochCount c) x
    (DevshardHostEpochStatsMap c) (Participants c) (ActiveParticipantsSet c) (ExcludedParticipantsMap c) (ClaimRecipients c)
    (ClaimRecipientsByEpoch c) (EffectiveEpochIndex c) (ch_Params c) (ch_PruningState c) (ch_World c).
Definition set_HostEpochStats x (c : CS) : CS :=
  MkChain (DevshardEscrows c) (DevshardEscrowsByEpoch c) (DevshardEscrowEpochCount c) (DevshardEscrowCounter c)
    x (Participants c) (ActiveParticipantsSet c) (ExcludedParticipantsMap c) (ClaimRecipients c)
    (ClaimRecipientsByEpoch c) (EffectiveEpochIndex c) (ch_Params c) (ch_PruningState c) (ch_World c).
Definition set_Participants x (c : CS) : CS :=
  MkChain (DevshardEscrows c) (DevshardEscrowsByEpoch c) (DevshardEscrowEpochCount c) (DevshardEscrowCounter c)
    (DevshardHostEpochStatsMap c) x (ActiveParticipantsSet c) (ExcludedParticipantsMap c) (ClaimRecipients c)
    (ClaimRecipientsByEpoch c) (EffectiveEpochIndex c) (ch_Params c) (ch_PruningState c) (ch_World c).
Definition set_Claims x y (c : CS) : CS :=
  MkChain (DevshardEscrows c) (DevshardEscrowsByEpoch c) (DevshardEscrowEpochCount c) (DevshardEscrowCounter c)
    (DevshardHostEpochStatsMap c) (Participants c) (ActiveParticipantsSet c) (ExcludedParticipantsMap c) x y
    (EffectiveEpochIndex c) (ch_Params c) (ch_PruningState c) (ch_World c).
Definition set_PruningState x (c : CS) : CS :=
  MkChain (DevshardEscrows c) (DevshardEscrowsByEpoch c) (DevshardEscrowEpochCount c) (DevshardEscrowCounter c)
    (DevshardHostEpochStatsMap c) (Participants c) (ActiveParticipantsSet c) (ExcludedParticipantsMap c) (ClaimRecipients c)
    (ClaimRecipientsByEpoch c) (EffectiveEpochIndex c) (ch_Params c) x (ch_World c).
Definition set_World x (c : CS) : CS :=
  MkChain (DevshardEscrows c) (DevshardEscrowsByEpoch c) (DevshardEscrowEpochCount c) (DevshardEscrowCounter c)
    (DevshardHostEpochStatsMap c) (Participants c) (ActiveParticipantsSet c) (ExcludedParticipantsMap c) (ClaimRecipients c)
    (ClaimRecipientsByEpoch c) (EffectiveEpochIndex c) (ch_Params c) (ch_PruningState c) x.
Definition set_Excluded x (c : CS) : CS :=
  MkChain (DevshardEscrows c) (DevshardEscrowsByEpoch c) (DevshardEscrowEpochCount c) (DevshardEscrowCounter c)
    (DevshardHostEpochStatsMap c) (Participants c) (ActiveParticipantsSet c) x (ClaimRecipients c)
    (ClaimRecipientsByEpoch c) (EffectiveEpochIndex c) (ch_Params c) (ch_PruningState c) (ch_World c).

End Setters.

(* ------------------------------------------------------------------ *)
(** ** Coins *)

(** [func GetCoins(coins int64) (sdk.Coins, error)] and [GetCoin]: on a negative amount
    [sdk.NewCoins] panics on the invalid coin before the error is returned. *)
Definition negative_coins_panic : string := "panic: negative coin amount".
Definition GetCoins (coins : Z) : outcome string Z :=
  if coins <? 0 then Err negative_coins_panic else Ok coins.

(* ------------------------------------------------------------------ *)
(** ** Interfaces *)

(** The other modules: the bank, seen through the account of this module and the
    accounts of users; authz; the epoch group of a model; the block header. *)
Class ChainEnv (W : Type) := {
  ModuleAccount : AccAddress;
  (** The accounts of the governance and of the collateral module. *)
  GovernanceAccount : AccAddress;
  CollateralAccount : AccAddress;
  ModuleBalance : W -> Z;
  AccountBalance : W -> AccAddress -> Z;
  SendCoinsFromModuleToAccount : AccAddress -> Z -> W -> W * outcome string unit;
  SendCoinsFromAccountToModule : AccAddress -> Z -> W -> W * outcome string unit;
  (** [AuthzKeeper.Grants] for the warm key marker: the number of grants, or an error. *)
  AuthzGrants : W -> string -> string -> option nat;
  (** [EpochGroupDataMap.Get]: the validation weights of an epoch's group for a model. *)
  EpochGroupWeights : W -> Z -> string -> option (list (string * Z));
  (** [hex.EncodeToString(ctx.HeaderInfo().AppHash)] *)
  AppHashHex : W -> string
}.

(** What a send between the module and account [a] moves: nothing when [a] is the
    module's own account, which the bank of this chain does not refuse. *)
Definition outside `{ChainEnv W} (a : AccAddress) (amt : Z) : Z := if bool_decide (a = ModuleAccount) then 0 else amt.

(** A send moves the coins or fails without moving anything and without a panic. *)
Class ChainEnvLaws (W : Type) `{ChainEnv W} := {
  send_out : forall a amt w w', 0 <= amt -> SendCoinsFromModuleToAccount a amt w = (w', Ok tt) ->
    amt <= ModuleBalance w /\ ModuleBalance w' = ModuleBalance w - outside a amt /\
    (forall b, b <> ModuleAccount -> AccountBalance w' b = AccountBalance w b + if bool_decide (b = a) then amt else 0);
  send_in : forall a amt w w', 0 <= amt -> SendCoinsFromAccountToModule a amt w = (w', Ok tt) ->
    ModuleBalance w' = ModuleBalance w + outside a amt /\
    (forall b, b <> ModuleAccount -> AccountBalance w' b = AccountBalance w b - if bool_decide (b = a) then amt else 0);
  send_out_failed : forall a amt w w' e, SendCoinsFromModuleToAccount a amt w = (w', Err e) ->
    ModuleBalance w' = ModuleBalance w /\ (forall b, AccountBalance w' b = AccountBalance w b) /\ e <> negative_coins_panic
}.

(** [func (k Keeper) UpdateParticipantStatus(ctx, participant *types.Participant) error]:
    the participant as updated. *)
Class ParticipantStatusKeeper (W : Type) := {
  UpdateParticipantStatus : Participant -> GoM (Chain W) string Participant
}.

(** Slashed coins go from the account of the collateral module to that of governance:
    what account [b] gets when [n] coins are slashed. *)
Definition slashed_at `{ChainEnv W} (n : Z) (b : AccAddress) : Z :=
  (if bool_decide (b = GovernanceAccount) then n else 0) - (if bool_decide (b = CollateralAccount) then n else 0).
Definition slashed_by `{ChainEnv W} (n : Z) (w w' : W) : Prop :=
  0 <= n /\ ModuleBalance w' = ModuleBalance w /\ forall b, AccountBalance w' b = AccountBalance w b + slashed_at n b.
Definition only_slashed `{ChainEnv W} (w w' : W) : Prop := exists n, slashed_by n w w'.

(** What the other components rely on: the participant comes back with statistics; it
    changes neither the identity nor the coin balance of the participant, no collection of
    this model but the exclusions, and no balance but by slashing. *)
Class ParticipantStatusLaws (W : Type) `{ChainEnv W} `{!ParticipantStatusKeeper W} := {
  status_frame : forall p c c' p', UpdateParticipantStatus p c = (c', Ok p') ->
    pp_Index p' = pp_Index p /\ pp_Address p' = pp_Address p /\ pp_CoinBalance p' = pp_CoinBalance p /\
    is_Some (pp_CurrentEpochStats p') /\
    (exists x w, c' = set_World w (set_Excluded x c) /\ only_slashed (ch_World c) w)
}.

Lemma slashed_trans `{ChainEnv W} m n (w w1 w2 : W) : slashed_by m w w1 -> slashed_by n w1 w2 -> slashed_by (m + n) w w2.
Proof.
  intros (Hm & Hb1 & Ha1) (Hn & Hb2 & Ha2). split; [lia|]. split; [congruence|]. intros b. rewrite Ha2, Ha1. unfold slashed_at.
  destruct (bool_decide (b = GovernanceAccount)), (bool_decide (b = CollateralAccount)); lia.
Qed.
Lemma slashed_none `{ChainEnv W} (w : W) : slashed_by 0 w w.
Proof. split; [lia|]. split; [done|]. intros b. unfold slashed_at. by destruct (bool_decide _), (bool_decide _); rewrite ?Z.add_0_r. Qed.
#[export] Instance only_slashed_preorder `{ChainEnv W} : PreOrder (@only_slashed W _).
Proof.
  split; [intros w; exists 0; apply slashed_none|]. intros w w1 w2 [m Hm] [n Hn]. exists (m + n). by eapply slashed_trans.
Qed.

(* ------------------------------------------------------------------ *)
(** ** Parameters *)

(** Defaults of types/params.go. *)
Definition DefaultSealGraceMultiplier : Z := 10.
Definition DevshardSealGraceFloor : Z := 20.
Definition DefaultDevshardInferenceSealGraceSeconds : Z := 3600.
Definition DefaultDevshardAutoSealEveryNNonces : Z := 150.
Definition DefaultDevshardValidationRate : Z := 1000.

(** [func DefaultDevshardInferenceSealGraceNonces(groupSize uint32) uint32] *)
Definition DefaultDevshardInferenceSealGraceNonces (groupSize : Z) : Z :=
  let grace := u32 (groupSize * DefaultSealGraceMultiplier) in
  if grace <? DevshardSealGraceFloor then DevshardSealGraceFloor else grace.

(** [func DefaultDevshardEscrowParams() *DevshardEscrowParams] *)
Definition DefaultDevshardEscrowParams : DevshardEscrowParams :=
  MkEscrowParams 5000000000 10000000000 100 16 [] 1 [] 20000
    (DefaultDevshardInferenceSealGraceNonces 16) DefaultDevshardInferenceSealGraceSeconds
    10000 1000 DefaultDevshardValidationRate 50 DefaultDevshardAutoSealEveryNNonces.

(** types/devshard_escrow_seal_grace.go and devshard_escrow_consensus.go: what is
    snapshotted onto an escrow when it is created. *)
Definition DevshardInferenceSealGraceNoncesForCreate (ep : DevshardEscrowParams) (slotCount : Z) : Z :=
  if 0 <? ep_DefaultInferenceSealGraceNonces ep then ep_DefaultInferenceSealGraceNonces ep
  else DefaultDevshardInferenceSealGraceNonces slotCount.
Definition DevshardInferenceSealGraceSecondsForCreate (ep : DevshardEscrowParams) : Z :=
  if 0 <? ep_DefaultInferenceSealGraceSeconds ep then ep_DefaultInferenceSealGraceSeconds ep
  else DefaultDevshardInferenceSealGraceSeconds.
Definition DevshardAutoSealEveryNNoncesForCreate (ep : DevshardEscrowParams) : Z :=
  if 0 <? ep_DefaultAutoSealEveryNNonces ep then ep_DefaultAutoSealEveryNNonces ep
  else DefaultDevshardAutoSealEveryNNonces.
Definition DevshardValidationRateForCreate (ep : DevshardEscrowParams) : Z :=
  if ep_ValidationRate ep =? 0 then DefaultDevshardValidationRate else ep_ValidationRate ep.

(* ------------------------------------------------------------------ *)
(** ** Participants *)

(** [func NewCurrentEpochStats() *CurrentEpochStats] *)
Definition NewCurrentEpochStats : CurrentEpochStats :=
  MkEpochStats 0 0 0 0 0 0 0 (Some (MkDecimal 0 0)) (Some (MkDecimal 0 0)) None.

Definition pp_set_stats (s : CurrentEpochStats) (p : Participant) : Participant :=
  MkParticipant (pp_Index p) (pp_Address p) (pp_Weight p) (pp_JoinTime p) (pp_JoinHeight p)
    (pp_LastInferenceTime p) (pp_InferenceUrl p) (pp_Status p) (pp_CoinBalance p) (pp_ValidatorKey p)
    (pp_ConsecutiveInvalidInferences p) (pp_WorkerPublicKey p) (pp_EpochsCompleted p) (Some s).
Definition pp_set_balance (b : Z) (p : Participant) : Participant :=
  MkParticipant (pp_Index p) (pp_Address p) (pp_Weight p) (pp_JoinTime p) (pp_JoinHeight p)
    (pp_LastInferenceTime p) (pp_InferenceUrl p) (pp_Status p) b (pp_ValidatorKey p)
    (pp_ConsecutiveInvalidInferences p) (pp_WorkerPublicKey p) (pp_EpochsCompleted p) (pp_CurrentEpochStats p).

(** [func ensureParticipantEpochStats(participant)]: the statistics after the call. *)
Definition ensureParticipantEpochStats (p : Participant) : CurrentEpochStats :=
  default NewCurrentEpochStats (pp_CurrentEpochStats p).

(** [func (k msgServer) AddToCoinBalance(ctx, participant, amount uint64, memo) error] *)
Definition AddToCoinBalance (p : Participant) (amount : Z) : outcome string Participant :=
  if MaxInt64 <? amount then Err "amount exceeds int64 max"
  else
    let s := ensureParticipantEpochStats p in
    let s' := MkEpochStats (ce_InferenceCount s) (ce_MissedRequests s) (u64 (ce_EarnedCoins s + amount))
                (ce_RewardedCoins s) (ce_BurnedCoins s) (ce_ValidatedInferences s) (ce_InvalidatedInferences s)
                (ce_InvalidLLR s) (ce_InactiveLLR s) (ce_ConfirmationPoCRatio s) in
    Ok (pp_set_stats s' (pp_set_balance (i64 (pp_CoinBalance p + i64 amount)) p)).

(** [func AggregateDevshardHostStatsIntoCurrentEpochStats(participant, slotStats, assignedPerSlot) error] *)
Definition AggregateDevshardHostStatsIntoCurrentEpochStats (p : Participant)
    (slotStats : DevshardSettlementHostStats) (assignedPerSlot : Z) : outcome string Participant :=
  let s := ensureParticipantEpochStats p in
  let missed := ss_Missed slotStats in
  let invalid := ss_Invalid slotStats in
  run! ocheck (negb (assignedPerSlot <? missed)) "missed requests exceeds assigned per slot" in
  let completed := u64 (assignedPerSlot - missed) in
  run! ocheck (negb (completed <? invalid)) "invalid inferences exceeds completed requests" in
  let validated := u64 (completed - invalid) in
  let '(nextMissed, carry) := Add64 (ce_MissedRequests s) missed in
  run! ocheck (carry =? 0) "participant missed requests overflow" in
  let '(nextInvalidated, carry) := Add64 (ce_InvalidatedInferences s) invalid in
  run! ocheck (carry =? 0) "participant invalidated inferences overflow" in
  let '(nextInferenceCount, carry) := Add64 (ce_InferenceCount s) completed in
  run! ocheck (carry =? 0) "participant inference count overflow" in
  let '(nextValidated, carry) := Add64 (ce_ValidatedInferences s) validated in
  run! ocheck (carry =? 0) "participant validated inferences overflow" in
  Ok (pp_set_stats
        (MkEpochStats nextInferenceCount nextMissed (ce_EarnedCoins s) (ce_RewardedCoins s) (ce_BurnedCoins s)
           nextValidated nextInvalidated (ce_InvalidLLR s) (ce_InactiveLLR s) (ce_ConfirmationPoCRatio s)) p).

(* ------------------------------------------------------------------ *)
(** ** Keeper operations *)

Section Keeper.
Context {W : Type} `{!AccAddressCodec} `{!ChainEnv W} `{!ParticipantStatusKeeper W}.
Abbreviation CS := (Chain W).
Abbreviation K := (GoM (Chain W) string).

(** A call on another module's keeper. *)
Definition on_world {A} (f : W -> W * outcome string A) : K A :=
  fun c => let '(w, r) := f (ch_World c) in (set_World w c, r).

(** [func (k Keeper) GetDevshardEscrowParams(ctx) *types.DevshardEscrowParams] *)
Definition GetDevshardEscrowParams (c : CS) : DevshardEscrowParams :=
  match ch_Params c with Some (Some p) => p | _ => DefaultDevshardEscrowParams end.

(** [func (k Keeper) IsAllowedEscrowCreator(ctx, address string) bool] *)
Definition IsAllowedEscrowCreator (c : CS) (address : string) : bool :=
  match ep_AllowedCreatorAddresses (GetDevshardEscrowParams c) with
  | [] => true
  | allowed => bool_decide (address ∈ allowed)
  end.

(** [type Permission string]: the two permissions of the modelled messages. *)
Inductive Permission := EscrowAllowListPermission | ParticipantPermission.

(** [func (k msgServer) checkSinglePermission(ctx, perm, signerAddr) error] with
    [checkEscrowAllowListPermission] and [checkParticipantPermission]. *)
Definition checkSinglePermission (c : CS) (perm : Permission) (signer : AccAddress) : outcome string unit :=
  match perm with
  | EscrowAllowListPermission =>
      if IsAllowedEscrowCreator c (AccAddress_String signer) then Ok tt else Err "not an allowed escrow creator"
  | ParticipantPermission =>
      if bool_decide (is_Some (Participants c !! signer)) then Ok tt else Err "participant not found"
  end.

(** [func (k msgServer) CheckPermission(ctx, msg, permission) error] for a message
    with one signer. *)
Definition CheckPermission (signer : string) (perm : Permission) : K unit :=
  fun c => match AccAddressFromBech32 signer with
           | None => (c, Err "invalid signer address")
           | Some a => (c, checkSinglePermission c perm a)
           end.

(** [func (k Keeper) GetParticipant(ctx, index string)] *)
Definition GetParticipant (c : CS) (index : string) : option Participant :=
  a ← AccAddressFromBech32 index; Participants c !! a.

(** [func (k Keeper) SetParticipant(ctx, participant) error] *)
Definition SetParticipant (p : Participant) : K unit :=
  let* p' := UpdateParticipantStatus p in
  let* a := lift_option (AccAddressFromBech32 (pp_Index p')) "invalid participant index" in
  modify (fun c => set_Participants (<[a := p']> (Participants c)) c).

(** [func (k Keeper) GetDevshardEscrowEpochCount(ctx, epochIndex) uint64] *)
Definition GetDevshardEscrowEpochCount (c : CS) (epochIndex : Z) : Z :=
  zget 0 epochIndex (DevshardEscrowEpochCount c).

(** [func (k Keeper) IncrementDevshardEscrowEpochCount(ctx, epochIndex) error] *)
Definition IncrementDevshardEscrowEpochCount (epochIndex : Z) : K unit :=
  modify (fun c => set_EpochCount (<[epochIndex := u64 (GetDevshardEscrowEpochCount c epochIndex + 1)]>
                                     (DevshardEscrowEpochCount c)) c).

(** [func (k Keeper) SetDevshardEscrow(ctx, escrow) error] *)
Definition SetDevshardEscrow (escrow : DevshardEscrow) : K unit :=
  modify (fun c => set_Escrows (<[de_Id escrow := escrow]> (DevshardEscrows c)) c).

Definition de_set_Id (id : Z) (e : DevshardEscrow) : DevshardEscrow :=
  MkEscrow id (de_Creator e) (de_Amount e) (de_Slots e) (de_EpochIndex e) (de_AppHash e) (de_Settled e)
    (de_TokenPrice e) (de_ModelId e) (de_CreateDevshardFee e) (de_FeePerNonce e) (de_InferenceSealGraceNonces e)
    (de_InferenceSealGraceSeconds e) (de_AutoSealEveryNNonces e) (de_ValidationRate e) (de_VoteThresholdFactor e).
Definition de_set_Settled (b : bool) (e : DevshardEscrow) : DevshardEscrow :=
  MkEscrow (de_Id e) (de_Creator e) (de_Amount e) (de_Slots e) (de_EpochIndex e) (de_AppHash e) b
    (de_TokenPrice e) (de_ModelId e) (de_CreateDevshardFee e) (de_FeePerNonce e) (de_InferenceSealGraceNonces e)
    (de_InferenceSealGraceSeconds e) (de_AutoSealEveryNNonces e) (de_ValidationRate e) (de_VoteThresholdFactor e).

(** [func (k Keeper) StoreDevshardEscrow(ctx, escrow, nextID uint64) (uint64, error)] *)
Definition StoreDevshardEscrow (escrow0 : DevshardEscrow) (nextID : Z) : K Z :=
  let escrow := de_set_Id nextID escrow0 in
  run* modify (set_Counter (Some nextID)) in
  run* SetDevshardEscrow escrow in
  run* modify (fun c => set_EscrowsByEpoch ({[(de_EpochIndex escrow, de_Id escrow)]} ∪ DevshardEscrowsByEpoch c) c) in
  run* IncrementDevshardEscrowEpochCount (de_EpochIndex escrow) in
  ret (de_Id escrow).

(** [func (k Keeper) UpdateDevshardHostEpochStats(ctx, epochIndex, participant, slotStats, incrementEscrowCount) error] *)
Definition UpdateDevshardHostEpochStats (epochIndex : Z) (participant : AccAddress)
    (slotStats : DevshardSettlementHostStats) (incrementEscrowCount : bool) : K unit :=
  let key := (epochIndex, participant) in
  let* found := reads (fun c => DevshardHostEpochStatsMap c !! key) in
  let existing := default (MkHostEpochStats (AccAddress_String participant) epochIndex 0 0 0 0 0 0) found in
  run* check (negb (u32 (MaxUint32 - ss_Missed slotStats) <? he_Missed existing)) "missed overflow" in
  run* check (negb (u32 (MaxUint32 - ss_Invalid slotStats) <? he_Invalid existing)) "invalid overflow" in
  run* check (negb (u64 (2 ^ 64 - 1 - ss_Cost slotStats) <? he_Cost existing)) "cost overflow" in
  run* check (negb (u32 (MaxUint32 - ss_RequiredValidations slotStats) <? he_RequiredValidations existing))
         "required validations overflow" in
  run* check (negb (u32 (MaxUint32 - ss_CompletedValidations slotStats) <? he_CompletedValidations existing))
         "completed validations overflow" in
  run* check (negb (incrementEscrowCount && (he_EscrowCount existing =? MaxUint32))) "escrow count overflow" in
  let updated := MkHostEpochStats (he_Participant existing) (he_EpochIndex existing)
                   (u32 (he_Missed existing + ss_Missed slotStats)) (u32 (he_Invalid existing + ss_Invalid slotStats))
                   (u64 (he_Cost existing + ss_Cost slotStats))
                   (u32 (he_RequiredValidations existing + ss_RequiredValidations slotStats))
                   (u32 (he_CompletedValidations existing + ss_CompletedValidations slotStats))
                   (if incrementEscrowCount then u32 (he_EscrowCount existing + 1) else he_EscrowCount existing) in
  modify (fun c => set_HostEpochStats (<[key := updated]> (DevshardHostEpochStatsMap c)) c).

(** [func (k Keeper) ResolveClaimRecipientAddress(ctx, participant string, epoch uint64) (sdk.AccAddress, error)]
    with [GetClaimRecipientForEpoch]. *)
Definition ResolveClaimRecipientAddress (c : CS) (participant : string) (epoch : Z) : outcome string AccAddress :=
  match AccAddressFromBech32 participant with
  | None => Err "invalid participant address"
  | Some a =>
      match ClaimRecipients c !! (a, epoch) with
      | None => Ok a
      | Some recipient =>
          match AccAddressFromBech32 recipient with Some r => Ok r | None => Err "invalid recipient address" end
      end
  end.

(** [func (k Keeper) SetClaimRecipientForEpoch(ctx, participant, epoch, recipient) error] *)
Definition SetClaimRecipientForEpoch (participant : AccAddress) (epoch : Z) (recipient : string) : K unit :=
  modify (fun c => set_Claims (<[(participant, epoch) := recipient]> (ClaimRecipients c))
                     ({[(epoch, participant)]} ∪ ClaimRecipientsByEpoch c) c).

(** [func (k Keeper) RemoveClaimRecipientForEpoch(ctx, participant, epoch) error] *)
Definition RemoveClaimRecipientForEpoch (participant : AccAddress) (epoch : Z) : K unit :=
  modify (fun c => set_Claims (delete (participant, epoch) (ClaimRecipients c))
                     (ClaimRecipientsByEpoch c ∖ {[(epoch, participant)]}) c).

(** [const MaxClaimRecipientLookahead uint64 = 40] *)
Definition MaxClaimRecipientLookahead : Z := 40.

(** [func (ms msgServer) applyClaimRecipientEntry(ctx, creatorAddr, entry, currentEpoch) error] *)
Definition applyClaimRecipientEntry (creator : AccAddress) (currentEpoch : Z) (entry : ClaimRecipientEntry) : K unit :=
  run* check (negb (cl_Epoch entry <=? currentEpoch)) "epoch is not in the future" in
  run* check (negb (u64 (currentEpoch + MaxClaimRecipientLookahead) <? cl_Epoch entry)) "epoch exceeds max lookahead" in
  run* check (bool_decide (cl_Recipient entry = "") || bool_decide (is_Some (AccAddressFromBech32 (cl_Recipient entry))))
         "invalid recipient" in
  if bool_decide (cl_Recipient entry = "") then RemoveClaimRecipientForEpoch creator (cl_Epoch entry)
  else SetClaimRecipientForEpoch creator (cl_Epoch entry) (cl_Recipient entry).

(** [func (ms msgServer) SetClaimRecipients(goCtx, msg) (response, error)] *)
Definition SetClaimRecipients (msg : MsgSetClaimRecipients) : K unit :=
  run* CheckPermission (sc_Creator msg) ParticipantPermission in
  let* creator := lift_option (AccAddressFromBech32 (sc_Creator msg)) "invalid creator address" in
  let* epoch := reads EffectiveEpochIndex in
  let* currentEpoch := lift_option epoch "effective epoch not set" in
  run* check (negb (bool_decide (length (sc_Entries msg) = 0%nat))) "entries must not be empty" in
  cached (mfold (fun _ entry => applyClaimRecipientEntry creator currentEpoch entry) tt (sc_Entries msg)).

(** [func (k Keeper) HasWarmKeyGrant(ctx, granter, grantee string) bool] *)
Definition HasWarmKeyGrant (c : CS) (granter grantee : string) : bool :=
  match AuthzGrants (ch_World c) granter grantee with Some n => (0 <? n)%nat | None => false end.

(** [func (k Keeper) payCoinsDirectly(goCtx, payout uint64, recipientAddr) error] *)
Definition payCoinsDirectly (payout : Z) (recipient : AccAddress) : K unit :=
  run* check (negb (MaxInt64 <? payout)) "payout amount exceeds max int64" in
  let* coins := from_outcome (GetCoins (i64 payout)) in
  on_world (SendCoinsFromModuleToAccount recipient coins).

End Keeper.
