(* ===== verification/PowerCap.v ===== *)
(** * Capping the power of participants

    No participant of an epoch shall hold more than 30% of the power (40% among three,
    50% between two): [ApplyPowerCappingForWeights] and [CalculateOptimalCap] of
    inference-chain/x/inference/keeper/bitcoin_rewards.go, which cut every weight to the
    same limit, and [ApplyPowerCapping] of module/power_capping.go.  The limit is the
    largest one under which nobody exceeds the share. *)

From Stdlib Require Import QArith Qabs Qround Lqa.
From stdpp Require Import sorting.
From S2P Require Import Prelude.
From S2P Require Import ChainDecimal.
From S2P Require Import ChainState.
Open Scope Z_scope.

(* ------------------------------------------------------------------ *)
(** ** The code *)

Section Code.
Context `{!DecimalLib}.
Implicit Types (participants : list ActiveParticipant).

(** [types.DecimalFromFloat] of 0.30, 0.40, 0.50 and 1.0 *)
Definition getSmallNetworkLimit (participantCount : Z) : Decimal :=
  if participantCount =? 1 then MkDecimal 1 0
  else if participantCount =? 2 then MkDecimal 5 (-1)
  else if participantCount =? 3 then MkDecimal 4 (-1)
  else MkDecimal 3 (-1).

(** The sort of [CalculateOptimalCap], of which only the powers are used.  One round of
    the outer loop compares the element [x] at its position with all that follow and
    exchanges it for each smaller one. *)
Fixpoint exchange (x : Z) (l : list Z) : Z * list Z :=
  match l with
  | [] => (x, [])
  | y :: l' => if y <? x then let '(m, r) := exchange y l' in (m, x :: r)
               else let '(m, r) := exchange x l' in (m, y :: r)
  end.
Fixpoint sort_powers (rounds : nat) (l : list Z) : list Z :=
  match rounds, l with
  | S rounds', x :: l' => let '(m, r) := exchange x l' in m :: sort_powers rounds' r
  | _, _ => l
  end.

(** The loop over the sorted powers: the limit, or -1 when none is needed.  The number of
    powers that are left is [positiveCount-k]. *)
Fixpoint find_cap (maxPercentage : dec) (sumPrev : Z) (powers : list Z) : Z :=
  match powers with
  | [] => -1
  | currentPower :: rest =>
      let remaining := Z.of_nat (length powers) in
      let weightedTotal := i64 (sumPrev + i64 (currentPower * remaining)) in
      let threshold := dec_Mul maxPercentage (NewFromInt weightedTotal) in
      if dec_GreaterThan (NewFromInt currentPower) threshold then
        let numerator := dec_Mul maxPercentage (NewFromInt sumPrev) in
        let denominator := dec_Sub (NewFromInt 1) (dec_Mul maxPercentage (NewFromInt remaining)) in
        if dec_LessThanOrEqual denominator (NewFromInt 0) then currentPower
        else dec_IntPart (dec_Div numerator denominator)
      else find_cap maxPercentage (i64 (sumPrev + currentPower)) rest
  end.

Definition cut (limit : Z) (p : ActiveParticipant) : ActiveParticipant :=
  if limit <? ap_Weight p then MkActive (ap_Index p) limit else p.
Definition sum_i64 (weights : list Z) : Z := fold_left (fun total w => i64 (total + w)) weights 0.
Definition positive_weights participants : list Z := filter (fun w => 0 < w) (ap_Weight <$> participants).

Definition CalculateOptimalCap participants (totalPower : Z) (maxPercentage : Decimal) : list ActiveParticipant * Z * bool :=
  let powers := positive_weights participants in
  if (length powers <=? 1)%nat then (participants, totalPower, false)
  else
    let limit := find_cap (ToDecimal maxPercentage) 0 (sort_powers (length powers) powers) in
    if (limit =? -1) || (limit <=? 0) then (participants, totalPower, false)
    else
      let cappedParticipants := cut limit <$> participants in
      (cappedParticipants, sum_i64 (ap_Weight <$> cappedParticipants), true).

Definition ApplyPowerCappingForWeights participants : list ActiveParticipant * bool :=
  if (length participants <=? 1)%nat then (participants, false)
  else
    let totalWeight := sum_i64 (positive_weights participants) in
    let positiveCount := Z.of_nat (length (positive_weights participants)) in
    if positiveCount <=? 1 then (participants, false)
    else
      let adjustedLimit := getSmallNetworkLimit positiveCount in
      let maxPercentage :=
        if (positiveCount <? 4) && dec_GreaterThan (ToDecimal adjustedLimit) (ToDecimal (MkDecimal 3 (-1)))
        then adjustedLimit else MkDecimal 3 (-1) in
      let '(capped, _, wasCapped) := CalculateOptimalCap participants totalWeight maxPercentage in
      (capped, wasCapped).

(** [func ApplyPowerCapping(ctx, k, activeParticipants) *PowerCappingResult]: the capped
    participants, their power and whether they were capped.  Of the parameter
    [MaxIndividualPowerPercentage] only whether it is set and not zero matters. *)
Definition ApplyPowerCapping (maxIndividualPowerPercentage : option Decimal) participants : list ActiveParticipant * Z * bool :=
  let total ps := sum_i64 (ap_Weight <$> ps) in
  let unchanged := (participants, total participants, false) in
  match participants with
  | [] => ([], 0, false)
  | [p] => ([p], ap_Weight p, false)
  | _ =>
      match maxIndividualPowerPercentage with
      | None => unchanged
      | Some limit =>
          if dec_Equal (ToDecimal limit) (NewFromInt 0) then unchanged
          else let '(capped, wasCapped) := ApplyPowerCappingForWeights participants in (capped, total capped, wasCapped)
      end
  end.
End Code.

(* ------------------------------------------------------------------ *)
(** ** The sort *)

Lemma exchange_spec x l : forall m r, exchange x l = (m, r) -> x :: l ≡ₚ m :: r /\ (forall y, y ∈ r -> m <= y).
Proof.
  revert x. induction l as [|y l IH]; intros x m r; cbn [exchange].
  { intros [= <- <-]. split; [done|]. intros y Hy. by apply elem_of_nil in Hy. }
  destruct (Z.ltb_spec y x).
  - destruct (exchange y l) as [m' r'] eqn:He. intros [= <- <-]. destruct (IH _ _ _ He) as [Hp Hm].
    split; [rewrite Hp; apply Permutation_swap|]. intros z [->|Hz]%elem_of_cons; [|auto].
    assert (y ∈ m' :: r') as [->|Hy]%elem_of_cons by (rewrite <-Hp; by left); [lia|]. specialize (Hm y Hy). lia.
  - destruct (exchange x l) as [m' r'] eqn:He. intros [= <- <-]. destruct (IH _ _ _ He) as [Hp Hm].
    split; [rewrite Permutation_swap, Hp; apply Permutation_swap|]. intros z [->|Hz]%elem_of_cons; [|auto].
    assert (x ∈ m' :: r') as [->|Hx]%elem_of_cons by (rewrite <-Hp; by left); [lia|]. specialize (Hm x Hx). lia.
Qed.

Lemma sort_powers_spec n l : length l = n -> sort_powers n l ≡ₚ l /\ StronglySorted Z.le (sort_powers n l).
Proof.
  revert l. induction n as [|n IH]; intros [|x l] Hn; try done; [split; [done|constructor]|]. cbn [sort_powers].
  destruct (exchange x l) as [m r] eqn:He. destruct (exchange_spec _ _ _ _ He) as [Hp Hm].
  assert (length r = n) as Hr by (apply Permutation_length in Hp; cbn in Hp, Hn; lia). destruct (IH r Hr) as [Hpr Hs].
  split; [by rewrite Hpr|]. constructor; [done|]. apply Forall_forall. intros y. rewrite Hpr. apply Hm.
Qed.

(* ------------------------------------------------------------------ *)
(** ** The limit *)

(** What [c] as a limit leaves of the weights, and the share that a network of [n]
    allows, in tenths. *)
Definition total_under (c : Z) (ws : list Z) : Z := lsum (Z.min c) ws.
Definition tenths (n : Z) : Z := if n =? 2 then 5 else if n =? 3 then 4 else 3.

(** A weight that is within its share stays within it when it is smaller. *)
Lemma share_mono t x y s m : 0 <= y <= x -> 0 <= s -> 0 <= t -> 10 * x <= t * (s + x * m) -> 10 * y <= t * (s + y * m).
Proof.
  intros Hy Hs Ht Hx. destruct (Z.le_gt_cases 10 (t * m)); [nia|].
  assert ((10 - t * m) * y <= (10 - t * m) * x) by nia. nia.
Qed.

(** [limit] is the largest limit under which nobody has more than the share. *)
Record optimal (t : Z) (ws : list Z) (limit : Z) : Prop := {
  opt_positive : 0 < limit;
  opt_needed : exists w, w ∈ ws /\ limit < w;
  opt_share : 10 * limit <= t * total_under limit ws;
  opt_largest : forall c, limit < c -> t * total_under c ws < 10 * c
}.

Lemma total_under_le c ws : total_under c ws <= c * Z.of_nat (length ws).
Proof. unfold total_under. induction ws as [|w ws IH]; rewrite ?lsum_cons; [cbn; lia|]. cbn [length]. rewrite Nat2Z.inj_succ, Z.mul_succ_r. pose proof (Z.le_min_l c w). lia. Qed.
Lemma total_under_above c ws : (forall w, w ∈ ws -> c <= w) -> total_under c ws = c * Z.of_nat (length ws).
Proof.
  unfold total_under. induction ws as [|w ws IH]; intros Hc; rewrite ?lsum_cons; [cbn; lia|]. rewrite IH by set_solver.
  specialize (Hc w ltac:(set_solver)). cbn [length]. rewrite Nat2Z.inj_succ, Z.mul_succ_r. lia.
Qed.
Lemma total_under_below c ws : (forall w, w ∈ ws -> w <= c) -> total_under c ws = lsum id ws.
Proof. intros Hc. apply lsum_ext. intros w Hw. specialize (Hc w Hw). unfold id. lia. Qed.
Lemma total_under_max c ws : total_under c ws <= lsum id ws.
Proof. unfold total_under. induction ws as [|w ws IH]; rewrite ?lsum_cons; [done|]. pose proof (Z.le_min_r c w). unfold id at 1. lia. Qed.

(** The limit of the formula, with [pre] below it and the [rest] above. *)
Lemma limit_optimal t pre x rest :
  let m := Z.of_nat (length (x :: rest)) in let limit := t * lsum id pre / (10 - t * m) in
  0 < t -> (forall y, y ∈ pre -> 0 < y /\ 10 * y <= t * (lsum id pre + y * m)) ->
  0 < x -> Forall (Z.le x) rest -> pre <> [] -> t * (lsum id pre + x * m) < 10 * x ->
  0 < 10 - t * m /\ 0 <= lsum id pre /\ limit < x /\ optimal t (pre ++ x :: rest) limit.
Proof.
  intros m limit Ht Hpre Hx Hrest Hne Hgt.
  assert (0 <= lsum id pre) as Hs by (apply lsum_nonneg; intros y Hy; destruct (Hpre y Hy); unfold id; lia).
  assert (0 < 10 - t * m) as Hd by nia.
  assert (limit < x) as Hlx by (apply Z.div_lt_upper_bound; nia).
  assert (forall y, y ∈ pre -> y <= limit) as Hly.
  { intros y Hy. destruct (Hpre y Hy). apply Z.div_le_lower_bound; nia. }
  assert (forall w, w ∈ x :: rest -> limit <= w) as Hlr.
  { intros w [->|Hw]%elem_of_cons; [lia|]. rewrite Forall_forall in Hrest. specialize (Hrest w Hw). lia. }
  split; [done|]. split; [done|]. split; [done|]. split.
  - destruct pre as [|y pre]; [done|]. destruct (Hpre y ltac:(by left)). specialize (Hly y ltac:(by left)). lia.
  - exists x. split; [set_solver|done].
  - pose proof (Z.mul_div_le (t * lsum id pre) (10 - t * m) Hd) as Hdiv. fold limit in Hdiv.
    unfold total_under at 1. rewrite lsum_app. fold (total_under limit pre) (total_under limit (x :: rest)).
    rewrite total_under_below by done. rewrite total_under_above by done. fold m. lia.
  - intros c Hc. pose proof (Z.mul_succ_div_gt (t * lsum id pre) (10 - t * m) Hd) as Hdiv. fold limit in Hdiv.
    unfold total_under at 1. rewrite lsum_app. fold (total_under c pre) (total_under c (x :: rest)).
    pose proof (total_under_max c pre) as Hm1. pose proof (total_under_le c (x :: rest)) as Hm2. fold m in Hm2. nia.
Qed.

Section Limit.
Context `{!DecimalLib} `{!DecimalLaws}.

Lemma val_share t n : (dec_val (dec_Mul (ToDecimal (MkDecimal t (-1))) (NewFromInt n)) == (t * n) # 10)%Q.
Proof. rewrite dec_val_Mul, val_int. unfold ToDecimal. rewrite dec_val_New. cbn. unfold Qeq, Qmult. cbn. lia. Qed.
Lemma val_tenth n : (dec_val (NewFromInt n) == (10 * n) # 10)%Q.
Proof. rewrite val_int. unfold Qeq. cbn. lia. Qed.

Lemma div_share t s m : 0 <= t * s -> 0 < 10 - t * m < 10 ^ 16 -> t * s / (10 - t * m) < 2 ^ 63 ->
  dec_IntPart (dec_Div (dec_Mul (ToDecimal (MkDecimal t (-1))) (NewFromInt s))
    (dec_Sub (NewFromInt 1) (dec_Mul (ToDecimal (MkDecimal t (-1))) (NewFromInt m)))) = t * s / (10 - t * m).
Proof.
  intros Hs Hd Hr.
  assert (dec_val (dec_Sub (NewFromInt 1) (dec_Mul (ToDecimal (MkDecimal t (-1))) (NewFromInt m))) == (10 - t * m) # 10)%Q as Hden.
  { rewrite dec_val_Sub, val_share, val_tenth. unfold Qeq. cbn. lia. }
  assert (~ (10 - t * m # 10) == 0)%Q by (unfold Qeq; cbn; lia).
  apply div_int; try done; [|by rewrite Hden]. rewrite val_share, Hden. rewrite (Qmake_Qdiv (t * s)), (Qmake_Qdiv (10 - t * m)).
  field. intros Hz. unfold Qeq, inject_Z in Hz. cbn [Qnum Qden] in Hz. lia.
Qed.

(** The loop: nothing is found and everyone is within the share, or the optimal limit is. *)
Lemma find_cap_spec t pre l B :
  0 < t <= 10 -> StronglySorted Z.le (pre ++ l) -> (forall y, y ∈ pre ++ l -> 0 < y <= B) -> B * Z.of_nat (length (pre ++ l)) < 2 ^ 63 ->
  10 <= t * Z.of_nat (length (pre ++ l)) ->
  (forall y, y ∈ pre -> 10 * y <= t * (lsum id pre + y * Z.of_nat (length l))) ->
  let limit := find_cap (ToDecimal (MkDecimal t (-1))) (lsum id pre) l in
  limit = -1 /\ (forall y, y ∈ pre ++ l -> 10 * y <= t * lsum id (pre ++ l)) \/ optimal t (pre ++ l) limit.
Proof.
  intros Ht. revert pre. induction l as [|x l IH]; intros pre Hsort Hpos HB Hn Hpre; cbn [find_cap].
  { left. split; [done|]. rewrite app_nil_r. intros y Hy. specialize (Hpre y Hy). cbn in Hpre. lia. }
  set (m := Z.of_nat (length (x :: l))) in *.
  assert (lsum id pre <= B * Z.of_nat (length pre) /\ 0 <= lsum id pre) as [Hs1 Hs2].
  { split; [|apply lsum_nonneg; intros y Hy; specialize (Hpos y ltac:(set_solver)); unfold id; lia].
    rewrite <-(total_under_below B pre) by (intros y Hy; apply (Hpos y); set_solver). apply total_under_le. }
  assert (0 < x <= B) as Hx by (apply Hpos; set_solver). rewrite length_app, Nat2Z.inj_add in HB. fold m in HB.
  assert (x * m <= B * m) by nia. rewrite (i64_small (x * m)) by (unfold is_i64; nia). rewrite i64_small by (unfold is_i64; nia).
  rewrite (gt_val _ _ _ _ _ (val_tenth x) (val_share t _)). destruct (Z.ltb_spec (t * (lsum id pre + x * m)) (10 * x)) as [Hgt|Hle].
  - apply StronglySorted_app_1_r, StronglySorted_inv in Hsort as Hr. destruct Hr as [_ Hrest].
    destruct (limit_optimal t pre x l ltac:(lia)) as (Hd & _ & Hlt & Hopt); try done; try lia.
    { intros y Hy. split; [apply Hpos; set_solver|by apply Hpre]. }
    { intros ->. cbn [app length lsum foldr] in *. fold m in Hn. nia. }
    right. fold m in Hd, Hlt, Hopt.
    assert (dec_val (dec_Sub (NewFromInt 1) (dec_Mul (ToDecimal (MkDecimal t (-1))) (NewFromInt m))) == (10 - t * m) # 10)%Q as Hden
      by (rewrite dec_val_Sub, val_share, val_tenth; unfold Qeq; cbn; lia).
    rewrite (le_val _ _ _ _ _ Hden (val_tenth 0)). destruct (Z.leb_spec (10 - t * m) (10 * 0)); [lia|].
    assert (1 <= m) by (unfold m; cbn [length]; lia). assert (x * 1 <= x * m) by nia.
    rewrite div_share; [done|nia|split; [lia|]|unfold id in *; lia]. assert (0 <= t * m) by nia. lia.
  - rewrite i64_small by (unfold is_i64, m in *; cbn [length] in *; nia).
    replace (lsum id pre + x) with (lsum id (pre ++ [x])) by (rewrite lsum_app, lsum_one; done).
    specialize (IH (pre ++ [x])). rewrite <-app_assoc in IH. cbn [app] in IH. rewrite lsum_app, lsum_one in IH |- *. unfold id at 2 in IH. unfold id at 2.
    apply IH; try done; [by rewrite length_app, Nat2Z.inj_add|].
    intros y Hy. apply (share_mono t x); [|lia|lia|unfold m in Hle; cbn [length] in Hle; nia].
    split; [specialize (Hpos y ltac:(set_solver)); lia|]. apply elem_of_app in Hy as [Hy| ->%list_elem_of_singleton]; [|lia].
    eapply StronglySorted_app_1_elem_of; [exact Hsort| |]; set_solver.
Qed.
End Limit.

(* ------------------------------------------------------------------ *)
(** ** The participants *)

Lemma cut_weight limit p : ap_Weight (cut limit p) = Z.min limit (ap_Weight p).
Proof. unfold cut. destruct (Z.ltb_spec limit (ap_Weight p)); cbn; lia. Qed.

Lemma positive_weights_cut limit ps : 0 < limit -> positive_weights (cut limit <$> ps) = Z.min limit <$> positive_weights ps.
Proof.
  intros Hl. unfold positive_weights. induction ps as [|p ps IH]; [done|]. rewrite !fmap_cons, !filter_cons, cut_weight.
  destruct (decide (0 < ap_Weight p)); [rewrite decide_True by lia|rewrite decide_False by lia]; rewrite ?fmap_cons, IH; done.
Qed.

Lemma optimal_perm t ws ws' limit : ws ≡ₚ ws' -> optimal t ws limit -> optimal t ws' limit.
Proof.
  intros Hp [H1 (w & Hw & Hl) H3 H4]. unfold total_under in *. rewrite Hp in Hw. split; [done|by exists w|by rewrite <-Hp|].
  intros c. rewrite <-Hp. apply H4.
Qed.

Section Capped.
Context `{!DecimalLib} `{!DecimalLaws}.

Lemma small_network n : 2 <= n ->
  (if (n <? 4) && dec_GreaterThan (ToDecimal (getSmallNetworkLimit n)) (ToDecimal (MkDecimal 3 (-1)))
   then getSmallNetworkLimit n else MkDecimal 3 (-1)) = MkDecimal (tenths n) (-1).
Proof.
  intros Hn. assert (forall t, dec_val (ToDecimal (MkDecimal t (-1))) == t # 10)%Q as Hv.
  { intros t. unfold ToDecimal. rewrite dec_val_New. cbn. unfold Qeq. cbn. lia. }
  unfold getSmallNetworkLimit, tenths. destruct (Z.eqb_spec n 1); [lia|].
  destruct (Z.eqb_spec n 2) as [->|]; [by rewrite (gt_val _ _ _ _ _ (Hv 5) (Hv 3))|].
  destruct (Z.eqb_spec n 3) as [->|]; [by rewrite (gt_val _ _ _ _ _ (Hv 4) (Hv 3))|].
  by destruct (Z.ltb_spec n 4); [lia|].
Qed.

(** What capping promises: with the weights unchanged, or cut to the largest limit that
    works, nobody has more than the share of the network. *)
Definition within_share (ps : list ActiveParticipant) : Prop :=
  let ws := positive_weights ps in forall w, w ∈ ws -> 10 * w <= tenths (Z.of_nat (length ws)) * lsum id ws.

Lemma cut_within_share ps limit :
  optimal (tenths (Z.of_nat (length (positive_weights ps)))) (positive_weights ps) limit -> within_share (cut limit <$> ps).
Proof.
  intros [Hl _ Hs _]. unfold within_share. cbv zeta. intros w Hw. rewrite positive_weights_cut in * by done. rewrite length_fmap, lsum_fmap.
  apply list_elem_of_fmap in Hw as (x & -> & _). unfold total_under in Hs. change (fun a => id (limit `min` a)) with (Z.min limit). pose proof (Z.le_min_l limit x). lia.
Qed.

(** What capping does, with its limit. *)
Lemma capping_spec participants :
  let ws := positive_weights participants in
  2 <= Z.of_nat (length ws) -> Forall (fun w => w * Z.of_nat (length ws) < 2 ^ 63) ws ->
  let '(ps, wasCapped) := ApplyPowerCappingForWeights participants in
  within_share ps /\
  if wasCapped : bool then exists limit, ps = cut limit <$> participants /\ optimal (tenths (Z.of_nat (length ws))) ws limit
  else ps = participants.
Proof.
  intros ws Hn Hsmall. unfold ApplyPowerCappingForWeights. fold ws.
  assert (length ws <= length participants)%nat as Hlen.
  { unfold ws, positive_weights. rewrite <-(length_fmap ap_Weight participants). apply length_filter. }
  destruct (Nat.leb_spec (length participants) 1); [lia|]. destruct (Z.leb_spec (Z.of_nat (length ws)) 1); [lia|].
  rewrite small_network by lia. unfold CalculateOptimalCap. fold ws. destruct (Nat.leb_spec (length ws) 1); [lia|].
  destruct (sort_powers_spec (length ws) ws eq_refl) as [Hp Hsort]. set (sorted := sort_powers (length ws) ws) in *.
  set (B := foldr Z.max 0 ws).
  assert (forall w, w ∈ ws -> w <= B) as HB.
  { unfold B. clear. induction ws as [|x ws IH]; intros w Hw; [by apply elem_of_nil in Hw|]. cbn.
    apply elem_of_cons in Hw as [->|Hw]; [lia|]. specialize (IH w Hw). lia. }
  assert (B * Z.of_nat (length ws) < 2 ^ 63) as HBs.
  { assert (B = 0 \/ B ∈ ws) as [->|Hin]; [|done|by rewrite Forall_forall in Hsmall; apply Hsmall].
    unfold B. clear. induction ws as [|x ws IH]; [by left|]. cbn. destruct (Z.max_spec x (foldr Z.max 0 ws)) as [[_ ->]|[_ ->]]; [|right; by left].
    destruct IH as [->|?]; [by left|right; by right]. }
  destruct (find_cap_spec (tenths (Z.of_nat (length ws))) [] sorted B) as [[Hl Hall]|Hopt]; try done.
  { unfold tenths. repeat case_match; lia. }
  { intros y. rewrite Hp. intros Hy. split; [|by apply HB]. by apply list_elem_of_filter in Hy as [? _]. }
  { cbn [app]. by rewrite (Permutation_length Hp). }
  { cbn [app]. rewrite (Permutation_length Hp). unfold tenths. destruct (Z.eqb_spec (Z.of_nat (length ws)) 2), (Z.eqb_spec (Z.of_nat (length ws)) 3); lia. }
  { intros y Hy. by apply elem_of_nil in Hy. }
  - change (lsum id []) with 0 in Hl. rewrite Hl. split; [|done]. intros w Hw. fold ws in Hw |- *. cbn [app] in Hall. rewrite <-Hp in Hw. specialize (Hall w Hw). by rewrite Hp in Hall.
  - cbn [app] in Hopt. apply (optimal_perm _ _ _ _ Hp) in Hopt. change (lsum id []) with 0 in Hopt. set (limit := find_cap _ 0 sorted) in *.
    pose proof (opt_positive _ _ _ Hopt). destruct (Z.eqb_spec limit (-1)); [lia|]. destruct (Z.leb_spec limit 0); [lia|]. cbn [orb].
    split; [by apply cut_within_share|by exists limit].
Qed.

(** C20: Capping the power is exact and fair.  When a network of two or more participants
    with power is capped, every weight above one limit is cut to it and all others stay.
    Afterwards nobody holds more than the share (50% of two, 40% of three, 30% of more),
    and any larger limit would leave somebody above it; nothing is cut when everybody is
    within the share already. *)
Theorem power_cap_optimal participants :
  let ws := positive_weights participants in
  2 <= Z.of_nat (length ws) -> Forall (fun w => w * Z.of_nat (length ws) < 2 ^ 63) ws ->
  let '(ps, wasCapped) := ApplyPowerCappingForWeights participants in
  within_share ps /\
  if wasCapped : bool then exists limit, ps = cut limit <$> participants /\ optimal (tenths (Z.of_nat (length ws))) ws limit
  else ps = participants.
Proof. apply capping_spec. Qed.
End Capped.
