(* ===== verification/ChainCoins.v ===== *)
(** * Coins and decimals of the SDK

    What the chain's modules use of [sdk.Coin], [sdk.Coins], [math.Int] and
    [math.LegacyDec], as interfaces with their laws.  Integers of the SDK have 256 bits,
    and exceeding them panics. *)

From Stdlib Require Import QArith Qabs Qround.
From S2P Require Import Prelude.
From S2P Require Import ChainDecimal.
Open Scope Z_scope.
Open Scope go_scope.

(** An error that a call returned, or a panic. *)
Inductive fault := Failed (e : string) | Panicked.

(** A pure call whose failures are panics, called from code that tells them apart. *)
Definition or_panic {A} (o : outcome string A) : outcome fault A :=
  match o with Ok a => Ok a | Err _ => Err Panicked end.

Definition max_int : Z := 2 ^ 256.

(** [math.Int.Quo] truncates, [math.Int.Mod] is never negative; both panic on 0. *)
Definition Int_Quo (x y : Z) : outcome fault Z := if y =? 0 then Err Panicked else Ok (Z.quot x y).
Definition Int_Mod (x y : Z) : outcome fault Z := if y =? 0 then Err Panicked else Ok (x mod Z.abs y).
(** [Int64()]: panics out of range. *)
Definition Int_Int64 (n : Z) : outcome fault Z := if (- 2 ^ 63 <=? n) && (n <? 2 ^ 63) then Ok n else Err Panicked.

(* ------------------------------------------------------------------ *)
(** ** One coin *)

(** [sdk.Coin] *)
Record Coin := MkCoin { cn_Denom : string; cn_Amount : Z }.

(** Operations on coins.  The [outcome]s are panics: of different denominations, of a
    negative result or of an invalid coin. *)
Class CoinLib := {
  ValidateDenom : string -> bool;
  NewCoin : string -> Z -> outcome string Coin;
  Coin_Add : Coin -> Coin -> outcome string Coin;
  Coin_Sub : Coin -> Coin -> outcome string Coin;
  Coin_IsLT : Coin -> Coin -> outcome string bool;
  Coin_IsValid : Coin -> bool
}.
Definition Coin_IsZero (x : Coin) : bool := cn_Amount x =? 0.
Definition Coin_IsPositive (x : Coin) : bool := 0 <? cn_Amount x.

(** [BaseCoin = "ngonka"] *)
Definition BaseCoin : string := "ngonka".
Definition base (n : Z) : Coin := MkCoin BaseCoin n.

Class CoinLaws `{CoinLib} := {
  base_denom : ValidateDenom BaseCoin = true;
  new_coin : forall d n x, NewCoin d n = Ok x <-> x = MkCoin d n /\ ValidateDenom d = true /\ 0 <= n;
  coin_add : forall d m n, 0 <= m -> 0 <= n -> m + n < max_int -> Coin_Add (MkCoin d m) (MkCoin d n) = Ok (MkCoin d (m + n));
  coin_sub : forall d m n, 0 <= n <= m -> Coin_Sub (MkCoin d m) (MkCoin d n) = Ok (MkCoin d (m - n));
  coin_lt : forall d m n, Coin_IsLT (MkCoin d m) (MkCoin d n) = Ok (m <? n);
  valid_nonneg : forall x, Coin_IsValid x = true -> 0 <= cn_Amount x
}.

Section BaseCoins.
Context `{!CoinLib} `{!CoinLaws}.

Lemma new_base n : 0 <= n -> NewCoin BaseCoin n = Ok (base n).
Proof. intros Hn. apply new_coin. split; [done|]. split; [apply base_denom|done]. Qed.
Lemma add_base m n : 0 <= m -> 0 <= n -> m + n < max_int -> Coin_Add (base m) (base n) = Ok (base (m + n)).
Proof. apply coin_add. Qed.
Lemma sub_base m n : 0 <= n <= m -> Coin_Sub (base m) (base n) = Ok (base (m - n)).
Proof. apply coin_sub. Qed.
Lemma lt_base m n : Coin_IsLT (base m) (base n) = Ok (m <? n).
Proof. apply coin_lt. Qed.
End BaseCoins.

Lemma small_int n : n < 2 ^ 63 -> n < max_int.
Proof. unfold max_int. lia. Qed.

(* ------------------------------------------------------------------ *)
(** ** Sets of coins *)

(** [sdk.Coins] *)
Abbreviation Coins := (list Coin).
Definition Coins_IsZero (cs : Coins) : bool := forallb Coin_IsZero cs.

(** How much of a denomination a set holds. *)
Definition amount (cs : Coins) (d : string) : Z :=
  lsum (fun x => if bool_decide (cn_Denom x = d) then cn_Amount x else 0) cs.

(** [Coins_IsValid]: sorted by denomination without duplicates, every amount positive. *)
Class CoinsLib := {
  NewCoins : Coins -> outcome string Coins;
  Coins_Add : Coins -> Coins -> outcome string Coins;
  Coins_IsValid : Coins -> bool
}.

Class CoinsLaws `{CoinLib} `{CoinsLib} := {
  new_none : NewCoins [] = Ok [];
  new_one : forall d n, ValidateDenom d = true -> 0 <= n < max_int ->
    NewCoins [MkCoin d n] = Ok (if n =? 0 then [] else [MkCoin d n]);
  valid_none : Coins_IsValid [] = true;
  valid_one : forall d n, ValidateDenom d = true -> 0 < n < max_int -> Coins_IsValid [MkCoin d n] = true;
  valid_each : forall cs x, Coins_IsValid cs = true -> x ∈ cs -> ValidateDenom (cn_Denom x) = true /\ 0 < cn_Amount x < max_int;
  valid_distinct : forall cs, Coins_IsValid cs = true -> NoDup (cn_Denom <$> cs);
  valid_unique : forall cs ds, Coins_IsValid cs = true -> Coins_IsValid ds = true ->
    (forall d, amount cs d = amount ds d) -> cs = ds;
  add_coins : forall cs ds, Coins_IsValid cs = true -> Coins_IsValid ds = true ->
    (forall d, amount cs d + amount ds d < max_int) ->
    exists es, Coins_Add cs ds = Ok es /\ Coins_IsValid es = true /\ forall d, amount es d = amount cs d + amount ds d;
  add_one : forall cs d n, Coins_IsValid cs = true -> ValidateDenom d = true -> 0 <= n -> amount cs d + n < max_int ->
    exists es, Coins_Add cs [MkCoin d n] = Ok es /\ Coins_IsValid es = true /\
      forall d', amount es d' = amount cs d' + if bool_decide (d = d') then n else 0
}.

Section Coins.
Context `{!CoinLib} `{!CoinsLib} `{!CoinsLaws}.
Implicit Types (cs : Coins) (d : string).

Lemma amount_cons x cs d : amount (x :: cs) d = (if bool_decide (cn_Denom x = d) then cn_Amount x else 0) + amount cs d.
Proof. apply lsum_cons. Qed.

Lemma amount_nonneg cs d : Coins_IsValid cs = true -> 0 <= amount cs d.
Proof. intros Hv. apply lsum_nonneg. intros x Hx. destruct (valid_each cs x Hv Hx). case_bool_decide; lia. Qed.

Lemma amount_absent cs d : d ∉ cn_Denom <$> cs -> amount cs d = 0.
Proof.
  induction cs as [|x cs IH]; [done|]. rewrite fmap_cons, not_elem_of_cons, amount_cons. intros [Hd Hcs].
  rewrite bool_decide_eq_false_2 by congruence. by rewrite IH.
Qed.

(** A set has at most one coin of a denomination, and that coin is its amount. *)
Lemma amount_elem cs x : NoDup (cn_Denom <$> cs) -> x ∈ cs -> amount cs (cn_Denom x) = cn_Amount x.
Proof.
  induction cs as [|y cs IH]; [by rewrite elem_of_nil|]. rewrite fmap_cons, NoDup_cons, amount_cons. intros [Hy Hnd] [->|Hx]%elem_of_cons.
  - rewrite bool_decide_eq_true_2 by done. rewrite amount_absent by done. lia.
  - rewrite bool_decide_eq_false_2; [by rewrite IH|]. intros Heq. apply Hy. rewrite Heq. by apply list_elem_of_fmap_2.
Qed.

Lemma amount_max cs d : Coins_IsValid cs = true -> amount cs d < max_int.
Proof.
  intros Hv. destruct (decide (d ∈ cn_Denom <$> cs)) as [(x & -> & Hx)%list_elem_of_fmap|Hd]; [|rewrite amount_absent by done; reflexivity].
  rewrite amount_elem by (done || by apply valid_distinct). apply (valid_each cs x Hv Hx).
Qed.

(** A sum over a set that depends on the amounts is a function of the amounts. *)
Lemma amount_sum (f : Z -> Z) cs d : f 0 = 0 -> NoDup (cn_Denom <$> cs) ->
  lsum (fun x => if bool_decide (cn_Denom x = d) then f (cn_Amount x) else 0) cs = f (amount cs d).
Proof.
  intros Hf. induction cs as [|x cs IH]; [done|]. rewrite fmap_cons, NoDup_cons, lsum_cons, amount_cons. intros [Hx Hnd]. rewrite IH by done.
  case_bool_decide as Hd; [|by rewrite Z.add_0_l]. rewrite amount_absent by (by rewrite <-Hd). by rewrite Hf, !Z.add_0_r.
Qed.

Lemma zero_iff cs : Coins_IsValid cs = true -> Coins_IsZero cs = true <-> cs = [].
Proof.
  intros Hv. split; [|by intros ->]. destruct cs as [|x cs]; [done|]. cbn. destruct (valid_each _ x Hv) as [_ Hx]; [set_solver|].
  unfold Coin_IsZero. destruct (Z.eqb_spec (cn_Amount x) 0); [lia|done].
Qed.
End Coins.

(* ------------------------------------------------------------------ *)
(** ** Decimals *)

(** [math.LegacyDec]: decimals with 18 places. *)
Class LegacyDecLib := {
  LegacyDec : Type;
  LegacyNewDecFromInt : Z -> LegacyDec;
  ld_Add : LegacyDec -> LegacyDec -> LegacyDec;
  ld_Sub : LegacyDec -> LegacyDec -> LegacyDec;
  ld_Mul : LegacyDec -> LegacyDec -> LegacyDec;
  ld_MulInt64 : LegacyDec -> Z -> LegacyDec;
  ld_Quo : LegacyDec -> LegacyDec -> LegacyDec;
  ld_Cmp : LegacyDec -> LegacyDec -> comparison;
  ld_TruncateInt : LegacyDec -> Z
}.

(** The value of a decimal.  Sums and multiples by an integer are exact; other products
    and quotients are rounded at the last place, and never past a decimal. *)
Class LegacyDecLaws `{LegacyDecLib} := {
  ld_val : LegacyDec -> Q;
  ld_int : forall n, (ld_val (LegacyNewDecFromInt n) == inject_Z n)%Q;
  ld_add : forall x y, (ld_val (ld_Add x y) == ld_val x + ld_val y)%Q;
  ld_sub : forall x y, (ld_val (ld_Sub x y) == ld_val x - ld_val y)%Q;
  ld_cmp : forall x y, ld_Cmp x y = (ld_val x ?= ld_val y)%Q;
  ld_mul_int : forall n x, (ld_val (ld_Mul (LegacyNewDecFromInt n) x) == inject_Z n * ld_val x)%Q;
  ld_mul_int64 : forall x n, (ld_val (ld_MulInt64 x n) == ld_val x * inject_Z n)%Q;
  ld_mul_near : forall x y, (Qabs (ld_val (ld_Mul x y) - ld_val x * ld_val y) <= 1 # (10 ^ 18))%Q;
  ld_quo_near : forall x y, (0 < ld_val y)%Q ->
    (Qabs (ld_val (ld_Quo x y) - ld_val x / ld_val y) <= 1 # (10 ^ 18))%Q;
  ld_quo_ge : forall x y z, (0 < ld_val y)%Q -> (ld_val z * ld_val y <= ld_val x)%Q -> (ld_val z <= ld_val (ld_Quo x y))%Q;
  ld_quo_le : forall x y z, (0 < ld_val y)%Q -> (ld_val x <= ld_val z * ld_val y)%Q -> (ld_val (ld_Quo x y) <= ld_val z)%Q;
  ld_trunc : forall x, (0 <= ld_val x)%Q -> ld_TruncateInt x = Qfloor (ld_val x)
}.

Section Decimals.
Context `{!LegacyDecLib}.
Definition LegacyOneDec : LegacyDec := LegacyNewDecFromInt 1.
Definition LegacyZeroDec : LegacyDec := LegacyNewDecFromInt 0.
Definition ld_GT (x y : LegacyDec) : bool := match ld_Cmp x y with Gt => true | _ => false end.
Definition ld_GTE (x y : LegacyDec) : bool := match ld_Cmp x y with Lt => false | _ => true end.
Definition ld_IsNegative (x : LegacyDec) : bool := match ld_Cmp x LegacyZeroDec with Lt => true | _ => false end.
Definition ld_IsZero (x : LegacyDec) : bool := match ld_Cmp x LegacyZeroDec with Eq => true | _ => false end.
Definition LegacyMinDec (x y : LegacyDec) : LegacyDec := match ld_Cmp x y with Lt => x | _ => y end.
(** [TruncateInt64] panics beyond 64 bits. *)
Definition TruncateInt64 (x : LegacyDec) : outcome fault Z :=
  let n := ld_TruncateInt x in if (- 2 ^ 63 <=? n) && (n <? 2 ^ 63) then Ok n else Err Panicked.
End Decimals.

(** [sdkmath.LegacyNewDecFromStr(d.ToDecimal().String())]: the value of a decimal, when
    it has at most 18 places. *)
Class LegacyDecParse `{LegacyDecLib} := { LegacyNewDecFromDecimal : Decimal -> option LegacyDec }.

Section Parse.
Context `{!LegacyDecLib} `{!LegacyDecParse}.
(** [func (d *Decimal) ToLegacyDec() (sdkmath.LegacyDec, error)], with [Validate] *)
Definition MaxDecimalExponentAbs : Z := 18.
Definition ToLegacyDec (d : Decimal) : option LegacyDec :=
  if (dc_Exponent d <? - MaxDecimalExponentAbs) || (MaxDecimalExponentAbs <? dc_Exponent d) then None
  else LegacyNewDecFromDecimal d.

(** [func (d *Decimal) LegacyDecOrOne() sdkmath.LegacyDec] *)
Definition LegacyDecOrOne (d : option Decimal) : LegacyDec :=
  match d with
  | None => LegacyOneDec
  | Some d => if (dc_Value d =? 0) && (dc_Exponent d =? 0) then LegacyOneDec else default LegacyOneDec (ToLegacyDec d)
  end.
End Parse.
