(* ===== verification/Rewards.v ===== *)
(** * The rewards of an epoch

    Each epoch mints a fixed, decaying amount and divides it among the participants in
    proportion to their proof-of-compute weight: the calculation of
    inference-chain/x/inference/keeper/bitcoin_rewards.go, with types/weight.go, the decay
    of types/params.go and the downtime test of keeper/accountsettle.go.

    A weight is first reduced to what was confirmed, capped ([PowerCap.v]), lost when too
    many requests were missed ([ChainStats.v]), cut by penalties and moved along
    delegations.  The denominator stays the full weight of all, so that what is lost this
    way is not redistributed but left over for governance. *)

From Stdlib Require Import QArith.
From stdpp Require Import sorting.
From S2P Require Import Prelude.
From S2P Require Import GoStd.
From S2P Require Import ChainDecimal.
From S2P Require Import ChainStats.
From S2P Require Import ChainState.
From S2P Require Import PowerCap.
From S2P Require Import ChainCoins.
Open Scope Z_scope.
Open Scope go_scope.

(* ------------------------------------------------------------------ *)
(** ** Data *)

(** The fields of [types.MLNodeInfo], [ValidationWeight], [ConfirmationWeightScale] and
    [EpochGroupData] that are used.  Elements that the code checks for nil are options. *)
Record MLNodeInfo := MkMLNode { ml_PocWeight : Z }.
Record ValidationWeight := MkValidationWeight {
  vw_MemberAddress : string; vw_Weight : Z; vw_ConfirmationWeight : Z; vw_MlNodes : list (option MLNodeInfo) }.
Record ConfirmationWeightScale := MkWeightScale { ws_ModelId : string; ws_WeightScaleFactor : option Decimal }.
Record EpochGroupData := MkEpochGroup {
  eg_EpochIndex : Z; eg_ModelId : string; eg_ValidationWeights : list ValidationWeight;
  eg_ConfirmationWeightScales : list (option ConfirmationWeightScale); eg_MemberSeedSignatures : list (string * string) }.

(** The nodes of each participant, by model. *)
Abbreviation NodesOf := (gmap string (gmap string (list (option MLNodeInfo)))).

(** [types.BitcoinRewardParams]; the bonus factors of the second phase are not used yet. *)
Record BitcoinRewardParams := MkBitcoinParams {
  br_UseBitcoinRewards : bool; br_InitialEpochReward : Z; br_DecayRate : option Decimal; br_GenesisEpoch : Z }.

Record DelegationRewardTransfer := MkRewardTransfer { dt_From : string; dt_To : string; dt_Share : option Decimal }.
Record DelegationRewardPenalty := MkRewardPenalty { dp_Participant : string; dp_PenaltyFraction : option Decimal }.

Record SettleAmount := MkSettleAmount {
  sa_Participant : string; sa_RewardCoins : Z; sa_WorkCoins : Z; sa_EpochIndex : Z; sa_SeedSignature : string;
  sa_LastClaimAttempt : Z }.
Definition sa_set_reward (n : Z) (a : SettleAmount) : SettleAmount :=
  MkSettleAmount (sa_Participant a) n (sa_WorkCoins a) (sa_EpochIndex a) (sa_SeedSignature a) (sa_LastClaimAttempt a).

(** [type SettleResult struct]; the only error is [ErrNegativeCoinBalance]. *)
Record SettleResult := MkSettleResult {
  sr_Settle : SettleAmount; sr_Error : bool; sr_RewardWeight : Z; sr_FullWeight : Z; sr_TotalWeight : Z }.
Definition sr_set_reward (n : Z) (r : SettleResult) : SettleResult :=
  MkSettleResult (sa_set_reward n (sr_Settle r)) (sr_Error r) (sr_RewardWeight r) (sr_FullWeight r) (sr_TotalWeight r).
Record BitcoinResult := MkBitcoinResult { bt_Amount : Z; bt_EpochNumber : Z; bt_DecayApplied : bool; bt_GovernanceAmount : Z }.

(** [type SettleParameters struct] *)
Record SettleParameters := MkSettleParameters { sp_TotalSubsidyPaid : Z; sp_TotalSubsidySupply : Z }.

(* ------------------------------------------------------------------ *)
(** ** Helpers *)

Definition saturatingAddUint64Max (a b : Z) : Z :=
  if a =? MaxInt64 then MaxInt64
  else let headroom := u64 (i64 (MaxInt64 - a)) in
       if headroom <=? b then MaxInt64 else i64 (a + i64 b).
Definition positiveUint64 (v : Z) : Z := if v <=? 0 then 0 else u64 v.
Definition addUint64Saturating (a b : Z) : Z :=
  let '(sum, carry) := Add64 a b in if carry =? 0 then sum else MaxUint64.

Section Rewards.
Context `{!DecimalLib} `{!LegacyDecLib} `{!LegacyDecParse}.
Implicit Types (weights : gmap string Z) (participants : list Participant).

Definition delegationShareOfWeight (share : option Decimal) (weight : Z) : outcome fault Z :=
  match share with
  | None => Ok 0
  | Some share =>
      if (weight =? 0) || (MaxInt64 <? weight) then Ok 0
      else match ToLegacyDec share with
      | None => Ok 0
      | Some shareDec =>
          if ld_IsZero shareDec then Ok 0
          else let! amount := TruncateInt64 (ld_MulInt64 shareDec (i64 weight)) in Ok (positiveUint64 amount)
      end
  end.

(** One penalty; [base] is the snapshot [baseRewardable] of the weights. *)
Definition apply_penalty (base : gmap string Z) weights (penalty : option DelegationRewardPenalty) : outcome fault (gmap string Z) :=
  match penalty with
  | None => Ok weights
  | Some penalty =>
      let p := dp_Participant penalty in
      if bool_decide (p = "") then Ok weights
      else match weights !! p with
      | None => Ok weights
      | Some w =>
          let! share := delegationShareOfWeight (dp_PenaltyFraction penalty) (zget 0 p base) in
          let removed := if w <? share then w else share in
          Ok (if removed =? 0 then weights else <[p := u64 (w - removed)]> weights)
      end
  end.
Definition applyDelegationRewardPenalties weights (penalties : list (option DelegationRewardPenalty)) : outcome fault (gmap string Z) :=
  ofold (apply_penalty weights) weights penalties.

Definition apply_transfer (base : gmap string Z) weights (transfer : option DelegationRewardTransfer) : outcome fault (gmap string Z) :=
  match transfer with
  | None => Ok weights
  | Some transfer =>
      let from := dt_From transfer in
      if bool_decide (from = "") then Ok weights
      else match weights !! from with
      | None => Ok weights
      | Some w =>
          let! share := delegationShareOfWeight (dt_Share transfer) (zget 0 from base) in
          let amount := if w <? share then w else share in
          if amount =? 0 then Ok weights
          else
            let weights1 := <[from := u64 (w - amount)]> weights in
            let to := dt_To transfer in
            Ok (if negb (bool_decide (to = "")) && (0 <? zget 0 to weights1)
                then <[to := addUint64Saturating (zget 0 to weights1) amount]> weights1 else weights1)
      end
  end.
Definition applyDelegationRewardTransfers weights (transfers : list (option DelegationRewardTransfer)) : outcome fault (gmap string Z) :=
  ofold (apply_transfer weights) weights transfers.

(* ------------------------------------------------------------------ *)
(** ** The reward of an epoch *)

(** [func GetExponent(decayRate decimal.Decimal)]: the decay of one epoch, tabulated. *)
Definition decayRates : list (dec * dec) := [
  (dec_New (-475) (-6), dec_New 9995251127946402 (-16));
  (dec_New (-1) (-6), dec_New 9999990000005 (-13));
  (dec_New 1 (-4), dec_New 10001000050001667 (-16));
  (NewFromInt 0, NewFromInt 1)].
Definition GetExponent (decayRate : dec) : option dec :=
  snd <$> List.find (fun r => dec_Equal decayRate r.1) decayRates.

(** [None] is an error. *)
Definition CalculateFixedEpochReward (epochsSinceGenesis initialReward : Z) (decayRate : option Decimal) : option Z :=
  if initialReward =? 0 then Some 0
  else match decayRate with
  | None => Some initialReward
  | Some decayRate =>
      if epochsSinceGenesis =? 0 then Some initialReward
      else
        exponent ← GetExponent (ToDecimal decayRate);
        if 2 ^ 31 - 1 <=? epochsSinceGenesis then None
        else
          expValue ← dec_PowInt32 exponent epochsSinceGenesis;
          let result := dec_IntPart (dec_Mul (NewFromInt initialReward) expValue) in
          Some (if result <? 0 then 0 else u64 result)
  end.

(* ------------------------------------------------------------------ *)
(** ** Confirmed weight (types/weight.go) *)

Definition confirmationCoefficients (scales : list (option ConfirmationWeightScale)) : gmap string LegacyDec :=
  fold_left (fun coefficients scale =>
    match scale with
    | Some s => if bool_decide (ws_ModelId s = "") then coefficients
                else <[ws_ModelId s := LegacyDecOrOne (ws_WeightScaleFactor s)]> coefficients
    | None => coefficients
    end) scales ∅.

(** The models in the order of their ids. *)
Definition model_order (x y : string) : Prop := String.leb x y = true.
#[local] Instance model_order_dec x y : Decision (model_order x y) := decide (String.leb x y = true).
Definition raw_weight (nodes : list (option MLNodeInfo)) : Z :=
  fold_left (fun raw node => match node with Some n => i64 (raw + ml_PocWeight n) | None => raw end) nodes 0.
Definition ConfirmationWeightOfModelNodesWithCoefficients (modelNodes : gmap string (list (option MLNodeInfo)))
    (coefficients : gmap string LegacyDec) : outcome fault Z :=
  ofold (fun total modelID =>
    match coefficients !! modelID with
    | None => Ok total
    | Some coeff =>
        let! n := TruncateInt64 (ld_MulInt64 coeff (raw_weight (zget [] modelID modelNodes))) in
        Ok (i64 (total + n))
    end) 0 (merge_sort model_order (elements (dom modelNodes))).

(* ------------------------------------------------------------------ *)
(** ** Downtime *)

Definition dynamicP0MarginPermille : Z := 20.
Definition dynamicP0MinTotalRequests : Z := 1000.
Definition dynamicP0MinParticipantsWithTotal : Z := 5.
Definition permilleToP0Decimal (permille : Z) : Decimal := MkDecimal (i64 permille) (-3).
Definition ceilToSupportedP0Permille (targetPermille : Z) : Z :=
  if targetPermille <=? 50 then 50
  else if targetPermille <=? 100 then 100
  else if targetPermille <=? 200 then 200
  else if targetPermille <=? 300 then 300
  else if targetPermille <=? 400 then 400
  else 500.
Definition decimalToPermilleCeil (p0 : Decimal) : Z :=
  let permilleFloor := dec_IntPart (dec_Mul (ToDecimal p0) (NewFromInt 1000)) in
  if permilleFloor <=? 0 then 0
  else
    let permille := u64 permilleFloor in
    if dec_GreaterThan (ToDecimal p0) (dec_New permilleFloor (-3)) then u64 (permille + 1) else permille.

(** The rate of governance as a supported one, or [inl] the rate itself when it is not. *)
Definition governance_p0 (binomTestP0 : option Decimal) : Decimal + Z :=
  match binomTestP0 with
  | None => inr 100
  | Some p0 =>
      let govCeil := decimalToPermilleCeil p0 in
      if 500 <? govCeil then inl p0
      else if 0 <? govCeil then inr (ceilToSupportedP0Permille govCeil) else inr 100
  end.

(** The requests of all participants: total, missed, and how many had any. *)
Definition count_requests (acc : Z * Z * Z) (p : Participant) : Z * Z * Z :=
  let '(totalRequests, missedRequests, used) := acc in
  match pp_CurrentEpochStats p with
  | None => acc
  | Some s =>
      let total := addUint64Saturating (ce_InferenceCount s) (ce_MissedRequests s) in
      if total =? 0 then acc
      else (addUint64Saturating totalRequests total, addUint64Saturating missedRequests (ce_MissedRequests s), used + 1)
  end.

(** [getDynamicP0]: the rate and whether punishment is skipped; [binomTestP0] is that of
    the validation parameters, if any.  [bits.Div64] panics on a quotient that is too large. *)
Definition getDynamicP0 participants (binomTestP0 : option Decimal) : outcome fault (Decimal * bool) :=
  match governance_p0 binomTestP0 with
  | inl p0 => Ok (p0, false)
  | inr governancePermille =>
      let '(totalRequests, missedRequests, used) := fold_left count_requests participants (0, 0, 0) in
      if (totalRequests <? dynamicP0MinTotalRequests) || (used <? dynamicP0MinParticipantsWithTotal)
      then Ok (permilleToP0Decimal governancePermille, false)
      else
        let '(hi, lo) := Mul64 missedRequests 1000 in
        match Div64 hi lo totalRequests with
        | None => Err Panicked
        | Some (baselinePermille, _) =>
            let target := u64 (baselinePermille + dynamicP0MarginPermille) in
            let targetPermille := if 500 <? target then 500 else target in
            let selected := ceilToSupportedP0Permille targetPermille in
            let finalPermille := if selected <? governancePermille then governancePermille else selected in
            Ok (permilleToP0Decimal finalPermille, selected =? 500)
        end
  end.

Definition CheckAndPunishForDowntime (total missed reward : Z) (p0 : Decimal) : Z :=
  if total =? 0 then reward
  else match MissedStatTest (i64 missed) (i64 total) (ToDecimal p0) with
  | None => reward
  | Some passed => if (passed : bool) then reward else 0
  end.
(** Statistics that are nil are dereferenced. *)
Definition CheckAndPunishForDowntimeForParticipant (p : Participant) (reward : Z) (p0 : Decimal) : outcome fault Z :=
  match pp_CurrentEpochStats p with
  | None => Err Panicked
  | Some s => Ok (CheckAndPunishForDowntime (u64 (ce_InferenceCount s + ce_MissedRequests s)) (ce_MissedRequests s) reward p0)
  end.
Definition CheckAndPunishForDowntimeForParticipants participants weights (p0 : Decimal) : outcome fault (gmap string Z) :=
  ofold (fun weights p =>
    let! w := CheckAndPunishForDowntimeForParticipant p (zget 0 (pp_Address p) weights) p0 in
    Ok (<[pp_Address p := w]> weights)) weights participants.

(* ------------------------------------------------------------------ *)
(** ** Dividing the reward *)

(** [ewBig.Int64()]: the low 64 bits. *)
Definition effective_weight (data : EpochGroupData) (coefficients : gmap string LegacyDec)
    (modelNodes : gmap string (list (option MLNodeInfo))) (vw : ValidationWeight) : outcome fault Z :=
  let fullWeight := vw_Weight vw in
  match eg_ConfirmationWeightScales data with
  | [] => Ok fullWeight
  | _ =>
      let! rawTotal := ConfirmationWeightOfModelNodesWithCoefficients modelNodes coefficients in
      let confirmed := if vw_ConfirmationWeight vw <? 0 then 0 else vw_ConfirmationWeight vw in
      let effective := if 0 <? rawTotal then i64 (confirmed * vw_Weight vw / rawTotal) else 0 in
      Ok (if fullWeight <? effective then fullWeight else effective)
  end.

(** The three collections of the first loop: the weights, the full weights and the
    effective weights of the active participants, in order. *)
Record Weighing := MkWeighing { wg_weights : gmap string Z; wg_full : gmap string Z; wg_effective : list ActiveParticipant }.
Definition weigh_one (data : EpochGroupData) (nodes : NodesOf) (coefficients : gmap string LegacyDec)
    (g : Weighing) (p : Participant) : outcome fault Weighing :=
  let addr := pp_Address p in
  let none := MkWeighing (<[addr := 0]> (wg_weights g)) (<[addr := 0]> (wg_full g)) (wg_effective g) in
  match List.find (fun v => bool_decide (vw_MemberAddress v = addr)) (eg_ValidationWeights data) with
  | None => Ok none
  | Some vw =>
      if vw_Weight vw <=? 0 then Ok none
      else
        let full := <[addr := u64 (vw_Weight vw)]> (wg_full g) in
        if negb (bool_decide (pp_Status p = Participant_ACTIVE)) then
          Ok (MkWeighing (<[addr := 0]> (wg_weights g)) full (wg_effective g))
        else
          let! effective := effective_weight data coefficients (zget ∅ addr nodes) vw in
          Ok (MkWeighing (wg_weights g) full (wg_effective g ++ [MkActive addr effective]))
  end.
Definition map_back weights (capped : list ActiveParticipant) : gmap string Z :=
  fold_left (fun m a => <[ap_Index a := if ap_Weight a <? 0 then 0 else u64 (ap_Weight a)]> m) capped weights.

(** The addition of all weights, in any order, modulo 2^64. *)
Definition total_weight (weights : gmap string Z) : Z := u64 (msum (fun _ w => w) weights).

Definition share_of_reward (participantWeight fixedEpochReward totalWeight : Z) : Z :=
  let result := participantWeight * fixedEpochReward / totalWeight in
  if result <? 2 ^ 64 then result else MaxInt64.

(** One round of the last loop: the result and the running total. *)
Definition settle_one (weights full : gmap string Z) (totalWeight fixedEpochReward : Z)
    (acc : list SettleResult * Z) (p : Participant) : list SettleResult * Z :=
  let '(results, totalDistributed) := acc in
  let addr := pp_Address p in
  let active := bool_decide (pp_Status p = Participant_ACTIVE) in
  let workCoins := if (0 <? pp_CoinBalance p) && active then u64 (pp_CoinBalance p) else 0 in
  let participantWeight := zget 0 addr weights in
  let rewardCoins :=
    if active && (0 <? totalWeight) && (0 <? participantWeight)
    then share_of_reward participantWeight fixedEpochReward totalWeight else 0 in
  let distributed := u64 (totalDistributed + rewardCoins) in
  let '(reward, distributed', error) :=
    if pp_CoinBalance p <? 0 then
      let debt := u64 (i64 (- pp_CoinBalance p)) in
      if debt <=? rewardCoins then (u64 (rewardCoins - debt), u64 (distributed - debt), false)
      else (0, u64 (distributed - rewardCoins), true)
    else (rewardCoins, distributed, false) in
  (results ++ [MkSettleResult (MkSettleAmount addr reward workCoins 0 "" 0) error participantWeight (zget 0 addr full) totalWeight],
   distributed').

(** [CalculateParticipantBitcoinRewardsWithTransfers]; an empty slice of participants is
    nil.  The arguments that are pointers are not nil. *)
Definition CalculateParticipantBitcoinRewardsWithTransfers participants (data : EpochGroupData) (params : BitcoinRewardParams)
    (binomTestP0 : option Decimal) (nodes : NodesOf) (transfers : list (option DelegationRewardTransfer))
    (penalties : list (option DelegationRewardPenalty)) : outcome fault (list SettleResult * BitcoinResult) :=
  run! ocheck (negb (bool_decide (participants = []))) (Failed "participants cannot be nil") in
  let currentEpoch := eg_EpochIndex data in
  let epochsSinceGenesis := u64 (currentEpoch - br_GenesisEpoch params) in
  let fixedEpochReward := default 0 (CalculateFixedEpochReward epochsSinceGenesis (br_InitialEpochReward params) (br_DecayRate params)) in
  let! g := ofold (weigh_one data nodes (confirmationCoefficients (eg_ConfirmationWeightScales data))) (MkWeighing ∅ ∅ []) participants in
  let '(capped, _) := ApplyPowerCappingForWeights (wg_effective g) in
  let weights := map_back (wg_weights g) capped in
  let totalFullWeight := total_weight (wg_full g) in
  let! (p0, skipPunishment) := getDynamicP0 participants binomTestP0 in
  let! weights1 := (if (skipPunishment : bool) then Ok weights else CheckAndPunishForDowntimeForParticipants participants weights p0) in
  let! weights2 := applyDelegationRewardPenalties weights1 penalties in
  let! weights3 := applyDelegationRewardTransfers weights2 transfers in
  let '(settleResults, totalDistributed) :=
    fold_left (settle_one weights3 (wg_full g) totalFullWeight fixedEpochReward) participants ([], 0) in
  let left := if fixedEpochReward <? totalDistributed then 0 else u64 (fixedEpochReward - totalDistributed) in
  let remainder := if MaxInt64 <? left then MaxInt64 else left in
  Ok (settleResults, MkBitcoinResult (i64 fixedEpochReward) currentEpoch (0 <? epochsSinceGenesis) (i64 remainder)).

(** One round of the reduction near the supply limit. *)
Definition reduce_one (originalAmount remaining : Z) (acc : list SettleResult * Z) (r : SettleResult) : list SettleResult * Z :=
  let '(results, totalDistributed) := acc in
  if sr_Error r then (results ++ [r], totalDistributed)
  else
    let reduced := u64 (dec_IntPart (dec_Div (dec_Mul (NewFromInt (sa_RewardCoins (sr_Settle r))) (NewFromInt remaining)) (NewFromInt originalAmount))) in
    (results ++ [sr_set_reward reduced r], u64 (totalDistributed + reduced)).

Definition GetBitcoinSettleAmountsWithTransfers participants (data : EpochGroupData) (params : BitcoinRewardParams)
    (binomTestP0 : option Decimal) (settleParams : SettleParameters) (nodes : NodesOf)
    (transfers : list (option DelegationRewardTransfer)) (penalties : list (option DelegationRewardPenalty))
    : outcome fault (list SettleResult * BitcoinResult) :=
  let! (settleResults, b) := CalculateParticipantBitcoinRewardsWithTransfers participants data params binomTestP0 nodes transfers penalties in
  let paid := sp_TotalSubsidyPaid settleParams in
  let supply := sp_TotalSubsidySupply settleParams in
  if supply <=? paid then
    Ok (sr_set_reward 0 <$> settleResults, MkBitcoinResult 0 (bt_EpochNumber b) (bt_DecayApplied b) 0)
  else if supply <? i64 (paid + bt_Amount b) then
    let originalAmount := bt_Amount b in
    let amount := i64 (supply - paid) in
    if 0 <? originalAmount then
      let '(results, totalDistributed) := fold_left (reduce_one originalAmount amount) settleResults ([], 0) in
      let remainder := if u64 amount <? totalDistributed then 0 else u64 (u64 amount - totalDistributed) in
      Ok (results, MkBitcoinResult amount (bt_EpochNumber b) (bt_DecayApplied b) (saturatingAddUint64Max (bt_GovernanceAmount b) remainder))
    else Ok (settleResults, MkBitcoinResult amount (bt_EpochNumber b) (bt_DecayApplied b) (bt_GovernanceAmount b))
  else Ok (settleResults, b).
End Rewards.
