(* ===== verification/RewardsSpec.v ===== *)
(** * What dividing the reward of an epoch promises

    The weights that count towards the rewards never add up to more than the full
    weights, whatever was confirmed, capped, missed, penalised or delegated; so the
    rewards are shares that fit in the minted amount, and with what is left for governance
    they add up to it exactly.  Near the limit of the supply they do not. *)

From Stdlib Require Import QArith Qpower Qabs Qround Lqa.
From stdpp Require Import sorting.
From S2P Require Import Prelude.
From S2P Require Import GoStd.
From S2P Require Import ChainStore.
From S2P Require Import ChainDecimal.
From S2P Require Import ChainStats.
From S2P Require Import ChainState.
From S2P Require Import PowerCap.
From S2P Require Import ChainCoins.
From S2P Require Import Rewards.
Open Scope Z_scope.
Open Scope go_scope.

(* ------------------------------------------------------------------ *)
(** ** Maps of weights *)

Abbreviation Weights := (gmap string Z).
Implicit Types (ws full : Weights).
Abbreviation sum_of := (msum (fun _ w => w)).
Definition nonneg ws : Prop := forall a, 0 <= zget 0 a ws.
Definition below ws full : Prop := forall a, 0 <= zget 0 a ws <= zget 0 a full.

Lemma nonneg_sum ws : nonneg ws -> 0 <= sum_of ws.
Proof. intros Hn. apply msum_nonneg. intros a w Ha. specialize (Hn a). unfold zget in Hn. by rewrite Ha in Hn. Qed.

Lemma weight_le_sum ws a : nonneg ws -> zget 0 a ws <= sum_of ws.
Proof.
  intros Hn. unfold zget. destruct (ws !! a) as [w|] eqn:Ha; cbn; [|by apply nonneg_sum].
  apply (msum_lookup_le (fun _ w => w) ws a w); [|done]. intros b v Hb. specialize (Hn b). unfold zget in Hn. by rewrite Hb in Hn.
Qed.

Lemma sum_insert ws a w : sum_of (<[a := w]> ws) = sum_of ws - zget 0 a ws + w.
Proof. rewrite (msum_from_option (fun w => w)). unfold zget. destruct (ws !! a); cbn; lia. Qed.

Lemma nonneg_insert ws a w : nonneg ws -> 0 <= w -> nonneg (<[a := w]> ws).
Proof. intros Hn Hw b. destruct (decide (a = b)) as [<-|]; [by rewrite zget_insert_eq|by rewrite zget_insert_ne]. Qed.

Lemma below_insert ws full a w : below ws full -> 0 <= w <= zget 0 a full -> below (<[a := w]> ws) full.
Proof. intros Hn Hw b. destruct (decide (a = b)) as [<-|]; [by rewrite zget_insert_eq|by rewrite zget_insert_ne]. Qed.

Lemma below_nonneg ws full : below ws full -> nonneg ws.
Proof. intros Hb a. apply Hb. Qed.

(** Distinct keys of a map hold at most its sum. *)
Lemma lsum_zget_le (l : list string) ws : NoDup l -> nonneg ws -> lsum (fun a => zget 0 a ws) l <= sum_of ws.
Proof.
  revert ws. induction l as [|a l IH]; intros ws Hnd Hn; [by apply nonneg_sum|]. apply NoDup_cons in Hnd as [Ha Hnd]. rewrite lsum_cons.
  specialize (IH (<[a := 0]> ws) Hnd ltac:(by apply nonneg_insert)). rewrite sum_insert in IH.
  rewrite (lsum_ext _ (fun a' => zget 0 a' ws)) in IH; [lia|]. intros b Hb. apply zget_insert_ne. set_solver.
Qed.

Lemma below_sum ws full : below ws full -> sum_of ws <= sum_of full.
Proof.
  revert full. induction ws as [|a w ws Ha IH] using map_ind; intros full Hb.
  { rewrite msum_empty. apply nonneg_sum. intros a. specialize (Hb a). unfold zget at 1 2 in Hb. rewrite lookup_empty in Hb. cbn in Hb. lia. }
  pose proof (Hb a) as Hw. rewrite zget_insert_eq in Hw. rewrite sum_insert. unfold zget at 1. rewrite Ha. cbn [from_option id].
  specialize (IH (<[a := 0]> full)). rewrite sum_insert in IH. assert (below ws (<[a := 0]> full)) as Hbw; [|specialize (IH Hbw); lia].
  intros b. destruct (decide (a = b)) as [<-|Hne].
  - rewrite zget_insert_eq. unfold zget. rewrite Ha. cbn. lia.
  - specialize (Hb b). by rewrite !zget_insert_ne in * by done.
Qed.

(* ------------------------------------------------------------------ *)
(** ** The steps on the weights *)

(** Capping only lowers weights. *)
Lemma capped_cases `{!DecimalLib} ps :
  (ApplyPowerCappingForWeights ps).1 = ps \/ exists limit, 0 < limit /\ (ApplyPowerCappingForWeights ps).1 = cut limit <$> ps.
Proof.
  unfold ApplyPowerCappingForWeights, CalculateOptimalCap. destruct (_ <=? 1)%nat; [by left|]. destruct (_ <=? 1); [by left|].
  destruct (_ <=? 1)%nat; [by left|]. set (limit := find_cap _ _ _). destruct (Z.leb_spec limit 0); [rewrite orb_true_r; by left|].
  destruct (limit =? -1); [by left|]. right. by exists limit.
Qed.

Section Steps.
Context `{!DecimalLib} `{!LegacyDecLib} `{!LegacyDecParse}.

Lemma share_range share w n : delegationShareOfWeight share w = Ok n -> 0 <= n < 2 ^ 63.
Proof.
  unfold delegationShareOfWeight. destruct share; [|intros [= <-]; lia]. destruct (_ || _); [intros [= <-]; lia|].
  destruct (ToLegacyDec _); [|intros [= <-]; lia]. destruct (ld_IsZero _); [intros [= <-]; lia|]. intros (m & Hm & [= <-])%obind_Ok.
  unfold TruncateInt64 in Hm. destruct (_ && _) eqn:E; [|done]. injection Hm as <-. boolify. unfold positiveUint64.
  destruct (Z.leb_spec (ld_TruncateInt (ld_MulInt64 l (i64 w))) 0); [lia|]. rewrite u64_small by (unfold is_u64; lia). lia.
Qed.

Lemma penalties_below ws full penalties ws' :
  below ws full -> (forall a, zget 0 a full < 2 ^ 64) -> applyDelegationRewardPenalties ws penalties = Ok ws' -> below ws' full.
Proof.
  intros Hb Hu. unfold applyDelegationRewardPenalties. generalize ws at 1 as base. intros base. revert ws Hb.
  induction penalties as [|[penalty|] l IH]; intros ws Hb; cbn [ofold]; [by intros [= <-]| |by apply IH].
  intros (ws1 & Hp & Hl)%obind_Ok. apply (IH ws1); [|done]. revert Hp. unfold apply_penalty. case_bool_decide; [by intros [= <-]|].
  destruct (ws !! dp_Participant penalty) as [w|] eqn:Hw; [|by intros [= <-]]. intros (n & Hn%share_range & [= <-])%obind_Ok.
  pose proof (Hb (dp_Participant penalty)) as Hwb. unfold zget at 1 2 in Hwb. rewrite Hw in Hwb. cbn [from_option id] in Hwb.
  specialize (Hu (dp_Participant penalty)). set (removed := if w <? n then w else n). destruct (removed =? 0); [done|]. apply below_insert; [done|].
  assert (0 <= removed <= w) by (unfold removed; destruct (Z.ltb_spec w n); lia). rewrite u64_small by (unfold is_u64; lia). lia.
Qed.

Lemma saturating_le a b : 0 <= a -> 0 <= b -> 0 <= addUint64Saturating a b <= a + b.
Proof.
  intros Ha Hb. unfold addUint64Saturating, Add64. destruct (Z.eqb_spec ((a + b) / 2 ^ 64) 0) as [Hc|Hc].
  - apply Z.div_small_iff in Hc; [|lia]. rewrite u64_small by (unfold is_u64; lia). lia.
  - assert (2 ^ 64 <= a + b); [|unfold MaxUint64; lia]. destruct (Z.le_gt_cases (2 ^ 64) (a + b)); [done|]. destruct Hc. apply Z.div_small. lia.
Qed.

Lemma transfer_sum base ws transfer ws' :
  nonneg ws -> sum_of ws < 2 ^ 64 -> apply_transfer base ws transfer = Ok ws' -> nonneg ws' /\ sum_of ws' <= sum_of ws.
Proof.
  intros Hn Hs. destruct transfer as [t|]; cbn [apply_transfer]; [|by intros [= <-]]. case_bool_decide; [by intros [= <-]|].
  destruct (ws !! dt_From t) as [w|] eqn:Hw; [|by intros [= <-]]. intros (n & Hr%share_range & Ht)%obind_Ok.
  assert (zget 0 (dt_From t) ws = w) as Hz by (unfold zget; by rewrite Hw). pose proof (Hn (dt_From t)) as Hw0. pose proof (weight_le_sum ws (dt_From t) Hn). rewrite Hz in *.
  revert Ht. set (amount := if w <? n then w else n). assert (0 <= amount <= w) as Ha by (unfold amount; case_match; boolify; lia).
  destruct (Z.eqb_spec amount 0); [by intros [= <-]|]. rewrite u64_small by (unfold is_u64; lia). set (ws2 := <[dt_From t := w - amount]> ws).
  assert (nonneg ws2) as Hn2 by (apply nonneg_insert; [done|lia]). assert (sum_of ws2 = sum_of ws - amount) as Hs2 by (unfold ws2; rewrite sum_insert, Hz; lia).
  intros [= <-]. case_match; [|split; [done|lia]]. destruct (saturating_le (zget 0 (dt_To t) ws2) amount) as [Hs3 Hs4]; [apply Hn2|lia|].
  split; [by apply nonneg_insert|]. rewrite sum_insert. lia.
Qed.

Lemma transfers_sum ws transfers ws' :
  nonneg ws -> sum_of ws < 2 ^ 64 -> applyDelegationRewardTransfers ws transfers = Ok ws' -> nonneg ws' /\ sum_of ws' <= sum_of ws.
Proof.
  unfold applyDelegationRewardTransfers. generalize ws at 3 as base. intros base. revert ws.
  induction transfers as [|t l IH]; intros ws Hn Hs; cbn [ofold]; [by intros [= <-]|].
  intros (ws1 & Hp & Hl)%obind_Ok. destruct (transfer_sum base ws t ws1 Hn Hs Hp) as [Hn1 Hs1]. destruct (IH ws1 Hn1 ltac:(lia) Hl). split; [done|lia].
Qed.

Lemma downtime_below ps p0 ws full ws' :
  below ws full -> CheckAndPunishForDowntimeForParticipants ps ws p0 = Ok ws' -> below ws' full.
Proof.
  unfold CheckAndPunishForDowntimeForParticipants. revert ws. induction ps as [|p ps IH]; intros ws Hb; cbn [ofold]; [by intros [= <-]|].
  intros (ws1 & (w & Hw & [= <-])%obind_Ok & Hl)%obind_Ok. eapply IH; [|exact Hl]. apply below_insert; [done|].
  revert Hw. unfold CheckAndPunishForDowntimeForParticipant, CheckAndPunishForDowntime. specialize (Hb (pp_Address p)).
  destruct (pp_CurrentEpochStats p); [|done]. intros [= <-]. repeat case_match; lia.
Qed.
End Steps.

(* ------------------------------------------------------------------ *)
(** ** Weighing *)

(** The full weight of an address: that of its first entry. *)
Definition full_of (data : EpochGroupData) (addr : string) : Z :=
  match List.find (fun v => bool_decide (vw_MemberAddress v = addr)) (eg_ValidationWeights data) with
  | Some vw => Z.max 0 (vw_Weight vw)
  | None => 0
  end.
Definition weights_typed (data : EpochGroupData) : Prop := Forall (fun v => vw_Weight v < 2 ^ 63) (eg_ValidationWeights data).

Lemma full_range data addr : weights_typed data -> 0 <= full_of data addr < 2 ^ 63.
Proof.
  intros Ht. unfold full_of. destruct (List.find _ _) as [vw|] eqn:Hf; [|lia]. apply List.find_some in Hf as [Hin _].
  unfold weights_typed in Ht. rewrite Forall_forall in Ht. specialize (Ht vw ltac:(by apply list_elem_of_In)). lia.
Qed.

Section Weighing.
Context `{!DecimalLib} `{!LegacyDecLib} `{!LegacyDecParse}.
Context (data : EpochGroupData) (Htyped : weights_typed data).

(** What holds after weighing [l]. *)
Record weighed (l : list string) (g : Weighing) : Prop := {
  wd_zero : forall a, zget 0 a (wg_weights g) = 0;
  wd_full : forall a, zget 0 a (wg_full g) = if bool_decide (a ∈ l) then full_of data a else 0;
  wd_sum : NoDup l -> sum_of (wg_full g) = lsum (full_of data) l;
  wd_effective : forall x, x ∈ wg_effective g -> ap_Index x ∈ l /\ ap_Weight x <= full_of data (ap_Index x)
}.

Lemma effective_le coefficients nodes vw n :
  effective_weight data coefficients nodes vw = Ok n -> n <= vw_Weight vw.
Proof.
  unfold effective_weight. destruct (eg_ConfirmationWeightScales data); [intros [= <-]; lia|].
  intros (raw & _ & [= <-])%obind_Ok. destruct (Z.ltb_spec (vw_Weight vw) (if 0 <? raw then i64 ((if vw_ConfirmationWeight vw <? 0 then 0 else vw_ConfirmationWeight vw) * vw_Weight vw / raw) else 0)); lia.
Qed.

Lemma zget_snoc l (a b : string) (f : string -> Z) ws :
  (forall a, zget 0 a ws = if bool_decide (a ∈ l) then f a else 0) ->
  zget 0 b (<[a := f a]> ws) = if bool_decide (b ∈ l ++ [a]) then f b else 0.
Proof.
  intros Hw. destruct (decide (a = b)) as [<-|Hne].
  - rewrite zget_insert_eq. by rewrite bool_decide_eq_true_2 by set_solver.
  - rewrite zget_insert_ne, Hw by done. destruct (decide (b ∈ l)); [by rewrite !bool_decide_eq_true_2 by set_solver|].
    by rewrite !bool_decide_eq_false_2 by set_solver.
Qed.

Lemma weigh_one_spec nodes coefficients l g p g' :
  weighed l g -> weigh_one data nodes coefficients g p = Ok g' -> weighed (l ++ [pp_Address p]) g'.
Proof.
  intros [Hz Hf Hs He] Hrun. set (a := pp_Address p) in *.
  assert (forall f', wg_full g' = f' -> f' = <[a := full_of data a]> (wg_full g) -> (forall b, zget 0 b (wg_weights g') = 0) ->
    (forall x, x ∈ wg_effective g' -> ap_Index x ∈ l ++ [a] /\ ap_Weight x <= full_of data (ap_Index x)) -> weighed (l ++ [a]) g') as Hgoal.
  { intros f' Hf1 Hf2 Hz' He'. rewrite Hf2 in Hf1. split; [done| | |done]; rewrite Hf1; [intros b; by apply zget_snoc|].
    intros [Hnd [Hd _]]%NoDup_app. rewrite sum_insert, lsum_app, lsum_one, Hs, Hf by done.
    rewrite bool_decide_eq_false_2; [lia|]. intros Ha. apply (Hd a Ha). set_solver. }
  assert (forall b, zget 0 b (<[a := 0]> (wg_weights g)) = 0) as Hz0.
  { intros b. destruct (decide (a = b)) as [<-|]; [by rewrite zget_insert_eq|by rewrite zget_insert_ne]. }
  assert (forall x, x ∈ wg_effective g -> ap_Index x ∈ l ++ [a] /\ ap_Weight x <= full_of data (ap_Index x)) as He0.
  { intros x Hx. destruct (He x Hx). split; [set_solver|done]. }
  pose proof (full_range data a Htyped) as Hr. unfold weigh_one in Hrun. fold a in Hrun.
  destruct (List.find _ (eg_ValidationWeights data)) as [vw|] eqn:Hfind.
  2: { assert (full_of data a = 0) as Hfa by (unfold full_of; by rewrite Hfind). injection Hrun as <-. eapply Hgoal; try done. by rewrite Hfa. }
  assert (full_of data a = Z.max 0 (vw_Weight vw)) as Hfa by (unfold full_of; by rewrite Hfind).
  destruct (Z.leb_spec (vw_Weight vw) 0); [injection Hrun as <-; eapply Hgoal; try done; rewrite Hfa; cbn; by replace (Z.max 0 (vw_Weight vw)) with 0 by lia|].
  assert (u64 (vw_Weight vw) = full_of data a) as Hu by (rewrite u64_small by (unfold is_u64; lia); lia). rewrite Hu in Hrun.
  destruct (negb _); [injection Hrun as <-; by eapply Hgoal|].
  apply obind_Ok in Hrun as (n & Hn%effective_le & [= <-]). eapply Hgoal; try done; cbn.
  intros x [Hx| ->%list_elem_of_singleton]%elem_of_app; [by apply He0|]. cbn. split; [set_solver|lia].
Qed.

Lemma weigh_spec nodes coefficients ps : forall l g g', weighed l g ->
  ofold (weigh_one data nodes coefficients) g ps = Ok g' -> weighed (l ++ (pp_Address <$> ps)) g'.
Proof.
  induction ps as [|p ps IH]; intros l g g' Hw; cbn [ofold]; [intros [= <-]; by rewrite app_nil_r|].
  intros (g1 & Hp & Hl)%obind_Ok. rewrite fmap_cons, cons_middle, app_assoc. eapply IH; [|exact Hl]. by eapply weigh_one_spec.
Qed.

Lemma weighed_empty : weighed [] (MkWeighing ∅ ∅ []).
Proof. split; cbn; [done|done|done|]. intros x Hx. by apply elem_of_nil in Hx. Qed.

(** The weights after capping are within the full weights. *)
Lemma map_back_below l g : weighed l g -> below (map_back (wg_weights g) (ApplyPowerCappingForWeights (wg_effective g)).1) (wg_full g).
Proof.
  intros [Hz Hf _ He]. set (capped := (ApplyPowerCappingForWeights (wg_effective g)).1).
  assert (forall x, x ∈ capped -> ap_Weight x <= zget 0 (ap_Index x) (wg_full g)) as Hc.
  { assert (forall x, x ∈ wg_effective g -> ap_Weight x <= zget 0 (ap_Index x) (wg_full g)) as He'.
    { intros x Hx. destruct (He x Hx). by rewrite Hf, bool_decide_eq_true_2. }
    unfold capped. destruct (capped_cases (wg_effective g)) as [->|(limit & _ & ->)]; [done|].
    intros x (y & -> & Hy)%list_elem_of_fmap. specialize (He' y Hy). unfold cut. destruct (Z.ltb_spec limit (ap_Weight y)); cbn; lia. }
  assert (below (wg_weights g) (wg_full g)) as Hb.
  { intros a. rewrite Hz, Hf. pose proof (full_range data a Htyped). case_bool_decide; lia. }
  revert Hb Hc. generalize (wg_weights g) as ws. unfold map_back. induction capped as [|x capped IH]; intros ws Hb Hc; [done|].
  cbn [fold_left]. apply IH; [|intros y Hy; apply Hc; by right]. apply below_insert; [done|].
  specialize (Hc x ltac:(by left)). pose proof (Hb (ap_Index x)). pose proof (full_range data (ap_Index x) Htyped) as Hr.
  assert (zget 0 (ap_Index x) (wg_full g) < 2 ^ 63) by (rewrite Hf; case_bool_decide; lia).
  destruct (Z.ltb_spec (ap_Weight x) 0); [lia|]. rewrite u64_small by (unfold is_u64; lia). lia.
Qed.
End Weighing.

(* ------------------------------------------------------------------ *)
(** ** Sharing out *)

Definition is_active (p : Participant) : bool := bool_decide (pp_Status p = Participant_ACTIVE).
Definition debt (p : Participant) : Z := Z.max 0 (- pp_CoinBalance p).
Definition work (p : Participant) : Z := if is_active p then Z.max 0 (pp_CoinBalance p) else 0.
Definition balance_typed (p : Participant) : Prop := - 2 ^ 63 < pp_CoinBalance p < 2 ^ 63.

(** The share of a participant before its debt, its reward, and its result. *)
Definition gross ws (T R : Z) (p : Participant) : Z :=
  if is_active p && (0 <? T) then zget 0 (pp_Address p) ws * R / T else 0.
Definition reward_of ws (T R : Z) (p : Participant) : Z := Z.max 0 (gross ws T R p - debt p).
Definition result_of ws full (T R : Z) (p : Participant) : SettleResult :=
  MkSettleResult (MkSettleAmount (pp_Address p) (reward_of ws T R p) (work p) 0 "" 0)
    (gross ws T R p <? debt p) (zget 0 (pp_Address p) ws) (zget 0 (pp_Address p) full) T.

Section Sharing.
Context (ws full : Weights) (T R : Z).
Hypothesis Hws : nonneg ws.
Hypothesis HT : sum_of ws <= T < 2 ^ 64.
Hypothesis HR : 0 <= R < 2 ^ 63.
Implicit Types (p : Participant).

Lemma gross_range p : 0 <= gross ws T R p <= R.
Proof.
  unfold gross. destruct (is_active p); cbn [andb]; [|lia]. destruct (Z.ltb_spec 0 T); [|lia].
  pose proof (Hws (pp_Address p)). pose proof (weight_le_sum ws (pp_Address p) Hws). split; [apply Z.div_pos; nia|].
  apply Z.div_le_upper_bound; nia.
Qed.

Lemma gross_sum ps : NoDup (pp_Address <$> ps) -> lsum (gross ws T R) ps <= R.
Proof.
  intros Hnd. pose proof (lsum_zget_le _ ws Hnd Hws) as Hle. rewrite lsum_fmap in Hle.
  destruct (Z.ltb_spec 0 T) as [Hpos|Hz].
  - assert (T * lsum (gross ws T R) ps <= R * lsum (fun p => zget 0 (pp_Address p) ws) ps) as Hmul.
    { clear Hle Hnd. induction ps as [|p ps IH]; rewrite ?lsum_cons; [cbn; lia|].
      assert (T * gross ws T R p <= R * zget 0 (pp_Address p) ws); [|lia]. pose proof (Hws (pp_Address p)). unfold gross.
      destruct (is_active p); cbn [andb]; [|nia]. destruct (Z.ltb_spec 0 T); [|lia]. rewrite (Z.mul_comm R). by apply Z.mul_div_le. }
    assert (R * lsum (fun p => zget 0 (pp_Address p) ws) ps <= R * T) by nia. nia.
  - rewrite (lsum_ext _ (fun _ => 0)); [rewrite lsum_zero; lia|]. intros p _. unfold gross. destruct (Z.ltb_spec 0 T); [lia|by rewrite andb_false_r].
Qed.

Lemma reward_le p : 0 <= reward_of ws T R p <= gross ws T R p.
Proof. unfold reward_of, debt. pose proof (gross_range p). lia. Qed.

Lemma settle_one_spec results t p : balance_typed p -> 0 <= t -> t + gross ws T R p < 2 ^ 64 ->
  settle_one ws full T R (results, t) p = (results ++ [result_of ws full T R p], t + reward_of ws T R p).
Proof.
  intros Hb Ht Hlt. pose proof (gross_range p) as Hg. unfold settle_one, result_of, work, reward_of, debt. fold (is_active p). cbv zeta.
  assert ((if is_active p && (0 <? T) && (0 <? zget 0 (pp_Address p) ws) then share_of_reward (zget 0 (pp_Address p) ws) R T else 0) = gross ws T R p) as ->.
  { unfold gross in *. destruct (is_active p); cbn [andb] in *; [|done]. destruct (Z.ltb_spec 0 T); cbn [andb] in *; [|done].
    destruct (Z.ltb_spec 0 (zget 0 (pp_Address p) ws)) as [|Hz]; [unfold share_of_reward|].
    - by destruct (Z.ltb_spec (zget 0 (pp_Address p) ws * R / T) (2 ^ 64)); [|lia].
    - replace (zget 0 (pp_Address p) ws) with 0 by (pose proof (Hws (pp_Address p)); lia). done. }
  unfold balance_typed in Hb. rewrite (u64_small (t + _)) by (unfold is_u64; lia).
  assert ((if (0 <? pp_CoinBalance p) && is_active p then u64 (pp_CoinBalance p) else 0) = (if is_active p then Z.max 0 (pp_CoinBalance p) else 0)) as ->.
  { destruct (is_active p); rewrite ?andb_true_r, ?andb_false_r; [|done]. destruct (Z.ltb_spec 0 (pp_CoinBalance p)); [|lia].
    rewrite u64_small by (unfold is_u64; lia). lia. }
  destruct (Z.ltb_spec (pp_CoinBalance p) 0).
  - rewrite (i64_small (- _)) by (unfold is_i64; lia). rewrite (u64_small (- _)) by (unfold is_u64; lia).
    replace (Z.max 0 (- pp_CoinBalance p)) with (- pp_CoinBalance p) by lia.
    destruct (Z.leb_spec (- pp_CoinBalance p) (gross ws T R p)).
    + rewrite !u64_small by (unfold is_u64; lia). destruct (Z.ltb_spec (gross ws T R p) (- pp_CoinBalance p)); [lia|].
      replace (Z.max 0 (gross ws T R p - - pp_CoinBalance p)) with (gross ws T R p - - pp_CoinBalance p) by lia. f_equal. lia.
    + rewrite u64_small by (unfold is_u64; lia). destruct (Z.ltb_spec (gross ws T R p) (- pp_CoinBalance p)); [|lia].
      replace (Z.max 0 (gross ws T R p - - pp_CoinBalance p)) with 0 by lia. f_equal. lia.
  - replace (Z.max 0 (- pp_CoinBalance p)) with 0 by lia. destruct (Z.ltb_spec (gross ws T R p) 0); [lia|].
    replace (Z.max 0 (gross ws T R p - 0)) with (gross ws T R p) by lia. done.
Qed.

Lemma settle_fold ps : forall results t, Forall balance_typed ps -> 0 <= t -> t + lsum (gross ws T R) ps < 2 ^ 64 ->
  fold_left (settle_one ws full T R) ps (results, t) = (results ++ (result_of ws full T R <$> ps), t + lsum (reward_of ws T R) ps).
Proof.
  induction ps as [|p ps IH]; intros results t Hb Ht Hlt; cbn [fold_left]; [rewrite app_nil_r; f_equal; cbn; lia|].
  apply Forall_cons in Hb as [Hp Hb]. rewrite !lsum_cons in *. pose proof (gross_range p). pose proof (reward_le p).
  assert (0 <= lsum (gross ws T R) ps) by (apply lsum_nonneg; intros q _; apply gross_range).
  rewrite settle_one_spec, IH by (done || lia). rewrite fmap_cons, <-app_assoc. f_equal. lia.
Qed.
End Sharing.

(* ------------------------------------------------------------------ *)
(** ** Nothing panics *)

Section Total.
Context `{!DecimalLib} `{!LegacyDecLib} `{!LegacyDecLaws} `{!LegacyDecParse}.

Definition stats_typed (p : Participant) : Prop :=
  exists s, pp_CurrentEpochStats p = Some s /\ is_u64 (ce_InferenceCount s) /\ is_u64 (ce_MissedRequests s).
Definition share_typed (share : option Decimal) : Prop :=
  forall d x, share = Some d -> ToLegacyDec d = Some x -> (0 <= ld_val x <= 1)%Q.

Lemma share_done share w : share_typed share -> 0 <= w -> exists n, delegationShareOfWeight share w = Ok n.
Proof.
  intros Hs Hw. unfold delegationShareOfWeight. destruct share as [d|]; [|by eexists]. destruct (Z.eqb_spec w 0); [by eexists|].
  destruct (Z.ltb_spec MaxInt64 w) as [|Hmax]; [by eexists|]. cbn [orb]. destruct (ToLegacyDec d) as [x|] eqn:Hx; [|by eexists].
  destruct (ld_IsZero x); [by eexists|]. destruct (Hs d x eq_refl Hx) as [Hx0 Hx1]. unfold MaxInt64 in Hmax.
  rewrite i64_small by (unfold is_i64; lia). assert (0 <= inject_Z w)%Q by (rewrite <-(Zle_Qle 0); lia).
  assert (0 <= ld_val (ld_MulInt64 x w) <= inject_Z w)%Q as [Hlo Hhi] by (rewrite ld_mul_int64; split; nra).
  unfold TruncateInt64. rewrite ld_trunc by done. apply Qfloor_resp_le in Hhi. rewrite Qfloor_Z in Hhi.
  assert (0 <= Qfloor (ld_val (ld_MulInt64 x w))) by (rewrite <-(Qfloor_Z 0); by apply Qfloor_resp_le).
  destruct (Z.leb_spec (- 2 ^ 63) (Qfloor (ld_val (ld_MulInt64 x w)))); [|lia]. destruct (Z.ltb_spec (Qfloor (ld_val (ld_MulInt64 x w))) (2 ^ 63)); [|lia].
  by eexists.
Qed.

Lemma ofold_done {A S} (f : S -> A -> outcome fault S) l : (forall a s, a ∈ l -> exists s', f s a = Ok s') -> forall s, exists s', ofold f s l = Ok s'.
Proof.
  intros Hf. induction l as [|a l IH]; intros s; cbn [ofold]; [by eexists|]. destruct (Hf a s ltac:(by left)) as [s1 ->]. apply IH. intros b s' Hb. apply Hf. by right.
Qed.

Lemma penalties_done ws penalties : nonneg ws -> (forall p, Some p ∈ penalties -> share_typed (dp_PenaltyFraction p)) ->
  exists ws', applyDelegationRewardPenalties ws penalties = Ok ws'.
Proof.
  intros Hn Hs. apply ofold_done. intros [p|] ws1 Hin; cbn [apply_penalty]; [|by eexists]. case_bool_decide; [by eexists|].
  destruct (ws1 !! dp_Participant p); [|by eexists]. destruct (share_done _ (zget 0 (dp_Participant p) ws) (Hs p Hin) (Hn _)) as [n ->]. by eexists.
Qed.
Lemma transfers_done ws transfers : nonneg ws -> (forall t, Some t ∈ transfers -> share_typed (dt_Share t)) ->
  exists ws', applyDelegationRewardTransfers ws transfers = Ok ws'.
Proof.
  intros Hn Hs. apply ofold_done. intros [t|] ws1 Hin; cbn [apply_transfer]; [|by eexists]. case_bool_decide; [by eexists|].
  destruct (ws1 !! dt_From t); [|by eexists]. destruct (share_done _ (zget 0 (dt_From t) ws) (Hs t Hin) (Hn _)) as [n ->]. cbn [obind].
  case_match; by eexists.
Qed.
Lemma downtime_done ps p0 ws : Forall stats_typed ps -> exists ws', CheckAndPunishForDowntimeForParticipants ps ws p0 = Ok ws'.
Proof.
  intros Hs. apply ofold_done. intros p ws1 Hp. rewrite Forall_forall in Hs. destruct (Hs p Hp) as (s & Hst & _).
  unfold CheckAndPunishForDowntimeForParticipant. rewrite Hst. by eexists.
Qed.

Lemma saturating_mono a b c d : 0 <= a <= c -> 0 <= b <= d -> c <= MaxUint64 -> d <= MaxUint64 ->
  0 <= addUint64Saturating a b <= addUint64Saturating c d /\ addUint64Saturating c d <= MaxUint64 /\ a <= addUint64Saturating a b /\ b <= addUint64Saturating a b.
Proof.
  assert (forall x y, 0 <= x -> 0 <= y -> addUint64Saturating x y = Z.min (x + y) MaxUint64) as Hmin.
  { intros x y Hx Hy. unfold addUint64Saturating, Add64. destruct (Z.eqb_spec ((x + y) / 2 ^ 64) 0) as [Hc|Hc].
    - apply Z.div_small_iff in Hc; [|lia]. rewrite u64_small by (unfold is_u64; lia). unfold MaxUint64. lia.
    - assert (2 ^ 64 <= x + y); [|unfold MaxUint64; lia]. destruct (Z.le_gt_cases (2 ^ 64) (x + y)); [done|]. destruct Hc. apply Z.div_small. lia. }
  intros. rewrite !Hmin by lia. lia.
Qed.

Lemma dynamic_done ps p0 : Forall stats_typed ps -> exists r, getDynamicP0 ps p0 = Ok r.
Proof.
  intros Hs. unfold getDynamicP0. destruct (governance_p0 p0); [by eexists|].
  assert (forall acc, 0 <= acc.1.2 <= acc.1.1 -> acc.1.1 <= MaxUint64 ->
    let acc' := fold_left count_requests ps acc in 0 <= acc'.1.2 <= acc'.1.1 /\ acc'.1.1 <= MaxUint64) as Hcount.
  { induction Hs as [|p ps (s & Hst & Hi & Hm) Hs IH]; intros [[total missed] used] Hacc Hmax; [done|]. cbn [fold_left]. apply IH.
    all: unfold count_requests; rewrite Hst; unfold is_u64, MaxUint64 in *; cbn [fst snd] in *.
    all: destruct (saturating_mono (ce_InferenceCount s) (ce_MissedRequests s) (ce_InferenceCount s) (ce_MissedRequests s)) as (_ & Ht1 & _ & Ht2); unfold MaxUint64 in *; try lia.
    all: destruct (_ =? 0); cbn [fst snd]; try lia.
    all: destruct (saturating_mono missed (ce_MissedRequests s) total (addUint64Saturating (ce_InferenceCount s) (ce_MissedRequests s))) as (Ht3 & Ht4 & _); unfold MaxUint64 in *; lia. }
  specialize (Hcount (0, 0, 0)). destruct (fold_left count_requests ps (0, 0, 0)) as [[total missed] used]. cbn in Hcount.
  destruct (_ || _) eqn:E; [by eexists|]. apply orb_false_iff in E as [Ht%Z.ltb_ge _]. unfold dynamicP0MinTotalRequests in Ht.
  unfold Mul64, Div64. destruct Hcount as [Hm Hmax]; [done|done|]. unfold MaxUint64 in *.
  assert (missed * 1000 / 2 ^ 64 < total) by (apply Z.div_lt_upper_bound; lia).
  destruct (Z.leb_spec total (missed * 1000 / 2 ^ 64)); [lia|]. by eexists.
Qed.
End Total.

(* ------------------------------------------------------------------ *)
(** ** The reward of an epoch, divided *)

Section Divided.
Context `{!DecimalLib} `{!LegacyDecLib} `{!LegacyDecLaws} `{!LegacyDecParse}.
Implicit Types (participants : list Participant) (data : EpochGroupData) (params : BitcoinRewardParams).

Definition fixed_reward data params : Z :=
  default 0 (CalculateFixedEpochReward (u64 (eg_EpochIndex data - br_GenesisEpoch params)) (br_InitialEpochReward params) (br_DecayRate params)).
Definition full_total participants data : Z := lsum (fun p => full_of data (pp_Address p)) participants.

(** Participants and parameters as the chain stores them. *)
Record inputs_ok participants data (nodes : NodesOf) (transfers : list (option DelegationRewardTransfer))
    (penalties : list (option DelegationRewardPenalty)) : Prop := {
  io_some : participants <> [];
  io_distinct : NoDup (pp_Address <$> participants);
  io_stats : Forall stats_typed participants;
  io_balance : Forall balance_typed participants;
  io_weights : weights_typed data;
  io_total : full_total participants data < 2 ^ 64;
  io_confirmed : forall p, p ∈ participants -> exists n,
    ConfirmationWeightOfModelNodesWithCoefficients (zget ∅ (pp_Address p) nodes) (confirmationCoefficients (eg_ConfirmationWeightScales data)) = Ok n;
  io_transfers : forall t, Some t ∈ transfers -> share_typed (dt_Share t);
  io_penalties : forall p, Some p ∈ penalties -> share_typed (dp_PenaltyFraction p)
}.

(** How [R] is divided: every participant gets its weight's share of [R] in the full
    weight of all, less its debt, and governance the rest. *)
Record divided participants data (R : Z) (results : list SettleResult) (b : BitcoinResult) : Prop := {
  dv_results : exists ws full, nonneg ws /\ sum_of ws <= full_total participants data /\
    (forall p, p ∈ participants -> zget 0 (pp_Address p) full = full_of data (pp_Address p)) /\
    results = result_of ws full (full_total participants data) R <$> participants;
  dv_amount : bt_Amount b = R;
  dv_exact : lsum (fun r => sa_RewardCoins (sr_Settle r)) results + bt_GovernanceAmount b = R;
  dv_governance : 0 <= bt_GovernanceAmount b
}.

Lemma weigh_done data nodes coefficients ps :
  (forall p, p ∈ ps -> exists n, ConfirmationWeightOfModelNodesWithCoefficients (zget ∅ (pp_Address p) nodes) coefficients = Ok n) ->
  forall g, exists g', ofold (weigh_one data nodes coefficients) g ps = Ok g'.
Proof.
  intros Hc. apply ofold_done. intros p g Hp. unfold weigh_one. destruct (List.find _ _) as [vw|]; [|by eexists].
  destruct (_ <=? 0); [by eexists|]. destruct (negb _); [by eexists|]. destruct (Hc p Hp) as [n Hn]. unfold effective_weight. rewrite Hn. cbn [obind].
  destruct (eg_ConfirmationWeightScales data); by eexists.
Qed.

(** The weights after each stage of the calculation. *)
Record stages participants data (nodes : NodesOf) (transfers : list (option DelegationRewardTransfer))
    (penalties : list (option DelegationRewardPenalty)) (p0 : option Decimal) (g : Weighing) (r : Decimal * bool)
    (ws1 ws2 ws3 : Weights) : Prop := {
  sg_weighed : ofold (weigh_one data nodes (confirmationCoefficients (eg_ConfirmationWeightScales data))) (MkWeighing ∅ ∅ []) participants = Ok g;
  sg_rate : getDynamicP0 participants p0 = Ok r;
  sg_downtime : let weights := map_back (wg_weights g) (ApplyPowerCappingForWeights (wg_effective g)).1 in
    (if r.2 then Ok weights else CheckAndPunishForDowntimeForParticipants participants weights r.1) = Ok ws1;
  sg_penalties : applyDelegationRewardPenalties ws1 penalties = Ok ws2;
  sg_transfers : applyDelegationRewardTransfers ws2 transfers = Ok ws3;
  sg_below1 : below ws1 (wg_full g);
  sg_below2 : below ws2 (wg_full g)
}.

(** The weights that count: not negative, and together at most the full weight. *)
Lemma final_weights participants data nodes transfers penalties p0 :
  inputs_ok participants data nodes transfers penalties -> exists g r ws1 ws2 ws3,
  stages participants data nodes transfers penalties p0 g r ws1 ws2 ws3 /\ nonneg ws3 /\ sum_of ws3 <= full_total participants data /\ total_weight (wg_full g) = full_total participants data /\
  (forall p, p ∈ participants -> zget 0 (pp_Address p) (wg_full g) = full_of data (pp_Address p)).
Proof.
  intros [_ Hnd Hst _ Hw Ht Hc Htr Hpe].
  destruct (weigh_done data nodes (confirmationCoefficients (eg_ConfirmationWeightScales data)) participants Hc (MkWeighing ∅ ∅ [])) as [g Hg].
  destruct (dynamic_done participants p0 Hst) as [r Hr].
  pose proof (weigh_spec data Hw _ _ _ _ _ _ (weighed_empty data) Hg) as Hwd. cbn [app] in Hwd.
  pose proof (map_back_below data Hw _ _ Hwd) as Hb. set (weights := map_back _ _) in *.
  assert (exists ws1, (if r.2 then Ok weights else CheckAndPunishForDowntimeForParticipants participants weights r.1) = Ok ws1 /\ below ws1 (wg_full g)) as (ws1 & Hws1 & Hb1).
  { destruct r.2; [by exists weights|]. destruct (downtime_done participants r.1 weights Hst) as [ws1 Hws1]. exists ws1. split; [done|]. by eapply downtime_below. }
  destruct Hwd as [_ Hf Hsum _]. specialize (Hsum Hnd). rewrite lsum_fmap in Hsum. fold (full_total participants data) in Hsum.
  destruct (penalties_done ws1 penalties (below_nonneg _ _ Hb1) Hpe) as [ws2 Hws2].
  assert (below ws2 (wg_full g)) as Hb2.
  { eapply penalties_below; [exact Hb1| |exact Hws2]. intros a. rewrite Hf. pose proof (full_range data a Hw). case_bool_decide; lia. }
  destruct (transfers_done ws2 transfers (below_nonneg _ _ Hb2) Htr) as [ws3 Hws3]. pose proof (below_sum _ _ Hb2) as Hs2. rewrite Hsum in Hs2.
  destruct (transfers_sum ws2 transfers ws3 (below_nonneg _ _ Hb2) ltac:(lia) Hws3) as [Hn3 Hs3].
  exists g, r, ws1, ws2, ws3. split; [by split|]. split; [done|]. split; [lia|]. split.
  - unfold total_weight. rewrite Hsum. apply u64_small. split; [|done]. apply lsum_nonneg. intros p _. apply (full_range data (pp_Address p) Hw).
  - intros p Hp. rewrite Hf, bool_decide_eq_true_2; [done|]. by apply list_elem_of_fmap_2.
Qed.

Lemma rewards_stages participants data params p0 nodes transfers penalties :
  let R := fixed_reward data params in
  inputs_ok participants data nodes transfers penalties -> 0 <= R < 2 ^ 63 ->
  exists g r ws1 ws2 ws3 b, stages participants data nodes transfers penalties p0 g r ws1 ws2 ws3 /\
    let results := result_of ws3 (wg_full g) (full_total participants data) R <$> participants in
    CalculateParticipantBitcoinRewardsWithTransfers participants data params p0 nodes transfers penalties = Ok (results, b) /\
    divided participants data R results b.
Proof.
  intros R Hin HR. destruct (final_weights _ _ _ _ _ p0 Hin) as (g & [p0' skip] & ws1 & ws2 & ws3 & Hst & Hn & Hs & Htot & Hf).
  pose proof Hst as [Hg Hd Hw1 Hw2 Hw3 _ _].
  pose proof Hin as [Hne Hnd _ Hbal _ Ht _ _ _]. unfold CalculateParticipantBitcoinRewardsWithTransfers.
  rewrite bool_decide_eq_false_2 by done. cbn [negb ocheck obind]. rewrite Hg. cbn [obind]. rewrite Hd. cbn [obind].
  cbv zeta in Hw1. cbn [fst snd] in Hw1. destruct (ApplyPowerCappingForWeights (wg_effective g)) as [capped was]. cbn [fst] in Hw1.
  rewrite Hw1. cbn [obind]. rewrite Hw2. cbn [obind]. rewrite Hw3. cbn [obind]. fold (fixed_reward data params). fold R. rewrite Htot.
  set (T := full_total participants data) in *. assert (sum_of ws3 <= T < 2 ^ 64) as HT by lia.
  pose proof (gross_sum ws3 T R Hn HT HR participants Hnd) as Hgs.
  rewrite settle_fold by (done || lia). cbn [app]. rewrite Z.add_0_l.
  assert (0 <= lsum (reward_of ws3 T R) participants <= R) as Hsum.
  { split; [apply lsum_nonneg; intros q _; by apply (reward_le ws3 T R)|]. etransitivity; [|exact Hgs]. apply lsum_le. intros q _. by apply (reward_le ws3 T R). }
  destruct (Z.ltb_spec R (lsum (reward_of ws3 T R) participants)); [lia|]. rewrite (u64_small (R - _)) by (unfold is_u64; lia).
  unfold MaxInt64. destruct (Z.ltb_spec 9223372036854775807 (R - lsum (reward_of ws3 T R) participants)); [lia|].
  rewrite !i64_small by (unfold is_i64; lia). exists g, (p0', skip), ws1, ws2, ws3. eexists. split; [done|]. split; [done|]. split; cbn [bt_Amount bt_GovernanceAmount]; [|done| |lia].
  - exists ws3, (wg_full g). repeat (split; [done|]). done.
  - rewrite lsum_fmap. change (fun a => sa_RewardCoins (sr_Settle (result_of ws3 (wg_full g) T R a))) with (reward_of ws3 T R). lia.
Qed.

Lemma rewards_split participants data params p0 nodes transfers penalties :
  let R := fixed_reward data params in
  inputs_ok participants data nodes transfers penalties -> 0 <= R < 2 ^ 63 ->
  exists results b, CalculateParticipantBitcoinRewardsWithTransfers participants data params p0 nodes transfers penalties = Ok (results, b) /\
    divided participants data R results b.
Proof.
  intros R Hin HR. destruct (rewards_stages participants data params p0 nodes transfers penalties Hin HR) as (g & r & ws1 & ws2 & ws3 & b & _ & Hrun & Hdiv).
  by do 2 eexists.
Qed.
End Divided.

(* ------------------------------------------------------------------ *)
(** ** The limit of the supply *)

Section Supply.
Context `{!DecimalLib} `{!DecimalLaws} `{!LegacyDecLib} `{!LegacyDecLaws} `{!LegacyDecParse}.
Abbreviation rewards := (lsum (fun r => sa_RewardCoins (sr_Settle r))).
Implicit Types (r : SettleResult).

(** A reward scaled down from [O] to [A]. *)
Definition reduced (O A : Z) r : SettleResult := if sr_Error r then r else sr_set_reward (sa_RewardCoins (sr_Settle r) * A / O) r.
Definition unpaid_error r : Prop := 0 <= sa_RewardCoins (sr_Settle r) /\ (sr_Error r = true -> sa_RewardCoins (sr_Settle r) = 0).

Section Reduce.
Context (O A : Z) (HO : 0 < O < 10 ^ 16) (HA : 0 <= A <= O).

Lemma reduced_range r : unpaid_error r -> 0 <= sa_RewardCoins (sr_Settle (reduced O A r)) /\
  O * sa_RewardCoins (sr_Settle (reduced O A r)) <= A * sa_RewardCoins (sr_Settle r).
Proof.
  intros [Hn He]. unfold reduced. destruct (sr_Error r); [rewrite He by done; lia|]. cbn.
  split; [apply Z.div_pos; nia|]. rewrite (Z.mul_comm A). by apply Z.mul_div_le; lia.
Qed.

Lemma reduced_sum rs : Forall unpaid_error rs -> 0 <= rewards (reduced O A <$> rs) /\ O * rewards (reduced O A <$> rs) <= A * rewards rs.
Proof.
  induction 1 as [|r rs Hr _ IH]; [cbn; lia|]. rewrite fmap_cons, !lsum_cons. destruct (reduced_range r Hr). lia.
Qed.

Lemma reduce_one_spec results t r : unpaid_error r -> sa_RewardCoins (sr_Settle r) <= O -> 0 <= t -> t + A < 2 ^ 64 ->
  reduce_one O A (results, t) r = (results ++ [reduced O A r], t + sa_RewardCoins (sr_Settle (reduced O A r))).
Proof.
  intros Hr Hle Ht Hlt. destruct (reduced_range r Hr) as [H1' H2']. destruct Hr as [Hn He]. unfold reduce_one, reduced in *. destruct (sr_Error r).
  { rewrite He by done. by rewrite Z.add_0_r. }
  cbn [sr_Settle sr_set_reward sa_RewardCoins sa_set_reward] in *.
  assert (sa_RewardCoins (sr_Settle r) * A / O <= A) by (apply Z.div_le_upper_bound; nia).
  rewrite (div_int _ _ (sa_RewardCoins (sr_Settle r) * A) O); [| nia | lia | lia | |].
  - rewrite !u64_small by (unfold is_u64; lia). done.
  - rewrite dec_val_Mul, !val_int, inject_Z_mult. reflexivity.
  - rewrite val_int. unfold Qeq, inject_Z. cbn. lia.
Qed.

Lemma reduce_fold rs : forall results t, Forall unpaid_error rs -> 0 <= t -> t + A + rewards (reduced O A <$> rs) < 2 ^ 64 ->
  Forall (fun r => sa_RewardCoins (sr_Settle r) <= O) rs ->
  fold_left (reduce_one O A) rs (results, t) = (results ++ (reduced O A <$> rs), t + rewards (reduced O A <$> rs)).
Proof.
  induction rs as [|r rs IH]; intros results t Hr Ht Hlt Hle; cbn [fold_left]; [rewrite app_nil_r; f_equal; cbn; lia|].
  apply Forall_cons in Hr as [Hr Hrs]. apply Forall_cons in Hle as [Hle Hles]. rewrite fmap_cons, lsum_cons in *.
  destruct (reduced_range r Hr) as [Hr1 Hr2]. destruct (reduced_sum rs Hrs) as [Hs _].
  rewrite reduce_one_spec by (done || lia). rewrite IH by (done || lia). rewrite <-app_assoc. f_equal. lia.
Qed.
End Reduce.

Lemma divided_results participants data R results b :
  divided participants data R results b -> Forall unpaid_error results /\ rewards results <= R /\ 0 <= rewards results.
Proof.
  intros [(ws & full & _ & _ & _ & ->) _ Hex Hg].
  assert (Forall unpaid_error (result_of ws full (full_total participants data) R <$> participants)) as Hf.
  { apply Forall_fmap, Forall_true. intros p. unfold unpaid_error, result_of, reward_of. cbn. split; [lia|]. intros Hlt%Z.ltb_lt. lia. }
  split; [done|]. split; [lia|]. apply lsum_nonneg. intros r Hr. rewrite Forall_forall in Hf. apply (Hf r Hr).
Qed.

(** What is paid out of a minted amount when the supply has a limit. *)
Record supplied (paid supply R : Z) (rs0 : list SettleResult) (b0 : BitcoinResult) (rs : list SettleResult) (b : BitcoinResult) : Prop := {
  su_minted : bt_Amount b = Z.min R (Z.max 0 (supply - paid));
  su_limit : supply <= paid -> rs = sr_set_reward 0 <$> rs0 /\ rewards rs = 0 /\ bt_GovernanceAmount b = 0;
  su_near : paid < supply < paid + R -> rs = reduced R (supply - paid) <$> rs0 /\
    rewards rs <= bt_Amount b /\ rewards rs + bt_GovernanceAmount b = bt_Amount b + bt_GovernanceAmount b0;
  su_under : paid + R <= supply -> paid < supply -> rs = rs0 /\ b = b0
}.

(** The calculation goes through, with the limit of the supply. *)
Lemma supply_split participants data params p0 settle nodes transfers penalties :
  let R := fixed_reward data params in
  let paid := sp_TotalSubsidyPaid settle in let supply := sp_TotalSubsidySupply settle in
  inputs_ok participants data nodes transfers penalties -> 0 <= R < 10 ^ 16 -> 0 <= paid < 2 ^ 62 -> 0 <= supply < 2 ^ 63 ->
  exists rs0 b0 rs b, divided participants data R rs0 b0 /\
    GetBitcoinSettleAmountsWithTransfers participants data params p0 settle nodes transfers penalties = Ok (rs, b) /\
    supplied paid supply R rs0 b0 rs b.
Proof.
  intros R paid supply Hin HR Hpaid Hsup. destruct (rewards_split participants data params p0 nodes transfers penalties Hin) as (rs0 & b0 & Hrun & Hdiv); [fold R; lia|].
  fold R in Hdiv. exists rs0, b0. destruct (divided_results _ _ _ _ _ Hdiv) as (Hf & Hle & Hnn). pose proof (dv_amount _ _ _ _ _ Hdiv) as Ham.
  pose proof (dv_governance _ _ _ _ _ Hdiv) as Hg0. pose proof (dv_exact _ _ _ _ _ Hdiv) as Hex.
  unfold GetBitcoinSettleAmountsWithTransfers. rewrite Hrun. cbn [obind]. fold paid supply. rewrite Ham.
  destruct (Z.leb_spec supply paid) as [Hc|Hc].
  { do 2 eexists. split; [done|]. split; [done|]. split; cbn; try lia. intros _. split; [done|]. split; [|done]. rewrite lsum_fmap. apply lsum_zero. }
  rewrite i64_small by (unfold is_i64; lia). destruct (Z.ltb_spec supply (paid + R)) as [Hn|Hn].
  2: { exists rs0, b0. split; [done|]. split; [done|]. split; lia || done. }
  destruct (Z.ltb_spec 0 R); [|lia]. rewrite i64_small by (unfold is_i64; lia). rewrite (u64_small (supply - paid)) by (unfold is_u64; lia).
  assert (0 < R < 10 ^ 16) as HR' by lia. assert (0 <= supply - paid <= R) as HA by lia. set (A := supply - paid) in *.
  destruct (reduced_sum R A HR' HA rs0 Hf) as [Hs1 Hs2]. assert (rewards (reduced R A <$> rs0) <= A) as Hs3 by nia.
  assert (Forall (fun r => sa_RewardCoins (sr_Settle r) <= R) rs0) as Hle0.
  { apply Forall_forall. intros r Hr. etransitivity; [|exact Hle]. apply elem_of_Permutation in Hr as [l Hl]. rewrite Hl in Hf |- *. rewrite lsum_cons.
    apply Forall_cons in Hf as [_ Hf]. assert (0 <= rewards l); [|lia]. apply lsum_nonneg. intros q Hq. rewrite Forall_forall in Hf. apply (Hf q Hq). }
  rewrite (reduce_fold R A HR' HA) by (done || lia). cbn [app]. rewrite Z.add_0_l. destruct (Z.ltb_spec A (rewards (reduced R A <$> rs0))); [lia|].
  rewrite (u64_small (A - _)) by (unfold is_u64; lia). do 2 eexists. split; [done|]. split; [done|]. split; cbn [bt_Amount bt_GovernanceAmount]; try lia.
  intros _. split; [done|]. split; [done|]. unfold saturatingAddUint64Max, MaxInt64. destruct (Z.eqb_spec (bt_GovernanceAmount b0) 9223372036854775807); [lia|].
  rewrite (i64_small (_ - bt_GovernanceAmount b0)), (u64_small (_ - bt_GovernanceAmount b0)) by (unfold is_i64, is_u64; lia).
  destruct (Z.leb_spec (9223372036854775807 - bt_GovernanceAmount b0) (A - rewards (reduced R A <$> rs0))); [lia|].
  rewrite !i64_small by (unfold is_i64; rewrite ?i64_small by (unfold is_i64; lia); lia). lia.
Qed.

(** C26: The supply limit holds for what is minted, but not for what is paid.  Never more
    than the rest of the supply is minted, and nothing is paid once it is used up.  In the
    epoch that reaches the limit the rewards are scaled down, but governance gets its part
    of the full reward on top of what is left of the minted amount: more is paid out than
    minted, by exactly that part. *)
Theorem rewards_at_supply_limit participants data params p0 settle nodes transfers penalties :
  let R := fixed_reward data params in
  let paid := sp_TotalSubsidyPaid settle in let supply := sp_TotalSubsidySupply settle in
  inputs_ok participants data nodes transfers penalties -> 0 <= R < 10 ^ 16 -> 0 <= paid < 2 ^ 62 -> 0 <= supply < 2 ^ 63 ->
  exists rs0 b0 rs b, divided participants data R rs0 b0 /\
    GetBitcoinSettleAmountsWithTransfers participants data params p0 settle nodes transfers penalties = Ok (rs, b) /\
    supplied paid supply R rs0 b0 rs b.
Proof. apply supply_split. Qed.
End Supply.

(* ------------------------------------------------------------------ *)
(** ** The decay *)

Section Decay.
Context `{!DecimalLib} `{!DecimalLaws}.

(** The decay of one epoch under the default rate. *)
Definition decay : Q := 9995251127946402 # (10 ^ 16).
Definition default_rate : Decimal := MkDecimal (-475) (-6).
Definition reward_at (initial e : Z) : Z := default 0 (CalculateFixedEpochReward e initial (Some default_rate)).

Lemma decay_succ n : (decay ^ Z.of_nat (S n) == decay ^ Z.of_nat n * decay)%Q.
Proof. rewrite Nat2Z.inj_succ. unfold Z.succ. rewrite Qpower_plus' by lia. reflexivity. Qed.
Lemma decay_range n : (0 <= decay ^ Z.of_nat n <= 1)%Q.
Proof.
  induction n as [|n IH]; [by vm_compute|]. rewrite decay_succ. assert (0 <= decay <= 1)%Q by (by vm_compute). split; nra.
Qed.

(** The reward of epoch [n] is the initial one, decayed and rounded down. *)
Lemma reward_at_floor initial n : (0 <= initial < 2 ^ 63)%Z -> (Z.of_nat n < 2 ^ 31 - 1)%Z ->
  reward_at initial (Z.of_nat n) = Qfloor (inject_Z initial * decay ^ Z.of_nat n).
Proof.
  intros Hi Hn. unfold reward_at, CalculateFixedEpochReward. destruct (Z.eqb_spec initial 0) as [->|]; [cbn [from_option id]; rewrite (Qfloor_comp _ 0); [done|apply Qmult_0_l]|].
  destruct (Z.eqb_spec (Z.of_nat n) 0) as [Hz|]; [rewrite Hz; cbn [from_option id]; rewrite (Qfloor_comp _ (inject_Z initial)); [by rewrite Qfloor_Z|apply Qmult_1_r]|].
  assert (GetExponent (ToDecimal default_rate) = Some (dec_New 9995251127946402 (-16))) as ->.
  { unfold GetExponent, decayRates, ToDecimal, default_rate. cbn [List.find dc_Value dc_Exponent fst]. unfold dec_Equal. rewrite dec_Cmp_spec.
    assert (forall q, (q ?= q)%Q = Eq) as -> by (intros q; by apply Qeq_alt). done. }
  cbn [mbind option_bind]. destruct (Z.leb_spec (2 ^ 31 - 1) (Z.of_nat n)); [lia|].
  destruct (dec_val_PowInt32 (dec_New 9995251127946402 (-16)) (Z.of_nat n) ltac:(lia)) as (y & -> & Hy). cbn [mbind option_bind from_option id].
  assert (dec_val (dec_Mul (NewFromInt initial) y) == inject_Z initial * decay ^ Z.of_nat n)%Q as Hv.
  { rewrite dec_val_Mul, val_int, Hy, dec_val_New. reflexivity. }
  pose proof (decay_range n) as Hd. assert (0 <= inject_Z initial)%Q by (rewrite <-(Zle_Qle 0); lia).
  assert (0 <= inject_Z initial * decay ^ Z.of_nat n <= inject_Z initial)%Q as [Hlo Hhi] by (split; nra).
  pose proof (Qfloor_resp_le _ _ Hhi) as Hf. rewrite Qfloor_Z in Hf. pose proof (Qfloor_resp_le _ _ Hlo) as Hf0. change (Qfloor 0) with 0%Z in Hf0.
  rewrite dec_IntPart_floor; rewrite ?Hv; [|done|lia]. destruct (Z.ltb_spec (Qfloor (inject_Z initial * decay ^ Z.of_nat n)) 0); [lia|].
  apply u64_small. unfold is_u64. lia.
Qed.

(** C27: The emission decays and is bounded.  Under the default decay rate and an initial
    reward below 2^63, over the first [n] epochs for any [n] below 2^31, no epoch mints
    more than the one before or than the initial reward, and all of them together mint at
    most 2106 times the initial reward. *)
Theorem emission_bounded initial n :
  (0 <= initial < 2 ^ 63)%Z -> (Z.of_nat n < 2 ^ 31)%Z ->
  (forall e, (S e < n)%nat -> reward_at initial (Z.of_nat (S e)) <= reward_at initial (Z.of_nat e) <= initial)%Z /\
  (lsum (fun e => reward_at initial (Z.of_nat e)) (seq 0 n) <= 2106 * initial)%Z.
Proof.
  intros Hi Hn. assert (0 <= inject_Z initial)%Q as Hq by (rewrite <-(Zle_Qle 0); lia). assert (0 <= decay <= 1)%Q as Hdec by (by vm_compute). split.
  - intros e He. rewrite !reward_at_floor by lia. pose proof (decay_range e) as Hd. split.
    + apply Qfloor_resp_le. rewrite decay_succ. assert (0 <= inject_Z initial * decay ^ Z.of_nat e)%Q by nra. nra.
    + rewrite <-(Qfloor_Z initial) at 2. apply Qfloor_resp_le. nra.
  - assert (forall m, (m <= n)%nat -> (1 - decay) * inject_Z (lsum (fun e => reward_at initial (Z.of_nat e)) (seq 0 m)) <= inject_Z initial * (1 - decay ^ Z.of_nat m))%Q as Hsum.
    { intros m. induction m as [|m IH]; intros Hm; [change (decay ^ Z.of_nat 0)%Q with 1%Q; change (inject_Z (lsum _ (seq 0 0))) with 0%Q; nra|]. rewrite seq_S, lsum_app, lsum_one, inject_Z_plus, decay_succ, reward_at_floor by lia.
      specialize (IH ltac:(lia)). pose proof (Qfloor_le (inject_Z initial * decay ^ Z.of_nat m)) as Hf. cbn [Nat.add].
      set (s := inject_Z (lsum _ _)) in *. set (x := inject_Z (Qfloor _)) in *. set (d := (decay ^ Z.of_nat m)%Q) in *. nra. }
    specialize (Hsum n ltac:(lia)). pose proof (decay_range n) as Hd. set (s := lsum _ _) in *.
    assert ((1 - decay) * inject_Z s <= inject_Z initial)%Q as Hle by nra. unfold decay in Hle. rewrite Zle_Qle, inject_Z_mult.
    assert (inject_Z 2106 * (1 - (9995251127946402 # 10 ^ 16)) >= 1)%Q by (by vm_compute). assert (0 < 1 - (9995251127946402 # 10 ^ 16))%Q by (by vm_compute).
    set (c := (1 - (9995251127946402 # 10 ^ 16))%Q) in *. assert (c * inject_Z s <= c * (inject_Z 2106 * inject_Z initial))%Q as Hc by nra.
    by apply Qmult_le_l in Hc.
Qed.
End Decay.
