(* ===== verification/RewardsWeights.v ===== *)
(** * The weights that divide the reward of an epoch

    A reference for the calculation of inference-chain/x/inference/keeper/bitcoin_rewards.go,
    on unbounded integers and functions of addresses, stage by stage: what a participant's
    weight is worth after confirmation, the largest cap that is fair, who lost its weight
    by missing requests, what penalties take, and where delegations move it.  The theorem
    says that the code pays by exactly these weights. *)

From Stdlib Require Import QArith Qround Lqa.
From stdpp Require Import sorting.
From S2P Require Import Prelude.
From S2P Require Import GoStd.
From S2P Require Import ChainStore.
From S2P Require Import ChainDecimal.
From S2P Require Import ChainStats.
From S2P Require Import ChainState.
From S2P Require Import PowerCap.
From S2P Require Import ChainCoins.
From S2P Require Import Rewards.
From S2P Require Import RewardsSpec.
Open Scope Z_scope.
Open Scope go_scope.

(* ------------------------------------------------------------------ *)
(** ** The reference *)

Section Reference.
Context `{!DecimalLib} `{!LegacyDecLib} `{!LegacyDecLaws} `{!LegacyDecParse}.
Implicit Types (participants : list Participant) (data : EpochGroupData) (nodes : NodesOf) (W : string -> Z).

(** The factor of a model: that of its last entry. *)
Definition factor (scales : list (option ConfirmationWeightScale)) (model : string) : option LegacyDec :=
  (fun s => LegacyDecOrOne (ws_WeightScaleFactor s)) <$>
    last (filter (fun s => ws_ModelId s = model /\ model <> "") (omap id scales)).

(** The weight that the nodes of a participant have shown, all models together. *)
Definition nodes_weight (l : list (option MLNodeInfo)) : Z := lsum (from_option ml_PocWeight 0) l.
Definition shown_for (scales : list (option ConfirmationWeightScale)) (model : string) (l : list (option MLNodeInfo)) : Z :=
  match factor scales model with Some f => Qfloor (ld_val f * inject_Z (nodes_weight l)) | None => 0 end.
Definition shown scales (models : gmap string (list (option MLNodeInfo))) : Z := msum (shown_for scales) models.

(** The weight of a participant before the cap: all of it, or what was confirmed of it,
    as a part of what its nodes have shown; none when it is not active. *)
Definition confirmed_of data (addr : string) : Z :=
  match List.find (fun v => bool_decide (vw_MemberAddress v = addr)) (eg_ValidationWeights data) with
  | Some vw => Z.max 0 (vw_ConfirmationWeight vw)
  | None => 0
  end.
Definition standing data nodes (p : Participant) : Z :=
  let addr := pp_Address p in let full := full_of data addr in
  if negb (is_active p) then 0
  else match eg_ConfirmationWeightScales data with
  | [] => full
  | scales => let raw := shown scales (zget ∅ addr nodes) in
              if 0 <? raw then Z.min full (confirmed_of data addr * full / raw) else 0
  end.

(** The cap: the largest limit under which nobody has more than its share, if somebody
    has more without it. *)
Definition is_cap (weights : list Z) (cap : option Z) : Prop :=
  let ws := filter (fun w => 0 < w) weights in let n := Z.of_nat (length ws) in
  match cap with
  | Some limit => 2 <= n /\ optimal (tenths n) ws limit
  | None => 2 <= n -> forall w, w ∈ ws -> 10 * w <= tenths n * lsum id ws
  end.
Definition under (cap : option Z) (w : Z) : Z := match cap with Some limit => Z.min limit w | None => w end.

(** The rate of misses that is tested against, from all requests of the epoch, and whether
    nobody is punished because it is too high. *)
Definition requests (p : Participant) : Z := match pp_CurrentEpochStats p with Some s => ce_InferenceCount s + ce_MissedRequests s | None => 0 end.
Definition misses (p : Participant) : Z := match pp_CurrentEpochStats p with Some s => ce_MissedRequests s | None => 0 end.
Definition rate_of participants (binomTestP0 : option Decimal) : Decimal * bool :=
  match governance_p0 binomTestP0 with
  | inl p0 => (p0, false)
  | inr governance =>
      let total := lsum requests participants in
      let used := Z.of_nat (length (filter (fun p => requests p <> 0) participants)) in
      if bool_decide (total < 1000 \/ used < 5) then (permilleToP0Decimal governance, false)
      else let selected := ceilToSupportedP0Permille (Z.min 500 (lsum misses participants * 1000 / total + 20)) in
           (permilleToP0Decimal (Z.max governance selected), selected =? 500)
  end.
Definition down (rate : Decimal * bool) (p : Participant) : Prop :=
  rate.2 = false /\ requests p <> 0 /\ MissedStatTest (misses p) (requests p) (ToDecimal rate.1) = Some false.
#[export] Instance down_dec rate p : Decision (down rate p).
Proof. unfold down. apply _. Defined.

Definition capped_weight participants data nodes p0 (cap : option Z) (addr : string) : Z :=
  match List.find (fun p => bool_decide (pp_Address p = addr)) participants with
  | Some p => if bool_decide (down (rate_of participants p0) p) then 0 else under cap (standing data nodes p)
  | None => 0
  end.

(** The part [share] of a weight. *)
Definition part (share : option Decimal) (w : Z) : Z :=
  match d ← share; ToLegacyDec d with Some x => Qfloor (ld_val x * inject_Z w) | None => 0 end.

(** Every penalty takes its part of the weight before penalties, as far as it goes. *)
Definition fine_for W (addr : string) (penalty : option DelegationRewardPenalty) : Z :=
  match penalty with
  | Some p => if bool_decide (dp_Participant p = addr /\ addr <> "") then part (dp_PenaltyFraction p) (W addr) else 0
  | None => 0
  end.
Definition fined W (penalties : list (option DelegationRewardPenalty)) (addr : string) : Z :=
  Z.max 0 (W addr - lsum (fine_for W addr) penalties).

(** A delegation moves its part of the weight before delegations, as far as it goes, to
    a receiver that has weight; it is lost otherwise. *)
Definition update W (addr : string) (w : Z) : string -> Z := fun a => if bool_decide (a = addr) then w else W a.
Definition moved (base : string -> Z) W (transfer : option DelegationRewardTransfer) : string -> Z :=
  match transfer with
  | None => W
  | Some t =>
      if bool_decide (dt_From t = "") then W
      else let n := Z.min (W (dt_From t)) (part (dt_Share t) (base (dt_From t))) in
           let W1 := update W (dt_From t) (W (dt_From t) - n) in
           if bool_decide (dt_To t <> "" /\ 0 < W1 (dt_To t)) then update W1 (dt_To t) (W1 (dt_To t) + n) else W1
  end.
Definition delegated W (transfers : list (option DelegationRewardTransfer)) : string -> Z := fold_left (moved W) transfers W.

(** The weights that count. *)
Definition final_weight participants data nodes p0 transfers penalties (cap : option Z) : string -> Z :=
  delegated (fined (capped_weight participants data nodes p0 cap) penalties) transfers.

(** The result of a participant: the share of [R] that its weight has in the full weight
    of all, less its debt. *)
Definition share_result data W (T R : Z) (p : Participant) : SettleResult :=
  let addr := pp_Address p in
  let gross := if is_active p && (0 <? T) then W addr * R / T else 0 in
  MkSettleResult (MkSettleAmount addr (Z.max 0 (gross - debt p)) (work p) 0 "" 0) (gross <? debt p) (W addr) (full_of data addr) T.

(** Participants and parameters in the ranges of their types, with sums that stay within
    64 bits. *)
Record inputs_typed participants data nodes (transfers : list (option DelegationRewardTransfer))
    (penalties : list (option DelegationRewardPenalty)) : Prop := {
  it_some : participants <> [];
  it_distinct : NoDup (pp_Address <$> participants);
  it_stats : Forall stats_typed participants;
  it_requests : lsum requests participants < 2 ^ 63;
  it_balance : Forall balance_typed participants;
  it_weights : weights_typed data;
  it_total : full_total participants data < 2 ^ 64;
  it_powers : forall p, p ∈ participants -> full_of data (pp_Address p) * Z.of_nat (length participants) < 2 ^ 63;
  it_confirmed : forall p, p ∈ participants -> confirmed_of data (pp_Address p) * full_of data (pp_Address p) < 2 ^ 63;
  it_factors : forall s, Some s ∈ eg_ConfirmationWeightScales data -> (0 <= ld_val (LegacyDecOrOne (ws_WeightScaleFactor s)))%Q;
  it_nodes : forall p model l n, p ∈ participants -> zget ∅ (pp_Address p) nodes !! model = Some l -> Some n ∈ l -> 0 <= ml_PocWeight n;
  it_nodes_sum : forall p model l, p ∈ participants -> zget ∅ (pp_Address p) nodes !! model = Some l -> nodes_weight l < 2 ^ 63;
  it_shown : forall p, p ∈ participants -> shown (eg_ConfirmationWeightScales data) (zget ∅ (pp_Address p) nodes) < 2 ^ 63;
  it_transfers : forall t, Some t ∈ transfers -> share_typed (dt_Share t);
  it_penalties : forall p, Some p ∈ penalties -> share_typed (dp_PenaltyFraction p)
}.
End Reference.

(* ------------------------------------------------------------------ *)
(** ** Confirmation *)

Section Confirmation.
Context `{!DecimalLib} `{!LegacyDecLib} `{!LegacyDecLaws} `{!LegacyDecParse}.
Implicit Types (scales : list (option ConfirmationWeightScale)).

Lemma coefficient_factor scales model : confirmationCoefficients scales !! model = factor scales model.
Proof.
  unfold confirmationCoefficients, factor. induction scales as [|s scales IH] using rev_ind; [done|].
  rewrite fold_left_app, omap_app, filter_app. cbn [fold_left]. destruct s as [s|]; cbn [omap list_omap id]; [|by rewrite app_nil_r].
  rewrite filter_cons, filter_nil. case_bool_decide as He.
  - rewrite decide_False by (intros [<- ?]; done). by rewrite app_nil_r.
  - destruct (decide (ws_ModelId s = model)) as [<-|Hne].
    + rewrite lookup_insert_eq. rewrite decide_True by done. by rewrite last_snoc.
    + rewrite lookup_insert_ne by done. rewrite decide_False by tauto. by rewrite app_nil_r.
Qed.

Lemma factor_nonneg scales model f : (forall s, Some s ∈ scales -> 0 <= ld_val (LegacyDecOrOne (ws_WeightScaleFactor s)))%Q ->
  factor scales model = Some f -> (0 <= ld_val f)%Q.
Proof.
  intros Hs. unfold factor. intros (s & Hl & ->)%fmap_Some_1. apply Hs. apply last_Some_elem_of, list_elem_of_filter in Hl as [_ Hl].
  apply list_elem_of_omap in Hl as (o & Ho & Hid). cbn in Hid. by subst o.
Qed.

Lemma raw_weight_sum l : (forall n, Some n ∈ l -> 0 <= ml_PocWeight n) -> nodes_weight l < 2 ^ 63 -> raw_weight l = nodes_weight l.
Proof.
  unfold raw_weight, nodes_weight. intros Hn Hlt.
  assert (forall acc, 0 <= acc -> acc + lsum (from_option ml_PocWeight 0) l < 2 ^ 63 ->
    fold_left (fun raw node => match node with Some n => i64 (raw + ml_PocWeight n) | None => raw end) l acc = acc + lsum (from_option ml_PocWeight 0) l) as Hf.
  { clear Hlt. induction l as [|[n|] l IH]; intros acc Hacc Hlt; cbn [fold_left]; [cbn; lia| |].
    - rewrite lsum_cons in *. cbn [from_option] in *. pose proof (Hn n ltac:(by left)).
      assert (0 <= lsum (from_option ml_PocWeight 0) l) by (apply lsum_nonneg; intros [m|] Hm; cbn; [apply Hn; by right|lia]).
      rewrite i64_small by (unfold is_i64; lia). rewrite IH; [lia| |lia|lia]. intros m Hm. apply Hn. by right.
    - rewrite lsum_cons in *. cbn [from_option] in *. rewrite IH; [lia| |lia|lia]. intros m Hm. apply Hn. by right. }
  by rewrite Hf.
Qed.

(** A product that is truncated without leaving 64 bits. *)
Lemma truncated x n : (0 <= ld_val x)%Q -> 0 <= n -> Qfloor (ld_val x * inject_Z n) < 2 ^ 63 ->
  TruncateInt64 (ld_MulInt64 x n) = Ok (Qfloor (ld_val x * inject_Z n)) /\ 0 <= Qfloor (ld_val x * inject_Z n).
Proof.
  intros Hx Hn Hlt. assert (0 <= inject_Z n)%Q by (rewrite <-(Zle_Qle 0); lia).
  assert (0 <= ld_val x * inject_Z n)%Q as Hp by (by apply Qmult_le_0_compat). assert (0 <= ld_val (ld_MulInt64 x n))%Q as Hm by (by rewrite ld_mul_int64).
  assert (0 <= Qfloor (ld_val x * inject_Z n)) as Hf by (rewrite <-(Qfloor_Z 0); by apply Qfloor_resp_le). split; [|done].
  unfold TruncateInt64. rewrite ld_trunc by done. rewrite (Qfloor_comp _ _ (ld_mul_int64 x n)).
  destruct (Z.leb_spec (- 2 ^ 63) (Qfloor (ld_val x * inject_Z n))); [|lia]. by destruct (Z.ltb_spec (Qfloor (ld_val x * inject_Z n)) (2 ^ 63)); [|lia].
Qed.

Section Shown.
Context scales (models : gmap string (list (option MLNodeInfo))).
Hypothesis Hfac : forall s, Some s ∈ scales -> (0 <= ld_val (LegacyDecOrOne (ws_WeightScaleFactor s)))%Q.
Hypothesis Hnodes : forall model l n, models !! model = Some l -> Some n ∈ l -> 0 <= ml_PocWeight n.
Hypothesis Hsum : forall model l, models !! model = Some l -> nodes_weight l < 2 ^ 63.
Hypothesis Hshown : shown scales models < 2 ^ 63.

Lemma nodes_weight_nonneg model l : models !! model = Some l -> 0 <= nodes_weight l.
Proof. intros Hl. apply lsum_nonneg. intros [n|] Hn; cbn; [by eapply Hnodes|lia]. Qed.
Lemma shown_for_nonneg model l : models !! model = Some l -> 0 <= shown_for scales model l.
Proof.
  intros Hl. unfold shown_for. destruct (factor scales model) as [f|] eqn:Hf; [|lia]. rewrite <-(Qfloor_Z 0). apply Qfloor_resp_le.
  pose proof (factor_nonneg _ _ _ Hfac Hf). assert (0 <= inject_Z (nodes_weight l))%Q by (rewrite <-(Zle_Qle 0); by eapply nodes_weight_nonneg). by apply Qmult_le_0_compat.
Qed.

Lemma shown_fold ks : forall acc, NoDup ks -> (forall k, k ∈ ks -> is_Some (models !! k)) -> 0 <= acc -> acc + lsum (fun k => shown_for scales k (zget [] k models)) ks < 2 ^ 63 ->
    ofold (fun total modelID => match confirmationCoefficients scales !! modelID with
      | None => Ok total
      | Some coeff => let! n := TruncateInt64 (ld_MulInt64 coeff (raw_weight (zget [] modelID models))) in Ok (i64 (total + n)) end) acc ks =
    Ok (acc + lsum (fun k => shown_for scales k (zget [] k models)) ks).
Proof.
  induction ks as [|k ks IH]; intros acc Hnd Hin Hacc Hlt; cbn [ofold]; [f_equal; cbn; lia|]. rewrite lsum_cons in *. apply NoDup_cons in Hnd as [_ Hnd].
  destruct (Hin k ltac:(by left)) as [l Hl]. assert (zget [] k models = l) as Hz by (unfold zget; by rewrite Hl). rewrite Hz in *.
  pose proof (shown_for_nonneg k l Hl) as Hk.
  assert (0 <= lsum (fun k => shown_for scales k (zget [] k models)) ks) as Hks.
  { apply lsum_nonneg. intros k' Hk'. destruct (Hin k' ltac:(by right)) as [l' Hl']. unfold zget. rewrite Hl'. by apply shown_for_nonneg. }
  rewrite coefficient_factor.
  assert (shown_for scales k l = match factor scales k with Some f => Qfloor (ld_val f * inject_Z (nodes_weight l)) | None => 0 end) as Hdef by done.
  destruct (factor scales k) as [f|] eqn:Hf; cbn [obind].
  - rewrite raw_weight_sum by (by eauto). destruct (truncated f (nodes_weight l)) as [-> _]; [by eapply factor_nonneg|by eapply nodes_weight_nonneg|lia|].
    cbn [obind]. rewrite <-Hdef, i64_small by (unfold is_i64; lia). rewrite IH; [f_equal; lia|done|intros; apply Hin; by right|lia|lia].
  - rewrite IH; [f_equal; lia|done|intros; apply Hin; by right|lia|lia].
Qed.

Lemma shown_total : ConfirmationWeightOfModelNodesWithCoefficients models (confirmationCoefficients scales) = Ok (shown scales models) /\ 0 <= shown scales models.
Proof.
  assert (lsum (fun k => shown_for scales k (zget [] k models)) (elements (dom models)) = shown scales models) as Hms.
  { unfold shown. rewrite msum_map_to_list. rewrite (lsum_perm _ (elements (dom models)) ((map_to_list models).*1)).
    - rewrite lsum_fmap. apply lsum_ext. intros [k l] Hk%elem_of_map_to_list. cbn. unfold zget. by rewrite Hk.
    - apply NoDup_Permutation; [apply NoDup_elements|apply NoDup_fst_map_to_list|]. intros k. rewrite elem_of_elements, elem_of_dom, list_elem_of_fmap. split.
      + intros [l Hl]. exists (k, l). split; [done|by apply elem_of_map_to_list].
      + intros ([k' l] & -> & Hl%elem_of_map_to_list). by exists l. }
  split; [|apply msum_nonneg; apply shown_for_nonneg]. unfold ConfirmationWeightOfModelNodesWithCoefficients.
  pose proof (@merge_sort_Permutation _ model_order model_order_dec (elements (dom models))) as Hp. rewrite shown_fold; rewrite ?(lsum_perm _ _ _ Hp), ?Hms.
  - done.
  - rewrite Hp. apply NoDup_elements.
  - intros k. rewrite Hp, elem_of_elements. apply elem_of_dom.
  - lia.
  - lia.
Qed.
End Shown.
End Confirmation.

(* ------------------------------------------------------------------ *)
(** ** Weighing and the cap *)

Section Weighed.
Context `{!DecimalLib} `{!DecimalLaws} `{!LegacyDecLib} `{!LegacyDecLaws} `{!LegacyDecParse}.
Context (participants : list Participant) (data : EpochGroupData) (nodes : NodesOf)
  (transfers : list (option DelegationRewardTransfer)) (penalties : list (option DelegationRewardPenalty)).
Hypothesis Hin : inputs_typed participants data nodes transfers penalties.
Implicit Types (p : Participant).

Lemma confirmation_shown p : p ∈ participants ->
  ConfirmationWeightOfModelNodesWithCoefficients (zget ∅ (pp_Address p) nodes) (confirmationCoefficients (eg_ConfirmationWeightScales data)) =
    Ok (shown (eg_ConfirmationWeightScales data) (zget ∅ (pp_Address p) nodes)) /\
  0 <= shown (eg_ConfirmationWeightScales data) (zget ∅ (pp_Address p) nodes).
Proof.
  intros Hp. destruct Hin. apply shown_total; [done| | |by eauto].
  - intros model l n Hl Hn. by eapply it_nodes.
  - intros model l Hl. by eapply it_nodes_sum.
Qed.

Lemma typed_ok : inputs_ok participants data nodes transfers penalties.
Proof. pose proof Hin as []. split; try done. intros p Hp. destruct (confirmation_shown p Hp) as [-> _]. by eexists. Qed.

Lemma confirmed_nonneg addr : 0 <= confirmed_of data addr.
Proof. unfold confirmed_of. case_match; lia. Qed.

Lemma standing_range p : p ∈ participants -> 0 <= standing data nodes p <= full_of data (pp_Address p).
Proof.
  intros Hp. pose proof (full_range data (pp_Address p) (it_weights _ _ _ _ _ Hin)) as Hf. pose proof (confirmed_nonneg (pp_Address p)) as Hc. unfold standing.
  destruct (is_active p); cbn [negb]; [|lia]. destruct (eg_ConfirmationWeightScales data) as [|s scales]; [lia|].
  destruct (Z.ltb_spec 0 (shown (s :: scales) (zget ∅ (pp_Address p) nodes))); [|lia]. split; [|lia]. apply Z.min_glb; [lia|]. apply Z.div_pos; nia.
Qed.

Definition eligible p : bool := is_active p && (0 <? full_of data (pp_Address p)).
Lemma standing_eligible p : p ∈ participants -> ~ eligible p -> standing data nodes p = 0.
Proof.
  intros Hp Hn. unfold eligible in Hn. destruct (is_active p) eqn:Ha; [|by unfold standing; rewrite Ha].
  destruct (Z.ltb_spec 0 (full_of data (pp_Address p))); [by destruct Hn|]. pose proof (standing_range p Hp). lia.
Qed.

Lemma effective_standing p vw : p ∈ participants -> is_active p ->
  List.find (fun v => bool_decide (vw_MemberAddress v = pp_Address p)) (eg_ValidationWeights data) = Some vw -> 0 < vw_Weight vw ->
  effective_weight data (confirmationCoefficients (eg_ConfirmationWeightScales data)) (zget ∅ (pp_Address p) nodes) vw = Ok (standing data nodes p).
Proof.
  intros Hp Ha Hv Hw. destruct (confirmation_shown p Hp) as [Hc Hs]. pose proof (it_confirmed _ _ _ _ _ Hin p Hp) as Hsmall. pose proof (confirmed_nonneg (pp_Address p)) as Hcf.
  assert (full_of data (pp_Address p) = vw_Weight vw) as Hf by (unfold full_of; rewrite Hv; lia).
  assert (confirmed_of data (pp_Address p) = if vw_ConfirmationWeight vw <? 0 then 0 else vw_ConfirmationWeight vw) as Hcd.
  { unfold confirmed_of. rewrite Hv. destruct (Z.ltb_spec (vw_ConfirmationWeight vw) 0); lia. }
  unfold standing. rewrite Hf in *. destruct (is_active p); [|done]. cbn [negb]. unfold effective_weight.
  destruct (eg_ConfirmationWeightScales data) as [|s scales]; [done|]. rewrite Hc. cbn [obind]. f_equal. rewrite <-Hcd.
  set (raw := shown _ _) in *. destruct (Z.ltb_spec 0 raw); [|by destruct (Z.ltb_spec (vw_Weight vw) 0); [lia|]].
  assert (0 <= confirmed_of data (pp_Address p) * vw_Weight vw / raw < 2 ^ 63) as Hd.
  { split; [apply Z.div_pos; nia|]. apply Z.div_lt_upper_bound; nia. }
  rewrite i64_small by (unfold is_i64; lia). destruct (Z.ltb_spec (vw_Weight vw) (confirmed_of data (pp_Address p) * vw_Weight vw / raw)); lia.
Qed.

Lemma weigh_effective (ps : list Participant) g g' : (forall p, p ∈ ps -> p ∈ participants) ->
  ofold (weigh_one data nodes (confirmationCoefficients (eg_ConfirmationWeightScales data))) g ps = Ok g' ->
  wg_effective g' = wg_effective g ++ ((fun p => MkActive (pp_Address p) (standing data nodes p)) <$> filter eligible ps).
Proof.
  revert g. induction ps as [|p ps IH]; intros g Hps; cbn [ofold]; [intros [= <-]; by rewrite app_nil_r|].
  intros (g1 & Hg1 & Hl)%obind_Ok. rewrite (IH g1 ltac:(intros q Hq; apply Hps; by right) Hl). rewrite filter_cons. clear Hl IH.
  assert (p ∈ participants) as Hp by (apply Hps; by left). assert (eligible p = is_active p && (0 <? full_of data (pp_Address p))) as Hel by done.
  revert Hg1. unfold weigh_one. fold (is_active p). unfold full_of in Hel.
  destruct (List.find _ _) as [vw|] eqn:Hv; [|intros [= <-]; rewrite decide_False by (rewrite Hel, andb_false_r; intros []); done].
  destruct (Z.ltb_spec 0 (Z.max 0 (vw_Weight vw))); destruct (Z.leb_spec (vw_Weight vw) 0); try lia.
  2: { intros [= <-]. by rewrite decide_False by (rewrite Hel, andb_false_r; intros []). }
  rewrite andb_true_r in Hel. destruct (is_active p) eqn:Ha; cbn [negb]; [|intros [= <-]; by rewrite decide_False by (rewrite Hel; intros [])].
  rewrite (effective_standing p vw) by (done || by rewrite Ha). cbn [obind]. intros [= <-]. rewrite decide_True by (by rewrite Hel). cbn. by rewrite <-app_assoc.
Qed.

Lemma positive_standing (ps : list Participant) : (forall p, p ∈ ps -> p ∈ participants) ->
  filter (fun w => 0 < w) (standing data nodes <$> filter eligible ps) = filter (fun w => 0 < w) (standing data nodes <$> ps).
Proof.
  induction ps as [|p ps IH]; intros Hps; [done|]. rewrite fmap_cons, !(filter_cons _ _ _). case_decide as He.
  - rewrite fmap_cons, filter_cons, IH by (intros q Hq; apply Hps; by right). done.
  - rewrite standing_eligible by (done || (apply Hps; by left)). rewrite decide_False by lia. apply IH. intros q Hq. apply Hps. by right.
Qed.

Lemma capped_standing g :
  ofold (weigh_one data nodes (confirmationCoefficients (eg_ConfirmationWeightScales data))) (MkWeighing ∅ ∅ []) participants = Ok g ->
  exists cap, is_cap (standing data nodes <$> participants) cap /\
    (ApplyPowerCappingForWeights (wg_effective g)).1 = (fun p => MkActive (pp_Address p) (under cap (standing data nodes p))) <$> filter eligible participants.
Proof.
  intros Hg%weigh_effective; [|done]. cbn [wg_effective app] in Hg. set (l := wg_effective g) in *.
  assert (positive_weights l = filter (fun w => 0 < w) (standing data nodes <$> participants)) as Hpos.
  { unfold positive_weights. rewrite Hg, <-list_fmap_compose, <-(positive_standing participants) by done. done. }
  unfold is_cap. rewrite <-Hpos. destruct (Z.le_gt_cases 2 (Z.of_nat (length (positive_weights l)))) as [Hn|Hn].
  - pose proof (capping_spec l Hn) as Hcap. destruct (ApplyPowerCappingForWeights l) as [ps was].
    destruct Hcap as [Hsh Hcap].
    { rewrite Hpos. apply Forall_forall. intros w [Hw (p & -> & Hp)%list_elem_of_fmap]%list_elem_of_filter.
      pose proof (it_powers _ _ _ _ _ Hin p Hp). pose proof (standing_range p Hp).
      pose proof (length_filter (fun w => 0 < w) (standing data nodes <$> participants)) as Hlen. rewrite length_fmap in Hlen. nia. }
    destruct was.
    + destruct Hcap as (limit & -> & Hopt). exists (Some limit). split; [done|]. cbn [fst]. rewrite Hg, <-list_fmap_compose. apply list_fmap_ext.
      intros _ p _. cbn. unfold cut. cbn [ap_Weight]. destruct (Z.ltb_spec limit (standing data nodes p)); cbn; f_equal; lia.
    + rewrite Hcap in *. exists None. split; [|done]. intros _ w Hw. by apply Hsh.
  - exists None. split; [lia|]. trans l; [|exact Hg]. unfold ApplyPowerCappingForWeights.
    destruct (_ <=? 1)%nat; [done|]. by destruct (Z.leb_spec (Z.of_nat (length (positive_weights l))) 1); [|lia].
Qed.

Lemma map_back_other (l : list ActiveParticipant) : forall ws a, a ∉ (ap_Index <$> l) -> zget 0 a (map_back ws l) = zget 0 a ws.
Proof.
  unfold map_back. induction l as [|x l IH]; intros ws a Ha; cbn [fold_left]; [done|]. rewrite fmap_cons, not_elem_of_cons in Ha. destruct Ha as [Hne Ha].
  rewrite IH by done. by rewrite zget_insert_ne.
Qed.
Lemma map_back_at (l : list ActiveParticipant) x ws : NoDup (ap_Index <$> l) -> x ∈ l -> 0 <= ap_Weight x < 2 ^ 64 ->
  zget 0 (ap_Index x) (map_back ws l) = ap_Weight x.
Proof.
  revert ws. induction l as [|y l IH]; intros ws Hnd Hx Hr; [by apply elem_of_nil in Hx|]. rewrite fmap_cons, NoDup_cons in Hnd. destruct Hnd as [Hy Hnd].
  apply elem_of_cons in Hx as [<-|Hx]; [|unfold map_back in *; cbn [fold_left]; by apply IH].
  change (map_back ws (x :: l)) with (map_back (<[ap_Index x := if ap_Weight x <? 0 then 0 else u64 (ap_Weight x)]> ws) l).
  rewrite map_back_other, zget_insert_eq by done. destruct (Z.ltb_spec (ap_Weight x) 0); [lia|]. by rewrite u64_small.
Qed.

Lemma find_participant p : p ∈ participants -> List.find (fun q => bool_decide (pp_Address q = pp_Address p)) participants = Some p.
Proof.
  pose proof (it_distinct _ _ _ _ _ Hin) as Hnd. clear Hin. induction participants as [|q ps IH]; intros Hp; [by apply elem_of_nil in Hp|].
  rewrite fmap_cons, NoDup_cons in Hnd. destruct Hnd as [Hq Hnd]. cbn. apply elem_of_cons in Hp as [<-|Hp]; [by rewrite bool_decide_eq_true_2|].
  rewrite bool_decide_eq_false_2; [by apply IH|]. intros Heq. apply Hq. rewrite Heq. by apply list_elem_of_fmap_2.
Qed.
Lemma find_nobody a : a ∉ (pp_Address <$> participants) -> List.find (fun q => bool_decide (pp_Address q = a)) participants = None.
Proof.
  clear Hin. induction participants as [|q ps IH]; [done|]. rewrite fmap_cons, not_elem_of_cons. intros [Hne Ha]. cbn. rewrite bool_decide_eq_false_2 by done. by apply IH.
Qed.

(** The weights after the cap. *)
Lemma capped_lookup g cap :
  weighed data (pp_Address <$> participants) g -> is_cap (standing data nodes <$> participants) cap ->
  let weights := map_back (wg_weights g) ((fun p => MkActive (pp_Address p) (under cap (standing data nodes p))) <$> filter eligible participants) in
  (forall p, p ∈ participants -> zget 0 (pp_Address p) weights = under cap (standing data nodes p)) /\
  (forall a, a ∉ (pp_Address <$> participants) -> zget 0 a weights = 0).
Proof.
  intros Hg Hcap weights.
  assert (forall p, p ∈ participants -> 0 <= under cap (standing data nodes p) <= standing data nodes p) as Hu.
  { intros p Hp. pose proof (standing_range p Hp). destruct cap as [limit|]; cbn [under]; [|lia]. destruct Hcap as [_ [Hl _ _ _]]. lia. }
  set (l := _ <$> filter eligible participants) in *.
  assert (ap_Index <$> l = pp_Address <$> filter eligible participants) as Hl by (unfold l; by rewrite <-list_fmap_compose).
  assert (NoDup (ap_Index <$> l)) as Hnd.
  { rewrite Hl. eapply sublist_NoDup; [exact (it_distinct _ _ _ _ _ Hin)|]. apply fmap_sublist, sublist_filter. }
  assert (forall a, a ∈ ap_Index <$> l -> exists p, a = pp_Address p /\ eligible p /\ p ∈ participants) as Hel.
  { intros a. rewrite Hl. intros (p & -> & [He Hp]%list_elem_of_filter)%list_elem_of_fmap. eauto. }
  split.
  - intros p Hp. destruct (eligible p) eqn:He.
    + pose proof (full_range data (pp_Address p) (it_weights _ _ _ _ _ Hin)). pose proof (standing_range p Hp). specialize (Hu p Hp).
      apply (map_back_at l (MkActive (pp_Address p) (under cap (standing data nodes p)))); [done| |cbn; lia].
      unfold l. apply (list_elem_of_fmap_2 (fun p => MkActive (pp_Address p) (under cap (standing data nodes p)))). apply list_elem_of_filter. by rewrite He.
    + specialize (Hu p Hp). rewrite standing_eligible in Hu |- * by (rewrite ?He; tauto). unfold weights. rewrite map_back_other, (wd_zero _ _ _ Hg); [lia|].
      intros (q & Hq & Heq & Hqin)%Hel. pose proof (find_participant q Hqin) as Hf. rewrite <-Hq, find_participant in Hf by done. injection Hf as <-. by rewrite He in Heq.
  - intros a Ha. unfold weights. rewrite map_back_other; [apply (wd_zero _ _ _ Hg)|]. intros (q & -> & _ & Hq)%Hel. apply Ha. by apply list_elem_of_fmap_2.
Qed.

End Weighed.
(* ------------------------------------------------------------------ *)
(** ** Downtime *)

Section Downtime.
Context `{!DecimalLib}.
Implicit Types (p : Participant).

Lemma saturating_exact a b : 0 <= a -> 0 <= b -> a + b < 2 ^ 64 -> addUint64Saturating a b = a + b.
Proof. intros. unfold addUint64Saturating, Add64. rewrite Z.div_small by lia. cbn. apply u64_small. unfold is_u64. lia. Qed.

Lemma lsum_elem_le {A} (f : A -> Z) l a : a ∈ l -> (forall b, b ∈ l -> 0 <= f b) -> f a <= lsum f l.
Proof.
  induction l as [|b l IH]; intros Ha Hf; [by apply elem_of_nil in Ha|]. rewrite lsum_cons. pose proof (Hf b ltac:(by left)).
  assert (0 <= lsum f l) by (apply lsum_nonneg; intros c Hc; apply Hf; by right).
  apply elem_of_cons in Ha as [->|Ha]; [lia|]. specialize (IH Ha ltac:(intros c Hc; apply Hf; by right)). lia.
Qed.
Lemma requests_range p : stats_typed p -> 0 <= misses p <= requests p.
Proof. intros (s & Hs & Hi & Hm). unfold misses, requests. rewrite Hs. unfold is_u64 in *. lia. Qed.
Lemma requests_sum (ps : list Participant) : Forall stats_typed ps -> 0 <= lsum misses ps <= lsum requests ps.
Proof.
  intros Hs. rewrite Forall_forall in Hs. split; [apply lsum_nonneg|apply lsum_le]; intros p Hp; by apply requests_range, Hs.
Qed.

Lemma count_spec (ps : list Participant) : Forall stats_typed ps -> forall t m u, 0 <= m <= t -> t + lsum requests ps < 2 ^ 63 ->
  fold_left count_requests ps (t, m, u) =
    (t + lsum requests ps, m + lsum misses ps, u + Z.of_nat (length (filter (fun p => requests p <> 0) ps))).
Proof.
  induction 1 as [|p ps Hp Hps IH]; intros t m u Hm Hlt; cbn [fold_left]; [cbn; rewrite !pair_eq; lia|].
  rewrite !lsum_cons in *. pose proof (requests_sum ps Hps). pose proof (requests_range p Hp) as Hr. rewrite filter_cons.
  destruct Hp as (s & Hs & Hi & Hmi). unfold count_requests at 2. rewrite Hs.
  assert (requests p = ce_InferenceCount s + ce_MissedRequests s) as Hreq by (unfold requests; by rewrite Hs).
  assert (misses p = ce_MissedRequests s) as Hmis by (unfold misses; by rewrite Hs). unfold is_u64 in *.
  rewrite (saturating_exact (ce_InferenceCount s)), <-Hreq, <-Hmis by lia. destruct (Z.eqb_spec (requests p) 0) as [Hz|Hz].
  - rewrite decide_False by tauto. rewrite IH by lia. rewrite !pair_eq; lia.
  - rewrite decide_True by done. rewrite !saturating_exact by lia. rewrite IH by lia. cbn [length]. rewrite !pair_eq; lia.
Qed.

Lemma rate_spec (ps : list Participant) (p0 : option Decimal) : Forall stats_typed ps -> lsum requests ps < 2 ^ 63 -> getDynamicP0 ps p0 = Ok (rate_of ps p0).
Proof.
  intros Hs Hlt. unfold getDynamicP0, rate_of. destruct (governance_p0 p0) as [d|governance]; [done|]. rewrite count_spec by (done || lia).
  rewrite !Z.add_0_l. pose proof (requests_sum ps Hs) as Hr. set (total := lsum requests ps) in *. set (missed := lsum misses ps) in *. set (used := Z.of_nat _).
  unfold dynamicP0MinTotalRequests, dynamicP0MinParticipantsWithTotal, dynamicP0MarginPermille.
  destruct (Z.ltb_spec total 1000) as [Ht|Ht]; cbn [orb]; [by rewrite bool_decide_eq_true_2 by lia|].
  destruct (Z.ltb_spec used 5) as [Hu|Hu]; [by rewrite bool_decide_eq_true_2 by lia|]. rewrite bool_decide_eq_false_2 by lia.
  unfold Mul64, Div64. assert (missed * 1000 / 2 ^ 64 < total) by (apply Z.div_lt_upper_bound; lia).
  destruct (Z.leb_spec total (missed * 1000 / 2 ^ 64)); [lia|].
  assert (missed * 1000 / 2 ^ 64 * 2 ^ 64 + (missed * 1000) mod 2 ^ 64 = missed * 1000) as Hsplit by (pose proof (Z.div_mod (missed * 1000) (2 ^ 64)); lia).
  rewrite Hsplit. assert (0 <= missed * 1000 / total <= 1000) as Hq by (split; [apply Z.div_pos; lia|apply Z.div_le_upper_bound; nia]).
  rewrite u64_small by (unfold is_u64; lia).
  assert ((if 500 <? missed * 1000 / total + 20 then 500 else missed * 1000 / total + 20) = Z.min 500 (missed * 1000 / total + 20)) as ->.
  { destruct (Z.ltb_spec 500 (missed * 1000 / total + 20)); lia. }
  set (selected := ceilToSupportedP0Permille _). do 3 f_equal. destruct (Z.ltb_spec selected governance); lia.
Qed.

(** Losing the weight or keeping it. *)
Lemma punish_spec p w (rate : Decimal * bool) : stats_typed p -> requests p < 2 ^ 63 -> rate.2 = false ->
  CheckAndPunishForDowntimeForParticipant p w rate.1 = Ok (if decide (down rate p) then 0 else w).
Proof.
  intros (s & Hs & Hi & Hm) Hlt Hr. unfold CheckAndPunishForDowntimeForParticipant, CheckAndPunishForDowntime. rewrite Hs. f_equal.
  assert (requests p = ce_InferenceCount s + ce_MissedRequests s) as Hreq by (unfold requests; by rewrite Hs).
  assert (misses p = ce_MissedRequests s) as Hmis by (unfold misses; by rewrite Hs). unfold is_u64 in *.
  rewrite <-Hreq, <-Hmis, u64_small by (unfold is_u64; lia). rewrite !i64_small by (unfold is_i64; lia).
  destruct (Z.eqb_spec (requests p) 0) as [Hz|Hz]; [rewrite decide_False by (intros (_ & ? & _); done); done|].
  destruct (MissedStatTest _ _ _) as [[|]|] eqn:Ht.
  - rewrite decide_False; [done|]. intros (_ & _ & Hd). by rewrite Ht in Hd.
  - by rewrite decide_True by (by split).
  - rewrite decide_False; [done|]. intros (_ & _ & Hd). by rewrite Ht in Hd.
Qed.

Lemma downtime_spec (ps : list Participant) (rate : Decimal * bool) : Forall stats_typed ps -> Forall (fun p => requests p < 2 ^ 63) ps -> NoDup (pp_Address <$> ps) ->
  rate.2 = false -> forall ws ws', CheckAndPunishForDowntimeForParticipants ps ws rate.1 = Ok ws' ->
  (forall p, p ∈ ps -> zget 0 (pp_Address p) ws' = if decide (down rate p) then 0 else zget 0 (pp_Address p) ws) /\
  (forall a, a ∉ (pp_Address <$> ps) -> zget 0 a ws' = zget 0 a ws).
Proof.
  intros Hs Hlt Hnd Hr. unfold CheckAndPunishForDowntimeForParticipants.
  induction ps as [|p ps IH]; intros ws ws'; cbn [ofold]; [intros [= <-]; split; [intros p Hp; by apply elem_of_nil in Hp|done]|].
  apply Forall_cons in Hs as [Hsp Hs]. apply Forall_cons in Hlt as [Hlp Hlt]. rewrite fmap_cons, NoDup_cons in Hnd. destruct Hnd as [Hp Hnd].
  rewrite punish_spec by done. cbn [obind]. intros Hl. destruct (IH Hs Hlt Hnd _ _ Hl) as [Hin Hout]. split.
  - intros q [->|Hq]%elem_of_cons; [by rewrite Hout, zget_insert_eq|]. rewrite Hin by done. rewrite zget_insert_ne; [done|].
    intros Heq. apply Hp. rewrite Heq. by apply list_elem_of_fmap_2.
  - intros a. rewrite fmap_cons, not_elem_of_cons. intros [Hne Ha]. rewrite Hout by done. by rewrite zget_insert_ne.
Qed.
End Downtime.

(* ------------------------------------------------------------------ *)
(** ** Penalties and delegations *)

Section Delegation.
Context `{!DecimalLib} `{!LegacyDecLib} `{!LegacyDecLaws} `{!LegacyDecParse}.
Implicit Types (ws base : Weights).
Abbreviation weight_in ws := (fun a => zget 0 a ws).
Definition weights_fit ws : Prop := forall a, 0 <= zget 0 a ws < 2 ^ 63.

Lemma part_spec share w : share_typed share -> 0 <= w < 2 ^ 63 -> delegationShareOfWeight share w = Ok (part share w) /\ 0 <= part share w.
Proof.
  intros Hs Hw. unfold delegationShareOfWeight, part. destruct share as [d|]; [|done]. cbn [mbind option_bind].
  destruct (ToLegacyDec d) as [x|] eqn:Hx; [|by destruct (_ || _)]. destruct (Hs d x eq_refl Hx) as [Hx0 Hx1].
  assert (0 <= inject_Z w)%Q by (rewrite <-(Zle_Qle 0); lia).
  assert (Qfloor (ld_val x * inject_Z w) <= w) as Hle.
  { rewrite <-(Qfloor_Z w) at 2. apply Qfloor_resp_le. nra. }
  destruct (truncated x w) as [Ht Hpos]; [done|lia|lia|]. split; [|done].
  destruct (Z.eqb_spec w 0) as [Hz|Hz]; [cbn [orb]; f_equal; lia|]. destruct (Z.ltb_spec MaxInt64 w) as [Hm|Hm]; [unfold MaxInt64 in Hm; lia|]. cbn [orb].
  destruct (ld_IsZero x) eqn:Hzero.
  - f_equal. unfold ld_IsZero in Hzero. rewrite ld_cmp in Hzero. destruct (_ ?= _)%Q eqn:Hc; try done. apply Qeq_alt in Hc. unfold LegacyZeroDec in Hc. rewrite ld_int in Hc.
    rewrite (Qfloor_comp _ 0) by (rewrite Hc; ring). done.
  - rewrite i64_small by (unfold is_i64; lia). rewrite Ht. cbn [obind]. f_equal. unfold positiveUint64.
    destruct (Z.leb_spec (Qfloor (ld_val x * inject_Z w)) 0); [lia|]. apply u64_small. unfold is_u64. lia.
Qed.

Lemma penalty_step base ws penalty ws' : (forall p, penalty = Some p -> share_typed (dp_PenaltyFraction p)) -> weights_fit base -> weights_fit ws ->
  apply_penalty base ws penalty = Ok ws' ->
  forall a, 0 <= fine_for (weight_in base) a penalty /\ zget 0 a ws' = Z.max 0 (zget 0 a ws - fine_for (weight_in base) a penalty).
Proof.
  intros Hs Hb Hw Hrun a. pose proof (Hw a) as Hwa. destruct penalty as [p|]; cbn [apply_penalty fine_for] in *; [|injection Hrun as <-; lia].
  specialize (Hs p eq_refl). destruct (part_spec _ (zget 0 (dp_Participant p) base) Hs (Hb _)) as [Hp Hpos].
  destruct (decide (dp_Participant p = "")) as [He|He].
  { rewrite bool_decide_eq_true_2 in Hrun by done. injection Hrun as <-. rewrite bool_decide_eq_false_2 by (intros [<- ?]; done). lia. }
  rewrite bool_decide_eq_false_2 in Hrun by done.
  destruct (decide (dp_Participant p = a)) as [<-|Hne].
  - rewrite bool_decide_eq_true_2 by done. split; [done|]. unfold zget in Hwa |- * at 2. revert Hrun. rewrite Hp. cbn [obind].
    set (n := part _ _) in *. destruct (ws !! dp_Participant p) as [w|] eqn:Hl; cbn [from_option id] in *; [|intros [= <-]; unfold zget; rewrite Hl; cbn; lia].
    intros [= <-]. replace (if w <? n then w else n) with (Z.min w n) by (destruct (Z.ltb_spec w n); lia).
    destruct (Z.eqb_spec (Z.min w n) 0); [unfold zget; rewrite Hl; cbn; lia|]. rewrite zget_insert_eq, u64_small by (unfold is_u64; lia). lia.
  - rewrite bool_decide_eq_false_2 by tauto. split; [lia|]. rewrite Z.sub_0_r, Z.max_r by lia. revert Hrun.
    destruct (ws !! dp_Participant p) as [w|]; [|by intros [= <-]]. rewrite Hp. cbn [obind]. intros [= <-]. case_match; [done|]. by rewrite zget_insert_ne.
Qed.

Lemma penalties_spec base penalties ws' : (forall p, Some p ∈ penalties -> share_typed (dp_PenaltyFraction p)) -> weights_fit base ->
  applyDelegationRewardPenalties base penalties = Ok ws' -> forall a, zget 0 a ws' = fined (weight_in base) penalties a.
Proof.
  intros Hs Hb. unfold applyDelegationRewardPenalties, fined.
  assert (forall ws, weights_fit ws -> ofold (apply_penalty base) ws penalties = Ok ws' ->
    forall a, 0 <= lsum (fine_for (weight_in base) a) penalties /\ zget 0 a ws' = Z.max 0 (zget 0 a ws - lsum (fine_for (weight_in base) a) penalties)) as Hall.
  { induction penalties as [|p l IH]; intros ws Hw; cbn [ofold].
    - intros [= <-] a. specialize (Hw a). cbn. lia.
    - intros (ws1 & Hp & Hl)%obind_Ok a. rewrite lsum_cons.
      pose proof (fun q => penalty_step base ws p ws1 q Hb Hw Hp) as Hstep. specialize (Hstep ltac:(intros q ->; apply Hs; by left)).
      assert (weights_fit ws1) as Hf1 by (intros b; destruct (Hstep b) as [Hpos ->]; specialize (Hw b); lia).
      destruct (IH ltac:(intros q Hq; apply Hs; by right) ws1 Hf1 Hl a) as [Hpos ->]. destruct (Hstep a) as [Hpos1 ->]. lia. }
  intros Hrun a. by apply Hall.
Qed.

Lemma update_insert W ws x w : (forall a, W a = zget 0 a ws) -> forall a, update W x w a = zget 0 a (<[x := w]> ws).
Proof.
  intros HW a. unfold update. destruct (decide (a = x)) as [->|Hne]; [by rewrite bool_decide_eq_true_2, zget_insert_eq|].
  by rewrite bool_decide_eq_false_2, zget_insert_ne, HW.
Qed.

Lemma transfer_step base ws t ws' W B : (forall u, t = Some u -> share_typed (dt_Share u)) -> weights_fit base -> nonneg ws -> sum_of ws < 2 ^ 64 ->
  (forall a, W a = zget 0 a ws) -> (forall a, B a = zget 0 a base) -> apply_transfer base ws t = Ok ws' -> forall a, moved B W t a = zget 0 a ws'.
Proof.
  intros Hs Hb Hn Hsum HW HB Hrun a. destruct t as [t|]; cbn [apply_transfer moved] in *; [|injection Hrun as <-; apply HW].
  specialize (Hs t eq_refl). destruct (part_spec _ (zget 0 (dt_From t) base) Hs (Hb _)) as [Hp Hpos].
  case_bool_decide as He; [injection Hrun as <-; apply HW|]. rewrite Hp in Hrun. rewrite HB, HW.
  set (n := part (dt_Share t) (zget 0 (dt_From t) base)) in *. cbn [obind] in Hrun.
  pose proof (Hn (dt_From t)) as Hw0. pose proof (weight_le_sum ws (dt_From t) Hn) as Hle. set (m := Z.min (zget 0 (dt_From t) ws) n).
  set (W1 := update W (dt_From t) (zget 0 (dt_From t) ws - m)). set (ws1 := <[dt_From t := zget 0 (dt_From t) ws - m]> ws).
  assert (forall b, W1 b = zget 0 b ws1) as HW1.
  { intros b. unfold W1, ws1. by apply update_insert. }
  destruct (Z.eqb_spec m 0) as [Hz|Hz].
  - assert (ws' = ws) as ->.
    { revert Hrun. destruct (ws !! dt_From t) as [w|] eqn:Hw; [|by intros [= <-]].
      assert (zget 0 (dt_From t) ws = w) as Hzw by (unfold zget; by rewrite Hw). unfold m in Hz. rewrite Hzw in Hz.
      replace (if w <? n then w else n) with 0 by (destruct (Z.ltb_spec w n); lia). by intros [= <-]. }
    assert (forall b, zget 0 b ws1 = zget 0 b ws) as Heq.
    { intros b. unfold ws1. destruct (decide (dt_From t = b)) as [<-|]; [rewrite zget_insert_eq; lia|by rewrite zget_insert_ne]. }
    clear Hrun. case_bool_decide as Hto; [|by rewrite HW1, Heq]. rewrite (update_insert _ ws1) by done. rewrite HW1, Heq, Hz, Z.add_0_r.
    destruct (decide (dt_To t = a)) as [<-|]; [by rewrite zget_insert_eq|by rewrite zget_insert_ne, Heq].
  - revert Hrun. destruct (ws !! dt_From t) as [w|] eqn:Hw; [|exfalso; apply Hz; unfold m, zget; rewrite Hw; cbn; lia].
    assert (zget 0 (dt_From t) ws = w) as Hzw by (unfold zget; by rewrite Hw). rewrite Hzw in *.
    replace (if w <? n then w else n) with m by (unfold m; destruct (Z.ltb_spec w n); lia). destruct (Z.eqb_spec m 0); [done|].
    rewrite u64_small by (unfold is_u64; lia). assert (<[dt_From t := w - m]> ws = ws1) as -> by (unfold ws1; by rewrite Hzw). intros [= <-]. rewrite !HW1. rewrite <-bool_decide_not.
    destruct (Z.ltb_spec 0 (zget 0 (dt_To t) ws1)) as [Hto|Hto]; [|rewrite andb_false_r, bool_decide_eq_false_2 by lia; apply HW1].
    rewrite andb_true_r. destruct (decide (dt_To t <> "")) as [Hne|Hne]; [rewrite !bool_decide_eq_true_2 by done|rewrite !bool_decide_eq_false_2 by tauto; apply HW1].
    assert (nonneg ws1) as Hn1 by (apply nonneg_insert; [done|lia]). assert (sum_of ws1 = sum_of ws - m) as Hs1 by (unfold ws1; rewrite sum_insert; lia).
    pose proof (weight_le_sum ws1 (dt_To t) Hn1). rewrite saturating_exact by lia.
    by apply update_insert.
Qed.

Lemma transfers_spec base transfers ws' W : (forall t, Some t ∈ transfers -> share_typed (dt_Share t)) -> weights_fit base -> sum_of base < 2 ^ 64 ->
  (forall a, W a = zget 0 a base) -> applyDelegationRewardTransfers base transfers = Ok ws' -> forall a, delegated W transfers a = zget 0 a ws'.
Proof.
  intros Hs Hb Hsum HW. unfold applyDelegationRewardTransfers, delegated.
  assert (forall ws V, nonneg ws -> sum_of ws < 2 ^ 64 -> (forall a, V a = zget 0 a ws) -> ofold (apply_transfer base) ws transfers = Ok ws' ->
    forall a, fold_left (moved W) transfers V a = zget 0 a ws') as Hall; [|intros Hrun; apply (Hall base W); [intros b; apply Hb|done|done|done]].
  induction transfers as [|t l IH]; intros ws V Hn Hsw HV; cbn [ofold fold_left]; [by intros [= <-]|].
  intros (ws1 & Ht & Hl)%obind_Ok. destruct (transfer_sum base ws t ws1 Hn Hsw Ht) as [Hn1 Hs1].
  apply (IH ltac:(intros q Hq; apply Hs; by right) ws1); [done|lia| |done]. apply (transfer_step base ws t ws1 V W); try done. intros u ->. apply Hs. by left.
Qed.
End Delegation.

(* ------------------------------------------------------------------ *)
(** ** The reward, by weight *)

Section Paid.
Context `{!DecimalLib} `{!DecimalLaws} `{!LegacyDecLib} `{!LegacyDecLaws} `{!LegacyDecParse}.
Implicit Types (participants : list Participant) (data : EpochGroupData).

Lemma fined_ext W V penalties a : (forall b, W b = V b) -> fined W penalties a = fined V penalties a.
Proof. intros He. unfold fined. rewrite He. do 2 f_equal. apply lsum_ext. intros [p|] _; cbn [fine_for]; by rewrite ?He. Qed.

Lemma stages_weights participants data nodes transfers penalties p0 g r ws1 ws2 ws3 :
  inputs_typed participants data nodes transfers penalties -> stages participants data nodes transfers penalties p0 g r ws1 ws2 ws3 ->
  exists cap, is_cap (standing data nodes <$> participants) cap /\
    forall a, zget 0 a ws3 = final_weight participants data nodes p0 transfers penalties cap a.
Proof.
  intros Hin [Hg Hr Hd Hp Ht Hb1 Hb2]. pose proof Hin as [_ Hnd Hst Hreq _ Hw Htot _ _ _ _ _ _ Htr Hpe].
  destruct (capped_standing _ _ _ _ _ Hin g Hg) as (cap & Hcap & Heff). exists cap. split; [done|].
  pose proof (weigh_spec data Hw _ _ _ _ _ _ (weighed_empty data) Hg) as Hwd. cbn [app] in Hwd. rewrite Heff in Hd.
  destruct (capped_lookup _ _ _ _ _ Hin g cap Hwd Hcap) as [Hin0 Hout0]. cbv zeta in Hd. set (weights := map_back _ _) in *.
  rewrite rate_spec in Hr by done. injection Hr as <-. set (rate := rate_of participants p0) in *.
  assert (forall a, zget 0 a ws1 = capped_weight participants data nodes p0 cap a) as Hw1.
  { assert ((forall p, p ∈ participants -> zget 0 (pp_Address p) ws1 = if decide (down rate p) then 0 else under cap (standing data nodes p)) /\
      (forall a, a ∉ (pp_Address <$> participants) -> zget 0 a ws1 = 0)) as [Hi Ho].
    { destruct rate.2 eqn:Hskip.
      - injection Hd as <-. split; [|done]. intros p Hpp. rewrite decide_False; [by apply Hin0|]. intros (Hf & _). by rewrite Hskip in Hf.
      - destruct (downtime_spec participants rate Hst) with (ws := weights) (ws' := ws1) as [Hi Ho]; try done.
        { rewrite Forall_forall in Hst. apply Forall_forall. intros p Hpp. pose proof (lsum_elem_le requests participants p Hpp) as Hle.
          apply Z.le_lt_trans with (lsum requests participants); [|done]. apply Hle. intros q Hq. pose proof (requests_range q (Hst q Hq)). lia. }
        split; [intros p Hpp; rewrite Hi, Hin0 by done; done|intros a Ha; rewrite Ho by done; by apply Hout0]. }
    intros a. unfold capped_weight. fold rate. destruct (decide (a ∈ pp_Address <$> participants)) as [(p & -> & Hpp)%list_elem_of_fmap|Hno].
    - rewrite (find_participant _ _ _ _ _ Hin) by done. rewrite Hi by done. by rewrite decide_bool_decide.
    - rewrite find_nobody by done. by apply Ho. }
  assert (forall a, zget 0 a (wg_full g) < 2 ^ 63) as Hfull by (intros a; rewrite (wd_full _ _ _ Hwd); pose proof (full_range data a Hw); case_bool_decide; lia).
  assert (forall a, zget 0 a ws2 = fined (capped_weight participants data nodes p0 cap) penalties a) as Hw2.
  { intros a. rewrite (penalties_spec ws1 penalties ws2) by (done || (intros b; specialize (Hb1 b); specialize (Hfull b); lia)). by apply fined_ext. }
  intros a. symmetry. apply (transfers_spec ws2); try done.
  - intros b. specialize (Hb2 b). specialize (Hfull b). lia.
  - pose proof (below_sum _ _ Hb2) as Hs2. pose proof (wd_sum _ _ _ Hwd Hnd) as Hs. rewrite lsum_fmap in Hs. unfold full_total in Htot. lia.
Qed.

(** C8: the reward of an epoch is divided by exactly the weights of the reference, and
    nothing panics: each active participant's validation weight counts as far as its
    nodes confirmed it ([standing]), cut to the largest limit under which nobody exceeds
    its share ([is_cap]), is lost when too many requests were missed for the rate of the
    epoch ([down]), is reduced by penalties ([fined]) and moved by delegations
    ([delegated]).  The result of every participant is its weight's part of the fixed
    reward [R] in the full weight of all, rounded down, less its debt, or an error if the
    debt is larger; the weights that count are together at most the full weight; and the
    rewards with what governance gets are [R] exactly.  For participants with distinct
    addresses and statistics, balances above the smallest int64, factors and node weights
    that are not negative, shares between 0 and 1, a reward below 2^63, and weights and
    requests whose sums and products stay within their machine words. *)
Theorem rewards_divided participants data params p0 nodes transfers penalties :
  let R := fixed_reward data params in let T := full_total participants data in
  inputs_typed participants data nodes transfers penalties -> 0 <= R < 2 ^ 63 ->
  exists cap results b, is_cap (standing data nodes <$> participants) cap /\
    let W := final_weight participants data nodes p0 transfers penalties cap in
    CalculateParticipantBitcoinRewardsWithTransfers participants data params p0 nodes transfers penalties = Ok (results, b) /\
    results = share_result data W T R <$> participants /\
    (forall a, 0 <= W a) /\ lsum (fun p => W (pp_Address p)) participants <= T /\
    bt_Amount b = R /\ 0 <= bt_GovernanceAmount b /\
    lsum (fun r => sa_RewardCoins (sr_Settle r)) results + bt_GovernanceAmount b = R.
Proof.
  intros R T Hin HR. pose proof (typed_ok _ _ _ _ _ Hin) as Hok.
  destruct (rewards_stages participants data params p0 nodes transfers penalties Hok HR) as (g & r & ws1 & ws2 & ws3 & b & Hst & Hrun & [_ Ha He Hgov]).
  destruct (stages_weights _ _ _ _ _ _ _ _ _ _ _ Hin Hst) as (cap & Hcap & HW). destruct Hst as [Hg _ _ _ Hw3 _ Hb2].
  pose proof Hin as [_ Hnd _ _ _ Hw Htot _ _ _ _ _ _ _ _].
  pose proof (weigh_spec data Hw _ _ _ _ _ _ (weighed_empty data) Hg) as Hwd. cbn [app] in Hwd.
  pose proof (below_sum _ _ Hb2) as Hs2. pose proof (wd_sum _ _ _ Hwd Hnd) as Hs. rewrite lsum_fmap in Hs. fold (full_total participants data) in Hs.
  destruct (transfers_sum ws2 transfers ws3 (below_nonneg _ _ Hb2) ltac:(lia) Hw3) as [Hn3 Hs3].
  exists cap. do 2 eexists. split; [done|]. split; [done|]. split; [|split; [|split; [|done]]].
  - apply list_fmap_ext. intros i p Hi%list_elem_of_lookup_2. unfold result_of, share_result, reward_of, gross. rewrite HW.
    rewrite (wd_full _ _ _ Hwd), bool_decide_eq_true_2 by (by apply list_elem_of_fmap_2). done.
  - intros a. rewrite <-HW. apply Hn3.
  - pose proof (lsum_zget_le _ ws3 Hnd Hn3) as Hle. rewrite lsum_fmap in Hle. rewrite (lsum_ext _ (fun p => zget 0 (pp_Address p) ws3)); [unfold T; lia|]. intros p _. by rewrite HW.
Qed.
End Paid.
