(* ===== verification/ChainBank.v ===== *)
(** * The bank and the accounts of the SDK

    What the chain's modules use of x/bank and x/auth.  A transfer is subject to the
    restriction that the application registers with the bank ([Restriction]). *)

From S2P Require Import Prelude.
From S2P Require Import ChainStore.
From S2P Require Import ChainCoins.
Open Scope Z_scope.
Open Scope go_scope.

(** [banktypes.SendRestrictionFn]: the recipient to use, or why the transfer is refused. *)
Abbreviation Restriction B := (B -> AccAddress -> AccAddress -> Coins -> outcome fault AccAddress).

(** [is_module]: the address has an account, and it is a [ModuleAccount].  [has_module]:
    the application configures a module account of this name. *)
Class BankKeeper (B : Type) := {
  NewModuleAddress : string -> AccAddress;
  has_module : string -> bool;
  is_module : B -> AccAddress -> bool;
  BlockedAddr : AccAddress -> bool;
  bank_Height : B -> Z;
  GetBalance : B -> AccAddress -> string -> Z;
  Spendable : B -> AccAddress -> string -> Z;
  GetSupply : B -> string -> Z;
  bank_SendCoins : Restriction B -> AccAddress -> AccAddress -> Coins -> B -> B * outcome fault unit;
  bank_SendCoinsFromModuleToAccount : Restriction B -> string -> AccAddress -> Coins -> B -> B * outcome fault unit;
  bank_SendCoinsFromModuleToModule : Restriction B -> string -> string -> Coins -> B -> B * outcome fault unit;
  bank_SendCoinsFromAccountToModule : Restriction B -> AccAddress -> string -> Coins -> B -> B * outcome fault unit;
  bank_MintCoins : string -> Coins -> B -> B * outcome fault unit;
  bank_BurnCoins : string -> Coins -> B -> B * outcome fault unit;
  (** What the bank maintains: no balance is negative, and the supply of each
      denomination is an integer of the SDK. *)
  bank_ok : B -> Prop
}.

Section Moves.
Context {B : Type} `{!BankKeeper B}.
Implicit Types (b : B) (a : AccAddress) (amt : Coins) (d : string).

(** What does not change but by the calls for it. *)
Record bank_same b b' : Prop := {
  bs_height : bank_Height b' = bank_Height b;
  bs_module : forall a, is_module b a = true -> is_module b' a = true;
  bs_ok : bank_ok b -> bank_ok b'
}.

#[export] Instance bank_same_preorder : PreOrder bank_same.
Proof.
  split; [by split|]. intros b1 b2 b3 [H1 H2 H3] [H4 H5 H6]. split; [congruence|auto..].
Qed.

(** [amt] moved from [from] to [to]. *)
Record moved b b' (from to : AccAddress) amt : Prop := {
  mv_balance : forall a d, GetBalance b' a d = GetBalance b a d - (if bool_decide (a = from) then amount amt d else 0) +
    (if bool_decide (a = to) then amount amt d else 0);
  mv_spend : from <> to -> forall d, Spendable b' from d = Spendable b from d - amount amt d;
  mv_supply : forall d, GetSupply b' d = GetSupply b d;
  mv_same : bank_same b b'
}.

(** [amt] appeared at [a], or disappeared when [sign] is -1. *)
Record issued b b' a (sign : Z) amt : Prop := {
  is_balance : forall a' d, GetBalance b' a' d = GetBalance b a' d + (if bool_decide (a' = a) then sign * amount amt d else 0);
  is_supply : forall d, GetSupply b' d = GetSupply b d + sign * amount amt d;
  is_same : bank_same b b'
}.
End Moves.

(** A transfer succeeds when the restriction admits it and the sender can spend the
    coins.  Transfers from a module to an account check first that the bank may pay the
    recipient; the others are transfers between the accounts. *)
Class BankLaws (B : Type) `{BankKeeper B} `{!CoinsLib} := {
  ok_range : forall b a d, bank_ok b -> 0 <= GetBalance b a d < max_int;
  spend_module : forall b a d, is_module b a = true -> Spendable b a d = GetBalance b a d;
  spend_le : forall b a d, bank_ok b -> Spendable b a d <= GetBalance b a d;
  send_done : forall restrict from to to' amt b, bank_ok b -> restrict b from to amt = Ok to' -> Coins_IsValid amt = true ->
    (forall d, amount amt d <= Spendable b from d) -> exists b', bank_SendCoins restrict from to amt b = (b', Ok tt);
  send_moved : forall restrict from to amt b b', bank_SendCoins restrict from to amt b = (b', Ok tt) ->
    Coins_IsValid amt = true /\ (forall x, x ∈ amt -> cn_Amount x <= Spendable b from (cn_Denom x)) /\
    exists to', restrict b from to amt = Ok to' /\ moved b b' from to' amt;
  send_blocked : forall restrict m a amt b, has_module m = true -> BlockedAddr a = true ->
    exists e, bank_SendCoinsFromModuleToAccount restrict m a amt b = (b, Err (Failed e));
  send_from_module : forall restrict m a amt b, has_module m = true -> BlockedAddr a = false ->
    bank_SendCoinsFromModuleToAccount restrict m a amt b = bank_SendCoins restrict (NewModuleAddress m) a amt b;
  send_to_module : forall restrict a m amt b, is_module b (NewModuleAddress m) = true -> has_module m = true ->
    bank_SendCoinsFromAccountToModule restrict a m amt b = bank_SendCoins restrict a (NewModuleAddress m) amt b;
  send_modules : forall restrict m m' amt b, is_module b (NewModuleAddress m') = true -> has_module m = true -> has_module m' = true ->
    bank_SendCoinsFromModuleToModule restrict m m' amt b = bank_SendCoins restrict (NewModuleAddress m) (NewModuleAddress m') amt b;
  mint_issued : forall m amt b b', bank_MintCoins m amt b = (b', Ok tt) -> Coins_IsValid amt = true /\ issued b b' (NewModuleAddress m) 1 amt;
  burn_issued : forall m amt b b', bank_BurnCoins m amt b = (b', Ok tt) -> Coins_IsValid amt = true /\ issued b b' (NewModuleAddress m) (-1) amt
}.

(** A restriction under which modules can send and receive, and which never changes the
    recipient. *)
Class ModulesPermitted {B : Type} `{BankKeeper B} (restrict : Restriction B) := {
  restrict_keeps : forall b from to to' amt, restrict b from to amt = Ok to' -> to' = to;
  restrict_module : forall b from to amt, is_module b from = true \/ is_module b to = true -> restrict b from to amt = Ok to
}.
