(* ===== verification/Restrictions.v ===== *)
(** * The transfer restrictions

    inference-chain/x/restrictions: until an end block, users cannot send coins to users,
    unless an emergency exemption admits the transfer.  [SendRestrictionFn] is what the
    module registers with the bank; [ExecuteEmergencyTransfer] is the message that uses an
    exemption and counts its use.

    The record [Restrictions] has what the module stores, and the bank.  The stored
    parameters always decode, as only [SetParams] writes them. *)

From S2P Require Import Prelude.
From S2P Require Import GoStd.
From S2P Require Import ChainStore.
From S2P Require Import ChainCoins.
From S2P Require Import ChainBank.
Open Scope Z_scope.
Open Scope go_scope.

(* ------------------------------------------------------------------ *)
(** ** Parameters *)

(** [types.EmergencyTransferExemption], [types.ExemptionUsage], [types.Params] *)
Record EmergencyTransferExemption := MkExemption {
  ex_ExemptionId : string;
  ex_FromAddress : string;
  ex_ToAddress : string;
  ex_MaxAmount : string;
  ex_UsageLimit : Z;
  ex_ExpiryBlock : Z;
  ex_Justification : string
}.
Record ExemptionUsage := MkUsage { us_ExemptionId : string; us_AccountAddress : string; us_UsageCount : Z }.
Record RestrictionParams := MkRestrictionParams {
  rp_RestrictionEndBlock : Z;
  rp_Exemptions : list EmergencyTransferExemption;
  rp_Usage : list ExemptionUsage
}.
Definition restrictions_DefaultParams : RestrictionParams := MkRestrictionParams 0 [] [].

Section Validate.
Context `{!AccAddressCodec}.

Definition valid_or_wildcard (addr : string) : bool :=
  bool_decide (addr = "*") || bool_decide (is_Some (AccAddressFromBech32 addr)).
Definition validateEmergencyTransferExemption (e : EmergencyTransferExemption) : outcome string unit :=
  run! ocheck (negb (bool_decide (ex_ExemptionId e = ""))) "exemption ID cannot be empty" in
  run! ocheck (valid_or_wildcard (ex_FromAddress e)) "invalid from address" in
  run! ocheck (valid_or_wildcard (ex_ToAddress e)) "invalid to address" in
  run! ocheck (negb (bool_decide (ex_MaxAmount e = ""))) "max amount cannot be empty" in
  run! ocheck (bool_decide (is_Some (ParseUint (ex_MaxAmount e)))) "invalid max amount" in
  run! ocheck (negb (ex_UsageLimit e =? 0)) "usage limit must be greater than 0" in
  ocheck (negb (ex_ExpiryBlock e =? 0)) "expiry block must be greater than 0".
Definition validateExemptionUsage (u : ExemptionUsage) : outcome string unit :=
  run! ocheck (negb (bool_decide (us_ExemptionId u = ""))) "exemption ID cannot be empty" in
  ocheck (bool_decide (is_Some (AccAddressFromBech32 (us_AccountAddress u)))) "invalid account address".
Definition restrictions_Validate (p : RestrictionParams) : outcome string unit :=
  run! ofold (fun _ e => validateEmergencyTransferExemption e) tt (rp_Exemptions p) in
  ofold (fun _ u => validateExemptionUsage u) tt (rp_Usage p).
End Validate.

(* ------------------------------------------------------------------ *)
(** ** The keeper *)

Record Restrictions (B : Type) := MkRestrictions {
  rs_params : option RestrictionParams;
  rs_unregistered : bool;
  rs_bank : B
}.
Arguments MkRestrictions {B}.
Arguments rs_params {B}.
Arguments rs_unregistered {B}.
Arguments rs_bank {B}.

Section Keeper.
Context {B : Type} `{!AccAddressCodec} `{!CoinLib} `{!CoinsLib} `{!BankKeeper B}.
Abbreviation RS := (Restrictions B).
Abbreviation K := (GoM (Restrictions B) fault).
Implicit Types (s : RS) (from to : AccAddress) (amt : Coins).

Definition set_rs_params p s : RS := MkRestrictions (Some p) (rs_unregistered s) (rs_bank s).
Definition set_rs_unregistered s : RS := MkRestrictions (rs_params s) true (rs_bank s).
Definition set_rs_bank b s : RS := MkRestrictions (rs_params s) (rs_unregistered s) b.

Definition restrictions_GetParams s : RestrictionParams := default restrictions_DefaultParams (rs_params s).
Definition restrictions_SetParams (p : RestrictionParams) : K unit := modify (set_rs_params p).

Definition currentHeight s : Z := u64 (bank_Height (rs_bank s)).
Definition IsRestrictionActive s : bool := currentHeight s <? rp_RestrictionEndBlock (restrictions_GetParams s).

(** [authtypes.FeeCollectorName] *)
Definition FeeCollectorName : string := "fee_collector".
Definition IsGasFeePayment (toAddr : AccAddress) : bool := bool_decide (toAddr = NewModuleAddress FeeCollectorName).
Definition IsModuleAccount s (addr : AccAddress) : bool := is_module (rs_bank s) addr.

(** [coin.Amount.Uint64()] *)
Definition Int_Uint64 (n : Z) : outcome fault Z := if (0 <=? n) && (n <? 2 ^ 64) then Ok n else Err Panicked.
Definition total_amount amt : outcome fault Z :=
  ofold (fun totalAmount coin => let! n := Int_Uint64 (cn_Amount coin) in Ok (u64 (totalAmount + n))) 0 amt.

(** The first entry of the usage of an exemption by an account, with its index. *)
Definition find_usage (usages : list ExemptionUsage) (id acct : string) : option (nat * ExemptionUsage) :=
  list_find (fun u => us_ExemptionId u = id /\ us_AccountAddress u = acct) usages.
Definition currentUsage (usages : list ExemptionUsage) (id acct : string) : Z :=
  from_option (fun x => us_UsageCount x.2) 0 (find_usage usages id acct).

(** [exemption.FromAddress != "*" && exemption.FromAddress != addr] *)
Definition other_address (pattern addr : string) : bool :=
  negb (bool_decide (pattern = "*")) && negb (bool_decide (pattern = addr)).

(** One round of the loop of [MatchesEmergencyExemption]. *)
Definition exemption_matches (p : RestrictionParams) (height : Z) (fromStr toStr : string) amt (e : EmergencyTransferExemption) : outcome fault bool :=
  if ex_ExpiryBlock e <=? height then Ok false
  else if other_address (ex_FromAddress e) fromStr then Ok false
  else if other_address (ex_ToAddress e) toStr then Ok false
  else match ParseUint (ex_MaxAmount e) with
       | None => Ok false
       | Some maxAmount =>
           let! totalAmount := total_amount amt in
           if maxAmount <? totalAmount then Ok false
           else if ex_UsageLimit e <=? currentUsage (rp_Usage p) (ex_ExemptionId e) fromStr then Ok false
           else Ok true
       end.
Fixpoint matches_any (f : EmergencyTransferExemption -> outcome fault bool) (es : list EmergencyTransferExemption) : outcome fault bool :=
  match es with
  | [] => Ok false
  | e :: es' => let! found := f e in if (found : bool) then Ok true else matches_any f es'
  end.
Definition MatchesEmergencyExemption s from to amt : outcome fault bool :=
  let p := restrictions_GetParams s in
  matches_any (exemption_matches p (currentHeight s) (AccAddress_String from) (AccAddress_String to) amt) (rp_Exemptions p).

Definition ErrTransferRestricted : fault := Failed "transfer restricted during bootstrap period".
Definition SendRestrictionFn s from to amt : outcome fault AccAddress :=
  if negb (IsRestrictionActive s) then Ok to
  else if IsGasFeePayment to then Ok to
  else if IsModuleAccount s to then Ok to
  else if IsModuleAccount s from then Ok to
  else
    let! matched := MatchesEmergencyExemption s from to amt in
    if (matched : bool) then Ok to else Err ErrTransferRestricted.

(** The restriction as the bank calls it. *)
Definition restriction s : Restriction B := fun b => SendRestrictionFn (set_rs_bank b s).
Definition send_coins from to amt : K unit :=
  fun s => let '(b, r) := bank_SendCoins (restriction s) from to amt (rs_bank s) in (set_rs_bank b s, r).

(* ------------------------------------------------------------------ *)
(** ** Messages and blocks *)

Record MsgExecuteEmergencyTransfer := MkEmergencyTransfer {
  et_ExemptionId : string;
  et_FromAddress : string;
  et_ToAddress : string;
  et_Amount : string;
  et_Denom : string
}.
Definition emergency_ValidateBasic (m : MsgExecuteEmergencyTransfer) : outcome string unit :=
  run! ocheck (negb (bool_decide (et_ExemptionId m = ""))) "exemption ID cannot be empty" in
  run! ocheck (bool_decide (is_Some (AccAddressFromBech32 (et_FromAddress m)))) "invalid from address" in
  run! ocheck (bool_decide (is_Some (AccAddressFromBech32 (et_ToAddress m)))) "invalid to address" in
  run! ocheck (negb (bool_decide (et_Amount m = ""))) "amount cannot be empty" in
  run! ocheck (bool_decide (is_Some (ParseUint (et_Amount m)))) "invalid amount format" in
  run! ocheck (negb (bool_decide (et_Denom m = ""))) "denomination cannot be empty" in
  ocheck (ValidateDenom (et_Denom m)) "invalid denomination".

(** The usage list after one more use. *)
Definition count_use (usages : list ExemptionUsage) (id acct : string) : list ExemptionUsage :=
  match find_usage usages id acct with
  | Some (i, u) => <[i := MkUsage (us_ExemptionId u) (us_AccountAddress u) (u64 (us_UsageCount u + 1))]> usages
  | None => usages ++ [MkUsage id acct 1]
  end.

Definition ExecuteEmergencyTransfer (req : MsgExecuteEmergencyTransfer) : K Z :=
  let* s := get in
  let p := restrictions_GetParams s in
  let* (_, e) := lift_option (list_find (fun e => ex_ExemptionId e = et_ExemptionId req) (rp_Exemptions p))
    (Failed "emergency transfer exemption not found") in
  run* check (negb (i64 (ex_ExpiryBlock e) <? bank_Height (rs_bank s))) (Failed "emergency transfer exemption expired") in
  run* check (negb (other_address (ex_FromAddress e) (et_FromAddress req))) (Failed "transfer does not match exemption template") in
  run* check (negb (other_address (ex_ToAddress e) (et_ToAddress req))) (Failed "transfer does not match exemption template") in
  let* amount := lift_option (ParseUint (et_Amount req)) (Failed "invalid amount format") in
  let* maxAmount := lift_option (ParseUint (ex_MaxAmount e)) (Failed "invalid exemption configuration") in
  run* check (amount <=? maxAmount) (Failed "transfer amount exceeds exemption maximum") in
  let usage := currentUsage (rp_Usage p) (et_ExemptionId req) (et_FromAddress req) in
  run* check (usage <? ex_UsageLimit e) (Failed "exemption usage limit exceeded") in
  let* fromAddr := lift_option (AccAddressFromBech32 (et_FromAddress req)) (Failed "invalid from address") in
  let* toAddr := lift_option (AccAddressFromBech32 (et_ToAddress req)) (Failed "invalid to address") in
  let* coin := from_outcome (or_panic (NewCoin (et_Denom req) (i64 amount))) in
  let* coins := from_outcome (or_panic (NewCoins [coin])) in
  run* send_coins fromAddr toAddr coins in
  run* restrictions_SetParams (MkRestrictionParams (rp_RestrictionEndBlock p) (rp_Exemptions p)
    (count_use (rp_Usage p) (et_ExemptionId req) (et_FromAddress req))) in
  ret (u64 (ex_UsageLimit e - (usage + 1))).

(** [UpdateParams]; [authority] is the keeper's. *)
Definition restrictions_UpdateParams (authority : string) (req_authority : string) (p : RestrictionParams) : K unit :=
  run* check (bool_decide (authority = req_authority)) (Failed "invalid authority") in
  restrictions_SetParams p.

(** [CheckAndUnregisterRestriction], which [EndBlock] runs. *)
Definition CheckAndUnregisterRestriction : K unit :=
  let* s := get in
  if IsRestrictionActive s then ret tt
  else if rs_unregistered s then ret tt
  else modify set_rs_unregistered.

Definition restrictions_InitGenesis (p : RestrictionParams) : K unit := restrictions_SetParams p.
Definition restrictions_ExportGenesis s : RestrictionParams := restrictions_GetParams s.

(* ------------------------------------------------------------------ *)
(** ** Queries *)

(** The page of a query: its entries, the total, and whether there is more.  A slice
    whose end lies before its start panics. *)
Definition paginate {A} (pagination : option (Z * Z)) (l : list A) : outcome fault (list A * Z * bool) :=
  let totalLen := Z.of_nat (length l) in
  match pagination with
  | None => Ok (l, totalLen, false)
  | Some (offset, limit0) =>
      let limit := if limit0 =? 0 then 100 else limit0 in
      let more := u64 (offset + limit) <? totalLen in
      if totalLen <=? offset then Ok ([], totalLen, more)
      else
        let fin := if totalLen <? u64 (offset + limit) then totalLen else u64 (offset + limit) in
        if fin <? offset then Err Panicked
        else Ok (take (Z.to_nat (fin - offset)) (drop (Z.to_nat offset) l), totalLen, more)
  end.

Definition TransferExemptions s (includeExpired : bool) (pagination : option (Z * Z)) :=
  paginate pagination (filter (fun e => includeExpired || (currentHeight s <? ex_ExpiryBlock e) = true) (rp_Exemptions (restrictions_GetParams s))).
Definition ExemptionUsageQuery s (id acct : string) (pagination : option (Z * Z)) : outcome fault (list ExemptionUsage * Z * bool) :=
  run! ocheck (bool_decide (acct = "") || bool_decide (is_Some (AccAddressFromBech32 acct))) (Failed "invalid account address") in
  paginate pagination (filter (fun u => (id = "" \/ us_ExemptionId u = id) /\ (acct = "" \/ us_AccountAddress u = acct))
    (rp_Usage (restrictions_GetParams s))).

(** [TransferRestrictionStatus]: whether restrictions are active, the end block, the
    height and the blocks that remain. *)
Definition TransferRestrictionStatus s : bool * Z * Z * Z :=
  let height := currentHeight s in
  let fin := rp_RestrictionEndBlock (restrictions_GetParams s) in
  let isActive := height <? fin in
  (isActive, fin, height, if isActive then u64 (fin - height) else 0).

End Keeper.

(* ------------------------------------------------------------------ *)
(** ** What the restriction decides *)

Section Decision.
Context {B : Type} `{!AccAddressCodec} `{!CoinLib} `{!CoinsLib} `{!BankKeeper B}.
Abbreviation RS := (Restrictions B).
Implicit Types (s : RS) (from to : AccAddress) (amt : Coins) (e : EmergencyTransferExemption).

(** Exemption [e] admits a transfer of [amt].  The amounts of all denominations are
    added, as 64-bit integers. *)
Record admits s from to amt e : Prop := {
  ad_listed : e ∈ rp_Exemptions (restrictions_GetParams s);
  ad_height : currentHeight s < ex_ExpiryBlock e;
  ad_from : ex_FromAddress e = "*" \/ ex_FromAddress e = AccAddress_String from;
  ad_to : ex_ToAddress e = "*" \/ ex_ToAddress e = AccAddress_String to;
  ad_max : exists maxAmount, ParseUint (ex_MaxAmount e) = Some maxAmount /\ u64 (lsum cn_Amount amt) <= maxAmount;
  ad_usage : currentUsage (rp_Usage (restrictions_GetParams s)) (ex_ExemptionId e) (AccAddress_String from) < ex_UsageLimit e
}.

(** A transfer that is not restricted: restrictions have ended, or it pays fees or has a
    module as a party. *)
Definition unrestricted s from to : Prop :=
  rp_RestrictionEndBlock (restrictions_GetParams s) <= currentHeight s \/
  to = NewModuleAddress FeeCollectorName \/ is_module (rs_bank s) to = true \/ is_module (rs_bank s) from = true.

Definition permitted s from to amt : Prop := unrestricted s from to \/ exists e, admits s from to amt e.

(** Exemption [e] names the parties, is not expired and has an amount: the transfer's
    amount is looked at. *)
Record names s from to e : Prop := {
  nm_listed : e ∈ rp_Exemptions (restrictions_GetParams s);
  nm_height : currentHeight s < ex_ExpiryBlock e;
  nm_from : ex_FromAddress e = "*" \/ ex_FromAddress e = AccAddress_String from;
  nm_to : ex_ToAddress e = "*" \/ ex_ToAddress e = AccAddress_String to;
  nm_max : is_Some (ParseUint (ex_MaxAmount e))
}.

(** Amounts of 64 bits. *)
Definition fits amt : Prop := Forall (fun x => 0 <= cn_Amount x < 2 ^ 64) amt.
#[export] Instance fits_dec amt : Decision (fits amt).
Proof. unfold fits. apply _. Defined.

Lemma total_amount_ok amt : fits amt -> total_amount amt = Ok (u64 (lsum cn_Amount amt)).
Proof.
  unfold total_amount. intros Hfit. assert (forall acc, ofold (fun t x => let! n := Int_Uint64 (cn_Amount x) in Ok (u64 (t + n))) (u64 acc) amt
    = Ok (u64 (acc + lsum cn_Amount amt))) as Hgen; [|by apply (Hgen 0)].
  induction Hfit as [|x amt Hx _ IH]; intros acc; cbn [ofold]; [by rewrite Z.add_0_r|].
  unfold Int_Uint64. rewrite (proj2 (Z.leb_le _ _)), (proj2 (Z.ltb_lt _ _)) by lia. cbn [andb obind].
  replace (u64 (u64 acc + cn_Amount x)) with (u64 (acc + cn_Amount x)) by (unfold u64; by rewrite Zplus_mod_idemp_l).
  rewrite IH, lsum_cons. do 2 f_equal. lia.
Qed.

Lemma other_address_iff pattern addr : other_address pattern addr = false <-> pattern = "*" \/ pattern = addr.
Proof. unfold other_address. rewrite andb_false_iff, !negb_false_iff, !bool_decide_eq_true. done. Qed.

Lemma exemption_matches_iff s from to amt e : fits amt -> e ∈ rp_Exemptions (restrictions_GetParams s) ->
  exists r, exemption_matches (restrictions_GetParams s) (currentHeight s) (AccAddress_String from) (AccAddress_String to) amt e = Ok r /\
    (r = true <-> admits s from to amt e).
Proof.
  intros Hfit He. unfold exemption_matches. rewrite total_amount_ok by done.
  destruct (ex_ExpiryBlock e <=? _) eqn:Hh; boolify; [exists false; split; [done|]; split; [done|]; intros []; lia|].
  destruct (other_address (ex_FromAddress e) _) eqn:Hf; [exists false; split; [done|]; split; [done|]; intros []; by rewrite (proj2 (other_address_iff _ _)) in Hf|].
  destruct (other_address (ex_ToAddress e) _) eqn:Ht; [exists false; split; [done|]; split; [done|]; intros []; by rewrite (proj2 (other_address_iff _ _)) in Ht|].
  destruct (ParseUint (ex_MaxAmount e)) as [m|] eqn:Hm; [|exists false; split; [done|]; split; [done|]; intros [_ _ _ _ (m & Hm' & _) _]; congruence].
  cbn [obind]. destruct (m <? _) eqn:Hmax; boolify; [exists false; split; [done|]; split; [done|]; intros [_ _ _ _ (m' & Hm' & ?) _]; simplify_eq; lia|].
  destruct (ex_UsageLimit e <=? _) eqn:Hu; boolify; [exists false; split; [done|]; split; [done|]; intros []; lia|].
  exists true. split; [done|]. split; [|done]. intros _. split; [done|lia|by apply other_address_iff|by apply other_address_iff|by eexists|lia].
Qed.

Lemma MatchesEmergencyExemption_iff s from to amt : fits amt ->
  exists r, MatchesEmergencyExemption s from to amt = Ok r /\ (r = true <-> exists e, admits s from to amt e).
Proof.
  intros Hfit. unfold MatchesEmergencyExemption.
  assert (forall es, (forall e, e ∈ es -> e ∈ rp_Exemptions (restrictions_GetParams s)) -> exists r,
    matches_any (exemption_matches (restrictions_GetParams s) (currentHeight s) (AccAddress_String from) (AccAddress_String to) amt) es = Ok r /\
    (r = true <-> exists e, e ∈ es /\ admits s from to amt e)) as Hany.
  { intros es. induction es as [|e es IH]; intros Hes; cbn [matches_any].
    { exists false. split; [done|]. split; [done|]. by intros (e & He%elem_of_nil & _). }
    destruct (exemption_matches_iff s from to amt e Hfit (Hes e ltac:(set_solver))) as (r & -> & Hr). cbn [obind]. destruct r.
    - exists true. split; [done|]. split; [|done]. intros _. exists e. split; [set_solver|by apply Hr].
    - destruct IH as (r & -> & Hr'); [set_solver|]. exists r. split; [done|]. rewrite Hr'. split.
      + intros (e' & ? & ?). exists e'. split; [set_solver|done].
      + intros (e' & [->|?]%elem_of_cons & Ha); [by apply Hr in Ha|by exists e']. }
  destruct (Hany _ (fun e He => He)) as (r & Hr & Hiff). exists r. split; [done|]. rewrite Hiff. split.
  - intros (e & _ & He). by exists e.
  - intros (e & He). exists e. split; [apply He|done].
Qed.

Lemma total_amount_panics amt : ~ fits amt -> total_amount amt = Err Panicked.
Proof.
  unfold total_amount. generalize 0 as acc. induction amt as [|x amt IH]; intros acc Hfit; [destruct Hfit; constructor|]. cbn [ofold]. unfold Int_Uint64 at 1.
  destruct (_ && _) eqn:Hx; boolify; [|done]. cbn [obind]. apply IH. intros Hf. apply Hfit. by constructor.
Qed.

Lemma exemption_matches_panics s from to amt e : ~ fits amt -> e ∈ rp_Exemptions (restrictions_GetParams s) ->
  (names s from to e /\ exemption_matches (restrictions_GetParams s) (currentHeight s) (AccAddress_String from) (AccAddress_String to) amt e = Err Panicked) \/
  (~ names s from to e /\ exemption_matches (restrictions_GetParams s) (currentHeight s) (AccAddress_String from) (AccAddress_String to) amt e = Ok false).
Proof.
  intros Hfit He. unfold exemption_matches. rewrite total_amount_panics by done.
  destruct (ex_ExpiryBlock e <=? _) eqn:Hh; boolify; [right; split; [intros []; lia|done]|].
  destruct (other_address (ex_FromAddress e) _) eqn:Hf; [right; split; [intros []; by rewrite (proj2 (other_address_iff _ _)) in Hf|done]|].
  destruct (other_address (ex_ToAddress e) _) eqn:Ht; [right; split; [intros []; by rewrite (proj2 (other_address_iff _ _)) in Ht|done]|].
  apply other_address_iff in Hf, Ht. destruct (ParseUint (ex_MaxAmount e)) as [m|] eqn:Hm; [left|right].
  - split; [|done]. split; [done|lia|done|done|by rewrite Hm].
  - split; [|done]. intros [_ _ _ _ Hs]. rewrite Hm in Hs. by destruct Hs.
Qed.

Lemma MatchesEmergencyExemption_panics s from to amt : ~ fits amt ->
  ((exists e, names s from to e) /\ MatchesEmergencyExemption s from to amt = Err Panicked) \/
  (~ (exists e, names s from to e) /\ MatchesEmergencyExemption s from to amt = Ok false).
Proof.
  intros Hfit. unfold MatchesEmergencyExemption. set (f := exemption_matches _ _ _ _ _).
  assert (forall es, (forall e, e ∈ es -> e ∈ rp_Exemptions (restrictions_GetParams s)) ->
    ((exists e, e ∈ es /\ names s from to e) /\ matches_any f es = Err Panicked) \/
    (~ (exists e, e ∈ es /\ names s from to e) /\ matches_any f es = Ok false)) as Hany.
  { intros es. induction es as [|e es IH]; intros Hes; cbn [matches_any]; [right; split; [by intros (e & He%elem_of_nil & _)|done]|].
    destruct (exemption_matches_panics s from to amt e Hfit (Hes e ltac:(by left))) as [[Hn Hrun]|[Hn Hrun]]; unfold f at 1 3; rewrite Hrun; cbn [obind].
    - left. split; [|done]. exists e. split; [by left|done].
    - destruct IH as [[(e' & He' & Hn') ->]|[Hno ->]]; [intros e' He'; apply Hes; by right| |].
      + left. split; [|done]. exists e'. split; [by right|done].
      + right. split; [|done]. intros (e' & [->|He']%elem_of_cons & Hn'); [done|]. apply Hno. by exists e'. }
  destruct (Hany _ (fun e He => He)) as [[(e & _ & He) Hr]|[Hno Hr]]; [left|right]; (split; [|done]).
  - by exists e.
  - intros (e & He). apply Hno. exists e. split; [apply He|done].
Qed.

Lemma unrestricted_cases s from to amt : 
  (unrestricted s from to /\ SendRestrictionFn s from to amt = Ok to) \/
  (~ unrestricted s from to /\ SendRestrictionFn s from to amt =
    let! matched := MatchesEmergencyExemption s from to amt in if (matched : bool) then Ok to else Err ErrTransferRestricted).
Proof.
  unfold SendRestrictionFn, unrestricted, IsRestrictionActive, IsGasFeePayment, IsModuleAccount.
  destruct (currentHeight s <? _) eqn:Hact; boolify; cbn [negb]; [|left; auto].
  case_bool_decide; [left; auto|]. destruct (is_module (rs_bank s) to); [left; auto|].
  destruct (is_module (rs_bank s) from); [left; auto 6|]. right. split; [|done]. intros [?|[?|[?|?]]]; [lia|done..].
Qed.

(** An amount of 64 bits is decided, and never panics. *)
Lemma restriction_cases s from to amt : fits amt ->
  (SendRestrictionFn s from to amt = Ok to /\ permitted s from to amt) \/
  (SendRestrictionFn s from to amt = Err ErrTransferRestricted /\ ~ permitted s from to amt).
Proof.
  intros Hfit. unfold permitted. destruct (unrestricted_cases s from to amt) as [[Hu ->]|[Hu ->]]; [left; auto|].
  destruct (MatchesEmergencyExemption_iff s from to amt Hfit) as ([|] & -> & Hr); cbn [obind].
  - left. split; [done|]. right. by apply Hr.
  - right. split; [done|]. intros [He|He]; [done|]. by apply Hr in He.
Qed.
Lemma permitted_ok s from to amt : fits amt -> SendRestrictionFn s from to amt = Ok to <-> permitted s from to amt.
Proof. intros Hfit. destruct (restriction_cases s from to amt Hfit) as [[-> ?]|[-> ?]]; split; done. Qed.

(** C28: what the bank's restriction answers, for any transfer.  It admits the transfer
    exactly when the restrictions have ended, the recipient is the fee collector or a
    module, the sender is a module, or every amount is an unsigned 64-bit integer and
    some exemption that has not expired and is not used up names both parties and allows
    the sum of the amounts, taken modulo 2^64 over all denominations.  It panics exactly
    when the transfer is restricted, some amount does not fit in 64 bits, and an
    exemption that has not expired and has a valid maximum names both parties.  It
    refuses every other transfer with [ErrTransferRestricted], and never redirects one. *)
Theorem transfer_decided s from to amt :
  (SendRestrictionFn s from to amt = Ok to <-> unrestricted s from to \/ fits amt /\ exists e, admits s from to amt e) /\
  (SendRestrictionFn s from to amt = Err Panicked <-> ~ unrestricted s from to /\ ~ fits amt /\ exists e, names s from to e) /\
  (SendRestrictionFn s from to amt = Ok to \/ SendRestrictionFn s from to amt = Err Panicked \/
   SendRestrictionFn s from to amt = Err ErrTransferRestricted).
Proof.
  assert (Err ErrTransferRestricted <> Err Panicked :> outcome fault AccAddress) by done.
  destruct (decide (fits amt)) as [Hfit|Hfit].
  - destruct (restriction_cases s from to amt Hfit) as [[-> Hok]|[-> Hno]]; unfold permitted in *; (split; [|split; [|auto]]); split; try done; tauto.
  - destruct (unrestricted_cases s from to amt) as [[Hu ->]|[Hu ->]]; [split; [tauto|split; [split; [done|tauto]|auto]]|].
    destruct (MatchesEmergencyExemption_panics s from to amt Hfit) as [[Hn ->]|[Hn ->]]; cbn [obind]; (split; [|split; [|auto]]); split; try done; tauto.
Qed.

Lemma SendRestrictionFn_to s from to to' amt : SendRestrictionFn s from to amt = Ok to' -> to' = to.
Proof. unfold SendRestrictionFn, obind. repeat step_goal; congruence. Qed.

(** The restriction keeps its promise to the modules. *)
#[export] Instance restriction_permits s : ModulesPermitted (restriction s).
Proof.
  split.
  - intros b from to to' amt. apply SendRestrictionFn_to.
  - intros b from to amt Hm. unfold restriction, SendRestrictionFn, IsModuleAccount. cbn [rs_bank set_rs_bank].
    destruct (negb _); [done|]. destruct (IsGasFeePayment to); [done|]. destruct (is_module b to); [done|].
    by destruct Hm as [->|?].
Qed.

End Decision.

(* ------------------------------------------------------------------ *)
(** ** Emergency transfers *)

Section Usage.
Implicit Types (us : list ExemptionUsage) (id acct : string).

Lemma find_usage_cons u us id acct : find_usage (u :: us) id acct =
  if decide (us_ExemptionId u = id /\ us_AccountAddress u = acct) then Some (O, u) else prod_map S (fun x => x) <$> find_usage us id acct.
Proof. done. Qed.

Lemma currentUsage_cons u us id acct : currentUsage (u :: us) id acct =
  if decide (us_ExemptionId u = id /\ us_AccountAddress u = acct) then us_UsageCount u else currentUsage us id acct.
Proof. unfold currentUsage. rewrite find_usage_cons. destruct (decide _); [done|]. by destruct (find_usage us id acct) as [[]|]. Qed.

Lemma count_use_head u us : count_use (u :: us) (us_ExemptionId u) (us_AccountAddress u) =
  MkUsage (us_ExemptionId u) (us_AccountAddress u) (u64 (us_UsageCount u + 1)) :: us.
Proof. unfold count_use. by rewrite find_usage_cons, decide_True. Qed.

Lemma count_use_cons u us id acct : ~ (us_ExemptionId u = id /\ us_AccountAddress u = acct) ->
  count_use (u :: us) id acct = u :: count_use us id acct.
Proof.
  intros Hu. unfold count_use. rewrite find_usage_cons, decide_False by done. by destruct (find_usage us id acct) as [[]|].
Qed.

(** Counting a use adds one to the count of that exemption and account. *)
Lemma count_use_usage us id acct id' acct' :
  currentUsage (count_use us id acct) id' acct' =
    if decide (id = id' /\ acct = acct') then u64 (currentUsage us id acct + 1) else currentUsage us id' acct'.
Proof.
  induction us as [|u us IH].
  { change (count_use [] id acct) with [MkUsage id acct 1]. rewrite currentUsage_cons. by destruct (decide _). }
  destruct (decide (us_ExemptionId u = id /\ us_AccountAddress u = acct)) as [[<- <-]|Hu].
  - rewrite count_use_head, !currentUsage_cons. cbn [us_ExemptionId us_AccountAddress us_UsageCount].
    rewrite (decide_True (P := us_ExemptionId u = us_ExemptionId u /\ _)) by done. by destruct (decide _).
  - rewrite count_use_cons, !currentUsage_cons, IH by done. rewrite (decide_False (P := us_ExemptionId u = id /\ _)) by done.
    destruct (decide (us_ExemptionId u = id' /\ us_AccountAddress u = acct')) as [[<- <-]|]; [|done].
    rewrite decide_False; [done|]. naive_solver.
Qed.
End Usage.

Section Emergency.
Context {B : Type} `{!AccAddressCodec} `{!CoinLib} `{!CoinsLib} `{!CoinLaws} `{!CoinsLaws} `{!BankKeeper B} `{!BankLaws B}.
Abbreviation RS := (Restrictions B).
Implicit Types (s : RS) (from to : AccAddress) (amt : Coins) (e : EmergencyTransferExemption) (id acct : string).

Definition exemption_of s id : option EmergencyTransferExemption :=
  snd <$> list_find (fun e => ex_ExemptionId e = id) (rp_Exemptions (restrictions_GetParams s)).
Definition usage s id acct : Z := currentUsage (rp_Usage (restrictions_GetParams s)) id acct.

(** An emergency transfer of [n] coins under [e] that went through. *)
Record transferred s (req : MsgExecuteEmergencyTransfer) e from to n s' (remaining : Z) : Prop := {
  tr_exemption : exemption_of s (et_ExemptionId req) = Some e;
  tr_unexpired : bank_Height (rs_bank s) <= i64 (ex_ExpiryBlock e);
  tr_from : ex_FromAddress e = "*" \/ ex_FromAddress e = et_FromAddress req;
  tr_to : ex_ToAddress e = "*" \/ ex_ToAddress e = et_ToAddress req;
  tr_amount : exists maxAmount, ParseUint (et_Amount req) = Some n /\ ParseUint (ex_MaxAmount e) = Some maxAmount /\ n <= maxAmount /\ n < 2 ^ 63;
  tr_left : usage s (et_ExemptionId req) (et_FromAddress req) < ex_UsageLimit e;
  tr_moved : exists coins, moved (rs_bank s) (rs_bank s') from to coins /\ permitted s from to coins /\
    forall d, amount coins d = if bool_decide (et_Denom req = d) then n else 0;
  tr_usage : rp_Usage (restrictions_GetParams s') = count_use (rp_Usage (restrictions_GetParams s)) (et_ExemptionId req) (et_FromAddress req);
  tr_rest : rp_Exemptions (restrictions_GetParams s') = rp_Exemptions (restrictions_GetParams s) /\
    rp_RestrictionEndBlock (restrictions_GetParams s') = rp_RestrictionEndBlock (restrictions_GetParams s);
  tr_remaining : remaining = u64 (ex_UsageLimit e - (usage s (et_ExemptionId req) (et_FromAddress req) + 1))
}.

Lemma send_coins_wp s from to amt : fits amt ->
  wp (send_coins from to amt) (ok_or False (fun s' _ => exists b, s' = set_rs_bank b s /\ moved (rs_bank s) b from to amt /\ permitted s from to amt)) s.
Proof.
  intros Hfit. unfold wp, send_coins. destruct (bank_SendCoins _ _ _ _ _) as [b [[]|e]] eqn:Hs; cbn; [|tauto].
  apply send_moved in Hs as (_ & _ & to' & Hr & Hm). unfold restriction in Hr. replace (set_rs_bank (rs_bank s) s) with s in Hr by (by destruct s).
  pose proof (SendRestrictionFn_to _ _ _ _ _ Hr). subst to'. apply permitted_ok in Hr; [|done]. by exists b.
Qed.

Lemma emergency_wp s req :
  wp (ExecuteEmergencyTransfer req) (ok_or False (fun s' remaining => exists e from to n,
    AccAddressFromBech32 (et_FromAddress req) = Some from /\ AccAddressFromBech32 (et_ToAddress req) = Some to /\
    transferred s req e from to n s' remaining)) s.
Proof.
  unfold ExecuteEmergencyTransfer. wp_step. apply wp_get. cbv beta iota. wp_succeed. destruct v as [i e].
  wp_succeed. wp_succeed. wp_succeed. wp_succeed. rename v into n. wp_succeed. rename v into m. wp_succeed. wp_succeed.
  wp_succeed. rename v into from. wp_succeed. rename v into to. boolify.
  wp_step. apply wp_from; [|intros; cbn; tauto]. intros x Hx. cbv beta iota. wp_step. apply wp_from; [|intros; cbn; tauto]. intros coins Hcoins.
  cbv beta iota. unfold or_panic in Hx, Hcoins. destruct (NewCoin _ _) eqn:Hnew in Hx; [|discriminate]. injection Hx as ->.
  apply new_coin in Hnew as (-> & Hden & Hpos). pose proof (ParseUint_range _ _ Hopt0) as Hn.
  destruct (i64_nonneg n Hn Hpos) as [Hsmall Hi]. rewrite Hi in *.
  rewrite new_one in Hcoins by (done || (split; [lia|by apply small_int])). injection Hcoins as <-.
  set (coins := if n =? 0 then [] else [MkCoin (et_Denom req) n]).
  assert (fits coins) as Hfit. { unfold fits, coins. destruct (n =? 0); repeat constructor; cbn; lia. }
  wp_step. eapply wp_mono; [exact (send_coins_wp s from to coins Hfit)|]. intros s1 [[]|err]; cbn [ok_or]; [|tauto].
  intros (b & -> & Hmoved & Hperm). cbv beta iota. unfold restrictions_SetParams. wp_step. wp_step. wp_step. cbn [ok_or].
  exists e, from, to, n. split; [done|]. split; [done|]. split; try done.
  - unfold exemption_of. by rewrite Hopt.
  - by apply other_address_iff.
  - by apply other_address_iff.
  - exists m. split_and!; done || lia.
  - exists coins. split; [exact Hmoved|]. split; [done|]. intros d. unfold coins. destruct (Z.eqb_spec n 0) as [->|]; [by case_bool_decide|].
    rewrite amount_cons. cbn. by rewrite Z.add_0_r.
Qed.

(** [k] transfers of the same coins, each a message of the bank. *)
Definition direct_sends from to amt (k : nat) : GoM RS fault unit := mfold (fun _ _ => send_coins from to amt) tt (replicate k tt).

(** What the module is called with while its parameters are not updated. *)
Inductive RestrictionEvent :=
| RvEmergency (req : MsgExecuteEmergencyTransfer)
| RvSend (from to : AccAddress) (amt : Coins)
| RvEndBlock
| RvOther (b : B).
Definition restr_apply (ev : RestrictionEvent) s : RS :=
  match ev with
  | RvEmergency req => (cached (ExecuteEmergencyTransfer req) s).1
  | RvSend from to amt => (cached (send_coins from to amt) s).1
  | RvEndBlock => (CheckAndUnregisterRestriction s).1
  | RvOther b => set_rs_bank b s
  end.
Definition restr_run (evs : list RestrictionEvent) s : RS := fold_left (fun s ev => restr_apply ev s) evs s.

(** How often [acct] transferred under exemption [id]. *)
Definition used (ev : RestrictionEvent) s id acct : Z :=
  match ev with
  | RvEmergency req =>
      if decide (et_ExemptionId req = id /\ et_FromAddress req = acct)
      then match (ExecuteEmergencyTransfer req s).2 with Ok _ => 1 | Err _ => 0 end else 0
  | _ => 0
  end.
Fixpoint total_used (evs : list RestrictionEvent) s id acct : Z :=
  match evs with [] => 0 | ev :: evs' => used ev s id acct + total_used evs' (restr_apply ev s) id acct end.

(** What an event does to the usage of an exemption. *)
Record metered s id acct e ev : Prop := {
  mt_exemption : exemption_of (restr_apply ev s) id = exemption_of s id;
  mt_usage : usage (restr_apply ev s) id acct = usage s id acct + used ev s id acct;
  mt_limit : usage s id acct + used ev s id acct <= ex_UsageLimit e
}.

Lemma same_params_metered s id acct e ev : rs_params (restr_apply ev s) = rs_params s -> used ev s id acct = 0 ->
  usage s id acct <= ex_UsageLimit e -> metered s id acct e ev.
Proof.
  intros Hp Hused Hle. split; rewrite ?Hused, ?Z.add_0_r; [|..|done]; unfold exemption_of, usage, restrictions_GetParams; by rewrite Hp.
Qed.

Lemma event_metered s id acct e ev : exemption_of s id = Some e -> is_u64 (ex_UsageLimit e) ->
  0 <= usage s id acct <= ex_UsageLimit e -> metered s id acct e ev.
Proof.
  intros He Hlim Hu. destruct ev as [req|from to amt| |b]; cbn [restr_apply].
  - pose proof (emergency_wp s req) as Hwp. unfold wp in Hwp.
    destruct (ExecuteEmergencyTransfer req s) as [s' [remaining|err]] eqn:Hrun; cbn [ok_or] in Hwp.
    2:{ apply same_params_metered; [|..|lia]; [|cbn [used]]; cbn [restr_apply]; unfold cached; rewrite Hrun; [done|]. by destruct (decide _). }
    destruct Hwp as (e' & from & to & n & _ & _ & Htr).
    assert (restr_apply (RvEmergency req) s = s') as Hs' by (cbn [restr_apply]; unfold cached; by rewrite Hrun).
    assert (exemption_of s' id = exemption_of s id) as He' by (unfold exemption_of; by rewrite (proj1 (tr_rest _ _ _ _ _ _ _ _ Htr))).
    assert (usage s' id acct = if decide (et_ExemptionId req = id /\ et_FromAddress req = acct) then u64 (usage s id acct + 1) else usage s id acct) as Hu'.
    { unfold usage at 1. rewrite (tr_usage _ _ _ _ _ _ _ _ Htr), count_use_usage. destruct (decide _) as [[-> ->]|]; done. }
    split; unfold used; rewrite ?Hs', ?Hrun; [done|..]; cbn [snd].
    + rewrite Hu'. destruct (decide _) as [[<- <-]|]; [|lia]. apply u64_small. pose proof (tr_exemption _ _ _ _ _ _ _ _ Htr).
      pose proof (tr_left _ _ _ _ _ _ _ _ Htr). simplify_eq. unfold is_u64 in *. lia.
    + destruct (decide _) as [[<- <-]|]; [|lia]. pose proof (tr_exemption _ _ _ _ _ _ _ _ Htr). pose proof (tr_left _ _ _ _ _ _ _ _ Htr). simplify_eq. lia.
  - apply same_params_metered; [|done|lia]. cbn [restr_apply]. unfold cached, send_coins. by destruct (bank_SendCoins _ _ _ _ _) as [b [[]|]].
  - apply same_params_metered; [|done|lia]. cbn [restr_apply]. unfold CheckAndUnregisterRestriction, bind, get.
    destruct (IsRestrictionActive s); [done|]. by destruct (rs_unregistered s).
  - by apply same_params_metered; [..|lia].
Qed.

(** C30: While governance leaves the exemptions alone, the usage that the module records
    is exactly the number of emergency transfers that went through, and never exceeds
    the exemption's limit. *)
Theorem emergency_uses_limited evs s id acct e : exemption_of s id = Some e -> is_u64 (ex_UsageLimit e) ->
  0 <= usage s id acct <= ex_UsageLimit e ->
  usage (restr_run evs s) id acct = usage s id acct + total_used evs s id acct /\ usage (restr_run evs s) id acct <= ex_UsageLimit e.
Proof.
  intros He Hlim. revert s He. induction evs as [|ev evs IH]; intros s He Hu; [cbn; lia|].
  destruct (event_metered s id acct e ev He Hlim Hu) as [He' Hu' Hle]. cbn [total_used]. unfold restr_run in *. cbn [fold_left].
  assert (0 <= used ev s id acct). { destruct ev; cbn; [|lia..]. destruct (decide _); [|lia]. destruct (_.2); lia. }
  destruct (IH (restr_apply ev s)); [congruence|lia|]. lia.
Qed.

(** C38: An exemption does not limit how often ordinary bank transfers may use it: a
    transfer that an exemption admits can be repeated for as long as the sender has
    coins, whatever the usage limit, and none of them is counted. *)
Theorem exempt_sends_unmetered s from to amt e k : admits s from to amt e -> fits amt -> Coins_IsValid amt = true ->
  from <> to -> bank_ok (rs_bank s) -> (forall d, Z.of_nat k * amount amt d <= Spendable (rs_bank s) from d) ->
  exists s', direct_sends from to amt k s = (s', Ok tt) /\ rs_params s' = rs_params s /\
    forall a d, GetBalance (rs_bank s') a d = GetBalance (rs_bank s) a d +
      (if bool_decide (a = to) then Z.of_nat k * amount amt d else 0) - (if bool_decide (a = from) then Z.of_nat k * amount amt d else 0).
Proof.
  intros Ha Hfit Hv Hne. revert s Ha. induction k as [|k IH]; intros s Ha Hok Hsp.
  { exists s. split; [done|]. split; [done|]. intros a d. repeat case_bool_decide; lia. }
  assert (forall d, 0 <= amount amt d) as Hnn by (intros; by apply amount_nonneg).
  assert (SendRestrictionFn s from to amt = Ok to) as Hr. { apply permitted_ok; [done|]. right. by exists e. }
  replace s with (set_rs_bank (rs_bank s) s) in Hr at 1 by (by destruct s).
  destruct (send_done (restriction s) from to to amt (rs_bank s)) as [b Hb]; [done..| |].
  { intros d. specialize (Hsp d). specialize (Hnn d). lia. }
  pose proof Hb as (_ & _ & to' & Hto' & Hm)%send_moved. apply restrict_keeps in Hto' as ->. destruct (mv_same _ _ _ _ _ Hm) as [Hheight _ Hbok].
  destruct (IH (set_rs_bank b s)) as (s' & Hrun & Hp & Hbal).
  - destruct Ha as [? Hh ? ? ? ?]. split; try done. unfold currentHeight in *. cbn. by rewrite Hheight.
  - by apply Hbok.
  - intros d. cbn [rs_bank set_rs_bank]. rewrite (mv_spend _ _ _ _ _ Hm) by done. specialize (Hsp d). lia.
  - exists s'. split; [|split; [by rewrite Hp|]].
    + unfold direct_sends. cbn [replicate mfold]. rewrite (bind_run _ _ s (set_rs_bank b s) tt); [exact Hrun|]. unfold send_coins. by rewrite Hb.
    + intros a d. rewrite Hbal. cbn [rs_bank set_rs_bank]. rewrite (mv_balance _ _ _ _ _ Hm). repeat case_bool_decide; lia.
Qed.

End Emergency.
