(* ===== verification/Bookkeeper.v ===== *)
(** * The bookkeeper

    inference-chain/x/bookkeeper/keeper/keeper.go: the module through which the other
    modules move coins.  Each of its operations calls the bank and then writes one or two
    lines to an audit log.  The record [Book] is the bank and the log so far.

    The log is a list of structured lines; the width and order of the printed fields are
    not modelled, the truncation of names in simple lines ([fixedSize]) is. *)

From Stdlib Require Import Ascii.
From S2P Require Import Prelude.
From S2P Require Import GoStd.
From S2P Require Import ChainStore.
From S2P Require Import ChainCoins.
From S2P Require Import ChainBank.
Open Scope Z_scope.
Open Scope go_scope.

(** [LogConfig] *)
Record LogConfig := MkLogConfig { DoubleEntry : bool; SimpleEntry : bool; lc_LogLevel : string }.

Inductive LogLevel := LevelInfo | LevelDebug | LevelError | LevelWarn.
Definition getLogFunction (level : string) : LogLevel :=
  let l := ToLower level in
  if bool_decide (l = "info") then LevelInfo
  else if bool_decide (l = "debug") then LevelDebug
  else if bool_decide (l = "error") then LevelError
  else if bool_decide (l = "warn") then LevelWarn
  else LevelInfo.

(** A line of double entries, and the two kinds of simple lines. *)
Inductive LogLine :=
| TransactionAudit (level : LogLevel) (type account counteraccount : string) (amount : Z) (denom memo : string) (signedAmount height : Z)
| TransactionEntry (level : LogLevel) (to from : string) (amount : Z) (denom : string) (height : Z) (memo : string)
| SubAccountEntry (level : LogLevel) (to from : string) (amount : Z) (denom : string) (height : Z) (memo subaccount : string).

Definition fixedSize (to : string) (size : nat) : string :=
  if (size <? String.length to)%nat then String.substring 0 size to else to +:+ spaces (size - String.length to).

Record Book (B : Type) := MkBook { bk_bank : B; bk_log : list LogLine }.
Arguments MkBook {B}.
Arguments bk_bank {B}.
Arguments bk_log {B}.

Section Keeper.
Context {B : Type} `{!AccAddressCodec} `{!BankKeeper B}.
Context (logConfig : LogConfig) (restrict : Restriction B).
Abbreviation K := (GoM (Book B) fault).

Definition on_book (f : B -> B * outcome fault unit) : K unit :=
  fun s => let '(b, r) := f (bk_bank s) in (MkBook b (bk_log s), r).
Definition write (lines : list LogLine) : K unit := modify (fun s => MkBook (bk_bank s) (bk_log s ++ lines)).

Definition logTransaction (to from : string) (coin : Coin) (memo subAccount : string) : K unit :=
  if cn_Amount coin =? 0 then ret tt
  else
    let* height := reads (fun s => bank_Height (bk_bank s)) in
    let level := getLogFunction (lc_LogLevel logConfig) in
    let* amount := from_outcome (Int_Int64 (cn_Amount coin)) in
    run* (if DoubleEntry logConfig
          then write [TransactionAudit level "debit" to from amount (cn_Denom coin) memo amount height;
                      TransactionAudit level "credit" from to amount (cn_Denom coin) memo (i64 (- amount)) height]
          else ret tt) in
    if SimpleEntry logConfig
    then write [if bool_decide (subAccount = "")
                then TransactionEntry level (fixedSize to 64) (fixedSize from 64) amount (cn_Denom coin) height memo
                else SubAccountEntry level (fixedSize to 64) (fixedSize from 64) amount (cn_Denom coin) height memo subAccount]
    else ret tt.

Definition log_coins (to from : string) (amt : Coins) (memo : string) : K unit :=
  mfold (fun _ coin => logTransaction to from coin memo "") tt amt.

Definition SendCoins (fromAddr toAddr : AccAddress) (amt : Coins) (memo : string) : K unit :=
  run* on_book (bank_SendCoins restrict fromAddr toAddr amt) in
  log_coins (AccAddress_String toAddr) (AccAddress_String fromAddr) amt memo.
Definition SendCoinsFromModuleToAccount (senderModule : string) (recipientAddr : AccAddress) (amt : Coins) (memo : string) : K unit :=
  run* on_book (bank_SendCoinsFromModuleToAccount restrict senderModule recipientAddr amt) in
  log_coins (AccAddress_String recipientAddr) senderModule amt memo.
Definition SendCoinsFromModuleToModule (senderModule recipientModule : string) (amt : Coins) (memo : string) : K unit :=
  run* on_book (bank_SendCoinsFromModuleToModule restrict senderModule recipientModule amt) in
  log_coins recipientModule senderModule amt memo.
Definition SendCoinsFromAccountToModule (senderAddr : AccAddress) (recipientModule : string) (amt : Coins) (memo : string) : K unit :=
  run* on_book (bank_SendCoinsFromAccountToModule restrict senderAddr recipientModule amt) in
  log_coins recipientModule (AccAddress_String senderAddr) amt memo.
Definition MintCoins (moduleName : string) (amt : Coins) (memo : string) : K unit :=
  if Coins_IsZero amt then ret tt
  else
    run* on_book (bank_MintCoins moduleName amt) in
    log_coins moduleName "supply" amt memo.
Definition BurnCoins (moduleName : string) (amt : Coins) (memo : string) : K unit :=
  if Coins_IsZero amt then ret tt
  else
    run* on_book (bank_BurnCoins moduleName amt) in
    log_coins "supply" moduleName amt memo.
Definition LogSubAccountTransaction (recipient sender subAccount : string) (amt : Coin) (memo : string) : K unit :=
  logTransaction (recipient +:+ "_" +:+ subAccount) (sender +:+ "_" +:+ subAccount) amt memo subAccount.

(** One call of the bookkeeper. *)
Inductive BookCall :=
| CallSend (from to : AccAddress) (amt : Coins) (memo : string)
| CallModuleToAccount (m : string) (a : AccAddress) (amt : Coins) (memo : string)
| CallModuleToModule (m m' : string) (amt : Coins) (memo : string)
| CallAccountToModule (a : AccAddress) (m : string) (amt : Coins) (memo : string)
| CallMint (m : string) (amt : Coins) (memo : string)
| CallBurn (m : string) (amt : Coins) (memo : string)
| CallSub (recipient sender sub : string) (coin : Coin) (memo : string).
Definition book_call (x : BookCall) : K unit :=
  match x with
  | CallSend from to amt memo => SendCoins from to amt memo
  | CallModuleToAccount m a amt memo => SendCoinsFromModuleToAccount m a amt memo
  | CallModuleToModule m m' amt memo => SendCoinsFromModuleToModule m m' amt memo
  | CallAccountToModule a m amt memo => SendCoinsFromAccountToModule a m amt memo
  | CallMint m amt memo => MintCoins m amt memo
  | CallBurn m amt memo => BurnCoins m amt memo
  | CallSub recipient sender sub coin memo => LogSubAccountTransaction recipient sender sub coin memo
  end.
End Keeper.

(* ------------------------------------------------------------------ *)
(** ** What a transfer does, whatever is logged *)

Section Transfers.
Context {B : Type} `{!AccAddressCodec} `{!CoinLib} `{!CoinsLib} `{!BankKeeper B} `{!BankLaws B}.
Context (logConfig : LogConfig) (restrict : Restriction B) `{!ModulesPermitted restrict}.
Implicit Types (s : Book B) (amt : Coins).

Lemma log_keeps_bank to from coin memo sub : keeps bk_bank eq (logTransaction logConfig to from coin memo sub).
Proof. unfold logTransaction, write. repeat keeps_step; done. Qed.

(** An amount that a line of the log can hold. *)
Definition loggable (x : Coin) : Prop := - 2 ^ 63 <= cn_Amount x < 2 ^ 63.
Lemma log_done to from coin memo sub s : loggable coin ->
  exists s', logTransaction logConfig to from coin memo sub s = (s', Ok tt) /\ bk_bank s' = bk_bank s.
Proof.
  intros Hx. unfold logTransaction, Int_Int64, loggable in *. destruct (cn_Amount coin =? 0); [by exists s|].
  rewrite (proj2 (Z.leb_le _ _)), (proj2 (Z.ltb_lt _ _)) by lia. unfold write. destruct (DoubleEntry logConfig), (SimpleEntry logConfig); eexists; split; done.
Qed.

Lemma log_coins_done to from amt memo s : Forall loggable amt ->
  exists s', log_coins logConfig to from amt memo s = (s', Ok tt) /\ bk_bank s' = bk_bank s.
Proof.
  unfold log_coins. intros Hf. revert s. induction Hf as [|x amt Hx _ IH]; intros s; [by exists s|]. cbn [mfold].
  destruct (log_done to from x memo "" s Hx) as (s1 & Hs1 & Hb1). destruct (IH s1) as (s2 & Hs2 & Hb2).
  exists s2. split; [|congruence]. by rewrite (bind_run _ _ s s1 tt).
Qed.

(** The outcome of a transfer by way of the bookkeeper. *)
Lemma booked_wp from to x y amt memo (f : B -> B * outcome fault unit) s : f (bk_bank s) = bank_SendCoins restrict from to amt (bk_bank s) ->
  wp (run* on_book f in log_coins logConfig y x amt memo)
    (ok_or False (fun s' _ => Coins_IsValid amt = true /\ moved (bk_bank s) (bk_bank s') from to amt)) s.
Proof.
  intros Hf. apply wp_bind. unfold wp, on_book. rewrite Hf. destruct (bank_SendCoins _ _ _ _ _) as [b [[]|]] eqn:Hs; [|cbn; tauto].
  apply send_moved in Hs as (Hv & _ & to' & Hto & Hm). apply restrict_keeps in Hto as ->.
  assert (keeps bk_bank eq (log_coins logConfig y x amt memo)) as Hk by (unfold log_coins; repeat keeps_step; apply log_keeps_bank).
  destruct (log_coins _ _ _ _ _ _) as [s' [[]|]] eqn:Hl; [|cbn; tauto]. apply Hk in Hl. cbn in Hl |- *. by rewrite <-Hl.
Qed.

(** A transfer that goes through: the sender is a module, or the recipient is, and the
    sender has the coins. *)
Lemma booked_done from to x y amt memo (f : B -> B * outcome fault unit) s : f (bk_bank s) = bank_SendCoins restrict from to amt (bk_bank s) ->
  bank_ok (bk_bank s) -> is_module (bk_bank s) from = true -> Coins_IsValid amt = true ->
  (forall d, amount amt d <= GetBalance (bk_bank s) from d) -> Forall loggable amt ->
  exists s', (run* on_book f in log_coins logConfig y x amt memo) s = (s', Ok tt) /\ moved (bk_bank s) (bk_bank s') from to amt.
Proof.
  intros Hf Hok Hmod Hv Hbal Hlog. destruct (send_done restrict from to to amt (bk_bank s)) as [b Hs];
    [done|apply restrict_module; by left|done|intros d; by rewrite spend_module|].
  destruct (log_coins_done y x amt memo (MkBook b (bk_log s)) Hlog) as (s' & Hl & Hb). exists s'. split.
  - unfold bind at 1, on_book. by rewrite Hf, Hs.
  - apply send_moved in Hs as (_ & _ & to' & Hto & Hm). apply restrict_keeps in Hto as ->. by rewrite Hb.
Qed.
End Transfers.

(* ------------------------------------------------------------------ *)
(** ** The log as a journal of double entries *)

Section Journal.
Context {B : Type} `{!AccAddressCodec} `{!BankKeeper B}.
Implicit Types (b : B) (a : AccAddress) (d : string) (amt : Coins).

(** The account that a name in the log stands for: a module's, or the address itself. *)
Definition denotes (name : string) : option AccAddress :=
  if has_module name then Some (NewModuleAddress name) else AccAddressFromBech32 name.

(** The sum of the signed amounts of [d] over the lines whose account satisfies [P]. *)
Definition line_sum (P : string -> bool) d (l : LogLine) : Z :=
  match l with
  | TransactionAudit _ _ account _ _ denom _ signedAmount _ => if P account && bool_decide (denom = d) then signedAmount else 0
  | _ => 0
  end.
Definition journal (P : string -> bool) d (log : list LogLine) : Z := lsum (line_sum P d) log.

(** The lines of [log] balance, and account for the change from [b] to [b']. *)
Record accounts_for b b' (log : list LogLine) : Prop := {
  af_balanced : forall d, journal (fun _ => true) d log = 0;
  af_accounts : forall a d, GetBalance b' a d = GetBalance b a d + journal (fun x => bool_decide (denotes x = Some a)) d log;
  af_supply : forall d, GetSupply b' d = GetSupply b d - journal (fun x => bool_decide (x = "supply")) d log
}.

(** The names that a call logs are those of the accounts it is about; those of
    sub-accounts are none. *)
Definition call_named (x : BookCall) : Prop :=
  match x with
  | CallSend from to _ _ => denotes (AccAddress_String from) = Some from /\ denotes (AccAddress_String to) = Some to
  | CallModuleToAccount m a _ _ | CallAccountToModule a m _ _ => has_module m = true /\ denotes (AccAddress_String a) = Some a
  | CallModuleToModule m m' _ _ => has_module m = true /\ has_module m' = true
  | CallMint m _ _ | CallBurn m _ _ => has_module m = true
  | CallSub recipient sender sub coin _ =>
      0 <= cn_Amount coin /\ denotes (recipient +:+ "_" +:+ sub) = None /\ denotes (sender +:+ "_" +:+ sub) = None
  end.
(** The accounts of the recipient modules exist. *)
Definition call_accounts (x : BookCall) b : Prop :=
  match x with
  | CallModuleToModule _ m _ _ | CallAccountToModule _ m _ _ => is_module b (NewModuleAddress m) = true
  | _ => True
  end.

Lemma journal_app P d l1 l2 : journal P d (l1 ++ l2) = journal P d l1 + journal P d l2.
Proof. apply lsum_app. Qed.

Lemma accounts_for_refl b : accounts_for b b [].
Proof. split; intros; cbn; lia. Qed.

Lemma accounts_for_app b b1 b2 l1 l2 : accounts_for b b1 l1 -> accounts_for b1 b2 l2 -> accounts_for b b2 (l1 ++ l2).
Proof.
  intros [H1 H2 H3] [H4 H5 H6]. split; intros; rewrite journal_app; [by rewrite H1, H4|rewrite H5, H2; lia|rewrite H6, H3; lia].
Qed.

Lemma not_supply x y : x +:+ "_" +:+ y <> "supply".
Proof.
  intros Heq. assert (forall s t, In "_"%char (String.list_ascii_of_string (s +:+ String "_" t))) as Hin.
  { intros s t. induction s as [|c s IH]; [by left|]. right. exact IH. }
  specialize (Hin x y). change (String "_" y) with ("_" +:+ y) in Hin. rewrite Heq in Hin. cbn in Hin. naive_solver.
Qed.

Context (logConfig : LogConfig) (restrict : Restriction B).
Context (Hdouble : DoubleEntry logConfig = true).
Implicit Types (s : Book B).

(** What logging a coin writes: [n] for the debited name, [-n] for the credited one. *)
Lemma logTransaction_run to from coin memo sub s s' : 0 <= cn_Amount coin ->
  logTransaction logConfig to from coin memo sub s = (s', Ok tt) ->
  exists lines, s' = MkBook (bk_bank s) (bk_log s ++ lines) /\ forall P d,
    journal P d lines = let n := if bool_decide (cn_Denom coin = d) then cn_Amount coin else 0 in
      (if P to then n else 0) - (if P from then n else 0).
Proof.
  intros Hn. unfold logTransaction. destruct (Z.eqb_spec (cn_Amount coin) 0) as [Hz|Hz].
  { intros [= <-]. exists []. split; [by rewrite app_nil_r; destruct s|]. intros P d. cbn. rewrite Hz. repeat case_match; done. }
  rewrite (bind_run _ _ s s (bank_Height (bk_bank s))) by done. unfold Int_Int64.
  destruct ((_ <=? _) && _) eqn:Hr; [|discriminate]. rewrite (bind_run _ _ s s (cn_Amount coin)) by done. rewrite Hdouble. unfold write. boolify.
  rewrite (bind_run _ _ s _ tt) by reflexivity. cbn [bk_bank bk_log].
  assert (i64 (- cn_Amount coin) = - cn_Amount coin) as -> by (apply i64_small; unfold is_i64; lia).
  destruct (SimpleEntry logConfig); intros [= <-]; (eexists; split; [cbn [bk_bank bk_log]; rewrite ?app_assoc_reverse; reflexivity|]);
    intros P d; cbn; (destruct (decide (cn_Denom coin = d)) as [Hd|Hd];
    [rewrite !(bool_decide_eq_true_2 _ Hd)|rewrite !(bool_decide_eq_false_2 _ Hd)]); destruct (P to), (P from); cbn; try (case_bool_decide; cbn); lia.
Qed.

Lemma log_coins_run to from amt memo s s' : Forall (fun x => 0 <= cn_Amount x) amt ->
  log_coins logConfig to from amt memo s = (s', Ok tt) ->
  exists lines, s' = MkBook (bk_bank s) (bk_log s ++ lines) /\ forall P d,
    journal P d lines = (if P to then amount amt d else 0) - (if P from then amount amt d else 0).
Proof.
  unfold log_coins. intros Hf. revert s. induction Hf as [|x amt Hx _ IH]; intros s; cbn [mfold].
  { intros [= <-]. exists []. split; [by rewrite app_nil_r; destruct s|]. intros P d. cbn. repeat case_match; done. }
  intros Hrun. unfold bind in Hrun. destruct (logTransaction _ _ _ _ _ _ s) as [s1 [[]|]] eqn:H1; [|discriminate].
  apply logTransaction_run in H1 as (l1 & -> & Hj1); [|done]. apply IH in Hrun as (l2 & -> & Hj2). exists (l1 ++ l2).
  split; [cbn; by rewrite app_assoc|]. intros P d. rewrite journal_app, Hj1, Hj2, amount_cons. cbv zeta. destruct (P to), (P from); lia.
Qed.

(** Moving [amt] between two named accounts, and logging it. *)
Lemma transfer_accounts from to x y amt b b' lines : moved b b' from to amt -> denotes x = Some from -> denotes y = Some to ->
  denotes "supply" = None ->
  (forall P d, journal P d lines = (if P y then amount amt d else 0) - (if P x then amount amt d else 0)) -> accounts_for b b' lines.
Proof.
  intros [Hbal _ Hsup _] Hx Hy Hs Hj. split; intros; rewrite Hj.
  - lia.
  - rewrite Hbal, Hx, Hy. rewrite (bool_decide_ext (Some to = Some a) (a = to)) by naive_solver.
    rewrite (bool_decide_ext (Some from = Some a) (a = from)) by naive_solver. lia.
  - rewrite Hsup, !bool_decide_eq_false_2 by congruence. lia.
Qed.

Context `{!CoinLib} `{!CoinsLib} `{!CoinsLaws} `{!BankLaws B} `{!ModulesPermitted restrict}.
Context (Hsupply : denotes "supply" = None).

Lemma valid_nonneg_all amt : Coins_IsValid amt = true -> Forall (fun x => 0 <= cn_Amount x) amt.
Proof. intros Hv. apply Forall_forall. intros x Hx. destruct (valid_each amt x Hv Hx). lia. Qed.

Lemma denotes_module m : has_module m = true -> denotes m = Some (NewModuleAddress m).
Proof. unfold denotes. by intros ->. Qed.

Lemma send_logged from to x y amt memo (f : B -> B * outcome fault unit) s s' :
  f (bk_bank s) = bank_SendCoins restrict from to amt (bk_bank s) -> denotes x = Some from -> denotes y = Some to ->
  (run* on_book f in log_coins logConfig y x amt memo) s = (s', Ok tt) ->
  exists lines, s' = MkBook (bk_bank s') (bk_log s ++ lines) /\ accounts_for (bk_bank s) (bk_bank s') lines /\ bank_same (bk_bank s) (bk_bank s').
Proof.
  intros Hf Hx Hy Hrun. unfold bind, on_book in Hrun. rewrite Hf in Hrun.
  destruct (bank_SendCoins _ _ _ _ _) as [b [[]|]] eqn:Hs; [|discriminate]. apply send_moved in Hs as (Hv & _ & to' & Hto & Hm).
  apply restrict_keeps in Hto as ->. apply log_coins_run in Hrun as (lines & -> & Hj); [|by apply valid_nonneg_all]. exists lines.
  split; [done|]. split; [by eapply transfer_accounts|apply Hm].
Qed.

Lemma issue_logged (mint : bool) m amt memo (f : B -> B * outcome fault unit) s s' : has_module m = true ->
  (forall b b', f b = (b', Ok tt) -> Coins_IsValid amt = true /\ issued b b' (NewModuleAddress m) (if mint then 1 else -1) amt) ->
  (run* on_book f in log_coins logConfig (if mint then m else "supply") (if mint then "supply" else m) amt memo) s = (s', Ok tt) ->
  exists lines, s' = MkBook (bk_bank s') (bk_log s ++ lines) /\ accounts_for (bk_bank s) (bk_bank s') lines /\ bank_same (bk_bank s) (bk_bank s').
Proof.
  intros Hm%denotes_module Hf Hrun. unfold bind, on_book in Hrun. destruct (f (bk_bank s)) as [b [[]|]] eqn:Hs; [|discriminate].
  apply Hf in Hs as (Hv & [Hbal Hsup Hsame]). apply log_coins_run in Hrun as (lines & -> & Hj); [|by apply valid_nonneg_all]. exists lines.
  split; [done|]. split; [|done]. assert (m <> "supply") as Hne by (intros ->; congruence).
  split; intros; rewrite Hj; cbn [bk_bank]; [lia| |].
  - rewrite Hbal. destruct mint; rewrite Hm, Hsupply, (bool_decide_eq_false_2 (None = Some a)) by done;
      rewrite (bool_decide_ext (Some (NewModuleAddress m) = Some a) (a = NewModuleAddress m)) by naive_solver; case_bool_decide; lia.
  - rewrite Hsup. destruct mint; rewrite (bool_decide_eq_true_2 ("supply" = "supply")), (bool_decide_eq_false_2 (m = "supply")) by done; lia.
Qed.

Lemma call_logged x s s' : call_named x -> call_accounts x (bk_bank s) -> book_call logConfig restrict x s = (s', Ok tt) ->
  exists lines, s' = MkBook (bk_bank s') (bk_log s ++ lines) /\ accounts_for (bk_bank s) (bk_bank s') lines /\ bank_same (bk_bank s) (bk_bank s').
Proof.
  assert (exists lines, s = MkBook (bk_bank s) (bk_log s ++ lines) /\ accounts_for (bk_bank s) (bk_bank s) lines /\ bank_same (bk_bank s) (bk_bank s)) as Hnone.
  { exists []. split; [by rewrite app_nil_r; destruct s|]. split; [apply accounts_for_refl|reflexivity]. }
  destruct x as [from to amt memo|m a amt memo|m m' amt memo|a m amt memo|m amt memo|m amt memo|recipient sender sub coin memo]; cbn.
  - intros [Hf Ht] _. by eapply send_logged.
  - intros [Hm Ha] _. destruct (BlockedAddr a) eqn:Hb.
    + unfold SendCoinsFromModuleToAccount, bind, on_book. destruct (send_blocked restrict m a amt (bk_bank s) Hm Hb) as [e ->]. discriminate.
    + eapply send_logged; [by apply send_from_module|by apply denotes_module|done].
  - intros [Hm Hm'] Hacc. eapply send_logged; [by apply send_modules|by apply denotes_module|by apply denotes_module].
  - intros [Hm Ha] Hacc. eapply send_logged; [by apply send_to_module|done|by apply denotes_module].
  - intros Hm _. unfold MintCoins. destruct (Coins_IsZero amt); [by intros [= <-]|]. apply (issue_logged true); [done|]. intros b b'. apply mint_issued.
  - intros Hm _. unfold BurnCoins. destruct (Coins_IsZero amt); [by intros [= <-]|]. apply (issue_logged false); [done|]. intros b b'. apply burn_issued.
  - intros (Hn & Hr & Hs) _ (lines & -> & Hj)%logTransaction_run; [|done]. exists lines. split; [done|]. split; [|reflexivity].
    split; intros; rewrite Hj; cbn zeta.
    + lia.
    + rewrite Hr, Hs, bool_decide_eq_false_2 by done. cbn. lia.
    + rewrite !bool_decide_eq_false_2 by apply not_supply. cbn. lia.
Qed.

(** C29: The audit log is a journal of double entries that explains every balance: over any
    sequence of successful calls, the lines that were written balance, their signed sums
    per account are the changes of the accounts' balances, and those of [supply] are the
    change of the supply with the opposite sign. *)
Theorem journal_explains_balances calls s s' :
  mfold (fun _ x => book_call logConfig restrict x) tt calls s = (s', Ok tt) ->
  Forall call_named calls -> Forall (fun x => call_accounts x (bk_bank s)) calls ->
  exists lines, bk_log s' = bk_log s ++ lines /\ accounts_for (bk_bank s) (bk_bank s') lines.
Proof.
  revert s. induction calls as [|x calls IH]; intros s; cbn [mfold].
  { intros [= <-] _ _. exists []. split; [by rewrite app_nil_r|apply accounts_for_refl]. }
  unfold bind. destruct (book_call _ _ x s) as [s1 [[]|]] eqn:Hx; [|discriminate]. intros Hrun [Hn Hnames]%Forall_cons [Ha Hacc]%Forall_cons.
  apply call_logged in Hx as (l1 & Hs1 & Hl1 & [_ Hmod _]); [|done..].
  destruct (IH s1 Hrun Hnames) as (l2 & Hl & Hl2).
  { eapply Forall_impl; [exact Hacc|]. intros []; cbn; auto. }
  exists (l1 ++ l2). split; [rewrite Hl, Hs1; cbn; by rewrite app_assoc|by eapply accounts_for_app].
Qed.
End Journal.
