(* ===== verification/Vesting.v ===== *)
(** * The vesting of rewards

    inference-chain/x/streamvesting: rewards and transfers are paid out over a number of
    epochs.  A participant has one schedule, the coins of each epoch to come; adding to it
    spreads an amount over its first epochs, and when an epoch completes the first entry of
    every schedule is paid and dropped.

    The record [Vesting] has the collections of the keeper, and the bookkeeper.  Errors are
    told apart from panics, as the loop over the schedules skips a payment that fails. *)

From stdpp Require Import sorting.
From S2P Require Import Prelude.
From S2P Require Import ChainStore.
From S2P Require Import ChainCoins.
From S2P Require Import ChainBank.
From S2P Require Import Bookkeeper.
Open Scope Z_scope.
Open Scope go_scope.

(* ------------------------------------------------------------------ *)
(** ** State and messages *)

(** [types.VestingSchedule]; an element of [EpochAmounts] is the [Coins] of an epoch. *)
Record VestingSchedule := MkSchedule { sc_ParticipantAddress : string; sc_EpochAmounts : list Coins }.

Record MsgTransferWithVesting := MkTransferWithVesting {
  tv_Sender : string;
  tv_Recipient : string;
  tv_Amount : Coins;
  tv_VestingEpochs : Z
}.
Record BatchVestingOutput := MkBatchOutput { bo_Recipient : string; bo_Amount : Coins }.
Record MsgBatchTransferWithVesting := MkBatchTransfer {
  bt_Sender : string;
  bt_Outputs : list BatchVestingOutput;
  bt_VestingEpochs : Z
}.

Definition MinTransferGonka : Z := 10.
Definition MinTransferNgonka : Z := 10000000000.
Definition DefaultVestingEpochs : Z := 180.
Definition MaxVestingEpochs : Z := 3650.
Definition MaxCoinsInAmount : Z := 10.
Definition MaxBatchRecipients : Z := 500.
Definition MaxBatchCoinEntries : Z := 2000.

Record Vesting (B : Type) := MkVesting {
  VestingSchedules : gmap AccAddress VestingSchedule;
  vest_params : option Z;
  vest_book : Book B
}.
Arguments MkVesting {B}.
Arguments VestingSchedules {B}.
Arguments vest_params {B}.
Arguments vest_book {B}.

(** The module's name, and the sub-account of its entries in the log. *)
Definition vesting_ModuleName : string := "streamvesting".
Definition HoldingSubAccount : string := "vesting".

(** Sorting of recipients: [slices.Sort]. *)
Definition string_le (x y : string) : Prop := String.leb x y = true.
#[export] Instance string_le_dec : RelDecision string_le.
Proof. intros x y. unfold string_le. apply _. Defined.

(** A call whose error is logged and skipped; a panic is not. *)
Definition attempt {S A} (m : GoM S fault A) : GoM S fault (option A) :=
  fun s => match m s with
           | (s', Ok a) => (s', Ok (Some a))
           | (s', Err (Failed _)) => (s', Ok None)
           | (s', Err Panicked) => (s', Err Panicked)
           end.

(** A call whose error makes the caller panic. *)
Definition must {S A} (m : GoM S fault A) : GoM S fault A :=
  fun s => match m s with (s', Err _) => (s', Err Panicked) | r => r end.

(* ------------------------------------------------------------------ *)
(** ** Messages: stateless checks *)

Section Validate.
Context `{!AccAddressCodec} `{!CoinLib} `{!CoinsLib}.

Definition check_min (coin : Coin) : outcome string unit :=
  if bool_decide (cn_Denom coin = "gonka") then ocheck (MinTransferGonka <=? cn_Amount coin) "transfer amount below minimum"
  else if bool_decide (cn_Denom coin = "ngonka") then ocheck (MinTransferNgonka <=? cn_Amount coin) "transfer amount below minimum"
  else Err "unsupported denomination".
Definition validateMinTransferAmounts (coins : Coins) : outcome string unit := ofold (fun _ coin => check_min coin) tt coins.

Definition is_address (addr : string) : bool := bool_decide (is_Some (AccAddressFromBech32 addr)).
Definition transfer_ValidateBasic (m : MsgTransferWithVesting) : outcome string unit :=
  run! ocheck (is_address (tv_Sender m)) "invalid sender address" in
  run! ocheck (is_address (tv_Recipient m)) "invalid recipient address" in
  run! ocheck (negb (Coins_IsZero (tv_Amount m))) "amount cannot be zero" in
  run! ocheck (Coins_IsValid (tv_Amount m)) "invalid coins" in
  run! ocheck (Z.of_nat (length (tv_Amount m)) <=? MaxCoinsInAmount) "too many coin denominations" in
  run! ocheck (tv_VestingEpochs m <=? MaxVestingEpochs) "vesting epochs exceeds maximum allowed" in
  validateMinTransferAmounts (tv_Amount m).

(** [aggregated[output.Recipient].Add(output.Amount...)] *)
Definition aggregate_one (aggregated : gmap string Coins) (o : BatchVestingOutput) : outcome string (gmap string Coins) :=
  let! cs := Coins_Add (zget [] (bo_Recipient o) aggregated) (bo_Amount o) in
  Ok (<[bo_Recipient o := cs]> aggregated).
Definition validate_output (acc : Z * gmap string Coins) (o : BatchVestingOutput) : outcome string (Z * gmap string Coins) :=
  let '(totalCoinEntries, aggregated) := acc in
  run! ocheck (is_address (bo_Recipient o)) "invalid recipient address" in
  run! ocheck (negb (Coins_IsZero (bo_Amount o))) "amount cannot be zero" in
  run! ocheck (Coins_IsValid (bo_Amount o)) "invalid coins" in
  run! ocheck (Z.of_nat (length (bo_Amount o)) <=? MaxCoinsInAmount) "too many coin denominations" in
  let total := totalCoinEntries + Z.of_nat (length (bo_Amount o)) in
  run! ocheck (total <=? MaxBatchCoinEntries) "too many total coin entries" in
  run! validateMinTransferAmounts (bo_Amount o) in
  let! aggregated' := aggregate_one aggregated o in
  run! ocheck (Z.of_nat (length (zget [] (bo_Recipient o) aggregated')) <=? MaxCoinsInAmount) "too many total coin denominations" in
  Ok (total, aggregated').
Definition batch_ValidateBasic (m : MsgBatchTransferWithVesting) : outcome string unit :=
  run! ocheck (is_address (bt_Sender m)) "invalid sender address" in
  run! ocheck (negb (bool_decide (bt_Outputs m = []))) "outputs cannot be empty" in
  run! ocheck (Z.of_nat (length (bt_Outputs m)) <=? MaxBatchRecipients) "too many recipients" in
  run! ocheck (bt_VestingEpochs m <=? MaxVestingEpochs) "vesting epochs exceeds maximum allowed" in
  run! ofold validate_output (0, ∅) (bt_Outputs m) in
  Ok tt.
Definition vesting_Validate (rewardVestingPeriod : Z) : outcome string unit :=
  ocheck (negb (rewardVestingPeriod =? 0)) "reward vesting period must be positive".
End Validate.

(* ------------------------------------------------------------------ *)
(** ** Spreading an amount over epochs *)

Section Spread.
Context `{!CoinLib} `{!CoinsLib}.

(** The epochs up to [n], with empty ones appended. *)
Definition extend (none : Coins) (n : nat) (es : list Coins) : list Coins := es ++ replicate (n - length es) none.

(** [schedule.EpochAmounts[i].Coins = schedule.EpochAmounts[i].Coins.Add(cs...)] *)
Definition add_at (es : list Coins) (i : nat) (cs : Coins) : outcome fault (list Coins) :=
  match es !! i with
  | None => Err Panicked
  | Some old => let! new := or_panic (Coins_Add old cs) in Ok (<[i := new]> es)
  end.

(** The loop of [AddVestedRewards] over the epochs, for one coin. *)
Definition add_reward_at (denom : string) (amountPerEpoch remainder : Z) (es : list Coins) (i : nat) : outcome fault (list Coins) :=
  let! epochCoin := or_panic (NewCoin denom amountPerEpoch) in
  let! epochCoin' :=
    (if (i =? 0)%nat && negb (remainder =? 0)
     then let! r := or_panic (NewCoin denom remainder) in or_panic (Coin_Add epochCoin r)
     else Ok epochCoin) in
  add_at es i [epochCoin'].
Definition add_reward_coin (epochs : Z) (es : list Coins) (coin : Coin) : outcome fault (list Coins) :=
  let epochsInt := i64 epochs in
  let! amountPerEpoch := Int_Quo (cn_Amount coin) epochsInt in
  let! remainder := Int_Mod (cn_Amount coin) epochsInt in
  ofold (add_reward_at (cn_Denom coin) amountPerEpoch remainder) es (seq 0 (Z.to_nat (i64 epochs))).
Definition add_rewards (epochs : Z) (amount : Coins) (es : list Coins) : outcome fault (list Coins) :=
  let! none := or_panic (NewCoins []) in
  ofold (add_reward_coin epochs) (extend none (Z.to_nat (i64 epochs)) es) amount.

(** The bundles of [applyVestingSchedule]: the coins of the first epoch and of the
    others. *)
Definition add_nonzero (denom : string) (n : Z) (cs : Coins) : outcome fault Coins :=
  if n =? 0 then Ok cs
  else let! x := or_panic (NewCoin denom n) in or_panic (Coins_Add cs [x]).
Definition bundle_coin (epochsInt : Z) (acc : Coins * Coins) (coin : Coin) : outcome fault (Coins * Coins) :=
  let '(firstEpochCoins, baseEpochCoins) := acc in
  let! amountPerEpoch := Int_Quo (cn_Amount coin) epochsInt in
  let! remainder := Int_Mod (cn_Amount coin) epochsInt in
  let! baseEpochCoins' := add_nonzero (cn_Denom coin) amountPerEpoch baseEpochCoins in
  let! firstEpochCoins' := add_nonzero (cn_Denom coin) (amountPerEpoch + remainder) firstEpochCoins in
  Ok (firstEpochCoins', baseEpochCoins').
Definition apply_bundle (firstEpochCoins baseEpochCoins : Coins) (es : list Coins) (i : nat) : outcome fault (list Coins) :=
  let cs := if (i =? 0)%nat then firstEpochCoins else baseEpochCoins in
  if bool_decide (cs = []) then Ok es else add_at es i cs.
Definition apply_bundles (vestingEpochs : Z) (amount : Coins) (es : list Coins) : outcome fault (list Coins) :=
  let! none := or_panic (NewCoins []) in
  let es' := extend none (Z.to_nat vestingEpochs) es in
  let! (firstEpochCoins, baseEpochCoins) := ofold (bundle_coin (i64 vestingEpochs)) (none, none) amount in
  ofold (apply_bundle firstEpochCoins baseEpochCoins) es' (seq 0 (Z.to_nat vestingEpochs)).

End Spread.

(* ------------------------------------------------------------------ *)
(** ** The keeper *)

Section Keeper.
Context {B : Type} `{!AccAddressCodec} `{!CoinLib} `{!CoinsLib} `{!BankKeeper B}.
Context (logConfig : LogConfig) (restrict : Restriction B) (authority : string).
Abbreviation VV := (Vesting B).
Abbreviation K := (GoM (Vesting B) fault).
Implicit Types (s : VV).

Definition set_VestingSchedules x s : VV := MkVesting x (vest_params s) (vest_book s).
Definition set_vest_params x s : VV := MkVesting (VestingSchedules s) x (vest_book s).
Definition set_vest_book x s : VV := MkVesting (VestingSchedules s) (vest_params s) x.
Definition on_books {A} (m : GoM (Book B) fault A) : K A :=
  fun s => let '(bk, r) := m (vest_book s) in (set_vest_book bk s, r).

Definition vesting_GetParams s : Z := default 0 (vest_params s).
Definition vesting_SetParams (p : Z) : K unit := modify (set_vest_params (Some p)).

Definition SetVestingSchedule (schedule : VestingSchedule) : K unit :=
  let* addr := lift_option (AccAddressFromBech32 (sc_ParticipantAddress schedule)) (Failed "invalid address") in
  modify (fun s => set_VestingSchedules (<[addr := schedule]> (VestingSchedules s)) s).
Definition GetVestingSchedule s (participantAddress : string) : option VestingSchedule :=
  addr ← AccAddressFromBech32 participantAddress; VestingSchedules s !! addr.
Definition RemoveVestingSchedule (participantAddress : string) : K unit :=
  match AccAddressFromBech32 participantAddress with
  | None => ret tt
  | Some addr => modify (fun s => set_VestingSchedules (delete addr (VestingSchedules s)) s)
  end.
Definition schedule_keys s : list AccAddress := merge_sort bytes_le (elements (dom (VestingSchedules s))).
Definition GetAllVestingSchedules s : list VestingSchedule := omap (fun a => VestingSchedules s !! a) (schedule_keys s).

(** The schedule of a participant, or a new one. *)
Definition schedule_of s (participantAddress : string) : VestingSchedule :=
  default (MkSchedule participantAddress []) (GetVestingSchedule s participantAddress).

Definition log_holding (recipient sender : string) (amt : Coins) (memo : string) : K unit :=
  mfold (fun _ coin => on_books (LogSubAccountTransaction logConfig recipient sender HoldingSubAccount coin memo)) tt amt.

Definition AddVestedRewards (participantAddress fundingModule : string) (amount : Coins) (vestingEpochs : option Z) (memo : string) : K unit :=
  run* on_books (SendCoinsFromModuleToModule logConfig restrict fundingModule vesting_ModuleName amount memo) in
  run* log_holding vesting_ModuleName participantAddress amount ("vesting started for " +:+ participantAddress) in
  let* s := get in
  let epochs := match vestingEpochs with Some e => e | None => vesting_GetParams s end in
  run* check (negb (epochs =? 0)) (Failed "vesting epochs cannot be zero") in
  if Coins_IsZero amount then ret tt
  else
    run* check (is_address participantAddress) (Failed "invalid participant address") in
    let schedule := schedule_of s participantAddress in
    let* epochAmounts := from_outcome (add_rewards epochs amount (sc_EpochAmounts schedule)) in
    SetVestingSchedule (MkSchedule (sc_ParticipantAddress schedule) epochAmounts).

(** A schedule without its first epoch, updated or deleted. *)
Definition drop_first (participantAddress : string) (rest : list Coins) : K unit :=
  match rest with
  | [] => RemoveVestingSchedule participantAddress
  | _ => SetVestingSchedule (MkSchedule participantAddress rest)
  end.

(** One round of the loop of [ProcessEpochUnlocks]; it returns the total unlocked.  The
    counters for the event at the end are not modelled. *)
Definition unlock_schedule (totalUnlocked : Coins) (schedule : VestingSchedule) : K Coins :=
  match sc_EpochAmounts schedule with
  | [] => ret totalUnlocked
  | coinsToUnlock :: rest =>
      if Coins_IsZero coinsToUnlock then
        run* drop_first (sc_ParticipantAddress schedule) rest in
        ret totalUnlocked
      else
        match AccAddressFromBech32 (sc_ParticipantAddress schedule) with
        | None => ret totalUnlocked
        | Some participantAddr =>
            let* sent := attempt (on_books (SendCoinsFromModuleToAccount logConfig restrict vesting_ModuleName participantAddr coinsToUnlock "vesting payment")) in
            match sent with
            | None => ret totalUnlocked
            | Some _ =>
                run* drop_first (sc_ParticipantAddress schedule) rest in
                run* log_holding (sc_ParticipantAddress schedule) vesting_ModuleName coinsToUnlock
                  ("coins vested for " +:+ sc_ParticipantAddress schedule) in
                from_outcome (or_panic (Coins_Add totalUnlocked coinsToUnlock))
            end
        end
  end.
Definition ProcessEpochUnlocks : K unit :=
  let* schedules := reads GetAllVestingSchedules in
  let* none := from_outcome (or_panic (NewCoins [])) in
  run* mfold unlock_schedule none schedules in
  ret tt.
Definition vesting_AdvanceEpoch (completedEpoch : Z) : K unit := ProcessEpochUnlocks.

(* ------------------------------------------------------------------ *)
(** ** Messages *)

Definition isAllowedVestingSender (sender : string) : bool :=
  bool_decide (sender = authority) || bool_decide (sender = AccAddress_String (NewModuleAddress "inference")).
Definition normalizeVestingEpochs (raw : Z) : Z := if raw =? 0 then DefaultVestingEpochs else raw.

Definition applyVestingSchedule (recipient : string) (amount : Coins) (vestingEpochs : Z) : K unit :=
  let* schedule := reads (fun s => schedule_of s recipient) in
  let* epochAmounts := from_outcome (apply_bundles vestingEpochs amount (sc_EpochAmounts schedule)) in
  SetVestingSchedule (MkSchedule (sc_ParticipantAddress schedule) epochAmounts).

Definition TransferWithVesting (req : MsgTransferWithVesting) : K unit :=
  let* senderAddr := lift_option (AccAddressFromBech32 (tv_Sender req)) (Failed "invalid sender address") in
  run* check (isAllowedVestingSender (tv_Sender req)) (Failed "sender is not authorized") in
  let vestingEpochs := normalizeVestingEpochs (tv_VestingEpochs req) in
  run* on_books (SendCoinsFromAccountToModule logConfig restrict senderAddr vesting_ModuleName (tv_Amount req) "transfer with vesting") in
  run* log_holding vesting_ModuleName (tv_Recipient req) (tv_Amount req) ("transfer with vesting from " +:+ tv_Sender req) in
  applyVestingSchedule (tv_Recipient req) (tv_Amount req) vestingEpochs.

Definition aggregate (outputs : list BatchVestingOutput) : outcome fault (gmap string Coins) :=
  or_panic (ofold aggregate_one ∅ outputs).
Definition recipients_of (aggregated : gmap string Coins) : list string := merge_sort string_le (map_to_list aggregated).*1.

Definition BatchTransferWithVesting (req : MsgBatchTransferWithVesting) : K unit :=
  let* senderAddr := lift_option (AccAddressFromBech32 (bt_Sender req)) (Failed "invalid sender address") in
  run* check (isAllowedVestingSender (bt_Sender req)) (Failed "sender is not authorized") in
  let vestingEpochs := normalizeVestingEpochs (bt_VestingEpochs req) in
  let* aggregated := from_outcome (aggregate (bt_Outputs req)) in
  let recipients := recipients_of aggregated in
  let* none := from_outcome (or_panic (NewCoins [])) in
  let* totalAmount := from_outcome (or_panic (ofold (fun total recipient => Coins_Add total (zget [] recipient aggregated)) none recipients)) in
  run* on_books (SendCoinsFromAccountToModule logConfig restrict senderAddr vesting_ModuleName totalAmount "batch transfer with vesting") in
  mfold (fun _ recipient =>
    let amount := zget [] recipient aggregated in
    run* log_holding vesting_ModuleName recipient amount ("batch transfer with vesting from " +:+ bt_Sender req) in
    applyVestingSchedule recipient amount vestingEpochs) tt recipients.

Definition vesting_UpdateParams (req_authority : string) (p : Z) : K unit :=
  run* check (bool_decide (authority = req_authority)) (Failed "invalid authority") in
  vesting_SetParams p.

(* ------------------------------------------------------------------ *)
(** ** Queries and genesis *)

Definition VestingScheduleQuery s (participantAddress : string) : outcome fault VestingSchedule :=
  run! ocheck (negb (bool_decide (participantAddress = ""))) (Failed "participant address cannot be empty") in
  Ok (schedule_of s participantAddress).
Definition TotalVestingAmount s (participantAddress : string) : outcome fault Coins :=
  run! ocheck (negb (bool_decide (participantAddress = ""))) (Failed "participant address cannot be empty") in
  let! none := or_panic (NewCoins []) in
  match GetVestingSchedule s participantAddress with
  | None => Ok none
  | Some schedule => or_panic (ofold Coins_Add none (sc_EpochAmounts schedule))
  end.

(** [types.GenesisState] *)
Record VestingGenesis := MkVestingGenesis { vg_Params : Z; vg_VestingScheduleList : list VestingSchedule }.
Definition vesting_InitGenesis (genState : VestingGenesis) : K unit :=
  run* mfold (fun _ elem => must (SetVestingSchedule elem)) tt (vg_VestingScheduleList genState) in
  must (vesting_SetParams (vg_Params genState)).
Definition vesting_ExportGenesis s : VestingGenesis :=
  MkVestingGenesis (vesting_GetParams s) (GetAllVestingSchedules s).

End Keeper.
