(* ===== verification/VestingSpec.v ===== *)
(** * What the vesting module promises

    The schedule that adding an amount must give ([spread]), that both routines of the
    module compute it, what a completed epoch pays, and that the module's account covers
    all schedules over any sequence of events. *)

From stdpp Require Import sorting.
From S2P Require Import Prelude.
From S2P Require Import ChainStore.
From S2P Require Import ChainCoins.
From S2P Require Import ChainBank.
From S2P Require Import Bookkeeper.
From S2P Require Import Vesting.
Open Scope Z_scope.
Open Scope go_scope.

(* ------------------------------------------------------------------ *)
(** ** Schedules *)

Section Schedules.
Implicit Types (es : list Coins) (amt : Coins) (d : string) (n i : nat) (x : Z).

(** What a schedule holds of [d] in its [i]-th epoch, and in all. *)
Definition at_epoch es i d : Z := from_option (fun cs => amount cs d) 0 (es !! i).
Definition total es d : Z := lsum (fun cs => amount cs d) es.

(** The part of [x] that is paid in epoch [i] of [n]: the quotient, and in the first
    epoch the remainder. *)
Definition share n x i : Z := x / Z.of_nat n + if (i =? 0)%nat then x mod Z.of_nat n else 0.

(** [es'] is [es] with [amt] spread over its first [n] epochs. *)
Record spread `{!CoinsLib} n amt es es' : Prop := {
  sp_length : length es' = Nat.max (length es) n;
  sp_valid : Forall (fun cs => Coins_IsValid cs = true) es';
  sp_at : forall i d, at_epoch es' i d = at_epoch es i d + if (i <? n)%nat then share n (amount amt d) i else 0
}.

Lemma at_epoch_cons cs es i d : at_epoch (cs :: es) (S i) d = at_epoch es i d.
Proof. done. Qed.

Lemma lsum_seq_S (f : nat -> Z) m : lsum f (seq 0 (S m)) = f O + lsum (fun i => f (S i)) (seq 0 m).
Proof. cbn [seq]. rewrite lsum_cons, <-fmap_S_seq, lsum_fmap. done. Qed.

Lemma total_seq es m d : (length es <= m)%nat -> total es d = lsum (fun i => at_epoch es i d) (seq 0 m).
Proof.
  revert m. induction es as [|cs es IH]; intros m Hm.
  - cbn. rewrite (lsum_ext _ (fun _ => 0)); [by rewrite lsum_zero|done].
  - destruct m as [|m]; [cbn in Hm; lia|]. rewrite lsum_seq_S. unfold total in *. rewrite lsum_cons, (IH m) by (cbn in Hm; lia). done.
Qed.

Lemma lsum_prefix (c : Z) k m : (k <= m)%nat -> lsum (fun i => if (i <? k)%nat then c else 0) (seq 0 m) = Z.of_nat k * c.
Proof.
  revert k. induction m as [|m IH]; intros k Hk; [by replace k with O by lia|]. rewrite lsum_seq_S. destruct k as [|k].
  - rewrite (lsum_ext _ (fun _ => 0)); [rewrite lsum_zero; cbn; lia|]. intros i _. by rewrite (proj2 (Nat.ltb_ge _ _)) by lia.
  - rewrite (lsum_ext _ (fun i => if (i <? k)%nat then c else 0)) by done. rewrite IH by lia. cbn [Nat.ltb Nat.leb]. lia.
Qed.

(** The parts add up. *)
Lemma share_sum n x m : (0 < n <= m)%nat -> lsum (fun i => if (i <? n)%nat then share n x i else 0) (seq 0 m) = x.
Proof.
  intros [Hn Hm]. destruct m as [|m]; [lia|]. destruct n as [|n]; [lia|]. rewrite lsum_seq_S.
  rewrite (lsum_ext _ (fun i => if (i <? n)%nat then x / Z.of_nat (S n) else 0)).
  - rewrite lsum_prefix by lia. unfold share. cbn [Nat.ltb Nat.leb Nat.eqb].
    pose proof (Z.div_mod x (Z.of_nat (S n)) ltac:(lia)). lia.
  - intros i _. unfold share. change (S i <? S n)%nat with (i <? n)%nat. cbn [Nat.eqb]. by rewrite Z.add_0_r.
Qed.

Lemma share_bounds n x i : (0 < n)%nat -> 0 <= x -> 0 <= share n x i <= x.
Proof.
  intros Hn Hx. unfold share. pose proof (Z.div_mod x (Z.of_nat n) ltac:(lia)). pose proof (Z.mod_pos_bound x (Z.of_nat n) ltac:(lia)).
  pose proof (Z.div_pos x (Z.of_nat n) Hx ltac:(lia)). assert (x / Z.of_nat n <= Z.of_nat n * (x / Z.of_nat n)) by nia.
  destruct (i =? 0)%nat; lia.
Qed.

Lemma share_zero n i : share n 0 i = 0.
Proof. unfold share. rewrite Zdiv_0_l, Zmod_0_l. by destruct (i =? 0)%nat. Qed.

(** Spreading an amount adds exactly that amount to the schedule. *)
Lemma spread_total `{!CoinsLib} n amt es es' d : (0 < n)%nat -> spread n amt es es' -> total es' d = total es d + amount amt d.
Proof.
  intros Hn [Hlen _ Hat]. set (m := Nat.max (length es) n). rewrite (total_seq es' m), (total_seq es m) by (unfold m; lia).
  rewrite (lsum_ext _ (fun i => at_epoch es i d + if (i <? n)%nat then share n (amount amt d) i else 0)) by (intros i _; apply Hat).
  rewrite lsum_plus, share_sum by (unfold m; lia). done.
Qed.
End Schedules.

(* ------------------------------------------------------------------ *)
(** ** Both routines spread *)

Section Spreading.
Context `{!CoinLib} `{!CoinsLib} `{!CoinLaws} `{!CoinsLaws}.
Implicit Types (es : list Coins) (amt : Coins) (d : string) (n i : nat).

Abbreviation valid es := (Forall (fun cs => Coins_IsValid cs = true) es).

(** A spread schedule is determined by its contents. *)
Lemma spread_unique n amt es es1 es2 : spread n amt es es1 -> spread n amt es es2 -> es1 = es2.
Proof.
  intros [Hl1 Hv1 Ha1] [Hl2 Hv2 Ha2]. apply list_eq_same_length with (length es1); [congruence|done|].
  intros i cs1 cs2 _ Hcs1 Hcs2. rewrite Forall_lookup in Hv1, Hv2. apply valid_unique; [by eapply Hv1|by eapply Hv2|]. intros d.
  specialize (Ha1 i d). specialize (Ha2 i d). unfold at_epoch in Ha1, Ha2. rewrite Hcs1 in Ha1. rewrite Hcs2 in Ha2. cbn in Ha1, Ha2. lia.
Qed.

Lemma at_epoch_nonneg es i d : valid es -> 0 <= at_epoch es i d.
Proof.
  rewrite Forall_lookup. intros Hv. unfold at_epoch. destruct (es !! i) as [cs|] eqn:Hcs; [|done]. cbn. apply amount_nonneg. by eapply Hv.
Qed.

Lemma at_epoch_max es i d : valid es -> at_epoch es i d < max_int.
Proof.
  rewrite Forall_lookup. intros Hv. unfold at_epoch. destruct (es !! i) as [cs|] eqn:Hcs; [|done]. cbn. apply amount_max. by eapply Hv.
Qed.

Lemma at_epoch_insert es i cs i' d : (i < length es)%nat ->
  at_epoch (<[i := cs]> es) i' d = if bool_decide (i' = i) then amount cs d else at_epoch es i' d.
Proof.
  intros Hi. unfold at_epoch. case_bool_decide as Heq; [subst i'; by rewrite list_lookup_insert_eq|].
  by rewrite list_lookup_insert_ne by done.
Qed.

(** What a step of a loop over the epochs does: it adds [g i] to epoch [i]. *)
Definition adds_at (f : list Coins -> nat -> outcome fault (list Coins)) (g : nat -> string -> Z) : Prop :=
  forall es i, valid es -> (i < length es)%nat -> (forall d, at_epoch es i d + g i d < max_int) ->
  exists es', f es i = Ok es' /\ length es' = length es /\ valid es' /\
    forall i' d, at_epoch es' i' d = at_epoch es i' d + if bool_decide (i' = i) then g i d else 0.

Lemma ofold_adds f g es js : adds_at f g -> NoDup js -> valid es -> (forall i, i ∈ js -> (i < length es)%nat) ->
  (forall i d, i ∈ js -> at_epoch es i d + g i d < max_int) ->
  exists es', ofold f es js = Ok es' /\ length es' = length es /\ valid es' /\
    forall i d, at_epoch es' i d = at_epoch es i d + if bool_decide (i ∈ js) then g i d else 0.
Proof.
  intros Hf. revert es. induction js as [|i js IH]; intros es Hnd Hv Hlen Hmax.
  { exists es. split; [done|]. split; [done|]. split; [done|]. intros i d. rewrite bool_decide_eq_false_2 by set_solver. lia. }
  apply NoDup_cons in Hnd as [Hi Hnd]. destruct (Hf es i Hv) as (es1 & Hes1 & Hlen1 & Hv1 & Hat1); [set_solver..|].
  destruct (IH es1 Hnd Hv1) as (es' & Hes' & Hlen' & Hv' & Hat').
  - intros j Hj. rewrite Hlen1. apply Hlen. set_solver.
  - intros j d Hj. rewrite Hat1, bool_decide_eq_false_2 by (intros ->; done). specialize (Hmax j d ltac:(set_solver)). lia.
  - exists es'. cbn [ofold]. rewrite Hes1. cbn [obind]. split; [done|]. split; [congruence|]. split; [done|]. intros j d.
    rewrite Hat', Hat1. destruct (decide (j = i)) as [->|Hne].
    + rewrite (bool_decide_eq_true_2 (i = i)), (bool_decide_eq_false_2 (i ∈ js)), (bool_decide_eq_true_2 (i ∈ i :: js)) by set_solver. lia.
    + rewrite (bool_decide_eq_false_2 (j = i)) by done. rewrite (bool_decide_ext (j ∈ i :: js) (j ∈ js)) by set_solver. lia.
Qed.

Lemma in_seq i n : bool_decide (i ∈ seq 0 n) = (i <? n)%nat.
Proof. destruct (Nat.ltb_spec i n); [apply bool_decide_eq_true_2|apply bool_decide_eq_false_2]; rewrite elem_of_seq; lia. Qed.

Lemma ofold_seq_adds f g es n : adds_at f g -> valid es -> (n <= length es)%nat ->
  (forall i d, (i < n)%nat -> at_epoch es i d + g i d < max_int) ->
  exists es', ofold f es (seq 0 n) = Ok es' /\ length es' = length es /\ valid es' /\
    forall i d, at_epoch es' i d = at_epoch es i d + if (i <? n)%nat then g i d else 0.
Proof.
  intros Hf Hv Hn Hmax. destruct (ofold_adds f g es (seq 0 n) Hf) as (es' & ? & ? & ? & Hat); [apply NoDup_seq|done|..].
  - intros i Hi%elem_of_seq. lia.
  - intros i d Hi%elem_of_seq. apply Hmax. lia.
  - exists es'. split_and!; [done..|]. intros i d. by rewrite Hat, in_seq.
Qed.

Lemma add_at_run es i cs (g : string -> Z) : valid es -> (i < length es)%nat ->
  (forall old, es !! i = Some old -> exists new, Coins_Add old cs = Ok new /\ Coins_IsValid new = true /\ forall d, amount new d = amount old d + g d) ->
  exists es', add_at es i cs = Ok es' /\ length es' = length es /\ valid es' /\
    forall i' d, at_epoch es' i' d = at_epoch es i' d + if bool_decide (i' = i) then g d else 0.
Proof.
  intros Hv Hi Hadd. destruct (lookup_lt_is_Some_2 es i Hi) as [old Hold]. destruct (Hadd old Hold) as (new & Hnew & Hvn & Ha).
  exists (<[i := new]> es). unfold add_at. rewrite Hold, Hnew. cbn [or_panic obind]. split; [done|]. split; [by rewrite length_insert|].
  split; [by apply Forall_insert|]. intros i' d. rewrite at_epoch_insert by done. case_bool_decide; [|lia]. subst i'. rewrite Ha.
  unfold at_epoch. by rewrite Hold.
Qed.

Lemma valid_at es i old : valid es -> es !! i = Some old -> Coins_IsValid old = true /\ forall d, amount old d = at_epoch es i d.
Proof. rewrite Forall_lookup. intros Hv Ho. split; [by eapply Hv|]. intros d. unfold at_epoch. by rewrite Ho. Qed.

(** Adding an empty entry at the end changes nothing. *)
Lemma extend_at n es i d : at_epoch (extend [] n es) i d = at_epoch es i d.
Proof.
  unfold extend, at_epoch. destruct (decide (i < length es)%nat) as [Hi|Hi]; [by rewrite lookup_app_l by done|].
  rewrite lookup_app_r, (lookup_ge_None_2 es) by lia. destruct (replicate _ _ !! _) as [cs|] eqn:Hcs; [|done].
  by apply lookup_replicate in Hcs as [-> _].
Qed.
Lemma extend_length n es : length (extend [] n es) = Nat.max (length es) n.
Proof. unfold extend. rewrite length_app, length_replicate. lia. Qed.
Lemma extend_valid n es : valid es -> valid (extend [] n es).
Proof. intros Hv. apply Forall_app. split; [done|]. apply Forall_replicate, valid_none. Qed.

Lemma quo_mod (x : Z) n : 0 <= x -> (0 < n)%nat ->
  Int_Quo x (Z.of_nat n) = Ok (x / Z.of_nat n) /\ Int_Mod x (Z.of_nat n) = Ok (x mod Z.of_nat n).
Proof.
  intros Hx Hn. unfold Int_Quo, Int_Mod. destruct (Z.eqb_spec (Z.of_nat n) 0); [lia|]. by rewrite Z.quot_div_nonneg, Z.abs_eq by lia.
Qed.

Lemma reward_adds denom n x : ValidateDenom denom = true -> 0 <= x < max_int -> (0 < n)%nat ->
  adds_at (add_reward_at denom (x / Z.of_nat n) (x mod Z.of_nat n)) (fun i d => if bool_decide (denom = d) then share n x i else 0).
Proof.
  intros Hden Hx Hn es i Hv Hi Hmax. pose proof (share_bounds n x i Hn (proj1 Hx)) as Hs.
  pose proof (Z.div_pos x (Z.of_nat n) (proj1 Hx) ltac:(lia)). pose proof (Z.mod_pos_bound x (Z.of_nat n) ltac:(lia)).
  assert (forall m, 0 <= m -> NewCoin denom m = Ok (MkCoin denom m)) as Hnew by (intros m Hm; by apply new_coin).
  assert (add_reward_at denom (x / Z.of_nat n) (x mod Z.of_nat n) es i = add_at es i [MkCoin denom (share n x i)]) as ->.
  { unfold add_reward_at. rewrite !Hnew by lia. cbn [or_panic obind]. unfold share in *. destruct (i =? 0)%nat; cbn [andb].
    - destruct (Z.eqb_spec (x mod Z.of_nat n) 0) as [->|]; cbn [negb obind]; [by rewrite Z.add_0_r|]. rewrite coin_add by lia. done.
    - cbn [obind]. by rewrite Z.add_0_r. }
  apply add_at_run; [done..|]. intros old Hold. destruct (valid_at es i old Hv Hold) as [Hvo Ho]. apply add_one; [done|done|lia|].
  rewrite Ho. specialize (Hmax denom). cbn beta in Hmax. by rewrite bool_decide_eq_true_2 in Hmax.
Qed.

Lemma add_reward_coin_run epochs n es coin : i64 epochs = Z.of_nat n -> (0 < n <= length es)%nat -> valid es ->
  ValidateDenom (cn_Denom coin) = true -> 0 <= cn_Amount coin < max_int ->
  (forall i, at_epoch es i (cn_Denom coin) + cn_Amount coin < max_int) ->
  exists es', add_reward_coin epochs es coin = Ok es' /\ length es' = length es /\ valid es' /\
    forall i d, at_epoch es' i d = at_epoch es i d +
      if (i <? n)%nat then if bool_decide (cn_Denom coin = d) then share n (cn_Amount coin) i else 0 else 0.
Proof.
  intros He [Hn Hlen] Hv Hden Hx Hmax. unfold add_reward_coin. rewrite He.
  destruct (quo_mod (cn_Amount coin) n (proj1 Hx) Hn) as [-> ->]. cbn [obind]. rewrite Nat2Z.id.
  destruct (ofold_seq_adds _ _ es n (reward_adds (cn_Denom coin) n (cn_Amount coin) Hden Hx Hn) Hv Hlen) as (es' & ? & ? & ? & Hat).
  - intros i d _. pose proof (share_bounds n (cn_Amount coin) i Hn (proj1 Hx)). case_bool_decide as Hd; [subst d; specialize (Hmax i); lia|].
    pose proof (at_epoch_max es i d Hv). lia.
  - by exists es'.
Qed.

(** Coins as they occur in a valid set. *)
Definition proper_coin (x : Coin) : Prop := ValidateDenom (cn_Denom x) = true /\ 0 < cn_Amount x < max_int.
Lemma valid_proper amt : Coins_IsValid amt = true -> Forall proper_coin amt.
Proof. intros Hv. apply Forall_forall. intros x Hx. by apply (valid_each amt). Qed.

Lemma proper_nonneg amt d : Forall proper_coin amt -> 0 <= amount amt d.
Proof. rewrite Forall_forall. intros Hp. apply lsum_nonneg. intros x [_ Hx]%Hp. case_bool_decide; lia. Qed.

Lemma add_reward_coins_run epochs n amt : i64 epochs = Z.of_nat n -> Forall proper_coin amt -> forall es,
  (0 < n <= length es)%nat -> valid es -> (forall i d, at_epoch es i d + amount amt d < max_int) ->
  exists es', ofold (add_reward_coin epochs) es amt = Ok es' /\ length es' = length es /\ valid es' /\
    forall i d, at_epoch es' i d = at_epoch es i d +
      if (i <? n)%nat then lsum (fun x => if bool_decide (cn_Denom x = d) then share n (cn_Amount x) i else 0) amt else 0.
Proof.
  intros He Hp. induction Hp as [|x amt [Hden Hx] Hp IH]; intros es Hn Hv Hmax.
  { exists es. split_and!; [done..|]. intros i d. destruct (i <? n)%nat; cbn; lia. }
  destruct (add_reward_coin_run epochs n es x He Hn Hv Hden ltac:(lia)) as (es1 & Hes1 & Hlen1 & Hv1 & Hat1).
  { intros i. specialize (Hmax i (cn_Denom x)). rewrite amount_cons, bool_decide_eq_true_2 in Hmax by done.
    pose proof (proper_nonneg amt (cn_Denom x) Hp). lia. }
  destruct (IH es1) as (es' & Hes' & Hlen' & Hv' & Hat'); [lia|done| |].
  - intros i d. rewrite Hat1. specialize (Hmax i d). rewrite amount_cons in Hmax.
    pose proof (share_bounds n (cn_Amount x) i ltac:(lia) ltac:(lia)). destruct (i <? n)%nat; case_bool_decide; lia.
  - exists es'. cbn [ofold]. rewrite Hes1. cbn [obind]. split_and!; [done|congruence|done|]. intros i d. rewrite Hat', Hat1, lsum_cons.
    destruct (i <? n)%nat; lia.
Qed.

(** [AddVestedRewards] spreads the amount. *)
Lemma add_rewards_spread epochs n amt es : i64 epochs = Z.of_nat n -> (0 < n)%nat -> valid es -> Coins_IsValid amt = true ->
  (forall i d, at_epoch es i d + amount amt d < max_int) -> exists es', add_rewards epochs amt es = Ok es' /\ spread n amt es es'.
Proof.
  intros He Hn Hv Hamt Hmax. unfold add_rewards. rewrite new_none, He, Nat2Z.id. cbn [or_panic obind].
  destruct (add_reward_coins_run epochs n amt He (valid_proper amt Hamt) (extend [] n es)) as (es' & Hes' & Hlen & Hv' & Hat).
  - rewrite extend_length. lia.
  - by apply extend_valid.
  - intros i d. by rewrite extend_at.
  - exists es'. split; [done|]. split; [by rewrite Hlen, extend_length|done|]. intros i d. rewrite Hat, extend_at.
    by rewrite (amount_sum (fun x => share n x i)) by (apply share_zero || by apply valid_distinct).
Qed.

Lemma add_nonzero_run denom m cs : ValidateDenom denom = true -> 0 <= m -> Coins_IsValid cs = true -> amount cs denom + m < max_int ->
  exists cs', add_nonzero denom m cs = Ok cs' /\ Coins_IsValid cs' = true /\ forall d, amount cs' d = amount cs d + if bool_decide (denom = d) then m else 0.
Proof.
  intros Hden Hm Hcs Hmax. unfold add_nonzero. destruct (Z.eqb_spec m 0) as [->|Hz].
  { exists cs. split_and!; [done..|]. intros d. case_bool_decide; lia. }
  rewrite (proj2 (new_coin denom m (MkCoin denom m))) by done. cbn [or_panic obind].
  destruct (add_one cs denom m Hcs Hden Hm Hmax) as (cs' & -> & ? & ?). by exists cs'.
Qed.

(** The bundles: the first epoch's coins, and the others'. *)
Lemma bundle_run n amt : (0 < n)%nat -> Forall proper_coin amt -> forall first base,
  Coins_IsValid first = true -> Coins_IsValid base = true ->
  (forall d, amount first d + amount amt d < max_int) -> (forall d, amount base d + amount amt d < max_int) ->
  exists first' base', ofold (bundle_coin (Z.of_nat n)) (first, base) amt = Ok (first', base') /\
    Coins_IsValid first' = true /\ Coins_IsValid base' = true /\ forall d,
    amount first' d = amount first d + lsum (fun x => if bool_decide (cn_Denom x = d) then share n (cn_Amount x) 0 else 0) amt /\
    amount base' d = amount base d + lsum (fun x => if bool_decide (cn_Denom x = d) then share n (cn_Amount x) 1 else 0) amt.
Proof.
  intros Hn Hp. induction Hp as [|x amt [Hden Hx] Hp IH]; intros first base Hf Hb Hmf Hmb.
  { exists first, base. cbn. split_and!; [done..|]. intros d. lia. }
  pose proof (share_bounds n (cn_Amount x) 0 Hn ltac:(lia)) as Hs0. pose proof (share_bounds n (cn_Amount x) 1 Hn ltac:(lia)) as Hs1.
  pose proof (proper_nonneg amt (cn_Denom x) Hp). pose proof (Hmf (cn_Denom x)) as Hmf'. pose proof (Hmb (cn_Denom x)) as Hmb'.
  rewrite amount_cons, bool_decide_eq_true_2 in Hmf', Hmb' by done.
  cbn [ofold]. unfold bundle_coin at 1. destruct (quo_mod (cn_Amount x) n ltac:(lia) Hn) as [-> ->]. cbn [obind].
  replace (cn_Amount x / Z.of_nat n) with (share n (cn_Amount x) 1) by (unfold share; cbn [Nat.eqb]; lia).
  replace (share n (cn_Amount x) 1 + cn_Amount x mod Z.of_nat n) with (share n (cn_Amount x) 0) by (unfold share; cbn [Nat.eqb]; lia).
  destruct (add_nonzero_run (cn_Denom x) (share n (cn_Amount x) 1) base Hden) as (base1 & -> & Hb1 & Hab); [lia|done|lia|].
  destruct (add_nonzero_run (cn_Denom x) (share n (cn_Amount x) 0) first Hden) as (first1 & -> & Hf1 & Haf); [lia|done|lia|]. cbn [obind].
  destruct (IH first1 base1 Hf1 Hb1) as (first' & base' & -> & Hf' & Hb' & Ha).
  - intros d. rewrite Haf. specialize (Hmf d). rewrite amount_cons in Hmf. case_bool_decide; lia.
  - intros d. rewrite Hab. specialize (Hmb d). rewrite amount_cons in Hmb. case_bool_decide; lia.
  - exists first', base'. split_and!; [done..|]. intros d. destruct (Ha d) as [-> ->]. rewrite Haf, Hab, !lsum_cons. lia.
Qed.

Lemma share_rest n x i : i <> O -> share n x i = share n x 1.
Proof. intros Hi. unfold share. by destruct i. Qed.

Lemma bundle_adds first base : Coins_IsValid first = true -> Coins_IsValid base = true ->
  adds_at (apply_bundle first base) (fun i d => amount (if (i =? 0)%nat then first else base) d).
Proof.
  intros Hf Hb es i Hv Hi Hmax. unfold apply_bundle. set (cs := if (i =? 0)%nat then first else base) in *.
  assert (Coins_IsValid cs = true) as Hcs by (unfold cs; by destruct (i =? 0)%nat). case_bool_decide as Hz.
  { exists es. split_and!; [done..|]. intros i' d. rewrite Hz. case_bool_decide; cbn; lia. }
  apply add_at_run; [done..|]. intros old Hold. destruct (valid_at es i old Hv Hold) as [Hvo Ho]. apply add_coins; [done..|].
  intros d. rewrite Ho. apply Hmax.
Qed.

(** [applyVestingSchedule] spreads the amount. *)
Lemma apply_bundles_spread epochs n amt es : epochs = Z.of_nat n -> is_i64 epochs -> (0 < n)%nat -> valid es -> Coins_IsValid amt = true ->
  (forall i d, at_epoch es i d + amount amt d < max_int) -> exists es', apply_bundles epochs amt es = Ok es' /\ spread n amt es es'.
Proof.
  intros -> He Hn Hv Hamt Hmax. unfold apply_bundles. rewrite new_none, i64_small, Nat2Z.id by done. cbn [or_panic obind].
  destruct (bundle_run n amt Hn (valid_proper amt Hamt) [] []) as (first & base & -> & Hf & Hb & Ha); [apply valid_none..| | |].
  { intros d. cbn. by apply amount_max. } { intros d. cbn. by apply amount_max. }
  cbn [obind]. assert (forall i d, amount (if (i =? 0)%nat then first else base) d = share n (amount amt d) i) as Hshare.
  { intros i d. destruct (Ha d) as [Hfd Hbd]. pose proof (valid_distinct amt Hamt).
    rewrite (amount_sum (fun x => share n x 0)) in Hfd by (done || apply share_zero). rewrite (amount_sum (fun x => share n x 1)) in Hbd by (done || apply share_zero).
    cbn in Hfd, Hbd. destruct (Nat.eqb_spec i 0) as [->|Hi]; [done|]. by rewrite (share_rest n _ i Hi). }
  destruct (ofold_seq_adds _ _ (extend [] n es) n (bundle_adds first base Hf Hb)) as (es' & Hes' & Hlen & Hv' & Hat).
  - by apply extend_valid.
  - rewrite extend_length. lia.
  - intros i d _. cbn beta. rewrite extend_at, Hshare. pose proof (share_bounds n (amount amt d) i Hn (amount_nonneg amt d Hamt)). specialize (Hmax i d). lia.
  - exists es'. split; [done|]. split; [by rewrite Hlen, extend_length|done|]. intros i d. by rewrite Hat, extend_at, Hshare.
Qed.

(** C31: The two routines that spread an amount agree: the flat loop over bundles of
    [applyVestingSchedule] gives the same schedule as the loop per coin and epoch of
    [AddVestedRewards], which is the amount divided over the epochs with the remainder in
    the first, added to what was there. *)
Theorem bundles_equal_rewards epochs n amt es : epochs = Z.of_nat n -> is_i64 epochs -> (0 < n)%nat ->
  Forall (fun cs => Coins_IsValid cs = true) es -> Coins_IsValid amt = true -> (forall i d, at_epoch es i d + amount amt d < max_int) ->
  apply_bundles epochs amt es = add_rewards epochs amt es /\ exists es', add_rewards epochs amt es = Ok es' /\ spread n amt es es'.
Proof.
  intros He Hr Hn Hv Hamt Hmax. destruct (add_rewards_spread epochs n amt es) as (es1 & Hes1 & Hsp1); [by rewrite i64_small|done..|].
  destruct (apply_bundles_spread epochs n amt es He Hr Hn Hv Hamt Hmax) as (es2 & Hes2 & Hsp2).
  rewrite Hes1, Hes2, (spread_unique n amt es es1 es2 Hsp1 Hsp2). split; [done|]. by exists es2.
Qed.
End Spreading.

(* ------------------------------------------------------------------ *)
(** ** The state of the module *)

Section Promises.
Context {B : Type} `{!AccAddressCodec} `{!CoinLib} `{!CoinsLib} `{!BankKeeper B}.
Abbreviation VV := (Vesting B).
Implicit Types (s : VV) (a : AccAddress) (d : string) (amt : Coins).

Definition vest_addr : AccAddress := NewModuleAddress vesting_ModuleName.
Definition bank_of s : B := bk_bank (vest_book s).
Definition epochs_of s a : list Coins := from_option sc_EpochAmounts [] (VestingSchedules s !! a).

(** All that the schedules hold of [d], and what the module has beyond. *)
Definition owed s d : Z := msum (fun _ sch => total (sc_EpochAmounts sch) d) (VestingSchedules s).
Definition free s d : Z := GetBalance (bank_of s) vest_addr d - owed s d.

Record vest_ok s : Prop := {
  vo_schedules : forall a sch, VestingSchedules s !! a = Some sch ->
    AccAddressFromBech32 (sc_ParticipantAddress sch) = Some a /\ Forall (fun cs => Coins_IsValid cs = true) (sc_EpochAmounts sch);
  vo_backed : forall d, 0 <= free s d;
  vo_small : forall d, owed s d < 2 ^ 63;
  vo_bank : bank_ok (bank_of s);
  vo_module : is_module (bank_of s) vest_addr = true
}.

(** [amt] was added to the schedule of [a] over [n] epochs. *)
Record vested s a (n : nat) amt s' : Prop := {
  ve_epochs : spread n amt (epochs_of s a) (epochs_of s' a);
  ve_schedules : exists p, AccAddressFromBech32 p = Some a /\ VestingSchedules s' = <[a := MkSchedule p (epochs_of s' a)]> (VestingSchedules s);
  ve_rest : vest_params s' = vest_params s
}.

Section Laws.
Context `{!CoinLaws} `{!CoinsLaws} `{!BankLaws B}.

Lemma total_nonneg (es : list Coins) d : Forall (fun cs => Coins_IsValid cs = true) es -> 0 <= total es d.
Proof. rewrite Forall_forall. intros Hv. apply lsum_nonneg. intros cs Hcs. apply amount_nonneg. by apply Hv. Qed.

Lemma at_epoch_total (es : list Coins) i d : Forall (fun cs => Coins_IsValid cs = true) es -> at_epoch es i d <= total es d.
Proof.
  revert i. induction es as [|cs es IH]; intros i Hv; [done|]. apply Forall_cons in Hv as [Hcs Hv]. unfold total in *. rewrite lsum_cons.
  pose proof (amount_nonneg cs d Hcs). pose proof (total_nonneg es d Hv) as Ht. unfold total in Ht. destruct i as [|i]; [cbn; lia|].
  rewrite at_epoch_cons. specialize (IH i Hv). lia.
Qed.

Lemma epochs_valid s a : vest_ok s -> Forall (fun cs => Coins_IsValid cs = true) (epochs_of s a).
Proof. intros Hok. unfold epochs_of. destruct (VestingSchedules s !! a) as [sch|] eqn:Hs; [|done]. by apply (vo_schedules s Hok a). Qed.

Lemma schedule_total_nonneg s a sch d : vest_ok s -> VestingSchedules s !! a = Some sch -> 0 <= total (sc_EpochAmounts sch) d.
Proof. intros Hok Hs. apply total_nonneg. by apply (vo_schedules s Hok a). Qed.

Lemma total_owed s a d : vest_ok s -> total (epochs_of s a) d <= owed s d.
Proof.
  intros Hok. unfold owed, epochs_of.
  pose proof (msum_option_le (fun sch => total (sc_EpochAmounts sch) d) (VestingSchedules s) a) as Hle.
  destruct (VestingSchedules s !! a); cbn in *; apply Hle; intros k sch Hk; by eapply schedule_total_nonneg.
Qed.

Lemma owed_nonneg s d : vest_ok s -> 0 <= owed s d.
Proof. intros Hok. apply msum_nonneg. intros a sch Hs. by eapply schedule_total_nonneg. Qed.

(** Vesting an amount that the module received keeps it in order. *)
Lemma vested_owed s a n amt s' d : (0 < n)%nat -> vested s a n amt s' -> owed s' d = owed s d + amount amt d.
Proof.
  intros Hn [Hsp (p & _ & Hs) _]. unfold owed. rewrite Hs, (msum_from_option (fun sch => total (sc_EpochAmounts sch) d)). cbn [sc_EpochAmounts].
  rewrite (spread_total n amt _ _ d Hn Hsp). unfold epochs_of. destruct (VestingSchedules s !! a); cbn [from_option]; [|change (total [] d) with 0]; lia.
Qed.

Lemma vested_ok s a n amt s' : (0 < n)%nat -> vest_ok s -> vested s a n amt s' -> bank_ok (bank_of s') -> is_module (bank_of s') vest_addr = true ->
  (forall d, 0 <= free s' d) -> (forall d, owed s d + amount amt d < 2 ^ 63) -> vest_ok s'.
Proof.
  intros Hn Hok Hv Hb Hm Hf Hsmall. split; [|done| |done|done].
  - destruct Hv as [Hsp (p & Hp & Hs) _]. rewrite Hs. intros b sch [[<- <-]|[_ Hb']]%lookup_insert_Some; [|by apply (vo_schedules s Hok)].
    cbn. split; [done|apply Hsp].
  - intros d. by rewrite (vested_owed s a n amt s' d Hn Hv).
Qed.
End Laws.
End Promises.

(* ------------------------------------------------------------------ *)
(** ** Adding to a schedule *)

Section Adding.
Context {B : Type} `{!AccAddressCodec} `{!CoinLib} `{!CoinsLib} `{!CoinLaws} `{!CoinsLaws} `{!BankKeeper B} `{!BankLaws B}.
Context (logConfig : LogConfig) (restrict : Restriction B) `{!ModulesPermitted restrict} (authority : string).
Context (Hname : has_module vesting_ModuleName = true).
Abbreviation VV := (Vesting B).
Implicit Types (s : VV) (a : AccAddress) (d : string) (amt : Coins).

(** The state but for the log. *)
Definition view s := (VestingSchedules s, vest_params s, bank_of s).

Lemma keeps_books {A} (m : GoM (Book B) fault A) : keeps bk_bank eq m -> keeps view eq (on_books m).
Proof.
  intros Hm s s' r. unfold on_books. destruct (m (vest_book s)) as [bk x] eqn:Hr. apply Hm in Hr. intros [= <- _]. unfold view, bank_of.
  cbn. by rewrite Hr.
Qed.

Lemma log_holding_view recipient sender amt memo : keeps view eq (log_holding logConfig recipient sender amt memo).
Proof. unfold log_holding. apply keeps_mfold; [exact _|]. intros. apply keeps_books, log_keeps_bank. Qed.

Lemma wp_books {A} (m : GoM (Book B) fault A) (Q : VV -> outcome fault A -> Prop) s :
  wp m (fun bk r => Q (set_vest_book bk s) r) (vest_book s) -> wp (on_books m) Q s.
Proof. unfold wp, on_books. by destruct (m (vest_book s)) as [bk r]. Qed.

Lemma epoch_bound s a amt i d : vest_ok s -> (forall d, owed s d + amount amt d < 2 ^ 63) -> at_epoch (epochs_of s a) i d + amount amt d < max_int.
Proof.
  intros Hok Hsmall. pose proof (at_epoch_total (epochs_of s a) i d (epochs_valid s a Hok)). pose proof (total_owed s a d Hok).
  specialize (Hsmall d). apply small_int. lia.
Qed.

Lemma schedule_of_epochs s p a : AccAddressFromBech32 p = Some a -> sc_EpochAmounts (schedule_of s p) = epochs_of s a.
Proof. intros Hp. unfold schedule_of, GetVestingSchedule, epochs_of. rewrite Hp. cbn. by destruct (VestingSchedules s !! a). Qed.

Lemma schedule_of_address s p a : vest_ok s -> AccAddressFromBech32 p = Some a -> AccAddressFromBech32 (sc_ParticipantAddress (schedule_of s p)) = Some a.
Proof.
  intros Hok Hp. unfold schedule_of, GetVestingSchedule. rewrite Hp. cbn. destruct (VestingSchedules s !! a) as [sch|] eqn:Hs; [|done].
  by apply (vo_schedules s Hok).
Qed.

(** The schedule of [p] is replaced by one with the epochs [es]. *)
Lemma set_schedule_wp s0 s p a n amt es : vest_ok s0 -> AccAddressFromBech32 p = Some a -> spread n amt (epochs_of s0 a) es ->
  VestingSchedules s = VestingSchedules s0 -> vest_params s = vest_params s0 ->
  wp (SetVestingSchedule (MkSchedule (sc_ParticipantAddress (schedule_of s0 p)) es))
    (fun s' r => r = Ok tt /\ vested s0 a n amt s' /\ bank_of s' = bank_of s) s.
Proof.
  intros Hok Hp Hsp Hs Hpar. pose proof (schedule_of_address s0 p a Hok Hp) as Hq. unfold SetVestingSchedule. cbn [sc_ParticipantAddress]. rewrite Hq.
  wp_step. wp_step; [|congruence]. injection Hopt as <-. wp_step. split; [done|]. split; [|done].
  assert (epochs_of (set_VestingSchedules (<[a := MkSchedule (sc_ParticipantAddress (schedule_of s0 p)) es]> (VestingSchedules s)) s) a = es) as He.
  { unfold epochs_of. cbn. by rewrite lookup_insert_eq. }
  split; [by rewrite He|rewrite He|done]. eexists. split; [exact Hq|]. cbn. by rewrite Hs.
Qed.

(** [applyVestingSchedule] on a state that differs from [s0] in the bank. *)
Lemma apply_wp s0 s p n amt : vest_ok s0 -> VestingSchedules s = VestingSchedules s0 -> vest_params s = vest_params s0 ->
  (0 < n)%nat -> is_i64 (Z.of_nat n) -> Coins_IsValid amt = true -> (forall d, owed s0 d + amount amt d < 2 ^ 63) ->
  wp (applyVestingSchedule p amt (Z.of_nat n)) (ok_or (is_address p = true) (fun s' _ =>
    exists a, AccAddressFromBech32 p = Some a /\ vested s0 a n amt s' /\ bank_of s' = bank_of s)) s.
Proof.
  intros Hok Hs Hpar Hn Hi Hv Hsmall. unfold applyVestingSchedule. wp_step. apply wp_reads. cbv beta iota.
  assert (schedule_of s p = schedule_of s0 p) as -> by (unfold schedule_of, GetVestingSchedule; by rewrite Hs).
  unfold is_address. destruct (AccAddressFromBech32 p) as [a|] eqn:Hp.
  - rewrite (schedule_of_epochs s0 p a Hp). destruct (apply_bundles_spread (Z.of_nat n) n amt (epochs_of s0 a)) as (es & -> & Hsp);
      [done..|by apply epochs_valid|done|intros i d; by apply epoch_bound|].
    wp_step. apply wp_from; [|done]. intros es' [= <-]. eapply wp_mono; [by apply (set_schedule_wp s0 s p a n amt es)|].
    intros s' r (-> & Hve & Hb). cbn. by exists a.
  - wp_step. apply wp_from; [|intros; by cbn]. intros es _. unfold SetVestingSchedule.
    unfold schedule_of, GetVestingSchedule. rewrite Hp. cbn. rewrite Hp. wp_step. wp_step; [done|]. by cbn.
Qed.

(** [AddVestedRewards]: the coins come from the funding module, and an amount that is not
    zero is vested. *)
Lemma reward_wp s p fund amt ve memo : vest_ok s -> has_module fund = true ->
  (forall d, owed s d + amount amt d < 2 ^ 63) -> let epochs := default (vesting_GetParams s) ve in 0 <= epochs < 2 ^ 63 ->
  wp (AddVestedRewards logConfig restrict p fund amt ve memo) (ok_or False (fun s' _ =>
    0 < epochs /\ moved (bank_of s) (bank_of s') (NewModuleAddress fund) vest_addr amt /\
    ((amt = [] /\ VestingSchedules s' = VestingSchedules s /\ vest_params s' = vest_params s) \/
     exists a, AccAddressFromBech32 p = Some a /\ vested s a (Z.to_nat epochs) amt s'))) s.
Proof.
  intros Hok Hfund Hsmall epochs He. unfold AddVestedRewards. wp_step. apply wp_books. eapply wp_mono.
  { apply (booked_wp logConfig restrict (NewModuleAddress fund) vest_addr). apply send_modules; [by apply vo_module|done|done]. }
  intros bk [[]|]; cbn [ok_or]; [|tauto]. intros [Hv Hm]. cbv beta iota. wp_step. apply (wp_keeps view); [apply log_holding_view|].
  intros s1 [[]|] Hview; [|cbn; tauto]. injection Hview as Hs1 Hp1 Hb1. cbv beta iota. wp_step. apply wp_get. cbv beta iota.
  assert (match ve with Some e => e | None => vesting_GetParams s1 end = epochs) as ->.
  { unfold epochs, vesting_GetParams. rewrite Hp1. by destruct ve. }
  cbn in Hs1, Hp1, Hb1. wp_succeed. boolify.
  assert (0 < epochs) as Hpos by (destruct (Z.eqb_spec epochs 0); [done|lia]).
  destruct (Coins_IsZero amt) eqn:Hz.
  - wp_step. cbn. split; [done|]. rewrite Hb1. split; [done|]. left. split; [by apply zero_iff|done].
  - wp_succeed. unfold is_address in Hchk0. apply bool_decide_eq_true in Hchk0 as [a Ha].
    assert (schedule_of s1 p = schedule_of s p) as -> by (unfold schedule_of, GetVestingSchedule; by rewrite Hs1).
    rewrite (schedule_of_epochs s p a Ha). destruct (add_rewards_spread epochs (Z.to_nat epochs) amt (epochs_of s a)) as (es & -> & Hsp);
      [rewrite Z2Nat.id by lia; apply i64_small; unfold is_i64; lia|lia|by apply epochs_valid|done|intros i d; by apply epoch_bound|].
    wp_step. apply wp_from; [|done]. intros es' [= <-]. eapply wp_mono; [by apply (set_schedule_wp s s1 p a (Z.to_nat epochs) amt es)|].
    intros s' r (-> & Hve & Hb). cbn. split; [done|]. rewrite Hb, Hb1. split; [done|]. right. by exists a.
Qed.
End Adding.

(* ------------------------------------------------------------------ *)
(** ** Completed epochs *)

Section Unlocking.
Context {B : Type} `{!AccAddressCodec} `{!CoinLib} `{!CoinsLib} `{!CoinLaws} `{!CoinsLaws} `{!BankKeeper B} `{!BankLaws B}.
Context (logConfig : LogConfig) (restrict : Restriction B) `{!ModulesPermitted restrict}.
Context (Hname : has_module vesting_ModuleName = true).
Abbreviation VV := (Vesting B).
Implicit Types (s : VV) (a b : AccAddress) (d : string) (amt : Coins) (sch : VestingSchedule).

(** A participant whom the bank does not pay. *)
Definition unpayable sch : bool := from_option BlockedAddr true (AccAddressFromBech32 (sc_ParticipantAddress sch)).

(** What an epoch pays of a schedule, and what is left of it. *)
Definition payment sch d : Z :=
  match sc_EpochAmounts sch with
  | [] => 0
  | cs :: _ => if unpayable sch then 0 else amount cs d
  end.
Definition after_unlock sch : option VestingSchedule :=
  match sc_EpochAmounts sch with
  | [] => Some sch
  | cs :: rest =>
      if negb (Coins_IsZero cs) && unpayable sch then Some sch
      else match rest with [] => None | _ => Some (MkSchedule (sc_ParticipantAddress sch) rest) end
  end.

Definition pays s a d : Z := from_option (fun sch => payment sch d) 0 (VestingSchedules s !! a).

(** What one round, or all, of the loop does when the participants [ks] are paid. *)
Record unlocked (ks : list AccAddress) s s' : Prop := {
  un_schedules : VestingSchedules s' = alter_all after_unlock ks (VestingSchedules s);
  un_params : vest_params s' = vest_params s;
  un_balance : forall b d, GetBalance (bank_of s') b d = GetBalance (bank_of s) b d +
    (if bool_decide (b ∈ ks) then pays s b d else 0) - (if bool_decide (b = vest_addr) then lsum (fun a => pays s a d) ks else 0);
  un_same : bank_same (bank_of s) (bank_of s')
}.

Lemma drop_first_run p a rest sch s : AccAddressFromBech32 p = Some a -> VestingSchedules s !! a = Some sch ->
  after_unlock sch = match rest with [] => None | _ => Some (MkSchedule p rest) end ->
  drop_first p rest s = (set_VestingSchedules (alter_all after_unlock [a] (VestingSchedules s)) s, Ok tt).
Proof.
  intros Hp Hs Ha. unfold alter_all. cbn [fold_left]. rewrite (partial_alter_ext _ (fun _ => after_unlock sch)) by (intros o <-; by rewrite Hs).
  rewrite Ha. unfold drop_first, RemoveVestingSchedule, SetVestingSchedule. destruct rest; cbn [sc_ParticipantAddress]; by rewrite Hp.
Qed.

Lemma payment_nonneg sch d : Forall (fun cs => Coins_IsValid cs = true) (sc_EpochAmounts sch) -> 0 <= payment sch d <= total (sc_EpochAmounts sch) d.
Proof.
  intros Hv. unfold payment. pose proof (total_nonneg _ d Hv) as Ht. destruct (sc_EpochAmounts sch) as [|cs rest]; [done|].
  pose proof (at_epoch_total _ 0 d Hv) as Hat. apply Forall_cons in Hv as [Hcs _]. pose proof (amount_nonneg cs d Hcs) as Hnn.
  destruct (unpayable sch); [lia|]. exact (conj Hnn Hat).
Qed.

(** An entry that is skipped or empty is paid nothing. *)
Lemma unpaid_unlocked s s' a sch : VestingSchedules s !! a = Some sch -> (forall d, payment sch d = 0) ->
  VestingSchedules s' = alter_all after_unlock [a] (VestingSchedules s) -> vest_params s' = vest_params s -> bank_of s' = bank_of s -> unlocked [a] s s'.
Proof.
  intros Hs Hz Hs' Hp Hb. split; [done|done| |by rewrite Hb]. intros b d. rewrite Hb, lsum_one.
  assert (pays s a d = 0) as Ha by (unfold pays; rewrite Hs; apply Hz). rewrite Ha.
  case_bool_decide as Hba; [apply list_elem_of_singleton in Hba as ->; rewrite Ha|]; case_bool_decide; lia.
Qed.

(** A schedule that is left as it is. *)
Lemma skipped_unlocked s s' a sch : VestingSchedules s !! a = Some sch -> (forall d, payment sch d = 0) -> after_unlock sch = Some sch ->
  VestingSchedules s' = VestingSchedules s -> vest_params s' = vest_params s -> bank_of s' = bank_of s -> unlocked [a] s s'.
Proof.
  intros Hs Hz Ha Hs'. apply (unpaid_unlocked s s' a sch); [done..|]. rewrite Hs'. unfold alter_all. cbn.
  rewrite partial_alter_id; [done|]. by rewrite Hs.
Qed.

Lemma log_holding_done recipient sender amt memo s : Forall loggable amt ->
  exists s', log_holding logConfig recipient sender amt memo s = (s', Ok tt) /\ view s' = view s.
Proof.
  unfold log_holding. intros Hf. revert s. induction Hf as [|x amt Hx _ IH]; intros s; [by exists s|]. cbn [mfold].
  destruct (log_done logConfig (recipient +:+ "_" +:+ HoldingSubAccount) (sender +:+ "_" +:+ HoldingSubAccount) x memo HoldingSubAccount (vest_book s) Hx)
    as (bk & Hbk & Hb). destruct (IH (set_vest_book bk s)) as (s' & Hs' & Hv). exists s'. split.
  - rewrite (bind_run _ _ s (set_vest_book bk s) tt); [done|]. unfold on_books, LogSubAccountTransaction. by rewrite Hbk.
  - rewrite Hv. unfold view, bank_of. cbn. by rewrite Hb.
Qed.

Lemma small_loggable amt : Coins_IsValid amt = true -> (forall d, amount amt d < 2 ^ 63) -> Forall loggable amt.
Proof.
  intros Hv Hs. apply Forall_forall. intros x Hx. pose proof (valid_each amt x Hv Hx) as [_ ?]. specialize (Hs (cn_Denom x)).
  rewrite amount_elem in Hs by (done || by apply valid_distinct). unfold loggable. lia.
Qed.

(** The first entry of a schedule is paid. *)
Lemma unlock_paid_run acc s a sch cs rest : VestingSchedules s !! a = Some sch -> AccAddressFromBech32 (sc_ParticipantAddress sch) = Some a ->
  sc_EpochAmounts sch = cs :: rest -> Coins_IsZero cs = false -> BlockedAddr a = false -> Coins_IsValid cs = true ->
  bank_ok (bank_of s) -> is_module (bank_of s) vest_addr = true -> (forall d, amount cs d <= GetBalance (bank_of s) vest_addr d) ->
  (forall d, amount cs d < 2 ^ 63) -> Coins_IsValid acc = true -> (forall d, amount acc d + amount cs d < max_int) ->
  exists s' acc', unlock_schedule logConfig restrict acc sch s = (s', Ok acc') /\ unlocked [a] s s' /\
    Coins_IsValid acc' = true /\ forall d, amount acc' d = amount acc d + amount cs d.
Proof.
  intros Hs Hp He Hzero Hblk Hcs Hok Hmod Hbal Hsmall Hacc Hmax. unfold unlock_schedule. rewrite He, Hzero, Hp.
  assert (unpayable sch = false) as Hun by (unfold unpayable; by rewrite Hp). unfold bind at 1, attempt.
  pose proof (small_loggable cs Hcs Hsmall) as Hlog.
  destruct (booked_done logConfig restrict vest_addr a vesting_ModuleName (AccAddress_String a) cs "vesting payment"
    (bank_SendCoinsFromModuleToAccount restrict vesting_ModuleName a cs) (vest_book s)) as (bk & Hbk & Hm);
    [by apply send_from_module|done|done|done|done|done|].
  unfold on_books at 1, SendCoinsFromModuleToAccount. rewrite Hbk. cbv beta iota. set (s1 := set_vest_book bk s).
  rewrite (bind_run _ _ s1 _ tt (drop_first_run _ a rest sch s1 Hp Hs ltac:(unfold after_unlock; by rewrite He, Hzero, Hun))).
  destruct (log_holding_done (sc_ParticipantAddress sch) vesting_ModuleName cs ("coins vested for " +:+ sc_ParticipantAddress sch)
    (set_VestingSchedules (alter_all after_unlock [a] (VestingSchedules s1)) s1) Hlog) as (s2 & Hs2 & [= Hsch Hpar Hbank]).
  rewrite (bind_run _ _ _ s2 tt Hs2). destruct (add_coins acc cs Hacc Hcs) as (acc' & Hadd & Hacc' & Ha).
  { done. }
  exists s2, acc'. unfold from_outcome. rewrite Hadd. split_and!; [done| |done|done]. destruct Hm as [Hmv _ _ Hsame].
  split; [exact Hsch|exact Hpar| |unfold bank_of in *; cbn in Hbank; by rewrite Hbank]. intros b d. rewrite Hbank. unfold bank_of. cbn [vest_book s1 set_vest_book set_VestingSchedules].
  rewrite Hmv, lsum_one. rewrite (bool_decide_ext (b ∈ [a]) (b = a)) by apply list_elem_of_singleton.
  assert (pays s a d = amount cs d) as Hpa by (unfold pays; rewrite Hs; cbn; unfold payment; by rewrite He, Hun). rewrite Hpa.
  case_bool_decide as Hb1; case_bool_decide as Hb2; subst; rewrite ?Hpa; fold (bank_of s); lia.
Qed.

(** One round of the loop.  It never panics, as the amounts are small. *)
Lemma unlock_schedule_run acc s a sch : VestingSchedules s !! a = Some sch -> AccAddressFromBech32 (sc_ParticipantAddress sch) = Some a ->
  Forall (fun cs => Coins_IsValid cs = true) (sc_EpochAmounts sch) -> bank_ok (bank_of s) -> is_module (bank_of s) vest_addr = true ->
  (forall d, payment sch d <= GetBalance (bank_of s) vest_addr d) -> (forall d, total (sc_EpochAmounts sch) d < 2 ^ 63) ->
  Coins_IsValid acc = true -> (forall d, amount acc d + payment sch d < max_int) ->
  exists s' acc', unlock_schedule logConfig restrict acc sch s = (s', Ok acc') /\ unlocked [a] s s' /\
    Coins_IsValid acc' = true /\ forall d, amount acc' d = amount acc d + payment sch d.
Proof.
  intros Hs Hp Hv Hok Hmod Hbal Hsmall Hacc Hmax. unfold unlock_schedule.
  assert (unpayable sch = BlockedAddr a) as Hun by (unfold unpayable; by rewrite Hp).
  destruct (sc_EpochAmounts sch) as [|cs rest] eqn:He.
  { exists s, acc. assert (forall d, payment sch d = 0) as Hz by (intros d; unfold payment; by rewrite He).
    split_and!; [done| |done|intros d; rewrite Hz; lia]. apply (skipped_unlocked s s a sch); try done. unfold after_unlock. by rewrite He. }
  pose proof Hv as [Hcs _]%Forall_cons. destruct (Coins_IsZero cs) eqn:Hzero.
  { assert (forall d, payment sch d = 0) as Hz.
    { intros d. unfold payment. rewrite He. apply zero_iff in Hzero as ->; [|done]. by destruct (unpayable sch). }
    rewrite (bind_run _ _ s _ tt (drop_first_run _ a rest sch s Hp Hs ltac:(unfold after_unlock; by rewrite He, Hzero))).
    eexists _, acc. split_and!; [done| |done|intros d; rewrite Hz; lia]. by eapply unpaid_unlocked. }
  destruct (BlockedAddr a) eqn:Hblk.
  { assert (forall d, payment sch d = 0) as Hz by (intros d; unfold payment; by rewrite He, Hun).
    unfold bind, attempt, on_books, SendCoinsFromModuleToAccount, on_book. rewrite Hp. unfold bind. destruct (send_blocked restrict vesting_ModuleName a cs (bk_bank (vest_book s)) Hname Hblk) as [e ->].
    eexists _, acc. split_and!; [done| |done|intros d; rewrite Hz; lia]. apply (skipped_unlocked s _ a sch); try done. unfold after_unlock. by rewrite He, Hzero, Hun. }
  assert (forall d, payment sch d = amount cs d) as Hpay by (intros d; unfold payment; by rewrite He, Hun).
  setoid_rewrite Hpay. setoid_rewrite Hpay in Hbal. setoid_rewrite Hpay in Hmax.
  pose proof (unlock_paid_run acc s a sch cs rest Hs Hp He Hzero Hblk Hcs Hok Hmod Hbal) as Hrun. unfold unlock_schedule in Hrun.
  rewrite He, Hzero in Hrun. apply Hrun; [|done|done]. intros d. pose proof (at_epoch_total (cs :: rest) 0 d Hv) as Hat. specialize (Hsmall d).
  change (at_epoch (cs :: rest) 0 d) with (amount cs d) in Hat. lia.
Qed.

Lemma unlocked_nil s : unlocked [] s s.
Proof. split; [done|done| |done]. intros b d. rewrite bool_decide_eq_false_2 by set_solver. cbn. case_bool_decide; lia. Qed.

Lemma unlocked_cons a ks s s1 s' : a ∉ ks -> unlocked [a] s s1 -> unlocked ks s1 s' -> unlocked (a :: ks) s s'.
Proof.
  intros Ha [Hs1 Hp1 Hb1 Hsame1] [Hs' Hp' Hb' Hsame'].
  assert (forall b d, b <> a -> pays s1 b d = pays s b d) as Hpays.
  { intros b d Hb. unfold pays. rewrite Hs1. unfold alter_all. cbn. by rewrite lookup_partial_alter_ne by done. }
  split; [by rewrite Hs', Hs1|congruence| |by transitivity (bank_of s1)]. intros b d. rewrite Hb', Hb1, lsum_one, lsum_cons.
  rewrite (lsum_ext (fun x => pays s1 x d) (fun x => pays s x d) ks) by (intros x Hx; apply Hpays; by intros ->).
  assert ((if bool_decide (b ∈ [a]) then pays s b d else 0) + (if bool_decide (b ∈ ks) then pays s1 b d else 0) =
    if bool_decide (b ∈ a :: ks) then pays s b d else 0) as Hin.
  { destruct (decide (b = a)) as [->|Hne].
    - rewrite (bool_decide_eq_true_2 (a ∈ [a])), (bool_decide_eq_false_2 (a ∈ ks)), (bool_decide_eq_true_2 (a ∈ a :: ks)) by set_solver. lia.
    - rewrite (bool_decide_eq_false_2 (b ∈ [a])), Hpays by set_solver. rewrite (bool_decide_ext (b ∈ a :: ks) (b ∈ ks)) by set_solver. lia. }
  rewrite <-Hin. destruct (bool_decide (b = vest_addr)); lia.
Qed.

Lemma pays_bounds s a d : vest_ok s -> 0 <= pays s a d <= total (epochs_of s a) d.
Proof.
  intros Hok. unfold pays, epochs_of. destruct (VestingSchedules s !! a) as [sch|] eqn:Hs; cbn [from_option]; [|done].
  apply payment_nonneg. by apply (vo_schedules s Hok a).
Qed.

Lemma unlock_loop_run s0 ks : vest_ok s0 -> NoDup ks -> (forall a, a ∈ ks -> is_Some (VestingSchedules s0 !! a)) ->
  forall s acc, (forall a, a ∈ ks -> VestingSchedules s !! a = VestingSchedules s0 !! a) ->
  bank_ok (bank_of s) -> is_module (bank_of s) vest_addr = true ->
  (forall d, lsum (fun a => pays s0 a d) ks <= GetBalance (bank_of s) vest_addr d) ->
  Coins_IsValid acc = true -> (forall d, amount acc d + lsum (fun a => pays s0 a d) ks < max_int) ->
  exists s' acc', mfold (unlock_schedule logConfig restrict) acc (omap (fun a => VestingSchedules s0 !! a) ks) s = (s', Ok acc') /\ unlocked ks s s'.
Proof.
  intros Hok. induction ks as [|a ks IH]; intros Hnd Hks s acc Hsame Hbk Hmod Hbal Hacc Hmax; [exists s, acc; split; [done|apply unlocked_nil]|].
  apply NoDup_cons in Hnd as [Hnew Hnd]. destruct (Hks a) as [sch Hsch]; [set_solver|]. destruct (vo_schedules s0 Hok a sch Hsch) as [Hp Hv].
  assert (forall d, pays s0 a d = payment sch d) as Hpa by (intros d; unfold pays; by rewrite Hsch).
  assert (forall d, 0 <= lsum (fun a => pays s0 a d) ks) as Hrest by (intros d; apply lsum_nonneg; intros; by apply pays_bounds).
  assert (VestingSchedules s !! a = Some sch) as Hs by (rewrite Hsame by set_solver; done).
  destruct (unlock_schedule_run acc s a sch Hs Hp Hv Hbk Hmod) as (s1 & acc1 & Hrun & Hun & Hacc1 & Ha1); [| |done| |].
  { intros d. specialize (Hbal d). rewrite lsum_cons, Hpa in Hbal. specialize (Hrest d). lia. }
  { intros d. pose proof (total_owed s0 a d Hok) as Ht. unfold epochs_of in Ht. rewrite Hsch in Ht. cbn [from_option] in Ht. pose proof (vo_small s0 Hok d). lia. }
  { intros d. specialize (Hmax d). rewrite lsum_cons, Hpa in Hmax. specialize (Hrest d). lia. }
  destruct (IH Hnd) with (s := s1) (acc := acc1) as (s' & acc' & Hrun' & Hun'); [set_solver| | | | |done| |].
  - intros b Hb. rewrite (un_schedules _ _ _ Hun). unfold alter_all. cbn. rewrite lookup_partial_alter_ne by (by intros ->). apply Hsame. set_solver.
  - by apply (un_same _ _ _ Hun).
  - by apply (un_same _ _ _ Hun).
  - intros d. rewrite (un_balance _ _ _ Hun), bool_decide_eq_true_2 with (P := vest_addr = vest_addr) by done. specialize (Hbal d). rewrite lsum_cons in Hbal. rewrite lsum_one.
    assert (forall b, b ∈ [a] -> pays s b d = pays s0 b d) as Hps by (intros b ->%list_elem_of_singleton; unfold pays; by rewrite Hs, Hsch).
    assert (0 <= pays s0 vest_addr d) by by apply pays_bounds. rewrite (Hps a) by set_solver. case_bool_decide as Hv'; [rewrite Hps by done|]; lia.
  - intros d. specialize (Hmax d). rewrite lsum_cons, Hpa in Hmax. rewrite Ha1. lia.
  - exists s', acc'. cbn [omap list_omap]. rewrite Hsch. cbn [mfold]. split; [by rewrite (bind_run _ _ s s1 acc1)|by eapply unlocked_cons].
Qed.

Lemma schedule_keys_iff s a : a ∈ schedule_keys s <-> is_Some (VestingSchedules s !! a).
Proof. unfold schedule_keys. by rewrite merge_sort_Permutation, elem_of_elements, elem_of_dom. Qed.
Lemma NoDup_schedule_keys s : NoDup (schedule_keys s).
Proof. unfold schedule_keys. rewrite merge_sort_Permutation. apply NoDup_elements. Qed.

Lemma keys_total s (g : VestingSchedule -> Z) :
  lsum (fun a => from_option g 0 (VestingSchedules s !! a)) (schedule_keys s) = msum (fun _ sch => g sch) (VestingSchedules s).
Proof.
  unfold schedule_keys. rewrite (lsum_perm _ _ _ (merge_sort_Permutation _ _)), msum_map_to_list.
  rewrite (lsum_perm _ _ _ (dom_perm (VestingSchedules s))), lsum_fmap. apply lsum_ext. intros [a sch] Hin%elem_of_map_to_list. cbn. by rewrite Hin.
Qed.

(** The participants of a completed epoch, all at once. *)
Lemma process_run s : vest_ok s -> exists s', ProcessEpochUnlocks logConfig restrict s = (s', Ok tt) /\ unlocked (schedule_keys s) s s'.
Proof.
  intros Hok. assert (forall d, lsum (fun a => pays s a d) (schedule_keys s) <= owed s d) as Hle.
  { intros d. unfold pays. rewrite (keys_total s (fun sch => payment sch d)). apply msum_le. intros a sch Hs. apply payment_nonneg. by apply (vo_schedules s Hok a). }
  destruct (unlock_loop_run s (schedule_keys s) Hok (NoDup_schedule_keys s)) with (s := s) (acc := [] : Coins) as (s' & acc' & Hrun & Hun).
  - intros a. apply schedule_keys_iff.
  - done.
  - apply (vo_bank s Hok).
  - apply (vo_module s Hok).
  - intros d. specialize (Hle d). pose proof (vo_backed s Hok d) as Hf. unfold free in Hf. lia.
  - apply valid_none.
  - intros d. specialize (Hle d). pose proof (vo_small s Hok d). apply small_int. cbn. lia.
  - exists s'. split; [|done]. unfold ProcessEpochUnlocks. rewrite (bind_run _ _ s s (GetAllVestingSchedules s)) by done. rewrite new_none.
    rewrite (bind_run _ _ s s []) by done. by rewrite (bind_run _ _ s s' acc').
Qed.
End Unlocking.
