(* ===== verification/VestingTrace.v ===== *)
(** * The vesting module over time

    The messages with their batches, the sequences of events that the module sees
    ([vest_trace]), export and import of its state, and the theorems about them. *)

From stdpp Require Import sorting.
From S2P Require Import Prelude.
From S2P Require Import ChainStore.
From S2P Require Import ChainCoins.
From S2P Require Import ChainBank.
From S2P Require Import Bookkeeper.
From S2P Require Import Vesting.
From S2P Require Import VestingSpec.
Open Scope Z_scope.
Open Scope go_scope.

(* ------------------------------------------------------------------ *)
(** ** Events *)

Section Events.
Context {B : Type} `{!AccAddressCodec} `{!CoinLib} `{!CoinsLib} `{!BankKeeper B}.
Context (logConfig : LogConfig) (restrict : Restriction B) (authority : string).
Abbreviation VV := (Vesting B).
Implicit Types (s : VV) (a : AccAddress) (d : string) (amt : Coins).

(** What the module is called with: rewards of the inference module, messages, completed
    epochs, and what other modules do with the bank. *)
Inductive VestingEvent :=
| VvReward (participant fund : string) (amt : Coins) (epochs : option Z) (memo : string)
| VvTransfer (req : MsgTransferWithVesting)
| VvBatch (req : MsgBatchTransferWithVesting)
| VvAdvance (completedEpoch : Z)
| VvParams (req_authority : string) (period : Z)
| VvOther (bk : Book B).

(** Messages and rewards run in a transaction or a cached context. *)
Definition vest_apply (ev : VestingEvent) s : VV :=
  match ev with
  | VvReward p fund amt ve memo => (cached (AddVestedRewards logConfig restrict p fund amt ve memo) s).1
  | VvTransfer req => (cached (TransferWithVesting logConfig restrict authority req) s).1
  | VvBatch req => (cached (BatchTransferWithVesting logConfig restrict authority req) s).1
  | VvAdvance e => (vesting_AdvanceEpoch logConfig restrict e s).1
  | VvParams auth p => (cached (vesting_UpdateParams authority auth p) s).1
  | VvOther bk => set_vest_book bk s
  end.

Definition outputs_sum (P : string -> bool) (outs : list BatchVestingOutput) d : Z :=
  lsum (fun o => if P (bo_Recipient o) then amount (bo_Amount o) d else 0) outs.

(** Messages passed [ValidateBasic]; the module does not fund itself; less than 2^63 coins
    of a denomination vest at a time, and over less than 2^63 epochs; no other module
    takes coins from this one's account. *)
Definition vest_event_ok (ev : VestingEvent) s : Prop :=
  match ev with
  | VvReward p fund amt ve memo =>
      has_module fund = true /\ NewModuleAddress fund <> vest_addr /\
      0 <= default (vesting_GetParams s) ve < 2 ^ 63 /\ forall d, owed s d + amount amt d < 2 ^ 63
  | VvTransfer req => transfer_ValidateBasic req = Ok tt /\ 0 <= tv_VestingEpochs req /\
      AccAddressFromBech32 (tv_Sender req) <> Some vest_addr /\ forall d, owed s d + amount (tv_Amount req) d < 2 ^ 63
  | VvBatch req => batch_ValidateBasic req = Ok tt /\ 0 <= bt_VestingEpochs req /\
      AccAddressFromBech32 (bt_Sender req) <> Some vest_addr /\ forall d, owed s d + outputs_sum (fun _ => true) (bt_Outputs req) d < 2 ^ 63
  | VvOther bk => bank_ok (bk_bank bk) /\ is_module (bk_bank bk) vest_addr = true /\
      forall d, GetBalance (bank_of s) vest_addr d <= GetBalance (bk_bank bk) vest_addr d
  | _ => True
  end.

Inductive vest_trace : list VestingEvent -> VV -> VV -> Prop :=
| vest_nil s : vest_trace [] s s
| vest_cons ev evs s s' : vest_event_ok ev s -> vest_trace evs (vest_apply ev s) s' -> vest_trace (ev :: evs) s s'.
End Events.
Arguments VestingEvent B : clear implicits.

(* ------------------------------------------------------------------ *)
(** ** Epochs *)

Section Epochs.
Context {B : Type} `{!AccAddressCodec} `{!CoinLib} `{!CoinsLib} `{!CoinLaws} `{!CoinsLaws} `{!BankKeeper B} `{!BankLaws B}.
Context (logConfig : LogConfig) (restrict : Restriction B) `{!ModulesPermitted restrict}.
Context (Hname : has_module vesting_ModuleName = true).
Abbreviation VV := (Vesting B).
Implicit Types (s : VV) (a b : AccAddress) (d : string) (amt : Coins) (sch : VestingSchedule).

Lemma after_unlock_total sch d : Forall (fun cs => Coins_IsValid cs = true) (sc_EpochAmounts sch) ->
  from_option (fun x => total (sc_EpochAmounts x) d) 0 (after_unlock sch) = total (sc_EpochAmounts sch) d - payment sch d.
Proof.
  intros Hv. unfold after_unlock, payment. destruct (sc_EpochAmounts sch) as [|cs rest] eqn:He; [cbn [from_option]; by rewrite He, Z.sub_0_r|].
  apply Forall_cons in Hv as [Hcs _]. destruct (Coins_IsZero cs) eqn:Hz; cbn [negb andb].
  - apply zero_iff in Hz as ->; [|done]. destruct rest; cbn [from_option sc_EpochAmounts]; destruct (unpayable sch); unfold total; rewrite ?lsum_cons; change (amount [] d) with 0; cbn; lia.
  - destruct (unpayable sch); [cbn [from_option]; rewrite He; lia|]. destruct rest; cbn [from_option sc_EpochAmounts]; unfold total; rewrite ?lsum_cons; cbn [lsum foldr]; lia.
Qed.

Lemma after_unlock_schedule a sch sch' : AccAddressFromBech32 (sc_ParticipantAddress sch) = Some a ->
  Forall (fun cs => Coins_IsValid cs = true) (sc_EpochAmounts sch) -> after_unlock sch = Some sch' ->
  AccAddressFromBech32 (sc_ParticipantAddress sch') = Some a /\ Forall (fun cs => Coins_IsValid cs = true) (sc_EpochAmounts sch').
Proof.
  unfold after_unlock. intros Hp Hv. destruct (sc_EpochAmounts sch) as [|cs rest] eqn:He; [intros [= <-]; by rewrite He|].
  destruct (_ && _); [intros [= <-]; by rewrite He|]. apply Forall_cons in Hv as [_ Hv]. destruct rest; [done|]. by intros [= <-].
Qed.

Lemma unlocked_owed s s' d : vest_ok s -> unlocked (schedule_keys s) s s' ->
  owed s' d = owed s d - lsum (fun a => pays s a d) (schedule_keys s).
Proof.
  intros Hok Hun. unfold owed, pays. rewrite (un_schedules _ _ _ Hun).
  apply (alter_all_sum after_unlock (fun x => total (sc_EpochAmounts x) d) (fun x => payment x d)); [apply NoDup_schedule_keys|].
  intros a sch _ Hs. apply after_unlock_total. by apply (vo_schedules s Hok a).
Qed.

Lemma unlocked_ok s s' : vest_ok s -> unlocked (schedule_keys s) s s' -> vest_ok s' /\ forall d, free s d <= free s' d.
Proof.
  intros Hok Hun. pose proof (un_same _ _ _ Hun) as Hsame.
  assert (forall d, 0 <= lsum (fun a => pays s a d) (schedule_keys s)) as Hnn by (intros d; apply lsum_nonneg; intros; by apply pays_bounds).
  assert (forall d, free s d <= free s' d) as Hfree.
  { intros d. unfold free. rewrite (unlocked_owed s s' d Hok Hun), (un_balance _ _ _ Hun), (bool_decide_eq_true_2 (vest_addr = vest_addr)) by done.
    pose proof (pays_bounds s vest_addr d Hok). case_bool_decide; lia. }
  split; [|done]. split.
  - intros a sch. rewrite (un_schedules _ _ _ Hun), alter_all_lookup by apply NoDup_schedule_keys. case_bool_decide; [|by apply (vo_schedules s Hok)].
    intros (sch0 & Hs & Ha)%bind_Some. destruct (vo_schedules s Hok a sch0 Hs). by eapply after_unlock_schedule.
  - intros d. specialize (Hfree d). pose proof (vo_backed s Hok d). lia.
  - intros d. rewrite (unlocked_owed s s' d Hok Hun). pose proof (vo_small s Hok d). specialize (Hnn d). lia.
  - by apply Hsame, (vo_bank s Hok).
  - by apply Hsame, (vo_module s Hok).
Qed.

(** Receiving [amt] and vesting it. *)
Lemma received_free s s' from amt d : moved (bank_of s) (bank_of s') from vest_addr amt -> from <> vest_addr ->
  GetBalance (bank_of s') vest_addr d = GetBalance (bank_of s) vest_addr d + amount amt d.
Proof. intros Hm Hne. rewrite (mv_balance _ _ _ _ _ Hm), (bool_decide_eq_false_2 (vest_addr = from)), (bool_decide_eq_true_2 (vest_addr = vest_addr)) by done. lia. Qed.

Lemma received_ok s from amt s' n : vest_ok s -> from <> vest_addr -> (forall d, owed s d + amount amt d < 2 ^ 63) -> (0 < n)%nat ->
  moved (bank_of s) (bank_of s') from vest_addr amt ->
  (amt = [] /\ VestingSchedules s' = VestingSchedules s) \/ (exists a, vested s a n amt s') -> vest_ok s' /\ forall d, free s' d = free s d.
Proof.
  intros Hok Hself Hsmall Hn Hm Hcase. pose proof (mv_same _ _ _ _ _ Hm) as Hsame.
  assert (forall d, owed s' d = owed s d + amount amt d) as Howed.
  { intros d. destruct Hcase as [[-> Hs]|[a Hv]]; [unfold owed; rewrite Hs; change (amount [] d) with 0; lia|by eapply vested_owed]. }
  assert (forall d, free s' d = free s d) as Hfree by (intros d; unfold free; rewrite Howed, (received_free s s' from amt d Hm Hself); lia).
  split; [|done]. assert (forall d, 0 <= free s' d) as Hback by (intros d; rewrite Hfree; apply (vo_backed s Hok)).
  assert (bank_ok (bank_of s')) as Hbank by (by apply Hsame, (vo_bank s Hok)).
  assert (is_module (bank_of s') vest_addr = true) as Hmod by (by apply Hsame, (vo_module s Hok)).
  destruct Hcase as [[_ Hs]|[a Hv]]; [|by eapply vested_ok]. split; [|done| |done|done].
  - rewrite Hs. apply (vo_schedules s Hok).
  - intros d. by rewrite Howed.
Qed.

(** What a completed epoch does for one participant. *)
Lemma unlocked_participant s s' a : vest_ok s -> unlocked (schedule_keys s) s s' -> BlockedAddr a = false -> a <> vest_addr ->
  epochs_of s' a = drop 1 (epochs_of s a) /\
  forall d, GetBalance (bank_of s') a d = GetBalance (bank_of s) a d + total (take 1 (epochs_of s a)) d.
Proof.
  intros Hok Hun Hb Ha. unfold epochs_of. rewrite (un_schedules _ _ _ Hun), alter_all_lookup by apply NoDup_schedule_keys.
  assert (forall d, GetBalance (bank_of s') a d = GetBalance (bank_of s) a d + pays s a d) as Hbal.
  { intros d. rewrite (un_balance _ _ _ Hun), (bool_decide_eq_false_2 (a = vest_addr)) by done. unfold pays.
    case_bool_decide as Hin; [lia|]. rewrite schedule_keys_iff in Hin. destruct (VestingSchedules s !! a); [by destruct Hin|cbn; lia]. }
  rewrite (bool_decide_ext _ _ (schedule_keys_iff s a)). setoid_rewrite Hbal. unfold pays.
  destruct (VestingSchedules s !! a) as [sch|] eqn:Hs; [|rewrite bool_decide_eq_false_2 by (by intros [? ?]); by split; [|intros d]].
  rewrite bool_decide_eq_true_2 by done. cbn [mbind option_bind from_option]. destruct (vo_schedules s Hok a sch Hs) as [Hp _].
  assert (unpayable sch = false) as Hun' by (unfold unpayable; by rewrite Hp). unfold after_unlock, payment.
  destruct (sc_EpochAmounts sch) as [|cs rest] eqn:He; [split; [cbn; by rewrite He|intros d; cbn; lia]|].
  rewrite Hun', andb_false_r. split; [by destruct rest|]. intros d. cbn [take]. unfold total. rewrite take_0, lsum_one. done.
Qed.

(** [k] epochs in a row. *)
Definition advance_epochs (es : list Z) : GoM VV fault unit := mfold (fun _ e => vesting_AdvanceEpoch logConfig restrict e) tt es.

(** However many epochs complete, none of them fails, and each pays every participant the
    bank can pay the next entry of the schedule. *)
Lemma vest_advance_run es s a : vest_ok s -> BlockedAddr a = false -> a <> vest_addr ->
  exists s', advance_epochs es s = (s', Ok tt) /\ epochs_of s' a = drop (length es) (epochs_of s a) /\
    (forall d, GetBalance (bank_of s') a d = GetBalance (bank_of s) a d + total (take (length es) (epochs_of s a)) d) /\ vest_ok s'.
Proof.
  intros Hok Hb Ha. revert s Hok. induction es as [|e es IH]; intros s Hok.
  { exists s. rewrite drop_0, take_0. split_and!; [done|done| |done]. intros d. change (total [] d) with 0. lia. }
  destruct (process_run logConfig restrict Hname s Hok) as (s1 & Hrun & Hun). destruct (unlocked_ok s s1 Hok Hun) as [Hok1 _].
  destruct (unlocked_participant s s1 a Hok Hun Hb Ha) as [He1 Hb1]. destruct (IH s1 Hok1) as (s' & Hrun' & He' & Hb' & Hok').
  exists s'. split_and!; [|by rewrite He', He1, drop_drop| |done].
  - unfold advance_epochs. cbn [mfold]. by rewrite (bind_run _ _ s s1 tt).
  - intros d. rewrite Hb', Hb1, He1. destruct (epochs_of s a) as [|cs rest].
    { cbn [drop]. rewrite !take_nil. change (total [] d) with 0. lia. }
    cbn [length]. rewrite firstn_cons.
    unfold total. cbn [drop take]. rewrite take_0, drop_0, lsum_one, lsum_cons. lia.
Qed.

Lemma total_take (cs : list Coins) k d : total (take k cs) d = lsum (fun i => at_epoch cs i d) (seq 0 k).
Proof.
  rewrite (total_seq _ k) by (rewrite length_take; lia). apply lsum_ext. intros i Hi%elem_of_seq. unfold at_epoch. by rewrite lookup_take_lt by lia.
Qed.

(** C14: A reward is paid out in full and on time: once [AddVestedRewards] succeeded, every
    completed epoch goes through, and after [k] of them the participant has received
    exactly the first [k] entries of the old schedule plus the quotient of the reward for
    each of the first epochs, and its remainder with the first; when all epochs have
    passed, everything was paid and nothing is scheduled any more. *)
Theorem reward_paid_out s p a fund amt ve memo s1 es (epochs := default (vesting_GetParams s) ve) :
  vest_ok s -> has_module fund = true -> NewModuleAddress fund <> vest_addr -> (forall d, owed s d + amount amt d < 2 ^ 63) -> 0 <= epochs < 2 ^ 63 ->
  AccAddressFromBech32 p = Some a -> BlockedAddr a = false -> a <> vest_addr -> a <> NewModuleAddress fund ->
  AddVestedRewards logConfig restrict p fund amt ve memo s = (s1, Ok tt) ->
  exists s', advance_epochs es s1 = (s', Ok tt) /\
    (forall d, GetBalance (bank_of s') a d = GetBalance (bank_of s) a d +
      lsum (fun i => at_epoch (epochs_of s a) i d + if (i <? Z.to_nat epochs)%nat then share (Z.to_nat epochs) (amount amt d) i else 0) (seq 0 (length es))) /\
    ((length (epochs_of s a) <= length es)%nat -> (Z.to_nat epochs <= length es)%nat -> epochs_of s' a = [] /\
      forall d, GetBalance (bank_of s') a d = GetBalance (bank_of s) a d + total (epochs_of s a) d + amount amt d).
Proof.
  intros Hok Hfund Hself Hsmall He Hp Hb Ha Haf Hrun. pose proof (reward_wp logConfig restrict Hname s p fund amt ve memo Hok Hfund Hsmall He) as Hwp.
  unfold wp in Hwp. rewrite Hrun in Hwp. cbn [ok_or] in Hwp. fold epochs in Hwp. destruct Hwp as (Hpos & Hm & Hcase).
  destruct (received_ok s _ amt s1 (Z.to_nat epochs) Hok Hself Hsmall ltac:(lia) Hm) as [Hok1 _].
  { destruct Hcase as [(-> & Hs & _)|(b & _ & Hv)]; [by left|by right; exists b]. }
  assert (forall d, GetBalance (bank_of s1) a d = GetBalance (bank_of s) a d) as Hb1.
  { intros d. rewrite (mv_balance _ _ _ _ _ Hm), !bool_decide_eq_false_2 by done. lia. }
  assert (spread (Z.to_nat epochs) amt (epochs_of s a) (epochs_of s1 a) \/ (amt = [] /\ epochs_of s1 a = epochs_of s a)) as Hsp.
  { destruct Hcase as [(-> & Hs & _)|(b & Hb' & Hv)]; [right; split; [done|]; unfold epochs_of; by rewrite Hs|left]. simplify_eq. apply Hv. }
  assert (forall i d, at_epoch (epochs_of s1 a) i d = at_epoch (epochs_of s a) i d + if (i <? Z.to_nat epochs)%nat then share (Z.to_nat epochs) (amount amt d) i else 0) as Hat.
  { intros i d. destruct Hsp as [Hsp|[-> ->]]; [apply Hsp|]. change (amount [] d) with 0. rewrite share_zero. destruct (i <? _)%nat; lia. }
  assert (length (epochs_of s1 a) <= Nat.max (length (epochs_of s a)) (Z.to_nat epochs))%nat as Hlen.
  { destruct Hsp as [Hsp|[_ ->]]; [rewrite (sp_length _ _ _ _ Hsp)|]; lia. }
  destruct (vest_advance_run es s1 a Hok1 Hb Ha) as (s' & Hadv & He' & Hbal & _). exists s'. split; [done|].
  assert (forall d, GetBalance (bank_of s') a d = GetBalance (bank_of s) a d +
      lsum (fun i => at_epoch (epochs_of s a) i d + if (i <? Z.to_nat epochs)%nat then share (Z.to_nat epochs) (amount amt d) i else 0) (seq 0 (length es))) as Hpaid.
  { intros d. rewrite Hbal, Hb1, total_take. f_equal. apply lsum_ext. intros i _. apply Hat. }
  split; [done|]. intros H5 H6. split; [rewrite He'; apply drop_ge; lia|]. intros d. rewrite Hpaid, lsum_plus, <-total_seq, share_sum by lia. lia.
Qed.
End Epochs.

(* ------------------------------------------------------------------ *)
(** ** Transfers *)

Section Transfers.
Context {B : Type} `{!AccAddressCodec} `{!CoinLib} `{!CoinsLib} `{!CoinLaws} `{!CoinsLaws} `{!BankKeeper B} `{!BankLaws B}.
Context (logConfig : LogConfig) (restrict : Restriction B) `{!ModulesPermitted restrict} (authority : string).
Context (Hname : has_module vesting_ModuleName = true).
Abbreviation VV := (Vesting B).
Implicit Types (s : VV) (a b : AccAddress) (d : string) (amt : Coins).

Lemma normal_epochs e : 0 <= e <= MaxVestingEpochs -> 0 < normalizeVestingEpochs e <= MaxVestingEpochs.
Proof. unfold normalizeVestingEpochs, MaxVestingEpochs, DefaultVestingEpochs. destruct (Z.eqb_spec e 0); lia. Qed.

Lemma transfer_valid req : transfer_ValidateBasic req = Ok tt ->
  Coins_IsValid (tv_Amount req) = true /\ tv_VestingEpochs req <= MaxVestingEpochs.
Proof.
  unfold transfer_ValidateBasic.
  intros ([] & _ & ([] & _ & ([] & _ & ([] & Hv%ocheck_Ok & ([] & _ & ([] & He%ocheck_Ok & _)%obind_Ok)%obind_Ok)%obind_Ok)%obind_Ok)%obind_Ok)%obind_Ok.
  split; [done|lia].
Qed.

(** [TransferWithVesting]: the sender's coins are vested for the recipient. *)
Lemma transfer_wp s req : vest_ok s -> transfer_ValidateBasic req = Ok tt -> 0 <= tv_VestingEpochs req ->
  (forall d, owed s d + amount (tv_Amount req) d < 2 ^ 63) ->
  wp (TransferWithVesting logConfig restrict authority req) (ok_or False (fun s' _ => exists from a,
    AccAddressFromBech32 (tv_Sender req) = Some from /\ AccAddressFromBech32 (tv_Recipient req) = Some a /\
    isAllowedVestingSender authority (tv_Sender req) = true /\
    moved (bank_of s) (bank_of s') from vest_addr (tv_Amount req) /\
    vested s a (Z.to_nat (normalizeVestingEpochs (tv_VestingEpochs req))) (tv_Amount req) s')) s.
Proof.
  intros Hok [Hv Hmax]%transfer_valid He Hsmall. pose proof (normal_epochs _ (conj He Hmax)) as Hn. unfold MaxVestingEpochs in Hn.
  unfold TransferWithVesting. wp_succeed. rename v into from. wp_succeed. wp_step. apply wp_books. eapply wp_mono.
  { apply (booked_wp logConfig restrict from vest_addr). apply send_to_module; [by apply vo_module|done]. }
  intros bk [[]|]; cbn [ok_or]; [|tauto]. intros [_ Hm]. cbv beta iota. wp_step. apply (wp_keeps view); [apply log_holding_view|].
  intros s1 [[]|] Hview; [|cbn; tauto]. injection Hview as Hs1 Hp1 Hb1. cbn in Hs1, Hp1, Hb1. cbv beta iota.
  set (n := Z.to_nat (normalizeVestingEpochs (tv_VestingEpochs req))).
  replace (normalizeVestingEpochs (tv_VestingEpochs req)) with (Z.of_nat n) by (unfold n; lia).
  eapply wp_mono; [apply (apply_wp s s1 (tv_Recipient req) n (tv_Amount req)); [done|done|done|lia|unfold is_i64; lia|done|done]|].
  intros s' [[]|]; cbn [ok_or]; [|tauto]. intros (a & Ha & Hve & Hb). exists from, a. rewrite Hb, Hb1. done.
Qed.

(* ------------------------------------------------------------------ *)
(** ** Batches *)

Implicit Types (agg : gmap string Coins) (outs : list BatchVestingOutput) (P : string -> bool).

Definition agg_sum P agg d : Z := msum (fun r cs => if P r then amount cs d else 0) agg.
Definition agg_valid agg : Prop := forall r cs, agg !! r = Some cs -> Coins_IsValid cs = true.

Lemma zget_valid agg r : agg_valid agg -> Coins_IsValid (zget [] r agg) = true.
Proof. intros Hv. unfold zget. destruct (agg !! r) as [cs|] eqn:Hr; cbn; [by eapply Hv|apply valid_none]. Qed.

Lemma agg_sum_nonneg P agg d : agg_valid agg -> 0 <= agg_sum P agg d.
Proof. intros Hv. apply msum_nonneg. intros r cs Hr. destruct (P r); [|done]. by apply amount_nonneg, (Hv r). Qed.

Lemma zget_le_sum agg r d : agg_valid agg -> amount (zget [] r agg) d <= agg_sum (fun _ => true) agg d.
Proof.
  intros Hv. unfold zget, agg_sum. pose proof (msum_option_le (fun cs => amount cs d) agg r) as Hle.
  destruct (agg !! r) as [cs|] eqn:Hr; cbn [default from_option] in *; [|change (amount [] d) with 0; exact (agg_sum_nonneg (fun _ => true) agg d Hv)].
  apply Hle. intros r' cs' Hr'. by apply amount_nonneg, (Hv r').
Qed.

Lemma aggregate_run outs agg : agg_valid agg -> Forall (fun o => Coins_IsValid (bo_Amount o) = true) outs ->
  (forall d, agg_sum (fun _ => true) agg d + outputs_sum (fun _ => true) outs d < max_int) ->
  exists agg', ofold aggregate_one agg outs = Ok agg' /\ agg_valid agg' /\
    forall P d, agg_sum P agg' d = agg_sum P agg d + outputs_sum P outs d.
Proof.
  intros Hagg Hv. revert agg Hagg. induction Hv as [|o outs Ho Hv IH]; intros agg Hagg Hmax.
  { exists agg. split_and!; [done|done|]. intros. unfold outputs_sum. cbn. lia. }
  assert (forall d, 0 <= outputs_sum (fun _ => true) outs d) as Hnn.
  { intros d. apply lsum_nonneg. intros x Hx. rewrite Forall_forall in Hv. by apply amount_nonneg, Hv. }
  destruct (add_coins (zget [] (bo_Recipient o) agg) (bo_Amount o)) as (cs & Hcs & Hvcs & Ha); [by apply zget_valid|done| |].
  { intros d. pose proof (zget_le_sum agg (bo_Recipient o) d Hagg). specialize (Hmax d). unfold outputs_sum in *. rewrite lsum_cons in Hmax. specialize (Hnn d). lia. }
  assert (forall P d, agg_sum P (<[bo_Recipient o := cs]> agg) d = agg_sum P agg d + if P (bo_Recipient o) then amount (bo_Amount o) d else 0) as Hsum.
  { intros P d. unfold agg_sum. rewrite msum_insert_any, Ha. unfold zget. destruct (agg !! bo_Recipient o); cbn [default from_option id];
      [|change (amount [] d) with 0]; destruct (P (bo_Recipient o)); lia. }
  destruct (IH (<[bo_Recipient o := cs]> agg)) as (agg' & Hagg' & Hv' & Hsum').
  - intros r cs' [[<- <-]|[_ Hr]]%lookup_insert_Some; [done|by eapply Hagg].
  - intros d. rewrite Hsum. specialize (Hmax d). unfold outputs_sum in *. rewrite lsum_cons in Hmax. lia.
  - exists agg'. cbn [ofold]. unfold aggregate_one at 1. rewrite Hcs. cbn [obind]. split_and!; [done|done|]. intros P d. rewrite Hsum', Hsum.
    unfold outputs_sum. rewrite lsum_cons. lia.
Qed.

Lemma recipients_sum P agg d :
  lsum (fun r => if P r then amount (zget [] r agg) d else 0) (recipients_of agg) = agg_sum P agg d.
Proof.
  unfold recipients_of, agg_sum. rewrite (lsum_perm _ _ _ (merge_sort_Permutation _ _)), msum_map_to_list, lsum_fmap. apply lsum_ext.
  intros [r cs] Hin%elem_of_map_to_list. unfold zget. cbn. by rewrite Hin.
Qed.

Lemma total_amount_run agg rs acc : agg_valid agg -> Coins_IsValid acc = true ->
  (forall d, amount acc d + lsum (fun r => amount (zget [] r agg) d) rs < max_int) ->
  exists tot, ofold (fun total r => Coins_Add total (zget [] r agg)) acc rs = Ok tot /\ Coins_IsValid tot = true /\
    forall d, amount tot d = amount acc d + lsum (fun r => amount (zget [] r agg) d) rs.
Proof.
  intros Hv. revert acc. induction rs as [|r rs IH]; intros acc Hacc Hmax; [exists acc; split_and!; [done|done|intros; cbn; lia]|].
  assert (forall d, 0 <= lsum (fun r => amount (zget [] r agg) d) rs) as Hnn by (intros d; apply lsum_nonneg; intros; by apply amount_nonneg, zget_valid).
  destruct (add_coins acc (zget [] r agg) Hacc (zget_valid agg r Hv)) as (acc1 & Hadd & Hacc1 & Ha).
  { intros d. specialize (Hmax d). rewrite lsum_cons in Hmax. specialize (Hnn d). lia. }
  destruct (IH acc1 Hacc1) as (tot & Htot & Hvt & Hat). { intros d. specialize (Hmax d). rewrite lsum_cons in Hmax. rewrite Ha. lia. }
  exists tot. cbn [ofold]. rewrite Hadd. cbn [obind]. split_and!; [done|done|]. intros d. rewrite Hat, Ha, lsum_cons. lia.
Qed.

(** What vesting for one participant does to the schedules of all. *)
Lemma vested_totals s a n amt s' b d : (0 < n)%nat -> vested s a n amt s' ->
  total (epochs_of s' b) d = total (epochs_of s b) d + if bool_decide (a = b) then amount amt d else 0.
Proof.
  intros Hn Hv. case_bool_decide as Hab; [subst b; by apply (spread_total n), Hv|]. destruct Hv as [_ (p & _ & Hs) _].
  unfold epochs_of at 1. rewrite Hs, lookup_insert_ne by done. unfold epochs_of. lia.
Qed.

Lemma batch_loop_wp sender agg n rs : agg_valid agg -> (0 < n)%nat -> is_i64 (Z.of_nat n) -> forall s, vest_ok s ->
  (forall d, lsum (fun r => amount (zget [] r agg) d) rs <= free s d) ->
  (forall d, owed s d + lsum (fun r => amount (zget [] r agg) d) rs < 2 ^ 63) ->
  wp (mfold (fun _ recipient =>
      run* log_holding logConfig vesting_ModuleName recipient (zget [] recipient agg) ("batch transfer with vesting from " +:+ sender) in
      applyVestingSchedule recipient (zget [] recipient agg) (Z.of_nat n)) tt rs) (ok_or False (fun s' _ =>
    vest_ok s' /\ vest_params s' = vest_params s /\ bank_of s' = bank_of s /\
    forall d, owed s' d = owed s d + lsum (fun r => amount (zget [] r agg) d) rs /\
      forall a, total (epochs_of s' a) d = total (epochs_of s a) d +
        lsum (fun r => if bool_decide (AccAddressFromBech32 r = Some a) then amount (zget [] r agg) d else 0) rs)) s.
Proof.
  intros Hagg Hn Hi. induction rs as [|r rs IH]; intros s Hok Hfree Hsmall; cbn [mfold].
  { wp_step. cbn. split_and!; [done..|]. intros d. split; [lia|]. intros; lia. }
  assert (forall d, 0 <= lsum (fun r => amount (zget [] r agg) d) rs) as Hnn by (intros d; apply lsum_nonneg; intros; by apply amount_nonneg, zget_valid).
  assert (forall d, owed s d + amount (zget [] r agg) d < 2 ^ 63) as Hone.
  { intros d. specialize (Hsmall d). rewrite lsum_cons in Hsmall. specialize (Hnn d). lia. }
  wp_step. wp_step. apply (wp_keeps view); [apply log_holding_view|]. intros s1 [[]|] Hview; [|cbn; tauto]. injection Hview as Hs1 Hp1 Hb1. cbv beta iota.
  eapply wp_mono; [by apply (apply_wp s s1 r n (zget [] r agg)); [..|apply zget_valid|]|].
  intros s2 [[]|]; cbn [ok_or]; [|tauto]. intros (a & Ha & Hve & Hb2). cbv beta iota.
  assert (bank_of s2 = bank_of s) as Hbank by congruence.
  assert (forall d, free s2 d = free s d - amount (zget [] r agg) d) as Hfree2.
  { intros d. unfold free. rewrite Hbank, (vested_owed s a n _ s2 d Hn Hve). lia. }
  assert (vest_ok s2) as Hok2.
  { eapply vested_ok; [done..|rewrite Hbank; apply (vo_bank s Hok)|rewrite Hbank; apply (vo_module s Hok)| |done].
    intros d. rewrite Hfree2. specialize (Hfree d). rewrite lsum_cons in Hfree. specialize (Hnn d). lia. }
  eapply wp_mono; [apply (IH s2 Hok2)|].
  - intros d. rewrite Hfree2. specialize (Hfree d). rewrite lsum_cons in Hfree. lia.
  - intros d. rewrite (vested_owed s a n _ s2 d Hn Hve). specialize (Hsmall d). rewrite lsum_cons in Hsmall. lia.
  - intros s' [[]|]; cbn [ok_or]; [|tauto]. intros (Hok' & Hp' & Hb' & Htot). split_and!; [done|rewrite Hp'; apply Hve|congruence|].
    intros d. destruct (Htot d) as [Ho' Ht']. rewrite Ho', (vested_owed s a n _ s2 d Hn Hve), lsum_cons. split; [lia|]. intros b.
    rewrite Ht', (vested_totals s a n _ s2 b d Hn Hve), lsum_cons, Ha.
    rewrite (bool_decide_ext (Some a = Some b) (a = b)) by naive_solver. lia.
Qed.

Lemma batch_valid req : batch_ValidateBasic req = Ok tt ->
  Forall (fun o => Coins_IsValid (bo_Amount o) = true) (bt_Outputs req) /\ bt_VestingEpochs req <= MaxVestingEpochs.
Proof.
  unfold batch_ValidateBasic.
  intros ([] & _ & ([] & _ & ([] & _ & ([] & He%ocheck_Ok & (acc & Hf & _)%obind_Ok)%obind_Ok)%obind_Ok)%obind_Ok)%obind_Ok. split; [|lia].
  revert Hf. generalize (0, ∅ : gmap string Coins) as acc0. induction (bt_Outputs req) as [|o outs IH]; intros acc0; [done|]. cbn [ofold].
  intros (acc1 & Ho & Hf)%obind_Ok. constructor; [|by eapply IH]. destruct acc0 as [n agg]. unfold validate_output in Ho.
  apply obind_Ok in Ho as ([] & _ & ([] & _ & ([] & Hv%ocheck_Ok & _)%obind_Ok)%obind_Ok). done.
Qed.

(** A batch that went through. *)
Record batched s (req : MsgBatchTransferWithVesting) from s' : Prop := {
  ba_allowed : isAllowedVestingSender authority (bt_Sender req) = true;
  ba_moved : exists tot, moved (bank_of s) (bank_of s') from vest_addr tot /\ forall d, amount tot d = outputs_sum (fun _ => true) (bt_Outputs req) d;
  ba_schedules : forall a d, total (epochs_of s' a) d = total (epochs_of s a) d +
    outputs_sum (fun r => bool_decide (AccAddressFromBech32 r = Some a)) (bt_Outputs req) d;
  ba_owed : forall d, owed s' d = owed s d + outputs_sum (fun _ => true) (bt_Outputs req) d;
  ba_params : vest_params s' = vest_params s
}.

Lemma batch_wp s req : vest_ok s -> vest_event_ok (VvBatch req) s ->
  wp (BatchTransferWithVesting logConfig restrict authority req) (ok_or False (fun s' _ => exists from,
    AccAddressFromBech32 (bt_Sender req) = Some from /\ batched s req from s' /\ vest_ok s')) s.
Proof.
  intros Hok ([Hv Hmax]%batch_valid & He & Hself & Hsmall). pose proof (normal_epochs _ (conj He Hmax)) as Hn. unfold MaxVestingEpochs in Hn.
  unfold BatchTransferWithVesting. wp_succeed. rename v into from. wp_succeed.
  pose proof (fun d => owed_nonneg s d Hok) as Hnn.
  destruct (aggregate_run (bt_Outputs req) ∅) as (agg & Hagg & Hvalid & Hsum); [done|done| |].
  { intros d. change (agg_sum (fun _ => true) ∅ d) with 0. apply small_int. specialize (Hnn d). specialize (Hsmall d). lia. }
  assert (forall P d, agg_sum P agg d = outputs_sum P (bt_Outputs req) d) as Hagg_sum by (intros; rewrite Hsum; done).
  assert (forall d, lsum (fun r => amount (zget [] r agg) d) (recipients_of agg) = outputs_sum (fun _ => true) (bt_Outputs req) d) as Hrec.
  { intros d. rewrite <-(Hagg_sum (fun _ => true)). apply (recipients_sum (fun _ => true)). }
  unfold aggregate. rewrite Hagg. wp_step. apply wp_from; [|done]. intros agg' [= <-]. cbv beta iota. rewrite new_none. wp_step. apply wp_from; [|done].
  intros none [= <-]. cbv beta iota. destruct (total_amount_run agg (recipients_of agg) [] Hvalid valid_none) as (tot & Htot & Hvt & Hat).
  { intros d. rewrite Hrec. change (amount [] d) with 0. apply small_int. specialize (Hnn d). specialize (Hsmall d). lia. }
  rewrite Htot. wp_step. apply wp_from; [|done]. intros tot' [= <-]. cbv beta iota.
  wp_step. apply wp_books. eapply wp_mono. { apply (booked_wp logConfig restrict from vest_addr). apply send_to_module; [by apply vo_module|done]. }
  intros bk [[]|]; cbn [ok_or]; [|tauto]. intros [_ Hm]. cbv beta iota. set (s1 := set_vest_book bk s).
  assert (forall d, amount tot d = outputs_sum (fun _ => true) (bt_Outputs req) d) as Htotal by (intros d; rewrite Hat, Hrec; done).
  assert (from <> vest_addr) as Hne by (intros ->; congruence).
  assert (forall d, free s1 d = free s d + outputs_sum (fun _ => true) (bt_Outputs req) d) as Hfree.
  { intros d. rewrite <-Htotal. unfold free. rewrite (received_free s s1 from tot d Hm Hne). change (owed s1 d) with (owed s d). lia. }
  assert (forall d, 0 <= outputs_sum (fun _ => true) (bt_Outputs req) d) as Hpos by (intros d; rewrite <-Htotal; by apply amount_nonneg).
  assert (vest_ok s1) as Hok1.
  { destruct (mv_same _ _ _ _ _ Hm) as [_ Hmod Hbank]. split; [apply (vo_schedules s Hok)| |apply (vo_small s Hok)|apply Hbank, (vo_bank s Hok)|apply Hmod, (vo_module s Hok)].
    intros d. rewrite Hfree. specialize (Hpos d). pose proof (vo_backed s Hok d). lia. }
  set (n := Z.to_nat (normalizeVestingEpochs (bt_VestingEpochs req))).
  replace (normalizeVestingEpochs (bt_VestingEpochs req)) with (Z.of_nat n) by (unfold n; lia).
  eapply wp_mono; [apply (batch_loop_wp (bt_Sender req) agg n (recipients_of agg) Hvalid); [lia|unfold is_i64; lia|done|..]|].
  - intros d. rewrite Hrec, Hfree. pose proof (vo_backed s Hok d). lia.
  - intros d. rewrite Hrec. apply Hsmall.
  - intros s' [[]|]; cbn [ok_or]; [|tauto]. intros (Hok' & Hp' & Hb' & Htots). exists from. split; [done|]. split; [|done]. split.
    + done.
    + exists tot. split; [by rewrite Hb'|done].
    + intros a d. destruct (Htots d) as [_ Ht]. rewrite Ht, (recipients_sum (fun r => bool_decide (AccAddressFromBech32 r = Some a))), Hagg_sum. done.
    + intros d. destruct (Htots d) as [-> _]. by rewrite Hrec.
    + done.
Qed.

(** A batch of vesting transfers pays every recipient the sum of its outputs, however
    the outputs repeat or spell an address: the sender pays the total of all outputs to
    the module, each participant's schedule grows by exactly what the outputs name for it,
    and only the governance authority or the inference module may send one. *)
Theorem batch_vested s req s' : vest_ok s -> vest_event_ok (VvBatch req) s ->
  BatchTransferWithVesting logConfig restrict authority req s = (s', Ok tt) ->
  exists from, AccAddressFromBech32 (bt_Sender req) = Some from /\ batched s req from s'.
Proof.
  intros Hok Hev Hrun. pose proof (batch_wp s req Hok Hev) as Hwp. unfold wp in Hwp. rewrite Hrun in Hwp. cbn [ok_or] in Hwp.
  destruct Hwp as (from & Hf & Hb & _). by exists from.
Qed.

(** Every event keeps the module in order, and what it has beyond its debts does not
    shrink. *)
Lemma vest_event_preserves ev s : vest_ok s -> vest_event_ok ev s ->
  vest_ok (vest_apply logConfig restrict authority ev s) /\ forall d, free s d <= free (vest_apply logConfig restrict authority ev s) d.
Proof.
  intros Hok Hev. destruct ev as [p fund amt ve memo|req|req|e|auth p|bk]; cbn [vest_apply].
  - destruct Hev as (Hf & Hne & He & Hsmall). pose proof (reward_wp logConfig restrict Hname s p fund amt ve memo Hok Hf Hsmall He) as Hwp. unfold wp in Hwp.
    unfold cached. destruct (AddVestedRewards _ _ _ _ _ _ _ _) as [s1 [[]|]]; cbn [ok_or fst] in *; [|done]. destruct Hwp as (Hpos & Hm & Hcase).
    destruct (received_ok s _ amt s1 (Z.to_nat (default (vesting_GetParams s) ve)) Hok Hne Hsmall ltac:(lia) Hm) as [Hok1 Hfree].
    { destruct Hcase as [(-> & Hs & _)|(b & _ & Hv)]; [by left|by right; exists b]. }
    split; [done|]. intros d. by rewrite Hfree.
  - destruct Hev as (Hvb & He & Hne & Hsmall). pose proof (transfer_wp s req Hok Hvb He Hsmall) as Hwp. unfold wp in Hwp.
    apply transfer_valid in Hvb as [_ Hmax]. pose proof (normal_epochs _ (conj He Hmax)).
    unfold cached. destruct (TransferWithVesting _ _ _ _ _) as [s1 [[]|]]; cbn [ok_or fst] in *; [|done]. destruct Hwp as (from & a & Hfrom & _ & _ & Hm & Hv).
    destruct (received_ok s from (tv_Amount req) s1 (Z.to_nat (normalizeVestingEpochs (tv_VestingEpochs req))) Hok ltac:(congruence) Hsmall ltac:(lia) Hm (or_intror (ex_intro _ a Hv))) as [Hok1 Hfree].
    split; [done|]. intros d. by rewrite Hfree.
  - pose proof (batch_wp s req Hok Hev) as Hwp. unfold wp in Hwp. unfold cached.
    destruct (BatchTransferWithVesting _ _ _ _ _) as [s1 [[]|]]; cbn [ok_or fst] in *; [|done]. destruct Hwp as (from & Hfrom & Hb & Hok1).
    split; [done|]. intros d. destruct (ba_moved _ _ _ _ Hb) as (tot & Hm & Ht). destruct Hev as (_ & _ & Hne & _).
    unfold free. rewrite (ba_owed _ _ _ _ Hb), (received_free s s1 from tot d Hm), Ht by congruence. lia.
  - destruct (process_run logConfig restrict Hname s Hok) as (s1 & Hrun & Hun). unfold vesting_AdvanceEpoch. rewrite Hrun. by apply unlocked_ok.
  - unfold cached, vesting_UpdateParams, bind, check. case_bool_decide; cbn; [|done]. split; [|done]. by destruct Hok.
  - destruct Hev as (Hb & Hm & Hbal). split.
    + split; [apply (vo_schedules s Hok)| |apply (vo_small s Hok)|done|done]. intros d. pose proof (vo_backed s Hok d). specialize (Hbal d).
      unfold free in *. change (owed (set_vest_book bk s) d) with (owed s d). change (bank_of (set_vest_book bk s)) with (bk_bank bk). lia.
    + intros d. specialize (Hbal d). unfold free. change (owed (set_vest_book bk s) d) with (owed s d). change (bank_of (set_vest_book bk s)) with (bk_bank bk). lia.
Qed.

(** C15: Over any sequence of rewards, transfers, batches, completed epochs and foreign
    transfers, the vesting module's account covers everything that is scheduled, in every
    denomination, and what it holds beyond that never shrinks. *)
Theorem vesting_backed evs s s' : vest_ok s -> vest_trace logConfig restrict authority evs s s' ->
  forall d, owed s' d <= GetBalance (bank_of s') vest_addr d /\ free s d <= free s' d.
Proof.
  intros Hok Htr. assert (vest_ok s' /\ forall d, free s d <= free s' d) as [Hok' Hfree].
  { induction Htr as [s|ev evs s s' Hev _ IH]; [done|]. destruct (vest_event_preserves ev s Hok Hev) as [Hok1 Hf1].
    destruct (IH Hok1) as [Hok' Hf']. split; [done|]. intros d. etransitivity; [apply Hf1|apply Hf']. }
  intros d. split; [|done]. pose proof (vo_backed s' Hok' d) as Hb. unfold free in Hb. lia.
Qed.
End Transfers.

(* ------------------------------------------------------------------ *)
(** ** Genesis *)

Section Genesis.
Context {B : Type} `{!AccAddressCodec}.
Abbreviation VV := (Vesting B).
Implicit Types (s : VV).

Lemma init_schedules_run (m : gmap AccAddress VestingSchedule) ks s :
  (forall a sch, m !! a = Some sch -> AccAddressFromBech32 (sc_ParticipantAddress sch) = Some a) ->
  mfold (fun _ elem => must (SetVestingSchedule elem)) tt (omap (fun a => m !! a) ks) s =
    (set_VestingSchedules (write_back m ks (VestingSchedules s)) s, Ok tt).
Proof.
  intros Hp. revert s. induction ks as [|k ks IH]; intros s; [by destruct s|]. unfold write_back. cbn [omap list_omap fold_left].
  destruct (m !! k) as [sch|] eqn:Hk; [|apply IH]. cbn [mfold].
  rewrite (bind_run _ _ s (set_VestingSchedules (<[k := sch]> (VestingSchedules s)) s) tt); [by rewrite IH|].
  unfold must, SetVestingSchedule. by rewrite (Hp k sch Hk).
Qed.

(** Exporting the module's state and importing it into an empty store restores every
    schedule and the parameters. *)
Theorem vesting_genesis_roundtrip s s0 :
  (forall a sch, VestingSchedules s !! a = Some sch -> AccAddressFromBech32 (sc_ParticipantAddress sch) = Some a) -> VestingSchedules s0 = ∅ ->
  exists s', vesting_InitGenesis (vesting_ExportGenesis s) s0 = (s', Ok tt) /\
    VestingSchedules s' = VestingSchedules s /\ vesting_GetParams s' = vesting_GetParams s /\ vest_book s' = vest_book s0.
Proof.
  intros Hp H0. unfold vesting_InitGenesis, vesting_ExportGenesis, GetAllVestingSchedules. cbn [vg_VestingScheduleList vg_Params].
  rewrite (bind_run _ _ _ _ tt (init_schedules_run _ _ _ Hp)). eexists. split; [reflexivity|]. split; [|done]. cbn.
  rewrite H0. apply write_back_all. intros k. apply schedule_keys_iff.
Qed.
End Genesis.
