(* ===== verification/Collateral.v ===== *)
(** * The collateral module

    inference-chain/x/collateral: participants lock coins as collateral, take them back
    through an unbonding queue that is paid out when an epoch completes, and lose a
    fraction of both when they are slashed.  The record [Collateral] has the collections
    of the keeper; the handlers of msg_server_deposit_collateral.go and
    msg_server_withdraw_collateral.go, the keeper operations of keeper.go, the staking
    hooks and the genesis of module/ are one definition each.

    The bank is behind the class [CollateralEnv]. *)

From Stdlib Require Import QArith Qabs Qround.
From stdpp Require Import sorting.
From S2P Require Import Prelude.
From S2P Require Import ChainStore.
From S2P Require Import ChainCoins.
Open Scope Z_scope.
Open Scope go_scope.

(* ------------------------------------------------------------------ *)
(** ** State *)

(** [types.UnbondingCollateral] *)
Record UnbondingCollateral := MkUnbonding { ub_Participant : string; ub_CompletionEpoch : Z; ub_Amount : Coin }.

(** The collections of the keeper: [coll_params] is [None] when the parameters are not
    set, [CurrentEpoch] when no epoch was.  The index of [UnbondingIM] by participant
    is derived from it, as an indexed map keeps it. *)
Record Collateral (W : Type) := MkCollateral {
  CollateralMap : gmap AccAddress Coin;
  UnbondingIM : gmap (Z * AccAddress) UnbondingCollateral;
  CurrentEpoch : option Z;
  Jailed : gset AccAddress;
  SlashedInEpoch : gset (Z * AccAddress * string);
  coll_params : option Z;
  coll_World : W
}.
Arguments MkCollateral {W}.
Arguments CollateralMap {W}.
Arguments UnbondingIM {W}.
Arguments CurrentEpoch {W}.
Arguments Jailed {W}.
Arguments SlashedInEpoch {W}.
Arguments coll_params {W}.
Arguments coll_World {W}.

(** The bank, seen through the accounts of this module, of governance and of users; the
    provider of the required collateral (0 when there is none) and the maintenance
    checker, both of the inference module. *)
Class CollateralEnv (W : Type) := {
  CollateralBalance : W -> Z;
  GovBalance : W -> Z;
  UserBalance : W -> AccAddress -> Z;
  coll_SendCoinsFromModuleToAccount : AccAddress -> Coin -> W -> W * outcome string unit;
  coll_SendCoinsFromAccountToModule : AccAddress -> Coin -> W -> W * outcome string unit;
  coll_SendCoinsFromModuleToGov : Coin -> W -> W * outcome string unit;
  GetRequiredCollateralForSlash : W -> AccAddress -> Z;
  IsParticipantInActiveMaintenance : W -> AccAddress -> bool;
  (** The accounts that the bank can pay, which are all but those of modules. *)
  Payable : AccAddress -> Prop
}.

(** A send moves the coins.  From the module it goes through when the module has them
    and the recipient can be paid; amounts of 64 bits are too many for its log.  Users
    sign for what they send, and the bank can pay them. *)
Class CollateralEnvLaws (W : Type) `{CollateralEnv W} := {
  coll_send_out : forall a n w, 0 <= n <= CollateralBalance w -> n < 2 ^ 63 -> Payable a -> exists w',
    coll_SendCoinsFromModuleToAccount a (base n) w = (w', Ok tt) /\
    CollateralBalance w' = CollateralBalance w - n /\ GovBalance w' = GovBalance w /\
    (forall b, UserBalance w' b = UserBalance w b + if bool_decide (b = a) then n else 0);
  coll_send_in : forall a n w w', 0 <= n -> Payable a -> coll_SendCoinsFromAccountToModule a (base n) w = (w', Ok tt) ->
    CollateralBalance w' = CollateralBalance w + n /\ GovBalance w' = GovBalance w /\
    (forall b, UserBalance w' b = UserBalance w b - if bool_decide (b = a) then n else 0);
  coll_send_gov : forall n w, 0 <= n <= CollateralBalance w -> n < 2 ^ 63 -> exists w',
    coll_SendCoinsFromModuleToGov (base n) w = (w', Ok tt) /\
    CollateralBalance w' = CollateralBalance w - n /\ GovBalance w' = GovBalance w + n /\
    (forall b, UserBalance w' b = UserBalance w b)
}.

Section Keeper.
Context {W : Type} `{!AccAddressCodec} `{!CoinLib} `{!LegacyDecLib} `{!CollateralEnv W}.
Abbreviation CC := (Collateral W).
Abbreviation K := (GoM (Collateral W) string).

Definition set_CollateralMap x (c : CC) : CC :=
  MkCollateral x (UnbondingIM c) (CurrentEpoch c) (Jailed c) (SlashedInEpoch c) (coll_params c) (coll_World c).
Definition set_UnbondingIM x (c : CC) : CC :=
  MkCollateral (CollateralMap c) x (CurrentEpoch c) (Jailed c) (SlashedInEpoch c) (coll_params c) (coll_World c).
Definition set_CurrentEpoch x (c : CC) : CC :=
  MkCollateral (CollateralMap c) (UnbondingIM c) x (Jailed c) (SlashedInEpoch c) (coll_params c) (coll_World c).
Definition set_Jailed x (c : CC) : CC :=
  MkCollateral (CollateralMap c) (UnbondingIM c) (CurrentEpoch c) x (SlashedInEpoch c) (coll_params c) (coll_World c).
Definition set_SlashedInEpoch x (c : CC) : CC :=
  MkCollateral (CollateralMap c) (UnbondingIM c) (CurrentEpoch c) (Jailed c) x (coll_params c) (coll_World c).
Definition set_coll_params x (c : CC) : CC :=
  MkCollateral (CollateralMap c) (UnbondingIM c) (CurrentEpoch c) (Jailed c) (SlashedInEpoch c) x (coll_World c).
Definition set_coll_World x (c : CC) : CC :=
  MkCollateral (CollateralMap c) (UnbondingIM c) (CurrentEpoch c) (Jailed c) (SlashedInEpoch c) (coll_params c) x.
Definition on_bank {A} (f : W -> W * outcome string A) : K A :=
  fun c => let '(w, r) := f (coll_World c) in (set_coll_World w c, r).

(* ------------------------------------------------------------------ *)
(** ** Keeper *)

(** [SetCollateral], [GetCollateral], [RemoveCollateral] *)
Definition SetCollateral (a : AccAddress) (amount : Coin) : K unit :=
  modify (fun c => set_CollateralMap (<[a := amount]> (CollateralMap c)) c).
Definition GetCollateral (c : CC) (a : AccAddress) : option Coin := CollateralMap c !! a.
Definition RemoveCollateral (a : AccAddress) : K unit :=
  modify (fun c => set_CollateralMap (delete a (CollateralMap c)) c).

(** [func (k Keeper) setUnbondingCollateralEntry(ctx, unbonding) error] *)
Definition setUnbondingCollateralEntry (unbonding : UnbondingCollateral) : K unit :=
  let* a := lift_option (AccAddressFromBech32 (ub_Participant unbonding)) "invalid participant address" in
  modify (fun c => set_UnbondingIM (<[(ub_CompletionEpoch unbonding, a) := unbonding]> (UnbondingIM c)) c).

(** [func (k Keeper) AddUnbondingCollateral(ctx, participantAddress, completionEpoch, amount) error] *)
Definition AddUnbondingCollateral (a : AccAddress) (completionEpoch : Z) (amount : Coin) : K unit :=
  let* existing := reads (fun c => UnbondingIM c !! (completionEpoch, a)) in
  let* total := match existing with
                | Some u => from_outcome (Coin_Add amount (ub_Amount u))
                | None => ret amount
                end in
  setUnbondingCollateralEntry (MkUnbonding (AccAddress_String a) completionEpoch total).

(** [GetUnbondingCollateral], [RemoveUnbondingCollateral] *)
Definition GetUnbondingCollateral (c : CC) (a : AccAddress) (completionEpoch : Z) : option UnbondingCollateral :=
  UnbondingIM c !! (completionEpoch, a).
Definition RemoveUnbondingCollateral (a : AccAddress) (completionEpoch : Z) : K unit :=
  modify (fun c => set_UnbondingIM (delete (completionEpoch, a) (UnbondingIM c)) c).

(** The keys of an epoch, by address, and of a participant, by epoch. *)
Definition unbonding_keys (c : CC) (epoch : Z) : list (Z * AccAddress) :=
  epoch_keys bytes_le (dom (UnbondingIM c)) epoch.
Definition participant_keys (c : CC) (a : AccAddress) : list (Z * AccAddress) :=
  (fun e => (e, a)) <$> sort_Z (filter (fun k => k.2 = a) (elements (dom (UnbondingIM c)))).*1.

(** [func (k Keeper) RemoveUnbondingByEpoch(ctx, completionEpoch) error] *)
Definition RemoveUnbondingByEpoch (completionEpoch : Z) : K unit :=
  let* keys := reads (fun c => unbonding_keys c completionEpoch) in
  mfold (fun _ pk => modify (fun c => set_UnbondingIM (delete pk (UnbondingIM c)) c)) tt keys.

(** [GetUnbondingByEpoch], [GetUnbondingByParticipant] *)
Definition GetUnbondingByEpoch (c : CC) (completionEpoch : Z) : list UnbondingCollateral :=
  omap (fun pk => UnbondingIM c !! pk) (unbonding_keys c completionEpoch).
Definition GetUnbondingByParticipant (c : CC) (a : AccAddress) : list UnbondingCollateral :=
  omap (fun pk => UnbondingIM c !! pk) (participant_keys c a).

(** The body of the loop of [ProcessUnbondingQueue]. *)
Definition pay_unbonded (_ : unit) (entry : UnbondingCollateral) : K unit :=
  match AccAddressFromBech32 (ub_Participant entry) with
  | None => ret tt
  | Some a => on_bank (coll_SendCoinsFromModuleToAccount a (ub_Amount entry))
  end.

(** [func (k Keeper) ProcessUnbondingQueue(ctx, completionEpoch) error] *)
Definition ProcessUnbondingQueue (completionEpoch : Z) : K unit :=
  let* unbondingEntries := reads (fun c => GetUnbondingByEpoch c completionEpoch) in
  run* mfold pay_unbonded tt unbondingEntries in
  if (0 <? length unbondingEntries)%nat then RemoveUnbondingByEpoch completionEpoch else ret tt.

(** [func (k Keeper) AdvanceEpoch(ctx, completedEpoch uint64) error] *)
Definition AdvanceEpoch (completedEpoch : Z) : K unit :=
  run* ProcessUnbondingQueue completedEpoch in
  modify (set_CurrentEpoch (Some (u64 (completedEpoch + 1)))).

(** [func (k Keeper) checkIfAlreadySlashed(ctx, participantAddress, reason)] *)
Definition checkIfAlreadySlashed (a : AccAddress) (reason : string) : K (option (Z * AccAddress * string)) :=
  if bool_decide (reason = "") then ret None
  else
    let* c := get in
    let tripleKey := (default 0 (CurrentEpoch c), a, reason) in
    run* check (negb (bool_decide (tripleKey ∈ SlashedInEpoch c))) "already slashed" in
    ret (Some tripleKey).

(** The fraction that [Slash] applies to every holding. *)
Definition effective_fraction (slashFraction : LegacyDec) (requiredCollateral totalActual : Z) : LegacyDec :=
  if (0 <? requiredCollateral) && (0 <? totalActual) then
    let slashTarget := ld_Mul (LegacyNewDecFromInt (Z.min requiredCollateral totalActual)) slashFraction in
    let effectiveFraction := ld_Quo slashTarget (LegacyNewDecFromInt totalActual) in
    if ld_GT effectiveFraction LegacyOneDec then LegacyOneDec else effectiveFraction
  else slashFraction.

(** What is taken of one holding. *)
Definition slash_of (effectiveFraction : LegacyDec) (amount : Coin) : outcome string Coin :=
  NewCoin (cn_Denom amount) (ld_TruncateInt (ld_Mul (LegacyNewDecFromInt (cn_Amount amount)) effectiveFraction)).

(** Slashing the active collateral. *)
Definition slash_active (a : AccAddress) (effectiveFraction : LegacyDec) (active : option Coin) (totalSlashed : Coin) : K Coin :=
  match active with
  | None => ret totalSlashed
  | Some activeCollateral =>
      let* slashAmount := from_outcome (slash_of effectiveFraction activeCollateral) in
      if Coin_IsZero slashAmount then ret totalSlashed
      else
        let* newCollateral := from_outcome (Coin_Sub activeCollateral slashAmount) in
        run* SetCollateral a newCollateral in
        from_outcome (Coin_Add totalSlashed slashAmount)
  end.

(** Slashing one unbonding entry. *)
Definition slash_unbonding (effectiveFraction : LegacyDec) (totalSlashed : Coin) (entry : UnbondingCollateral) : K Coin :=
  let* slashAmount := from_outcome (slash_of effectiveFraction (ub_Amount entry)) in
  if Coin_IsZero slashAmount then ret totalSlashed
  else
    let* newUnbondingAmount := from_outcome (Coin_Sub (ub_Amount entry) slashAmount) in
    run* (if Coin_IsZero newUnbondingAmount then
            let* pAddr := lift_option (AccAddressFromBech32 (ub_Participant entry)) "invalid participant address" in
            RemoveUnbondingCollateral pAddr (ub_CompletionEpoch entry)
          else setUnbondingCollateralEntry (MkUnbonding (ub_Participant entry) (ub_CompletionEpoch entry) newUnbondingAmount)) in
    from_outcome (Coin_Add totalSlashed slashAmount).

(** [func (k Keeper) Slash(ctx, participantAddress, slashFraction, reason, requiredCollateral) (sdk.Coin, error)] *)
Definition Slash (a : AccAddress) (slashFraction : LegacyDec) (reason : string) (requiredCollateral : Z) : K Coin :=
  run* check (negb (ld_IsNegative slashFraction || ld_GT slashFraction LegacyOneDec)) "slash fraction must be between 0 and 1" in
  let* key := checkIfAlreadySlashed a reason in
  let* activeCollateral := reads (fun c => GetCollateral c a) in
  let* unbondingEntries := reads (fun c => GetUnbondingByParticipant c a) in
  let totalActual := fold_left (fun t entry => t + cn_Amount (ub_Amount entry)) unbondingEntries
                       (from_option cn_Amount 0 activeCollateral) in
  let effectiveFraction := effective_fraction slashFraction requiredCollateral totalActual in
  let* zero := from_outcome (NewCoin BaseCoin 0) in
  let* slashed := slash_active a effectiveFraction activeCollateral zero in
  let* totalSlashedAmount := mfold (slash_unbonding effectiveFraction) slashed unbondingEntries in
  if Coin_IsZero totalSlashedAmount then ret totalSlashedAmount
  else
    run* on_bank (coll_SendCoinsFromModuleToGov totalSlashedAmount) in
    run* match key with
         | Some k => modify (fun c => set_SlashedInEpoch ({[k]} ∪ SlashedInEpoch c) c)
         | None => ret tt
         end in
    ret totalSlashedAmount.

(* ------------------------------------------------------------------ *)
(** ** Messages *)

(** [types.MsgDepositCollateral], [types.MsgWithdrawCollateral], [types.MsgUpdateParams] *)
Record MsgDepositCollateral := MkDeposit { dp_Participant : string; dp_Amount : Coin }.
Record MsgWithdrawCollateral := MkWithdraw { wd_Participant : string; wd_Amount : Coin }.
Record MsgUpdateParams := MkUpdateParams { up_Authority : string; up_UnbondingPeriodEpochs : Z }.

(** [ValidateBasic] of the three messages, which runs before the handler. *)
Definition deposit_ValidateBasic (msg : MsgDepositCollateral) : outcome string unit :=
  run! ocheck (bool_decide (is_Some (AccAddressFromBech32 (dp_Participant msg)))) "invalid participant address" in
  run! ocheck (Coin_IsValid (dp_Amount msg)) "invalid collateral amount" in
  ocheck (Coin_IsPositive (dp_Amount msg)) "collateral amount must be positive".
Definition withdraw_ValidateBasic (msg : MsgWithdrawCollateral) : outcome string unit :=
  run! ocheck (bool_decide (is_Some (AccAddressFromBech32 (wd_Participant msg)))) "invalid participant address" in
  run! ocheck (Coin_IsValid (wd_Amount msg)) "invalid withdrawal amount" in
  ocheck (negb (Coin_IsZero (wd_Amount msg))) "withdrawal amount cannot be zero".
Definition update_ValidateBasic (msg : MsgUpdateParams) : outcome string unit :=
  run! ocheck (bool_decide (is_Some (AccAddressFromBech32 (up_Authority msg)))) "invalid authority address" in
  ocheck (negb (up_UnbondingPeriodEpochs msg =? 0)) "unbonding period epochs must be positive".

(** [func (k msgServer) DepositCollateral(goCtx, msg) (response, error)] *)
Definition DepositCollateral (msg : MsgDepositCollateral) : K unit :=
  let* a := lift_option (AccAddressFromBech32 (dp_Participant msg)) "invalid participant address" in
  run* check (bool_decide (cn_Denom (dp_Amount msg) = BaseCoin)) "invalid denomination" in
  run* on_bank (coll_SendCoinsFromAccountToModule a (dp_Amount msg)) in
  let* found := reads (fun c => GetCollateral c a) in
  let* currentCollateral := match found with
                            | Some current => from_outcome (Coin_Add current (dp_Amount msg))
                            | None => ret (dp_Amount msg)
                            end in
  SetCollateral a currentCollateral.

(** [func (k msgServer) WithdrawCollateral(goCtx, msg) (response, error)]: the
    completion epoch. *)
Definition WithdrawCollateral (msg : MsgWithdrawCollateral) : K Z :=
  let* a := lift_option (AccAddressFromBech32 (wd_Participant msg)) "invalid participant address" in
  run* check (bool_decide (cn_Denom (wd_Amount msg) = BaseCoin)) "invalid denomination" in
  let* found := reads (fun c => GetCollateral c a) in
  let* currentCollateral := lift_option found "no collateral found" in
  let* less := from_outcome (Coin_IsLT currentCollateral (wd_Amount msg)) in
  run* check (negb less) "insufficient collateral" in
  let* epoch := reads CurrentEpoch in
  let* currentEpoch := lift_option epoch "current epoch not set" in
  let* params := reads coll_params in
  let* unbondingPeriodEpochs := lift_option params "params not set" in
  let completionEpoch := u64 (currentEpoch + unbondingPeriodEpochs) in
  run* AddUnbondingCollateral a completionEpoch (wd_Amount msg) in
  let* newCollateral := from_outcome (Coin_Sub currentCollateral (wd_Amount msg)) in
  run* (if Coin_IsZero newCollateral then RemoveCollateral a else SetCollateral a newCollateral) in
  ret completionEpoch.

(** [func (k msgServer) UpdateParams(goCtx, req) (response, error)]; [authority] is the
    governance account. *)
Definition UpdateParams (authority : string) (req : MsgUpdateParams) : K unit :=
  run* check (bool_decide (authority = up_Authority req)) "invalid authority" in
  modify (set_coll_params (Some (up_UnbondingPeriodEpochs req))).

(* ------------------------------------------------------------------ *)
(** ** Staking hooks *)

(** [SetJailed], [RemoveJailed], [IsJailed] *)
Definition SetJailed (a : AccAddress) : K unit := modify (fun c => set_Jailed ({[a]} ∪ Jailed c) c).
Definition RemoveJailed (a : AccAddress) : K unit := modify (fun c => set_Jailed (Jailed c ∖ {[a]}) c).
Definition IsJailed (c : CC) (a : AccAddress) : bool := bool_decide (a ∈ Jailed c).

(** [AfterValidatorBonded], [AfterValidatorBeginUnbonding], [BeforeValidatorSlashed] *)
Definition AfterValidatorBonded (valAddr : AccAddress) : K unit := RemoveJailed valAddr.
Definition AfterValidatorBeginUnbonding (valAddr : AccAddress) : K unit :=
  let* c := get in
  if IsParticipantInActiveMaintenance (coll_World c) valAddr then ret tt else SetJailed valAddr.
Definition BeforeValidatorSlashed (valAddr : AccAddress) (fraction : LegacyDec) : K unit :=
  let* requiredCollateral := reads (fun c => GetRequiredCollateralForSlash (coll_World c) valAddr) in
  run* Slash valAddr fraction "" requiredCollateral in
  ret tt.

(* ------------------------------------------------------------------ *)
(** ** Genesis *)

(** [types.CollateralBalance], [types.GenesisState] *)
Record CollateralBalanceEntry := MkBalance { bl_Participant : string; bl_Amount : Coin }.
Record GenesisState := MkGenesis {
  gs_UnbondingPeriodEpochs : Z;
  CollateralBalanceList : list CollateralBalanceEntry;
  UnbondingCollateralList : list UnbondingCollateral;
  JailedParticipantList : list string
}.

Definition genesis_panic : string := "panic: invalid genesis".

(** [func InitGenesis(ctx, k, genState)]; an error is a panic. *)
Definition InitGenesis (genState : GenesisState) : K unit :=
  run* mfold (fun _ elem =>
         let* participant := lift_option (AccAddressFromBech32 (bl_Participant elem)) genesis_panic in
         SetCollateral participant (bl_Amount elem)) tt (CollateralBalanceList genState) in
  run* mfold (fun _ elem =>
         let* participant := lift_option (AccAddressFromBech32 (ub_Participant elem)) genesis_panic in
         AddUnbondingCollateral participant (ub_CompletionEpoch elem) (ub_Amount elem)) tt (UnbondingCollateralList genState) in
  run* mfold (fun _ elem =>
         let* jailedAddr := lift_option (AccAddressFromBech32 elem) genesis_panic in
         SetJailed jailedAddr) tt (JailedParticipantList genState) in
  modify (set_coll_params (Some (gs_UnbondingPeriodEpochs genState))).

(** The keys of the collections in the order of the store. *)
Definition pair_le (x y : Z * AccAddress) : Prop := x.1 < y.1 \/ (x.1 = y.1 /\ bytes_le x.2 y.2).
#[global] Instance pair_le_dec : RelDecision pair_le.
Proof. intros x y. unfold pair_le. apply _. Defined.

(** [IterateCollaterals], [GetAllUnbondings], [GetAllJailed] *)
Definition IterateCollaterals (c : CC) : list (AccAddress * Coin) :=
  omap (fun a => pair a <$> CollateralMap c !! a) (merge_sort bytes_le (elements (dom (CollateralMap c)))).
Definition GetAllUnbondings (c : CC) : list UnbondingCollateral :=
  omap (fun pk => UnbondingIM c !! pk) (merge_sort pair_le (elements (dom (UnbondingIM c)))).
Definition GetAllJailed (c : CC) : list AccAddress := merge_sort bytes_le (elements (Jailed c)).

(** [func ExportGenesis(ctx, k) *types.GenesisState]; [None] is the panic when the
    parameters are not set. *)
Definition ExportGenesis (c : CC) : option GenesisState :=
  params ← coll_params c;
  Some (MkGenesis params ((fun x => MkBalance (AccAddress_String x.1) x.2) <$> IterateCollaterals c)
          (GetAllUnbondings c) (AccAddress_String <$> GetAllJailed c)).

End Keeper.
