(* ===== verification/CollateralSpec.v ===== *)
(** * What the collateral module promises

    The module's account always covers what is locked and what is unbonding
    ([backed] in [coll_ok]), over any sequence of deposits, withdrawals, completed
    epochs, slashes and staking hooks; a completed epoch pays every participant exactly
    what was left in the queue for it; a slash takes the same fraction of every holding
    and all of it goes to governance; genesis carries over everything but the epoch and
    the record of slashes. *)

From Stdlib Require Import QArith Qabs Qround Lqa.
From stdpp Require Import sorting.
From S2P Require Import Prelude.
From S2P Require Import ChainStore.
From S2P Require Import ChainCoins.
From S2P Require Import Collateral.
Open Scope Z_scope.
Open Scope go_scope.

Section Spec.
Context {W : Type} `{!AccAddressCodec} `{!CoinLib} `{!LegacyDecLib} `{!CollateralEnv W}.
Abbreviation CC := (Collateral W).
Implicit Types (c : CC) (a b : AccAddress) (e : Z).

(** An address that its string stands for and that can be paid. *)
Definition printable a : Prop := AccAddressFromBech32 (AccAddress_String a) = Some a.
Definition holder a : Prop := printable a /\ Payable a.

Definition unbonding_amount (u : UnbondingCollateral) : Z := cn_Amount (ub_Amount u).
Definition active_of c a : Z := from_option cn_Amount 0 (CollateralMap c !! a).
Definition unbonding_of c e a : Z := from_option unbonding_amount 0 (UnbondingIM c !! (e, a)).

(** What the module owes, and what its account has beyond that. *)
Definition held c : Z :=
  msum (fun _ x => cn_Amount x) (CollateralMap c) + msum (fun _ u => unbonding_amount u) (UnbondingIM c).
Definition spare c : Z := CollateralBalance (coll_World c) - held c.

Record coll_ok c : Prop := {
  ck_active : forall a x, CollateralMap c !! a = Some x -> exists n, x = base n /\ 0 <= n /\ holder a;
  ck_unbonding : forall e a u, UnbondingIM c !! (e, a) = Some u ->
    exists n, u = MkUnbonding (AccAddress_String a) e (base n) /\ 0 <= n /\ is_u64 e /\ holder a;
  ck_jailed : forall a, a ∈ Jailed c -> printable a;
  ck_backed : 0 <= spare c;
  ck_small : held c < 2 ^ 63
}.

(** Everything but the money: the collections that an operation leaves alone. *)
Definition same_rest c c' : Prop :=
  Jailed c' = Jailed c /\ SlashedInEpoch c' = SlashedInEpoch c /\ coll_params c' = coll_params c.

Record deposited c a n c' : Prop := {
  dd_map : CollateralMap c' = <[a := base (active_of c a + n)]> (CollateralMap c);
  dd_unbonding : UnbondingIM c' = UnbondingIM c;
  dd_epoch : CurrentEpoch c' = CurrentEpoch c;
  dd_rest : same_rest c c';
  dd_module : CollateralBalance (coll_World c') = CollateralBalance (coll_World c) + n;
  dd_gov : GovBalance (coll_World c') = GovBalance (coll_World c);
  dd_users : forall b, UserBalance (coll_World c') b = UserBalance (coll_World c) b - if bool_decide (b = a) then n else 0
}.

(** A withdrawal moves [n] from the active collateral to the queue of epoch [e]. *)
Record withdrawn c a n e c' : Prop := {
  wn_enough : 0 < n <= active_of c a;
  wn_map : CollateralMap c' =
    if active_of c a =? n then delete a (CollateralMap c) else <[a := base (active_of c a - n)]> (CollateralMap c);
  wn_unbonding : UnbondingIM c' =
    <[(e, a) := MkUnbonding (AccAddress_String a) e (base (n + unbonding_of c e a))]> (UnbondingIM c);
  wn_epoch : CurrentEpoch c' = CurrentEpoch c;
  wn_rest : same_rest c c';
  wn_world : coll_World c' = coll_World c
}.

(** A completed epoch pays its queue. *)
Record advanced c e c' : Prop := {
  av_map : CollateralMap c' = CollateralMap c;
  av_unbonding : UnbondingIM c' = filter (fun kv => kv.1.1 <> e) (UnbondingIM c);
  av_epoch : CurrentEpoch c' = Some (u64 (e + 1));
  av_rest : same_rest c c';
  av_gov : GovBalance (coll_World c') = GovBalance (coll_World c);
  av_users : forall b, UserBalance (coll_World c') b = UserBalance (coll_World c) b + unbonding_of c e b;
  av_spare : spare c' = spare c
}.

(** What a slash at the effective fraction [f] takes of [n] coins, and what it leaves of
    an entry of the queue. *)
Definition cut (f : Q) (n : Z) : Z := Qfloor (inject_Z n * f).
Definition cut_entry (f : Q) (u : UnbondingCollateral) : option UnbondingCollateral :=
  let n := unbonding_amount u in
  if cut f n =? 0 then Some u
  else if n - cut f n =? 0 then None
  else Some (MkUnbonding (ub_Participant u) (ub_CompletionEpoch u) (base (n - cut f n))).

(** The sum over the entries that participant [a] has in the queue. *)
Definition queue_sum (g : UnbondingCollateral -> Z) c a : Z :=
  msum (fun k u => if bool_decide (k.2 = a) then g u else 0) (UnbondingIM c).

(** All that participant [a] has, and what a slash at [f] takes of it. *)
Definition total_of c a : Z := active_of c a + queue_sum unbonding_amount c a.
Definition taken (f : Q) c a : Z := cut f (active_of c a) + queue_sum (fun u => cut f (unbonding_amount u)) c a.

Definition slash_key c a (reason : string) : Z * AccAddress * string := (default 0 (CurrentEpoch c), a, reason).
Definition already_slashed c a (reason : string) : Prop := reason <> "" /\ slash_key c a reason ∈ SlashedInEpoch c.

(** A slash of [a] at the effective fraction [f]. *)
Record slashed c a (reason : string) (f : Q) c' : Prop := {
  sl_map : forall b, CollateralMap c' !! b =
    if bool_decide (b = a) then (fun x => base (cn_Amount x - cut f (cn_Amount x))) <$> CollateralMap c !! b
    else CollateralMap c !! b;
  sl_unbonding : forall e b, UnbondingIM c' !! (e, b) =
    if bool_decide (b = a) then UnbondingIM c !! (e, b) ≫= cut_entry f else UnbondingIM c !! (e, b);
  sl_epoch : CurrentEpoch c' = CurrentEpoch c;
  sl_jailed : Jailed c' = Jailed c;
  sl_params : coll_params c' = coll_params c;
  sl_marks : SlashedInEpoch c' =
    if (taken f c a =? 0) || bool_decide (reason = "") then SlashedInEpoch c
    else {[slash_key c a reason]} ∪ SlashedInEpoch c;
  sl_module : CollateralBalance (coll_World c') = CollateralBalance (coll_World c) - taken f c a;
  sl_gov : GovBalance (coll_World c') = GovBalance (coll_World c) + taken f c a;
  sl_users : forall b, UserBalance (coll_World c') b = UserBalance (coll_World c) b;
  sl_spare : spare c' = spare c
}.

End Spec.

(* ------------------------------------------------------------------ *)
(** ** Deposits and withdrawals *)

Section Messages.
Context {W : Type} `{!AccAddressCodec} `{!AccAddressLaws} `{!CoinLib} `{!CoinLaws} `{!LegacyDecLib}.
Context `{!CollateralEnv W} `{!CollateralEnvLaws W}.
Abbreviation CC := (Collateral W).
Implicit Types (c : CC) (a b : AccAddress) (e : Z).

Lemma wp_bank {A} (f : W -> W * outcome string A) (Q : CC -> outcome string A -> Prop) c :
  (forall w r, f (coll_World c) = (w, r) -> Q (set_coll_World w c) r) -> wp (on_bank f) Q c.
Proof. unfold wp, on_bank. destruct (f (coll_World c)) as [w r]. auto. Qed.

Lemma base_of x : cn_Denom x = BaseCoin -> x = base (cn_Amount x).
Proof. destruct x. cbn. by intros ->. Qed.

Lemma active_nonneg c a : coll_ok c -> 0 <= active_of c a.
Proof.
  intros Hok. unfold active_of. destruct (CollateralMap c !! a) as [x|] eqn:Hx; cbn; [|lia].
  by destruct (ck_active c Hok a x Hx) as (n & -> & ? & _).
Qed.

Lemma unbonding_nonneg c e a : coll_ok c -> 0 <= unbonding_of c e a.
Proof.
  intros Hok. unfold unbonding_of. destruct (UnbondingIM c !! (e, a)) as [u|] eqn:Hu; cbn; [|lia].
  by destruct (ck_unbonding c Hok e a u Hu) as (n & -> & ? & _).
Qed.

(** What one participant has active and unbonding after one epoch is part of what is held. *)
Lemma part_held c e a : coll_ok c -> active_of c a + unbonding_of c e a <= held c.
Proof.
  intros Hok. unfold active_of, unbonding_of, held.
  assert (forall b x, CollateralMap c !! b = Some x -> 0 <= cn_Amount x) as Hact.
  { intros b x Hx. by destruct (ck_active c Hok b x Hx) as (n & -> & ? & _). }
  assert (forall k u, UnbondingIM c !! k = Some u -> 0 <= unbonding_amount u) as Hub.
  { intros [e' b] u Hu. by destruct (ck_unbonding c Hok e' b u Hu) as (n & -> & ? & _). }
  pose proof (msum_option_le cn_Amount (CollateralMap c) a Hact). pose proof (msum_option_le unbonding_amount (UnbondingIM c) (e, a) Hub). lia.
Qed.

Lemma deposit_wp c a msg :
  coll_ok c -> AccAddressFromBech32 (dp_Participant msg) = Some a -> Payable a ->
  0 <= cn_Amount (dp_Amount msg) -> held c + cn_Amount (dp_Amount msg) < 2 ^ 63 ->
  wp (DepositCollateral msg) (ok_or False (fun c' _ => deposited c a (cn_Amount (dp_Amount msg)) c')) c.
Proof.
  intros Hok Ha Hpay Hpos Hsmall. unfold DepositCollateral. rewrite Ha. wp_step. wp_step; [|cbn; tauto]. injection Hopt as <-.
  wp_step. wp_step; [|cbn; tauto]. boolify. apply base_of in Hchk. rewrite Hchk. cbn [cn_Amount base].
  set (n := cn_Amount (dp_Amount msg)) in *. clearbody n. clear Hchk. wp_step. apply wp_bank. intros w [[]|err] Hs; [|cbn; tauto]. cbv beta iota.
  apply coll_send_in in Hs as (Hmod & Hgov & Huser); [|done..]. wp_step. apply wp_reads. cbv beta iota. wp_step.
  unfold GetCollateral. cbn [CollateralMap set_coll_World].
  assert (wp (match CollateralMap c !! a with
              | Some current => from_outcome (Coin_Add current (base n))
              | None => ret (base n)
              end) (fun s r => s = set_coll_World w c /\ r = Ok (base (active_of c a + n))) (set_coll_World w c)) as Hadd.
  { unfold active_of. destruct (CollateralMap c !! a) as [x|] eqn:Hx.
    - destruct (ck_active c Hok a x Hx) as (m & -> & Hm & _). pose proof (part_held c 0 a Hok) as Hh.
      pose proof (unbonding_nonneg c 0 a Hok). unfold active_of in Hh. rewrite Hx in Hh. cbn in Hh.
      rewrite add_base by (done || (apply small_int; lia)). done.
    - done. }
  eapply wp_mono; [exact Hadd|]. intros s r [-> ->]. cbv beta iota. unfold SetCollateral. wp_step. cbn. split; done.
Qed.

Lemma deposited_ok c a n c' : coll_ok c -> holder a -> 0 <= n -> held c + n < 2 ^ 63 -> deposited c a n c' -> coll_ok c' /\ spare c' = spare c.
Proof.
  intros Hok Ha Hn Hsmall [Hmap Hu _ (Hj & _) Hmod _ _]. pose proof (active_nonneg c a Hok) as Hact.
  assert (spare c' = spare c) as Hsp.
  { unfold spare, held. rewrite Hmap, Hu, Hmod, (msum_from_option cn_Amount). unfold active_of. cbn. lia. }
  split; [|done]. split.
  - rewrite Hmap. intros b x [[<- <-]|[_ Hx]]%lookup_insert_Some; [eexists; repeat split; [lia|apply Ha..]|by apply (ck_active c Hok)].
  - rewrite Hu. apply (ck_unbonding c Hok).
  - rewrite Hj. apply (ck_jailed c Hok).
  - rewrite Hsp. apply (ck_backed c Hok).
  - unfold spare in Hsp. lia.
Qed.

Lemma add_unbonding_run c a e n :
  coll_ok c -> printable a -> 0 <= n -> n + unbonding_of c e a < 2 ^ 63 -> AddUnbondingCollateral a e (base n) c =
    (set_UnbondingIM (<[(e, a) := MkUnbonding (AccAddress_String a) e (base (n + unbonding_of c e a))]> (UnbondingIM c)) c, Ok tt).
Proof.
  intros Hok Ha Hn Hsmall. unfold AddUnbondingCollateral. rewrite (bind_run _ _ _ c (UnbondingIM c !! (e, a))) by done.
  rewrite (bind_run _ _ c c (base (n + unbonding_of c e a))).
  - unfold setUnbondingCollateralEntry. cbn. by rewrite Ha.
  - unfold unbonding_of in *. destruct (UnbondingIM c !! (e, a)) as [u|] eqn:Hu.
    + destruct (ck_unbonding c Hok e a u Hu) as (m & -> & Hm & _). unfold from_outcome. cbn. by rewrite add_base by (done || by apply small_int).
    + cbn. by rewrite Z.add_0_r.
Qed.

Lemma withdraw_wp c a msg :
  coll_ok c -> AccAddressFromBech32 (wd_Participant msg) = Some a -> 0 < cn_Amount (wd_Amount msg) ->
  wp (WithdrawCollateral msg) (ok_or False (fun c' e =>
    (exists cur period, CurrentEpoch c = Some cur /\ coll_params c = Some period /\ e = u64 (cur + period)) /\
    withdrawn c a (cn_Amount (wd_Amount msg)) e c')) c.
Proof.
  intros Hok Ha Hpos. unfold WithdrawCollateral. rewrite Ha. wp_step. wp_step; [|cbn; tauto]. injection Hopt as <-.
  wp_step. wp_step; [|cbn; tauto]. boolify. apply base_of in Hchk. rewrite Hchk. cbn [cn_Amount base].
  set (n := cn_Amount (wd_Amount msg)) in *. clearbody n. clear Hchk.
  wp_step. apply wp_reads. wp_step. wp_step; [|cbn; tauto]. rename v into x. unfold GetCollateral in Hopt.
  destruct (ck_active c Hok a x Hopt) as (m & -> & Hm & Hhold). rewrite lt_base. wp_step. apply wp_from; [|done].
  intros less [= <-]. cbv beta iota. wp_step. wp_step; [|cbn; tauto]. wp_step. apply wp_reads. wp_step. wp_step; [|cbn; tauto].
  wp_step. apply wp_reads. wp_step. wp_step; [|cbn; tauto]. rename v into cur, v0 into period. boolify.
  assert (active_of c a = m) as Hact by (unfold active_of; by rewrite Hopt).
  pose proof (part_held c (u64 (cur + period)) a Hok). pose proof (ck_small c Hok).
  wp_step. unfold wp at 1. rewrite add_unbonding_run by (done || apply Hhold || lia). cbv beta iota. rewrite sub_base by lia.
  wp_step. apply wp_from; [|done]. intros y [= <-]. cbv beta iota. wp_step. unfold Coin_IsZero. cbn [cn_Amount base].
  assert ((m - n =? 0) = (m =? n)) as -> by lia.
  destruct (m =? n) eqn:Hmn; unfold RemoveCollateral, SetCollateral; wp_step; wp_step; cbn; (split; [by exists cur, period|]);
    (split; [lia|rewrite Hact, Hmn; done|done|done|done|done]).
Qed.

Lemma withdrawn_ok c a n e c' : coll_ok c -> is_u64 e -> withdrawn c a n e c' -> coll_ok c' /\ spare c' = spare c.
Proof.
  intros Hok He [Hn Hmap Hu _ (Hj & _) Hw]. pose proof (unbonding_nonneg c e a Hok) as Hub.
  assert (exists x, CollateralMap c !! a = Some x) as [x Hx].
  { unfold active_of in Hn. destruct (CollateralMap c !! a); [by eexists|cbn in Hn; lia]. }
  destruct (ck_active c Hok a x Hx) as (m & -> & Hm & Hhold).
  assert (active_of c a = m) as Hact by (unfold active_of; by rewrite Hx). rewrite Hact in *.
  assert (spare c' = spare c) as Hsp.
  { unfold spare, held. rewrite Hmap, Hu, Hw, (msum_from_option unbonding_amount). unfold unbonding_of in *. cbn [unbonding_amount ub_Amount cn_Amount base].
    destruct (m =? n) eqn:Hmn; [rewrite (msum_delete_option cn_Amount), Hx|rewrite (msum_from_option cn_Amount), Hx]; cbn; lia. }
  split; [|done]. split.
  - rewrite Hmap. intros b y. destruct (m =? n).
    + intros [_ Hy]%lookup_delete_Some. by apply (ck_active c Hok).
    + intros [[<- <-]|[_ Hy]]%lookup_insert_Some; [eexists; repeat split; [lia|apply Hhold..]|by apply (ck_active c Hok)].
  - rewrite Hu. intros e' b u [[[= <- <-] <-]|[_ Hy]]%lookup_insert_Some;
      [eexists; repeat split; [lia|apply He..|apply Hhold|apply Hhold]|by apply (ck_unbonding c Hok)].
  - rewrite Hj. apply (ck_jailed c Hok).
  - rewrite Hsp. apply (ck_backed c Hok).
  - pose proof (ck_small c Hok). unfold spare in Hsp. rewrite Hw in Hsp. lia.
Qed.
End Messages.

(* ------------------------------------------------------------------ *)
(** ** Completed epochs *)

Section Epochs.
Context {W : Type} `{!AccAddressCodec} `{!CoinLib} `{!LegacyDecLib} `{!CollateralEnv W} `{!CollateralEnvLaws W}.
Abbreviation CC := (Collateral W).
Implicit Types (c : CC) (a b : AccAddress) (e : Z).

(** Removing keys one after the other. *)
Lemma delete_all_lookup `{Countable Key} {V} (ks : list Key) (m : gmap Key V) k :
  fold_left (fun m k => delete k m) ks m !! k = if bool_decide (k ∈ ks) then None else m !! k.
Proof.
  revert m. induction ks as [|x ks IH]; intros m; cbn; [done|]. rewrite IH.
  destruct (decide (k = x)) as [->|Hne]; [rewrite lookup_delete_eq; repeat case_bool_decide; set_solver|].
  rewrite lookup_delete_ne by done. repeat case_bool_decide; set_solver.
Qed.

Lemma delete_all_sum `{Countable Key} {V} (f : V -> Z) (ks : list Key) (m : gmap Key V) :
  NoDup ks ->
  msum (fun _ v => f v) (fold_left (fun m k => delete k m) ks m) =
    msum (fun _ v => f v) m - lsum (fun k => from_option f 0 (m !! k)) ks.
Proof.
  revert m. induction ks as [|x ks IH]; intros m Hnd; cbn [fold_left]; [cbn; lia|]. apply NoDup_cons in Hnd as [Hx Hnd].
  rewrite IH by done. rewrite (msum_delete_option f), lsum_cons.
  rewrite (lsum_ext (fun k => from_option f 0 (delete x m !! k)) (fun k => from_option f 0 (m !! k)) ks); [lia|].
  intros k Hk. rewrite lookup_delete_ne; [done|]. intros ->. done.
Qed.

Lemma unbonding_keys_iff c e k : is_u64 e -> k ∈ unbonding_keys c e <-> k.1 = e /\ is_Some (UnbondingIM c !! k).
Proof. intros He. unfold unbonding_keys. rewrite elem_epoch_keys, elem_of_dom, u64_small by done. done. Qed.

Lemma pay_loop_run c e ks : is_u64 e -> coll_ok c -> NoDup ks ->
  (forall k, k ∈ ks -> k.1 = e /\ is_Some (UnbondingIM c !! k)) ->
  forall w, lsum (fun k => from_option unbonding_amount 0 (UnbondingIM c !! k)) ks <= CollateralBalance w ->
  exists w', mfold pay_unbonded tt (omap (fun k => UnbondingIM c !! k) ks) (set_coll_World w c) = (set_coll_World w' c, Ok tt) /\
    CollateralBalance w' = CollateralBalance w - lsum (fun k => from_option unbonding_amount 0 (UnbondingIM c !! k)) ks /\
    GovBalance w' = GovBalance w /\
    forall b, UserBalance w' b = UserBalance w b + if bool_decide ((e, b) ∈ ks) then unbonding_of c e b else 0.
Proof.
  intros He Hok. induction ks as [|[e' a] ks IH]; intros Hnd Hks w Hle.
  { exists w. cbn. repeat split; [lia|]. intros b. rewrite bool_decide_eq_false_2 by set_solver. lia. }
  apply NoDup_cons in Hnd as [Hnew Hnd]. destruct (Hks (e', a)) as [Heq [u Hu]]; [set_solver|]. cbn in Heq. subst e'.
  assert (0 <= lsum (fun k => from_option unbonding_amount 0 (UnbondingIM c !! k)) ks) as Hrest.
  { apply lsum_nonneg. intros [e' b] Hb. destruct (Hks (e', b)) as [Heq _]; [set_solver|]. apply (unbonding_nonneg c e' b Hok). }
  destruct (ck_unbonding c Hok e a u Hu) as (n & -> & Hn & _ & Hprint & Hpay).
  cbn [omap list_omap]. rewrite lsum_cons in *. rewrite Hu in *. cbn in Hle. cbn [mfold].
  assert (n < 2 ^ 63) as Hsmall.
  { pose proof (part_held c e a Hok) as Hh. pose proof (active_nonneg c a Hok). pose proof (ck_small c Hok). unfold unbonding_of in Hh. rewrite Hu in Hh. cbn in Hh. lia. }
  destruct (coll_send_out a n w) as (w1 & Hs & Hb & Hg & Hus); [lia|done|done|].
  rewrite (bind_run _ _ _ (set_coll_World w1 c) tt).
  2:{ unfold pay_unbonded. cbn [ub_Participant]. rewrite Hprint. unfold on_bank. cbn [coll_World set_coll_World ub_Amount]. by rewrite Hs. }
  destruct (IH Hnd) with (w := w1) as (w' & Hrun & Hb' & Hg' & Hus'); [set_solver|lia|].
  exists w'. split; [exact Hrun|]. split; [cbn; lia|]. split; [congruence|]. intros b. rewrite Hus', Hus.
  destruct (decide (b = a)) as [->|Hba].
  - rewrite (bool_decide_eq_true_2 (a = a)), (bool_decide_eq_false_2 ((e, a) ∈ ks)), (bool_decide_eq_true_2 (_ ∈ _ :: _)) by set_solver.
    unfold unbonding_of. rewrite Hu. cbn. lia.
  - rewrite (bool_decide_eq_false_2 (b = a)) by done.
    rewrite (bool_decide_ext ((e, b) ∈ (e, a) :: ks) ((e, b) ∈ ks)) by set_solver. lia.
Qed.

Lemma remove_run (ks : list (Z * AccAddress)) c :
  mfold (fun _ pk => modify (fun c => set_UnbondingIM (delete pk (UnbondingIM c)) c)) tt ks c =
    (set_UnbondingIM (fold_left (fun m k => delete k m) ks (UnbondingIM c)) c, @Ok string unit tt).
Proof.
  revert c. induction ks as [|k ks IH]; intros c; [by destruct c|]. cbn [mfold].
  rewrite (bind_run _ _ c (set_UnbondingIM (delete k (UnbondingIM c)) c) tt) by done. by rewrite IH.
Qed.

Lemma omap_empty_keys c (ks : list (Z * AccAddress)) :
  (forall k, k ∈ ks -> is_Some (UnbondingIM c !! k)) -> length (omap (fun k => UnbondingIM c !! k) ks) = length ks.
Proof.
  induction ks as [|k ks IH]; intros Hks; [done|]. destruct (Hks k) as [u Hu]; [set_solver|]. cbn. rewrite Hu. cbn.
  f_equal. apply IH. set_solver.
Qed.

Lemma queue_run c e : is_u64 e -> coll_ok c ->
  exists w, ProcessUnbondingQueue e c =
      (set_UnbondingIM (filter (fun kv => kv.1.1 <> e) (UnbondingIM c)) (set_coll_World w c), Ok tt) /\
    GovBalance w = GovBalance (coll_World c) /\
    (forall b, UserBalance w b = UserBalance (coll_World c) b + unbonding_of c e b) /\
    CollateralBalance (coll_World c) - CollateralBalance w =
      msum (fun _ u => unbonding_amount u) (UnbondingIM c) -
      msum (fun _ u => unbonding_amount u) (filter (fun kv => kv.1.1 <> e) (UnbondingIM c)).
Proof.
  intros He Hok. set (ks := unbonding_keys c e).
  assert (NoDup ks) as Hnd by apply (NoDup_epoch_keys bytes_le).
  assert (forall k, k ∈ ks <-> k.1 = e /\ is_Some (UnbondingIM c !! k)) as Hks by (intros k; by apply unbonding_keys_iff).
  assert (fold_left (fun m k => delete k m) ks (UnbondingIM c) = filter (fun kv => kv.1.1 <> e) (UnbondingIM c)) as Hdel.
  { apply map_eq. intros k. rewrite delete_all_lookup. destruct (UnbondingIM c !! k) as [u|] eqn:Hu.
    - case_bool_decide as Hin.
      + symmetry. apply map_lookup_filter_None_2. right. intros x _ Hx. apply Hx. by apply Hks.
      + symmetry. apply map_lookup_filter_Some_2; [done|]. intros Hx. apply Hin, Hks. by split; [|eexists].
    - rewrite (map_lookup_filter_None_2 _ _ k) by (by left). by case_bool_decide. }
  pose proof (delete_all_sum unbonding_amount ks (UnbondingIM c) Hnd) as Hsum. rewrite Hdel in Hsum.
  destruct (pay_loop_run c e ks He Hok Hnd) with (w := coll_World c) as (w & Hrun & Hb & Hg & Hus); [by intros k ?%Hks| |].
  { pose proof (ck_backed c Hok) as Hback. unfold spare, held in Hback.
    assert (0 <= msum (fun _ x => cn_Amount x) (CollateralMap c)).
    { apply msum_nonneg. intros a x Hx. by destruct (ck_active c Hok a x Hx) as (n & -> & ? & _). }
    assert (0 <= msum (fun _ u => unbonding_amount u) (filter (fun kv => kv.1.1 <> e) (UnbondingIM c))); [|lia].
    apply msum_nonneg. intros [e' a] u [Hu _]%map_lookup_filter_Some.
    by destruct (ck_unbonding c Hok e' a u Hu) as (n & -> & ? & _). }
  exists w. split; [|split; [done|split; [|lia]]].
  - unfold ProcessUnbondingQueue. rewrite (bind_run _ _ c c (GetUnbondingByEpoch c e)) by done.
    unfold GetUnbondingByEpoch. fold ks. destruct c as [cm um ce cj cs cp cw]. rewrite (bind_run _ _ _ _ _ Hrun).
    rewrite omap_empty_keys by (by intros k [_ ?]%Hks). destruct ks as [|k ks'] eqn:Hk; cbn [length Nat.ltb Nat.leb].
    + cbn in Hdel |- *. by rewrite <-Hdel.
    + unfold RemoveUnbondingByEpoch. rewrite (bind_run _ _ _ (set_coll_World w (MkCollateral cm um ce cj cs cp cw)) ks) by done.
      rewrite remove_run. cbn [UnbondingIM set_coll_World]. subst ks. rewrite Hk. cbn in Hdel. by rewrite <-Hdel.
  - intros b. rewrite Hus. case_bool_decide as Hin; [done|]. unfold unbonding_of. destruct (UnbondingIM c !! (e, b)) eqn:Hu; [|done].
    exfalso. apply Hin, Hks. by split; [|eexists].
Qed.

Lemma advance_run c e : is_u64 e -> coll_ok c -> exists c', AdvanceEpoch e c = (c', Ok tt) /\ advanced c e c'.
Proof.
  intros He Hok. destruct (queue_run c e He Hok) as (w & Hrun & Hg & Hus & Hb).
  eexists. split; [unfold AdvanceEpoch; rewrite (bind_run _ _ _ _ _ Hrun); reflexivity|].
  split; cbn; try done. unfold spare, held. cbn. lia.
Qed.

Lemma advanced_ok c e c' : coll_ok c -> advanced c e c' -> coll_ok c'.
Proof.
  intros Hok [Hmap Hu _ (Hj & _) _ _ Hsp]. split.
  - rewrite Hmap. apply (ck_active c Hok).
  - rewrite Hu. intros e' a u [Hx _]%map_lookup_filter_Some. by apply (ck_unbonding c Hok).
  - rewrite Hj. apply (ck_jailed c Hok).
  - rewrite Hsp. apply (ck_backed c Hok).
  - pose proof (ck_small c Hok). unfold held in *. rewrite Hmap, Hu.
    assert (msum (fun _ u => unbonding_amount u) (filter (fun kv => kv.1.1 <> e) (UnbondingIM c)) <=
      msum (fun _ u => unbonding_amount u) (UnbondingIM c)); [|lia].
    apply msum_filter_le. intros [e' a] u Hx. by destruct (ck_unbonding c Hok e' a u Hx) as (n & -> & ? & _).
Qed.
End Epochs.

(* ------------------------------------------------------------------ *)
(** ** Slashing *)

Section Fractions.
Context `{!LegacyDecLib} `{!LegacyDecLaws} `{!CoinLib} `{!CoinLaws}.
Open Scope Q_scope.

Lemma inject_nonneg n : (0 <= n)%Z -> 0 <= inject_Z n.
Proof. intros Hn. change 0 with (inject_Z 0). by rewrite <-Zle_Qle. Qed.
Lemma inject_pos n : (0 < n)%Z -> 0 < inject_Z n.
Proof. intros Hn. change 0 with (inject_Z 0). by rewrite <-Zlt_Qlt. Qed.
Hint Resolve inject_nonneg inject_pos : core.

Lemma cut_bounds f n : 0 <= f <= 1 -> (0 <= n)%Z -> (0 <= cut f n <= n)%Z.
Proof.
  intros [Hf0 Hf1] Hn. unfold cut. split.
  - rewrite <-(Qfloor_Z 0). apply Qfloor_resp_le. apply Qmult_le_0_compat; auto.
  - rewrite <-(Qfloor_Z n) at 2. apply Qfloor_resp_le. rewrite <-(Qmult_1_r (inject_Z n)) at 2.
    rewrite Qmult_comm, (Qmult_comm _ 1). apply Qmult_le_compat_r; auto.
Qed.

Lemma slash_of_base f n : 0 <= ld_val f -> (0 <= n)%Z -> slash_of f (base n) = Ok (base (cut (ld_val f) n)).
Proof.
  intros Hf Hn. unfold slash_of. cbn [cn_Denom cn_Amount base].
  assert (0 <= ld_val (ld_Mul (LegacyNewDecFromInt n) f)) as Hpos.
  { rewrite ld_mul_int. apply Qmult_le_0_compat; auto. }
  rewrite ld_trunc by done. rewrite (Qfloor_comp _ _ (ld_mul_int n f)).
  apply new_base. rewrite <-(Qfloor_Z 0). apply Qfloor_resp_le. by rewrite <-ld_mul_int.
Qed.


Lemma ld_GT_val x y : ld_GT x y = true <-> ld_val y < ld_val x.
Proof. unfold ld_GT. rewrite ld_cmp, Qgt_alt. destruct (_ ?= _); intuition discriminate. Qed.
Lemma ld_IsNegative_val x : ld_IsNegative x = true <-> ld_val x < 0.
Proof.
  unfold ld_IsNegative, LegacyZeroDec. rewrite ld_cmp, <-(ld_int 0), Qlt_alt. destruct (_ ?= _); intuition discriminate.
Qed.

Lemma ld_quo_nonneg x y : 0 <= ld_val x -> 0 < ld_val y -> 0 <= ld_val (ld_Quo x y).
Proof. intros Hx Hy. rewrite <-(ld_int 0). apply ld_quo_ge; [done|]. rewrite ld_int. change (inject_Z 0) with 0. lra. Qed.
Lemma ld_quo_exact x y z : 0 < ld_val y -> ld_val x == ld_val z * ld_val y -> ld_val (ld_Quo x y) == ld_val z.
Proof. intros Hy Hx. apply Qle_antisym; [apply ld_quo_le|apply ld_quo_ge]; lra. Qed.

(** The effective fraction is a fraction; it is the given one unless the participant has
    more than what is required of it, and then it makes the whole slash the fraction of
    what is required, up to the last decimal place of each coin. *)
Lemma effective_spec f required total : 0 <= ld_val f <= 1 ->
  let eff := ld_val (effective_fraction f required total) in
  0 <= eff <= 1 /\
  ((required <= 0)%Z \/ (total <= Z.max 0 required)%Z -> eff == ld_val f) /\
  ((0 < required)%Z -> (0 < total)%Z ->
     Qabs (inject_Z total * eff - inject_Z (Z.min required total) * ld_val f) <= inject_Z total * (1 # (10 ^ 18))).
Proof.
  intros Hf. unfold effective_fraction.
  destruct ((0 <? required) && (0 <? total))%Z eqn:Hpos; cbn zeta; [|split; [done|split; [done|lia]]].
  apply andb_true_iff in Hpos as [Hr%Z.ltb_lt Ht%Z.ltb_lt]. set (tgt := ld_Mul (LegacyNewDecFromInt (Z.min required total)) f).
  assert (ld_val tgt == inject_Z (Z.min required total) * ld_val f) as Htgt by apply ld_mul_int.
  assert (0 < inject_Z total) as Hqt by auto. assert (0 < ld_val (LegacyNewDecFromInt total)) as Hdt by (rewrite ld_int; auto).
  assert (0 <= inject_Z (Z.min required total)) as Hmin by (apply inject_nonneg; lia).
  assert (inject_Z (Z.min required total) <= inject_Z total) as Hle by (rewrite <-Zle_Qle; lia).
  assert (0 <= ld_val tgt) as Htpos by (rewrite Htgt; apply Qmult_le_0_compat; [done|apply Hf]).
  pose proof (ld_quo_near tgt _ Hdt) as Hnear. pose proof (ld_quo_nonneg tgt _ Htpos Hdt) as Hq0.
  set (q := ld_Quo tgt (LegacyNewDecFromInt total)) in *.
  set (r := ld_val tgt / ld_val (LegacyNewDecFromInt total)) in *.
  assert (inject_Z total * r == ld_val tgt) as Hr' by (unfold r; rewrite (ld_int total); field; lra).
  assert (r <= 1) as Hr1.
  { apply (Qmult_le_l _ _ (inject_Z total)); [done|]. rewrite Hr', Htgt. nra. }
  apply Qabs_Qle_condition in Hnear as [Hn1 Hn2].
  assert (forall x, 0 <= x -> r - (1 # 10 ^ 18) <= x <= r + (1 # 10 ^ 18) ->
    Qabs (inject_Z total * x - inject_Z (Z.min required total) * ld_val f) <= inject_Z total * (1 # 10 ^ 18)) as Hclose.
  { intros x Hx [Hx1 Hx2]. rewrite <-Htgt, <-Hr'. apply Qabs_Qle_condition. split; nra. }
  assert ((total <= Z.max 0 required)%Z -> ld_val q == ld_val f) as Hexact.
  { intros Hcap. apply ld_quo_exact; [done|]. rewrite Htgt, ld_int, Z.min_r by lia. ring. }
  assert (ld_val LegacyOneDec == 1) as Hone by apply (ld_int 1).
  destruct (ld_GT q LegacyOneDec) eqn:Hgt.
  - apply ld_GT_val in Hgt. split; [lra|]. split; [|intros _ _; apply Hclose; lra]. intros [?|Hcap%Hexact]; [lia|lra].
  - assert (~ ld_val LegacyOneDec < ld_val q) as Hle1 by (rewrite <-ld_GT_val; congruence).
    split; [lra|]. split; [|intros _ _; apply Hclose; [done|lra]]. intros [?|Hcap%Hexact]; [lia|done].
Qed.
End Fractions.

(** Applying a function to some entries of a map. *)
Section Slash.
Context {W : Type} `{!AccAddressCodec} `{!CoinLib} `{!CoinLaws} `{!LegacyDecLib} `{!LegacyDecLaws}.
Context `{!CollateralEnv W} `{!CollateralEnvLaws W}.
Abbreviation CC := (Collateral W).
Implicit Types (c : CC) (a b : AccAddress) (e n : Z) (f : LegacyDec).

Lemma cut_entry_amount (q : Q) u : from_option unbonding_amount 0 (cut_entry q u) = unbonding_amount u - cut q (unbonding_amount u).
Proof.
  unfold cut_entry. generalize (cut q (unbonding_amount u)) as x. intros x.
  destruct (x =? 0) eqn:Hx; [cbn [from_option]; lia|]. destruct (unbonding_amount u - x =? 0) eqn:Hn; cbn [from_option]; [lia|done].
Qed.

Lemma slash_unbonding_run f t e a n c : (0 <= ld_val f <= 1)%Q -> 0 <= t -> 0 <= n -> t + cut (ld_val f) n < max_int -> printable a ->
  UnbondingIM c !! (e, a) = Some (MkUnbonding (AccAddress_String a) e (base n)) ->
  slash_unbonding f (base t) (MkUnbonding (AccAddress_String a) e (base n)) c =
    (set_UnbondingIM (partial_alter (fun o => o ≫= cut_entry (ld_val f)) (e, a) (UnbondingIM c)) c, Ok (base (t + cut (ld_val f) n))).
Proof.
  intros Hf Ht Hn Hmax Ha Hu. pose proof (cut_bounds _ n Hf Hn) as Hc. unfold slash_unbonding. cbn [ub_Amount].
  rewrite slash_of_base by (done || apply Hf). rewrite (bind_run _ _ c c (base (cut (ld_val f) n))) by done.
  rewrite (partial_alter_ext _ (fun _ => cut_entry (ld_val f) (MkUnbonding (AccAddress_String a) e (base n))))
    by (intros o <-; by rewrite Hu).
  unfold cut_entry, unbonding_amount, Coin_IsZero. cbn [ub_Amount cn_Amount base ub_Participant ub_CompletionEpoch].
  destruct (cut (ld_val f) n =? 0) eqn:Hz.
  - boolify. rewrite Hz, Z.add_0_r. rewrite partial_alter_id by done. by destruct c.
  - rewrite sub_base by lia. rewrite (bind_run _ _ c c (base (n - cut (ld_val f) n))) by done. cbn [cn_Amount base].
    destruct (n - cut (ld_val f) n =? 0).
    + rewrite (bind_run _ _ c (set_UnbondingIM (delete (e, a) (UnbondingIM c)) c) tt).
      * unfold from_outcome. by rewrite add_base by lia.
      * rewrite Ha. done.
    + rewrite (bind_run _ _ c (set_UnbondingIM (<[(e, a) := MkUnbonding (AccAddress_String a) e (base (n - cut (ld_val f) n))]> (UnbondingIM c)) c) tt).
      * unfold from_outcome. by rewrite add_base by lia.
      * unfold setUnbondingCollateralEntry. cbn [ub_Participant]. rewrite Ha. done.
Qed.

Lemma slash_loop_run f a ks c0 : (0 <= ld_val f <= 1)%Q -> coll_ok c0 -> NoDup ks ->
  (forall k, k ∈ ks -> k.2 = a /\ is_Some (UnbondingIM c0 !! k)) ->
  forall c t, 0 <= t -> (forall k, k ∈ ks -> UnbondingIM c !! k = UnbondingIM c0 !! k) ->
  t + lsum (fun k => from_option (fun u => cut (ld_val f) (unbonding_amount u)) 0 (UnbondingIM c0 !! k)) ks < max_int ->
  mfold (slash_unbonding f) (base t) (omap (fun k => UnbondingIM c0 !! k) ks) c =
    (set_UnbondingIM (alter_all (cut_entry (ld_val f)) ks (UnbondingIM c)) c,
     Ok (base (t + lsum (fun k => from_option (fun u => cut (ld_val f) (unbonding_amount u)) 0 (UnbondingIM c0 !! k)) ks))).
Proof.
  intros Hf Hok. induction ks as [|[e b] ks IH]; intros Hnd Hks c t Ht Hsame Hmax.
  { cbn. rewrite Z.add_0_r. by destruct c. }
  apply NoDup_cons in Hnd as [Hnew Hnd]. destruct (Hks (e, b)) as [Hb [u Hu]]; [set_solver|]. cbn in Hb. subst b.
  destruct (ck_unbonding c0 Hok e a u Hu) as (n & -> & Hn & _ & Ha & _). pose proof (cut_bounds _ n Hf Hn) as Hc.
  assert (0 <= lsum (fun k => from_option (fun u => cut (ld_val f) (unbonding_amount u)) 0 (UnbondingIM c0 !! k)) ks) as Hrest.
  { apply lsum_nonneg. intros [e' b] _. destruct (UnbondingIM c0 !! (e', b)) as [u|] eqn:Hb; [|done]. cbn [from_option].
    destruct (ck_unbonding c0 Hok e' b u Hb) as (m & -> & Hm & _). by apply cut_bounds. }
  cbn [omap list_omap]. rewrite lsum_cons, Hu in Hmax |- *. cbn [mfold from_option] in Hmax |- *.
  replace (unbonding_amount (MkUnbonding (AccAddress_String a) e (base n))) with n in * by done.
  rewrite (bind_run _ _ _ _ _ (slash_unbonding_run f t e a n c Hf Ht Hn ltac:(lia) Ha ltac:(rewrite Hsame by set_solver; exact Hu))).
  rewrite IH; [|done|set_solver|lia| |lia].
  - unfold alter_all. cbn [fold_left]. by rewrite Z.add_assoc.
  - intros k Hk. cbn [UnbondingIM set_UnbondingIM]. rewrite lookup_partial_alter_ne by (by intros <-). apply Hsame. set_solver.
Qed.

Lemma participant_keys_perm c a :
  participant_keys c a ≡ₚ filter (fun k => k.2 = a) (elements (dom (UnbondingIM c))).
Proof.
  unfold participant_keys. rewrite sort_Z_perm, <-list_fmap_compose. rewrite <-(list_fmap_id (filter _ _)) at 2.
  erewrite list_fmap_ext; [reflexivity|]. intros i [e b] Hx%list_elem_of_lookup_2.
  apply list_elem_of_filter in Hx as [<- _]. done.
Qed.

Lemma participant_keys_iff c a k : k ∈ participant_keys c a <-> k.2 = a /\ is_Some (UnbondingIM c !! k).
Proof. rewrite participant_keys_perm, list_elem_of_filter, elem_of_elements, elem_of_dom. done. Qed.

Lemma NoDup_participant_keys c a : NoDup (participant_keys c a).
Proof. rewrite participant_keys_perm. apply NoDup_filter, NoDup_elements. Qed.

Lemma keys_sum (g : UnbondingCollateral -> Z) c a :
  lsum (fun k => from_option g 0 (UnbondingIM c !! k)) (participant_keys c a) = queue_sum g c a.
Proof.
  unfold queue_sum. rewrite participant_keys_perm, msum_map_to_list.
  rewrite dom_perm.
  assert (forall k u, (k, u) ∈ map_to_list (UnbondingIM c) -> UnbondingIM c !! k = Some u) as Hlk by (intros k u; by rewrite elem_of_map_to_list).
  induction (map_to_list (UnbondingIM c)) as [|[k u] l IH]; [done|]. cbn [fmap list_fmap fst]. rewrite lsum_cons, filter_cons.
  rewrite <-IH by (intros; apply Hlk; set_solver). case_bool_decide as Hk.
  - rewrite decide_True by done. rewrite lsum_cons, (Hlk k u) by set_solver. done.
  - by rewrite decide_False by done.
Qed.

Lemma fold_total c l t :
  fold_left (fun t entry => t + cn_Amount (ub_Amount entry)) (omap (fun k => UnbondingIM c !! k) l) t =
    t + lsum (fun k => from_option unbonding_amount 0 (UnbondingIM c !! k)) l.
Proof.
  revert t. induction l as [|k l IH]; intros t; [cbn; lia|]. cbn [omap list_omap]. rewrite lsum_cons.
  destruct (UnbondingIM c !! k) as [u|] eqn:Hu; cbn [fold_left from_option]; rewrite IH; unfold unbonding_amount; lia.
Qed.

Definition cut_coin (q : Q) (x : Coin) : option Coin := Some (base (cn_Amount x - cut q (cn_Amount x))).

Lemma slash_active_run f a c : (0 <= ld_val f <= 1)%Q -> coll_ok c ->
  slash_active a f (CollateralMap c !! a) (base 0) c =
    (set_CollateralMap (partial_alter (fun o => o ≫= cut_coin (ld_val f)) a (CollateralMap c)) c,
     Ok (base (cut (ld_val f) (active_of c a)))).
Proof.
  intros Hf Hok. rewrite (partial_alter_ext _ (fun _ => CollateralMap c !! a ≫= cut_coin (ld_val f))) by (by intros o <-).
  unfold active_of. destruct (CollateralMap c !! a) as [x|] eqn:Hx; cbn [from_option mbind option_bind slash_active].
  2:{ rewrite partial_alter_id by done. cbn. by destruct c. }
  destruct (ck_active c Hok a x Hx) as (n & -> & Hn & _). pose proof (cut_bounds _ n Hf Hn) as Hc. cbn [cn_Amount base].
  rewrite slash_of_base by (done || apply Hf). rewrite (bind_run _ _ c c (base (cut (ld_val f) n))) by done.
  unfold Coin_IsZero. cbn [cn_Amount base]. destruct (cut (ld_val f) n =? 0) eqn:Hz.
  - boolify. rewrite Hz. rewrite partial_alter_id by (rewrite Hx; unfold cut_coin; cbn [cn_Amount base]; by rewrite Hz, Z.sub_0_r). by destruct c.
  - rewrite sub_base by lia. rewrite (bind_run _ _ c c (base (n - cut (ld_val f) n))) by done.
    rewrite (bind_run _ _ c (set_CollateralMap (<[a := base (n - cut (ld_val f) n)]> (CollateralMap c)) c) tt) by done.
    pose proof (part_held c 0 a Hok) as Hh. pose proof (unbonding_nonneg c 0 a Hok). pose proof (ck_small c Hok).
    unfold active_of in Hh. rewrite Hx in Hh. cbn in Hh. unfold from_outcome. by rewrite add_base by (lia || (apply small_int; lia)).
Qed.

(** The two collections after a slash, and what they hold. *)
Lemma cut_maps_sum q c a : (0 <= q <= 1)%Q -> coll_ok c ->
  let m1 := partial_alter (fun o => o ≫= cut_coin q) a (CollateralMap c) in
  let m2 := alter_all (cut_entry q) (participant_keys c a) (UnbondingIM c) in
  msum (fun _ x => cn_Amount x) m1 + msum (fun _ u => unbonding_amount u) m2 = held c - taken q c a /\ 0 <= taken q c a <= held c.
Proof.
  intros Hq Hok m1 m2.
  assert (forall a n x, CollateralMap c !! a = Some x -> n = cn_Amount x -> 0 <= cut q n <= n) as Hact.
  { intros b n x Hx ->. destruct (ck_active c Hok b x Hx) as (n & -> & Hn & _). by apply cut_bounds. }
  assert (forall k u, UnbondingIM c !! k = Some u -> 0 <= cut q (unbonding_amount u) <= unbonding_amount u) as Hub.
  { intros [e b] u Hu. destruct (ck_unbonding c Hok e b u Hu) as (n & -> & Hn & _). by apply cut_bounds. }
  assert (msum (fun _ x => cn_Amount x) m1 = msum (fun _ x => cn_Amount x) (CollateralMap c) - cut q (active_of c a)) as Hm1.
  { unfold m1, active_of. rewrite (msum_alter _ cn_Amount). pose proof (cut_bounds q 0 Hq ltac:(lia)).
    destruct (CollateralMap c !! a); cbn [from_option mbind option_bind cut_coin cn_Amount base]; lia. }
  assert (msum (fun _ u => unbonding_amount u) m2 = msum (fun _ u => unbonding_amount u) (UnbondingIM c) -
    queue_sum (fun u => cut q (unbonding_amount u)) c a) as Hm2.
  { unfold m2. rewrite <-keys_sum. apply (alter_all_sum _ unbonding_amount (fun u => cut q (unbonding_amount u)));
      [apply NoDup_participant_keys|]. intros k u _ _. apply cut_entry_amount. }
  assert (0 <= cut q (active_of c a)).
  { unfold active_of. destruct (CollateralMap c !! a) as [x|] eqn:Hx; [by apply (Hact a _ x Hx)|]. by apply cut_bounds. }
  assert (0 <= queue_sum (fun u => cut q (unbonding_amount u)) c a).
  { apply msum_nonneg. intros k u Hu. apply Hub in Hu. case_bool_decide; lia. }
  assert (0 <= msum (fun _ x => cn_Amount x) m1).
  { apply msum_nonneg. intros b x. unfold m1. destruct (decide (b = a)) as [->|Hb].
    - rewrite lookup_partial_alter_eq. destruct (CollateralMap c !! a) as [y|] eqn:Hy; [|done]. intros [= <-]. cbn [cn_Amount base].
      pose proof (Hact a _ y Hy eq_refl). lia.
    - rewrite lookup_partial_alter_ne by done. intros Hx. pose proof (Hact b _ x Hx eq_refl). lia. }
  assert (0 <= msum (fun _ u => unbonding_amount u) m2).
  { apply msum_nonneg. intros k u. unfold m2. rewrite alter_all_lookup by apply NoDup_participant_keys.
    case_bool_decide; [|intros Hu; apply Hub in Hu; lia]. destruct (UnbondingIM c !! k) as [v|] eqn:Hv; [|done]. cbn [mbind option_bind]. intros Hu.
    pose proof (cut_entry_amount q v) as Hc. rewrite Hu in Hc. cbn [from_option] in Hc. apply Hub in Hv. lia. }
  unfold held, taken in *. lia.
Qed.

(** The collections after a slash whose coins were sent as in world [w] and whose mark
    was set as in [marks]. *)
Definition after_slash c a (q : Q) marks (w : W) : CC :=
  MkCollateral (partial_alter (fun o => o ≫= cut_coin q) a (CollateralMap c))
    (alter_all (cut_entry q) (participant_keys c a) (UnbondingIM c))
    (CurrentEpoch c) (Jailed c) marks (coll_params c) w.

Lemma after_slash_slashed c a reason q w : (0 <= q <= 1)%Q -> coll_ok c ->
  CollateralBalance w = CollateralBalance (coll_World c) - taken q c a ->
  GovBalance w = GovBalance (coll_World c) + taken q c a ->
  (forall b, UserBalance w b = UserBalance (coll_World c) b) ->
  slashed c a reason q (after_slash c a q
    (if (taken q c a =? 0) || bool_decide (reason = "") then SlashedInEpoch c
     else {[slash_key c a reason]} ∪ SlashedInEpoch c) w).
Proof.
  intros Hq Hok Hb Hg Hu. destruct (cut_maps_sum q c a Hq Hok) as [Hsum _]. split; try done.
  - intros b. cbn. destruct (decide (b = a)) as [->|Hne].
    + rewrite lookup_partial_alter_eq, bool_decide_eq_true_2 by done. by destruct (CollateralMap c !! a).
    + by rewrite lookup_partial_alter_ne, bool_decide_eq_false_2 by done.
  - intros e b. cbn [UnbondingIM after_slash]. rewrite alter_all_lookup by apply NoDup_participant_keys.
    destruct (UnbondingIM c !! (e, b)) as [u|] eqn:Hlk.
    + erewrite bool_decide_ext; [reflexivity|]. rewrite participant_keys_iff, Hlk. cbn. split; [by intros [-> _]|by intros ->].
    + by repeat case_bool_decide.
  - unfold spare, held in *. cbn [CollateralMap UnbondingIM coll_World after_slash]. lia.
Qed.

Lemma slash_tail_run c a f : (0 <= ld_val f <= 1)%Q -> coll_ok c ->
  bind (slash_active a f (CollateralMap c !! a) (base 0))
    (fun slashed => mfold (slash_unbonding f) slashed (GetUnbondingByParticipant c a)) c =
  (after_slash c a (ld_val f) (SlashedInEpoch c) (coll_World c), Ok (base (taken (ld_val f) c a))).
Proof.
  intros Hf Hok. rewrite (bind_run _ _ _ _ _ (slash_active_run f a c Hf Hok)). unfold GetUnbondingByParticipant.
  rewrite (slash_loop_run f a); [|done..|apply NoDup_participant_keys|by intros k ?%participant_keys_iff| |done|].
  - unfold taken. by rewrite <-keys_sum.
  - apply cut_bounds; [done|]. by apply active_nonneg.
  - rewrite keys_sum. destruct (cut_maps_sum _ c a Hf Hok) as [_ Ht]. pose proof (ck_small c Hok). unfold taken in Ht. apply small_int. lia.
Qed.

Lemma bind_assoc {S E A B C} (m : GoM S E A) (k : A -> GoM S E B) (h : B -> GoM S E C) s :
  bind m (fun x => bind (k x) h) s = bind (bind m k) h s.
Proof. unfold bind. by destruct (m s) as [s' [x|e]]. Qed.

Lemma slash_guard f : negb (ld_IsNegative f || ld_GT f LegacyOneDec) = true <-> (0 <= ld_val f <= 1)%Q.
Proof.
  rewrite negb_true_iff, orb_false_iff, <-!not_true_iff_false, ld_IsNegative_val, ld_GT_val.
  unfold LegacyOneDec. rewrite ld_int. change (inject_Z 1) with 1%Q. split; intros []; split; lra.
Qed.

Lemma already_run c a reason : checkIfAlreadySlashed a reason c =
  (c, if bool_decide (reason = "") then Ok None
      else if bool_decide (slash_key c a reason ∈ SlashedInEpoch c) then Err "already slashed"
      else Ok (Some (slash_key c a reason))).
Proof. unfold checkIfAlreadySlashed. repeat case_bool_decide; cbn; unfold slash_key in *; by repeat case_bool_decide. Qed.

(** The rest of [Slash] after its two checks. *)
Lemma slash_body_run c a reason q key (f : LegacyDec) :
  coll_ok c -> ld_val f = q -> (0 <= q <= 1)%Q ->
  key = (if bool_decide (reason = "") then None else Some (slash_key c a reason)) ->
  exists c', (let* total := (let* slashed := slash_active a f (CollateralMap c !! a) (base 0) in
                             mfold (slash_unbonding f) slashed (GetUnbondingByParticipant c a)) in
              if Coin_IsZero total then ret total
              else run* on_bank (coll_SendCoinsFromModuleToGov total) in
                   run* match key with
                        | Some k => modify (fun c => set_SlashedInEpoch ({[k]} ∪ SlashedInEpoch c) c)
                        | None => ret tt
                        end in
                   ret total) c = (c', Ok (base (taken q c a))) /\ slashed c a reason q c'.
Proof.
  intros Hok Hfq Hq ->. subst q. rewrite (bind_run _ _ _ _ _ (slash_tail_run c a f Hq Hok)).
  destruct (cut_maps_sum _ c a Hq Hok) as [_ Ht]. pose proof (ck_backed c Hok) as Hback. unfold spare in Hback.
  unfold Coin_IsZero. cbn [cn_Amount base]. destruct (taken (ld_val f) c a =? 0) eqn:Hz.
  - eexists. split; [reflexivity|]. pose proof (after_slash_slashed c a reason (ld_val f) (coll_World c) Hq Hok) as Hs.
    rewrite Hz in Hs. cbn [orb] in Hs. apply Hs; [lia|lia|done].
  - destruct (coll_send_gov (taken (ld_val f) c a) (coll_World c)) as (w & Hsend & Hb & Hg & Hu); [lia|pose proof (ck_small c Hok); lia|].
    pose proof (after_slash_slashed c a reason (ld_val f) w Hq Hok Hb Hg Hu) as Hs. rewrite Hz in Hs. cbn [orb] in Hs.
    eexists. split; [|exact Hs]. rewrite (bind_run _ _ _ (after_slash c a (ld_val f) (SlashedInEpoch c) w) tt).
    + case_bool_decide; reflexivity.
    + unfold on_bank. cbn [coll_World after_slash]. by rewrite Hsend.
Qed.

Lemma slash_run c a f reason required : coll_ok c ->
  let q := ld_val (effective_fraction f required (total_of c a)) in
  match Slash a f reason required c with
  | (c', Ok x) => (0 <= ld_val f <= 1)%Q /\ ~ already_slashed c a reason /\ x = base (taken q c a) /\ slashed c a reason q c'
  | (c', Err _) => c' = c /\ (~ (0 <= ld_val f <= 1)%Q \/ already_slashed c a reason)
  end.
Proof.
  intros Hok q. unfold Slash, already_slashed. destruct (negb (ld_IsNegative f || ld_GT f LegacyOneDec)) eqn:Hguard.
  2:{ cbn. split; [done|left]. rewrite <-slash_guard. congruence. }
  pose proof Hguard as Hf. rewrite slash_guard in Hf. rewrite (bind_run _ _ c c tt) by done.
  pose proof (already_run c a reason) as Hal.
  assert ((0 <= q <= 1)%Q) as Hq by (apply effective_spec; done).
  destruct (decide (reason <> "" /\ slash_key c a reason ∈ SlashedInEpoch c)) as [Hyes|Hno].
  - rewrite bool_decide_eq_false_2, bool_decide_eq_true_2 in Hal by apply Hyes. unfold bind at 1. rewrite Hal. auto.
  - set (key := if bool_decide (reason = "") then None else Some (slash_key c a reason)).
    assert (checkIfAlreadySlashed a reason c = (c, Ok key)) as Hkey.
    { rewrite Hal. unfold key. case_bool_decide; [done|]. case_bool_decide; [|done]. exfalso. auto. }
    rewrite (bind_run _ _ _ _ _ Hkey), (bind_run _ _ c c (CollateralMap c !! a)), (bind_run _ _ c c (GetUnbondingByParticipant c a)) by done.
    rewrite new_base by lia.
    replace (fold_left _ (GetUnbondingByParticipant c a) _) with (total_of c a)
      by (unfold GetUnbondingByParticipant; by rewrite fold_total, keys_sum). rewrite (bind_run _ _ c c (base 0)) by done.
    destruct (slash_body_run c a reason q key _ Hok eq_refl Hq eq_refl) as (c' & Hrun & Hs).
    rewrite <-bind_assoc in Hrun. rewrite Hrun. done.
Qed.

Lemma cut_entry_base (q : Q) e a n u : 0 <= n -> (0 <= q <= 1)%Q ->
  cut_entry q (MkUnbonding (AccAddress_String a) e (base n)) = Some u ->
  exists m, u = MkUnbonding (AccAddress_String a) e (base m) /\ 0 <= m.
Proof.
  intros Hn Hq. pose proof (cut_bounds q n Hq Hn) as Hc. unfold cut_entry, unbonding_amount. cbn [ub_Amount cn_Amount base].
  destruct (cut q n =? 0); [|destruct (n - cut q n =? 0); [done|]]; intros [= <-]; eexists; (split; [reflexivity|lia]).
Qed.

Lemma slashed_ok c a reason q c' : (0 <= q <= 1)%Q -> coll_ok c -> slashed c a reason q c' -> coll_ok c'.
Proof.
  intros Hq Hok Hs. split.
  - intros b x. rewrite (sl_map _ _ _ _ _ Hs). case_bool_decide; [|apply (ck_active c Hok)].
    destruct (CollateralMap c !! b) as [y|] eqn:Hy; [|done]. intros [= <-].
    destruct (ck_active c Hok b y Hy) as (n & -> & Hn & Hb). pose proof (cut_bounds q n Hq Hn). eexists.
    split; [reflexivity|]. cbn [cn_Amount base]. split; [lia|done].
  - intros e b u. rewrite (sl_unbonding _ _ _ _ _ Hs). case_bool_decide; [|apply (ck_unbonding c Hok)].
    destruct (UnbondingIM c !! (e, b)) as [v|] eqn:Hv; [|done]. cbn [mbind option_bind].
    destruct (ck_unbonding c Hok e b v Hv) as (n & -> & Hn & He & Hb). intros (m & -> & Hm)%cut_entry_base; [|done..].
    by exists m.
  - rewrite (sl_jailed _ _ _ _ _ Hs). apply (ck_jailed c Hok).
  - rewrite (sl_spare _ _ _ _ _ Hs). apply (ck_backed c Hok).
  - pose proof (ck_small c Hok). pose proof (sl_spare _ _ _ _ _ Hs) as Hsp. unfold spare in Hsp. rewrite (sl_module _ _ _ _ _ Hs) in Hsp.
    destruct (cut_maps_sum q c a Hq Hok) as [_ Ht]. lia.
Qed.

(** Truncation loses less than a coin for each holding. *)
Definition holdings_of c a : Z := 1 + queue_sum (fun _ => 1) c a.

Lemma cut_close (q : Q) n : (inject_Z (cut q n) <= inject_Z n * q < inject_Z (cut q n) + 1)%Q.
Proof.
  unfold cut. split; [apply Qfloor_le|]. pose proof (Qlt_floor (inject_Z n * q)) as Hlt. rewrite inject_Z_plus in Hlt. exact Hlt.
Qed.

Lemma cuts_close (q : Q) c (ks : list (Z * AccAddress)) :
  let s (g : UnbondingCollateral -> Z) := lsum (fun k => from_option g 0 (UnbondingIM c !! k)) ks in
  (inject_Z (s (fun u => cut q (unbonding_amount u))) <= inject_Z (s unbonding_amount) * q <=
   inject_Z (s (fun u => cut q (unbonding_amount u)) + s (fun _ => 1%Z)))%Q.
Proof.
  cbn zeta. induction ks as [|k ks IH]; [cbn [lsum foldr]; rewrite inject_Z_plus; change (inject_Z 0) with 0%Q; lra|]. rewrite !lsum_cons, !inject_Z_plus in *. revert IH.
  destruct (UnbondingIM c !! k) as [u|]; cbn [from_option]; [|change (inject_Z 0) with 0%Q; lra].
  pose proof (cut_close q (unbonding_amount u)). change (inject_Z 1) with 1%Q in *. lra.
Qed.

Lemma taken_close (q : Q) c a :
  (inject_Z (taken q c a) <= inject_Z (total_of c a) * q <= inject_Z (taken q c a + holdings_of c a))%Q.
Proof.
  unfold taken, total_of, holdings_of. rewrite <-!keys_sum, !inject_Z_plus.
  pose proof (cuts_close q c (participant_keys c a)) as Hq. cbn zeta in Hq. rewrite !inject_Z_plus in Hq.
  pose proof (cut_close q (active_of c a)). change (inject_Z 1) with 1%Q. lra.
Qed.
(** The fraction [q] that a slash of [f] with a requirement comes to: [f] itself when
    the participant has at most what is required; otherwise the whole slash is [f] of
    what is required, up to a coin for each holding and the precision of the decimals. *)
Record charged c a (f : LegacyDec) (required : Z) (q : Q) : Prop := {
  cg_plain : required <= 0 \/ total_of c a <= Z.max 0 required -> (q == ld_val f)%Q;
  cg_scaled : 0 < required -> 0 < total_of c a ->
    let target := (inject_Z (Z.min required (total_of c a)) * ld_val f)%Q in
    let eps := (inject_Z (total_of c a) * (1 # 10 ^ 18))%Q in
    (target - eps - inject_Z (holdings_of c a) <= inject_Z (taken q c a) <= target + eps)%Q
}.

Lemma effective_charged c a f required : (0 <= ld_val f <= 1)%Q ->
  charged c a f required (ld_val (effective_fraction f required (total_of c a))).
Proof.
  intros Hf. destruct (effective_spec f required (total_of c a) Hf) as (Hq & Hsame & Hnear). split; [done|].
  intros Hr Ht. specialize (Hnear Hr Ht). apply Qabs_Qle_condition in Hnear as [Hn1 Hn2].
  pose proof (taken_close (ld_val (effective_fraction f required (total_of c a))) c a) as Hc. rewrite inject_Z_plus in Hc. cbn zeta. lra.
Qed.

End Slash.
