(* ===== verification/CollateralTrace.v ===== *)
(** * The collateral module over time

    Export and import of the module's state, the sequences of events that the module
    sees ([coll_trace]), and the theorems about both. *)

From Stdlib Require Import QArith Qabs Qround Lqa.
From stdpp Require Import sorting.
From S2P Require Import Prelude.
From S2P Require Import ChainStore.
From S2P Require Import ChainCoins.
From S2P Require Import Collateral.
From S2P Require Import CollateralSpec.
Open Scope Z_scope.
Open Scope go_scope.

(* ------------------------------------------------------------------ *)
(** ** Events *)

Section Events.
Context {W : Type} `{!AccAddressCodec} `{!CoinLib} `{!LegacyDecLib} `{!CollateralEnv W}.
Abbreviation CC := (Collateral W).
Implicit Types (c : CC) (a : AccAddress).

(** What the module is called with: messages, the inference module's calls, the hooks
    of staking, and the steps of other modules. *)
Inductive CollateralEvent :=
| EvDeposit (msg : MsgDepositCollateral)
| EvWithdraw (msg : MsgWithdrawCollateral)
| EvAdvance (completedEpoch : Z)
| EvSlash (a : AccAddress) (f : LegacyDec) (reason : string) (required : Z)
| EvBonded (a : AccAddress)
| EvBeginUnbonding (a : AccAddress)
| EvValidatorSlashed (a : AccAddress) (f : LegacyDec)
| EvUpdateParams (authority : string) (req : MsgUpdateParams)
| EvOther (w : W).

(** A message runs in a transaction; a call of another module or a hook does not, and
    keeps what it wrote before an error. *)
Definition coll_apply (ev : CollateralEvent) (c : CC) : CC :=
  match ev with
  | EvDeposit msg => (cached (DepositCollateral msg) c).1
  | EvWithdraw msg => (cached (WithdrawCollateral msg) c).1
  | EvAdvance e => (AdvanceEpoch e c).1
  | EvSlash a f reason required => (Slash a f reason required c).1
  | EvBonded a => (AfterValidatorBonded a c).1
  | EvBeginUnbonding a => (AfterValidatorBeginUnbonding a c).1
  | EvValidatorSlashed a f => (BeforeValidatorSlashed a f c).1
  | EvUpdateParams authority req => (cached (UpdateParams authority req) c).1
  | EvOther w => set_coll_World w c
  end.

(** Messages passed [ValidateBasic], a depositor is a user, and there are less than 2^63
    coins; epochs are 64-bit; a
    validator has an address; no other module takes coins from this one's account. *)
Definition event_ok (ev : CollateralEvent) (c : CC) : Prop :=
  match ev with
  | EvDeposit msg => deposit_ValidateBasic msg = Ok tt /\
      (forall a, AccAddressFromBech32 (dp_Participant msg) = Some a -> Payable a) /\ held c + cn_Amount (dp_Amount msg) < 2 ^ 63
  | EvWithdraw msg => withdraw_ValidateBasic msg = Ok tt
  | EvAdvance e => is_u64 e
  | EvBeginUnbonding a => printable a
  | EvOther w => CollateralBalance (coll_World c) <= CollateralBalance w
  | _ => True
  end.

Inductive coll_trace : list CollateralEvent -> CC -> CC -> Prop :=
| trace_nil c : coll_trace [] c c
| trace_cons ev evs c c' : event_ok ev c -> coll_trace evs (coll_apply ev c) c' -> coll_trace (ev :: evs) c c'.

(** The events that can take from the queue entry of [a] for epoch [e]. *)
Definition touches (a : AccAddress) (e : Z) (ev : CollateralEvent) : Prop :=
  match ev with
  | EvAdvance e' => e' = e
  | EvSlash b _ _ _ | EvValidatorSlashed b _ => b = a
  | _ => False
  end.

End Events.
Arguments CollateralEvent W {_}.

(* ------------------------------------------------------------------ *)
(** ** Genesis *)

Section Genesis.
Context {W : Type} `{!AccAddressCodec} `{!CoinLib} `{!LegacyDecLib} `{!CollateralEnv W}.
Abbreviation CC := (Collateral W).
Implicit Types (c : CC) (a : AccAddress).

(** A store with nothing in it. *)
Definition empty_store (w : W) : CC := MkCollateral ∅ ∅ None ∅ ∅ None w.

Lemma init_balances_run (m : gmap AccAddress Coin) ks c : (forall k, is_Some (m !! k) -> printable k) ->
  mfold (fun _ elem =>
    let* participant := lift_option (AccAddressFromBech32 (bl_Participant elem)) genesis_panic in
    SetCollateral participant (bl_Amount elem)) tt
    ((fun x => MkBalance (AccAddress_String x.1) x.2) <$> omap (fun a => pair a <$> m !! a) ks) c =
  (set_CollateralMap (write_back m ks (CollateralMap c)) c, Ok tt).
Proof.
  intros Hp. revert c. induction ks as [|k ks IH]; intros c; [by destruct c|]. unfold write_back. cbn [omap list_omap fold_left].
  destruct (m !! k) as [x|] eqn:Hk; cbn [fmap option_fmap option_map]; [|apply IH]. cbn [list_fmap mfold].
  rewrite (bind_run _ _ c (set_CollateralMap (<[k := x]> (CollateralMap c)) c) tt); [by rewrite IH|].
  cbn [bl_Participant fst]. rewrite Hp by (by eexists). done.
Qed.

Lemma init_unbonding_run (m : gmap (Z * AccAddress) UnbondingCollateral) ks c : NoDup ks ->
  (forall e a u, m !! (e, a) = Some u -> exists x, u = MkUnbonding (AccAddress_String a) e x /\ printable a) ->
  (forall k, k ∈ ks -> UnbondingIM c !! k = None) ->
  mfold (fun _ elem =>
    let* participant := lift_option (AccAddressFromBech32 (ub_Participant elem)) genesis_panic in
    AddUnbondingCollateral participant (ub_CompletionEpoch elem) (ub_Amount elem)) tt (omap (fun k => m !! k) ks) c =
  (set_UnbondingIM (write_back m ks (UnbondingIM c)) c, Ok tt).
Proof.
  intros Hnd Hm. revert c. induction ks as [|[e a] ks IH]; intros c Hfree; [by destruct c|].
  apply NoDup_cons in Hnd as [Hnew Hnd]. unfold write_back. cbn [omap list_omap fold_left].
  destruct (m !! (e, a)) as [u|] eqn:Hu; [|apply IH; set_solver]. destruct (Hm e a u Hu) as (x & -> & Hp). cbn [mfold].
  rewrite (bind_run _ _ c (set_UnbondingIM (<[(e, a) := MkUnbonding (AccAddress_String a) e x]> (UnbondingIM c)) c) tt).
  - rewrite IH; [done|done|]. intros k Hk. cbn [UnbondingIM set_UnbondingIM]. rewrite lookup_insert_ne by (by intros <-). apply Hfree. set_solver.
  - cbn [ub_Participant ub_CompletionEpoch ub_Amount]. rewrite Hp. unfold AddUnbondingCollateral, setUnbondingCollateralEntry, bind, reads.
    cbn [lift_option ret]. rewrite Hfree by set_solver. cbn [ret ub_Participant]. by rewrite Hp.
Qed.

Lemma init_jailed_run l c : Forall printable l ->
  mfold (fun _ elem =>
    let* jailedAddr := lift_option (AccAddressFromBech32 elem) genesis_panic in SetJailed jailedAddr) tt (AccAddress_String <$> l) c =
  (set_Jailed (list_to_set l ∪ Jailed c) c, Ok tt).
Proof.
  intros Hl. revert c. induction Hl as [|a l Ha Hl IH]; intros c.
  { cbn. rewrite (left_id_L ∅ (∪)). by destruct c. }
  cbn [fmap list_fmap mfold]. rewrite (bind_run _ _ c (set_Jailed ({[a]} ∪ Jailed c) c) tt) by (by rewrite Ha).
  rewrite IH. by replace (list_to_set (a :: l) ∪ Jailed c) with (list_to_set l ∪ ({[a]} ∪ Jailed c)) by set_solver.
Qed.

Lemma init_export c gs w : coll_ok c -> ExportGenesis c = Some gs ->
  InitGenesis gs (empty_store w) = (MkCollateral (CollateralMap c) (UnbondingIM c) None (Jailed c) ∅ (coll_params c) w, Ok tt).
Proof.
  intros Hok Hex. unfold ExportGenesis in Hex. destruct (coll_params c) as [params|] eqn:Hp; [|done]. injection Hex as <-.
  unfold InitGenesis. cbn [CollateralBalanceList UnbondingCollateralList JailedParticipantList gs_UnbondingPeriodEpochs].
  unfold IterateCollaterals. erewrite bind_run; [|apply init_balances_run].
  2:{ intros k [x Hx]. destruct (ck_active c Hok k x Hx) as (n & _ & _ & Hh). apply Hh. }
  unfold GetAllUnbondings. erewrite bind_run; [|apply init_unbonding_run].
  2:{ rewrite (merge_sort_Permutation pair_le). apply NoDup_elements. }
  2:{ intros e a u Hu. destruct (ck_unbonding c Hok e a u Hu) as (n & -> & _ & _ & Hh). eexists. split; [done|apply Hh]. }
  2:{ intros k _. apply lookup_empty. }
  unfold GetAllJailed. erewrite bind_run; [|apply init_jailed_run].
  2:{ apply Forall_forall. intros a. rewrite (merge_sort_Permutation bytes_le), elem_of_elements. apply (ck_jailed c Hok). }
  unfold modify. f_equal. unfold set_coll_params, set_Jailed, set_UnbondingIM, set_CollateralMap, empty_store. cbn. f_equal.
  - apply write_back_all. intros k Hk. by rewrite (merge_sort_Permutation bytes_le), elem_of_elements, elem_of_dom.
  - apply write_back_all. intros k Hk. by rewrite (merge_sort_Permutation pair_le), elem_of_elements, elem_of_dom.
  - rewrite (right_id_L ∅ (∪)). apply set_eq. intros a. by rewrite elem_of_list_to_set, (merge_sort_Permutation bytes_le), elem_of_elements.
Qed.
End Genesis.

(* ------------------------------------------------------------------ *)
(** ** What one event does *)

Section Trace.
Context {W : Type} `{!AccAddressCodec} `{!AccAddressLaws} `{!CoinLib} `{!CoinLaws} `{!LegacyDecLib} `{!LegacyDecLaws}.
Context `{!CollateralEnv W} `{!CollateralEnvLaws W}.
Abbreviation CC := (Collateral W).
Implicit Types (c : CC) (a b : AccAddress) (e : Z) (ev : CollateralEvent W).

(** The invariant and what the account has to spare are kept, marks stay, and an entry
    of the queue that the event does not touch can only grow. *)
Record coll_evolves ev c c' : Prop := {
  ce_ok : coll_ok c';
  ce_spare : spare c <= spare c';
  ce_marks : SlashedInEpoch c ⊆ SlashedInEpoch c';
  ce_queue : forall a e, ~ touches a e ev -> unbonding_of c e a <= unbonding_of c' e a
}.

Lemma coll_same ev c c' : coll_ok c' -> spare c <= spare c' -> SlashedInEpoch c' = SlashedInEpoch c ->
  UnbondingIM c' = UnbondingIM c -> coll_evolves ev c c'.
Proof. intros ? ? Hm Hu. split; [done..|by rewrite Hm|]. intros a e _. unfold unbonding_of. by rewrite Hu. Qed.

Lemma cached_cases {A} (m : GoM CC string A) (Q : CC -> A -> Prop) c :
  wp m (ok_or False Q) c -> (cached m c).1 = c \/ exists r, Q (cached m c).1 r.
Proof. unfold wp, cached, ok_or. destruct (m c) as [c' [r|err]]; cbn; eauto. Qed.

Lemma deposit_valid msg : deposit_ValidateBasic msg = Ok tt ->
  is_Some (AccAddressFromBech32 (dp_Participant msg)) /\ 0 < cn_Amount (dp_Amount msg).
Proof.
  unfold deposit_ValidateBasic. intros ([] & Ha%ocheck_Ok & ([] & _ & Hp%ocheck_Ok)%obind_Ok)%obind_Ok. boolify.
  split; [done|]. unfold Coin_IsPositive in Hp. lia.
Qed.

Lemma withdraw_valid msg : withdraw_ValidateBasic msg = Ok tt ->
  is_Some (AccAddressFromBech32 (wd_Participant msg)) /\ 0 < cn_Amount (wd_Amount msg).
Proof.
  unfold withdraw_ValidateBasic. intros ([] & Ha%ocheck_Ok & ([] & Hv%ocheck_Ok & Hz%ocheck_Ok)%obind_Ok)%obind_Ok. boolify.
  split; [done|]. apply valid_nonneg in Hv. unfold Coin_IsZero in Hz. lia.
Qed.

Lemma deposit_evolves c msg : coll_ok c -> event_ok (EvDeposit msg) c -> coll_evolves (EvDeposit msg) c (coll_apply (EvDeposit msg) c).
Proof.
  intros Hok [[[a Ha] Hn]%deposit_valid [Hpay Hsmall]]. cbn [coll_apply].
  destruct (cached_cases _ _ c (deposit_wp c a msg Hok Ha (Hpay a Ha) ltac:(lia) Hsmall)) as [->|[r Hd]]; [by apply coll_same|].
  assert (holder a) as Hh by (split; [by eapply bech32_string|auto]).
  destruct (deposited_ok c a _ _ Hok Hh (Z.lt_le_incl _ _ Hn) Hsmall Hd) as [Hok' Hsp].
  apply coll_same; [done|lia|apply (dd_rest _ _ _ _ Hd)|apply (dd_unbonding _ _ _ _ Hd)].
Qed.

Lemma withdraw_evolves c msg : coll_ok c -> event_ok (EvWithdraw msg) c -> coll_evolves (EvWithdraw msg) c (coll_apply (EvWithdraw msg) c).
Proof.
  intros Hok [[a Ha] Hn]%withdraw_valid. cbn [coll_apply].
  destruct (cached_cases _ _ c (withdraw_wp c a msg Hok Ha Hn)) as [->|(e & (cur & period & _ & _ & ->) & Hw)]; [by apply coll_same|].
  set (e := u64 (cur + period)) in *. destruct (withdrawn_ok c a _ e _ Hok (u64_range _) Hw) as [Hok' Hsp].
  split; [done|lia|by rewrite (proj1 (proj2 (wn_rest _ _ _ _ _ Hw)))|].
  intros b e' _. unfold unbonding_of. rewrite (wn_unbonding _ _ _ _ _ Hw). destruct (decide ((e', b) = (e, a))) as [Heq|Hne].
  - injection Heq as -> ->. rewrite lookup_insert_eq. cbn. unfold unbonding_of, unbonding_amount. lia.
  - by rewrite lookup_insert_ne by done.
Qed.

Lemma advance_evolves c e : coll_ok c -> is_u64 e -> coll_evolves (EvAdvance e) c (coll_apply (EvAdvance e) c).
Proof.
  intros Hok He. destruct (advance_run c e He Hok) as (c' & Hrun & Hadv). cbn [coll_apply]. rewrite Hrun. cbn [fst].
  split; [by eapply advanced_ok|by rewrite (av_spare _ _ _ Hadv)|by rewrite (proj1 (proj2 (av_rest _ _ _ Hadv)))|].
  intros b e' Hne. unfold unbonding_of. rewrite (av_unbonding _ _ _ Hadv). cbn in Hne.
  destruct (UnbondingIM c !! (e', b)) as [u|] eqn:Hu.
  - rewrite (map_lookup_filter_Some_2 _ _ (e', b) u) by (done || cbn; congruence). done.
  - by rewrite map_lookup_filter_None_2 by (by left).
Qed.

Lemma slash_evolves ev c a f reason required : coll_ok c -> (forall b e, ~ touches b e ev -> b <> a) ->
  coll_evolves ev c (Slash a f reason required c).1.
Proof.
  intros Hok Ht. pose proof (slash_run c a f reason required Hok) as Hs.
  destruct (Slash a f reason required c) as [c' [x|err]]; cbn [fst]; [|destruct Hs as [-> _]; by apply coll_same].
  destruct Hs as (Hf & _ & _ & Hs). pose proof (proj1 (effective_spec f required (total_of c a) Hf)) as Hq.
  split; [by eapply slashed_ok|by rewrite (sl_spare _ _ _ _ _ Hs)| |].
  - rewrite (sl_marks _ _ _ _ _ Hs). destruct (_ || _); set_solver.
  - intros b e Hb%Ht. unfold unbonding_of. by rewrite (sl_unbonding _ _ _ _ _ Hs), bool_decide_eq_false_2.
Qed.

Lemma jailed_evolves ev c x : coll_ok c -> (forall a, a ∈ x -> printable a) -> coll_evolves ev c (set_Jailed x c).
Proof. intros Hok Hx. apply coll_same; [|done..]. by destruct Hok. Qed.

Lemma apply_evolves ev c : coll_ok c -> event_ok ev c -> coll_evolves ev c (coll_apply ev c).
Proof.
  intros Hok Hev. destruct ev as [msg|msg|e|a f reason required|a|a|a f|authority req|w].
  - by apply deposit_evolves.
  - by apply withdraw_evolves.
  - by apply advance_evolves.
  - apply slash_evolves; [done|]. cbn. congruence.
  - apply jailed_evolves; [done|]. intros b [Hb _]%elem_of_difference. by apply (ck_jailed c Hok).
  - cbn [coll_apply]. unfold AfterValidatorBeginUnbonding, bind, get. destruct (IsParticipantInActiveMaintenance _ _); [by apply coll_same|].
    apply jailed_evolves; [done|]. intros b [->%elem_of_singleton|Hb]%elem_of_union; [done|by apply (ck_jailed c Hok)].
  - cbn [coll_apply]. unfold BeforeValidatorSlashed. rewrite (bind_run _ _ c c (GetRequiredCollateralForSlash (coll_World c) a)) by done.
    pose proof (slash_evolves (EvValidatorSlashed a f) c a f "" (GetRequiredCollateralForSlash (coll_World c) a) Hok) as Hs.
    unfold bind. destruct (Slash _ _ _ _ c) as [c' [x|err]]; apply Hs; cbn; congruence.
  - cbn [coll_apply]. unfold UpdateParams, cached, bind, check. destruct (bool_decide _); [|by apply coll_same].
    apply coll_same; [by destruct Hok|done..].
  - cbn in Hev |- *. apply coll_same; [|unfold spare, held in *; cbn; lia|done..].
    destruct Hok as [? ? ? Hb Hs]. split; [done|done|done|unfold spare, held in *; cbn; lia|done].
Qed.

Lemma coll_trace_ok evs c c' : coll_ok c -> coll_trace evs c c' ->
  coll_ok c' /\ spare c <= spare c' /\ SlashedInEpoch c ⊆ SlashedInEpoch c' /\
  forall a e, Forall (fun ev => ~ touches a e ev) evs -> unbonding_of c e a <= unbonding_of c' e a.
Proof.
  intros Hok Htr. induction Htr as [c|ev evs c c' Hev _ IH]; [done|]. pose proof (apply_evolves ev c Hok Hev) as [Hok' Hsp Hm Hq].
  destruct (IH Hok') as (? & ? & ? & Hrest). split; [done|]. split; [lia|]. split; [set_solver|].
  intros a e [Hev' Hevs]%Forall_cons. specialize (Hq a e Hev'). specialize (Hrest a e Hevs). lia.
Qed.

(** C24: The collateral module is solvent.  Over any sequence of deposits, withdrawals,
    completed epochs, slashes, staking hooks and parameter changes, its account covers
    all active collateral and the whole unbonding queue, and no event eats into what the
    account has beyond that. *)
Theorem collateral_backed evs c c' : coll_ok c -> coll_trace evs c c' ->
  held c' <= CollateralBalance (coll_World c') /\ coll_ok c' /\ spare c <= spare c'.
Proof.
  intros Hok (Hok' & Hsp & _)%coll_trace_ok; [|done]. pose proof (ck_backed _ Hok') as Hb. unfold spare in Hb.
  split; [lia|done].
Qed.

(** C16: A slash is exact and all or nothing.  It is refused, with nothing changed, exactly
    for a fraction outside of 0 and 1 or a second slash for the same reason in an epoch.
    Otherwise every holding of the participant, active or unbonding, loses the same
    fraction rounded down, no one else loses anything, and all of it goes to governance.
    The fraction is the given one when the participant has at most what is required of
    it; when it has more, the whole slash is the fraction of what is required, up to one
    coin for each holding and the precision of the decimals. *)
Theorem slash_exact c a f reason required : coll_ok c ->
  match Slash a f reason required c with
  | (c', Err _) => c' = c /\ (~ (0 <= ld_val f <= 1)%Q \/ already_slashed c a reason)
  | (c', Ok x) => (0 <= ld_val f <= 1)%Q /\ ~ already_slashed c a reason /\ coll_ok c' /\
      exists q, x = base (taken q c a) /\ slashed c a reason q c' /\ charged c a f required q
  end.
Proof.
  intros Hok. pose proof (slash_run c a f reason required Hok) as Hs. destruct (Slash _ _ _ _ c) as [c' [x|err]]; [|exact Hs].
  destruct Hs as (Hf & Hal & -> & Hs). destruct (effective_spec f required (total_of c a) Hf) as (Hq & _).
  split; [done|]. split; [done|]. split; [by eapply slashed_ok|]. eexists. split; [done|]. split; [exact Hs|]. by apply effective_charged.
Qed.

(** C23: A withdrawal is paid out when its epoch completes.  The amount leaves the active
    collateral at once and waits in the queue of the current epoch plus the unbonding
    period; whatever happens in between, except a slash of the participant, completing
    that epoch never fails and pays the participant at least the amount. *)
Theorem withdrawal_paid c msg a c1 e evs c2 :
  coll_ok c -> withdraw_ValidateBasic msg = Ok tt -> AccAddressFromBech32 (wd_Participant msg) = Some a ->
  WithdrawCollateral msg c = (c1, Ok e) -> coll_trace evs c1 c2 -> Forall (fun ev => ~ touches a e ev) evs ->
  let n := cn_Amount (wd_Amount msg) in
  withdrawn c a n e c1 /\
  (exists cur period, CurrentEpoch c = Some cur /\ coll_params c = Some period /\ e = u64 (cur + period)) /\
  exists c3, AdvanceEpoch e c2 = (c3, Ok tt) /\ advanced c2 e c3 /\
    UserBalance (coll_World c2) a + n <= UserBalance (coll_World c3) a.
Proof.
  intros Hok [_ Hpos]%withdraw_valid Ha Hrun Htr Hev n. pose proof (withdraw_wp c a msg Hok Ha Hpos) as Hw.
  unfold wp in Hw. rewrite Hrun in Hw. destruct Hw as ((cur & period & Hcur & Hper & ->) & Hw). fold n in Hw.
  destruct (withdrawn_ok c a n _ c1 Hok (u64_range _) Hw) as [Hok1 _].
  destruct (coll_trace_ok evs c1 c2 Hok1 Htr) as (Hok2 & _ & _ & Hq). specialize (Hq a _ Hev).
  destruct (advance_run c2 _ (u64_range (cur + period)) Hok2) as (c3 & Hadv & Had).
  split; [done|]. split; [by exists cur, period|]. exists c3. split; [done|]. split; [done|]. rewrite (av_users _ _ _ Had).
  enough (n <= unbonding_of c1 (u64 (cur + period)) a) by lia.
  unfold unbonding_of at 1. rewrite (wn_unbonding _ _ _ _ _ Hw), lookup_insert_eq.
  pose proof (unbonding_nonneg c (u64 (cur + period)) a Hok). cbn. unfold unbonding_amount. cbn. lia.
Qed.

(** No one is slashed twice for the same reason in an epoch.  After a slash that took
    something, whatever happens, another one for the same participant and reason is
    refused and changes nothing until the epoch advances. *)
Theorem slashed_once c a f reason required c1 x evs c2 f' required' :
  coll_ok c -> Slash a f reason required c = (c1, Ok x) -> reason <> "" -> 0 < cn_Amount x ->
  coll_trace evs c1 c2 -> CurrentEpoch c2 = CurrentEpoch c ->
  exists err, Slash a f' reason required' c2 = (c2, Err err).
Proof.
  intros Hok Hrun Hreason Hx Htr Hepoch. pose proof (slash_run c a f reason required Hok) as Hs. rewrite Hrun in Hs.
  destruct Hs as (Hf & _ & -> & Hs). pose proof (proj1 (effective_spec f required (total_of c a) Hf)) as Hq.
  assert (coll_ok c1) as Hok1 by (by eapply slashed_ok). destruct (coll_trace_ok evs c1 c2 Hok1 Htr) as (Hok2 & _ & Hm & _).
  assert (already_slashed c2 a reason) as Hal.
  { split; [done|]. unfold slash_key. rewrite Hepoch. apply Hm. rewrite (sl_marks _ _ _ _ _ Hs).
    cbn [cn_Amount base] in Hx. rewrite (bool_decide_eq_false_2 (reason = "")) by done.
    replace (taken _ c a =? 0) with false by lia. unfold slash_key. set_solver. }
  pose proof (slash_run c2 a f' reason required' Hok2) as Hs2. destruct (Slash _ _ _ _ c2) as [c3 [y|err]].
  - by destruct Hs2 as (_ & [] & _).
  - destruct Hs2 as [-> _]. by exists err.
Qed.

(** Only a completed epoch sets the current one. *)
Lemma epoch_on_bank (f : W -> W * outcome string unit) : keeps CurrentEpoch eq (on_bank f).
Proof. intros c c' r. unfold on_bank. by destruct (f (coll_World c)); intros [= <- _]. Qed.
Lemma keeps_epoch {A} (m : GoM CC string A) c : keeps CurrentEpoch eq m -> CurrentEpoch (m c).1 = CurrentEpoch c.
Proof. intros Hm. destruct (m c) as [c' r] eqn:Hc. symmetry. by apply (Hm c c' r). Qed.
Lemma epoch_slash a f reason required : keeps CurrentEpoch eq (Slash a f reason required).
Proof.
  unfold Slash, checkIfAlreadySlashed, slash_active, slash_unbonding, SetCollateral, RemoveUnbondingCollateral, setUnbondingCollateralEntry.
  repeat (apply epoch_on_bank || keeps_step).
Qed.

Definition advances_epoch (ev : CollateralEvent W) : Prop := match ev with EvAdvance _ => True | _ => False end.
Lemma apply_epoch ev c : ~ advances_epoch ev -> CurrentEpoch (coll_apply ev c) = CurrentEpoch c.
Proof.
  destruct ev as [msg|msg|e|a f reason required|a|a|a f|authority req|w]; cbn [advances_epoch coll_apply]; intros Hev; [| |by destruct Hev|..|done].
  - apply keeps_epoch, keeps_cached; [exact _|]. unfold DepositCollateral, SetCollateral. repeat (apply epoch_on_bank || keeps_step).
  - apply keeps_epoch, keeps_cached; [exact _|]. unfold WithdrawCollateral, AddUnbondingCollateral, setUnbondingCollateralEntry, SetCollateral, RemoveCollateral. repeat keeps_step.
  - apply keeps_epoch, epoch_slash.
  - done.
  - unfold AfterValidatorBeginUnbonding, bind, get. by destruct (IsParticipantInActiveMaintenance _ _).
  - apply keeps_epoch. unfold BeforeValidatorSlashed. repeat (apply epoch_slash || keeps_step).
  - apply keeps_epoch, keeps_cached; [exact _|]. unfold UpdateParams. repeat keeps_step.
Qed.
Lemma trace_epoch evs c c' : coll_trace evs c c' -> Forall (fun ev => ~ advances_epoch ev) evs -> CurrentEpoch c' = CurrentEpoch c.
Proof. intros Htr. induction Htr as [c|ev evs c c' _ _ IH]; [done|]. intros [Hev Hevs]%Forall_cons. rewrite IH by done. by apply apply_epoch. Qed.

Lemma withdraw_needs_epoch msg c c2 e : CurrentEpoch c = None -> WithdrawCollateral msg c <> (c2, Ok e).
Proof.
  intros Hc Hrun. assert (wp (WithdrawCollateral msg) (ok_or False (fun _ _ => False)) c) as Hnone; [|unfold wp in Hnone; by rewrite Hrun in Hnone].
  unfold WithdrawCollateral. wp_step. wp_step; [|cbn; tauto]. wp_step. wp_step; [|cbn; tauto].
  wp_step. apply wp_reads. wp_step. wp_step; [|cbn; tauto]. wp_step. apply wp_from; [|cbn; tauto]. intros less _. cbv beta iota.
  wp_step. wp_step; [|cbn; tauto]. wp_step. apply wp_reads. rewrite Hc. wp_step. wp_step; [discriminate|cbn; tauto].
Qed.

(** C37: Importing an exported state restores all collateral, the unbonding queue, the
    jailed participants and the parameters, but neither the current epoch nor the record
    of slashes.  So after an import every withdrawal is refused, whatever messages, calls
    of other modules and staking hooks come in between, until [AdvanceEpoch] reports a
    completed epoch. *)
Theorem genesis_roundtrip c gs w : coll_ok c -> ExportGenesis c = Some gs ->
  exists c', InitGenesis gs (empty_store w) = (c', Ok tt) /\
    c' = MkCollateral (CollateralMap c) (UnbondingIM c) None (Jailed c) ∅ (coll_params c) w /\
    forall evs c'' msg c2 e, coll_trace evs c' c'' -> Forall (fun ev => ~ advances_epoch ev) evs -> WithdrawCollateral msg c'' <> (c2, Ok e).
Proof.
  intros Hok Hex. eexists. split; [exact (init_export c gs w Hok Hex)|]. split; [done|]. intros evs c'' msg c2 e Htr Hevs.
  apply withdraw_needs_epoch. by rewrite (trace_epoch _ _ _ Htr Hevs).
Qed.
End Trace.
