(* ===== verification/ChainStatus.v ===== *)
(** * The status of a participant

    Saving a participant recomputes its status from its statistics:
    inference-chain/x/inference/keeper/participant_status.go and participant.go over
    calculations/status.go and calculations/sprt.go, a sequential probability ratio test.
    This is the implementation behind the class [ParticipantStatusKeeper] that the
    escrow handlers use, and [status_keeper_laws] discharges what they rely on.

    The decimal numbers are those of github.com/shopspring/decimal (class [DecimalLib],
    with its documented arithmetic in [DecimalLaws]); slashing and the epoch groups are
    other parts of the chain (class [StatusEnv]).  A transition to a bad status has its
    consequences exactly once, and the test decides as if the outcomes had been fed to
    it one by one. *)

From Stdlib Require Import QArith.
From stdpp Require Import pretty.
From S2P Require Import Prelude.
From S2P Require Import GoStd.
From S2P Require Import ChainSettlement.
From S2P Require Import ChainStore.
From S2P Require Import ChainDecimal.
From S2P Require Import ChainState.
Open Scope Z_scope.
Open Scope go_scope.

(* ------------------------------------------------------------------ *)
(** ** The sequential test *)

Section Test.
Context `{!DecimalLib}.

(** [type Decision int] *)
Inductive Decision_ := Undetermined | Pass | Fail_ | Error.

(** [type SPRT struct] *)
Record SPRT := MkSPRT { sp_H : dec; sp_LLR : dec; sp_logFail : dec; sp_logPass : dec }.
Definition sp_set_LLR (l : dec) (s : SPRT) : SPRT := MkSPRT (sp_H s) l (sp_logFail s) (sp_logPass s).

(** [func (s SPRT) UpdateCounts(failures, passes int64) SPRT] *)
Definition UpdateCounts (failures passes : Z) (s : SPRT) : SPRT :=
  if (failures <=? 0) && (passes <=? 0) then s
  else
    let s1 := if negb (failures =? 0)
              then sp_set_LLR (dec_Add (sp_LLR s) (dec_Mul (sp_logFail s) (NewFromInt failures))) s else s in
    if negb (passes =? 0)
    then sp_set_LLR (dec_Add (sp_LLR s1) (dec_Mul (sp_logPass s1) (NewFromInt passes))) s1 else s1.

(** [func (s SPRT) UpdateOne(measurementFailed bool) SPRT] *)
Definition UpdateOne (measurementFailed : bool) (s : SPRT) : SPRT :=
  sp_set_LLR (dec_Add (sp_LLR s) (if measurementFailed then sp_logFail s else sp_logPass s)) s.

(** [func (s SPRT) Decision() Decision] *)
Definition Decision (s : SPRT) : Decision_ :=
  if dec_GreaterThanOrEqual (sp_LLR s) (sp_H s) then Fail_
  else if dec_LessThanOrEqual (sp_LLR s) (dec_Neg (sp_H s)) then Pass
  else Undetermined.

(* ------------------------------------------------------------------ *)
(** ** The status *)

(** The fields of [types.ValidationParams], [types.ConfirmationPoCParams] and
    [types.SPRTPrecomputedValues] that the status depends on. *)
Record ValidationParams := MkValidationParams {
  vp_FalsePositiveRate : option Decimal; vp_QuickFailureThreshold : option Decimal;
  vp_BadParticipantInvalidationRate : option Decimal; vp_InvalidationHThreshold : option Decimal;
  vp_DowntimeGoodPercentage : option Decimal; vp_DowntimeBadPercentage : option Decimal;
  vp_DowntimeHThreshold : option Decimal; vp_DowntimeReputationPreserve : option Decimal;
  vp_InvalidReputationPreserve : option Decimal }.
Record ConfirmationPoCParams := MkConfirmationParams { cf_AlphaThreshold : option Decimal }.
Record SPRTPrecomputedValues := MkPrecomputed {
  pv_InvalidationLogFail : option Decimal; pv_InvalidationLogPass : option Decimal;
  pv_InactiveLogFail : option Decimal; pv_InactiveLogPass : option Decimal }.

(** [type ParticipantStatusReason string] *)
Inductive ParticipantStatusReason :=
| ConsecutiveFailures | StatisticalInvalidations | NoReason | AlgorithmError | AlreadySet | Downtime | FailedConfirmationPoC.
Definition reason_string (r : ParticipantStatusReason) : string :=
  match r with
  | ConsecutiveFailures => "consecutive_failures" | StatisticalInvalidations => "statistical_invalidations"
  | NoReason => "" | AlgorithmError => "algorithm_error" | AlreadySet => "already_set"
  | Downtime => "downtime" | FailedConfirmationPoC => "failed_confirmation_poc"
  end.

(** [func StatsHaveChanged(oldStats, newStats *types.CurrentEpochStats) bool].  The last
    comparison is of two pointers; the old statistics were just decoded from the store,
    so the pointers are equal only when both are nil. *)
Definition StatsHaveChanged (oldStats newStats : option CurrentEpochStats) : bool :=
  match oldStats, newStats with
  | Some o, Some n =>
      negb (ce_InvalidatedInferences o =? ce_InvalidatedInferences n) ||
      negb (ce_ValidatedInferences o =? ce_ValidatedInferences n) ||
      negb (ce_InferenceCount o =? ce_InferenceCount n) ||
      negb (ce_MissedRequests o =? ce_MissedRequests n) ||
      match ce_ConfirmationPoCRatio o, ce_ConfirmationPoCRatio n with None, None => false | _, _ => true end
  | _, _ => true
  end.

Definition EmptyEpochStats : CurrentEpochStats := MkEpochStats 0 0 0 0 0 0 0 None None None.

(** [func getStats(newValue *types.Participant) types.CurrentEpochStats] *)
Definition getStats (newValue : Participant) : CurrentEpochStats :=
  let s := default EmptyEpochStats (pp_CurrentEpochStats newValue) in
  MkEpochStats (ce_InferenceCount s) (ce_MissedRequests s) (ce_EarnedCoins s) (ce_RewardedCoins s) (ce_BurnedCoins s)
    (ce_ValidatedInferences s) (ce_InvalidatedInferences s)
    (Some (default (MkDecimal 0 0) (ce_InvalidLLR s))) (Some (default (MkDecimal 0 0) (ce_InactiveLLR s)))
    (ce_ConfirmationPoCRatio s).

(** [func probabilityOfConsecutiveFailures(expectedFailureRate decimal.Decimal, consecutiveFailures int64) decimal.Decimal] *)
Definition probabilityOfConsecutiveFailures (expectedFailureRate : dec) (consecutiveFailures : Z) : dec :=
  if dec_LessThan expectedFailureRate (NewFromInt 0) || dec_GreaterThan expectedFailureRate (NewFromInt 1) then NewFromInt 0
  else if consecutiveFailures <? 0 then NewFromInt 0
  else dec_Pow expectedFailureRate (NewFromInt consecutiveFailures).

Definition ce_set_InvalidLLR (d : Decimal) (s : CurrentEpochStats) : CurrentEpochStats :=
  MkEpochStats (ce_InferenceCount s) (ce_MissedRequests s) (ce_EarnedCoins s) (ce_RewardedCoins s) (ce_BurnedCoins s)
    (ce_ValidatedInferences s) (ce_InvalidatedInferences s) (Some d) (ce_InactiveLLR s) (ce_ConfirmationPoCRatio s).
Definition ce_set_InactiveLLR (d : Decimal) (s : CurrentEpochStats) : CurrentEpochStats :=
  MkEpochStats (ce_InferenceCount s) (ce_MissedRequests s) (ce_EarnedCoins s) (ce_RewardedCoins s) (ce_BurnedCoins s)
    (ce_ValidatedInferences s) (ce_InvalidatedInferences s) (ce_InvalidLLR s) (Some d) (ce_ConfirmationPoCRatio s).

(** [func getInactiveStatus(newStats *types.CurrentEpochStats, oldStats, parameters, precomputed) Decision]:
    the statistics as updated and the decision. *)
Definition getInactiveStatus (newStats oldStats : CurrentEpochStats) (parameters : ValidationParams)
    (precomputed : SPRTPrecomputedValues) : CurrentEpochStats * Decision_ :=
  match vp_DowntimeGoodPercentage parameters, vp_DowntimeBadPercentage parameters, vp_DowntimeHThreshold parameters,
        pv_InactiveLogFail precomputed, pv_InactiveLogPass precomputed with
  | Some _, Some _, Some h, Some lf, Some lp =>
      let newInferences := i64 (i64 (ce_InferenceCount newStats) - i64 (ce_InferenceCount oldStats)) in
      let newMissedInferences := i64 (i64 (ce_MissedRequests newStats) - i64 (ce_MissedRequests oldStats)) in
      let sprt := UpdateCounts newMissedInferences newInferences
                    (MkSPRT (ToDecimal h) (ToDecimal (default (MkDecimal 0 0) (ce_InactiveLLR newStats))) (ToDecimal lf) (ToDecimal lp)) in
      (ce_set_InactiveLLR (DecimalFromDecimal (sp_LLR sprt)) newStats, Decision sprt)
  | _, _, _, _, _ => (newStats, Error)
  end.

(** [func getInvalidationStatus(newStats *types.CurrentEpochStats, oldStats, parameters, precomputed) Decision] *)
Definition getInvalidationStatus (newStats oldStats : CurrentEpochStats) (parameters : ValidationParams)
    (precomputed : SPRTPrecomputedValues) : CurrentEpochStats * Decision_ :=
  match vp_FalsePositiveRate parameters, vp_BadParticipantInvalidationRate parameters, vp_InvalidationHThreshold parameters,
        pv_InvalidationLogFail precomputed, pv_InvalidationLogPass precomputed with
  | Some _, Some _, Some h, Some lf, Some lp =>
      let newValidations := i64 (i64 (ce_ValidatedInferences newStats) - i64 (ce_ValidatedInferences oldStats)) in
      let newInvalidations := i64 (i64 (ce_InvalidatedInferences newStats) - i64 (ce_InvalidatedInferences oldStats)) in
      let sprt := UpdateCounts newInvalidations newValidations
                    (MkSPRT (ToDecimal h) (ToDecimal (default (MkDecimal 0 0) (ce_InvalidLLR newStats))) (ToDecimal lf) (ToDecimal lp)) in
      (ce_set_InvalidLLR (DecimalFromDecimal (sp_LLR sprt)) newStats, Decision sprt)
  | _, _, _, _, _ => (newStats, Error)
  end.

(** [func getConfirmationPoCStatus(newStats *types.CurrentEpochStats, parameters) Decision] *)
Definition getConfirmationPoCStatus (newStats : CurrentEpochStats) (parameters : option ConfirmationPoCParams) : Decision_ :=
  match p ← parameters; cf_AlphaThreshold p with
  | None => Pass
  | Some alpha =>
      if dec_Equal (ToDecimal alpha) (NewFromInt 0) then Pass
      else match ce_ConfirmationPoCRatio newStats with
           | None => Pass
           | Some ratio => if dec_LessThan (ToDecimal ratio) (ToDecimal alpha) then Fail_ else Pass
           end
  end.

(** [func ComputeStatus(validationParameters, confirmationPocParams, newValue, oldStats, precomputed) (status, reason, stats)] *)
Definition ComputeStatus (validationParameters : option ValidationParams) (confirmationPocParams : option ConfirmationPoCParams)
    (newValue : Participant) (oldStats : CurrentEpochStats) (precomputed : SPRTPrecomputedValues)
  : ParticipantStatus * ParticipantStatusReason * CurrentEpochStats :=
  let newStats := getStats newValue in
  match vp ← validationParameters; fpr ← vp_FalsePositiveRate vp; cutoff ← vp_QuickFailureThreshold vp; Some (vp, fpr, cutoff) with
  | None => (Participant_ACTIVE, NoReason, newStats)
  | Some (vp, fpr, cutoff) =>
      if bool_decide (pp_Status newValue = Participant_INVALID) || bool_decide (pp_Status newValue = Participant_INACTIVE)
      then (pp_Status newValue, AlreadySet, newStats)
      else if dec_LessThan (probabilityOfConsecutiveFailures (ToDecimal fpr) (pp_ConsecutiveInvalidInferences newValue)) (ToDecimal cutoff)
      then (Participant_INVALID, ConsecutiveFailures, newStats)
      else
        let '(newStats, invalidationDecision) := getInvalidationStatus newStats oldStats vp precomputed in
        match invalidationDecision with
        | Fail_ => (Participant_INVALID, StatisticalInvalidations, newStats)
        | Error => (Participant_ACTIVE, AlgorithmError, newStats)
        | _ =>
            let '(newStats, inactiveDecision) := getInactiveStatus newStats oldStats vp precomputed in
            match inactiveDecision with
            | Fail_ => (Participant_INACTIVE, Downtime, newStats)
            | Error => (Participant_ACTIVE, AlgorithmError, newStats)
            | _ =>
                match getConfirmationPoCStatus newStats confirmationPocParams with
                | Fail_ => (Participant_INACTIVE, FailedConfirmationPoC, newStats)
                | Error => (Participant_ACTIVE, AlgorithmError, newStats)
                | _ => (Participant_ACTIVE, NoReason, newStats)
                end
            end
        end
  end.

(** [int32(x)] *)
Definition i32 (z : Z) : Z := (z + 2 ^ 31) mod 2 ^ 32 - 2 ^ 31.

(** [func multiply(completed uint32, preserve *types.Decimal) uint32] *)
Definition multiply (completed : Z) (preserve : option Decimal) : Z :=
  match preserve with
  | None => completed
  | Some d =>
      let pd := ToDecimal d in
      if dec_LessThan pd (NewFromInt 0) || dec_GreaterThan pd (NewFromInt 1) then completed
      else u32 (dec_RoundInt (dec_Mul (NewFromInt (i32 completed)) pd))
  end.

End Test.

(* ------------------------------------------------------------------ *)
(** ** The keeper *)

(** The other parts of the chain: the parameters, the values that are computed once per
    block and the removal from the current epoch group, which moves no coins of the
    module and of the accounts. *)
Class StatusEnv (W : Type) := {
  ValidationParamsOf : W -> option ValidationParams;
  ConfirmationPoCParamsOf : W -> option ConfirmationPoCParams;
  GetPrecomputedSPRTValues : W -> SPRTPrecomputedValues;
  BlockHeight : W -> Z;
  removeFromEpochGroups : Participant -> W -> W * outcome string unit
}.
Class StatusEnvLaws (W : Type) `{ChainEnv W} `{!StatusEnv W} := {
  remove_frame : forall p w w' r, removeFromEpochGroups p w = (w', r) -> ModuleBalance w' = ModuleBalance w /\
    forall b, AccountBalance w' b = AccountBalance w b
}.

(** The slashing of collateral, whose failures are only logged.  Slashed collateral goes
    from the account of the collateral module to that of governance, and no other coins
    move; [ChainCollateral.v] implements it. *)
Class CollateralSlashing (W : Type) := {
  SlashForInvalidStatus : Participant -> Chain W -> W;
  SlashForDowntime : Participant -> Chain W -> W
}.
Class CollateralSlashingLaws (W : Type) `{ChainEnv W} `{!CollateralSlashing W} := {
  slash_invalid_frame : forall p c, only_slashed (ch_World c) (SlashForInvalidStatus p c);
  slash_downtime_frame : forall p c, only_slashed (ch_World c) (SlashForDowntime p c)
}.

Section Keeper.
Context {W : Type} `{!AccAddressCodec} `{!DecimalLib} `{!StatusEnv W} `{!CollateralSlashing W}.
Abbreviation CS := (Chain W).
Abbreviation K := (GoM (Chain W) string).

Definition pp_set_status (st : ParticipantStatus) (p : Participant) : Participant :=
  MkParticipant (pp_Index p) (pp_Address p) (pp_Weight p) (pp_JoinTime p) (pp_JoinHeight p)
    (pp_LastInferenceTime p) (pp_InferenceUrl p) st (pp_CoinBalance p) (pp_ValidatorKey p)
    (pp_ConsecutiveInvalidInferences p) (pp_WorkerPublicKey p) (pp_EpochsCompleted p) (pp_CurrentEpochStats p).
Definition pp_set_failures (n : Z) (p : Participant) : Participant :=
  MkParticipant (pp_Index p) (pp_Address p) (pp_Weight p) (pp_JoinTime p) (pp_JoinHeight p)
    (pp_LastInferenceTime p) (pp_InferenceUrl p) (pp_Status p) (pp_CoinBalance p) (pp_ValidatorKey p)
    n (pp_WorkerPublicKey p) (pp_EpochsCompleted p) (pp_CurrentEpochStats p).
Definition pp_set_epochs (n : Z) (p : Participant) : Participant :=
  MkParticipant (pp_Index p) (pp_Address p) (pp_Weight p) (pp_JoinTime p) (pp_JoinHeight p)
    (pp_LastInferenceTime p) (pp_InferenceUrl p) (pp_Status p) (pp_CoinBalance p) (pp_ValidatorKey p)
    (pp_ConsecutiveInvalidInferences p) (pp_WorkerPublicKey p) n (pp_CurrentEpochStats p).

(** [func (k Keeper) recordExclusion(ctx, participant, reason)] *)
Definition recordExclusion (p : Participant) (reason : ParticipantStatusReason) (c : CS) : CS :=
  match EffectiveEpochIndex c, AccAddressFromBech32 (pp_Address p) with
  | Some epochIndex, Some addr =>
      set_Excluded (<[(epochIndex, addr) :=
        MkExcluded (pp_Address p) epochIndex (reason_string reason) (u64 (BlockHeight (ch_World c)))]> (ExcludedParticipantsMap c)) c
  | _, _ => c
  end.

(** [func (k Keeper) invalidateParticipant(ctx, participant, reason, params) error] and
    [deactiveParticipant]: the participant as updated. *)
Definition punish (slash : Participant -> CS -> W) (preserve : option Decimal) (p : Participant)
    (reason : ParticipantStatusReason) : K Participant :=
  run* modify (fun c => set_World (slash p c) c) in
  run* modify (recordExclusion p reason) in
  let p' := pp_set_epochs (multiply (pp_EpochsCompleted p) preserve) p in
  run* on_world (removeFromEpochGroups p') in
  ret p'.
Definition invalidateParticipant (p : Participant) (reason : ParticipantStatusReason) (vp : option ValidationParams) : K Participant :=
  punish SlashForInvalidStatus (v ← vp; vp_InvalidReputationPreserve v) p reason.
Definition deactiveParticipant (p : Participant) (reason : ParticipantStatusReason) (vp : option ValidationParams) : K Participant :=
  punish SlashForDowntime (v ← vp; vp_DowntimeReputationPreserve v) p reason.

Definition nil_dereference : string := "panic: nil pointer dereference".

(** [func (k Keeper) UpdateParticipantStatus(ctx, participant *types.Participant) error] *)
Definition Keeper_UpdateParticipantStatus (participant0 : Participant) : K Participant :=
  let participant := pp_set_stats (default EmptyEpochStats (pp_CurrentEpochStats participant0)) participant0 in
  let* found := reads (fun c => GetParticipant c (pp_Address participant)) in
  let unchanged := match found with
                   | Some old => negb (StatsHaveChanged (pp_CurrentEpochStats old) (pp_CurrentEpochStats participant))
                   | None => false
                   end in
  if unchanged then ret participant
  else
    let oldParticipant := default participant found in
    let* params := reads ch_Params in
    run* check (bool_decide (is_Some params)) "failed to get params" in
    let* w := reads ch_World in
    let* oldStats := lift_option (pp_CurrentEpochStats oldParticipant) nil_dereference in
    let originalStatus := pp_Status participant in
    let '(newStatus, reason, newStats) :=
      ComputeStatus (ValidationParamsOf w) (ConfirmationPoCParamsOf w) participant oldStats (GetPrecomputedSPRTValues w) in
    let p1 := pp_set_stats newStats participant in
    let p2 := match reason with ConsecutiveFailures => pp_set_failures 0 p1 | _ => p1 end in
    if bool_decide (originalStatus = newStatus) then ret p2
    else
      let p3 := pp_set_status newStatus p2 in
      if bool_decide (newStatus = Participant_INVALID) then invalidateParticipant p3 reason (ValidationParamsOf w)
      else if bool_decide (newStatus = Participant_INACTIVE) then deactiveParticipant p3 reason (ValidationParamsOf w)
      else ret p3.

End Keeper.

(* ------------------------------------------------------------------ *)
(** ** The interface *)

Section Interface.
Context {W : Type} `{!AccAddressCodec} `{!ChainEnv W} `{!DecimalLib} `{!StatusEnv W} `{!CollateralSlashing W}.
Abbreviation CS := (Chain W).
Implicit Types (c : CS) (p : Participant).

#[export] Instance status_keeper : ParticipantStatusKeeper W := {| UpdateParticipantStatus := Keeper_UpdateParticipantStatus |}.

(** What a transition to a bad status brings: the slashing, the entry of the current
    epoch's exclusions, the reduced reputation and the removal from the epoch group, in
    this order. *)
Definition consequence (slash : Participant -> CS -> W) c p' c' : Prop :=
  exists q reason w', pp_Address q = pp_Address p' /\ pp_Status q = pp_Status p' /\
    removeFromEpochGroups p' (ch_World (recordExclusion q reason (set_World (slash q c) c))) = (w', Ok tt) /\
    c' = set_World w' (recordExclusion q reason (set_World (slash q c) c)).

(** The same participant as far as identity and money go. *)
Definition same_person p p' : Prop :=
  pp_Index p' = pp_Index p /\ pp_Address p' = pp_Address p /\ pp_CoinBalance p' = pp_CoinBalance p.

Definition has_stats p : Prop := is_Some (pp_CurrentEpochStats p).

Lemma punish_run slash preserve p reason c c' p' :
  punish slash preserve p reason c = (c', Ok p') ->
  same_person p p' /\ pp_CurrentEpochStats p' = pp_CurrentEpochStats p /\ pp_Status p' = pp_Status p /\ consequence slash c p' c'.
Proof.
  unfold punish, bind, modify, on_world. cbn.
  destruct (removeFromEpochGroups _ _) as [w' [[]|e]] eqn:Hr; [|done]. intros [= <- <-].
  split; [done|]. split; [done|]. split; [done|]. exists p, reason, w'. done.
Qed.

(** What an update comes to. *)
Lemma update_run p c c' p' :
  Keeper_UpdateParticipantStatus p c = (c', Ok p') ->
  same_person p p' /\ has_stats p' /\
  ((c' = c /\ (pp_Status p' = pp_Status p \/ (pp_Status p' <> Participant_INVALID /\ pp_Status p' <> Participant_INACTIVE))) \/
   (pp_Status p' <> pp_Status p /\ pp_Status p' = Participant_INVALID /\ consequence SlashForInvalidStatus c p' c') \/
   (pp_Status p' <> pp_Status p /\ pp_Status p' = Participant_INACTIVE /\ consequence SlashForDowntime c p' c')).
Proof.
  unfold Keeper_UpdateParticipantStatus. rewrite (bind_run _ _ _ c _ eq_refl).
  set (q := pp_set_stats _ p). destruct (match GetParticipant c (pp_Address q) with Some _ => _ | None => false end).
  { intros [= <- <-]. split; [done|]. split; [by eexists|]. left. split; [done|]. by left. }
  rewrite (bind_run _ _ _ c _ eq_refl). intros (c1 & [] & Hchk & Hrun)%bind_Ok. assert (c1 = c) as ->.
  { unfold check in Hchk. by destruct (bool_decide _) in Hchk; injection Hchk as <-. }
  rewrite (bind_run _ _ _ c _ eq_refl) in Hrun. apply bind_Ok in Hrun as (c1 & oldStats & Hold & Hrun).
  assert (c1 = c) as -> by (unfold lift_option in Hold; by destruct (pp_CurrentEpochStats _) in Hold; injection Hold as <-).
  clear Hold Hchk. destruct (ComputeStatus _ _ _ _ _) as [[newStatus reason] newStats].
  set (p2 := match reason with ConsecutiveFailures => _ | _ => _ end) in Hrun.
  assert (same_person p p2 /\ has_stats p2) as [Hp2 Hs2] by (split; [|exists newStats]; unfold p2; by destruct reason).
  change (pp_Status q) with (pp_Status p) in Hrun. destruct (bool_decide_reflect (pp_Status p = newStatus)) as [Heq|Hne].
  { injection Hrun as <- <-. split; [done|]. split; [done|]. left. split; [done|]. left. unfold p2. by destruct reason. }
  destruct (bool_decide_reflect (newStatus = Participant_INVALID)) as [Hi|Hni].
  { apply punish_run in Hrun as (Hsp & Hcs & Hst & Hc). change (same_person p2 p') in Hsp. cbn in Hst.
    destruct Hp2 as (? & ? & ?), Hsp as (? & ? & ?). split; [repeat split; congruence|].
    split; [unfold has_stats in *; by rewrite Hcs|]. right. left. split; [congruence|]. split; [congruence|done]. }
  destruct (bool_decide_reflect (newStatus = Participant_INACTIVE)) as [Hi|Hni'].
  { apply punish_run in Hrun as (Hsp & Hcs & Hst & Hc). change (same_person p2 p') in Hsp. cbn in Hst.
    destruct Hp2 as (? & ? & ?), Hsp as (? & ? & ?). split; [repeat split; congruence|].
    split; [unfold has_stats in *; by rewrite Hcs|]. right. right. split; [congruence|]. split; [congruence|done]. }
  injection Hrun as <- <-. split; [done|]. split; [done|]. left. split; [done|]. right. done.
Qed.

Lemma consequence_frame `{!StatusEnvLaws W} slash c p' c' :
  (forall p c, only_slashed (ch_World c) (slash p c)) -> consequence slash c p' c' ->
  exists x w, c' = set_World w (set_Excluded x c) /\ only_slashed (ch_World c) w.
Proof.
  intros Hs (q & reason & w' & _ & _ & Hr & ->). apply remove_frame in Hr as [Hm Hb].
  destruct (Hs q c) as (n & Hn & Hsm & Hsb).
  assert (forall c1, ch_World (recordExclusion q reason c1) = ch_World c1) as Hw.
  { intros c1. unfold recordExclusion. by destruct (EffectiveEpochIndex c1), (AccAddressFromBech32 (pp_Address q)). }
  rewrite Hw in Hm, Hb. cbn in Hm, Hb. unfold recordExclusion.
  destruct (EffectiveEpochIndex _), (AccAddressFromBech32 (pp_Address q));
    first [eexists _, w'; split; [reflexivity|] | exists (ExcludedParticipantsMap c), w'; split; [reflexivity|]];
    (exists n; split; [done|]; split; [congruence|]; intros b; by rewrite Hb, Hsb).
Qed.

(** The promise to the escrow handlers is kept. *)
#[export] Instance status_keeper_laws `{!StatusEnvLaws W} `{!CollateralSlashingLaws W} : ParticipantStatusLaws W.
Proof.
  split. intros p c c' p' Hrun. cbn in Hrun. apply update_run in Hrun as ((Hi & Ha & Hb) & Hs & Hcase). do 4 (split; [done|]).
  destruct Hcase as [[-> _]|[(_ & _ & Hc)|(_ & _ & Hc)]].
  - exists (ExcludedParticipantsMap c), (ch_World c). by split; [destruct c|].
  - eapply consequence_frame; [apply slash_invalid_frame|done].
  - eapply consequence_frame; [apply slash_downtime_frame|done].
Qed.

(** Saving cannot fail while members can be removed from their epoch group. *)
Lemma update_total p c :
  (forall q w, exists w', removeFromEpochGroups q w = (w', Ok tt)) -> is_Some (ch_Params c) ->
  (forall a q, Participants c !! a = Some q -> has_stats q) ->
  exists c' p', UpdateParticipantStatus p c = (c', Ok p').
Proof.
  intros Hrem Hpar Hst. change (exists c' p', Keeper_UpdateParticipantStatus p c = (c', Ok p')).
  unfold Keeper_UpdateParticipantStatus. rewrite (bind_run _ _ _ c _ eq_refl).
  set (q := pp_set_stats _ p). destruct (match GetParticipant c (pp_Address q) with Some _ => _ | None => false end); [by eexists _, _|].
  rewrite (bind_run _ _ _ c _ eq_refl), (bind_run _ _ _ c tt) by (by rewrite bool_decide_eq_true_2).
  rewrite (bind_run _ _ _ c _ eq_refl).
  assert (is_Some (pp_CurrentEpochStats (default q (GetParticipant c (pp_Address q))))) as [old Hold].
  { destruct (GetParticipant c (pp_Address q)) as [r|] eqn:Hg; [|by eexists]. unfold GetParticipant in Hg.
    destruct (AccAddressFromBech32 _) as [a|]; [|done]. by apply (Hst a). }
  rewrite (bind_run _ _ _ c old) by (by rewrite Hold). destruct (ComputeStatus _ _ _ _ _) as [[newStatus reason] newStats].
  assert (forall slash pr r re, exists c' p', punish slash pr r re c = (c', Ok p')) as Hpun.
  { intros slash pr r re. unfold punish, bind, modify, on_world. cbn.
    match goal with |- context [removeFromEpochGroups ?x ?w] => destruct (Hrem x w) as [w' ->] end. by eexists _, _. }
  destruct (bool_decide _); [by eexists _, _|]. destruct (bool_decide _); [apply Hpun|]. destruct (bool_decide _); [apply Hpun|by eexists _, _].
Qed.

End Interface.

(* ------------------------------------------------------------------ *)
(** ** Properties *)

Section Properties.
Context {W : Type} `{!AccAddressCodec} `{!ChainEnv W} `{!DecimalLib} `{!StatusEnv W} `{!CollateralSlashing W}.
Abbreviation CS := (Chain W).
Implicit Types (c : CS) (p : Participant).

(** The parameters without which every participant is active. *)
Definition regulated (w : W) : Prop :=
  exists vp, ValidationParamsOf w = Some vp /\ is_Some (vp_FalsePositiveRate vp) /\ is_Some (vp_QuickFailureThreshold vp).

Definition bad_status (st : ParticipantStatus) : Prop := st = Participant_INVALID \/ st = Participant_INACTIVE.

Lemma ComputeStatus_sticky w p old pre cp :
  regulated w -> bad_status (pp_Status p) ->
  exists stats, ComputeStatus (ValidationParamsOf w) cp p old pre = (pp_Status p, AlreadySet, stats).
Proof.
  intros (vp & -> & [f Hf] & [q Hq]) Hb. unfold ComputeStatus. cbn. rewrite Hf. cbn. rewrite Hq. cbn.
  destruct Hb as [-> | ->]; cbn; eauto.
Qed.

Lemma update_sticky p c c' p' :
  regulated (ch_World c) -> bad_status (pp_Status p) -> Keeper_UpdateParticipantStatus p c = (c', Ok p') ->
  pp_Status p' = pp_Status p.
Proof.
  intros Hreg Hb. unfold Keeper_UpdateParticipantStatus. rewrite (bind_run _ _ _ c _ eq_refl).
  set (q := pp_set_stats _ p). destruct (match GetParticipant c (pp_Address q) with Some _ => _ | None => false end).
  { by intros [= <- <-]. }
  rewrite (bind_run _ _ _ c _ eq_refl). intros (c1 & [] & Hchk & Hrun)%bind_Ok. assert (c1 = c) as ->.
  { unfold check in Hchk. by destruct (bool_decide _) in Hchk; injection Hchk as <-. }
  rewrite (bind_run _ _ _ c _ eq_refl) in Hrun. apply bind_Ok in Hrun as (c1 & oldStats & Hold & Hrun).
  destruct (ComputeStatus_sticky (ch_World c) q oldStats (GetPrecomputedSPRTValues (ch_World c)) (ConfirmationPoCParamsOf (ch_World c)) Hreg Hb)
    as [stats Hcs]. rewrite Hcs in Hrun. rewrite bool_decide_eq_true_2 in Hrun by done. by injection Hrun as <- <-.
Qed.

(** A bad status has its consequences exactly once.  Saving a participant never
    changes its identity or coin balance; it is slashed, excluded from the epoch and
    removed from the epoch group exactly when its status becomes INVALID or INACTIVE,
    and nothing else of the chain changes; once its status is bad, saving it again
    leaves the status and the chain alone. *)
Theorem status_consequences_once p c c' p' :
  UpdateParticipantStatus p c = (c', Ok p') ->
  same_person p p' /\
  (pp_Status p' <> pp_Status p -> pp_Status p' = Participant_INVALID -> consequence SlashForInvalidStatus c p' c') /\
  (pp_Status p' <> pp_Status p -> pp_Status p' = Participant_INACTIVE -> consequence SlashForDowntime c p' c') /\
  (pp_Status p' = pp_Status p \/ ~ bad_status (pp_Status p') -> c' = c) /\
  (regulated (ch_World c) -> bad_status (pp_Status p) -> pp_Status p' = pp_Status p /\ c' = c).
Proof.
  intros Hrun. cbn in Hrun. pose proof (update_run _ _ _ _ Hrun) as (Hsame & _ & Hcase). split; [done|].
  assert (pp_Status p' = pp_Status p \/ ~ bad_status (pp_Status p') -> c' = c) as Hquiet.
  { unfold bad_status. destruct Hcase as [[-> _]|[(? & ? & _)|(? & ? & _)]]; [done|tauto..]. }
  unfold bad_status in *. split; [|split; [|split; [done|]]].
  - intros Hne Hi. destruct Hcase as [(_ & [?|[? _]])|[(_ & _ & ?)|(_ & Hj & _)]]; [done..|congruence].
  - intros Hne Hi. destruct Hcase as [(_ & [?|[_ ?]])|[(_ & Hj & _)|(_ & _ & ?)]]; [done..|congruence|done].
  - intros Hreg Hb. pose proof (update_sticky _ _ _ _ Hreg Hb Hrun) as Hst. split; [done|]. apply Hquiet. by left.
Qed.

End Properties.

Section Test.
Context `{!DecimalLib} `{!DecimalLaws}.

Definition llr (s : SPRT) : Q := dec_val (sp_LLR s).

Lemma NewFromInt_val n : (dec_val (NewFromInt n) == inject_Z n)%Q.
Proof. unfold NewFromInt. rewrite dec_val_New. cbn. ring. Qed.

(** The value after a batch. *)
Lemma UpdateCounts_val f p s :
  0 <= f -> 0 <= p ->
  (llr (UpdateCounts f p s) == llr s + inject_Z f * dec_val (sp_logFail s) + inject_Z p * dec_val (sp_logPass s))%Q.
Proof.
  intros Hf Hp. unfold UpdateCounts, llr. destruct (Z.leb_spec f 0), (Z.leb_spec p 0); cbn [andb].
  - assert (f = 0) as -> by lia. assert (p = 0) as -> by lia. cbn. ring.
  - assert (f = 0) as -> by lia. cbn [Z.eqb negb]. replace (p =? 0) with false by lia. cbn [negb sp_LLR sp_set_LLR].
    rewrite dec_val_Add, dec_val_Mul, NewFromInt_val. cbn. ring.
  - assert (p = 0) as -> by lia. replace (f =? 0) with false by lia. cbn [Z.eqb negb sp_LLR sp_set_LLR].
    rewrite dec_val_Add, dec_val_Mul, NewFromInt_val. cbn. ring.
  - replace (f =? 0) with false by lia. replace (p =? 0) with false by lia. cbn [negb sp_LLR sp_set_LLR sp_logPass].
    rewrite !dec_val_Add, !dec_val_Mul, !NewFromInt_val. ring.
Qed.

Lemma UpdateOne_fold outcomes s :
  let s' := fold_left (fun s o => UpdateOne o s) outcomes s in
  (llr s' == llr s + inject_Z (Z.of_nat (length (filter (fun o => o = true) outcomes))) * dec_val (sp_logFail s) +
     inject_Z (Z.of_nat (length (filter (fun o => o = false) outcomes))) * dec_val (sp_logPass s))%Q /\
  sp_H s' = sp_H s.
Proof.
  revert s. induction outcomes as [|o outcomes IH]; intros s; cbn [fold_left]; [split; [cbn; ring|done]|].
  destruct (IH (UpdateOne o s)) as [Hv Hh]. split; [|done]. rewrite Hv. unfold llr, UpdateOne. cbn [sp_LLR sp_set_LLR sp_logFail sp_logPass].
  rewrite dec_val_Add, !filter_cons. destruct o; cbn [decide bool_eq_dec Bool.bool_dec decide_rel].
  - destruct (decide (true = true)); [|done]. destruct (decide (true = false)); [done|]. cbn [length]. rewrite Nat2Z.inj_succ. unfold Z.succ. rewrite inject_Z_plus. ring.
  - destruct (decide (false = true)); [done|]. destruct (decide (false = false)); [|done]. cbn [length]. rewrite Nat2Z.inj_succ. unfold Z.succ. rewrite inject_Z_plus. ring.
Qed.

Lemma Decision_val s s' :
  (llr s == llr s')%Q -> sp_H s = sp_H s' -> Decision s = Decision s'.
Proof.
  intros Hl Hh. unfold Decision, dec_GreaterThanOrEqual, dec_LessThanOrEqual, llr in *. rewrite !dec_Cmp_spec, Hh.
  rewrite (Qcompare_comp _ _ Hl _ _ (Qeq_refl (dec_val (sp_H s')))).
  by rewrite (Qcompare_comp _ _ Hl _ _ (Qeq_refl (dec_val (dec_Neg (sp_H s'))))).
Qed.

(** A batch of outcomes counts like the outcomes one by one.  However failures and
    passes are interleaved, feeding them to the test one at a time gives the same
    likelihood ratio and the same decision as one update with their numbers; and the
    decision is to fail exactly when that ratio has reached the threshold, and to pass
    exactly when it is below and has reached the negated threshold. *)
Theorem sprt_batch_exact outcomes s :
  let failures := Z.of_nat (length (filter (fun o => o = true) outcomes)) in
  let passes := Z.of_nat (length (filter (fun o => o = false) outcomes)) in
  let batch := UpdateCounts failures passes s in
  let single := fold_left (fun s o => UpdateOne o s) outcomes s in
  (llr batch == llr single)%Q /\ Decision batch = Decision single /\
  (Decision batch = Fail_ <-> (dec_val (sp_H s) <= llr batch)%Q) /\
  (Decision batch = Pass <-> (llr batch < dec_val (sp_H s))%Q /\ (llr batch <= - dec_val (sp_H s))%Q).
Proof.
  cbv zeta. set (f := Z.of_nat _). set (p := Z.of_nat _). destruct (UpdateOne_fold outcomes s) as [Hv Hh]. fold f p in Hv.
  assert (llr (UpdateCounts f p s) == llr (fold_left (fun s o => UpdateOne o s) outcomes s))%Q as Hl
    by (rewrite Hv; apply UpdateCounts_val; lia).
  assert (sp_H (UpdateCounts f p s) = sp_H s) as Hhb.
  { unfold UpdateCounts. destruct (_ && _); [done|]. by destruct (negb (f =? 0)), (negb (p =? 0)). }
  split; [done|]. split; [apply Decision_val; congruence|].
  unfold Decision, dec_GreaterThanOrEqual, dec_LessThanOrEqual. rewrite !dec_Cmp_spec, Hhb. fold (llr (UpdateCounts f p s)).
  set (x := llr (UpdateCounts f p s)). set (h := dec_val (sp_H s)).
  assert ((dec_val (dec_Neg (sp_H s)) == - h)%Q) as Hneg by apply dec_val_Neg.
  rewrite (Qcompare_comp _ _ (Qeq_refl x) _ _ Hneg). unfold Qle, Qlt.
  destruct (Qcompare_spec x h) as [E|E|E], (Qcompare_spec x (- h)) as [E'|E'|E']; unfold Qeq, Qlt in *; (split; split; [try done; lia|try done; lia|try done; lia|try done; lia]).
Qed.

End Test.
