(* ===== verification/ChainCollateral.v ===== *)
(** * Collateral as the inference module uses it

    inference-chain/x/inference/keeper/collateral.go: the collateral that a participant's
    weight requires, the slashing for a bad status, and the adjustment of weights by
    collateral at the start of an epoch.

    Here the inference module of [ChainState.v] and the collateral module of
    [Collateral.v] run on one chain: the other modules that the first one sees are the
    store of the second one on top of a world [W].  The slashing that [ChainStatus.v]
    asks for is implemented with [Slash], and its laws are discharged. *)

From Stdlib Require Import QArith Qabs Qround Qminmax Lqa.
From stdpp Require Import sorting.
From S2P Require Import Prelude.
From S2P Require Import GoStd.
From S2P Require Import ChainSettlement.
From S2P Require Import ChainStore.
From S2P Require Import ChainDecimal.
From S2P Require Import ChainState.
From S2P Require Import ChainCoins.
From S2P Require Import Collateral.
From S2P Require Import CollateralSpec.
From S2P Require Import ChainStatus.
Open Scope Z_scope.
Open Scope go_scope.

(* ------------------------------------------------------------------ *)
(** ** Data *)

(** The fields of [types.CollateralParams] that are used.  They are pointers that the
    code dereferences, so they are set. *)
Record CollateralParams := MkCollateralParams {
  cp_SlashFractionInvalid : Decimal; cp_SlashFractionDowntime : Decimal; cp_GracePeriodEndEpoch : Z;
  cp_BaseWeightRatio : Decimal; cp_CollateralPerWeightUnit : Decimal }.

Definition SlashReasonInvalidation : string := "invalidation".
Definition SlashReasonDowntime : string := "downtime".

(** The parameters of the chain and its epochs: [EpochIndexOf] is the index of the epoch
    that is stored under an index. *)
Class CollateralParamsEnv (W : Type) := {
  CollateralParamsOf : W -> option CollateralParams;
  EpochIndexOf : W -> Z -> option Z
}.

Section Keeper.
Context {W : Type} `{!AccAddressCodec} `{!ChainEnv W} `{!CollateralEnv W} `{!CollateralParamsEnv W}.
Context `{!CoinLib} `{!LegacyDecLib} `{!LegacyDecParse}.
Abbreviation CW := (Collateral W).
Abbreviation CS := (Chain (Collateral W)).

(** The world of the inference module, seen through the collateral module. *)
Definition through {A} (f : W -> W * outcome string A) (c : CW) : CW * outcome string A :=
  let '(w, r) := f (coll_World c) in (set_coll_World w c, r).
#[export] Instance collateral_chain_env : ChainEnv CW := {|
  ModuleAccount := ModuleAccount (W := W);
  GovernanceAccount := GovernanceAccount (W := W);
  CollateralAccount := CollateralAccount (W := W);
  ModuleBalance := fun c => ModuleBalance (coll_World c);
  AccountBalance := fun c => AccountBalance (coll_World c);
  SendCoinsFromModuleToAccount := fun a n => through (SendCoinsFromModuleToAccount a n);
  SendCoinsFromAccountToModule := fun a n => through (SendCoinsFromAccountToModule a n);
  AuthzGrants := fun c => AuthzGrants (coll_World c);
  EpochGroupWeights := fun c => EpochGroupWeights (coll_World c);
  AppHashHex := fun c => AppHashHex (coll_World c)
|}.

(** [GetEffectiveEpoch] and [GetLatestEpoch]: the index of the epoch. *)
Definition GetEpoch (c : CS) (epochIndex : Z) : option Z := EpochIndexOf (coll_World (ch_World c)) epochIndex.
Definition GetEffectiveEpoch (c : CS) : option Z := i ← EffectiveEpochIndex c; GetEpoch c i.
Definition GetLatestEpoch (c : CS) : option Z :=
  i ← EffectiveEpochIndex c;
  match GetEpoch c (u64 (i + 1)) with
  | Some upcoming => Some upcoming
  | None => GetEpoch c i
  end.

(** The weight of a member: the first entry with its address. *)
Fixpoint member_weight (addr : string) (l : list (string * Z)) : Z :=
  match l with
  | [] => 0
  | (member, weight) :: rest => if bool_decide (member = addr) then weight else member_weight addr rest
  end.

(** [func (k Keeper) calculateRequiredCollateral(ctx, participantAddress, collateralParams) math.Int] *)
Definition calculateRequiredCollateral (c : CS) (participantAddress : string) (cp : CollateralParams) : Z :=
  match GetEffectiveEpoch c with
  | None => 0
  | Some effectiveEpoch =>
      if effectiveEpoch <=? cp_GracePeriodEndEpoch cp then 0
      else match EpochGroupWeights (ch_World c) effectiveEpoch "" with
      | None => 0
      | Some validationWeights =>
          let participantWeight := member_weight participantAddress validationWeights in
          if participantWeight <=? 0 then 0
          else match ToLegacyDec (cp_BaseWeightRatio cp) with
          | None => 0
          | Some bwr =>
              if ld_IsNegative bwr || ld_GTE bwr LegacyOneDec then 0
              else match ToLegacyDec (cp_CollateralPerWeightUnit cp) with
              | None => 0
              | Some cpwu =>
                  if ld_IsNegative cpwu || ld_IsZero cpwu then 0
                  else ld_TruncateInt (ld_Mul (ld_Mul (LegacyNewDecFromInt participantWeight) (ld_Sub LegacyOneDec bwr)) cpwu)
              end
          end
      end
  end.

(** [func (k Keeper) GetRequiredCollateralForSlash(ctx, participantAddress) math.Int]:
    what the collateral module asks this one for in its staking hook. *)
Definition Keeper_GetRequiredCollateralForSlash (c : CS) (a : AccAddress) : Z :=
  match CollateralParamsOf (coll_World (ch_World c)) with
  | None => 0
  | Some cp => calculateRequiredCollateral c (AccAddress_String a) cp
  end.

(** [SlashForInvalidStatus] and [SlashForDowntime]: the collateral module afterwards; an
    error of [Slash] is logged. *)
Definition slash_for (fraction : CollateralParams -> Decimal) (reason : string) (p : Participant) (c : CS) : CW :=
  match CollateralParamsOf (coll_World (ch_World c)) with
  | None => ch_World c
  | Some cp =>
      match ToLegacyDec (fraction cp), AccAddressFromBech32 (pp_Address p) with
      | Some slashFraction, Some a =>
          (Slash a slashFraction reason (calculateRequiredCollateral c (pp_Address p) cp) (ch_World c)).1
      | _, _ => ch_World c
      end
  end.
#[export] Instance collateral_slashing : CollateralSlashing CW := {|
  SlashForInvalidStatus := slash_for cp_SlashFractionInvalid SlashReasonInvalidation;
  SlashForDowntime := slash_for cp_SlashFractionDowntime SlashReasonDowntime
|}.

(** [LegacyDec.TruncateInt64], which panics when the number does not fit. *)
Definition ld_TruncateInt64 (x : LegacyDec) : outcome string Z :=
  let n := ld_TruncateInt x in
  if (- 2 ^ 63 <=? n) && (n <? 2 ^ 63) then Ok n else Err "panic: Int64() out of bound".

(** The weight of one participant in [AdjustWeightsByCollateral]. *)
Definition activated_weight (collateral : option Coin) (cpwu eligible : LegacyDec) : LegacyDec :=
  match collateral with
  | None => LegacyZeroDec
  | Some x =>
      if Coin_IsZero x then LegacyZeroDec
      else if negb (ld_IsZero cpwu) then LegacyMinDec eligible (ld_Quo (LegacyNewDecFromInt (cn_Amount x)) cpwu)
      else eligible
  end.
Definition adjust_weight (bwr cpwu : LegacyDec) (c : CW) (p : ActiveParticipant) : outcome string ActiveParticipant :=
  match AccAddressFromBech32 (ap_Index p) with
  | None => Ok p
  | Some a =>
      let potentialWeight := LegacyNewDecFromInt (u64 (ap_Weight p)) in
      let baseWeight := ld_Mul potentialWeight bwr in
      let collateralEligibleWeight := ld_Sub potentialWeight baseWeight in
      let activatedWeight := activated_weight (GetCollateral c a) cpwu collateralEligibleWeight in
      let effectiveWeight := ld_Add baseWeight activatedWeight in
      let! w := ld_TruncateInt64 effectiveWeight in
      Ok (MkActive (ap_Index p) w)
  end.

Fixpoint omapM {A B} (f : A -> outcome string B) (l : list A) : outcome string (list B) :=
  match l with
  | [] => Ok []
  | x :: rest => let! y := f x in let! ys := omapM f rest in Ok (y :: ys)
  end.

(** [func (k Keeper) AdjustWeightsByCollateral(ctx, participants) error]: the
    participants as updated. *)
Definition AdjustWeightsByCollateral (c : CS) (participants : list ActiveParticipant) : outcome string (list ActiveParticipant) :=
  match CollateralParamsOf (coll_World (ch_World c)) with
  | None => Err "failed to get params"
  | Some cp =>
      match GetLatestEpoch c with
      | None => Err "latest epoch not found"
      | Some latestEpoch =>
          if latestEpoch <=? cp_GracePeriodEndEpoch cp then Ok participants
          else match ToLegacyDec (cp_BaseWeightRatio cp), ToLegacyDec (cp_CollateralPerWeightUnit cp) with
               | Some bwr, Some cpwu => omapM (adjust_weight bwr cpwu (ch_World c)) participants
               | _, _ => Err "invalid decimal exponent"
               end
      end
  end.

End Keeper.

(* ------------------------------------------------------------------ *)
(** ** The interfaces of the inference module *)

(** Slashed coins go from the collateral module's account to governance's, which moves no
    coins of the inference module and of users; removing a member from an epoch group
    moves no coins of the collateral module. *)
Class CollateralFrameLaws (W : Type) `{!ChainEnv W} `{!CollateralEnv W} `{!StatusEnv W} := {
  gov_frame : forall x w w' r, coll_SendCoinsFromModuleToGov x w = (w', r) -> only_slashed w w';
  group_frame : forall p w w' r, removeFromEpochGroups p w = (w', r) ->
    CollateralBalance w' = CollateralBalance w /\ GovBalance w' = GovBalance w /\ forall b, UserBalance w' b = UserBalance w b
}.

Section Interfaces.
Context {W : Type} `{!AccAddressCodec} `{!ChainEnv W} `{!CollateralEnv W} `{!CollateralParamsEnv W} `{!StatusEnv W}.
Context `{!CoinLib} `{!LegacyDecLib} `{!LegacyDecParse}.
Abbreviation CW := (Collateral W).

#[export] Instance collateral_chain_env_laws `{!ChainEnvLaws W} : ChainEnvLaws CW.
Proof.
  split; cbn; unfold through; intros a n c c'.
  - intros Hn. destruct (SendCoinsFromModuleToAccount a n (coll_World c)) as [w r] eqn:Hs. intros [= <- ->]. exact (send_out a n _ w Hn Hs).
  - intros Hn. destruct (SendCoinsFromAccountToModule a n (coll_World c)) as [w r] eqn:Hs. intros [= <- ->]. exact (send_in a n _ w Hn Hs).
  - intros e. destruct (SendCoinsFromModuleToAccount a n (coll_World c)) as [w r] eqn:Hs. intros [= <- ->]. by eapply send_out_failed.
Qed.

#[export] Instance collateral_status_env : StatusEnv CW := {|
  ValidationParamsOf := fun c => ValidationParamsOf (coll_World c);
  ConfirmationPoCParamsOf := fun c => ConfirmationPoCParamsOf (coll_World c);
  GetPrecomputedSPRTValues := fun c => GetPrecomputedSPRTValues (coll_World c);
  BlockHeight := fun c => BlockHeight (coll_World c);
  removeFromEpochGroups := fun p => through (removeFromEpochGroups p)
|}.
#[export] Instance collateral_status_env_laws `{!StatusEnvLaws W} : StatusEnvLaws CW.
Proof.
  split. intros p c c' r. cbn. unfold through. destruct (removeFromEpochGroups p (coll_World c)) as [w r'] eqn:Hr.
  intros [= <- _]. by eapply remove_frame.
Qed.

(** Slashing changes the world of the collateral module only by the transfer to governance. *)
Section Keeps.
Context (R : W -> W -> Prop) `{!PreOrder R}.
Abbreviation keeps_world := (keeps coll_World R).

Lemma keeps_set_unbonding u : keeps_world (setUnbondingCollateralEntry u).
Proof. unfold setUnbondingCollateralEntry. repeat keeps_step. Qed.
Lemma keeps_slash_unbonding f t u : keeps_world (slash_unbonding f t u).
Proof. unfold slash_unbonding, RemoveUnbondingCollateral. repeat (apply keeps_set_unbonding || keeps_step). Qed.
Lemma keeps_slash_active a f o t : keeps_world (slash_active a f o t).
Proof. unfold slash_active, SetCollateral. repeat keeps_step. Qed.

Lemma keeps_slash a f reason required : (forall x w w' r, coll_SendCoinsFromModuleToGov x w = (w', r) -> R w w') ->
  keeps_world (Slash a f reason required).
Proof.
  intros Hgov. unfold Slash.
  repeat (apply keeps_slash_active || apply keeps_slash_unbonding || keeps_step).
  - apply keeps_pure; [done|]. intros c. by rewrite already_run.
  - intros c c' r. unfold on_bank. destruct (coll_SendCoinsFromModuleToGov _ (coll_World c)) as [w r'] eqn:Hs.
    intros [= <- _]. by eapply Hgov.
Qed.
End Keeps.

Lemma slash_for_frame `{!CollateralFrameLaws W} fraction reason p (c : Chain CW) :
  only_slashed (coll_World (ch_World c)) (coll_World (slash_for fraction reason p c)).
Proof.
  unfold slash_for. destruct (CollateralParamsOf _) as [cp|]; [|done].
  destruct (ToLegacyDec (fraction cp)) as [f|], (AccAddressFromBech32 (pp_Address p)) as [a|]; try done.
  destruct (Slash a f reason (calculateRequiredCollateral c (pp_Address p) cp) (ch_World c)) as [c' r] eqn:Hs. eapply keeps_slash; [apply _|by apply gov_frame|exact Hs].
Qed.

#[export] Instance collateral_slashing_laws `{!CollateralFrameLaws W} : CollateralSlashingLaws CW.
Proof. split; intros p c; cbn; apply slash_for_frame. Qed.
End Interfaces.

(* ------------------------------------------------------------------ *)
(** ** Weights *)

Section Weights.
Context {W : Type} `{!AccAddressCodec} `{!ChainEnv W} `{!CollateralEnv W} `{!CollateralParamsEnv W}.
Context `{!CoinLib} `{!LegacyDecLib} `{!LegacyDecLaws} `{!LegacyDecParse}.
Abbreviation CW := (Collateral W).
Implicit Types (c : CW) (p : ActiveParticipant).

(** What the adjustment promises to a participant with weight [n] and collateral [x]: the
    base part is kept in any case, without collateral nothing more, with the collateral
    for the rest everything. *)
Record weight_between (bwr cpwu : Q) (n x w : Z) : Prop := {
  wb_range : Qfloor (inject_Z n * bwr) <= w <= n;
  wb_none : x = 0 -> w = Qfloor (inject_Z n * bwr);
  wb_full : 0 < x -> (inject_Z n * (1 - bwr) * cpwu <= inject_Z x)%Q -> w = n
}.
Definition adjusted (bwr cpwu : LegacyDec) c p p' : Prop :=
  ap_Index p' = ap_Index p /\
  match AccAddressFromBech32 (ap_Index p) with
  | None => p' = p
  | Some a => weight_between (ld_val bwr) (ld_val cpwu) (ap_Weight p) (active_of c a) (ap_Weight p')
  end.

Lemma ld_IsZero_val x : ld_IsZero x = true <-> (ld_val x == 0)%Q.
Proof. unfold ld_IsZero, LegacyZeroDec. rewrite ld_cmp, <-(ld_int 0), Qeq_alt. destruct (_ ?= _)%Q; intuition discriminate. Qed.

Lemma LegacyMinDec_val x y : (ld_val (LegacyMinDec x y) == Qmin (ld_val x) (ld_val y))%Q.
Proof.
  unfold LegacyMinDec. rewrite ld_cmp. destruct (ld_val x ?= ld_val y)%Q eqn:Hc.
  - apply Qeq_alt in Hc. rewrite Q.min_r by lra. done.
  - apply Qlt_alt in Hc. rewrite Q.min_l by lra. done.
  - apply Qgt_alt in Hc. rewrite Q.min_r by lra. done.
Qed.

(** The activated part is between nothing and the eligible weight. *)
Lemma activated_spec (o : option Coin) cpwu eligible : (0 <= ld_val cpwu)%Q -> (0 <= ld_val eligible)%Q ->
  let x := from_option cn_Amount 0 o in 0 <= x ->
  let act := ld_val (activated_weight o cpwu eligible) in
  (0 <= act <= ld_val eligible)%Q /\ (x = 0 -> (act == 0)%Q) /\
  (0 < x -> (ld_val eligible * ld_val cpwu <= inject_Z x)%Q -> (act == ld_val eligible)%Q).
Proof.
  intros Hc He x Hx. assert (ld_val LegacyZeroDec == 0)%Q as Hzd by apply (ld_int 0).
  unfold activated_weight. destruct o as [y|]; cbn [from_option] in x; unfold x in *; cbn zeta; [|split; [lra|split; [done|lia]]].
  unfold Coin_IsZero. destruct (cn_Amount y =? 0) eqn:Hz; [split; [lra|split; [done|lia]]|].
  destruct (ld_IsZero cpwu) eqn:Hcz; cbn [negb].
  { split; [lra|split; [lia|done]]. }
  assert (0 < ld_val cpwu)%Q as Hpos.
  { destruct (Qle_lt_or_eq _ _ Hc) as [?|Heq]; [done|]. exfalso. symmetry in Heq. apply ld_IsZero_val in Heq. congruence. }
  rewrite LegacyMinDec_val.
  assert (0 <= ld_val (ld_Quo (LegacyNewDecFromInt (cn_Amount y)) cpwu))%Q as Hq.
  { apply ld_quo_nonneg; [|done]. rewrite ld_int. by apply inject_nonneg. }
  split; [|split; [lia|]].
  - destruct (Q.min_spec (ld_val eligible) (ld_val (ld_Quo (LegacyNewDecFromInt (cn_Amount y)) cpwu))) as [[? ->]|[? ->]]; lra.
  - intros _ Hle. apply Q.min_l. apply ld_quo_ge; [done|]. by rewrite ld_int.
Qed.

Lemma adjust_weight_run bwr cpwu c p :
  (0 <= ld_val bwr <= 1)%Q -> (0 <= ld_val cpwu)%Q -> 0 <= ap_Weight p < 2 ^ 63 -> coll_ok c ->
  exists p', adjust_weight bwr cpwu c p = Ok p' /\ adjusted bwr cpwu c p p'.
Proof.
  intros Hb Hc Hw Hok. unfold adjust_weight, adjusted. destruct (AccAddressFromBech32 (ap_Index p)) as [a|] eqn:Ha; [|by exists p].
  set (n := ap_Weight p) in *. rewrite (u64_small n) by (unfold is_u64; lia).
  set (pot := LegacyNewDecFromInt n). set (bw := ld_Mul pot bwr). set (el := ld_Sub pot bw).
  assert (ld_val bw == inject_Z n * ld_val bwr)%Q as Hbw by apply ld_mul_int.
  assert (ld_val el == inject_Z n * (1 - ld_val bwr))%Q as Hel.
  { unfold el. rewrite ld_sub, Hbw. unfold pot. rewrite ld_int. ring. }
  assert (0 <= inject_Z n)%Q as Hn by (apply inject_nonneg; lia).
  assert (0 <= ld_val bw /\ 0 <= ld_val el)%Q as [Hbw0 Hel0] by (rewrite Hbw, Hel; split; apply Qmult_le_0_compat; lra).
  pose proof (active_nonneg c a Hok) as Hact. unfold active_of in Hact |- *. unfold GetCollateral.
  destruct (activated_spec (CollateralMap c !! a) cpwu el Hc Hel0 Hact) as (Hr & Hzero & Hfull).
  set (act := activated_weight (CollateralMap c !! a) cpwu el) in *.
  assert (ld_val (ld_Add bw act) == inject_Z n * ld_val bwr + ld_val act)%Q as Hsum by (by rewrite ld_add, Hbw).
  assert (ld_TruncateInt (ld_Add bw act) = Qfloor (inject_Z n * ld_val bwr + ld_val act)) as Htr.
  { rewrite ld_trunc by lra. by apply Qfloor_comp. }
  assert (Qfloor (inject_Z n * ld_val bwr) <= Qfloor (inject_Z n * ld_val bwr + ld_val act) <= n) as Hrange.
  { split; [apply Qfloor_resp_le; lra|]. rewrite <-(Qfloor_Z n) at 2. apply Qfloor_resp_le. lra. }
  assert (0 <= Qfloor (inject_Z n * ld_val bwr)) as Hfl.
  { rewrite <-(Qfloor_Z 0). apply Qfloor_resp_le. change (inject_Z 0) with 0%Q. lra. }
  unfold ld_TruncateInt64. rewrite Htr. replace (_ && _) with true by lia. eexists. split; [reflexivity|]. split; [done|].
  split; cbn [ap_Weight]; [done| |].
  - intros Hx. apply Hzero in Hx. apply Qfloor_comp. rewrite Hx. ring.
  - intros Hx Hle. rewrite <-(Qfloor_Z n) at 2. apply Qfloor_comp. rewrite Hfull; [rewrite Hel; ring|done|by rewrite Hel].
Qed.

Lemma omapM_run {A B} (f : A -> outcome string B) (P : A -> B -> Prop) l :
  Forall (fun x => exists y, f x = Ok y /\ P x y) l -> exists l', omapM f l = Ok l' /\ Forall2 P l l'.
Proof.
  induction 1 as [|x l (y & Hy & HP) _ (l' & Hl & HF)]; [by exists []|]. exists (y :: l'). cbn. rewrite Hy. cbn. rewrite Hl. auto.
Qed.

(** C25: Weights are backed by collateral.  With parameters in their ranges the adjustment
    of the weights never fails; in the grace period it changes nothing.  After it every
    participant keeps its place and at least the base part of its weight, and never gets
    more than its weight; it gets just the base part without collateral, and its full
    weight when its collateral pays for the rest. *)
Theorem weights_adjusted (s : Chain CW) cp latest bwr cpwu ps :
  coll_ok (ch_World s) -> CollateralParamsOf (coll_World (ch_World s)) = Some cp -> GetLatestEpoch s = Some latest ->
  ToLegacyDec (cp_BaseWeightRatio cp) = Some bwr -> ToLegacyDec (cp_CollateralPerWeightUnit cp) = Some cpwu ->
  (0 <= ld_val bwr <= 1)%Q -> (0 <= ld_val cpwu)%Q -> Forall (fun p => 0 <= ap_Weight p < 2 ^ 63) ps ->
  exists ps', AdjustWeightsByCollateral s ps = Ok ps' /\
    (latest <= cp_GracePeriodEndEpoch cp -> ps' = ps) /\
    (cp_GracePeriodEndEpoch cp < latest -> Forall2 (adjusted bwr cpwu (ch_World s)) ps ps').
Proof.
  intros Hok Hcp Hl Hb Hc Hbr Hcr Hw. unfold AdjustWeightsByCollateral. rewrite Hcp, Hl, Hb, Hc.
  destruct (latest <=? cp_GracePeriodEndEpoch cp) eqn:Hg; [exists ps; split; [done|]; split; [done|lia]|].
  destruct (omapM_run (adjust_weight bwr cpwu (ch_World s)) (adjusted bwr cpwu (ch_World s)) ps) as (ps' & Hrun & HF).
  { eapply Forall_impl; [exact Hw|]. intros p Hp. by apply adjust_weight_run. }
  exists ps'. split; [done|]. split; [lia|done].
Qed.
End Weights.

(* ------------------------------------------------------------------ *)
(** ** Slashing for a bad status *)

(** The fraction and the reason that go with a bad status. *)
Definition slash_terms (st : ParticipantStatus) : option ((CollateralParams -> Decimal) * string) :=
  match st with
  | Participant_INVALID => Some (cp_SlashFractionInvalid, SlashReasonInvalidation)
  | Participant_INACTIVE => Some (cp_SlashFractionDowntime, SlashReasonDowntime)
  | _ => None
  end.

Section Slashing.
Context {W : Type} `{!AccAddressCodec} `{!AccAddressLaws} `{!ChainEnv W} `{!CollateralEnv W} `{!CollateralEnvLaws W}.
Context `{!CollateralParamsEnv W} `{!DecimalLib} `{!StatusEnv W} `{!CoinLib} `{!CoinLaws}.
Context `{!LegacyDecLib} `{!LegacyDecLaws} `{!LegacyDecParse} `{!CollateralFrameLaws W}.
Abbreviation CW := (Collateral W).
Implicit Types (c : Chain CW) (p : Participant).

Lemma slash_for_run fraction reason p c cp a f :
  coll_ok (ch_World c) -> CollateralParamsOf (coll_World (ch_World c)) = Some cp -> ToLegacyDec (fraction cp) = Some f ->
  AccAddressFromBech32 (pp_Address p) = Some a -> (0 <= ld_val f <= 1)%Q -> ~ already_slashed (ch_World c) a reason ->
  let required := calculateRequiredCollateral c (pp_Address p) cp in
  exists q, slashed (ch_World c) a reason q (slash_for fraction reason p c) /\ charged (ch_World c) a f required q.
Proof.
  intros Hok Hcp Hf Ha Hr Hal required. unfold slash_for. rewrite Hcp, Hf, Ha. fold required.
  pose proof (slash_run (ch_World c) a f reason required Hok) as Hs.
  destruct (Slash a f reason required (ch_World c)) as [c' [x|err]].
  - destruct Hs as (_ & _ & _ & Hs). eexists. split; [exact Hs|]. by apply effective_charged.
  - destruct Hs as [_ [?|?]]; tauto.
Qed.

Lemma slash_for_ok fraction reason p c : coll_ok (ch_World c) -> coll_ok (slash_for fraction reason p c).
Proof.
  intros Hok. unfold slash_for. destruct (CollateralParamsOf _) as [cp|]; [|done].
  destruct (ToLegacyDec (fraction cp)) as [f|], (AccAddressFromBech32 (pp_Address p)) as [a|]; try done.
  pose proof (slash_run (ch_World c) a f reason (calculateRequiredCollateral c (pp_Address p) cp) Hok) as Hs.
  destruct (Slash _ _ _ _ (ch_World c)) as [c' [x|err]]; cbn.
  - destruct Hs as (Hf & _ & _ & Hs). eapply slashed_ok; [|exact Hok|exact Hs]. by apply effective_spec.
  - by destruct Hs as [-> _].
Qed.

(** Changes of the world that leave the coins of the collateral module alone. *)
Definition same_collateral (w w' : W) : Prop :=
  CollateralBalance w' = CollateralBalance w /\ GovBalance w' = GovBalance w /\ forall b, UserBalance w' b = UserBalance w b.

Lemma coll_ok_world (c : CW) w : CollateralBalance w = CollateralBalance (coll_World c) -> coll_ok c -> coll_ok (set_coll_World w c).
Proof. intros Hw [Ha Hu Hj Hb Hs]. split; try done. unfold spare, held in *. cbn. by rewrite Hw. Qed.

Lemma slashed_world (c c' : CW) a reason q w : same_collateral (coll_World c') w -> slashed c a reason q c' ->
  slashed c a reason q (set_coll_World w c').
Proof.
  intros (Hb & Hg & Hu) [S1 S2 S3 S4 S5 S6 S7 S8 S9 S10].
  split; cbn; try done; try (by rewrite ?Hb, ?Hg); [intros b; by rewrite Hu, S9|]. unfold spare, held in *. cbn. by rewrite Hb.
Qed.

Lemma recordExclusion_world q reason c : ch_World (recordExclusion q reason c) = ch_World c.
Proof. unfold recordExclusion. by destruct (EffectiveEpochIndex c), (AccAddressFromBech32 (pp_Address q)). Qed.

(** The world after the consequences of a bad status. *)
Lemma consequence_world slash c p' c' : consequence slash c p' c' ->
  exists q w, pp_Address q = pp_Address p' /\ ch_World c' = set_coll_World w (slash q c) /\
    same_collateral (coll_World (slash q c)) w.
Proof.
  intros (q & reason & w' & Ha & _ & Hrem & ->). rewrite recordExclusion_world in Hrem. cbn in Hrem. unfold through in Hrem.
  destruct (removeFromEpochGroups p' (coll_World (slash q c))) as [w r] eqn:Hr. injection Hrem as <- _.
  exists q, w. split; [done|]. split; [done|]. by eapply group_frame.
Qed.

(** C17: A bad status costs collateral.  When saving a participant makes it INVALID or
    INACTIVE, its collateral is slashed once by the fraction of the parameters for that
    status, of what its weight requires at most, unless it was already slashed for that
    reason in this epoch; any other save takes no collateral.  The books of the
    collateral module stay in order in every case. *)
Theorem bad_status_slashes p c c' p' :
  coll_ok (ch_World c) -> UpdateParticipantStatus p c = (c', Ok p') ->
  coll_ok (ch_World c') /\
  (pp_Status p' = pp_Status p \/ slash_terms (pp_Status p') = None -> ch_World c' = ch_World c) /\
  (forall fraction reason cp a f, pp_Status p' <> pp_Status p -> slash_terms (pp_Status p') = Some (fraction, reason) ->
     CollateralParamsOf (coll_World (ch_World c)) = Some cp -> ToLegacyDec (fraction cp) = Some f ->
     AccAddressFromBech32 (pp_Address p) = Some a -> (0 <= ld_val f <= 1)%Q -> ~ already_slashed (ch_World c) a reason ->
     exists q, slashed (ch_World c) a reason q (ch_World c') /\
       charged (ch_World c) a f (calculateRequiredCollateral c (pp_Address p) cp) q).
Proof.
  intros Hok Hrun. change (Keeper_UpdateParticipantStatus p c = (c', Ok p')) in Hrun. apply update_run in Hrun as ((_ & Hpa & _) & _ & Hcase).
  assert (forall fraction reason, consequence (slash_for fraction reason) c p' c' -> coll_ok (ch_World c') /\
    forall cp a f, CollateralParamsOf (coll_World (ch_World c)) = Some cp -> ToLegacyDec (fraction cp) = Some f ->
      AccAddressFromBech32 (pp_Address p) = Some a -> (0 <= ld_val f <= 1)%Q -> ~ already_slashed (ch_World c) a reason ->
      exists q, slashed (ch_World c) a reason q (ch_World c') /\
        charged (ch_World c) a f (calculateRequiredCollateral c (pp_Address p) cp) q) as Hcons.
  { intros fraction reason (q & w & Ha & -> & Hsame)%consequence_world. rewrite <-Hpa, <-Ha.
    split; [apply coll_ok_world; [apply Hsame|by apply slash_for_ok]|]. intros cp a f Hcp Hf Hadr Hr Hal.
    destruct (slash_for_run fraction reason q c cp a f Hok Hcp Hf Hadr Hr Hal) as (x & Hs & Hch).
    exists x. split; [by apply slashed_world|done]. }
  destruct Hcase as [[-> Hst]|[(Hne & Hst & Hc)|(Hne & Hst & Hc)]].
  - split; [done|]. split; [done|]. intros fraction reason cp a f Hne Hterms. exfalso.
    destruct Hst as [?|[? ?]]; [done|]. by destruct (pp_Status p').
  - destruct (Hcons _ _ Hc) as [Hok' Hsl]. rewrite Hst. split; [done|]. split; [intros [?|[=]]; congruence|].
    intros fraction reason cp a f _ [= <- <-]. apply Hsl.
  - destruct (Hcons _ _ Hc) as [Hok' Hsl]. rewrite Hst. split; [done|]. split; [intros [?|[=]]; congruence|].
    intros fraction reason cp a f _ [= <- <-]. apply Hsl.
Qed.
End Slashing.
