(* ===== verification/ChainEscrow.v ===== *)
(** * Devshard escrows on chain

    The message handlers that open and settle an escrow:
    inference-chain/x/inference/keeper/msg_server_create_devshard_escrow.go and
    msg_server_settle_devshard_escrow.go.  Opening locks the amount in the module's
    account and draws the group; settling verifies the session's final state
    ([VerifyDevshardSettlement]), pays every validator its slots' costs and fee
    shares, refunds the rest and records the statistics.

    The theorems show what a successful message does to the money: opening moves the
    amount into the module, settling accounts for the whole amount to the coin, once,
    and a settlement of a session that followed the protocol pays every host what the
    session's ledger says and returns the session's balance to the user. *)

From stdpp Require Import pretty sorting.
From S2P Require Import Prelude.
From S2P Require Import GoStd.
From S2P Require Import ChainSlots.
From S2P Require Import DevshardTypes.
From S2P Require Import DevshardHash.
From S2P Require Import DevshardMachine.
From S2P Require Import DevshardLedger.
From S2P Require Import DevshardRefine.
From S2P Require Import DevshardSession.
From S2P Require Import DevshardReach.
From S2P Require Import DevshardSettlement.
From S2P Require Import ChainSettlement.
From S2P Require Import ChainStore.
From S2P Require Import ChainState.
Open Scope Z_scope.
Open Scope go_scope.

Section Handlers.
Context {W : Type} `{!AccAddressCodec} `{!ChainEnv W} `{!ParticipantStatusKeeper W}.
Context `{!ChainCodec} `{!Secp256k1}.
Abbreviation CS := (Chain W).
Abbreviation K := (GoM (Chain W) string).

(** [func (k msgServer) CreateDevshardEscrow(goCtx, msg) (response, error)];
    [SortFunc] is the sort that the slot sampling uses. *)
Definition CreateDevshardEscrow (SortFunc : list slotRandom -> list slotRandom)
    (msg : MsgCreateDevshardEscrow) : K Z :=
  run* CheckPermission (mc_Creator msg) EscrowAllowListPermission in
  run* check (negb (bool_decide (mc_ModelId msg = ""))) "model_id is required" in
  let* ep := reads GetDevshardEscrowParams in
  run* check (negb ((mc_Amount msg <? ep_MinAmount ep) || (ep_MaxAmount ep <? mc_Amount msg)))
         "escrow amount out of range" in
  let* epoch := reads EffectiveEpochIndex in
  let* epochIndex := lift_option epoch "failed to get effective epoch index" in
  let* epochCount := reads (fun c => GetDevshardEscrowEpochCount c epochIndex) in
  run* check (negb (ep_MaxEscrowsPerEpoch ep <=? epochCount)) "epoch already has the maximum of escrows" in
  let* group := reads (fun c => EpochGroupWeights (ch_World c) epochIndex (mc_ModelId msg)) in
  let* validationWeights := lift_option group "failed to get epoch group for model" in
  run* check (negb (bool_decide (length validationWeights = 0%nat))) "no validation weights in epoch group" in
  let weights := fold_left (fun m vw => <[vw.1 := vw.2]> m) validationWeights (∅ : gmap string Z) in
  let '(sortedEntries, totalWeight) := PrepareSortedEntries weights in
  run* check (negb (totalWeight <=? 0)) "total weight is zero" in
  let* appHash := reads (fun c => AppHashHex (ch_World c)) in
  let* counter := reads (fun c => default 0 (DevshardEscrowCounter c)) in
  run* check (negb (counter =? 2 ^ 64 - 1)) "devshard escrow counter overflow" in
  let nextID := u64 (counter + 1) in
  let slots := GetSlotsFromSorted SortFunc appHash ("devshard_escrow:" +:+ pretty nextID) (mc_ModelId msg)
                 sortedEntries totalWeight (Z.to_nat (ep_GroupSize ep)) in
  let* creatorAddr := lift_option (AccAddressFromBech32 (mc_Creator msg)) "invalid creator address" in
  let* coins := from_outcome (GetCoins (i64 (mc_Amount msg))) in
  run* on_world (SendCoinsFromAccountToModule creatorAddr coins) in
  StoreDevshardEscrow
    (MkEscrow 0 (mc_Creator msg) (mc_Amount msg) slots epochIndex appHash false (ep_TokenPrice ep)
       (mc_ModelId msg) (ep_CreateDevshardFee ep) (ep_FeePerNonce ep)
       (DevshardInferenceSealGraceNoncesForCreate ep (u32 (Z.of_nat (length slots))))
       (DevshardInferenceSealGraceSecondsForCreate ep) (DevshardAutoSealEveryNNoncesForCreate ep)
       (DevshardValidationRateForCreate ep) 0)
    nextID.

(** The addresses of the slots, each once, in the order of their first slot. *)
Definition first_seen (slots : list string) : list string :=
  fold_left (fun l a => if bool_decide (a ∈ l) then l else l ++ [a]) slots [].

(** [uniqueAddrs]: the same, sorted. *)
Definition unique_addrs (slots : list string) : list string := sort_strings (first_seen slots).

(** The local variables of [SettleDevshardEscrow] that its loops update:
    [participantByAddr] (by address string, as the map holds pointers that are
    written through), [treatAsCurrentEpochSettle] and [touchedParticipants]. *)
Record SettleVars := MkSettleVars {
  sv_participants : gmap string Participant;
  sv_current : gmap string bool;
  sv_touched : gset string
}.

(** Loading one participant. *)
Definition load_participant (escrowEpoch currentEpoch : Z) (v : SettleVars) (addr : string) : K SettleVars :=
  let* found := reads (fun c => GetParticipant c addr) in
  let* participant := lift_option found "participant not found" in
  let ps := <[addr := participant]> (sv_participants v) in
  if negb (escrowEpoch =? currentEpoch)
  then ret (MkSettleVars ps (<[addr := false]> (sv_current v)) (sv_touched v))
  else
    let* a := lift_option (AccAddressFromBech32 addr) "invalid participant address" in
    let* active := reads (fun c => bool_decide ((currentEpoch, a) ∈ ActiveParticipantsSet c)) in
    ret (MkSettleVars ps (<[addr := active && (escrowEpoch =? currentEpoch)]> (sv_current v)) (sv_touched v)).

(** The payouts: one entry of the statistics adds its cost, the fee share and, while
    there are any, one of the remaining coins. *)
Definition add_payout (slots : list string) (feePerSlot : Z) (acc : gmap string Z * Z)
    (hs : DevshardSettlementHostStats) : outcome string (gmap string Z * Z) :=
  let '(validatorPayouts, remainderFees) := acc in
  match at_index slots (ss_SlotId hs) with
  | None => Err "host_stats slot_id out of range"
  | Some addr =>
      let '(p1, carry) := Add64 (zget 0 addr validatorPayouts) (ss_Cost hs) in
      run! ocheck (carry =? 0) "validator cost overflow" in
      let '(p2, carry) := Add64 p1 feePerSlot in
      run! ocheck (carry =? 0) "validator fee share overflow" in
      if 0 <? remainderFees then
        let '(p3, carry) := Add64 p2 1 in
        run! ocheck (carry =? 0) "validator remainder fee overflow" in
        Ok (<[addr := p3]> validatorPayouts, u64 (remainderFees - 1))
      else Ok (<[addr := p2]> validatorPayouts, remainderFees)
  end.

(** The sum of the payouts with its overflow check; the map is ranged over in any
    order, which for a sum of unsigned numbers makes no difference. *)
Definition add_total (totalPayout : Z) (p : string * Z) : outcome string Z :=
  let '(next, carry) := Add64 totalPayout p.2 in
  run! ocheck (carry =? 0) "total validator payout overflow" in
  Ok next.

(** Paying one slot's validator, unless it was paid for an earlier slot. *)
Definition pay_validator (epochIndex : Z) (validatorPayouts : gmap string Z) (acc : gset string * SettleVars)
    (addr : string) : K (gset string * SettleVars) :=
  let '(paidValidators, v) := acc in
  let payout := zget 0 addr validatorPayouts in
  if (payout =? 0) || bool_decide (addr ∈ paidValidators) then ret acc
  else
    let paid' := {[addr]} ∪ paidValidators in
    if zget false addr (sv_current v) then
      let* participant := lift_option (sv_participants v !! addr) "participant not found" in
      let* p' := from_outcome (AddToCoinBalance participant payout) in
      ret (paid', MkSettleVars (<[addr := p']> (sv_participants v)) (sv_current v) ({[addr]} ∪ sv_touched v))
    else
      let* c := get in
      let* recipient := from_outcome (ResolveClaimRecipientAddress c addr epochIndex) in
      run* payCoinsDirectly payout recipient in
      ret (paid', v).

(** Returning what is left to the creator. *)
Definition refund_creator (creator : string) (remainder : Z) : K unit :=
  if remainder <=? 0 then ret tt
  else
    run* check (negb (MaxInt64 <? remainder)) "refund amount exceeds max int64" in
    let* creatorAddr := lift_option (AccAddressFromBech32 creator) "invalid creator address" in
    let* coins := from_outcome (GetCoins (i64 remainder)) in
    on_world (SendCoinsFromModuleToAccount creatorAddr coins).

(** Recording the statistics of one slot. *)
Definition record_stats (escrow : DevshardEscrow) (nonce totalSlots : Z) (acc : gset string * SettleVars)
    (hs : DevshardSettlementHostStats) : K (gset string * SettleVars) :=
  let '(seenValidators, v) := acc in
  let* addr := lift_option (at_index (de_Slots escrow) (ss_SlotId hs)) "index out of range" in
  let* a := lift_option (AccAddressFromBech32 addr) "invalid participant address" in
  let firstForValidator := negb (bool_decide (addr ∈ seenValidators)) in
  run* UpdateDevshardHostEpochStats (de_EpochIndex escrow) a hs firstForValidator in
  if zget false addr (sv_current v) then
    let* participant := lift_option (sv_participants v !! addr) "participant not found" in
    let* assigned := from_outcome (devshardAssignedUpperBoundForSlot nonce totalSlots (ss_SlotId hs)) in
    let* p' := from_outcome (AggregateDevshardHostStatsIntoCurrentEpochStats participant hs assigned) in
    ret ({[addr]} ∪ seenValidators,
         MkSettleVars (<[addr := p']> (sv_participants v)) (sv_current v) ({[addr]} ∪ sv_touched v))
  else ret ({[addr]} ∪ seenValidators, v).

(** Saving one touched participant. *)
Definition save_participant (v : SettleVars) (_ : unit) (addr : string) : K unit :=
  let* participant := lift_option (sv_participants v !! addr) "nil participant" in
  SetParticipant participant.

(** [func (k msgServer) SettleDevshardEscrow(goCtx, msg) (response, error)] *)
Definition SettleDevshardEscrow (msg : MsgSettleDevshardEscrow) : K unit :=
  run* CheckPermission (ms_Settler msg) EscrowAllowListPermission in
  let* c := get in
  let* escrow := lift_option (DevshardEscrows c !! ms_EscrowId msg) "escrow not found" in
  let* params := lift_option (ch_Params c) "failed to get params" in
  let* devshardParams := lift_option params "devshard escrow params not configured" in
  run* from_outcome (VerifyDevshardSettlement escrow msg (Some devshardParams) (Some (HasWarmKeyGrant c))) in
  let slots := de_Slots escrow in
  run* check (negb (bool_decide (length slots = 0%nat))) "escrow has no slots" in
  let* currentEpochIndex := lift_option (EffectiveEpochIndex c) "failed to get effective epoch index" in
  run* check (negb ((currentEpochIndex <? de_EpochIndex escrow) || (u64 (de_EpochIndex escrow + 1) <? currentEpochIndex)))
         "devshard settlement only supports current or previous epoch" in
  let* v0 := mfold (load_participant (de_EpochIndex escrow) currentEpochIndex)
               (MkSettleVars ∅ ∅ ∅) (unique_addrs slots) in
  let totalSlots := Z.of_nat (length slots) in
  let feePerSlot := ms_Fees msg / totalSlots in
  let* payouts := from_outcome (ofold (add_payout slots feePerSlot) (∅, ms_Fees msg mod totalSlots) (ms_HostStats msg)) in
  run* check (payouts.2 =? 0) "failed to allocate all remainder fees" in
  let* totalPayout := from_outcome (ofold add_total 0 (map_to_list payouts.1)) in
  run* check (negb (de_Amount escrow <? totalPayout)) "total payout exceeds escrow amount" in
  let* paid := mfold (pay_validator (de_EpochIndex escrow) payouts.1) (∅, v0) slots in
  run* refund_creator (de_Creator escrow) (u64 (de_Amount escrow - totalPayout)) in
  let* recorded := mfold (record_stats escrow (ms_Nonce msg) totalSlots) (∅, paid.2) (ms_HostStats msg) in
  let v := recorded.2 in
  run* mfold (save_participant v) tt (sort_strings (elements (sv_touched v))) in
  SetDevshardEscrow (de_set_Settled true escrow).

(** A message runs in a transaction: when its handler fails, its writes are dropped. *)
Definition deliver {A} (m : K A) (c : CS) : CS := (cached m c).1.

End Handlers.

(* ------------------------------------------------------------------ *)
(** ** Specification *)

Section Spec.
Context {W : Type} `{!AccAddressCodec} `{!ChainEnv W}.
Abbreviation CS := (Chain W).

(** What open escrows hold, what participants are owed, and what the module's account
    has beyond that. *)
Definition open_amount (e : DevshardEscrow) : Z := if de_Settled e then 0 else de_Amount e.
Definition locked (c : CS) : Z := msum (fun _ e => open_amount e) (DevshardEscrows c).
Definition owed (c : CS) : Z := msum (fun _ p => pp_CoinBalance p) (Participants c).
Definition slack (c : CS) : Z := ModuleBalance (ch_World c) - locked c - owed c.

(** Participants are stored under their address and are owed nothing negative. *)
Definition participants_ok (c : CS) : Prop :=
  forall a p, Participants c !! a = Some p -> AccAddressFromBech32 (pp_Index p) = Some a /\ 0 <= pp_CoinBalance p.

(** The invariant of the modelled collections. *)
Record chain_ok (c : CS) : Prop := {
  co_participant : participants_ok c;
  co_escrow : forall id e, DevshardEscrows c !! id = Some e ->
    de_Id e = id /\ 0 <= de_Amount e < 2 ^ 63 /\ Forall canonical (de_Slots e) /\ Z.of_nat (length (de_Slots e)) < 2 ^ 63;
  co_counter : forall id, is_Some (DevshardEscrows c !! id) -> id <= default 0 (DevshardEscrowCounter c) < 2 ^ 64;
  co_index : forall epoch id, (epoch, id) ∈ DevshardEscrowsByEpoch c <->
    exists e, DevshardEscrows c !! id = Some e /\ de_EpochIndex e = epoch;
  co_solvent : 0 <= slack c
}.

(** The coin balance of a participant as stored. *)
Definition stored_balance (c : CS) (addr : string) : Z := from_option pp_CoinBalance 0 (GetParticipant c addr).

(** The balances that the handler has changed but not saved yet. *)
Definition unsaved (c : CS) (v : SettleVars) : Z :=
  lsum (fun addr => from_option pp_CoinBalance 0 (sv_participants v !! addr) - stored_balance c addr)
    (elements (sv_touched v)).

(** The handler's copies: loaded from the store, with the balance as stored unless touched. *)
Record vars_ok (c : CS) (v : SettleVars) : Prop := {
  vo_loaded : forall addr p, sv_participants v !! addr = Some p -> canonical addr /\
    exists p0, GetParticipant c addr = Some p0 /\ pp_Index p = pp_Index p0 /\ 0 <= pp_CoinBalance p /\
      (addr ∉ sv_touched v -> pp_CoinBalance p = pp_CoinBalance p0);
  vo_touched : forall addr, addr ∈ sv_touched v -> is_Some (sv_participants v !! addr)
}.

(** What a validator is due: the costs of its slots, a fee share for each, and its
    part of the remaining coins. *)
Definition fee_share (slots : list string) (fees : Z) (k : nat) : Z :=
  let n := Z.of_nat (length slots) in
  fees / n + (if (Z.of_nat k <? fees mod n) then 1 else 0).

Definition due (slots : list string) (msg : MsgSettleDevshardEscrow) (addr : string) : Z :=
  lsum (fun '(k, hs) => if bool_decide (at_index slots (ss_SlotId hs) = Some addr)
                        then ss_Cost hs + fee_share slots (ms_Fees msg) k else 0)
    (zip (seq 0 (length (ms_HostStats msg))) (ms_HostStats msg)).

End Spec.

(* ------------------------------------------------------------------ *)
(** ** The payouts *)

Definition bonus (rem : Z) : Z := if 0 <? rem then 1 else 0.

Lemma Add64_ok x y : is_u64 x -> is_u64 y -> x + y < 2 ^ 64 -> Add64 x y = (x + y, 0).
Proof. intros Hx Hy Hs. unfold Add64, is_u64 in *. rewrite u64_small by (unfold is_u64; lia). f_equal. apply Z.div_small. lia. Qed.

Lemma add64_check x y : is_u64 x -> is_u64 y -> ((Add64 x y).2 =? 0) = true <-> x + y < 2 ^ 64.
Proof. intros Hx Hy. rewrite Z.eqb_eq. by apply Add64_no_carry. Qed.

(** One entry is accepted iff its slot exists and the validator's sum fits. *)
Lemma add_payout_iff slots f m rem hs m' rem' :
  is_u64 f -> is_u64 rem -> is_u64 (ss_Cost hs) -> (forall a, is_u64 (zget 0 a m)) ->
  add_payout slots f (m, rem) hs = Ok (m', rem') <->
  exists addr, at_index slots (ss_SlotId hs) = Some addr /\
    zget 0 addr m + ss_Cost hs + f + bonus rem < 2 ^ 64 /\
    m' = <[addr := zget 0 addr m + ss_Cost hs + f + bonus rem]> m /\ rem' = rem - bonus rem.
Proof.
  intros Hf Hr Hc Hm. unfold add_payout, bonus. destruct (at_index slots (ss_SlotId hs)) as [addr|];
    [|split; [done|by intros (? & ? & _)]].
  specialize (Hm addr). set (x := zget 0 addr m) in *. unfold is_u64 in *. split.
  - destruct (Add64 x (ss_Cost hs)) as [p1 c1] eqn:E1. intros ([] & H1%ocheck_Ok & Hk)%obind_Ok.
    assert (x + ss_Cost hs < 2 ^ 64) as Hs1 by (apply add64_check; unfold is_u64; [lia..|by rewrite E1]).
    rewrite (Add64_ok x (ss_Cost hs)) in E1 by (unfold is_u64; lia). injection E1 as <- <-.
    destruct (Add64 (x + ss_Cost hs) f) as [p2 c2] eqn:E2. apply obind_Ok in Hk as ([] & H2%ocheck_Ok & Hk).
    assert (x + ss_Cost hs + f < 2 ^ 64) as Hs2 by (apply add64_check; unfold is_u64; [lia..|by rewrite E2]).
    rewrite (Add64_ok (x + ss_Cost hs) f) in E2 by (unfold is_u64; lia). injection E2 as <- <-.
    destruct (Z.ltb_spec 0 rem) as [Hpos|Hz].
    + destruct (Add64 (x + ss_Cost hs + f) 1) as [p3 c3] eqn:E3. apply obind_Ok in Hk as ([] & H3%ocheck_Ok & Hk).
      assert (x + ss_Cost hs + f + 1 < 2 ^ 64) as Hs3 by (apply add64_check; unfold is_u64; [lia..|by rewrite E3]).
      rewrite (Add64_ok (x + ss_Cost hs + f) 1) in E3 by (unfold is_u64; lia). injection E3 as <- <-.
      apply Ok_inj in Hk. injection Hk as <- <-. exists addr. rewrite u64_small by (unfold is_u64; lia). done.
    + apply Ok_inj in Hk. injection Hk as <- <-. exists addr. rewrite Z.add_0_r, Z.sub_0_r. done.
  - intros (? & [= <-] & Hlt & -> & ->). fold x in Hlt |- *.
    rewrite Add64_ok by (unfold is_u64; destruct (0 <? rem); lia). cbn [obind ocheck Z.eqb].
    rewrite Add64_ok by (unfold is_u64; destruct (0 <? rem); lia). cbn [obind ocheck Z.eqb].
    destruct (Z.ltb_spec 0 rem); [|by rewrite Z.add_0_r, Z.sub_0_r].
    rewrite Add64_ok by (unfold is_u64; lia). cbn [obind ocheck Z.eqb]. by rewrite u64_small by (unfold is_u64; lia).
Qed.

(** What the entries of the statistics add to one validator, when [rem] coins are
    left to hand out one by one. *)
Definition shares (slots : list string) (f rem : Z) (hss : list DevshardSettlementHostStats) (addr : string) : Z :=
  lsum (fun '(k, hs) => if bool_decide (at_index slots (ss_SlotId hs) = Some addr)
                        then ss_Cost hs + (f + (if (Z.of_nat k <? rem) then 1 else 0)) else 0)
    (zip (seq 0 (length hss)) hss).

Lemma lsum_zip_shift {A} (g : nat * A -> Z) s (l : list A) :
  lsum g (zip (seq (S s) (length l)) l) = lsum (fun p => g (S p.1, p.2)) (zip (seq s (length l)) l).
Proof.
  revert s. induction l as [|x l IH]; intros s; [done|]. cbn [length seq zip_with]. by rewrite !lsum_cons, IH.
Qed.

Lemma shares_cons slots f rem hs hss addr :
  0 <= rem ->
  shares slots f rem (hs :: hss) addr =
  (if bool_decide (at_index slots (ss_SlotId hs) = Some addr) then ss_Cost hs + f + bonus rem else 0) +
  shares slots f (rem - bonus rem) hss addr.
Proof.
  intros Hr. unfold shares. cbn [length seq zip_with]. rewrite lsum_cons, lsum_zip_shift. unfold bonus. f_equal.
  - destruct (bool_decide _); [|done]. change (Z.of_nat 0) with 0. lia.
  - apply lsum_ext. intros [k hs'] _. cbn [fst snd]. destruct (bool_decide _); [|done]. f_equal. f_equal.
    destruct (Z.ltb_spec 0 rem); destruct (Z.ltb_spec (Z.of_nat (S k)) rem);
      destruct (Z.ltb_spec (Z.of_nat k) (rem - 1)); destruct (Z.ltb_spec (Z.of_nat k) (rem - 0)); lia.
Qed.

Lemma msum_zget_insert m (addr : string) v :
  msum (fun _ x => x) (<[addr:=v]> m) = msum (fun _ x => x) m - zget 0 addr m + v.
Proof.
  unfold zget. destruct (m !! addr) as [x|] eqn:E; cbn.
  - by rewrite (msum_update _ _ _ x).
  - rewrite msum_insert by done. lia.
Qed.

(** The payouts of a successful loop. *)
Lemma payouts_spec slots f m rem hss m' rem' :
  is_u64 f -> is_u64 rem -> (forall a, is_u64 (zget 0 a m)) -> Forall (fun hs => is_u64 (ss_Cost hs)) hss ->
  ofold (add_payout slots f) (m, rem) hss = Ok (m', rem') ->
  (forall a, is_u64 (zget 0 a m')) /\ (forall a, zget 0 a m' = zget 0 a m + shares slots f rem hss a) /\
  msum (fun _ x => x) m' =
    msum (fun _ x => x) m + lsum ss_Cost hss + Z.of_nat (length hss) * f + (rem - rem') /\
  rem' = Z.max 0 (rem - Z.of_nat (length hss)) /\
  (forall a, is_Some (m' !! a) -> is_Some (m !! a) \/ a ∈ slots).
Proof.
  intros Hf. revert m rem. induction hss as [|hs hss IH]; intros m rem Hr Hm Hc.
  { cbn [ofold]. intros [=]; subst. split; [done|]. split; [intros a; unfold shares; cbn; lia|].
    cbn. unfold is_u64 in *. split; [lia|]. split; [lia|]. auto. }
  cbn [ofold]. apply Forall_cons in Hc as [Hc1 Hc]. intros ([m1 rem1] & Hstep & Hrest)%obind_Ok.
  apply add_payout_iff in Hstep as (addr & Ha & Hlt & -> & ->); [|done..].
  assert (is_u64 (rem - bonus rem)) as Hr1.
  { unfold is_u64, bonus in *. destruct (Z.ltb_spec 0 rem); lia. }
  specialize (Hm addr) as Hmx. assert (0 <= bonus rem) as Hb by (unfold bonus; destruct (0 <? rem); lia).
  assert (forall a, is_u64 (zget 0 a (<[addr := zget 0 addr m + ss_Cost hs + f + bonus rem]> m))) as Hm1.
  { intros a. destruct (decide (addr = a)) as [<-|Hne]; [|rewrite zget_insert_ne by done; apply Hm].
    rewrite zget_insert_eq. unfold is_u64 in *. lia. }
  destruct (IH _ _ Hr1 Hm1 Hc Hrest) as (Hm' & Hsh & Hsum & Hrem & Hdom).
  split; [done|]. split.
  { intros a. rewrite Hsh, shares_cons by (unfold is_u64 in Hr; lia). rewrite Ha.
    destruct (decide (addr = a)) as [<-|Hne].
    - rewrite zget_insert_eq, bool_decide_eq_true_2 by done. lia.
    - rewrite zget_insert_ne, bool_decide_eq_false_2 by (done || congruence). lia. }
  rewrite msum_zget_insert in Hsum. rewrite lsum_cons. cbn [length]. split; [lia|]. split.
  { unfold is_u64, bonus in *. destruct (Z.ltb_spec 0 rem); lia. }
  intros a Hs. apply Hdom in Hs as [Hs|?]; [|by right]. destruct (decide (addr = a)) as [<-|Hne].
  - right. unfold at_index in Ha. destruct (decide _); [|done]. by eapply list_elem_of_lookup_2.
  - rewrite lookup_insert_ne in Hs by done. by left.
Qed.

(** The loop succeeds when every slot exists and the total fits. *)
Lemma payouts_succeed slots f m rem hss :
  is_u64 f -> is_u64 rem -> (forall a x, m !! a = Some x -> 0 <= x) -> Forall (fun hs => is_u64 (ss_Cost hs)) hss ->
  Forall (fun hs => is_Some (at_index slots (ss_SlotId hs))) hss ->
  msum (fun _ x => x) m + lsum ss_Cost hss + Z.of_nat (length hss) * f + rem < 2 ^ 64 ->
  exists r, ofold (add_payout slots f) (m, rem) hss = Ok r.
Proof.
  intros Hf. revert m rem. induction hss as [|hs hss IH]; intros m rem Hr Hm Hc Hi Hsum; [by eexists|].
  apply Forall_cons in Hc as [Hc1 Hc]. apply Forall_cons in Hi as [[addr Ha] Hi]. rewrite lsum_cons in Hsum.
  cbn [length] in Hsum.
  assert (forall a, 0 <= zget 0 a m <= msum (fun _ x => x) m) as Hz.
  { intros a. unfold zget. pose proof (msum_nonneg (fun _ x => x) m Hm). destruct (m !! a) as [x|] eqn:E; cbn; [|lia].
    split; [by eapply Hm|]. by apply (msum_lookup_le (fun _ x => x) m a x). }
  assert (0 <= bonus rem <= rem) as Hb by (unfold bonus, is_u64 in *; destruct (Z.ltb_spec 0 rem); lia).
  assert (0 <= lsum ss_Cost hss).
  { apply lsum_nonneg. intros x Hx. rewrite Forall_forall in Hc. specialize (Hc _ Hx). unfold is_u64 in Hc. cbn in Hc. lia. }
  assert (0 <= Z.of_nat (length hss) * f) by (unfold is_u64 in Hf; nia). unfold is_u64 in *.
  assert (add_payout slots f (m, rem) hs =
          Ok (<[addr := zget 0 addr m + ss_Cost hs + f + bonus rem]> m, rem - bonus rem)) as Hstep.
  { apply add_payout_iff; unfold is_u64; [lia..| |exists addr; specialize (Hz addr); repeat split; try done; lia].
    intros a. specialize (Hz a). lia. }
  cbn [ofold]. rewrite Hstep. cbn [obind]. apply IH; unfold is_u64; [lia| |done|done|].
  - intros a x. specialize (Hz addr). destruct (decide (addr = a)) as [<-|Hne];
      [rewrite lookup_insert_eq; intros [= <-]; lia|rewrite lookup_insert_ne by done; apply Hm].
  - rewrite msum_zget_insert. lia.
Qed.

Lemma total_spec t l t' :
  is_u64 t -> Forall (fun p => is_u64 p.2) l -> ofold add_total t l = Ok t' -> t' = t + lsum snd l /\ is_u64 t'.
Proof.
  revert t. induction l as [|[a x] l IH]; intros t Ht Hl; cbn [ofold].
  - intros [= <-]. cbn. split; [lia|done].
  - apply Forall_cons in Hl as [Hx Hl]. cbn in Hx. intros (t1 & Hs & Hr)%obind_Ok. unfold add_total in Hs. cbn [snd] in Hs.
    destruct (Add64 t x) as [n carry] eqn:E. apply obind_Ok in Hs as ([] & Hc%ocheck_Ok & [= <-]).
    assert (t + x < 2 ^ 64) by (apply add64_check; [done..|by rewrite E]).
    rewrite Add64_ok in E by done. injection E as <- <-. rewrite lsum_cons. cbn [snd].
    apply IH in Hr as [-> ?]; [|unfold is_u64 in *; lia|done]. split; [lia|done].
Qed.

Lemma total_succeed t l :
  is_u64 t -> Forall (fun p => is_u64 p.2) l -> t + lsum snd l < 2 ^ 64 -> exists t', ofold add_total t l = Ok t'.
Proof.
  revert t. induction l as [|[a x] l IH]; intros t Ht Hl Hs; [by eexists|]. apply Forall_cons in Hl as [Hx Hl].
  rewrite lsum_cons in Hs. cbn [snd] in Hs, Hx.
  assert (0 <= lsum snd l).
  { apply lsum_nonneg. intros p Hp. rewrite Forall_forall in Hl. specialize (Hl _ Hp). unfold is_u64 in Hl. cbn in Hl. lia. }
  cbn [ofold]. unfold add_total at 1. cbn [snd]. rewrite Add64_ok by (done || lia). cbn [obind ocheck Z.eqb].
  apply IH; [unfold is_u64 in *; lia|done|lia].
Qed.

(* ------------------------------------------------------------------ *)
(** ** The loops of the settlement *)

Section Loops.
Context {W : Type} `{!AccAddressCodec} `{!ChainEnv W} `{!ChainEnvLaws W}.
Context `{!ParticipantStatusKeeper W} `{!ParticipantStatusLaws W}.
Abbreviation CS := (Chain W).
Implicit Types (c : CS) (v : SettleVars).

Lemma wp_world {A} (f : W -> W * outcome string A) (Q : CS -> outcome string A -> Prop) c :
  (forall w r, f (ch_World c) = (w, r) -> Q (set_World w c) r) -> wp (on_world f) Q c.
Proof. unfold wp, on_world. destruct (f (ch_World c)) as [w r]. auto. Qed.

Lemma set_World_twice w w' c : set_World w (set_World w' c) = set_World w c.
Proof. done. Qed.
Lemma set_World_id c : set_World (ch_World c) c = c.
Proof. by destruct c. Qed.

(** The part of the payouts that has been made. *)
Definition made (paid : gset string) (payouts : gmap string Z) : gmap string Z :=
  filter (fun p => p.1 ∈ paid) payouts.

Lemma msum_made (g : string -> Z -> Z) paid payouts a x :
  a ∉ paid -> payouts !! a = Some x ->
  msum g (made ({[a]} ∪ paid) payouts) = g a x + msum g (made paid payouts).
Proof.
  intros Hn Ha. assert (made ({[a]} ∪ paid) payouts = <[a := x]> (made paid payouts)) as ->.
  { apply map_eq. intros k. unfold made. destruct (decide (k = a)) as [->|Hne].
    - rewrite lookup_insert_eq. apply map_lookup_filter_Some. cbn. set_solver.
    - rewrite lookup_insert_ne by done. apply option_eq. intros y. rewrite !map_lookup_filter_Some. cbn. set_solver. }
  rewrite msum_insert; [done|]. apply map_lookup_filter_None. right. cbn. naive_solver.
Qed.

Lemma made_all (g : string -> Z -> Z) paid payouts :
  (forall a x, payouts !! a = Some x -> a ∈ paid \/ g a x = 0) ->
  msum g (made paid payouts) = msum g payouts.
Proof.
  induction payouts as [|a x m Hm IH] using map_ind; intros Hp; [done|].
  rewrite msum_insert by done. rewrite <-IH.
  2:{ intros k y Hk. apply Hp. rewrite lookup_insert_ne; [done|congruence]. }
  destruct (decide (a ∈ paid)) as [Hin|Hni].
  - replace (made paid (<[a:=x]> m)) with (<[a:=x]> (made paid m)).
    { apply msum_insert, map_lookup_filter_None. left. done. }
    unfold made. symmetry. by apply map_filter_insert_True.
  - destruct (Hp a x) as [?|Hz]; [by rewrite lookup_insert_eq|done|]. rewrite Hz, Z.add_0_l. unfold made.
    rewrite map_filter_insert_False by done. by rewrite delete_id.
Qed.

(** A payout to a balance that nothing was added to yet. *)
Lemma unsaved_credit c v a p p' cur :
  a ∉ sv_touched v -> sv_participants v !! a = Some p -> pp_CoinBalance p = stored_balance c a ->
  unsaved c (MkSettleVars (<[a := p']> (sv_participants v)) cur ({[a]} ∪ sv_touched v)) =
  unsaved c v + (pp_CoinBalance p' - pp_CoinBalance p).
Proof.
  intros Hn Hp Hb. unfold unsaved. cbn [sv_touched sv_participants].
  rewrite elements_union_singleton by done. rewrite lsum_cons, lookup_insert_eq. cbn [from_option].
  rewrite Hb, Z.add_comm. f_equal. apply lsum_ext. intros x Hx%elem_of_elements.
  by rewrite lookup_insert_ne by congruence.
Qed.

Lemma unsaved_same c v a p p' cur :
  vars_ok c v -> sv_participants v !! a = Some p -> pp_CoinBalance p' = pp_CoinBalance p ->
  unsaved c (MkSettleVars (<[a := p']> (sv_participants v)) cur ({[a]} ∪ sv_touched v)) = unsaved c v.
Proof.
  intros Hok Hp Hb. destruct (decide (a ∈ sv_touched v)) as [Hin|Hni].
  - unfold unsaved. cbn [sv_touched sv_participants]. replace ({[a]} ∪ sv_touched v) with (sv_touched v) by set_solver.
    apply lsum_ext. intros x Hx. destruct (decide (a = x)) as [<-|?]; [|by rewrite lookup_insert_ne].
    rewrite lookup_insert_eq, Hp. cbn. lia.
  - destruct (vo_loaded _ _ Hok a p Hp) as (_ & p0 & Hg & _ & _ & Heq). rewrite (unsaved_credit c v a p p'); [lia|done..|].
    unfold stored_balance. rewrite Hg. cbn. by apply Heq.
Qed.

(** Writing a participant back into the variables. *)
Lemma vars_ok_write c v a p p' :
  vars_ok c v -> sv_participants v !! a = Some p -> pp_Index p' = pp_Index p -> 0 <= pp_CoinBalance p' ->
  vars_ok c (MkSettleVars (<[a := p']> (sv_participants v)) (sv_current v) ({[a]} ∪ sv_touched v)).
Proof.
  intros [Hl Ht] Hp Hi Hb. split; cbn [sv_participants sv_touched].
  - intros x q. destruct (decide (a = x)) as [<-|Hne].
    + rewrite lookup_insert_eq. intros [= <-]. destruct (Hl a p Hp) as (Hc & p0 & ? & ? & _). split; [done|].
      exists p0. split; [done|]. split; [congruence|]. split; [done|]. set_solver.
    + rewrite lookup_insert_ne by done. intros Hx. destruct (Hl x q Hx) as (Hc & p0 & ? & ? & ? & He). split; [done|].
      exists p0. repeat split; try done. intros Hn. apply He. set_solver.
  - intros x. destruct (decide (a = x)) as [<-|Hne]; [rewrite lookup_insert_eq; eauto|].
    rewrite lookup_insert_ne by done. intros Hx. apply Ht. set_solver.
Qed.

(** The work counters of two copies of a participant agree. *)
Definition same_counters (p q : Participant) : Prop :=
  let s := ensureParticipantEpochStats p in
  let t := ensureParticipantEpochStats q in
  ce_MissedRequests t = ce_MissedRequests s /\ ce_InvalidatedInferences t = ce_InvalidatedInferences s /\
  ce_InferenceCount t = ce_InferenceCount s /\ ce_ValidatedInferences t = ce_ValidatedInferences s.

Lemma AddToCoinBalance_Ok p amount p' :
  0 <= amount -> 0 <= pp_CoinBalance p -> pp_CoinBalance p + amount < 2 ^ 63 -> AddToCoinBalance p amount = Ok p' ->
  pp_Index p' = pp_Index p /\ pp_CoinBalance p' = pp_CoinBalance p + amount /\ same_counters p p'.
Proof.
  intros Ha Hb Hs. unfold AddToCoinBalance. destruct (Z.ltb_spec MaxInt64 amount); [done|]. intros [= <-]. split; [done|].
  split; [|done]. unfold pp_set_stats, pp_set_balance. cbn [pp_CoinBalance]. unfold MaxInt64 in *.
  rewrite (i64_small amount) by (unfold is_i64; lia). rewrite i64_small; [done|]. unfold is_i64. lia.
Qed.

(** Whether a payout of [a] goes straight to account [b]. *)
Definition goes_to c (epoch : Z) (a : string) (b : AccAddress) : bool :=
  match ResolveClaimRecipientAddress c a epoch with Ok r => bool_decide (r = b) | Err _ => false end.

(** What of a payout [x] of [a] leaves the module: all of it, unless its recipient is
    the account of the module itself. *)
Definition leaves c (epoch : Z) (a : string) (x : Z) : Z :=
  match ResolveClaimRecipientAddress c a epoch with Ok r => outside r x | Err _ => x end.

Definition paid_directly v0 c (epoch : Z) (b : AccAddress) (a : string) (x : Z) : Z :=
  if zget false a (sv_current v0) then 0 else if goes_to c epoch a b then x else 0.

(** The state of the paying loop: what was made so far. *)
Record paying (c0 : CS) (v0 : SettleVars) (epoch : Z) (payouts : gmap string Z)
    (c : CS) (paid : gset string) (v : SettleVars) : Prop := {
  py_vars : vars_ok c0 v;
  py_current : sv_current v = sv_current v0;
  py_touched : sv_touched v ⊆ paid;
  py_rest : forall a, a ∉ sv_touched v -> sv_participants v !! a = sv_participants v0 !! a;
  py_credited : forall a p, sv_participants v !! a = Some p -> exists p0, sv_participants v0 !! a = Some p0 /\
    pp_CoinBalance p = pp_CoinBalance p0 +
      (if bool_decide (a ∈ paid) && zget false a (sv_current v0) then zget 0 a payouts else 0) /\
    same_counters p0 p;
  py_unsaved : unsaved c0 v = msum (fun a x => if zget false a (sv_current v0) then x else 0) (made paid payouts);
  py_world : exists w, c = set_World w c0 /\
    ModuleBalance w = ModuleBalance (ch_World c0) -
      msum (fun a x => if zget false a (sv_current v0) then 0 else leaves c0 epoch a x) (made paid payouts) /\
    (forall b, b <> ModuleAccount -> AccountBalance w b = AccountBalance (ch_World c0) b +
      msum (paid_directly v0 c0 epoch b) (made paid payouts))
}.

Lemma outside_bounds a x : 0 <= x -> 0 <= outside a x <= x.
Proof. unfold outside. case_bool_decide; lia. Qed.
Lemma leaves_bounds c epoch a x : 0 <= x -> 0 <= leaves c epoch a x <= x.
Proof. intros Hx. unfold leaves. destruct (ResolveClaimRecipientAddress _ _ _); [by apply outside_bounds|lia]. Qed.

Lemma leaves_zero c epoch a : leaves c epoch a 0 = 0.
Proof. pose proof (leaves_bounds c epoch a 0). lia. Qed.

(** The bank accepts payments to [r] that the module can make. *)
Definition accepts (r : AccAddress) : Prop :=
  forall w amt, 0 < amt <= ModuleBalance w -> exists w', SendCoinsFromModuleToAccount r amt w = (w', Ok tt).

Lemma send_wp (P : Prop) r amt c :
  0 < amt -> (P -> accepts r /\ amt <= ModuleBalance (ch_World c)) ->
  wp (on_world (SendCoinsFromModuleToAccount r amt))
    (ok_or P (fun c' _ => exists w, c' = set_World w c /\ ModuleBalance w = ModuleBalance (ch_World c) - outside r amt /\
       forall b, b <> ModuleAccount -> AccountBalance w b = AccountBalance (ch_World c) b + if bool_decide (b = r) then amt else 0)) c.
Proof.
  intros Ha HP. apply wp_world. intros w [[]|e] Hs; cbn.
  - apply send_out in Hs as (_ & ? & ?); [|lia]. eauto.
  - intros Hp. destruct (HP Hp) as [Hacc Hle]. destruct (Hacc (ch_World c) amt) as [w' Hw']; [lia|]. congruence.
Qed.

Lemma GetCoins_small x : 0 <= x < 2 ^ 63 -> GetCoins (i64 x) = Ok x.
Proof.
  intros Hx. rewrite i64_small by (unfold is_i64; lia). unfold GetCoins. by replace (x <? 0) with false by lia.
Qed.

Lemma payCoins_wp (P : Prop) r amt c :
  0 < amt < 2 ^ 63 -> (P -> accepts r /\ amt <= ModuleBalance (ch_World c)) ->
  wp (payCoinsDirectly amt r)
    (ok_or P (fun c' _ => exists w, c' = set_World w c /\ ModuleBalance w = ModuleBalance (ch_World c) - outside r amt /\
       forall b, b <> ModuleAccount -> AccountBalance w b = AccountBalance (ch_World c) b + if bool_decide (b = r) then amt else 0)) c.
Proof.
  intros Ha HP. unfold payCoinsDirectly. wp_step. wp_step; [|unfold MaxInt64 in *; boolify; lia].
  rewrite GetCoins_small by lia. wp_step. apply wp_from; [intros ? [= <-]|done]. apply send_wp; [lia|done].
Qed.

(** What the paying loop needs: amounts that the module has and that fit, and, to
    succeed, copies of the credited participants and recipients the bank accepts. *)
Record can_pay (P : Prop) (c0 : CS) (v0 : SettleVars) (epoch : Z) (payouts : gmap string Z) (slots : list string) : Prop := {
  cp_nonneg : forall a x, payouts !! a = Some x -> 0 <= x;
  cp_small : msum (fun _ x => x) payouts < 2 ^ 63;
  cp_funds : P -> msum (fun _ x => x) payouts <= ModuleBalance (ch_World c0);
  cp_balance : forall a p, sv_participants v0 !! a = Some p -> pp_CoinBalance p + zget 0 a payouts < 2 ^ 63;
  cp_loaded : P -> forall a, a ∈ slots -> is_Some (sv_participants v0 !! a);
  cp_recipient : P -> forall a, a ∈ slots -> zget false a (sv_current v0) = false ->
    exists r, ResolveClaimRecipientAddress c0 a epoch = Ok r /\ accepts r
}.

Lemma msum_sub (g h : string -> Z -> Z) payouts : msum (fun a x => g a x - h a x) payouts = msum g payouts - msum h payouts.
Proof.
  induction payouts as [|k v m Hm IH] using map_ind; [done|]. rewrite !msum_insert by done. lia.
Qed.

Lemma made_le (payouts : gmap string Z) paid :
  (forall a x, payouts !! a = Some x -> 0 <= x) ->
  0 <= msum (fun _ x => x) (made paid payouts) <= msum (fun _ x => x) payouts.
Proof.
  intros Hnn. split; [apply msum_nonneg; intros a x [? _]%map_lookup_filter_Some; by eapply Hnn|]. by apply msum_filter_le.
Qed.

(** One payout to an account. *)
Lemma pay_direct_wp P c0 v0 epoch payouts slots c paid v a x :
  can_pay P c0 v0 epoch payouts slots -> paying c0 v0 epoch payouts c paid v -> a ∈ slots -> a ∉ paid ->
  payouts !! a = Some x -> x <> 0 -> zget false a (sv_current v0) = false ->
  wp (let* c := get in
      let* recipient := from_outcome (ResolveClaimRecipientAddress c a epoch) in
      run* payCoinsDirectly x recipient in
      ret ({[a]} ∪ paid, v))
    (ok_or P (fun c' r => paying c0 v0 epoch payouts c' r.1 r.2 /\ r.1 = {[a]} ∪ paid)) c.
Proof.
  intros Hcp Hpy Hsl Hn Hx Hnz Hcur. destruct Hpy as [Hv Hc Ht Hr Hcr Hu (w & -> & Hm & Hb)].
  pose proof (cp_nonneg _ _ _ _ _ _ Hcp a x Hx) as Hx0. pose proof (cp_small _ _ _ _ _ _ Hcp) as Hsm.
  pose proof (made_le payouts ({[a]} ∪ paid) (cp_nonneg _ _ _ _ _ _ Hcp)) as Hle.
  rewrite (msum_made _ paid payouts a x) in Hle by done. cbn in Hle.
  pose proof (made_le payouts paid (cp_nonneg _ _ _ _ _ _ Hcp)) as Hle0.
  wp_step. wp_step. wp_step. apply wp_from.
  2:{ intros e He HP. destruct (cp_recipient _ _ _ _ _ _ Hcp HP a Hsl Hcur) as (r & Hres & _).
      unfold ResolveClaimRecipientAddress in *. cbn in He. congruence. }
  intros r Hres. change (ResolveClaimRecipientAddress c0 a epoch = Ok r) in Hres. wp_step.
  eapply wp_mono; [apply (payCoins_wp P)|].
  - lia.
  - intros HP. destruct (cp_recipient _ _ _ _ _ _ Hcp HP a Hsl Hcur) as (r' & Hres' & Hacc).
    rewrite Hres in Hres'. injection Hres' as <-. split; [done|]. cbn [ch_World set_World].
    pose proof (cp_funds _ _ _ _ _ _ Hcp HP). rewrite Hm.
    assert (msum (fun a x => if zget false a (sv_current v0) then 0 else leaves c0 epoch a x) (made paid payouts) <=
            msum (fun _ x => x) (made paid payouts)); [|lia].
    apply msum_le. intros k y [Hy _]%map_lookup_filter_Some. cbn.
    assert (0 <= y) as Hy0 by (by eapply cp_nonneg). destruct (zget false k _); [done|by apply leaves_bounds].
  - intros c' [[]|e]; [|done]. intros (w' & -> & Hm' & Hb'). wp_step. cbn. split; [|done].
    rewrite set_World_twice. split; [done|done|set_solver|done| | |].
    + intros k p Hp. destruct (Hcr k p Hp) as (p0 & Hp0 & -> & Hsc). exists p0. split; [done|]. split; [|done]. f_equal.
      destruct (decide (k = a)) as [->|Hne]; [by rewrite Hcur, !andb_false_r|].
      replace (bool_decide (k ∈ {[a]} ∪ paid)) with (bool_decide (k ∈ paid)); [done|]. apply bool_decide_ext. set_solver.
    + rewrite (msum_made _ paid payouts a x), Hcur, Hu by done. lia.
    + exists w'. split; [done|]. rewrite (msum_made _ paid payouts a x), Hcur by done. cbn in Hm', Hb'.
      split; [assert (leaves c0 epoch a x = outside r x) as -> by (unfold leaves; by rewrite Hres); lia|].
      intros b Hne. rewrite Hb', Hb, (msum_made _ paid payouts a x) by done.
      assert (paid_directly v0 c0 epoch b a x = if bool_decide (b = r) then x else 0) as ->; [|lia].
      unfold paid_directly, goes_to. rewrite Hcur, Hres. by rewrite (bool_decide_ext (b = r) (r = b)) by naive_solver.
Qed.

(** One payout to a coin balance. *)
Lemma pay_credit_wp P c0 v0 epoch payouts slots c paid v a x :
  can_pay P c0 v0 epoch payouts slots -> paying c0 v0 epoch payouts c paid v -> a ∈ slots -> a ∉ paid ->
  payouts !! a = Some x -> x <> 0 -> zget false a (sv_current v0) = true ->
  wp (let* participant := lift_option (sv_participants v !! a) "participant not found" in
      let* p' := from_outcome (AddToCoinBalance participant x) in
      ret ({[a]} ∪ paid, MkSettleVars (<[a := p']> (sv_participants v)) (sv_current v) ({[a]} ∪ sv_touched v)))
    (ok_or P (fun c' r => paying c0 v0 epoch payouts c' r.1 r.2 /\ r.1 = {[a]} ∪ paid)) c.
Proof.
  intros Hcp Hpy Hsl Hn Hx Hnz Hcur. destruct Hpy as [Hv Hc Ht Hr Hcr Hu (w & -> & Hm & Hb)].
  pose proof (cp_nonneg _ _ _ _ _ _ Hcp a x Hx) as Hx0. pose proof (cp_small _ _ _ _ _ _ Hcp) as Hsm.
  assert (x <= msum (fun _ x => x) payouts) as Hxm by (apply (msum_lookup_le (fun _ x => x) payouts a x); [apply Hcp|done]).
  wp_step. wp_step.
  2:{ intros HP. destruct (cp_loaded _ _ _ _ _ _ Hcp HP a Hsl) as [p0 Hp0]. rewrite Hr in Hopt by set_solver. congruence. }
  rename v1 into p, Hopt into Hp. assert (sv_participants v0 !! a = Some p) as Hp0 by (rewrite <-Hr; [done|set_solver]).
  pose proof (cp_balance _ _ _ _ _ _ Hcp a p Hp0) as Hbal. unfold zget in Hbal at 1. rewrite Hx in Hbal. cbn in Hbal.
  destruct (vo_loaded _ _ Hv a p Hp) as (_ & q0 & Hq0 & _ & Hpb & Heq).
  wp_step. apply wp_from.
  2:{ intros e He HP. unfold AddToCoinBalance in He. by destruct (Z.ltb_spec MaxInt64 x); [unfold MaxInt64 in *; lia|]. }
  intros p' (Hi & Hcb & Hsc)%AddToCoinBalance_Ok; [|lia..]. wp_step. cbn [fst snd]. split; [|done].
  assert (a ∉ sv_touched v) as Hnt by set_solver. split; cbn [fst snd sv_current sv_touched sv_participants].
  - apply (vars_ok_write c0 v a p p'); [done|done|done|lia].
  - done.
  - set_solver.
  - intros k Hk. rewrite lookup_insert_ne by set_solver. apply Hr. set_solver.
  - intros k p1. destruct (decide (a = k)) as [<-|Hne].
    + rewrite lookup_insert_eq. intros [= <-]. exists p. split; [done|]. split; [|done].
      rewrite Hcb, Hcur, bool_decide_eq_true_2 by set_solver. unfold zget. rewrite Hx. done.
    + rewrite lookup_insert_ne by done. intros Hk. destruct (Hcr k p1 Hk) as (p0 & ? & -> & ?). exists p0. split; [done|]. split; [|done]. f_equal.
      replace (bool_decide (k ∈ {[a]} ∪ paid)) with (bool_decide (k ∈ paid)); [done|]. apply bool_decide_ext. set_solver.
  - rewrite (unsaved_credit c0 v a p p'); [|done|done|].
    + rewrite (msum_made _ paid payouts a x), Hcur, Hu by done. lia.
    + unfold stored_balance. rewrite Hq0. by apply Heq.
  - exists w. split; [done|]. rewrite (msum_made _ paid payouts a x), Hcur by done. split; [lia|].
    intros b Hne. rewrite Hb, (msum_made _ paid payouts a x) by done. unfold paid_directly at 2. rewrite Hcur. lia.
Qed.

Lemma made_none (payouts : gmap string Z) : made ∅ payouts = ∅.
Proof. apply map_eq. intros k. rewrite lookup_empty. apply map_lookup_filter_None. right. cbn. set_solver. Qed.

(** The paying loop. *)
Lemma pay_loop_wp P c0 v0 epoch payouts slots :
  can_pay P c0 v0 epoch payouts slots -> vars_ok c0 v0 -> sv_touched v0 = ∅ ->
  wp (mfold (pay_validator epoch payouts) (∅, v0) slots)
    (ok_or P (fun c' r => paying c0 v0 epoch payouts c' r.1 r.2 /\
       forall a, a ∈ slots -> zget 0 a payouts <> 0 -> a ∈ r.1)) c0.
Proof.
  intros Hcp Hv0 Ht0.
  apply (wp_mfold _ (fun c r rest => rest ⊆ slots /\ paying c0 v0 epoch payouts c r.1 r.2 /\
     forall a, a ∈ slots -> zget 0 a payouts <> 0 -> a ∈ r.1 \/ a ∈ rest)).
  - split; [done|]. split; [|auto]. split; cbn [fst snd]; try done; rewrite ?made_none, ?msum_empty.
    + rewrite Ht0. done.
    + intros a p Hp. exists p. split; [done|]. split; [|done]. rewrite bool_decide_eq_false_2 by set_solver. cbn. lia.
    + unfold unsaved. by rewrite Ht0, elements_empty.
    + exists (ch_World c0). rewrite set_World_id. split; [done|]. rewrite ?made_none, ?msum_empty. split; [lia|].
      intros b. rewrite ?made_none, ?msum_empty. lia.
  - intros c [paid v] a rest (Hsub & Hpy & Hall). cbn [fst snd] in *. unfold pay_validator.
    destruct (orb _ _) eqn:Hskip.
    { wp_step. split; [set_solver|]. split; [done|]. intros k Hk Hnz. destruct (Hall k Hk Hnz) as [?|Hin]; [by left|].
      apply elem_of_cons in Hin as [->|?]; [|by right]. apply orb_true_iff in Hskip as [?|?]; boolify; [done|by left]. }
    boolify. assert (exists x, payouts !! a = Some x) as [x Hx].
    { unfold zget in *. destruct (payouts !! a); [eauto|done]. }
    assert (zget 0 a payouts = x) as Hzx by (unfold zget; by rewrite Hx). rewrite Hzx in *.
    rewrite (py_current _ _ _ _ _ _ _ Hpy).
    assert (a ∈ slots) as Hin by set_solver.
    eapply wp_mono; [destruct (zget false a (sv_current v0)) eqn:Hcur|].
    + rewrite <-(py_current _ _ _ _ _ _ _ Hpy). by eapply pay_credit_wp.
    + by eapply pay_direct_wp.
    + intros c' [[paid' v']|e]; cbn [ok_or fst snd]; [|done]. intros [Hpy' ->]. split; [set_solver|]. split; [done|].
      intros k Hk Hnz. destruct (Hall k Hk Hnz) as [?|[->|?]%elem_of_cons]; set_solver.
  - intros c [paid v] (_ & Hpy & Hall). cbn in *. split; [done|]. intros a Ha Hnz. destruct (Hall a Ha Hnz) as [?|?]; [done|].
    by apply not_elem_of_nil in H0.
Qed.

(** *** Loading *)

(** Whether a validator's payout is credited to its coin balance. *)
Definition is_current c (escrowEpoch currentEpoch : Z) (addr : string) : bool :=
  (escrowEpoch =? currentEpoch) &&
  match AccAddressFromBech32 addr with
  | Some a => bool_decide ((currentEpoch, a) ∈ ActiveParticipantsSet c) | None => false end.

(** The variables after loading [addrs]. *)
Record loaded c (escrowEpoch currentEpoch : Z) (addrs : list string) v : Prop := {
  ld_vars : vars_ok c v;
  ld_touched : sv_touched v = ∅;
  ld_participant : forall a, a ∈ addrs -> is_Some (sv_participants v !! a) /\ sv_participants v !! a = GetParticipant c a;
  ld_current : forall a, a ∈ addrs -> zget false a (sv_current v) = is_current c escrowEpoch currentEpoch a;
  ld_only : forall a, is_Some (sv_participants v !! a) -> a ∈ addrs
}.

Lemma loaded_add c eE eC done_ v a p :
  loaded c eE eC done_ v -> canonical a -> GetParticipant c a = Some p -> 0 <= pp_CoinBalance p ->
  loaded c eE eC (a :: done_)
    (MkSettleVars (<[a := p]> (sv_participants v)) (<[a := is_current c eE eC a]> (sv_current v)) (sv_touched v)).
Proof.
  intros [[Hv1 Hv2] Ht Hp Hc Ho] Hcan Hg Hb. split; cbn [sv_participants sv_current sv_touched].
  - split; cbn [sv_participants sv_touched]; [|rewrite Ht; set_solver]. intros x q.
    destruct (decide (a = x)) as [<-|Hne]; [rewrite lookup_insert_eq; intros [= <-]; eauto 10|].
    rewrite lookup_insert_ne by done. apply Hv1.
  - done.
  - intros x. destruct (decide (a = x)) as [<-|Hne]; [rewrite lookup_insert_eq; eauto|].
    rewrite lookup_insert_ne by done. intros [?|?]%elem_of_cons; [done|]. by apply Hp.
  - intros x. destruct (decide (a = x)) as [<-|Hne]; [by rewrite zget_insert_eq|]. rewrite zget_insert_ne by done.
    intros [?|?]%elem_of_cons; [done|]. by apply Hc.
  - intros x. destruct (decide (a = x)) as [<-|Hne]; [constructor|]. rewrite lookup_insert_ne by done. intros ?.
    constructor. by apply Ho.
Qed.

Lemma loaded_none c eE eC : loaded c eE eC [] (MkSettleVars ∅ ∅ ∅).
Proof.
  split; [split|done|..]; cbn [sv_participants sv_current sv_touched].
  - intros x p Hf. by rewrite lookup_empty in Hf.
  - set_solver.
  - intros x Hx. by apply not_elem_of_nil in Hx.
  - intros x Hx. by apply not_elem_of_nil in Hx.
  - intros x [? Hf]. by rewrite lookup_empty in Hf.
Qed.

Lemma loaded_perm c eE eC l l' v : l ≡ₚ l' -> loaded c eE eC l v -> loaded c eE eC l' v.
Proof.
  intros Hl [Hv Ht Hp Hc Ho]. split; [done|done|intros a; rewrite <-Hl; apply Hp|intros a; rewrite <-Hl; apply Hc|].
  intros a Ha. rewrite <-Hl. by apply Ho.
Qed.

Lemma load_loop_wp P c eE eC addrs :
  chain_ok c -> Forall canonical addrs -> (P -> forall a, a ∈ addrs -> is_Some (GetParticipant c a)) ->
  wp (mfold (load_participant eE eC) (MkSettleVars ∅ ∅ ∅) addrs)
    (ok_or P (fun c' v => c' = c /\ loaded c eE eC addrs v)) c.
Proof.
  intros Hok Hcan HP.
  apply (wp_mfold _ (fun c' v rest => c' = c /\ rest ⊆ addrs /\ exists pre, pre ++ rest ≡ₚ addrs /\ loaded c eE eC pre v)).
  - split; [done|]. split; [done|]. exists []. split; [done|]. apply loaded_none.
  - intros c' v a rest (-> & Hsub & pre & Hperm & Hld). unfold load_participant. wp_step. apply wp_reads. wp_step. wp_step.
    2:{ intros Hp. destruct (HP Hp a) as [p Hq]; [set_solver|congruence]. }
    rename v0 into p. assert (canonical a) as Hca by (rewrite Forall_forall in Hcan; apply Hcan; set_solver).
    assert (0 <= pp_CoinBalance p) as Hb.
    { unfold GetParticipant in Hopt. destruct (AccAddressFromBech32 a) as [b|]; [|done]. by apply (co_participant _ Hok) in Hopt as []. }
    assert (forall v', v' = MkSettleVars (<[a := p]> (sv_participants v)) (<[a := is_current c eE eC a]> (sv_current v)) (sv_touched v) ->
      c = c /\ rest ⊆ addrs /\ exists pre, pre ++ rest ≡ₚ addrs /\ loaded c eE eC pre v') as Hdone.
    { intros v' ->. split; [done|]. split; [set_solver|]. exists (a :: pre). split; [|by apply loaded_add].
      rewrite <-Hperm. apply Permutation_middle. }
    destruct Hca as (b & Hb1 & Hb2). unfold is_current in Hdone. rewrite Hb1 in Hdone.
    destruct (Z.eqb_spec eE eC) as [Heq|Hne]; cbn [negb andb] in *.
    + wp_step. wp_step; [|congruence]. wp_step. apply wp_reads. wp_step. apply Hdone.
      rewrite Hb1 in Hopt0. injection Hopt0 as <-. by rewrite andb_true_r.
    + wp_step. by apply Hdone.
  - intros c' v (-> & _ & pre & Hperm & Hld). cbn. split; [done|]. rewrite app_nil_r in Hperm. by eapply loaded_perm.
Qed.

(** *** Statistics *)

(** Room for one more entry in the statistics of an address. *)
Definition room c (epoch : Z) (a : AccAddress) (hss : list DevshardSettlementHostStats) (first : bool) : Prop :=
  let e := default (MkHostEpochStats (AccAddress_String a) epoch 0 0 0 0 0 0) (DevshardHostEpochStatsMap c !! (epoch, a)) in
  0 <= he_Missed e /\ he_Missed e + lsum ss_Missed hss < 2 ^ 32 /\
  0 <= he_Invalid e /\ he_Invalid e + lsum ss_Invalid hss < 2 ^ 32 /\
  0 <= he_Cost e /\ he_Cost e + lsum ss_Cost hss < 2 ^ 64 /\
  0 <= he_RequiredValidations e /\ he_RequiredValidations e + lsum ss_RequiredValidations hss < 2 ^ 32 /\
  0 <= he_CompletedValidations e /\ he_CompletedValidations e + lsum ss_CompletedValidations hss < 2 ^ 32 /\
  0 <= he_EscrowCount e /\ he_EscrowCount e + (if first then 1 else 0) < 2 ^ 32.

(** The values that an entry of the statistics can hold. *)
Definition entry_sized (hs : DevshardSettlementHostStats) : Prop :=
  stats_sized hs /\ is_u32 (ss_RequiredValidations hs) /\ is_u32 (ss_CompletedValidations hs).

Lemma lsum_sized (f : DevshardSettlementHostStats -> Z) hss :
  (forall hs, entry_sized hs -> 0 <= f hs) -> Forall entry_sized hss -> 0 <= lsum f hss.
Proof. intros Hf Hs. apply lsum_nonneg. intros hs Hin. rewrite Forall_forall in Hs. by apply Hf, Hs. Qed.

(** Updating the statistics of an address either fails for lack of room or adds the
    entry exactly. *)
Lemma epoch_stats_wp P c epoch a hs inc :
  entry_sized hs -> (P -> room c epoch a [hs] inc) ->
  wp (UpdateDevshardHostEpochStats epoch a hs inc)
    (ok_or P (fun c' _ => exists m, c' = set_HostEpochStats m c /\
       (forall k, k <> (epoch, a) -> m !! k = DevshardHostEpochStatsMap c !! k) /\
       (P -> forall hss first, Forall entry_sized hss -> room c epoch a (hs :: hss) first ->
             room (set_HostEpochStats m c) epoch a hss (first && negb inc)))) c.
Proof.
  intros [(H1 & H2 & H3 & H4) (H5 & H6)] HP. unfold UpdateDevshardHostEpochStats, room in *. wp_step. apply wp_reads.
  set (e := default _ _) in *. unfold is_u32, is_u64, MaxUint32 in *. cbn [lsum foldr] in HP.
  do 6 (wp_step; wp_step;
    [|intros Hp; specialize (HP Hp); boolify; rewrite ?u32_small, ?u64_small in * by (unfold is_u32, is_u64; lia);
      destruct inc; boolify; cbn in *; try discriminate; lia]).
  wp_step. unfold ok_or. eexists. split; [done|]. split; [intros k Hk; by rewrite lookup_insert_ne|].
  intros Hp hss first Hs Hr. specialize (HP Hp). cbn [DevshardHostEpochStatsMap set_HostEpochStats].
  rewrite lookup_insert_eq. rewrite !lsum_cons in Hr.
  cbn [from_option id he_Missed he_Invalid he_Cost he_RequiredValidations he_CompletedValidations he_EscrowCount].
  rewrite !u32_small, u64_small by (unfold is_u32, is_u64; destruct inc; lia).
  destruct inc, first; cbn [andb negb] in *; rewrite ?u32_small by (unfold is_u32; lia); lia.
Qed.

(** Room in a participant's counters for [n] more entries of at most [nonce] each. *)
Definition counters_room (nonce : Z) (n : nat) (p : Participant) : Prop :=
  let s := ensureParticipantEpochStats p in
  let r := Z.of_nat n * nonce in
  0 <= ce_MissedRequests s /\ ce_MissedRequests s + r < 2 ^ 64 /\
  0 <= ce_InvalidatedInferences s /\ ce_InvalidatedInferences s + r < 2 ^ 64 /\
  0 <= ce_InferenceCount s /\ ce_InferenceCount s + r < 2 ^ 64 /\
  0 <= ce_ValidatedInferences s /\ ce_ValidatedInferences s + r < 2 ^ 64.

Lemma Aggregate_frame p hs assigned p' :
  AggregateDevshardHostStatsIntoCurrentEpochStats p hs assigned = Ok p' ->
  pp_Index p' = pp_Index p /\ pp_CoinBalance p' = pp_CoinBalance p.
Proof.
  unfold AggregateDevshardHostStatsIntoCurrentEpochStats. cbn zeta. unfold Add64.
  do 6 (intros (_ & _ & Hk)%obind_Ok; revert Hk). intros [= <-]. done.
Qed.

(** The counters of a participant take an entry that respects its work bound: the
    four counters grow exactly. *)
Lemma Aggregate_Ok p hs assigned nonce n :
  0 <= assigned <= nonce -> nonce < 2 ^ 64 -> 0 <= ss_Missed hs -> 0 <= ss_Invalid hs -> ss_Missed hs + ss_Invalid hs <= assigned ->
  counters_room nonce (S n) p ->
  exists p', AggregateDevshardHostStatsIntoCurrentEpochStats p hs assigned = Ok p' /\ counters_room nonce n p'.
Proof.
  intros Ha Hn Hm Hi Hmi Hr. unfold counters_room in Hr. cbn zeta in Hr.
  assert (Z.of_nat (S n) * nonce = Z.of_nat n * nonce + nonce) as Hsn by lia. rewrite Hsn in Hr.
  assert (0 <= Z.of_nat n * nonce) by nia.
  unfold AggregateDevshardHostStatsIntoCurrentEpochStats. set (s := ensureParticipantEpochStats p) in *.
  replace (assigned <? ss_Missed hs) with false by lia. cbn [negb ocheck obind].
  rewrite (u64_small (assigned - ss_Missed hs)) by (unfold is_u64; lia).
  replace (assigned - ss_Missed hs <? ss_Invalid hs) with false by lia. cbn [negb ocheck obind].
  rewrite (u64_small (assigned - ss_Missed hs - ss_Invalid hs)) by (unfold is_u64; lia).
  rewrite !Add64_ok by (unfold is_u64; lia). cbn [negb ocheck obind Z.eqb].
  eexists. split; [done|]. unfold counters_room, ensureParticipantEpochStats. cbn. lia.
Qed.

Lemma counters_less nonce n p : 0 <= nonce -> counters_room nonce (S n) p -> counters_room nonce n p.
Proof. intros Hn. unfold counters_room. cbn zeta. nia. Qed.

Lemma room_weaken c epoch a hs hss (f f' : bool) :
  entry_sized hs -> Forall entry_sized hss -> (f' = true -> f = true) ->
  room c epoch a (hs :: hss) f -> room c epoch a hss f' /\ room c epoch a [hs] f'.
Proof.
  intros [(H1 & H2 & H3 & H4) (H5 & H6)] Hs Hf. unfold room. set (e := default _ _). cbn zeta.
  assert (forall g, (forall h, entry_sized h -> 0 <= g h) -> 0 <= lsum g hss) as Hnn by (intros; by apply lsum_sized).
  assert (0 <= lsum ss_Missed hss) by (apply Hnn; intros ? [(?&?&?&?) (?&?)]; unfold is_u32 in *; lia).
  assert (0 <= lsum ss_Invalid hss) by (apply Hnn; intros ? [(?&?&?&?) (?&?)]; unfold is_u32 in *; lia).
  assert (0 <= lsum ss_Cost hss) by (apply Hnn; intros ? [(?&?&?&?) (?&?)]; unfold is_u64 in *; lia).
  assert (0 <= lsum ss_RequiredValidations hss) by (apply Hnn; intros ? [(?&?&?&?) (?&?)]; unfold is_u32 in *; lia).
  assert (0 <= lsum ss_CompletedValidations hss) by (apply Hnn; intros ? [(?&?&?&?) (?&?)]; unfold is_u32 in *; lia).
  clear Hnn. rewrite !lsum_cons. unfold is_u32, is_u64 in *. cbn [lsum foldr].
  destruct f, f'; try (specialize (Hf eq_refl); discriminate); lia.
Qed.

(** What the statistics loop needs in order to succeed. *)
Record can_record (P : Prop) c escrow (nonce : Z) v (seen : gset string) (hss : list DevshardSettlementHostStats) : Prop := {
  cr_sized : Forall entry_sized hss;
  cr_canonical : Forall canonical (de_Slots escrow);
  cr_nonce : 0 <= nonce < 2 ^ 64;
  cr_slots : 0 < Z.of_nat (length (de_Slots escrow)) < 2 ^ 63;
  cr_stats : P -> Forall (stats_ok nonce (Z.of_nat (length (de_Slots escrow)))) hss;
  cr_room : P -> forall addr a, addr ∈ de_Slots escrow -> AccAddressFromBech32 addr = Some a ->
    room c (de_EpochIndex escrow) a hss (negb (bool_decide (addr ∈ seen)));
  cr_loaded : P -> forall addr, addr ∈ de_Slots escrow -> is_Some (sv_participants v !! addr);
  cr_counters : P -> forall addr p, sv_participants v !! addr = Some p -> counters_room nonce (length hss) p
}.

(** What it leaves: the same balances, to be saved for more participants. *)
Record recording (c1 : CS) (v1 : SettleVars) (c : CS) (v : SettleVars) : Prop := {
  rc_chain : exists m, c = set_HostEpochStats m c1;
  rc_vars : vars_ok c1 v;
  rc_current : sv_current v = sv_current v1;
  rc_unsaved : unsaved c1 v = unsaved c1 v1;
  rc_balance : forall a, pp_CoinBalance <$> sv_participants v !! a = pp_CoinBalance <$> sv_participants v1 !! a
}.

Lemma at_index_elem {A} (l : list A) i x : at_index l i = Some x -> x ∈ l.
Proof. unfold at_index. destruct (decide _); [|done]. apply list_elem_of_lookup_2. Qed.

Lemma at_index_valid {A} (l : list A) i : 0 <= i < Z.of_nat (length l) -> is_Some (at_index l i).
Proof. intros Hi. unfold at_index. rewrite decide_True by lia. apply lookup_lt_is_Some. lia. Qed.

Lemma assigned_to_le nonce n s : 0 <= nonce -> 0 <= assigned_to nonce n s <= nonce.
Proof.
  intros Hn. unfold assigned_to. pose proof (length_filter (fun id => id mod n = s) (seqZ 1 nonce)) as Hl.
  rewrite length_seqZ in Hl. lia.
Qed.

(** After an entry of [addr] the conditions hold for the rest. *)
Lemma can_record_next P c escrow nonce v seen hs hss addr a m v' :
  can_record P c escrow nonce v seen (hs :: hss) ->
  at_index (de_Slots escrow) (ss_SlotId hs) = Some addr -> AccAddressFromBech32 addr = Some a ->
  (forall k, k <> (de_EpochIndex escrow, a) -> m !! k = DevshardHostEpochStatsMap c !! k) ->
  (P -> forall l first, Forall entry_sized l -> room c (de_EpochIndex escrow) a (hs :: l) first ->
     room (set_HostEpochStats m c) (de_EpochIndex escrow) a l (first && negb (negb (bool_decide (addr ∈ seen))))) ->
  (P -> forall x p, sv_participants v' !! x = Some p -> counters_room nonce (length hss) p) ->
  (forall x, is_Some (sv_participants v !! x) -> is_Some (sv_participants v' !! x)) ->
  can_record P (set_HostEpochStats m c) escrow nonce v' ({[addr]} ∪ seen) hss.
Proof.
  intros [Hsz Hcan Hn Hsl Hst Hroom Hld Hct] Hi Ha Hm Hnext Hcnt Hdom. apply Forall_cons in Hsz as [Hs1 Hsz].
  split; try done.
  - intros HP. specialize (Hst HP). by apply Forall_cons in Hst as [_ ?].
  - intros HP x b Hx Hb. rewrite Forall_forall in Hcan. pose proof (at_index_elem _ _ _ Hi) as Hin.
    specialize (Hroom HP x b Hx Hb). destruct (decide (x = addr)) as [->|Hne].
    + rewrite Ha in Hb. injection Hb as <-. rewrite bool_decide_eq_true_2 by set_solver. cbn [negb].
      destruct (bool_decide (addr ∈ seen)) eqn:E; cbn [negb] in *.
      * apply (Hnext HP hss false Hsz) in Hroom. by rewrite ?andb_false_l in Hroom.
      * apply (Hnext HP hss true Hsz) in Hroom. done.
    + replace (bool_decide (x ∈ {[addr]} ∪ seen)) with (bool_decide (x ∈ seen)) by (apply bool_decide_ext; set_solver).
      destruct (room_weaken c (de_EpochIndex escrow) b hs hss _ (negb (bool_decide (x ∈ seen))) Hs1 Hsz (fun H => H) Hroom) as [Hw _].
      unfold room in *. cbn [DevshardHostEpochStatsMap set_HostEpochStats]. rewrite Hm; [done|].
      intros [= ->]. apply Hne. eapply canonical_inj; [by apply Hcan|by apply Hcan|done|done].
  - intros HP x Hx. apply Hdom. by apply Hld.
Qed.

Lemma record_step_wp P c1 v1 escrow nonce c seen v hs hss :
  recording c1 v1 c v -> can_record P c escrow nonce v seen (hs :: hss) ->
  wp (record_stats escrow nonce (Z.of_nat (length (de_Slots escrow))) (seen, v) hs)
    (ok_or P (fun c' r => recording c1 v1 c' r.2 /\ can_record P c' escrow nonce r.2 r.1 hss)) c.
Proof.
  intros Hrc Hcr. pose proof Hcr as [Hsz Hcan Hn Hsl Hst Hroom Hld Hct]. apply Forall_cons in Hsz as [Hs1 Hsz].
  assert (P -> stats_ok nonce (Z.of_nat (length (de_Slots escrow))) hs) as Hst1.
  { intros HP. specialize (Hst HP). by apply Forall_cons in Hst as [? _]. }
  unfold record_stats. wp_step. wp_step.
  2:{ intros HP. destruct (Hst1 HP) as [Hlt _]. destruct Hs1 as [(Hss & _) _].
      destruct (at_index_valid (de_Slots escrow) (ss_SlotId hs)) as [? Hv]; [unfold is_u32 in Hss; lia|congruence]. }
  rename v0 into addr, Hopt into Hi. pose proof (at_index_elem _ _ _ Hi) as Hin.
  assert (canonical addr) as (a & Ha & _) by (rewrite Forall_forall in Hcan; by apply Hcan).
  wp_step. wp_step; [|congruence]. rewrite Ha in Hopt. injection Hopt as <-. wp_step.
  eapply wp_mono; [apply (epoch_stats_wp P); [done|]|].
  { intros HP. specialize (Hroom HP addr a Hin Ha).
    by destruct (room_weaken c _ a hs hss _ (negb (bool_decide (addr ∈ seen))) Hs1 Hsz (fun H => H) Hroom) as [_ ?]. }
  intros c' [[]|e]; [|done]. intros (m & -> & Hm & Hnext). destruct Hrc as [[m1 ->] Hv Hcur Hun Hbal].
  destruct (zget false addr (sv_current v)).
  - wp_step. wp_step; [|intros HP; destruct (Hld HP addr Hin); congruence]. rename v0 into p, Hopt into Hp.
    destruct (vo_loaded _ _ Hv addr p Hp) as (_ & _ & _ & _ & Hpb & _).
    assert (P -> 0 <= ss_SlotId hs < Z.of_nat (length (de_Slots escrow)) /\ 0 <= ss_Missed hs /\ 0 <= ss_Invalid hs /\
      ss_Missed hs + ss_Invalid hs <= assigned_to nonce (Z.of_nat (length (de_Slots escrow))) (ss_SlotId hs)) as Hwork.
    { intros HP. destruct (Hst1 HP) as [Hlt Hw]. destruct Hs1 as [(Hss & Hms & Hiv & _) _]. unfold is_u32 in *. lia. }
    wp_step. apply wp_from.
    2:{ intros e He HP. rewrite assigned_bound in He; [done|done|by apply Hwork|lia]. }
    intros assigned Hasg.
    assert (P -> exists p', AggregateDevshardHostStatsIntoCurrentEpochStats p hs assigned = Ok p' /\
      counters_room nonce (length hss) p') as Hagg.
    { intros HP. destruct (Hwork HP) as (Hsl' & Hw). rewrite assigned_bound in Hasg by (done || lia). injection Hasg as <-.
      eapply Aggregate_Ok; [apply assigned_to_le; lia|lia|lia|lia|lia|]. by apply (Hct HP addr p). }
    wp_step. apply wp_from; [|intros e He HP; destruct (Hagg HP) as (? & ? & _); congruence].
    intros p' Hp'. pose proof (Aggregate_frame _ _ _ _ Hp') as [Hix Hcb]. wp_step. cbn [ok_or fst snd]. split.
    + split; cbn [sv_current].
      * by eexists.
      * apply (vars_ok_write c1 v addr p p'); [done|done|done|lia].
      * done.
      * rewrite (unsaved_same c1 v addr p p'); done.
      * intros x. cbn [sv_participants]. rewrite <-Hbal. destruct (decide (addr = x)) as [<-|Hne];
          [rewrite lookup_insert_eq, Hp; cbn; by rewrite Hcb|by rewrite lookup_insert_ne].
    + eapply can_record_next; [done..| |]; cbn [sv_participants].
      * intros HP x q. destruct (decide (addr = x)) as [<-|Hne].
        -- rewrite lookup_insert_eq. intros [= <-]. destruct (Hagg HP) as (q & Hq & Hr). rewrite Hp' in Hq. by injection Hq as <-.
        -- rewrite lookup_insert_ne by done. intros Hx. apply counters_less; [lia|by apply (Hct HP x)].
      * intros x Hx. destruct (decide (addr = x)) as [<-|Hne]; [rewrite lookup_insert_eq; eauto|by rewrite lookup_insert_ne].
  - wp_step. cbn [ok_or fst snd]. split; [split; [by eexists|done..]|].
    eapply can_record_next; [done..| |done]. intros HP x q Hx. apply counters_less; [lia|by apply (Hct HP x)].
Qed.

(** The statistics loop. *)
Lemma record_loop_wp P c v escrow nonce hss :
  vars_ok c v -> can_record P c escrow nonce v ∅ hss ->
  wp (mfold (record_stats escrow nonce (Z.of_nat (length (de_Slots escrow)))) (∅, v) hss)
    (ok_or P (fun c' r => recording c v c' r.2)) c.
Proof.
  intros Hv Hcr.
  apply (wp_mfold _ (fun c' r rest => recording c v c' r.2 /\ can_record P c' escrow nonce r.2 r.1 rest)).
  - split; [|done]. split; [|done..]. exists (DevshardHostEpochStatsMap c). by destruct c.
  - intros c' [seen v'] hs rest [Hr Hc]. eapply wp_mono; [by apply (record_step_wp P c v)|].
    intros c'' [[]|e]; cbn; [tauto|done].
  - intros c' [seen v'] [Hr _]. done.
Qed.

(** *** Saving *)

Definition var_balance v (addr : string) : Z := from_option pp_CoinBalance 0 (sv_participants v !! addr).

(** Stored participants have statistics, and while they do the status of every
    participant can be updated. *)
Definition stats_present c : Prop := forall a p, Participants c !! a = Some p -> is_Some (pp_CurrentEpochStats p).
Definition status_ready c : Prop :=
  stats_present c /\ forall p (c' : CS), ch_Params c' = ch_Params c -> stats_present c' ->
    exists c'' p', UpdateParticipantStatus p c' = (c'', Ok p').

(** The store after the participants [addrs] were saved. *)
Record saved c v (addrs : list string) c' : Prop := {
  sd_state : exists ps x w, c' = set_World w (set_Excluded x (set_Participants ps c)) /\ only_slashed (ch_World c) w;
  sd_dom : forall a, is_Some (Participants c !! a) -> is_Some (Participants c' !! a);
  sd_owed : owed c' = owed c + lsum (fun addr => var_balance v addr - stored_balance c addr) addrs;
  sd_balance : forall addr, canonical addr ->
    stored_balance c' addr = if bool_decide (addr ∈ addrs) then var_balance v addr else stored_balance c addr;
  sd_participant : participants_ok c';
  sd_stats : stats_present c -> stats_present c'
}.

Lemma save_step_wp (P : Prop) c v pre addr c' :
  vars_ok c v -> participants_ok c -> (P -> status_ready c) -> saved c v pre c' -> addr ∈ sv_touched v -> addr ∉ pre ->
  wp (save_participant v tt addr) (ok_or P (fun c'' _ => saved c v (addr :: pre) c'')) c'.
Proof.
  intros Hv Hpo HP [(ps & x & w & -> & Hsl) Hdom Hsum Hbal Hpart Hstats] Ht Hn. unfold save_participant, SetParticipant. wp_step. wp_step.
  2:{ destruct (vo_touched _ _ Hv addr Ht). congruence. }
  rename v0 into p, Hopt into Hp. destruct (vo_loaded _ _ Hv addr p Hp) as (Hcan & p0 & Hg & Hix & Hpb & _).
  pose proof Hcan as (a & Ha & Hs). unfold GetParticipant in Hg. rewrite Ha in Hg. cbn in Hg.
  destruct (Hdom a) as [q Hq]; [by eexists|]. destruct (Hpart a q Hq) as [Hqi _].
  wp_step. apply wp_run. intros c'' [p'|e] Hu.
  2:{ intros Hp'. destruct (HP Hp') as [Hsp Htot].
      destruct (Htot p (set_World w (set_Excluded x (set_Participants ps c)))) as (? & ? & ?); [done|by apply Hstats|congruence]. }
  apply status_frame in Hu as (Hpi & _ & Hpc & Hps & x' & w' & -> & Hsl'). cbn [ch_World set_World] in Hsl'.
  assert (AccAddressFromBech32 (pp_Index p') = Some a) as Hpa by (rewrite Hpi, Hix; by apply Hpo).
  wp_step. wp_step; [|congruence]. rewrite Hpa in Hopt. injection Hopt as <-.
  assert (forall y, canonical y -> stored_balance (set_World w' (set_Excluded x' (set_Participants (<[a:=p']> ps) c))) y =
    if bool_decide (y = addr) then pp_CoinBalance p else stored_balance (set_World w (set_Excluded x (set_Participants ps c))) y) as Hst.
  { intros y Hy. unfold stored_balance, GetParticipant. pose proof Hy as (b & Hb & _). rewrite Hb. cbn.
    destruct (decide (y = addr)) as [->|Hne].
    - rewrite Ha in Hb. injection Hb as <-. by rewrite bool_decide_eq_true_2, lookup_insert_eq by done.
    - rewrite bool_decide_eq_false_2, lookup_insert_ne; [done| |done]. intros ->. apply Hne. by eapply canonical_inj. }
  assert (var_balance v addr = pp_CoinBalance p) as Hvb by (unfold var_balance; by rewrite Hp).
  wp_step. unfold ok_or. cbn in Hq. split.
  - exists (<[a := p']> ps), x', w'. split; [done|]. by etransitivity.
  - cbn in *. intros b Hb. destruct (decide (a = b)) as [<-|]; [rewrite lookup_insert_eq; eauto|].
    rewrite lookup_insert_ne by done. by apply Hdom.
  - unfold owed in *. cbn [Participants set_World set_Excluded set_Participants] in Hsum |- *.
    rewrite (msum_update _ _ _ q), Hsum, lsum_cons, Hvb by done.
    specialize (Hbal addr Hcan). rewrite bool_decide_eq_false_2 in Hbal by done.
    unfold stored_balance at 1, GetParticipant in Hbal. rewrite Ha in Hbal. cbn in Hbal. rewrite Hq in Hbal. cbn in Hbal. lia.
  - intros y Hy. rewrite Hst by done. destruct (decide (y = addr)) as [->|Hne].
    + by rewrite !bool_decide_eq_true_2 by (done || constructor).
    + rewrite bool_decide_eq_false_2 by done. rewrite Hbal by done. apply (f_equal (fun b : bool => if b then _ else _)).
      apply bool_decide_ext. rewrite elem_of_cons. naive_solver.
  - intros b r. cbn. destruct (decide (a = b)) as [<-|]; [rewrite lookup_insert_eq; intros [= <-]; split; [done|lia]|].
    rewrite lookup_insert_ne by done. apply Hpart.
  - intros Hsp b r. cbn. destruct (decide (a = b)) as [<-|]; [by rewrite lookup_insert_eq; intros [= <-]|].
    rewrite lookup_insert_ne by done. by apply Hstats.
Qed.

Lemma save_loop_wp (P : Prop) c v addrs :
  vars_ok c v -> participants_ok c -> (P -> status_ready c) -> NoDup addrs -> (forall a, a ∈ addrs -> a ∈ sv_touched v) ->
  wp (mfold (save_participant v) tt addrs) (ok_or P (fun c' _ => exists l, l ≡ₚ addrs /\ saved c v l c')) c.
Proof.
  intros Hv Hpo HP Hnd Ht.
  apply (wp_mfold _ (fun c' _ rest => exists pre, pre ++ rest ≡ₚ addrs /\ saved c v pre c')).
  - exists []. split; [done|]. split; try done.
    + exists (Participants c), (ExcludedParticipantsMap c), (ch_World c). split; [by destruct c|done].
    + cbn. lia.
  - intros c' [] addr rest (pre & Hperm & Hsd).
    assert (addr ∉ pre) as Hn.
    { rewrite <-Hperm in Hnd. apply NoDup_app in Hnd as (_ & Hd & _). intros Hin. apply (Hd _ Hin). constructor. }
    eapply wp_mono; [apply (save_step_wp P c v pre); [done..| |done]|].
    + apply Ht. rewrite <-Hperm. set_solver.
    + intros c'' [[]|e]; cbn; [|done]. intros Hs. exists (addr :: pre). split; [|done]. rewrite <-Hperm. apply Permutation_middle.
  - intros c' [] (pre & Hperm & Hsd). rewrite app_nil_r in Hperm. cbn. eauto.
Qed.

End Loops.
