(* ===== verification/ChainEscrowSpec.v ===== *)
(** * What opening and settling an escrow do

    The theorems on the handlers of [ChainEscrow.v].  [settle_handler_wp] runs the loops of
    [SettleDevshardEscrow] one after the other: a success leaves the chain as
    [settled] says, and the conditions of [settle_ready] suffice for success. *)

From stdpp Require Import pretty sorting.
From S2P Require Import Prelude.
From S2P Require Import GoStd.
From S2P Require Import ChainSlots.
From S2P Require Import DevshardTypes.
From S2P Require Import DevshardHash.
From S2P Require Import DevshardMachine.
From S2P Require Import DevshardLedger.
From S2P Require Import DevshardRefine.
From S2P Require Import DevshardSession.
From S2P Require Import DevshardReach.
From S2P Require Import DevshardSettlement.
From S2P Require Import ChainSettlement.
From S2P Require Import ChainStore.
From S2P Require Import ChainState.
From S2P Require Import ChainEscrow.
Open Scope Z_scope.
Open Scope go_scope.

(** The validators of a group, each once. *)
Definition validators (slots : list string) : list string := elements (list_to_set slots : gset string).

(** All that the validators are due, and what the creator gets back. *)
Definition total_due (slots : list string) (msg : MsgSettleDevshardEscrow) : Z := lsum (due slots msg) (validators slots).
Definition refund (escrow : DevshardEscrow) (msg : MsgSettleDevshardEscrow) : Z :=
  de_Amount escrow - total_due (de_Slots escrow) msg.

Section Spec.
Context {W : Type} `{!AccAddressCodec} `{!ChainEnv W} `{!ParticipantStatusKeeper W}.
Context `{!ChainCodec} `{!Secp256k1}.
Abbreviation CS := (Chain W).
Implicit Types (c : CS) (escrow : DevshardEscrow) (msg : MsgSettleDevshardEscrow).

(** Whether the payout of [addr] for [escrow] is credited to its coin balance; the
    others are paid out at once. *)
Definition credited c escrow (addr : string) : bool :=
  is_current c (de_EpochIndex escrow) (default 0 (EffectiveEpochIndex c)) addr.

(** What account [b] receives from a settlement. *)
Definition receives c escrow msg (b : AccAddress) : Z :=
  lsum (fun a => if negb (credited c escrow a) && goes_to c (de_EpochIndex escrow) a b
                 then due (de_Slots escrow) msg a else 0) (validators (de_Slots escrow)) +
  (if bool_decide (AccAddressFromBech32 (de_Creator escrow) = Some b) then refund escrow msg else 0).

(** All that leaves the module at once, and what stays with it because its recipient is
    the module's own account: no one is owed that any more. *)
Definition refund_out escrow msg : Z :=
  match AccAddressFromBech32 (de_Creator escrow) with Some b => outside b (refund escrow msg) | None => refund escrow msg end.
Definition paid_out c escrow msg : Z :=
  lsum (fun a => if credited c escrow a then 0 else leaves c (de_EpochIndex escrow) a (due (de_Slots escrow) msg a))
    (validators (de_Slots escrow)) + refund_out escrow msg.
Definition stuck c escrow msg : Z :=
  lsum (fun a => if credited c escrow a then 0
                 else due (de_Slots escrow) msg a - leaves c (de_EpochIndex escrow) a (due (de_Slots escrow) msg a))
    (validators (de_Slots escrow)) + (refund escrow msg - refund_out escrow msg).

(** A settled escrow: the escrow is closed, every validator that is credited has its
    due on its coin balance, everyone else has it on the account of its recipient, the
    creator has the rest, and no other coins changed hands but those that the collateral
    module was slashed for validators whose status turned bad.  What is paid to the
    module's own account stays with it as surplus. *)
Record settled c escrow msg c' : Prop := {
  st_accepted : exists params, ch_Params c = Some (Some params) /\ accepted escrow msg params (Some (HasWarmKeyGrant c));
  st_epoch : exists cur, EffectiveEpochIndex c = Some cur /\ de_EpochIndex escrow <= cur <= u64 (de_EpochIndex escrow + 1);
  st_escrows : DevshardEscrows c' = <[ms_EscrowId msg := de_set_Settled true escrow]> (DevshardEscrows c);
  st_credit : forall addr, canonical addr ->
    stored_balance c' addr = stored_balance c addr + if credited c escrow addr then due (de_Slots escrow) msg addr else 0;
  st_paid : exists slashed, 0 <= slashed /\ forall b, b <> ModuleAccount ->
    AccountBalance (ch_World c') b = AccountBalance (ch_World c) b + receives c escrow msg b + slashed_at slashed b;
  st_module : ModuleBalance (ch_World c') = ModuleBalance (ch_World c) - paid_out c escrow msg;
  st_refund : 0 <= refund escrow msg;
  st_frame : DevshardEscrowCounter c' = DevshardEscrowCounter c /\ ClaimRecipients c' = ClaimRecipients c /\
    ClaimRecipientsByEpoch c' = ClaimRecipientsByEpoch c /\ ch_PruningState c' = ch_PruningState c;
  st_slack : slack c' = slack c + stuck c escrow msg;
  st_ok : chain_ok c'
}.

(** What the chain has to offer for a settlement to go through: a settler who may use
    escrows, an epoch in the settlement window, known validators that can be paid, and
    room in the counters. *)
Record chain_ready c escrow msg : Prop := {
  sr_permission : exists s, AccAddressFromBech32 (ms_Settler msg) = Some s /\ IsAllowedEscrowCreator c (AccAddress_String s) = true;
  sr_epoch : exists cur, EffectiveEpochIndex c = Some cur /\ de_EpochIndex escrow <= cur <= u64 (de_EpochIndex escrow + 1);
  sr_participants : forall a, a ∈ de_Slots escrow -> is_Some (GetParticipant c a);
  sr_recipients : forall a, a ∈ de_Slots escrow -> credited c escrow a = false ->
    exists r, ResolveClaimRecipientAddress c a (de_EpochIndex escrow) = Ok r /\ accepts r;
  sr_creator : forall b, AccAddressFromBech32 (de_Creator escrow) = Some b -> accepts b;
  sr_room : forall addr a, addr ∈ de_Slots escrow -> AccAddressFromBech32 addr = Some a ->
    room c (de_EpochIndex escrow) a (ms_HostStats msg) true;
  sr_counters : forall a p, a ∈ de_Slots escrow -> GetParticipant c a = Some p ->
    counters_room (ms_Nonce msg) (length (ms_HostStats msg)) p;
  sr_status : status_ready c
}.

(** What suffices for a settlement to go through. *)
Record settle_ready c escrow msg : Prop := {
  sr_chain :> chain_ready c escrow msg;
  sr_accepted : exists params, ch_Params c = Some (Some params) /\ accepted escrow msg params (Some (HasWarmKeyGrant c));
  sr_fees : ms_Fees msg mod Z.of_nat (length (de_Slots escrow)) <= Z.of_nat (length (ms_HostStats msg))
}.

End Spec.

(* ------------------------------------------------------------------ *)
(** ** The parts of a settlement *)

Lemma unique_fold (slots l : list string) :
  NoDup l ->
  let r := fold_left (fun l a => if bool_decide (a ∈ l) then l else l ++ [a]) slots l in
  NoDup r /\ forall a, a ∈ r <-> a ∈ l \/ a ∈ slots.
Proof.
  revert l. induction slots as [|x slots IH]; intros l Hl; cbn [fold_left].
  { split; [done|]. intros a. rewrite elem_of_nil. tauto. }
  destruct (bool_decide_reflect (x ∈ l)) as [Hin|Hni].
  - destruct (IH l Hl) as [? Hr]. split; [done|]. intros a. rewrite Hr, elem_of_cons. naive_solver.
  - destruct (IH (l ++ [x])) as [? Hr].
    { apply NoDup_app. split; [done|]. split; [|apply NoDup_singleton]. intros y Hy ->%list_elem_of_singleton. done. }
    split; [done|]. intros a. rewrite Hr, elem_of_app, list_elem_of_singleton, elem_of_cons. tauto.
Qed.

Lemma elem_first_seen slots a : a ∈ first_seen slots <-> a ∈ slots.
Proof. unfold first_seen. destruct (unique_fold slots [] (NoDup_nil_2)) as [_ ->]. rewrite elem_of_nil. tauto. Qed.

Lemma elem_unique_addrs slots a : a ∈ unique_addrs slots <-> a ∈ slots.
Proof. unfold unique_addrs, sort_strings. by rewrite (merge_sort_Permutation str_le), elem_first_seen. Qed.

Lemma elem_validators slots a : a ∈ validators slots <-> a ∈ slots.
Proof. unfold validators. by rewrite elem_of_elements, elem_of_list_to_set. Qed.

(** A sum over the payouts is a sum over the validators. *)
Lemma msum_validators (g : string -> Z -> Z) (m : gmap string Z) slots :
  (forall a, g a 0 = 0) -> (forall a, is_Some (m !! a) -> a ∈ slots) ->
  msum g m = lsum (fun a => g a (zget 0 a m)) (validators slots).
Proof.
  intros Hg Hd. unfold validators. assert (forall a, is_Some (m !! a) -> a ∈ (list_to_set slots : gset string)) as Hd'.
  { intros a Ha. apply elem_of_list_to_set. by apply Hd. }
  clear Hd. revert m Hd'. generalize (list_to_set slots : gset string) as X. intros X.
  induction X as [|x X Hx IH] using set_ind_L; intros m Hd.
  - rewrite elements_empty. assert (m = ∅) as ->; [|done]. apply map_empty. intros a. destruct (m !! a) as [y|] eqn:E; [|done].
    exfalso. specialize (Hd a). rewrite E in Hd. specialize (Hd (ex_intro _ y eq_refl)). set_solver.
  - rewrite elements_union_singleton, lsum_cons by done.
    assert (lsum (fun a => g a (zget 0 a m)) (elements X) = msum g (delete x m)) as ->.
    { rewrite IH.
      - apply lsum_ext. intros a Ha%elem_of_elements. unfold zget. by rewrite lookup_delete_ne by congruence.
      - intros a [y Hy]. apply lookup_delete_Some in Hy as [Hne Hy]. specialize (Hd a). rewrite Hy in Hd.
        specialize (Hd (ex_intro _ y eq_refl)). set_solver. }
    unfold zget. destruct (m !! x) as [y|] eqn:E; cbn [from_option id default].
    + rewrite (msum_delete _ _ _ y) by done. lia.
    + rewrite Hg, delete_id by done. lia.
Qed.

Lemma NoDup_bounded (l : list Z) n : NoDup l -> Forall (fun x => 0 <= x < n) l -> Z.of_nat (length l) <= Z.max 0 n.
Proof.
  intros Hnd Hb. assert (l ⊆+ seqZ 0 n) as Hs.
  { apply NoDup_submseteq; [done|]. intros x Hx. rewrite Forall_forall in Hb. apply elem_of_seqZ. specialize (Hb x Hx). lia. }
  apply submseteq_length in Hs. rewrite length_seqZ in Hs. lia.
Qed.

Lemma due_nonneg slots msg a : msg_sized msg -> 0 <= due slots msg a.
Proof.
  intros (_ & Hf & Hst). apply lsum_nonneg. intros [k hs] Hin%elem_of_zip_r. rewrite Forall_forall in Hst.
  destruct (Hst hs Hin) as (_ & _ & _ & Hc). destruct (bool_decide _); [|done]. unfold fee_share, is_u64 in *.
  assert (0 <= ms_Fees msg / Z.of_nat (length slots)).
  { destruct slots; [by rewrite Z.div_0_r|]. apply Z.div_pos; cbn; lia. }
  destruct (Z.of_nat k <? _); lia.
Qed.

Lemma due_not_slot slots msg a : a ∉ slots -> due slots msg a = 0.
Proof.
  intros Hn. unfold due. transitivity (lsum (fun _ => 0) (zip (seq 0 (length (ms_HostStats msg))) (ms_HostStats msg))).
  - apply lsum_ext. intros [k hs] _. rewrite bool_decide_eq_false_2; [done|]. intros Hi. by apply Hn, (at_index_elem _ _ _ Hi).
  - apply lsum_zero.
Qed.

(** The payouts that the handler computes are what the validators are due. *)
Lemma payouts_due slots msg m rem :
  msg_sized msg -> slots <> [] ->
  ofold (add_payout slots (ms_Fees msg / Z.of_nat (length slots)))
    (∅, ms_Fees msg mod Z.of_nat (length slots)) (ms_HostStats msg) = Ok (m, rem) ->
  (forall a, zget 0 a m = due slots msg a) /\ (forall a x, m !! a = Some x -> is_u64 x) /\
  (forall a, is_Some (m !! a) -> a ∈ slots) /\ msum (fun _ x => x) m = total_due slots msg /\
  rem = Z.max 0 (ms_Fees msg mod Z.of_nat (length slots) - Z.of_nat (length (ms_HostStats msg))) /\
  total_due slots msg = total_cost msg +
    Z.of_nat (length (ms_HostStats msg)) * (ms_Fees msg / Z.of_nat (length slots)) +
    (ms_Fees msg mod Z.of_nat (length slots) - rem).
Proof.
  intros (Hn & Hf & Hst) Hne Hp. assert (0 < Z.of_nat (length slots)) as Hpos by (destruct slots; [done|cbn; lia]).
  unfold is_u64 in Hf. pose proof (Z.mod_pos_bound (ms_Fees msg) _ Hpos) as Hmod.
  pose proof (Z.mod_le (ms_Fees msg) (Z.of_nat (length slots)) ltac:(lia) Hpos) as Hmle.
  assert (0 <= ms_Fees msg / Z.of_nat (length slots) <= ms_Fees msg) as Hdiv
    by (split; [apply Z.div_pos; lia|apply Z.div_le_upper_bound; nia]).
  apply payouts_spec in Hp as (Hu & Hsh & Hsum & Hrem & Hdom); unfold is_u64; [|lia|lia| |].
  2:{ intros a. unfold zget. rewrite lookup_empty. cbn. lia. }
  2:{ eapply Forall_impl; [done|]. cbn. intros hs (_ & _ & _ & ?). done. }
  assert (forall a, zget 0 a m = due slots msg a) as Hdue.
  { intros a. rewrite Hsh. unfold zget. rewrite lookup_empty. cbn [from_option default id].
    unfold shares, due, fee_share. rewrite Z.add_0_l. done. }
  assert (forall a, is_Some (m !! a) -> a ∈ slots) as Hdm.
  { intros a Ha. apply Hdom in Ha as [[x Hx]|?]; [by rewrite lookup_empty in Hx|done]. }
  assert (msum (fun _ x => x) m = total_due slots msg) as Htot.
  { rewrite (msum_validators (fun _ x => x) m slots) by done. apply lsum_ext. intros a _. apply Hdue. }
  split; [done|]. split; [|split; [done|]]; [|split; [done|]; split; [done|]].
  - intros a x Hx. specialize (Hu a). unfold zget in Hu. by rewrite Hx in Hu.
  - rewrite <-Htot, Hsum, msum_empty. unfold total_cost. lia.
Qed.

(** They never exceed the amount of an escrow whose settlement is accepted. *)
Lemma due_within_amount `{!ChainCodec} `{!Secp256k1} escrow msg params wk :
  msg_sized msg -> accepted escrow msg params wk ->
  Z.of_nat (length (ms_HostStats msg)) <= Z.of_nat (length (de_Slots escrow)) /\
  total_cost msg + Z.of_nat (length (ms_HostStats msg)) * (ms_Fees msg / Z.of_nat (length (de_Slots escrow))) +
    ms_Fees msg mod Z.of_nat (length (de_Slots escrow)) <= de_Amount escrow.
Proof.
  intros (_ & Hf & Hst) Hac. pose proof (ac_slots _ _ _ _ Hac) as Hne. pose proof (ac_debit _ _ _ _ Hac) as Hd.
  destruct (ac_stats _ _ _ _ Hac) as [Hnd Hok]. unfold is_u64 in Hf.
  assert (0 < Z.of_nat (length (de_Slots escrow))) as Hpos by (destruct (de_Slots escrow); [done|cbn; lia]).
  assert (Z.of_nat (length (ms_HostStats msg)) <= Z.of_nat (length (de_Slots escrow))) as Hlen.
  { rewrite <-(length_fmap ss_SlotId). rewrite <-(Z.max_r 0 (Z.of_nat (length (de_Slots escrow)))) by lia.
    apply NoDup_bounded; [done|]. apply Forall_fmap, Forall_forall. intros hs Hin.
    rewrite Forall_forall in Hst, Hok. destruct (Hst hs Hin) as [Hs _], (Hok hs Hin) as [Hl _]. unfold is_u32 in Hs. cbn. lia. }
  split; [done|]. pose proof (Z.div_mod (ms_Fees msg) (Z.of_nat (length (de_Slots escrow))) ltac:(lia)) as Hdm.
  assert (0 <= ms_Fees msg / Z.of_nat (length (de_Slots escrow))) by (apply Z.div_pos; lia). nia.
Qed.

Section Settlement.
Context {W : Type} `{!AccAddressCodec} `{!ChainEnv W} `{!ChainEnvLaws W}.
Context `{!ParticipantStatusKeeper W} `{!ParticipantStatusLaws W} `{!ChainCodec} `{!Secp256k1}.
Abbreviation CS := (Chain W).
Implicit Types (c : CS) (v : SettleVars).

(** The chain and the message of the settlement. *)
Record settling c (escrow : DevshardEscrow) (msg : MsgSettleDevshardEscrow) : Prop := {
  sl_ok : chain_ok c;
  sl_supply : ModuleBalance (ch_World c) < 2 ^ 63;
  sl_escrow : DevshardEscrows c !! ms_EscrowId msg = Some escrow;
  sl_sized : msg_sized msg;
  sl_entries : Forall entry_sized (ms_HostStats msg)
}.

(** The module has the amount of an open escrow besides what it owes. *)
Lemma escrow_funds c id escrow :
  chain_ok c -> DevshardEscrows c !! id = Some escrow -> de_Settled escrow = false ->
  0 <= de_Amount escrow <= ModuleBalance (ch_World c) /\
  (forall a p, GetParticipant c a = Some p -> pp_CoinBalance p + de_Amount escrow <= ModuleBalance (ch_World c)).
Proof.
  intros Hok He Hs. pose proof (co_solvent _ Hok) as Hslack. unfold slack in Hslack.
  assert (open_amount escrow <= locked c) as Hl.
  { apply (msum_lookup_le (fun _ e => open_amount e) _ id); [|done]. intros k e Hid.
    destruct (co_escrow _ Hok k e Hid) as (_ & Ha & _). unfold open_amount, is_u64 in *. destruct (de_Settled e); lia. }
  destruct (co_escrow _ Hok _ _ He) as (_ & Ha & _). unfold open_amount, is_u64 in *. rewrite Hs in Hl.
  assert (forall a p, Participants c !! a = Some p -> 0 <= pp_CoinBalance p <= owed c) as Hb.
  { intros a p Hp. split; [by apply (co_participant _ Hok a p)|].
    apply (msum_lookup_le (fun _ p => pp_CoinBalance p) _ a); [|done]. intros k q Hq. by apply (co_participant _ Hok k q). }
  assert (0 <= owed c) by (apply msum_nonneg; intros k q Hq; by apply (Hb k q)).
  split; [lia|]. intros a p Hp. unfold GetParticipant in Hp. destruct (AccAddressFromBech32 a) as [b|]; [|done].
  cbn in Hp. specialize (Hb b p Hp). lia.
Qed.

(** The account of the creator after the refund. *)
Lemma refund_wp (P : Prop) creator rem c :
  0 <= rem < 2 ^ 63 ->
  (P -> rem <= ModuleBalance (ch_World c) /\ exists b, AccAddressFromBech32 creator = Some b /\ accepts b) ->
  wp (refund_creator creator rem)
    (ok_or P (fun c' _ => exists w, c' = set_World w c /\
       ModuleBalance w = ModuleBalance (ch_World c) - from_option (fun b => outside b rem) rem (AccAddressFromBech32 creator) /\
       forall b, b <> ModuleAccount -> AccountBalance w b = AccountBalance (ch_World c) b +
         if bool_decide (AccAddressFromBech32 creator = Some b) then rem else 0)) c.
Proof.
  intros Hr HP. unfold refund_creator. destruct (Z.leb_spec rem 0) as [Hz|Hpos].
  { wp_step. cbn [ok_or]. exists (ch_World c). rewrite set_World_id. split; [done|]. assert (rem = 0) as -> by lia. split.
    - destruct (AccAddressFromBech32 creator); cbn; unfold outside; [destruct (bool_decide _)|]; lia.
    - intros b _. destruct (bool_decide _); lia. }
  wp_step. wp_step; [|unfold MaxInt64 in *; boolify; lia]. wp_step. wp_step.
  2:{ intros Hp. destruct (HP Hp) as (_ & b & ? & _). congruence. }
  rename v into a. rewrite GetCoins_small by lia. wp_step. apply wp_from; [intros ? [= <-]|done].
  eapply wp_mono; [apply (send_wp P); [lia|]|].
  - intros Hp. destruct (HP Hp) as (? & b & Hb & ?). rewrite Hb in Hopt. by injection Hopt as <-.
  - intros c' [[]|e]; [|done]. intros (w & -> & Hm & Hb). exists w. split; [done|]. split; [by rewrite Hopt|]. intros b Hne. rewrite Hb, Hopt by done.
    f_equal. apply (f_equal (fun t : bool => if t then _ else _)), bool_decide_ext. naive_solver.
Qed.

(** The chain and the handler's copies once all payouts are made. *)
Record disbursed c escrow msg c2 v : Prop := {
  db_vars : vars_ok c v;
  db_world : exists w, c2 = set_World w c /\ ModuleBalance w = ModuleBalance (ch_World c) - paid_out c escrow msg /\
    (forall b, b <> ModuleAccount -> AccountBalance w b = AccountBalance (ch_World c) b + receives c escrow msg b);
  db_unsaved : unsaved c v =
    lsum (fun a => if credited c escrow a then due (de_Slots escrow) msg a else 0) (validators (de_Slots escrow));
  db_balance : forall a p, sv_participants v !! a = Some p ->
    pp_CoinBalance p = stored_balance c a + if credited c escrow a then due (de_Slots escrow) msg a else 0;
  db_only : forall a, is_Some (sv_participants v !! a) <-> a ∈ de_Slots escrow;
  db_counters : forall a p, sv_participants v !! a = Some p -> exists p0, GetParticipant c a = Some p0 /\ same_counters p0 p
}.

Lemma disbursed_intro c escrow msg cur v0 m c1 paid v w2 :
  EffectiveEpochIndex c = Some cur ->
  loaded c (de_EpochIndex escrow) cur (unique_addrs (de_Slots escrow)) v0 ->
  (forall a, zget 0 a m = due (de_Slots escrow) msg a) -> (forall a, is_Some (m !! a) -> a ∈ de_Slots escrow) ->
  paying c v0 (de_EpochIndex escrow) m c1 paid v ->
  (forall a, a ∈ de_Slots escrow -> zget 0 a m <> 0 -> a ∈ paid) ->
  ModuleBalance w2 = ModuleBalance (ch_World c1) - refund_out escrow msg ->
  (forall b, b <> ModuleAccount -> AccountBalance w2 b = AccountBalance (ch_World c1) b +
     if bool_decide (AccAddressFromBech32 (de_Creator escrow) = Some b) then refund escrow msg else 0) ->
  disbursed c escrow msg (set_World w2 c1) v.
Proof.
  intros Hcur [Hv0 Ht0 Hp0 Hc0 Ho0] Hdue Hdom [Hv Hc Ht Hr Hcr Hu (w & -> & Hm & Hb)] Hall Hm2 Hb2.
  assert (forall a, a ∈ de_Slots escrow -> zget false a (sv_current v0) = credited c escrow a) as Hcd.
  { intros a Ha. rewrite Hc0 by (by apply elem_unique_addrs). unfold credited. by rewrite Hcur. }
  assert (forall g : string -> Z -> Z, (forall a, g a 0 = 0) -> msum g (made paid m) =
    lsum (fun a => g a (due (de_Slots escrow) msg a)) (validators (de_Slots escrow))) as Hsum.
  { intros g Hg. rewrite made_all.
    - rewrite (msum_validators g m (de_Slots escrow)) by done. apply lsum_ext. intros a _. by rewrite Hdue.
    - intros a x Hx. destruct (decide (x = 0)) as [->|Hnz]; [by right|]. left. apply Hall; [apply Hdom; eauto|].
      unfold zget. by rewrite Hx. }
  assert (forall a, is_Some (sv_participants v !! a) <-> a ∈ de_Slots escrow) as Honly.
  { intros a. split.
    - intros [p Hp]. destruct (Hcr a p Hp) as (p0 & Hp00 & _). apply elem_unique_addrs, Ho0. eauto.
    - intros Ha. destruct (decide (a ∈ sv_touched v)) as [Hin|Hni]; [by apply (vo_touched _ _ Hv)|].
      rewrite Hr by done. by apply Hp0, elem_unique_addrs. }
  split; [done| | | |done|].
  - exists w2. split; [done|]. cbn in Hm2, Hb2. unfold paid_out, receives. split.
    + rewrite Hm2, Hm, Hsum by (intros a; destruct (zget false a _); [done|]; by apply leaves_zero).
      rewrite (lsum_ext _ (fun a => if credited c escrow a then 0 else leaves c (de_EpochIndex escrow) a (due (de_Slots escrow) msg a))); [lia|].
      intros a Ha. rewrite elem_validators in Ha. by rewrite Hcd.
    + intros b Hne. rewrite Hb2, Hb by done. rewrite Hsum.
      2:{ intros a. unfold paid_directly. by destruct (zget false a _), (goes_to c (de_EpochIndex escrow) a b). }
      rewrite (lsum_ext _ (fun a => if negb (credited c escrow a) && goes_to c (de_EpochIndex escrow) a b
                 then due (de_Slots escrow) msg a else 0)); [lia|].
      intros a Ha. rewrite elem_validators in Ha. unfold paid_directly. rewrite Hcd by done.
      by destruct (credited c escrow a), (goes_to c (de_EpochIndex escrow) a b).
  - rewrite Hu, Hsum by (intros a; by destruct (zget false a _)). apply lsum_ext. intros a Ha.
    rewrite elem_validators in Ha. by rewrite Hcd.
  - intros a p Hp. assert (a ∈ de_Slots escrow) as Ha by (apply Honly; eauto).
    destruct (Hcr a p Hp) as (p0 & Hp00 & -> & _). rewrite Hcd, Hdue by done. unfold stored_balance.
    destruct (Hp0 a) as [_ Hg]; [by apply elem_unique_addrs|]. rewrite <-Hg, Hp00. cbn [from_option]. f_equal.
    destruct (credited c escrow a); [|by rewrite andb_false_r]. rewrite andb_true_r.
    destruct (bool_decide_reflect (a ∈ paid)) as [|Hni]; [done|]. rewrite <-Hdue.
    destruct (decide (zget 0 a m = 0)) as [->|Hnz]; [done|]. by destruct Hni; apply Hall.
  - intros a p Hp. assert (a ∈ de_Slots escrow) as Ha by (apply Honly; eauto).
    destruct (Hcr a p Hp) as (p0 & Hp00 & _ & Hsc). exists p0. split; [|done].
    destruct (Hp0 a) as [_ Hg]; [by apply elem_unique_addrs|]. by rewrite <-Hg.
Qed.

Lemma vars_ok_frame c c' v : Participants c' = Participants c -> vars_ok c v -> vars_ok c' v.
Proof.
  intros Hp [Hl Ht]. split; [|done]. intros a p Ha. destruct (Hl a p Ha) as (Hc & p0 & Hg & Hr). split; [done|].
  exists p0. split; [|done]. unfold GetParticipant in *. by rewrite Hp.
Qed.

(** Closing an escrow. *)
Lemma close_escrow c id escrow :
  DevshardEscrows c !! id = Some escrow -> de_Settled escrow = false ->
  locked (set_Escrows (<[id := de_set_Settled true escrow]> (DevshardEscrows c)) c) = locked c - de_Amount escrow.
Proof.
  intros He Hs. unfold locked. cbn [DevshardEscrows set_Escrows]. rewrite (msum_update _ _ _ escrow) by done.
  unfold open_amount at 2 3. rewrite Hs. cbn. lia.
Qed.

Lemma total_split c escrow msg :
  lsum (fun a => if credited c escrow a then due (de_Slots escrow) msg a else 0) (validators (de_Slots escrow)) +
  paid_out c escrow msg + stuck c escrow msg = de_Amount escrow.
Proof.
  unfold paid_out, stuck. enough (refund escrow msg + lsum (fun a => if credited c escrow a then due (de_Slots escrow) msg a else 0) (validators (de_Slots escrow)) +
    lsum (fun a => if credited c escrow a then 0 else leaves c (de_EpochIndex escrow) a (due (de_Slots escrow) msg a)) (validators (de_Slots escrow)) +
    lsum (fun a => if credited c escrow a then 0 else due (de_Slots escrow) msg a - leaves c (de_EpochIndex escrow) a (due (de_Slots escrow) msg a))
      (validators (de_Slots escrow)) = de_Amount escrow) by lia.
  unfold refund, total_due. induction (validators (de_Slots escrow)) as [|a l IH]; [cbn; lia|]. rewrite !lsum_cons.
  destruct (credited c escrow a); lia.
Qed.

(** The invariant when the participants are saved and the escrow is closed. *)
Lemma settled_chain_ok c escrow msg c4 ps x hm w :
  settling c escrow msg -> c4 = set_World w (set_Excluded x (set_Participants ps (set_HostEpochStats hm c))) -> participants_ok c4 ->
  slack c <= slack (set_Escrows (<[de_Id escrow := de_set_Settled true escrow]> (DevshardEscrows c)) c4) ->
  chain_ok (set_Escrows (<[de_Id escrow := de_set_Settled true escrow]> (DevshardEscrows c)) c4).
Proof.
  intros [Hok Hsup He Hsz Hes] -> Hp Hsl. destruct (co_escrow _ Hok _ _ He) as (Hid & Hrest). rewrite Hid in *.
  split; cbn [DevshardEscrows DevshardEscrowCounter DevshardEscrowsByEpoch set_Escrows set_World set_Excluded set_Participants set_HostEpochStats].
  - done.
  - intros id e. destruct (decide (ms_EscrowId msg = id)) as [<-|Hne].
    + rewrite lookup_insert_eq. intros [= <-]. done.
    + rewrite lookup_insert_ne by done. apply (co_escrow _ Hok).
  - intros id. destruct (decide (ms_EscrowId msg = id)) as [<-|Hne].
    + intros _. apply (co_counter _ Hok). eauto.
    + rewrite lookup_insert_ne by done. apply (co_counter _ Hok).
  - intros epoch id. rewrite (co_index _ Hok). destruct (decide (ms_EscrowId msg = id)) as [<-|Hne].
    + rewrite lookup_insert_eq, He. naive_solver.
    + by rewrite lookup_insert_ne.
  - etransitivity; [apply (co_solvent _ Hok)|exact Hsl].
Qed.

Lemma stuck_nonneg c escrow msg : msg_sized msg -> 0 <= refund escrow msg -> 0 <= stuck c escrow msg.
Proof.
  intros Hsz Hr. apply Z.add_nonneg_nonneg.
  - apply lsum_nonneg. intros a _. destruct (credited c escrow a); [done|].
    pose proof (leaves_bounds c (de_EpochIndex escrow) a _ (due_nonneg (de_Slots escrow) msg a Hsz)). lia.
  - unfold refund_out. destruct (AccAddressFromBech32 _) as [b|]; [|lia]. pose proof (outside_bounds b _ Hr). lia.
Qed.

Lemma paid_out_nonneg c escrow msg : msg_sized msg -> 0 <= refund escrow msg -> 0 <= paid_out c escrow msg.
Proof.
  intros Hsz Hr. apply Z.add_nonneg_nonneg.
  - apply lsum_nonneg. intros a _. destruct (credited c escrow a); [done|]. by apply leaves_bounds, due_nonneg.
  - unfold refund_out. destruct (AccAddressFromBech32 _) as [b|]; [|done]. by apply outside_bounds.
Qed.

Lemma settled_intro c escrow msg c2 v c3 v3 l c4 :
  settling c escrow msg ->
  (exists params, ch_Params c = Some (Some params) /\ accepted escrow msg params (Some (HasWarmKeyGrant c))) ->
  (exists cur, EffectiveEpochIndex c = Some cur /\ de_EpochIndex escrow <= cur <= u64 (de_EpochIndex escrow + 1)) ->
  0 <= refund escrow msg ->
  disbursed c escrow msg c2 v -> recording c2 v c3 v3 -> saved c3 v3 l c4 -> l ≡ₚ elements (sv_touched v3) ->
  settled c escrow msg (set_Escrows (<[de_Id escrow := de_set_Settled true escrow]> (DevshardEscrows c4)) c4).
Proof.
  intros Hset Hac Hep Href [Hv (w & -> & Hmb & Hab) Hun Hbal Honly _] [(hm & ->) Hv3 _ Hun3 Hb3]
    [(ps & x & w4 & -> & n & Hn & Hmb4 & Hab4) _ Howed Hsb Hpo _] Hl.
  cbn [ch_World set_World set_Participants set_HostEpochStats] in Hmb4, Hab4.
  assert (forall a, var_balance v3 a = var_balance v a) as Hvb.
  { intros a. specialize (Hb3 a). unfold var_balance. destruct (sv_participants v3 !! a), (sv_participants v !! a); cbn in *; congruence. }
  pose proof (total_split c escrow msg) as Htot. destruct Hac as (params & Hpar & Hac).
  pose proof (sl_escrow _ _ _ Hset) as He. destruct (co_escrow _ (sl_ok _ _ _ Hset) _ _ He) as (Hid & _).
  assert (lsum (fun a => var_balance v3 a - stored_balance c a) l =
    lsum (fun a => if credited c escrow a then due (de_Slots escrow) msg a else 0) (validators (de_Slots escrow))) as Hls
    by (rewrite Hl, <-Hun; exact Hun3).
  pose proof (eq_trans Howed (f_equal (Z.add (owed c)) Hls)) as Howed'. clear Howed Hls.
  assert (slack (set_Escrows (<[de_Id escrow := de_set_Settled true escrow]> (DevshardEscrows c))
            (set_World w4 (set_Excluded x (set_Participants ps (set_HostEpochStats hm (set_World w c)))))) = slack c + stuck c escrow msg) as Hslack.
  { unfold slack. rewrite Hid. pose proof (close_escrow c _ escrow He (ac_open _ _ _ _ Hac)) as Hlk.
    unfold locked, owed in *. cbn in Hlk, Howed' |- *. lia. }
  split; try done.
  - eauto.
  - by rewrite Hid.
  - intros a Ha. etransitivity; [apply (Hsb a Ha)|]. destruct (bool_decide_reflect (a ∈ l)) as [Hin|Hni].
    + rewrite Hl, elem_of_elements in Hin. destruct (vo_touched _ _ Hv3 a Hin) as [p3 Hp3].
      specialize (Hb3 a). rewrite Hp3 in Hb3. destruct (sv_participants v !! a) as [p|] eqn:Hp; [|done].
      unfold var_balance. rewrite Hp3. cbn in Hb3 |- *. injection Hb3 as ->. by apply Hbal.
    + destruct (decide (a ∈ de_Slots escrow)) as [Hsl|Hns].
      2:{ rewrite due_not_slot by done. destruct (credited c escrow a); symmetry; exact (Z.add_0_r (stored_balance c a)). }
      apply Honly in Hsl as [p Hp]. rewrite Hl, elem_of_elements in Hni.
      specialize (Hb3 a). rewrite Hp in Hb3. destruct (sv_participants v3 !! a) as [p3|] eqn:Hp3; [|done].
      destruct (vo_loaded _ _ Hv3 a p3 Hp3) as (_ & p0 & Hg & _ & _ & Heq). rewrite <-(Hbal a p Hp). cbn in Hb3.
      injection Hb3 as <-. rewrite (Heq Hni). unfold stored_balance. change (GetParticipant _ a) with (GetParticipant c a).
      change (GetParticipant _ a) with (GetParticipant c a) in Hg. by rewrite Hg.
  - exists n. split; [done|]. intros b Hb. cbn. by rewrite Hab4, Hab.
  - cbn. lia.
  - eapply (settled_chain_ok c escrow msg _ ps x hm w4); [done|done|done|].
    pose proof (stuck_nonneg c escrow msg (sl_sized _ _ _ Hset) Href). etransitivity; [|apply Z.eq_le_incl; symmetry; exact Hslack]. lia.
Qed.

(** From the payouts to the end: statistics, participants, escrow. *)
Lemma finish_wp P c escrow msg c2 v :
  settling c escrow msg ->
  (exists params, ch_Params c = Some (Some params) /\ accepted escrow msg params (Some (HasWarmKeyGrant c))) ->
  (exists cur, EffectiveEpochIndex c = Some cur /\ de_EpochIndex escrow <= cur <= u64 (de_EpochIndex escrow + 1)) ->
  0 <= refund escrow msg -> disbursed c escrow msg c2 v -> (P -> settle_ready c escrow msg) ->
  wp (let* recorded := mfold (record_stats escrow (ms_Nonce msg) (Z.of_nat (length (de_Slots escrow)))) (∅, v) (ms_HostStats msg) in
      run* mfold (save_participant recorded.2) tt (sort_strings (elements (sv_touched recorded.2))) in
      SetDevshardEscrow (de_set_Settled true escrow))
    (ok_or P (fun c' _ => settled c escrow msg c')) c2.
Proof.
  intros Hset Hac Hep Href Hdb HP. destruct (db_world _ _ _ _ _ Hdb) as (w & -> & _).
  pose proof Hset as [Hok Hsup He (Hn & Hf & Hst) Hes]. destruct (co_escrow _ Hok _ _ He) as (Hid & _ & Hcan & Hlen).
  assert (vars_ok (set_World w c) v) as Hv by (by apply (vars_ok_frame c), Hdb).
  wp_step. eapply wp_mono; [apply (record_loop_wp P); [done|]|].
  { destruct Hac as (params & _ & Hac). split; try done.
    - pose proof (ac_slots _ _ _ _ Hac). destruct (de_Slots escrow); [done|cbn in *; lia].
    - intros Hp. apply (ac_stats _ _ _ _ Hac).
    - intros Hp addr a Ha Hb. rewrite bool_decide_eq_false_2 by set_solver. by apply (sr_room _ _ _ (HP Hp) addr).
    - intros Hp addr Ha. by apply (db_only _ _ _ _ _ Hdb).
    - intros Hp addr p Hq. destruct (db_counters _ _ _ _ _ Hdb addr p Hq) as (p0 & Hg & Hsc).
      assert (addr ∈ de_Slots escrow) as Hin by (apply (db_only _ _ _ _ _ Hdb); eauto).
      pose proof (sr_counters _ _ _ (HP Hp) addr p0 Hin Hg) as Hr. unfold counters_room, same_counters in *. cbn zeta in *.
      destruct Hsc as (-> & -> & -> & ->). done. }
  intros c3 [[seen v3]|e]; [|done]. cbn [ok_or fst snd]. intros Hrec. pose proof Hrec as [(hm & ->) Hv3 _ _ _].
  set (l := sort_strings _). assert (l ≡ₚ elements (sv_touched v3)) as Hl by apply merge_sort_Permutation.
  wp_step. eapply wp_mono; [apply (save_loop_wp P)|].
  - by apply (vars_ok_frame (set_World w c)).
  - exact (co_participant _ Hok).
  - intros Hp. apply (HP Hp).
  - rewrite Hl. apply NoDup_elements.
  - intros a. rewrite Hl. by rewrite elem_of_elements.
  - intros c4 [[]|e]; [|done]. intros (l' & Hl' & Hsv). unfold SetDevshardEscrow. wp_step. cbn [ok_or].
    change (de_Id (de_set_Settled true escrow)) with (de_Id escrow). eapply settled_intro; [done..|]. by rewrite Hl'.
Qed.

Lemma permission_wp (P : Prop) c signer Q :
  (P -> exists s, AccAddressFromBech32 signer = Some s /\ IsAllowedEscrowCreator c (AccAddress_String s) = true) ->
  Q c tt -> wp (CheckPermission signer EscrowAllowListPermission) (ok_or P Q) c.
Proof.
  intros HP HQ. unfold wp, CheckPermission. destruct (AccAddressFromBech32 signer) as [a|]; cbn.
  - destruct (IsAllowedEscrowCreator c _) eqn:E; [done|]. intros Hp. destruct (HP Hp) as (s & [= <-] & ?). congruence.
  - intros Hp. by destruct (HP Hp) as (s & ? & _).
Qed.

(** The payouts of a settlement can be made. *)
Lemma payouts_can_pay (P : Prop) c escrow msg params cur v0 m :
  settling c escrow msg -> accepted escrow msg params (Some (HasWarmKeyGrant c)) -> EffectiveEpochIndex c = Some cur ->
  loaded c (de_EpochIndex escrow) cur (unique_addrs (de_Slots escrow)) v0 ->
  (forall a x, m !! a = Some x -> is_u64 x) -> msum (fun _ x => x) m <= de_Amount escrow -> (P -> settle_ready c escrow msg) ->
  can_pay P c v0 (de_EpochIndex escrow) m (de_Slots escrow).
Proof.
  intros Hset Hac Hcur [_ _ Hp0 Hc0 Ho0] Hm Hsum HP. destruct (escrow_funds _ _ _ (sl_ok _ _ _ Hset) (sl_escrow _ _ _ Hset) (ac_open _ _ _ _ Hac)) as [Ham Hbal].
  pose proof (sl_supply _ _ _ Hset) as Hsup. assert (forall a x, m !! a = Some x -> 0 <= x) as Hnn.
  { intros a x Hx. specialize (Hm a x Hx). unfold is_u64 in Hm. lia. }
  split; [done|lia|lia| | |].
  - intros a p Hp. assert (a ∈ unique_addrs (de_Slots escrow)) as Ha by (apply Ho0; eauto).
    destruct (Hp0 a Ha) as [_ Hg]. rewrite Hp in Hg. specialize (Hbal a p (eq_sym Hg)).
    assert (zget 0 a m <= msum (fun _ x => x) m); [|lia]. unfold zget. destruct (m !! a) as [x|] eqn:E; cbn.
    + by apply (msum_lookup_le (fun _ x => x) m a x).
    + by apply msum_nonneg.
  - intros Hp a Ha. by apply Hp0, elem_unique_addrs.
  - intros Hp a Ha Hc. apply (sr_recipients _ _ _ (HP Hp) a Ha). rewrite Hc0 in Hc by (by apply elem_unique_addrs).
    unfold credited. by rewrite Hcur.
Qed.

Lemma add_payouts_ready c escrow msg params :
  settling c escrow msg -> accepted escrow msg params (Some (HasWarmKeyGrant c)) ->
  exists r, ofold (add_payout (de_Slots escrow) (ms_Fees msg / Z.of_nat (length (de_Slots escrow))))
    (∅, ms_Fees msg mod Z.of_nat (length (de_Slots escrow))) (ms_HostStats msg) = Ok r.
Proof.
  intros Hset Hac. pose proof Hset as [Hok Hsup He Hsz Hes]. pose proof (ac_slots _ _ _ _ Hac) as Hne.
  destruct (due_within_amount _ _ _ _ Hsz Hac) as [Hlen Hdw]. destruct (co_escrow _ Hok _ _ He) as (_ & Ham & _).
  destruct Hsz as (_ & Hf & Hst). unfold is_u64 in Hf, Ham.
  assert (0 < Z.of_nat (length (de_Slots escrow))) as Hpos by (destruct (de_Slots escrow); [done|cbn; lia]).
  pose proof (Z.mod_pos_bound (ms_Fees msg) _ Hpos). pose proof (Z.mod_le (ms_Fees msg) _ ltac:(lia) Hpos).
  assert (0 <= ms_Fees msg / Z.of_nat (length (de_Slots escrow)) <= ms_Fees msg)
    by (split; [apply Z.div_pos; lia|apply Z.div_le_upper_bound; nia]).
  apply payouts_succeed; unfold is_u64; [lia|lia|by intros a x Hx; rewrite lookup_empty in Hx| | |].
  - eapply Forall_impl; [exact Hst|]. cbn. intros hs (_ & _ & _ & ?). done.
  - apply Forall_forall. intros hs Hin. destruct (ac_stats _ _ _ _ Hac) as [_ Hso]. rewrite Forall_forall in Hso, Hst.
    destruct (Hso hs Hin) as [Hlt _], (Hst hs Hin) as [Hs _]. apply at_index_valid. unfold is_u32 in Hs. lia.
  - rewrite msum_empty. unfold total_cost in *. lia.
Qed.

(** From the loaded participants on. *)
Lemma settle_tail_wp P c escrow msg params cur v0 :
  settling c escrow msg -> ch_Params c = Some (Some params) -> accepted escrow msg params (Some (HasWarmKeyGrant c)) ->
  EffectiveEpochIndex c = Some cur -> de_EpochIndex escrow <= cur <= u64 (de_EpochIndex escrow + 1) ->
  loaded c (de_EpochIndex escrow) cur (unique_addrs (de_Slots escrow)) v0 -> (P -> settle_ready c escrow msg) ->
  let slots := de_Slots escrow in
  let totalSlots := Z.of_nat (length slots) in
  wp (let* payouts := from_outcome (ofold (add_payout slots (ms_Fees msg / totalSlots))
                        (∅, ms_Fees msg mod totalSlots) (ms_HostStats msg)) in
      run* check (payouts.2 =? 0) "failed to allocate all remainder fees" in
      let* totalPayout := from_outcome (ofold add_total 0 (map_to_list payouts.1)) in
      run* check (negb (de_Amount escrow <? totalPayout)) "total payout exceeds escrow amount" in
      let* paid := mfold (pay_validator (de_EpochIndex escrow) payouts.1) (∅, v0) slots in
      run* refund_creator (de_Creator escrow) (u64 (de_Amount escrow - totalPayout)) in
      let* recorded := mfold (record_stats escrow (ms_Nonce msg) totalSlots) (∅, paid.2) (ms_HostStats msg) in
      run* mfold (save_participant recorded.2) tt (sort_strings (elements (sv_touched recorded.2))) in
      SetDevshardEscrow (de_set_Settled true escrow))
    (ok_or P (fun c' _ => settled c escrow msg c')) c.
Proof.
  intros Hset Hpar Hac Hcur Hep Hld HP. cbv zeta. pose proof Hset as [Hok Hsup He Hsz Hes].
  pose proof (ac_slots _ _ _ _ Hac) as Hne. destruct (due_within_amount _ _ _ _ Hsz Hac) as [Hlen Hdw].
  destruct (escrow_funds _ _ _ (sl_ok _ _ _ Hset) (sl_escrow _ _ _ Hset) (ac_open _ _ _ _ Hac)) as [Ham _].
  wp_step. apply wp_from; [|intros e Herr Hp; destruct (add_payouts_ready c escrow msg params) as [r Hr]; [done..|congruence]].
  intros [m rem] Hpay. destruct (payouts_due _ _ _ _ Hsz Hne Hpay) as (Hdue & Hu & Hdom & Hsum & Hrem & Htot). cbn [fst snd].
  wp_step. wp_step; [|intros Hp; pose proof (sr_fees _ _ _ (HP Hp)); boolify; lia].
  assert (rem = 0) as Hr0 by (boolify; lia). assert (0 <= refund escrow msg) as Href by (unfold refund; lia).
  assert (lsum snd (map_to_list m) = total_due (de_Slots escrow) msg) as Hls.
  { rewrite <-Hsum, msum_map_to_list. apply lsum_ext. by intros []. }
  assert (Forall (fun p : string * Z => is_u64 p.2) (map_to_list m)) as Hmu.
  { apply Forall_forall. intros [a x] Hx%elem_of_map_to_list. by apply (Hu a). }
  wp_step. apply wp_from.
  2:{ intros e Herr Hp. destruct (total_succeed 0 (map_to_list m)) as [t Ht]; [unfold is_u64; lia|done| |congruence].
      rewrite Hls. unfold refund in Href. lia. }
  intros total [-> _]%total_spec; [|unfold is_u64; lia|done]. rewrite Hls, Z.add_0_l.
  wp_step. wp_step; [|unfold refund in Href; boolify; lia].
  assert (can_pay P c v0 (de_EpochIndex escrow) m (de_Slots escrow)) as Hcp.
  { eapply payouts_can_pay; try done. unfold refund in Href. lia. }
  pose proof (msum_nonneg (fun _ x => x) m (cp_nonneg _ _ _ _ _ _ Hcp)) as Hnn. rewrite Hsum in Hnn.
  wp_step. eapply wp_mono; [apply (pay_loop_wp P); [done|apply Hld|apply Hld]|]. intros c1 [[paid v1]|e]; [|done].
  cbn [ok_or fst snd]. intros [Hpy Hall]. destruct (py_world _ _ _ _ _ _ _ Hpy) as (w1 & Hc1 & Hm1 & _).
  rewrite u64_small by (unfold is_u64, refund in *; lia).
  change (de_Amount escrow - total_due (de_Slots escrow) msg) with (refund escrow msg).
  wp_step. eapply wp_mono; [apply (refund_wp P)|].
  - unfold refund in *. lia.
  - intros Hp. split.
    + subst c1. cbn. rewrite Hm1.
      assert (msum (fun a x => if zget false a (sv_current v0) then 0 else leaves c (de_EpochIndex escrow) a x) (made paid m) <= msum (fun _ x => x) m).
      { etransitivity; [|apply (made_le m paid), Hcp]. apply msum_le. intros k y [Hk _]%map_lookup_filter_Some. cbn.
        assert (0 <= y) as Hy0 by (by eapply cp_nonneg). destruct (zget false k _); [done|by apply leaves_bounds]. }
      unfold refund in *. lia.
    + destruct (sr_permission _ _ _ (HP Hp)) as (s & Hs & _). rewrite (ac_settler _ _ _ _ Hac) in Hs.
      exists s. split; [done|]. by apply (sr_creator _ _ _ (HP Hp)).
  - intros c2 [[]|e]; [|done]. intros (w2 & -> & Hm2 & Hb2). eapply finish_wp; [done|eauto..|done| |done].
    by eapply (disbursed_intro c escrow msg cur v0 m).
Qed.

(** The checks of the handler, the loading and the computation of the payouts. *)
Lemma settle_handler_wp P c escrow msg :
  settling c escrow msg -> (P -> settle_ready c escrow msg) ->
  wp (SettleDevshardEscrow msg) (ok_or P (fun c' _ => settled c escrow msg c')) c.
Proof.
  intros Hset HP. pose proof Hset as [Hok Hsup He Hsz Hes]. destruct (co_escrow _ Hok _ _ He) as (Hid & Ham & Hcan & Hlen). assert (is_u64 (de_Amount escrow)) by (unfold is_u64; lia).
  unfold SettleDevshardEscrow. wp_step. eapply wp_mono; [apply (permission_wp P c _ (fun c' _ => c' = c)); [|done]|].
  { intros Hp. apply (HP Hp). }
  intros ? [[]|?]; [|done]. intros ->. wp_step. wp_step. wp_step. wp_step; [|congruence]. rewrite He in Hopt. injection Hopt as <-.
  wp_step. wp_step; [|intros Hp; destruct (sr_accepted _ _ _ (HP Hp)) as (? & ? & _); congruence].
  wp_step. wp_step; [|intros Hp; destruct (sr_accepted _ _ _ (HP Hp)) as (? & ? & _); congruence]. subst v. rename v0 into params.
  wp_step. apply wp_from.
  2:{ intros e Hv Hp. destruct (sr_accepted _ _ _ (HP Hp)) as (? & Hpar & Hac). rewrite Hpar in Hopt. injection Hopt as ->.
      apply accepted_iff in Hac; [congruence|done..]. }
  intros [] Hac%accepted_iff; [|done..]. pose proof (ac_slots _ _ _ _ Hac) as Hne.
  wp_step. wp_step; [|boolify; by apply nil_length_inv in Hchk].
  wp_step. wp_step; [|intros Hp; destruct (sr_epoch _ _ _ (HP Hp)) as (? & ? & _); congruence]. rename v into cur, Hopt0 into Hcur.
  wp_step. wp_step; [|intros Hp; destruct (sr_epoch _ _ _ (HP Hp)) as (? & Hc & ?); rewrite Hcur in Hc; injection Hc as <-; boolify; lia].
  assert (exists cur, EffectiveEpochIndex c = Some cur /\ de_EpochIndex escrow <= cur <= u64 (de_EpochIndex escrow + 1)) as Hep
    by (exists cur; split; [done|]; boolify; lia).
  wp_step. eapply wp_mono; [apply (load_loop_wp P c (de_EpochIndex escrow) cur); [done| |]|].
  { apply Forall_forall. intros a. rewrite elem_unique_addrs. rewrite Forall_forall in Hcan. apply Hcan. }
  { intros Hp a. rewrite elem_unique_addrs. apply (HP Hp). }
  intros ? [v0|?]; [|done]. intros [-> Hld]. eapply settle_tail_wp; try done. boolify. lia.
Qed.

End Settlement.

(* ------------------------------------------------------------------ *)
(** ** Opening an escrow *)

Section Opening.
Context {W : Type} `{!AccAddressCodec} `{!ChainEnv W} `{!ChainEnvLaws W}.
Abbreviation CS := (Chain W).
Implicit Types (c : CS) (msg : MsgCreateDevshardEscrow).

(** The weights map that the handler builds. *)
Definition weights_of (l : list (string * Z)) : gmap string Z := fold_left (fun m vw => <[vw.1 := vw.2]> m) l ∅.

(** What the message and the other modules provide: no one can sign for the account of
    the module; the group of the epoch lists addresses as the SDK prints them, with
    weights whose sum is an [int64]. *)
Record create_typed c msg : Prop := {
  cg_signer : AccAddressFromBech32 (mc_Creator msg) <> Some ModuleAccount;
  cg_amount : is_u64 (mc_Amount msg);
  cg_counter : is_u64 (default 0 (DevshardEscrowCounter c));
  cg_group : is_u32 (ep_GroupSize (GetDevshardEscrowParams c));
  cg_members : forall epoch l, EpochGroupWeights (ch_World c) epoch (mc_ModelId msg) = Some l ->
    Forall (fun vw => canonical vw.1) l /\ msum (fun _ w => Z.max 0 w) (weights_of l) < 2 ^ 63
}.

(** The chain and the message of the creation. *)
Definition creating c msg : Prop := chain_ok c /\ create_typed c msg.

(** The escrow that is stored. *)
Definition new_escrow c msg (id epoch : Z) (slots : list string) : DevshardEscrow :=
  let ep := GetDevshardEscrowParams c in
  MkEscrow id (mc_Creator msg) (mc_Amount msg) slots epoch (AppHashHex (ch_World c)) false (ep_TokenPrice ep)
    (mc_ModelId msg) (ep_CreateDevshardFee ep) (ep_FeePerNonce ep)
    (DevshardInferenceSealGraceNoncesForCreate ep (u32 (Z.of_nat (length slots))))
    (DevshardInferenceSealGraceSecondsForCreate ep) (DevshardAutoSealEveryNNoncesForCreate ep)
    (DevshardValidationRateForCreate ep) 0.

(** An opened escrow: a new id, a group of the configured size drawn from the members
    with weight, the amount in range and moved from the creator to the module. *)
Record opened c msg (id : Z) c' : Prop := {
  op_id : id = default 0 (DevshardEscrowCounter c) + 1 /\ DevshardEscrowCounter c' = Some id /\ DevshardEscrows c !! id = None;
  op_escrow : exists epoch slots l, EffectiveEpochIndex c = Some epoch /\
    EpochGroupWeights (ch_World c) epoch (mc_ModelId msg) = Some l /\
    DevshardEscrows c' = <[id := new_escrow c msg id epoch slots]> (DevshardEscrows c) /\
    Z.of_nat (length slots) = ep_GroupSize (GetDevshardEscrowParams c) /\
    Forall (fun a => exists w, weights_of l !! a = Some w /\ 0 < w) slots /\
    GetDevshardEscrowEpochCount c epoch < ep_MaxEscrowsPerEpoch (GetDevshardEscrowParams c);
  op_range : ep_MinAmount (GetDevshardEscrowParams c) <= mc_Amount msg <= ep_MaxAmount (GetDevshardEscrowParams c) /\
    mc_Amount msg < 2 ^ 63;
  op_creator : exists a, AccAddressFromBech32 (mc_Creator msg) = Some a /\ IsAllowedEscrowCreator c (AccAddress_String a) = true /\
    forall b, b <> ModuleAccount -> AccountBalance (ch_World c') b = AccountBalance (ch_World c) b - if bool_decide (b = a) then mc_Amount msg else 0;
  op_module : ModuleBalance (ch_World c') = ModuleBalance (ch_World c) + mc_Amount msg;
  op_frame : Participants c' = Participants c /\ ClaimRecipients c' = ClaimRecipients c /\
    ClaimRecipientsByEpoch c' = ClaimRecipientsByEpoch c /\ ch_PruningState c' = ch_PruningState c;
  op_slack : slack c' = slack c;
  op_ok : chain_ok c'
}.

Lemma weights_of_elem l a w : weights_of l !! a = Some w -> a ∈ l.*1.
Proof.
  unfold weights_of. assert (forall m : gmap string Z, fold_left (fun m vw => <[vw.1 := vw.2]> m) l m !! a = Some w ->
    is_Some (m !! a) \/ a ∈ l.*1) as Hg.
  { induction l as [|[x y] l IH]; intros m; cbn; [eauto|]. intros Hl%IH. destruct Hl as [Hs|?]; [|right; set_solver].
    destruct (decide (x = a)) as [<-|Hne]; [right; set_solver|]. rewrite lookup_insert_ne in Hs by done. by left. }
  intros Hw. destruct (Hg ∅ Hw) as [[? Hf]|?]; [by rewrite lookup_empty in Hf|done].
Qed.

(** Storing a new escrow when its amount has come in. *)
Lemma store_ok c e id w :
  chain_ok c -> DevshardEscrows c !! id = None -> id = default 0 (DevshardEscrowCounter c) + 1 -> id < 2 ^ 64 ->
  0 <= de_Amount e < 2 ^ 63 -> Forall canonical (de_Slots e) -> Z.of_nat (length (de_Slots e)) < 2 ^ 63 -> de_Id e = id ->
  de_Settled e = false -> ModuleBalance w = ModuleBalance (ch_World c) + de_Amount e ->
  forall n, let c' := set_EpochCount n (set_EscrowsByEpoch ({[(de_EpochIndex e, id)]} ∪ DevshardEscrowsByEpoch c)
              (set_Escrows (<[id := e]> (DevshardEscrows c)) (set_Counter (Some id) (set_World w c)))) in
  slack c' = slack c /\ chain_ok c'.
Proof.
  intros Hok Hnew Hid Hlt Ha Hcan Hlen Hide Hset Hm n c'.
  assert (slack c' = slack c) as Hs.
  { unfold slack, locked, owed. cbn. rewrite msum_insert by done. unfold open_amount at 1. rewrite Hset, Hm. lia. }
  split; [done|]. split; cbn.
  - apply (co_participant _ Hok).
  - intros k f. destruct (decide (id = k)) as [<-|Hne].
    + rewrite lookup_insert_eq. intros [= <-]. unfold is_u64. repeat split; (done || lia).
    + rewrite lookup_insert_ne by done. apply (co_escrow _ Hok).
  - intros k. destruct (decide (id = k)) as [<-|Hne]; [lia|]. rewrite lookup_insert_ne by done. intros Hk.
    pose proof (co_counter _ Hok k Hk). lia.
  - intros epoch k. rewrite elem_of_union, elem_of_singleton, (co_index _ Hok). destruct (decide (id = k)) as [<-|Hne].
    + rewrite lookup_insert_eq, Hnew. split; [intros [[= ->]|(? & ? & _)]; [eauto|done]|]. intros (? & [= <-] & <-). by left.
    + rewrite lookup_insert_ne by done. split; [intros [[= ? ?]|?]; [congruence|done]|]. by right.
  - rewrite Hs. apply (co_solvent _ Hok).
Qed.

(** What suffices for an escrow to be opened. *)
Record create_ready c msg : Prop := {
  cy_creator : exists a w', AccAddressFromBech32 (mc_Creator msg) = Some a /\
    IsAllowedEscrowCreator c (AccAddress_String a) = true /\
    SendCoinsFromAccountToModule a (mc_Amount msg) (ch_World c) = (w', Ok tt);
  cy_model : mc_ModelId msg <> "";
  cy_range : ep_MinAmount (GetDevshardEscrowParams c) <= mc_Amount msg <= ep_MaxAmount (GetDevshardEscrowParams c);
  cy_small : mc_Amount msg < 2 ^ 63;
  cy_group : exists epoch l a w, EffectiveEpochIndex c = Some epoch /\
    GetDevshardEscrowEpochCount c epoch < ep_MaxEscrowsPerEpoch (GetDevshardEscrowParams c) /\
    EpochGroupWeights (ch_World c) epoch (mc_ModelId msg) = Some l /\ weights_of l !! a = Some w /\ 0 < w;
  cy_counter : default 0 (DevshardEscrowCounter c) < 2 ^ 64 - 1
}.

(** The group that is drawn. *)
Lemma drawn_slots SortFunc appHash addr model l entries total n :
  sorts_randoms SortFunc -> Forall (fun vw => canonical vw.1) l -> msum (fun _ w => Z.max 0 w) (weights_of l) < 2 ^ 63 ->
  PrepareSortedEntries (weights_of l) = (entries, total) -> 0 < total ->
  let slots := GetSlotsFromSorted SortFunc appHash addr model entries total n in
  length slots = n /\ Forall (fun a => exists w, weights_of l !! a = Some w /\ 0 < w) slots /\ Forall canonical slots.
Proof.
  intros Hsort Hcan Hsum Hprep Ht slots. destruct (prepare_spec _ _ _ Hsum Hprep) as (Hok & Htot & _).
  assert (slots = GetSlotFromSorted appHash addr model entries total <$> seq 0 n) as Heq
    by (subst slots total; by apply slots_are_lookups).
  assert (Forall (fun a => exists w, weights_of l !! a = Some w /\ 0 < w) slots) as Hmem.
  { rewrite Heq. apply Forall_fmap, Forall_forall. intros i _. by apply lookup_member. }
  split; [by rewrite Heq, length_fmap, length_seq|]. split; [done|]. eapply Forall_impl; [exact Hmem|].
  intros a (w & Hw & _). apply weights_of_elem, list_elem_of_fmap in Hw as (vw & -> & Hin).
  rewrite Forall_forall in Hcan. by apply Hcan.
Qed.

Lemma total_positive l entries total a w :
  msum (fun _ w => Z.max 0 w) (weights_of l) < 2 ^ 63 -> PrepareSortedEntries (weights_of l) = (entries, total) ->
  weights_of l !! a = Some w -> 0 < w -> 0 < total.
Proof.
  intros Hsum Hprep Ha Hw. destruct (prepare_spec _ _ _ Hsum Hprep) as ((Hp & _) & -> & Hmem).
  assert (MkWeight a w ∈ entries) as Hin by (by apply Hmem). unfold weight_sum.
  apply list_elem_of_split in Hin as (l1 & l2 & ->). rewrite lsum_app, lsum_cons. cbn.
  apply Forall_app in Hp as [Hp1 [_ Hp2]%Forall_cons].
  pose proof (weight_sum_nonneg l1 Hp1). pose proof (weight_sum_nonneg l2 Hp2). lia.
Qed.

(** From the weights on. *)
Lemma create_tail_wp (P : Prop) SortFunc c msg epoch l :
  sorts_randoms SortFunc -> creating c msg -> (P -> create_ready c msg) -> EffectiveEpochIndex c = Some epoch ->
  EpochGroupWeights (ch_World c) epoch (mc_ModelId msg) = Some l -> (P -> exists a w, weights_of l !! a = Some w /\ 0 < w) ->
  ep_MinAmount (GetDevshardEscrowParams c) <= mc_Amount msg <= ep_MaxAmount (GetDevshardEscrowParams c) ->
  GetDevshardEscrowEpochCount c epoch < ep_MaxEscrowsPerEpoch (GetDevshardEscrowParams c) ->
  (exists a, AccAddressFromBech32 (mc_Creator msg) = Some a /\ IsAllowedEscrowCreator c (AccAddress_String a) = true) ->
  let ep := GetDevshardEscrowParams c in
  wp (run* check (negb (bool_decide (length l = 0%nat))) "no validation weights in epoch group" in
      let '(sortedEntries, totalWeight) := PrepareSortedEntries (weights_of l) in
      run* check (negb (totalWeight <=? 0)) "total weight is zero" in
      let* appHash := reads (fun c => AppHashHex (ch_World c)) in
      let* counter := reads (fun c => default 0 (DevshardEscrowCounter c)) in
      run* check (negb (counter =? 2 ^ 64 - 1)) "devshard escrow counter overflow" in
      let nextID := u64 (counter + 1) in
      let slots := GetSlotsFromSorted SortFunc appHash ("devshard_escrow:" +:+ pretty nextID) (mc_ModelId msg)
                     sortedEntries totalWeight (Z.to_nat (ep_GroupSize ep)) in
      let* creatorAddr := lift_option (AccAddressFromBech32 (mc_Creator msg)) "invalid creator address" in
      let* coins := from_outcome (GetCoins (i64 (mc_Amount msg))) in
      run* on_world (SendCoinsFromAccountToModule creatorAddr coins) in
      StoreDevshardEscrow
        (MkEscrow 0 (mc_Creator msg) (mc_Amount msg) slots epoch appHash false (ep_TokenPrice ep)
           (mc_ModelId msg) (ep_CreateDevshardFee ep) (ep_FeePerNonce ep)
           (DevshardInferenceSealGraceNoncesForCreate ep (u32 (Z.of_nat (length slots))))
           (DevshardInferenceSealGraceSecondsForCreate ep) (DevshardAutoSealEveryNNoncesForCreate ep)
           (DevshardValidationRateForCreate ep) 0)
        nextID)
    (ok_or P (fun c' id => opened c msg id c')) c.
Proof.
  intros Hsort [Hok [Hsg Ham Hctr Hgs Hmem]] HP Hep Hl Hpos Hrange Hcount (a & Ha & Hall) ep. unfold is_u32, is_u64 in *.
  destruct (Hmem _ _ Hl) as [Hcan Hsum].
  wp_step. wp_step.
  2:{ intros Hp. destruct (Hpos Hp) as (x & w & Hw & _). boolify. by apply nil_length_inv in Hchk as ->. }
  destruct (PrepareSortedEntries (weights_of l)) as [entries total] eqn:Hprep.
  wp_step. wp_step.
  2:{ intros Hp. destruct (Hpos Hp) as (x & w & Hw & Hw0). pose proof (total_positive _ _ _ _ _ Hsum Hprep Hw Hw0). boolify. lia. }
  assert (0 < total) as Ht by (boolify; lia). wp_step. apply wp_reads. wp_step. apply wp_reads.
  wp_step. wp_step; [|intros Hp; pose proof (cy_counter _ _ (HP Hp)); boolify; lia].
  rewrite (u64_small (_ + 1)) by (unfold is_u64; boolify; lia). cbv zeta. set (id := _ + 1). set (slots := GetSlotsFromSorted _ _ _ _ _ _ _).
  destruct (drawn_slots SortFunc (AppHashHex (ch_World c)) ("devshard_escrow:" +:+ pretty id) (mc_ModelId msg) l entries total
    (Z.to_nat (ep_GroupSize ep)) Hsort Hcan Hsum Hprep Ht) as (Hlen & Hpw & Hcs). fold slots in Hlen, Hpw, Hcs.
  wp_step. wp_step; [|congruence]. rewrite Ha in Hopt. injection Hopt as <-. wp_step. apply wp_from.
  2:{ intros e He Hp. pose proof (cy_small _ _ (HP Hp)). rewrite GetCoins_small in He by lia. done. }
  intros coins Hc. assert (0 <= coins /\ mc_Amount msg = coins /\ coins < 2 ^ 63) as (Hc0 & Hcm & Hc63).
  { unfold GetCoins in Hc. destruct (Z.ltb_spec (i64 (mc_Amount msg)) 0) as [|Hge]; [done|]. injection Hc as <-.
    apply i64_nonneg in Hge as [? ->]; [|unfold is_u64]; lia. }
  subst coins. wp_step. apply wp_world. intros w [[]|e] Hsend.
  2:{ intros Hp. destruct (cy_creator _ _ (HP Hp)) as (a' & w' & Ha' & _ & Hs'). rewrite Ha in Ha'. injection Ha' as <-. congruence. }
  apply send_in in Hsend as [Hm Hb]; [|done].
  assert (outside a (mc_Amount msg) = mc_Amount msg) as Ho by (unfold outside; rewrite bool_decide_eq_false_2 by congruence; done).
  rewrite Ho in Hm.
  assert (DevshardEscrows c !! id = None) as Hnew.
  { apply eq_None_not_Some. intros Hs. pose proof (co_counter _ Hok id Hs) as Hcc. unfold id in Hcc. lia. }
  set (e := new_escrow c msg id epoch slots). unfold StoreDevshardEscrow, SetDevshardEscrow, IncrementDevshardEscrowEpochCount.
  do 8 wp_step. wp_step. cbn [ok_or].
  destruct (store_ok c e id w Hok Hnew eq_refl ltac:(unfold id; boolify; lia) ltac:(cbn; lia) Hcs ltac:(change (de_Slots e) with slots; rewrite Hlen; unfold ep; lia) eq_refl eq_refl Hm
    (<[epoch := u64 (GetDevshardEscrowEpochCount c epoch + 1)]> (DevshardEscrowEpochCount c))) as [Hsl Hok'].
  split; try done; cbn.
  - exists epoch, slots, l. repeat split; try done. rewrite Hlen. unfold ep. lia.
  - eauto.
Qed.

Lemma create_wp (P : Prop) SortFunc c msg :
  sorts_randoms SortFunc -> creating c msg -> (P -> create_ready c msg) ->
  wp (CreateDevshardEscrow SortFunc msg) (ok_or P (fun c' id => opened c msg id c')) c.
Proof.
  intros Hsort [Hok [Hsg Ham Hctr Hgs Hmem]] HP. unfold CreateDevshardEscrow, is_u32, is_u64 in *.
  wp_step. apply wp_run. intros c1 r Hr. assert (c1 = c) as ->.
  { unfold CheckPermission in Hr. destruct (AccAddressFromBech32 _); by injection Hr as <- _. }
  destruct r as [[]|e].
  2:{ intros Hp. destruct (cy_creator _ _ (HP Hp)) as (a & w & Ha & Hall & _). unfold CheckPermission in Hr.
      rewrite Ha in Hr. cbn in Hr. by rewrite Hall in Hr. }
  wp_step. wp_step; [|intros Hp; boolify; by apply (cy_model _ _ (HP Hp))].
  wp_step. apply wp_reads. wp_step. wp_step; [|intros Hp; pose proof (cy_range _ _ (HP Hp)); boolify; lia].
  wp_step. apply wp_reads. wp_step. wp_step; [|intros Hp; destruct (cy_group _ _ (HP Hp)) as (?&?&?&?&?&_); congruence].
  rename v into epoch, Hopt into Hep. wp_step. apply wp_reads. wp_step. wp_step.
  2:{ intros Hp. destruct (cy_group _ _ (HP Hp)) as (?&?&?&?& He & ? & _). rewrite Hep in He. injection He as <-. boolify. lia. }
  wp_step. apply wp_reads. wp_step. wp_step.
  2:{ intros Hp. destruct (cy_group _ _ (HP Hp)) as (?&?&?&?& He & ? & ? & _). rewrite Hep in He. injection He as <-. congruence. }
  rename v into l, Hopt into Hl. destruct (Hmem _ _ Hl) as [Hcan Hsum].
  assert (P -> exists a w, weights_of l !! a = Some w /\ 0 < w) as Hpos.
  { intros Hp. destruct (cy_group _ _ (HP Hp)) as (e' & l' & a & w & He & _ & Hl' & ?). rewrite Hep in He. injection He as <-.
    rewrite Hl in Hl'. injection Hl' as <-. eauto. }
  eapply create_tail_wp; try done; boolify; [lia..|].
  unfold CheckPermission in Hr. destruct (AccAddressFromBech32 _) as [a|] eqn:Ha; [|done]. exists a. split; [done|].
  cbn in Hr. by destruct (IsAllowedEscrowCreator c _).
Qed.

End Opening.

(* ------------------------------------------------------------------ *)
(** ** The settlement of a session *)

Section Session.
Context {Store : Type}.

(** What the ledger of a session says a validator has earned, with an equal share of
    the fees for each of its slots, and the number of these slots. *)
Definition owns (sm : StateMachine Store) (a : string) (s : Z) : bool :=
  bool_decide (at_index (ValidatorAddress <$> Group (state sm)) s = Some a).
Definition earned_share (sm : StateMachine Store) (a : string) : Z :=
  msum (fun s h => if owns sm a s then Cost h + Fees (state sm) / nslots sm else 0) (HostStatsMap (state sm)).
Definition hosts_of (sm : StateMachine Store) (a : string) : Z :=
  msum (fun s _ => if owns sm a s then 1 else 0) (HostStatsMap (state sm)).

End Session.

Lemma lsum_zip_snd {A} (f : A -> Z) s (l : list A) : lsum (fun p => f p.2) (zip (seq s (length l)) l) = lsum f l.
Proof. revert s. induction l as [|x l IH]; intros s; [done|]. cbn [length seq zip_with]. by rewrite !lsum_cons, IH. Qed.

(** A validator is due the costs of its slots, an equal fee share for each, and at
    most one coin more for each. *)
Lemma due_bounds slots msg a :
  let f := ms_Fees msg / Z.of_nat (length slots) in
  let own hs := bool_decide (at_index slots (ss_SlotId hs) = Some a) in
  let base := lsum (fun hs => if own hs then ss_Cost hs + f else 0) (ms_HostStats msg) in
  base <= due slots msg a <= base + lsum (fun hs => if own hs then 1 else 0) (ms_HostStats msg).
Proof.
  cbv zeta. rewrite <-lsum_plus. unfold due, fee_share.
  rewrite <-(lsum_zip_snd (fun hs => if bool_decide (at_index slots (ss_SlotId hs) = Some a) then _ else _) 0).
  rewrite <-(lsum_zip_snd (fun hs => _ + _) 0).
  split; apply lsum_le; intros [k hs] _; cbn [snd]; destruct (bool_decide _); try lia; destruct (Z.of_nat k <? _); lia.
Qed.

Section SessionTotals.
Context {Store : Type} `{!InferenceStorage Store} `{!SigVerifier} `{!ProtoCodec} `{!ProtoCodecLaws} `{!Secp256k1}.

(** The dues of a session's message are the ledger's, and the refund is the user's
    balance with what is still reserved. *)
Lemma session_dues amount (sm : StateMachine Store) escrow msg :
  settled_session amount sm escrow msg -> msg_sized msg -> ms_Fees msg = Fees (state sm) -> total_cost msg = earned_total sm ->
  ms_HostStats msg ≡ₚ (stats_of_host <$> map_to_list (HostStatsMap (state sm))) ->
  length (ms_HostStats msg) = length (de_Slots escrow) /\
  forall a, earned_share sm a <= due (de_Slots escrow) msg a <= earned_share sm a + hosts_of sm a.
Proof.
  intros [Hr _ _ (_ & _ & He3 & _)] Hsz Hf Hc Hp. pose proof (reachable_ok _ _ Hr) as [HI _ _].
  pose proof (group_size sm (inv_static _ _ _ HI)) as Hg.
  assert (Z.of_nat (length (de_Slots escrow)) = nslots sm) as Hn by (by rewrite He3, length_fmap).
  split.
  - rewrite Hp, length_fmap, <-(length_fmap fst). apply Nat2Z.inj. rewrite Hn.
    assert ((map_to_list (HostStatsMap (state sm))).*1 ≡ₚ seqZ 0 (nslots sm)) as ->.
    { apply NoDup_Permutation; [apply NoDup_fst_map_to_list|apply NoDup_seqZ|]. intros s. rewrite elem_of_seqZ, list_elem_of_fmap. split.
      - intros ([k h] & -> & Hk%elem_of_map_to_list). assert (0 <= k < nslots sm) by (apply (inv_hosts _ _ _ HI); eauto). cbn. lia.
      - intros Hs. assert (is_Some (HostStatsMap (state sm) !! s)) as [h Hh] by (apply (inv_hosts _ _ _ HI); lia).
        exists (s, h). split; [done|]. by apply elem_of_map_to_list. }
    rewrite length_seqZ. lia.
  - intros a. pose proof (due_bounds (de_Slots escrow) msg a) as Hb. cbv zeta in Hb. rewrite Hn, Hf in Hb.
    unfold earned_share, hosts_of, owns. rewrite !msum_map_to_list.
    rewrite !Hp, !lsum_fmap in Hb. rewrite <-He3.
    rewrite (lsum_ext (fun '(s, h) => _) (fun p => if bool_decide (at_index (de_Slots escrow) (ss_SlotId (stats_of_host p)) = Some a)
       then ss_Cost (stats_of_host p) + Fees (state sm) / nslots sm else 0)) by (by intros []).
    rewrite (lsum_ext (fun '(s, _) => _) (fun p => if bool_decide (at_index (de_Slots escrow) (ss_SlotId (stats_of_host p)) = Some a)
       then 1 else 0)) by (by intros []).
    exact Hb.
Qed.

(** At settlement every inference is sealed, so the ledger's total is the amount. *)
Lemma session_total amount (sm : StateMachine Store) :
  reachable amount sm -> Phase (state sm) = PhaseSettlement -> Balance (state sm) + Fees (state sm) + earned_total sm = amount.
Proof.
  intros Hr Hp. pose proof (reachable_ok _ _ Hr) as [HI Hph _]. unfold phase_ok in Hph. rewrite Hp in Hph.
  destruct Hph as (_ & _ & He). pose proof (ledger_totals _ _ _ HI) as Ht. unfold reserved_total in Ht. rewrite He, msum_empty in Ht. lia.
Qed.

End SessionTotals.

(* ------------------------------------------------------------------ *)
(** ** Properties *)

Section Properties.
Context {W : Type} `{!AccAddressCodec} `{!ChainEnv W} `{!ChainEnvLaws W}.
Context `{!ParticipantStatusKeeper W} `{!ParticipantStatusLaws W} `{!ChainCodec} `{!Secp256k1}.
Abbreviation CS := (Chain W).
Implicit Types (c : CS).

(** C6: What a settlement does to the money.  When the handler succeeds, the message
    was accepted in the settlement window, the escrow is closed, every validator is
    credited or paid exactly its costs and fee shares, the creator gets exactly the
    rest, and no other coin balance changes; no other account changes, except that
    collateral slashed when a validator's status turns bad goes from the account of the
    collateral module to that of governance.  The module's account still covers all open
    escrows and coin balances, and its surplus grows exactly by what is paid to the
    module's own account. *)
Theorem settle_exact c escrow msg c' :
  settling c escrow msg -> SettleDevshardEscrow msg c = (c', Ok tt) -> settled c escrow msg c'.
Proof. intros Hset Hrun. pose proof (settle_handler_wp False c escrow msg Hset ltac:(done)) as Hwp. unfold wp in Hwp. by rewrite Hrun in Hwp. Qed.

(** C11: A settlement that the chain is ready for goes through: an accepted message in
    the window, with validators that can be paid and room in the counters, is never
    refused by a later step of the handler. *)
Theorem settle_goes_through c escrow msg :
  settling c escrow msg -> settle_ready c escrow msg -> exists c', SettleDevshardEscrow msg c = (c', Ok tt).
Proof.
  intros Hset Hready. pose proof (settle_handler_wp True c escrow msg Hset ltac:(done)) as Hwp. unfold wp in Hwp.
  destruct (SettleDevshardEscrow msg c) as [c' [[]|e]]; [eauto|]. by destruct Hwp.
Qed.

(** C34: Opening an escrow takes the amount from the creator into the module, and only
    that: the new escrow has a fresh id, an amount in the allowed range, a group of
    the configured size whose members have weight in the epoch, and the epoch's limit
    was not reached.  Its vote threshold factor is never set. *)
Theorem create_opens SortFunc c msg c' id :
  sorts_randoms SortFunc -> creating c msg -> CreateDevshardEscrow SortFunc msg c = (c', Ok id) -> opened c msg id c'.
Proof.
  intros Hs Hc Hrun. pose proof (create_wp False SortFunc c msg Hs Hc ltac:(done)) as Hwp. unfold wp in Hwp. by rewrite Hrun in Hwp.
Qed.

(** Opening succeeds when the creator may use escrows and has the amount, the
    amount is in range, and the epoch has a group with weight and room for an escrow. *)
Theorem create_goes_through SortFunc c msg :
  sorts_randoms SortFunc -> creating c msg -> create_ready c msg -> exists c' id, CreateDevshardEscrow SortFunc msg c = (c', Ok id).
Proof.
  intros Hs Hc Hr. pose proof (create_wp True SortFunc c msg Hs Hc ltac:(done)) as Hwp. unfold wp in Hwp.
  destruct (CreateDevshardEscrow SortFunc msg c) as [c' [id|e]]; [eauto|]. by destruct Hwp.
Qed.

(** C1: The session's ledger is what the chain pays out.  Take any session that reached
    settlement, signed by the owners of enough slots, the message made of it by way of the
    payload and the settlement file, and a chain that is ready for it: the settlement of
    the session's escrow goes through, the user gets back exactly the session's balance,
    and every validator gets what its slots earned in the session and an equal share of
    the fees for each, up to one coin per slot. *)
Theorem session_paid_out {Store} `{!InferenceStorage Store} `{!SigVerifier} `{!ProtoCodec} `{!ProtoCodecLaws} `{!SameBytes}
    `{!Secp256k1Laws} amount (sm : StateMachine Store) c escrow msg params :
  settled_session amount sm escrow msg -> settling c escrow msg -> chain_ready c escrow msg ->
  ch_Params c = Some (Some params) -> version_allowed params (StateRootAndProtocolVersion (state sm)) ->
  LatestNonce (state sm) <= ep_MaxNonce params ->
  ms_EscrowId msg = de_Id escrow /\
  exists c', SettleDevshardEscrow msg c = (c', Ok tt) /\ settled c escrow msg c' /\
    refund escrow msg = Balance (state sm) /\
    forall a, earned_share sm a <= due (de_Slots escrow) msg a <= earned_share sm a + hosts_of sm a.
Proof.
  intros Hss Hset Hch Hpar Hver Hmax.
  destruct (session_accepted _ _ _ _ params (Some (HasWarmKeyGrant c)) Hss Hver Hmax) as (Hsz & Hac & Hf & Hcost & Hp & Hid).
  split; [done|].
  destruct (session_dues _ _ _ _ Hss Hsz Hf Hcost Hp) as [Hlen Hdue]. pose proof (ac_slots _ _ _ _ Hac) as Hne.
  assert (0 < Z.of_nat (length (de_Slots escrow))) as Hpos by (destruct (de_Slots escrow); [done|cbn; lia]).
  pose proof (Z.mod_pos_bound (ms_Fees msg) _ Hpos) as Hmod.
  assert (settle_ready c escrow msg) as Hready by (split; [done|by exists params|lia]).
  destruct (add_payouts_ready c escrow msg params Hset Hac) as [[m rem] Hpay].
  destruct (payouts_due _ _ _ _ Hsz Hne Hpay) as (_ & _ & _ & _ & Hrem & Htot).
  pose proof (settle_handler_wp True c escrow msg Hset ltac:(done)) as Hwp. unfold wp in Hwp.
  destruct (SettleDevshardEscrow msg c) as [c' [[]|e]]; [|by destruct Hwp]. exists c'. split; [done|]. split; [exact Hwp|]. split; [|done].
  pose proof (session_total _ _ (ss_reachable _ _ _ _ Hss) (ss_phase _ _ _ _ Hss)) as Hsum.
  pose proof (ss_escrow _ _ _ _ Hss) as (_ & Ham & _ & _). unfold refund. rewrite Htot, Hcost, Ham, Hlen.
  pose proof (Z.div_mod (ms_Fees msg) (Z.of_nat (length (de_Slots escrow))) ltac:(lia)). lia.
Qed.

End Properties.
