(* ===== verification/ChainPruning.v ===== *)
(** * Pruning of old epochs

    The generic pruner of inference-chain/x/inference/keeper/pruning.go, its two
    instances for devshard escrows and claim recipients, and the distribution of the
    escrows that nobody settled (devshard_pruning.go).

    [prune_wp] says what a run of a pruner does to the keys it manages, against the
    laws [PrunerLaws] that both instances meet: every epoch of the window loses its
    first keys up to the limit, no other epoch loses any, and the mark moves to the
    last epoch of the window that was empty. *)

From stdpp Require Import pretty sorting.
From S2P Require Import Prelude.
From S2P Require Import GoStd.
From S2P Require Import ChainSlots.
From S2P Require Import DevshardTypes.
From S2P Require Import DevshardHash.
From S2P Require Import DevshardMachine.
From S2P Require Import DevshardSettlement.
From S2P Require Import ChainSettlement.
From S2P Require Import ChainStore.
From S2P Require Import ChainState.
From S2P Require Import ChainEscrow.
From S2P Require Import ChainEscrowSpec.
Open Scope Z_scope.
Open Scope go_scope.

(* ------------------------------------------------------------------ *)
(** ** The pruner *)

(** [type Pruner[K any, V any] struct]: [List] and [Ranger] are the keys of an epoch,
    in the order of the store. *)
Record Pruner (W Key : Type) := MkPruner {
  pr_Threshold : Z;
  pr_PruningMax : Z;
  pr_Keys : Chain W -> Z -> list Key;
  pr_GetLastPruned : PruningState -> Z;
  pr_SetLastPruned : Z -> PruningState -> PruningState;
  pr_Remover : Key -> GoM (Chain W) string unit;
  pr_PostPruneEpoch : option (Z -> GoM (Chain W) string unit)
}.
Arguments MkPruner {W Key} _ _ _ _ _ _ _.
Arguments pr_Threshold {W Key} _. Arguments pr_PruningMax {W Key} _. Arguments pr_Keys {W Key} _ _ _.
Arguments pr_GetLastPruned {W Key} _ _. Arguments pr_SetLastPruned {W Key} _ _ _.
Arguments pr_Remover {W Key} _ _. Arguments pr_PostPruneEpoch {W Key} _.

(** [func getEpochsToPrune(pruningThreshold uint64, currentEpochIndex, lastPrunedEpoch int64) (int64, int64)] *)
Definition getEpochsToPrune (pruningThreshold currentEpochIndex lastPrunedEpoch : Z) : Z * Z :=
  let startEpoch := i64 (lastPrunedEpoch + 1) in
  let endEpoch := i64 (currentEpochIndex - i64 pruningThreshold) in
  (startEpoch, if endEpoch <? 0 then 0 else endEpoch).

Section Pruner.
Context {W Key : Type}.
Abbreviation CS := (Chain W).
Abbreviation K := (GoM (Chain W) string).

(** An error that is logged and passed over; a panic is not caught. *)
Definition attempt {A} (m : K A) : K (outcome string A) :=
  fun c => match m c with
           | (c', Ok a) => (c', Ok (Ok a))
           | (c', Err e) => if bool_decide (e = negative_coins_panic) then (c', Err e) else (c', Ok (Err e))
           end.

(** The loop of [PruneEpoch] over the keys that the iterator was opened on. *)
Fixpoint prune_keys (p : Pruner W Key) (prunesLeft prunedCount : Z) (keys : list Key) : K Z :=
  match keys with
  | [] => ret prunedCount
  | pk :: rest =>
      run* pr_Remover p pk in
      let prunedCount' := i64 (prunedCount + 1) in
      if prunesLeft <=? prunedCount' then ret prunedCount' else prune_keys p prunesLeft prunedCount' rest
  end.

(** [func (p Pruner[K, V]) PruneEpoch(ctx, currentEpochIndex, prunesLeft int64) (int64, error)] *)
Definition PruneEpoch (p : Pruner W Key) (currentEpochIndex prunesLeft : Z) : K Z :=
  let* keys := reads (fun c => pr_Keys p c currentEpochIndex) in
  prune_keys p prunesLeft 0 keys.

(** The body of the loop of [Prune]; [prunedCount] stays 0. *)
Definition prune_one (p : Pruner W Key) (_ : unit) (epoch : Z) : K unit :=
  let prunedCount := 0 in
  let prunesLeft := i64 (pr_PruningMax p - prunedCount) in
  let* r := attempt (PruneEpoch p epoch prunesLeft) in
  match r with
  | Err _ => ret tt
  | Ok prunedForEpoch =>
      if prunedForEpoch =? 0 then
        run* match pr_PostPruneEpoch p with
             | Some post => let* _ := attempt (post epoch) in ret tt
             | None => ret tt
             end in
        let* st := reads ch_PruningState in
        let* currentPruningState := lift_option st "failed to get pruning state" in
        if pr_GetLastPruned p currentPruningState <? epoch
        then modify (set_PruningState (Some (pr_SetLastPruned p epoch currentPruningState)))
        else ret tt
      else ret tt
  end.

(** [func (p Pruner[K, V]) Prune(ctx, k Keeper, currentEpochIndex int64) error] *)
Definition Prune (p : Pruner W Key) (currentEpochIndex : Z) : K unit :=
  let* st := reads ch_PruningState in
  let* pruningState := lift_option st "failed to get pruning state" in
  let '(startEpoch, endEpoch) := getEpochsToPrune (pr_Threshold p) currentEpochIndex (pr_GetLastPruned p pruningState) in
  if endEpoch <? startEpoch then ret tt
  else mfold (prune_one p) tt (seqZ startEpoch (endEpoch - startEpoch + 1)).

End Pruner.

(* ------------------------------------------------------------------ *)
(** ** The two pruners *)

Definition DevshardPruningThreshold : Z := 2.
Definition DevshardPruningMax : Z := 100.
Definition ClaimRecipientPruningThreshold : Z := 5.
Definition ClaimRecipientPruningMaxPerBlock : Z := 1000.

Section Instances.
Context {W : Type} `{!AccAddressCodec} `{!ChainEnv W}.
Abbreviation CS := (Chain W).
Abbreviation K := (GoM (Chain W) string).

(** Sending one validator its part; failures are logged. *)
Definition send_share (epoch : Z) (amountByAddr : gmap string Z) (_ : unit) (addr : string) : K unit :=
  let* c := get in
  match ResolveClaimRecipientAddress c addr epoch with
  | Err _ => ret tt
  | Ok recipient =>
      let* coins := from_outcome (GetCoins (i64 (zget 0 addr amountByAddr))) in
      let* _ := attempt (on_world (SendCoinsFromModuleToAccount recipient coins)) in
      ret tt
  end.

(** [func (k Keeper) distributeUnsettledEscrow(ctx, escrow types.DevshardEscrow) error] *)
Definition distributeUnsettledEscrow (escrow : DevshardEscrow) : K unit :=
  let slotCount := Z.of_nat (length (de_Slots escrow)) in
  if slotCount =? 0 then ret tt
  else
    let share := de_Amount escrow / slotCount in
    if share =? 0 then ret tt
    else
      let amountByAddr :=
        fold_left (fun m addr => <[addr := u64 (zget 0 addr m + share)]> m) (de_Slots escrow) (∅ : gmap string Z) in
      mfold (send_share (de_EpochIndex escrow) amountByAddr) tt (first_seen (de_Slots escrow)).

(** The [Remover] of the devshard pruner. *)
Definition remove_escrow (key : Z * Z) : K unit :=
  let '(epochIndex, escrowID) := key in
  let* found := reads (fun c => DevshardEscrows c !! escrowID) in
  run* match found with
       | Some escrow =>
           if de_Settled escrow then ret tt
           else let* _ := attempt (distributeUnsettledEscrow escrow) in ret tt
       | None => ret tt
       end in
  run* modify (fun c => set_Escrows (delete escrowID (DevshardEscrows c)) c) in
  modify (fun c => set_EscrowsByEpoch (DevshardEscrowsByEpoch c ∖ {[(epochIndex, escrowID)]}) c).

(** Its [PostPruneEpoch]. *)
Definition clear_epoch (epoch : Z) : K unit :=
  let epochIndex := u64 epoch in
  run* modify (fun c => set_HostEpochStats (filter (fun kv => kv.1.1 <> epochIndex) (DevshardHostEpochStatsMap c)) c) in
  modify (fun c => set_EpochCount (delete epochIndex (DevshardEscrowEpochCount c)) c).

(** [func (k Keeper) GetDevshardPruner(params types.Params) Pruner[...]] *)
Definition GetDevshardPruner : Pruner W (Z * Z) :=
  MkPruner DevshardPruningThreshold DevshardPruningMax (fun c => epoch_keys Z.le (DevshardEscrowsByEpoch c))
    ps_DevshardPrunedEpoch (fun e st => MkPruningState e (ps_ClaimRecipientsPrunedEpoch st))
    remove_escrow (Some clear_epoch).

(** [func (k Keeper) GetClaimRecipientPruner(params types.Params) Pruner[...]] *)
Definition GetClaimRecipientPruner : Pruner W (Z * AccAddress) :=
  MkPruner ClaimRecipientPruningThreshold ClaimRecipientPruningMaxPerBlock
    (fun c => epoch_keys bytes_le (ClaimRecipientsByEpoch c))
    ps_ClaimRecipientsPrunedEpoch (fun e st => MkPruningState (ps_DevshardPrunedEpoch st) e)
    (fun key => RemoveClaimRecipientForEpoch key.2 key.1) None.

End Instances.

(* ------------------------------------------------------------------ *)
(** ** What a run of a pruner does *)

Section Laws.
Context {W Key : Type} `{!EqDecision Key}.
Abbreviation CS := (Chain W).
Implicit Types (p : Pruner W Key) (c : CS).

(** What a pruner has to promise for the epochs [lo .. hi], with an invariant [I] of
    the chain: removing a key of an epoch succeeds and removes that key only. *)
Record PrunerLaws p (lo hi : Z) (I : CS -> Prop) : Prop := {
  pl_max : 0 < pr_PruningMax p < 2 ^ 63;
  pl_last : forall e st, pr_GetLastPruned p (pr_SetLastPruned p e st) = e;
  pl_nodup : forall c e, I c -> NoDup (pr_Keys p c e);
  pl_disjoint : forall c c' e e' k, k ∈ pr_Keys p c e -> k ∈ pr_Keys p c' e' -> u64 e = u64 e';
  pl_remove : forall c e k, I c -> lo <= e <= hi -> k ∈ pr_Keys p c e -> exists c', pr_Remover p k c = (c', Ok tt) /\ I c' /\
    (forall e', pr_Keys p c' e' = filter (fun x => x <> k) (pr_Keys p c e')) /\ ch_PruningState c' = ch_PruningState c;
  pl_post : forall post c e, pr_PostPruneEpoch p = Some post -> I c -> lo <= e <= hi -> pr_Keys p c e = [] ->
    exists c', post e c = (c', Ok tt) /\ I c' /\ (forall e', pr_Keys p c' e' = pr_Keys p c e') /\
      ch_PruningState c' = ch_PruningState c;
  pl_mark : forall c st, I c -> I (set_PruningState st c) /\ forall e, pr_Keys p (set_PruningState st c) e = pr_Keys p c e
}.

(** The keys of every epoch after the epochs [es] were handled. *)
Definition keys_after p (es : list Z) c c' : Prop :=
  forall e, 0 <= e < 2 ^ 63 ->
    pr_Keys p c' e = if bool_decide (e ∈ es) then drop (Z.to_nat (pr_PruningMax p)) (pr_Keys p c e) else pr_Keys p c e.

(** The mark after the epochs [es] were handled. *)
Definition mark_after p c (es : list Z) (mark : Z) : Z :=
  default mark (last (filter (fun e => pr_Keys p c e = []) es)).

Lemma mark_cons p c e es mark :
  mark_after p c (e :: es) mark = mark_after p c es (if bool_decide (pr_Keys p c e = []) then e else mark).
Proof.
  unfold mark_after. rewrite filter_cons. case_bool_decide; [rewrite decide_True by done|by rewrite decide_False by done].
  set (l := filter _ es). destruct l as [|y l]; [done|]. change (last (e :: y :: l)) with (last (y :: l)).
  destruct (last (y :: l)) as [x|] eqn:El; [done|]. by apply last_None in El.
Qed.

Lemma mark_ext p c c' es mark : (forall e, e ∈ es -> pr_Keys p c' e = pr_Keys p c e) -> mark_after p c' es mark = mark_after p c es mark.
Proof.
  intros He. unfold mark_after. f_equal. f_equal. apply filter_iff_in. intros e Hin. by rewrite He.
Qed.

(** The mark reaches every empty epoch of the window and never leaves it. *)
Lemma mark_after_bounds p c es mark hi0 e :
  StronglySorted Z.lt es -> e ∈ es -> pr_Keys p c e = [] -> (forall x, x ∈ es -> x <= hi0) ->
  e <= mark_after p c es mark <= hi0.
Proof.
  intros Hs. revert mark. induction Hs as [|x l Hs IH Hx]; intros mark He Hk Hle; [set_solver|].
  rewrite mark_cons. apply elem_of_cons in He as [->|He].
  - rewrite bool_decide_eq_true_2 by done. assert (x <= mark_after p c l x) as Hlow.
    { unfold mark_after. destruct (last _) as [y|] eqn:El; [|done]. apply last_Some_elem_of, list_elem_of_filter in El as [_ Hy].
      rewrite Forall_forall in Hx. specialize (Hx y Hy). cbn. lia. }
    split; [done|]. unfold mark_after. destruct (last _) as [y|] eqn:El; [|apply Hle; constructor].
    apply last_Some_elem_of, list_elem_of_filter in El as [_ Hy]. apply Hle. by constructor.
  - apply IH; [done|done|]. intros y Hy. apply Hle. by constructor.
Qed.

Lemma mark_after_ge p c es mark : (forall x, x ∈ es -> mark <= x) -> mark <= mark_after p c es mark.
Proof.
  intros Hes. unfold mark_after. destruct (last _) as [y|] eqn:El; [|done]. apply last_Some_elem_of, list_elem_of_filter in El as [_ Hy]. by apply Hes.
Qed.

Context p lo hi (I : CS -> Prop) (Hlaws : PrunerLaws p lo hi I) (Hlo : 0 <= lo) (Hhi : hi < 2 ^ 63).

Lemma prune_keys_run c e keys count left :
  I c -> lo <= e <= hi -> pr_Keys p c e = keys -> 0 <= count < left -> left < 2 ^ 63 ->
  exists c', prune_keys p left count keys c = (c', Ok (count + Z.min (left - count) (Z.of_nat (length keys)))) /\ I c' /\
    pr_Keys p c' e = drop (Z.to_nat (left - count)) keys /\
    (forall e', 0 <= e' < 2 ^ 63 -> e' <> e -> pr_Keys p c' e' = pr_Keys p c e') /\ ch_PruningState c' = ch_PruningState c.
Proof.
  intros HI He. revert c count HI. induction keys as [|k keys IH]; intros c count HI Hk Hc Hl; cbn [prune_keys].
  { exists c. rewrite drop_nil. split; [unfold ret; do 2 f_equal; cbn; lia|]. done. }
  destruct (pl_remove _ _ _ _ Hlaws c e k HI He) as (c1 & Hr & HI1 & Hk1 & Hs1); [rewrite Hk; constructor|].
  pose proof (pl_nodup _ _ _ _ Hlaws c e HI) as Hnd. rewrite Hk in Hnd. apply NoDup_cons in Hnd as [Hni _].
  assert (pr_Keys p c1 e = keys) as Hke.
  { rewrite Hk1, Hk, filter_cons_False by tauto. apply filter_all. intros x Hx ->. done. }
  assert (forall e', 0 <= e' < 2 ^ 63 -> e' <> e -> pr_Keys p c1 e' = pr_Keys p c e') as Hother.
  { intros e' He' Hne. rewrite Hk1. apply filter_all. intros x Hx ->. apply Hne.
    assert (u64 e' = u64 e) as Hu by (eapply (pl_disjoint _ _ _ _ Hlaws c c e' e k); [done|rewrite Hk; constructor]).
    rewrite !u64_small in Hu by (unfold is_u64; lia). done. }
  unfold bind. rewrite Hr. rewrite (i64_small (count + 1)) by (unfold is_i64; lia).
  destruct (Z.leb_spec left (count + 1)) as [Hend|Hmore].
  - exists c1. split; [unfold ret; do 2 f_equal; cbn [length]; lia|]. split; [done|].
    replace (Z.to_nat (left - count)) with 1%nat by lia. cbn [drop]. rewrite drop_0. done.
  - destruct (IH c1 (count + 1) HI1 Hke) as (c' & Hp & HI' & Hd & Ho & Hs); [lia..|].
    exists c'. split; [rewrite Hp; do 2 f_equal; cbn [length]; lia|]. split; [done|].
    split; [rewrite Hd; replace (Z.to_nat (left - count)) with (S (Z.to_nat (left - (count + 1)))) by lia; done|].
    split; [intros e' He' Hne; rewrite Ho, Hother by done; done|]. congruence.
Qed.

Lemma prune_one_run c e st :
  I c -> lo <= e <= hi -> ch_PruningState c = Some st -> pr_GetLastPruned p st < e ->
  exists c' st', prune_one p tt e c = (c', Ok tt) /\ I c' /\
    pr_Keys p c' e = drop (Z.to_nat (pr_PruningMax p)) (pr_Keys p c e) /\
    (forall e', 0 <= e' < 2 ^ 63 -> e' <> e -> pr_Keys p c' e' = pr_Keys p c e') /\
    ch_PruningState c' = Some st' /\
    pr_GetLastPruned p st' = if bool_decide (pr_Keys p c e = []) then e else pr_GetLastPruned p st.
Proof.
  intros HI He Hst Hlast. pose proof (pl_max _ _ _ _ Hlaws) as Hmax.
  destruct (prune_keys_run c e (pr_Keys p c e) 0 (pr_PruningMax p)) as (c1 & Hp & HI1 & Hd & Ho & Hs); [done..|lia|lia|].
  rewrite !Z.sub_0_r in *. unfold prune_one. rewrite Z.sub_0_r, (i64_small (pr_PruningMax p)) by (unfold is_i64; lia).
  rewrite Z.add_0_l in Hp.
  erewrite (bind_run _ _ _ c1 (Ok _)) by (unfold attempt, PruneEpoch; by rewrite (bind_run _ _ c c _ eq_refl), Hp).
  destruct (bool_decide_reflect (pr_Keys p c e = [])) as [Hnil|Hne].
  2:{ exists c1, st. assert (length (pr_Keys p c e) <> 0%nat) by (by destruct (pr_Keys p c e)).
      destruct (Z.eqb_spec (Z.min (pr_PruningMax p) (Z.of_nat (length (pr_Keys p c e)))) 0); [lia|]. split; [done|].
      rewrite Hs. done. }
  rewrite Hnil in *. cbn [length]. rewrite Z.min_r by lia. change (Z.of_nat 0 =? 0) with true. cbv iota. rewrite drop_nil in Hd.
  assert (exists c2, (match pr_PostPruneEpoch p with
             | Some post => let* _ := attempt (post e) in ret tt | None => ret tt end) c1 = (c2, Ok tt) /\
             I c2 /\ (forall e', pr_Keys p c2 e' = pr_Keys p c1 e') /\ ch_PruningState c2 = ch_PruningState c1)
    as (c2 & Hpost & HI2 & Hk2 & Hs2).
  { destruct (pr_PostPruneEpoch p) as [post|] eqn:Epost; [|by exists c1].
    destruct (pl_post _ _ _ _ Hlaws post c1 e Epost HI1 He Hd) as (c2 & Hrun & ? & ? & ?).
    exists c2. split; [|done]. unfold bind, attempt. by rewrite Hrun. }
  rewrite (bind_run _ _ _ _ _ Hpost), (bind_run _ _ _ c2 (Some st)) by (unfold reads; congruence).
  rewrite (bind_run _ _ _ c2 st) by done.
  destruct (pl_mark _ _ _ _ Hlaws c2 (Some (pr_SetLastPruned p e st)) HI2) as [HI3 Hk3].
  replace (pr_GetLastPruned p st <? e) with true by lia. unfold ret, modify.
  eexists _, (pr_SetLastPruned p e st). split; [done|]. split; [done|]. rewrite Hk3, Hk2, Hd, drop_nil. split; [done|].
  split; [intros e' He' Hn; rewrite Hk3, Hk2; by apply Ho|]. split; [done|]. apply (pl_last _ _ _ _ Hlaws).
Qed.

Lemma prune_loop_run (n : nat) s c st :
  I c -> lo <= s -> s + Z.of_nat n <= hi + 1 -> ch_PruningState c = Some st -> pr_GetLastPruned p st < s ->
  let es := seqZ s (Z.of_nat n) in
  exists c' st', mfold (prune_one p) tt es c = (c', Ok tt) /\ I c' /\ keys_after p es c c' /\
    ch_PruningState c' = Some st' /\ pr_GetLastPruned p st' = mark_after p c es (pr_GetLastPruned p st).
Proof.
  revert s c st. induction n as [|n IH]; intros s c st HI Hs Hn Hst Hlast; cbn zeta.
  { rewrite seqZ_nil by lia. exists c, st. split; [done|]. split; [done|]. split; [|done]. intros e He.
    by rewrite bool_decide_eq_false_2 by set_solver. }
  rewrite seqZ_cons by lia. replace (Z.pred (Z.of_nat (S n))) with (Z.of_nat n) by lia. cbn [mfold].
  destruct (prune_one_run c s st HI ltac:(lia) Hst Hlast) as (c1 & st1 & Hone & HI1 & Hks & Hko & Hst1 & Hl1).
  rewrite (bind_run _ _ _ c1 tt Hone).
  destruct (IH (Z.succ s) c1 st1 HI1 ltac:(lia) ltac:(lia) Hst1) as (c' & st' & Hrun & HI' & Hk' & Hst' & Hl').
  { rewrite Hl1. case_bool_decide; lia. }
  exists c', st'. split; [done|]. split; [done|]. split.
  - intros e He. rewrite Hk' by done. destruct (decide (e = s)) as [->|Hne].
    + rewrite bool_decide_eq_false_2 by (rewrite elem_of_seqZ; lia). by rewrite bool_decide_eq_true_2 by constructor.
    + rewrite Hko by done. replace (bool_decide (e ∈ s :: seqZ (Z.succ s) (Z.of_nat n))) with (bool_decide (e ∈ seqZ (Z.succ s) (Z.of_nat n))); [done|].
      apply bool_decide_ext. rewrite elem_of_cons. naive_solver.
  - split; [done|]. rewrite Hl', mark_cons, Hl1. apply mark_ext. intros e [He1 He2]%elem_of_seqZ. apply Hko; lia.
Qed.

(** A run of a pruner: every epoch of the window [start .. end] loses its first
    [PruningMax] keys, and the mark becomes the last epoch of the window that had none. *)
Lemma prune_run c st current :
  I c -> ch_PruningState c = Some st -> lo <= pr_GetLastPruned p st + 1 -> pr_GetLastPruned p st < 2 ^ 62 ->
  0 <= current < 2 ^ 62 -> 0 <= pr_Threshold p < 2 ^ 62 -> 0 <= hi -> current - pr_Threshold p <= hi ->
  let first := pr_GetLastPruned p st + 1 in
  let es := seqZ first (Z.max 0 (current - pr_Threshold p) - first + 1) in
  exists c' st', Prune p current c = (c', Ok tt) /\ I c' /\ keys_after p es c c' /\
    ch_PruningState c' = Some st' /\ pr_GetLastPruned p st' = mark_after p c es (pr_GetLastPruned p st).
Proof.
  intros HI Hst Hl Hl2 Hc Ht Hhi0 Hhi' first es. unfold Prune.
  rewrite (bind_run _ _ _ c (Some st)) by (unfold reads; congruence). rewrite (bind_run _ _ _ c st) by done.
  unfold getEpochsToPrune. rewrite (i64_small (pr_GetLastPruned p st + 1)), (i64_small (pr_Threshold p)) by (unfold is_i64; lia).
  rewrite (i64_small (current - pr_Threshold p)) by (unfold is_i64; lia). fold first.
  replace (if current - pr_Threshold p <? 0 then 0 else current - pr_Threshold p) with (Z.max 0 (current - pr_Threshold p))
    by (destruct (Z.ltb_spec (current - pr_Threshold p) 0); lia).
  set (last_ := Z.max 0 (current - pr_Threshold p)) in *. destruct (Z.ltb_spec last_ first) as [Hlt|Hge].
  - exists c, st. subst es. rewrite seqZ_nil by lia. split; [done|]. split; [done|]. split; [|done]. intros e He.
    by rewrite bool_decide_eq_false_2 by set_solver.
  - destruct (prune_loop_run (Z.to_nat (last_ - first + 1)) first c st HI) as (c' & st' & Hr); [unfold first, last_ in *; lia..|done|unfold first; lia|].
    rewrite Z2Nat.id in Hr by lia. exists c', st'. done.
Qed.

End Laws.

(* ------------------------------------------------------------------ *)
(** ** Unsettled escrows *)

Section Unsettled.
Context {W : Type} `{!AccAddressCodec} `{!ChainEnv W} `{!ChainEnvLaws W}.
Abbreviation CS := (Chain W).
Implicit Types (c : CS) (e : DevshardEscrow).

(** The part of an unsettled escrow that one address gets, a share for every slot it
    holds, and what is left over. *)
Definition unsettled_part e (a : string) : Z :=
  de_Amount e / Z.of_nat (length (de_Slots e)) * Z.of_nat (length (filter (fun x => x = a) (de_Slots e))).
Definition unsettled_total e : Z := lsum (unsettled_part e) (first_seen (de_Slots e)).
Definition left_over e : Z := de_Amount e - unsettled_total e.

(** What of it leaves the module and what it keeps, shares of its own account included. *)
Definition unsettled_out c e : Z :=
  lsum (fun a => leaves c (de_EpochIndex e) a (unsettled_part e a)) (first_seen (de_Slots e)).
Definition kept_over c e : Z := de_Amount e - unsettled_out c e.

(** What account [b] gets from an unsettled escrow when every payment goes through. *)
Definition unsettled_to c e (b : AccAddress) : Z :=
  lsum (fun a => if goes_to c (de_EpochIndex e) a b then unsettled_part e a else 0) (first_seen (de_Slots e)).

Lemma NoDup_first_seen slots : NoDup (first_seen slots).
Proof. unfold first_seen. by destruct (unique_fold slots [] NoDup_nil_2). Qed.

Lemma count_sum (slots l : list string) :
  NoDup l -> (forall a, a ∈ slots -> a ∈ l) ->
  lsum (fun a => Z.of_nat (length (filter (fun x => x = a) slots))) l = Z.of_nat (length slots).
Proof.
  intros Hnd. induction slots as [|x slots IH]; intros Hin.
  { exact (lsum_zero l). }
  transitivity (lsum (fun a => (if bool_decide (x = a) then 1 else 0) + Z.of_nat (length (filter (fun y => y = a) slots))) l).
  { apply lsum_ext. intros a _. rewrite filter_cons. case_bool_decide; [rewrite decide_True by done; cbn [length]; lia|].
    rewrite decide_False by done. lia. }
  rewrite lsum_plus, IH by set_solver. assert (x ∈ l) as Hx by set_solver. clear Hin IH.
  assert (lsum (fun a => if bool_decide (x = a) then 1 else 0) l = 1); [|cbn [length]; lia].
  apply list_elem_of_split in Hx as (l1 & l2 & ->). apply NoDup_app in Hnd as (_ & Hd & Hnd). apply NoDup_cons in Hnd as [Hn2 _].
  assert (forall k, x ∉ k -> lsum (fun a => if bool_decide (x = a) then 1 else 0) k = 0) as Hz.
  { induction k as [|y k IHk]; [done|]. intros Hk. rewrite lsum_cons, IHk by set_solver.
    by rewrite bool_decide_eq_false_2 by set_solver. }
  rewrite lsum_app, lsum_cons, !Hz, bool_decide_eq_true_2 by (done || (intros Hx; apply (Hd x Hx); constructor)). done.
Qed.

(** A share for every slot: what is left over is the remainder of the division. *)
Lemma left_over_mod e :
  de_Slots e <> [] -> left_over e = de_Amount e mod Z.of_nat (length (de_Slots e)).
Proof.
  intros Hne. assert (0 < Z.of_nat (length (de_Slots e))) as Hpos by (destruct (de_Slots e); [done|cbn; lia]).
  unfold left_over, unsettled_total, unsettled_part. rewrite lsum_scale, count_sum.
  - pose proof (Z.div_mod (de_Amount e) (Z.of_nat (length (de_Slots e)))). lia.
  - apply NoDup_first_seen.
  - intros a. by rewrite elem_first_seen.
Qed.

Lemma amounts_spec share slots (m : gmap string Z) a :
  0 <= share -> (forall x, 0 <= zget 0 x m) -> (forall x, zget 0 x m + share * Z.of_nat (length slots) < 2 ^ 64) ->
  zget 0 a (fold_left (fun m addr => <[addr := u64 (zget 0 addr m + share)]> m) slots m) =
  zget 0 a m + share * Z.of_nat (length (filter (fun x => x = a) slots)).
Proof.
  intros Hs. revert m. induction slots as [|x slots IH]; intros m Hm Hb; cbn [fold_left]; [cbn; lia|].
  cbn [length] in Hb. assert (0 <= share * Z.of_nat (length slots)) by nia.
  assert (u64 (zget 0 x m + share) = zget 0 x m + share) as Hu.
  { apply u64_small. unfold is_u64. specialize (Hm x). specialize (Hb x). nia. }
  rewrite IH, Hu.
  - rewrite filter_cons. destruct (decide (x = a)) as [->|Hne].
    + rewrite zget_insert_eq. cbn [length]. lia.
    + by rewrite zget_insert_ne.
  - intros y. rewrite Hu. destruct (decide (x = y)) as [<-|Hne]; [rewrite zget_insert_eq; specialize (Hm x); lia|by rewrite zget_insert_ne].
  - intros y. rewrite Hu. specialize (Hb y). destruct (decide (x = y)) as [<-|Hne]; [rewrite zget_insert_eq|rewrite zget_insert_ne by done]; nia.
Qed.

(** Every validator can be paid. *)
Definition recipients_ok c epoch (addrs : list string) : Prop :=
  forall a, a ∈ addrs -> exists r, ResolveClaimRecipientAddress c a epoch = Ok r /\ accepts r.

(** One payment is made exactly or not at all; under [P] it is made. *)
Lemma send_share_run (P : Prop) c epoch m a w :
  0 < zget 0 a m < 2 ^ 63 -> (P -> recipients_ok c epoch [a] /\ zget 0 a m <= ModuleBalance w) ->
  exists w1, send_share epoch m tt a (set_World w c) = (set_World w1 c, Ok tt) /\
    ((ModuleBalance w1 = ModuleBalance w - leaves c epoch a (zget 0 a m) /\
      forall b, b <> ModuleAccount -> AccountBalance w1 b = AccountBalance w b + if goes_to c epoch a b then zget 0 a m else 0) \/
     (~ P /\ ModuleBalance w1 = ModuleBalance w /\ forall b, AccountBalance w1 b = AccountBalance w b)).
Proof.
  intros Ha HP.
  unfold send_share. rewrite (bind_run _ _ _ (set_World w c) (set_World w c)) by done.
  change (ResolveClaimRecipientAddress (set_World w c) a epoch) with (ResolveClaimRecipientAddress c a epoch).
  destruct (ResolveClaimRecipientAddress c a epoch) as [r|e] eqn:Hres.
  2:{ exists w. split; [done|]. right. split; [|done]. intros Hp. destruct (HP Hp) as [Hr _].
      destruct (Hr a ltac:(constructor)) as (r & ? & _). congruence. }
  rewrite (bind_run _ _ _ (set_World w c) (zget 0 a m)) by (by rewrite GetCoins_small by lia).
  destruct (SendCoinsFromModuleToAccount r (zget 0 a m) w) as [w1 [[]|e]] eqn:Hsend.
  - exists w1. split; [unfold bind, attempt, on_world; cbn; by rewrite Hsend|]. left. apply send_out in Hsend as (_ & Hm1 & Hb1); [|lia].
    split; [unfold leaves; by rewrite Hres|]. intros b Hne. rewrite Hb1 by done. unfold goes_to. rewrite Hres.
    by rewrite (bool_decide_ext (b = r) (r = b)) by naive_solver.
  - pose proof Hsend as Hfail. apply send_out_failed in Hfail as (Hm1 & Hb1 & He). exists w1.
    split; [unfold bind, attempt, on_world; cbn; by rewrite Hsend, bool_decide_eq_false_2 by done|].
    right. split; [|done]. intros Hp. destruct (HP Hp) as [Hr Hle]. destruct (Hr a ltac:(constructor)) as (r' & Hr' & Hacc).
    rewrite Hres in Hr'. injection Hr' as <-. destruct (Hacc w (zget 0 a m)) as [w' ?]; [lia|]. congruence.
Qed.

(** The payments of a distribution: some may fail, those that do not are exact. *)
Lemma send_shares_run (P : Prop) c epoch m l w :
  (forall a, a ∈ l -> 0 < zget 0 a m < 2 ^ 63) ->
  (P -> recipients_ok c epoch l /\ lsum (fun a => zget 0 a m) l <= ModuleBalance w) ->
  exists sent w', mfold (send_share epoch m) tt l (set_World w c) = (set_World w' c, Ok tt) /\ sent `sublist_of` l /\
    ModuleBalance w' = ModuleBalance w - lsum (fun a => leaves c epoch a (zget 0 a m)) sent /\
    (forall b, b <> ModuleAccount -> AccountBalance w' b = AccountBalance w b + lsum (fun a => if goes_to c epoch a b then zget 0 a m else 0) sent) /\
    (P -> sent = l).
Proof.
  revert w. induction l as [|a l IH]; intros w Hm HP.
  { exists [], w. split; [done|]. split; [constructor|]. cbn. split; [lia|]. split; [intros b; lia|done]. }
  assert (forall x, x ∈ l -> 0 < zget 0 x m < 2 ^ 63) as Hm' by (intros x Hx; apply Hm; by constructor).
  pose proof (Hm a ltac:(constructor)) as Ha. rewrite lsum_cons in HP.
  assert (0 <= lsum (fun x => zget 0 x m) l) as Hnn by (apply lsum_nonneg; intros x Hx; specialize (Hm' x Hx); lia).
  destruct (send_share_run P c epoch m a w Ha) as (w1 & Hrun & Hcase).
  { intros Hp. destruct (HP Hp) as [Hr Hle]. split; [|lia]. intros x ->%list_elem_of_singleton. apply Hr. constructor. }
  destruct (IH w1 Hm') as (sent & w' & Hrest & Hsub & Hmod & Hacc & Hall).
  { intros Hp. destruct (HP Hp) as [Hr Hle]. destruct Hcase as [[Hm1 _]|[? _]]; [|done].
    pose proof (leaves_bounds c epoch a (zget 0 a m)). split; [intros x Hx; apply Hr; by constructor|lia]. }
  cbn [mfold]. rewrite (bind_run _ _ _ _ _ Hrun). destruct Hcase as [[Hm1 Hb1]|(Hnp & Hm1 & Hb1)].
  - exists (a :: sent), w'. split; [done|]. split; [by constructor|]. rewrite lsum_cons. split; [lia|].
    split; [intros b Hne; rewrite Hacc, Hb1, lsum_cons by done; lia|]. intros Hp. by rewrite (Hall Hp).
  - exists sent, w'. split; [done|]. split; [by constructor|]. split; [lia|]. split; [intros b Hne; by rewrite Hacc, Hb1|]. done.
Qed.

Lemma unsettled_part_nonneg e a : 0 <= de_Amount e -> 0 <= unsettled_part e a.
Proof.
  intros Ha. unfold unsettled_part. destruct (decide (length (de_Slots e) = 0%nat)) as [->|Hne]; [by rewrite Z.div_0_r|].
  assert (0 <= de_Amount e / Z.of_nat (length (de_Slots e))) by (apply Z.div_pos; lia). nia.
Qed.

Lemma lsum_sublist {A} (f : A -> Z) l l' : l `sublist_of` l' -> (forall a, a ∈ l' -> 0 <= f a) -> 0 <= lsum f l <= lsum f l'.
Proof.
  induction 1 as [|x l l' Hs IH|x l l' Hs IH]; intros Hf; rewrite ?lsum_cons; [done|..];
    (assert (0 <= f x) by (apply Hf; constructor); destruct IH; [intros a Ha; apply Hf; by constructor|lia]).
Qed.

Lemma left_over_nonneg e : 0 <= de_Amount e -> 0 <= left_over e <= de_Amount e.
Proof.
  intros Ha. assert (0 <= unsettled_total e) by (apply lsum_nonneg; intros a _; by apply unsettled_part_nonneg).
  destruct (decide (de_Slots e = [])) as [Hn|Hn].
  - unfold left_over, unsettled_total in *. rewrite Hn in *. cbn in *. lia.
  - pose proof (left_over_mod e Hn) as Hm. assert (0 < Z.of_nat (length (de_Slots e))) as Hpos by (destruct (de_Slots e); [done|cbn; lia]).
    pose proof (Z.mod_pos_bound (de_Amount e) _ Hpos). unfold left_over in *. lia.
Qed.

(** What a distribution does to the balances: it never pays more than the shares, and
    under [P] it pays each of them. *)
Record distributed (P : Prop) c e (w' : W) : Prop := {
  ds_module : ModuleBalance (ch_World c) - unsettled_total e <= ModuleBalance w' <= ModuleBalance (ch_World c);
  ds_accounts : forall b, b <> ModuleAccount -> AccountBalance (ch_World c) b <= AccountBalance w' b;
  ds_exact : P -> ModuleBalance w' = ModuleBalance (ch_World c) - unsettled_out c e /\
    forall b, b <> ModuleAccount -> AccountBalance w' b = AccountBalance (ch_World c) b + unsettled_to c e b
}.

Lemma distributed_none P c e : (forall a, unsettled_part e a = 0) -> distributed P c e (ch_World c).
Proof.
  intros Hz. assert (forall (f : string -> Z) l, (forall a, f a = 0) -> lsum f l = 0) as Hl
    by (intros f l Hf; rewrite (lsum_ext _ (fun _ => 0)) by done; apply lsum_zero).
  split; unfold unsettled_total, unsettled_out, unsettled_to; [rewrite Hl by done; lia|done|]. intros _. split.
  - rewrite Hl; [lia|]. intros a. rewrite Hz. apply leaves_zero.
  - intros b _. rewrite Hl; [lia|]. intros a. rewrite Hz. by destruct (goes_to _ _ _ _).
Qed.

Lemma distributed_sent (P : Prop) c e sent w' :
  0 <= de_Amount e -> sent `sublist_of` first_seen (de_Slots e) ->
  ModuleBalance w' = ModuleBalance (ch_World c) - lsum (fun a => leaves c (de_EpochIndex e) a (unsettled_part e a)) sent ->
  (forall b, b <> ModuleAccount -> AccountBalance w' b = AccountBalance (ch_World c) b +
     lsum (fun a => if goes_to c (de_EpochIndex e) a b then unsettled_part e a else 0) sent) ->
  (P -> sent = first_seen (de_Slots e)) -> distributed P c e w'.
Proof.
  intros Ha Hsub Hmod Hacc Hall. assert (forall a, 0 <= unsettled_part e a) as Hpn by (intros a; by apply unsettled_part_nonneg).
  pose proof (lsum_sublist (unsettled_part e) sent _ Hsub ltac:(intros a _; apply Hpn)) as Hbound.
  assert (0 <= lsum (fun a => leaves c (de_EpochIndex e) a (unsettled_part e a)) sent <= lsum (unsettled_part e) sent) as Hlv.
  { split; [apply lsum_nonneg; intros a _; by apply leaves_bounds|]. apply lsum_le. intros a _. by apply leaves_bounds. }
  split.
  - unfold unsettled_total. lia.
  - intros b Hne. rewrite Hacc by done. assert (0 <= lsum (fun a => if goes_to c (de_EpochIndex e) a b then unsettled_part e a else 0) sent); [|lia].
    apply lsum_nonneg. intros a _. destruct (goes_to c _ _ _); [done|lia].
  - intros Hp. rewrite (Hall Hp) in *. split; [done|]. exact Hacc.
Qed.

(** The distribution of an unsettled escrow always runs to its end. *)
Lemma distribute_run (P : Prop) c e :
  0 <= de_Amount e < 2 ^ 63 -> (P -> recipients_ok c (de_EpochIndex e) (de_Slots e) /\ de_Amount e <= ModuleBalance (ch_World c)) ->
  exists w', distributeUnsettledEscrow e c = (set_World w' c, Ok tt) /\ distributed P c e w'.
Proof.
  intros Ha HP. pose proof (left_over_nonneg e ltac:(lia)) as Hlo.
  unfold distributeUnsettledEscrow. destruct (Z.eqb_spec (Z.of_nat (length (de_Slots e))) 0) as [Hn|Hn].
  { exists (ch_World c). rewrite set_World_id. split; [done|]. apply distributed_none. intros a. unfold unsettled_part. by rewrite Hn, Z.div_0_r. }
  destruct (Z.eqb_spec (de_Amount e / Z.of_nat (length (de_Slots e))) 0) as [Hs|Hs].
  { exists (ch_World c). rewrite set_World_id. split; [done|]. apply distributed_none. intros a. unfold unsettled_part. by rewrite Hs. }
  set (share := de_Amount e / Z.of_nat (length (de_Slots e))) in *. set (m := fold_left _ _ _).
  assert (0 < share) as Hsp by (assert (0 <= share) by (apply Z.div_pos; lia); lia).
  assert (share * Z.of_nat (length (de_Slots e)) <= de_Amount e) as Hsn.
  { subst share. rewrite Z.mul_comm. apply Z.mul_div_le. lia. }
  assert (forall a, zget 0 a m = unsettled_part e a) as Hm.
  { intros a. subst m. rewrite amounts_spec; [done|lia|by intros x|]. intros x. unfold zget. rewrite lookup_empty. cbn. lia. }
  assert (forall l, lsum (fun a => zget 0 a m) l = lsum (unsettled_part e) l) as Hml by (intros l; by apply lsum_ext).
  destruct (send_shares_run P c (de_EpochIndex e) m (first_seen (de_Slots e)) (ch_World c)) as (sent & w' & Hrun & Hsub & Hmod & Hacc & Hall).
  { intros a Hin. rewrite Hm. unfold unsettled_part. fold share. split.
    - assert (length (filter (fun x => x = a) (de_Slots e)) <> 0%nat); [|nia]. rewrite elem_first_seen in Hin.
      intros Hz%nil_length_inv. assert (a ∈ filter (fun x => x = a) (de_Slots e)) as Hf by (by apply list_elem_of_filter).
      rewrite Hz in Hf. set_solver.
    - pose proof (length_filter (fun x => x = a) (de_Slots e)). nia. }
  { intros Hp. destruct (HP Hp) as [Hr Hle]. split; [intros a Hx; apply Hr; by apply elem_first_seen|].
    rewrite Hml. unfold left_over, unsettled_total in *. lia. }
  rewrite set_World_id in Hrun. exists w'. split; [done|]. apply (distributed_sent P c e sent); [lia|done| | |done].
  - rewrite Hmod. f_equal. apply lsum_ext. intros a _. by rewrite Hm.
  - intros b Hne. rewrite Hacc by done. f_equal. apply lsum_ext. intros a _. by rewrite Hm.
Qed.

(** What open escrows will leave in the module, and send to account [b], if they are
    never settled. *)
Definition to_be_left c : Z := msum (fun _ e => if de_Settled e then 0 else kept_over c e) (DevshardEscrows c).
Definition to_be_sent c (b : AccAddress) : Z :=
  msum (fun _ e => if de_Settled e then 0 else unsettled_to c e b) (DevshardEscrows c).

(** Every validator of the unsettled escrows of the epochs [lo .. hi] can be paid. *)
Definition window_payable c (lo hi : Z) : Prop :=
  forall id e, DevshardEscrows c !! id = Some e -> lo <= de_EpochIndex e <= hi -> de_Settled e = false ->
    recipients_ok c (de_EpochIndex e) (de_Slots e).

(** The chain after escrows of the epochs [lo .. hi] were pruned. *)
Record after_prune (c0 : CS) (lo hi : Z) c : Prop := {
  ap_ok : chain_ok c;
  ap_frame : Participants c = Participants c0 /\ ClaimRecipients c = ClaimRecipients c0 /\
    ClaimRecipientsByEpoch c = ClaimRecipientsByEpoch c0 /\ DevshardEscrowCounter c = DevshardEscrowCounter c0 /\
    EffectiveEpochIndex c = EffectiveEpochIndex c0 /\ ch_Params c = ch_Params c0;
  ap_sub : forall id e, DevshardEscrows c !! id = Some e -> DevshardEscrows c0 !! id = Some e;
  ap_kept : forall id e, DevshardEscrows c0 !! id = Some e -> ~ (lo <= de_EpochIndex e <= hi) -> DevshardEscrows c !! id = Some e;
  ap_slack : slack c0 <= slack c;
  ap_accounts : forall b, b <> ModuleAccount -> AccountBalance (ch_World c0) b <= AccountBalance (ch_World c) b;
  ap_exact : window_payable c0 lo hi -> slack c + to_be_left c = slack c0 + to_be_left c0 /\
    forall b, b <> ModuleAccount -> AccountBalance (ch_World c) b + to_be_sent c b = AccountBalance (ch_World c0) b + to_be_sent c0 b
}.

Lemma goes_to_frame c c' epoch a b : ClaimRecipients c' = ClaimRecipients c -> goes_to c' epoch a b = goes_to c epoch a b.
Proof. intros Hc. unfold goes_to, ResolveClaimRecipientAddress. by rewrite Hc. Qed.

Lemma unsettled_to_frame c c' e b : ClaimRecipients c' = ClaimRecipients c -> unsettled_to c' e b = unsettled_to c e b.
Proof. intros Hc. unfold unsettled_to. apply lsum_ext. intros a _. by rewrite (goes_to_frame c c'). Qed.

Lemma kept_over_frame c c' e : ClaimRecipients c' = ClaimRecipients c -> kept_over c' e = kept_over c e.
Proof.
  intros Hc. unfold kept_over, unsettled_out. f_equal. apply lsum_ext. intros a _.
  unfold leaves, ResolveClaimRecipientAddress. by rewrite Hc.
Qed.

(** The two writes that delete an escrow, after [w'] was reached by the distribution. *)
Definition without c (epoch id : Z) (w' : W) : CS :=
  set_EscrowsByEpoch (DevshardEscrowsByEpoch c ∖ {[(epoch, id)]}) (set_Escrows (delete id (DevshardEscrows c)) (set_World w' c)).

Lemma remove_escrow_run (P : Prop) c id e :
  DevshardEscrows c !! id = Some e -> 0 <= de_Amount e < 2 ^ 63 ->
  (P -> de_Settled e = false -> recipients_ok c (de_EpochIndex e) (de_Slots e) /\ de_Amount e <= ModuleBalance (ch_World c)) ->
  exists w', remove_escrow (de_EpochIndex e, id) c = (without c (de_EpochIndex e) id w', Ok tt) /\
    (if de_Settled e then w' = ch_World c else distributed P c e w').
Proof.
  intros He Ha HP. unfold remove_escrow. rewrite (bind_run _ _ _ c (Some e)) by (unfold reads; congruence).
  destruct (de_Settled e).
  - exists (ch_World c). rewrite (bind_run _ _ _ c tt) by done. unfold without. rewrite set_World_id. done.
  - destruct (distribute_run P c e Ha) as (w' & Hrun & Hd); [auto|]. exists w'. split; [|done].
    rewrite (bind_run _ _ _ (set_World w' c) tt); [done|]. unfold bind, attempt. by rewrite Hrun.
Qed.

Lemma slack_without c id e w' :
  DevshardEscrows c !! id = Some e ->
  slack (without c (de_EpochIndex e) id w') = slack c + (ModuleBalance w' - ModuleBalance (ch_World c)) + open_amount e.
Proof.
  intros He. unfold slack, locked, owed, without. cbn [DevshardEscrows Participants ch_World set_Escrows set_EscrowsByEpoch set_World].
  rewrite (msum_delete _ _ _ e) by done. lia.
Qed.

Lemma chain_ok_without c id e w' :
  chain_ok c -> DevshardEscrows c !! id = Some e -> slack c <= slack (without c (de_EpochIndex e) id w') ->
  chain_ok (without c (de_EpochIndex e) id w').
Proof.
  intros Hok He Hs. split; cbn.
  - apply (co_participant _ Hok).
  - intros k f [_ Hk]%lookup_delete_Some. by apply (co_escrow _ Hok).
  - intros k [f [_ Hk]%lookup_delete_Some]. apply (co_counter _ Hok). eauto.
  - intros epoch k. rewrite elem_of_difference, elem_of_singleton, (co_index _ Hok). split.
    + intros [(f & Hf & Hfe) Hne]. exists f. rewrite lookup_delete_ne; [done|]. intros ->. apply Hne. congruence.
    + intros (f & [Hne Hf]%lookup_delete_Some & Hfe). split; [eauto|]. congruence.
  - pose proof (co_solvent _ Hok). lia.
Qed.

Lemma after_prune_step (c0 : CS) lo hi c id e w' :
  after_prune c0 lo hi c -> DevshardEscrows c !! id = Some e -> lo <= de_EpochIndex e <= hi ->
  (if de_Settled e then w' = ch_World c else distributed (window_payable c0 lo hi) c e w') ->
  after_prune c0 lo hi (without c (de_EpochIndex e) id w').
Proof.
  intros [Hok Hfr Hsub Hkept Hsl Hacc Hex] He Hwin Hw. destruct (co_escrow _ Hok _ _ He) as (_ & Ha & _).
  pose proof (left_over_nonneg e ltac:(lia)) as Hlo. pose proof (slack_without c id e w' He) as Hslw.
  assert (slack c <= slack (without c (de_EpochIndex e) id w')) as Hmono.
  { rewrite Hslw. unfold open_amount, left_over in *. destruct (de_Settled e); [subst w'; lia|]. destruct Hw as [[Hw _] _ _]. lia. }
  assert (forall b, b <> ModuleAccount -> AccountBalance (ch_World c) b <= AccountBalance w' b) as Hab.
  { intros b Hne. destruct (de_Settled e); [by subst w'|]. by apply Hw. }
  split; [by apply chain_ok_without|done| | |lia| |].
  - intros k f. cbn. intros [_ Hk]%lookup_delete_Some. by apply Hsub.
  - intros k f Hk Hn. cbn. specialize (Hkept k f Hk Hn). rewrite lookup_delete_ne; [done|]. intros ->. congruence.
  - intros b Hne. cbn. specialize (Hacc b Hne). specialize (Hab b Hne). lia.
  - intros HP. destruct (Hex HP) as [Hs0 Hb0]. destruct Hfr as (_ & Hcl & _).
    assert (to_be_left (without c (de_EpochIndex e) id w') = to_be_left c - if de_Settled e then 0 else kept_over c e) as Hl.
    { unfold to_be_left. rewrite (msum_ext _ (fun _ e => if de_Settled e then 0 else kept_over c e)).
      - cbn. by rewrite (msum_delete _ _ _ e).
      - intros k f _. by rewrite (kept_over_frame c). }
    assert (forall b, to_be_sent (without c (de_EpochIndex e) id w') b = to_be_sent c b - if de_Settled e then 0 else unsettled_to c e b) as Hs.
    { intros b. unfold to_be_sent. rewrite (msum_ext _ (fun _ e => if de_Settled e then 0 else unsettled_to c e b)).
      - cbn. by rewrite (msum_delete _ _ _ e).
      - intros k f _. by rewrite (unsettled_to_frame c). }
    split.
    + rewrite Hl, Hslw. unfold open_amount. destruct (de_Settled e); [subst w'; lia|]. destruct (ds_exact _ _ _ _ Hw HP) as [Hm _].
      unfold kept_over in *. lia.
    + intros b Hne. rewrite Hs, <-Hb0 by done. cbn. destruct (de_Settled e); [subst w'; lia|]. destruct (ds_exact _ _ _ _ Hw HP) as [_ Hb].
      rewrite Hb by done. lia.
Qed.

(** The devshard pruner keeps its promises. *)
Lemma devshard_pruner_laws (c0 : CS) lo hi :
  0 <= lo -> hi < 2 ^ 63 -> PrunerLaws GetDevshardPruner lo hi (after_prune c0 lo hi).
Proof.
  intros Hlo Hhi. split; cbn.
  - done.
  - done.
  - intros c e _. apply NoDup_epoch_keys.
  - intros c c' e e' k [<- _]%elem_epoch_keys [? _]%elem_epoch_keys. done.
  - intros c e [ep id] Hap He [Hep Hin]%elem_epoch_keys. cbn in Hep. subst ep.
    apply (co_index _ (ap_ok _ _ _ _ Hap)) in Hin as (f & Hf & Hfe). rewrite u64_small in Hfe by (unfold is_u64; lia).
    destruct (co_escrow _ (ap_ok _ _ _ _ Hap) _ _ Hf) as (_ & Ha & _). rewrite u64_small by (unfold is_u64; lia). subst e.
    destruct (remove_escrow_run (window_payable c0 lo hi) c id f Hf Ha) as (w' & Hrun & Hw).
    { intros HP Hset. split.
      - pose proof (HP id f (ap_sub _ _ _ _ Hap _ _ Hf) He Hset) as Hr. intros a Hin. destruct (Hr a Hin) as (r & Hres & Hacc).
        exists r. split; [|done]. unfold ResolveClaimRecipientAddress in *. destruct (ap_frame _ _ _ _ Hap) as (_ & -> & _). done.
      - by destruct (escrow_funds c id f (ap_ok _ _ _ _ Hap) Hf Hset) as [[_ ?] _]. }
    eexists. split; [exact Hrun|]. split; [by eapply after_prune_step|]. split; [|done]. intros e'. cbn. exact (epoch_keys_remove Z.le _ _ _).
  - intros post c e [= <-] Hap He Hk. eexists. split; [done|]. split; [|done]. destruct Hap as [[Ho1 Ho2 Ho3 Ho4 Ho5] Hfr Hsub Hkept Hsl Hacc Hex].
    by split.
  - intros c st Hap. split; [|done]. destruct Hap as [[Ho1 Ho2 Ho3 Ho4 Ho5] Hfr Hsub Hkept Hsl Hacc Hex]. by split.
Qed.

End Unsettled.

(* ------------------------------------------------------------------ *)
(** ** Claim recipients *)

Section Claims.
Context {W : Type} `{!AccAddressCodec} `{!ChainEnv W}.
Abbreviation CS := (Chain W).
Implicit Types (c : CS).

(** The index by epoch lists exactly the scheduled recipients. *)
Definition claims_ok c : Prop := forall a e, (e, a) ∈ ClaimRecipientsByEpoch c <-> is_Some (ClaimRecipients c !! (a, e)).

(** The chain after recipients of the epochs [lo .. hi] were pruned. *)
Record after_claims (c0 : CS) (lo hi : Z) c : Prop := {
  ac_sync : claims_ok c;
  ac_frame : exists x y st, c = set_PruningState st (set_Claims x y c0);
  ac_only : forall a e, ClaimRecipients c !! (a, e) = ClaimRecipients c0 !! (a, e) \/
    (lo <= e <= hi /\ ClaimRecipients c !! (a, e) = None)
}.

Lemma claims_ok_remove c a e : claims_ok c -> claims_ok
  (set_Claims (delete (a, e) (ClaimRecipients c)) (ClaimRecipientsByEpoch c ∖ {[(e, a)]}) c).
Proof.
  intros Hs x y. cbn. rewrite elem_of_difference, elem_of_singleton, (Hs x y). destruct (decide ((a, e) = (x, y))) as [[= <- <-]|Hne].
  - rewrite lookup_delete_eq. split; [naive_solver|by intros [? ?]].
  - rewrite lookup_delete_ne by done. split; [tauto|]. intros ?. split; [done|]. congruence.
Qed.

Lemma claims_ok_set c a e r : claims_ok c -> claims_ok
  (set_Claims (<[(a, e) := r]> (ClaimRecipients c)) ({[(e, a)]} ∪ ClaimRecipientsByEpoch c) c).
Proof.
  intros Hs x y. cbn. rewrite elem_of_union, elem_of_singleton, (Hs x y). destruct (decide ((a, e) = (x, y))) as [[= <- <-]|Hne].
  - rewrite lookup_insert_eq. split; [by eexists|by left].
  - rewrite lookup_insert_ne by done. split; [intros [?|?]; [congruence|done]|tauto].
Qed.

(** The claim recipient pruner keeps its promises. *)
Lemma claim_pruner_laws (c0 : CS) lo hi :
  0 <= lo -> hi < 2 ^ 63 -> PrunerLaws GetClaimRecipientPruner lo hi (after_claims c0 lo hi).
Proof.
  intros Hlo Hhi. split; cbn.
  - done.
  - done.
  - intros c e _. apply (NoDup_epoch_keys bytes_le).
  - intros c c' e e' k [<- _]%elem_epoch_keys [? _]%elem_epoch_keys. done.
  - intros c e [ep a] [Hs (x & y & st & ->) Ho] He [Hep Hin]%elem_epoch_keys. cbn in Hep. rewrite u64_small in Hep by (unfold is_u64; lia).
    subst ep. eexists. split; [done|]. split; [|split; [intros e'; exact (epoch_keys_remove bytes_le _ _ _)|done]]. split.
    + by apply claims_ok_remove.
    + eexists _, _, st. done.
    + intros b f. cbn. destruct (decide ((a, e) = (b, f))) as [[= <- <-]|Hne]; [right; by rewrite lookup_delete_eq|].
      rewrite lookup_delete_ne by done. apply Ho.
  - done.
  - intros c st [Hs (x & y & st' & ->) Ho]. split; [|done]. split; [done|by eexists _, _, st|done].
Qed.

(** What a batch of entries writes, the last entry of an epoch winning. *)
Definition write_entry (creator : AccAddress) (m : gmap (AccAddress * Z) string) (entry : ClaimRecipientEntry) :=
  if bool_decide (cl_Recipient entry = "") then delete (creator, cl_Epoch entry) m
  else <[(creator, cl_Epoch entry) := cl_Recipient entry]> m.

Definition claim_entry_ok (cur : Z) (entry : ClaimRecipientEntry) : Prop :=
  cur < cl_Epoch entry <= cur + MaxClaimRecipientLookahead /\
  (cl_Recipient entry = "" \/ is_Some (AccAddressFromBech32 (cl_Recipient entry))).

Lemma entry_wp (Q : CS -> outcome string unit -> Prop) creator cur en c :
  0 <= cur < 2 ^ 63 -> claims_ok c ->
  (forall x y, claims_ok (set_Claims x y c) -> x = write_entry creator (ClaimRecipients c) en -> claim_entry_ok cur en ->
     Q (set_Claims x y c) (Ok tt)) ->
  (forall e, ~ claim_entry_ok cur en -> Q c (Err e)) ->
  wp (applyClaimRecipientEntry creator cur en) Q c.
Proof.
  intros Hcur Hs HQ HE. unfold applyClaimRecipientEntry, claim_entry_ok, write_entry, MaxClaimRecipientLookahead in *.
  wp_step. wp_step; [|apply HE; intros [? _]; boolify; lia].
  rewrite (u64_small (cur + 40)) by (unfold is_u64; lia).
  wp_step. wp_step; [|apply HE; intros [? _]; boolify; lia].
  wp_step. wp_step; [|apply HE; intros [_ ?]; boolify; tauto].
  assert (cur < cl_Epoch en <= cur + 40 /\ (cl_Recipient en = "" \/ is_Some (AccAddressFromBech32 (cl_Recipient en)))) as Hen
    by (split; [boolify; lia|apply orb_true_iff in Hchk1 as [?|?]; boolify; tauto]).
  unfold RemoveClaimRecipientForEpoch, SetClaimRecipientForEpoch.
  destruct (bool_decide (cl_Recipient en = "")); wp_step; (apply HQ; [|done|done]).
  - by apply claims_ok_remove.
  - by apply claims_ok_set.
Qed.

Lemma entries_wp (Q : CS -> outcome string unit -> Prop) creator cur entries c :
  0 <= cur < 2 ^ 63 -> claims_ok c ->
  (forall x y, claims_ok (set_Claims x y c) -> x = fold_left (write_entry creator) entries (ClaimRecipients c) ->
     Forall (claim_entry_ok cur) entries -> Q (set_Claims x y c) (Ok tt)) ->
  (forall c' e, ~ Forall (claim_entry_ok cur) entries -> Q c' (Err e)) ->
  wp (mfold (fun _ entry => applyClaimRecipientEntry creator cur entry) tt entries) Q c.
Proof.
  intros Hcur. revert c. induction entries as [|en entries IH]; intros c Hs HQ HE; cbn [mfold].
  { wp_step. replace c with (set_Claims (ClaimRecipients c) (ClaimRecipientsByEpoch c) c) at 1 by (by destruct c).
    apply HQ; [|done|constructor]. intros a e. apply Hs. }
  wp_step. apply entry_wp; [done|done| |].
  - intros x y Hxy -> Hen. apply IH; [done| |].
    + intros x' y' Hxy' Hx' Hall. apply (HQ x' y'); [exact Hxy'|exact Hx'|by constructor].
    + intros c' e Hn. apply HE. by intros [_ ?]%Forall_cons.
  - intros e Hn. apply HE. by intros [? _]%Forall_cons.
Qed.

(** Entries outside of the batch keep their value. *)
Lemma written_other creator entries m k :
  (forall en, en ∈ entries -> k <> (creator, cl_Epoch en)) -> fold_left (write_entry creator) entries m !! k = m !! k.
Proof.
  revert m. induction entries as [|en entries IH]; intros m Hk; cbn [fold_left]; [done|].
  rewrite IH by (intros x Hx; apply Hk; by constructor). unfold write_entry.
  assert ((creator, cl_Epoch en) <> k) by (intros <-; by apply (Hk en); [constructor|]).
  destruct (bool_decide _); [by rewrite lookup_delete_ne|by rewrite lookup_insert_ne].
Qed.

End Claims.

(* ------------------------------------------------------------------ *)
(** ** Properties *)

Section Properties.
Context {W : Type} `{!AccAddressCodec} `{!ChainEnv W} `{!ChainEnvLaws W}.
Abbreviation CS := (Chain W).
Implicit Types (c : CS).

(** The window of a run of the devshard pruner. *)
Definition prune_first (st : PruningState) : Z := ps_DevshardPrunedEpoch st + 1.
Definition prune_last (current : Z) : Z := Z.max 0 (current - DevshardPruningThreshold).
Definition prune_window (st : PruningState) (current : Z) : list Z :=
  seqZ (prune_first st) (prune_last current - prune_first st + 1).

(** The chain and the epochs of a run of the devshard pruner. *)
Record pruning c (st : PruningState) (current : Z) : Prop := {
  pg_ok : chain_ok c;
  pg_state : ch_PruningState c = Some st;
  pg_mark : 0 <= ps_DevshardPrunedEpoch st < 2 ^ 62;
  pg_current : 0 <= current < 2 ^ 62
}.

Lemma devshard_prune_run c st current :
  pruning c st current ->
  exists c' st', Prune GetDevshardPruner current c = (c', Ok tt) /\ after_prune c (prune_first st) (prune_last current) c' /\
    keys_after GetDevshardPruner (prune_window st current) c c' /\ ch_PruningState c' = Some st' /\
    ps_DevshardPrunedEpoch st' = mark_after GetDevshardPruner c (prune_window st current) (ps_DevshardPrunedEpoch st).
Proof.
  intros [Hok Hst Hm Hc]. unfold prune_window, prune_first, prune_last, DevshardPruningThreshold in *.
  apply (prune_run GetDevshardPruner (ps_DevshardPrunedEpoch st + 1) (Z.max 0 (current - 2))
    (after_prune c (ps_DevshardPrunedEpoch st + 1) (Z.max 0 (current - 2)))); try done; cbn; try (unfold DevshardPruningThreshold; lia).
  apply devshard_pruner_laws; lia.
Qed.

(** C22: What pruning does to escrows.  A run never fails.  It removes escrows only of
    the epochs after the mark and at least two before the current one, of each such
    epoch the first 100 ids; no account loses anything and the module's surplus never
    shrinks, and when the recipients can be paid, an unsettled escrow that is removed
    goes to its validators in equal shares per slot; the remainder of the division stays
    in the module, and so do shares whose recipient is the module's own account. *)
Theorem prune_exact c st current :
  pruning c st current ->
  exists c', Prune GetDevshardPruner current c = (c', Ok tt) /\ after_prune c (prune_first st) (prune_last current) c' /\
    forall e, 0 <= e < 2 ^ 63 -> epoch_keys Z.le (DevshardEscrowsByEpoch c') e =
      if bool_decide (e ∈ prune_window st current) then drop 100 (epoch_keys Z.le (DevshardEscrowsByEpoch c) e)
      else epoch_keys Z.le (DevshardEscrowsByEpoch c) e.
Proof.
  intros Hp. destruct (devshard_prune_run _ _ _ Hp) as (c' & st' & Hrun & Hap & Hk & _). exists c'. split; [done|]. split; [done|]. exact Hk.
Qed.

(** Pruning never takes an escrow that could still be settled: while the current
    epoch is the escrow's or the next one, a run leaves it as it is. *)
Theorem settleable_not_pruned c st current id e :
  pruning c st current -> DevshardEscrows c !! id = Some e -> current <= de_EpochIndex e + 1 -> 0 < de_EpochIndex e ->
  exists c', Prune GetDevshardPruner current c = (c', Ok tt) /\ DevshardEscrows c' !! id = Some e.
Proof.
  intros Hp He Hcur Hpos. destruct (devshard_prune_run _ _ _ Hp) as (c' & st' & Hrun & Hap & _). exists c'. split; [done|].
  apply (ap_kept _ _ _ _ Hap); [done|]. unfold prune_last, DevshardPruningThreshold. lia.
Qed.

(** Scheduling claim recipients is all or nothing.  A message of a participant whose
    entries are all for one of the next 40 epochs and name valid recipients is applied
    entry by entry, the last one of an epoch winning; any other message changes nothing.
    So the recipients of the current and of past epochs, and of other participants,
    never change, and the index by epoch stays in step. *)
Theorem claim_recipients_frozen c msg cur a :
  claims_ok c -> EffectiveEpochIndex c = Some cur -> 0 <= cur < 2 ^ 63 -> AccAddressFromBech32 (sc_Creator msg) = Some a ->
  let valid := is_Some (Participants c !! a) /\ sc_Entries msg <> [] /\ Forall (claim_entry_ok cur) (sc_Entries msg) in
  match SetClaimRecipients msg c with
  | (c', Ok _) => valid /\ claims_ok c' /\
      ClaimRecipients c' = fold_left (write_entry a) (sc_Entries msg) (ClaimRecipients c) /\
      forall b e, b <> a \/ e <= cur \/ cur + MaxClaimRecipientLookahead < e ->
        ClaimRecipients c' !! (b, e) = ClaimRecipients c !! (b, e)
  | (c', Err _) => ~ valid /\ c' = c
  end.
Proof.
  intros Hs Hcur Hc Ha valid. set (Q := fun (c' : CS) (r : outcome string unit) => match r with
    | Ok _ => valid /\ claims_ok c' /\ ClaimRecipients c' = fold_left (write_entry a) (sc_Entries msg) (ClaimRecipients c) /\
        forall b e, b <> a \/ e <= cur \/ cur + MaxClaimRecipientLookahead < e -> ClaimRecipients c' !! (b, e) = ClaimRecipients c !! (b, e)
    | Err _ => ~ valid /\ c' = c end).
  assert (wp (SetClaimRecipients msg) Q c) as Hwp; [|unfold wp, Q in Hwp; by destruct (SetClaimRecipients msg c) as [? [[]|]]].
  unfold SetClaimRecipients. wp_step. apply wp_run. unfold CheckPermission. rewrite Ha. intros c1 r [= <- <-].
  cbn [checkSinglePermission]. destruct (bool_decide_reflect (is_Some (Participants c !! a))) as [Hpart|Hno]; [|by split; [intros [? _]|]].
  wp_step. wp_step; [|done]. injection Hopt as <-. wp_step. apply wp_reads. wp_step. wp_step; [|congruence].
  rewrite Hcur in Hopt. injection Hopt as <-. wp_step. wp_step.
  2:{ split; [|done]. intros (_ & Hne & _). boolify. by apply nil_length_inv in Hchk. }
  assert (sc_Entries msg <> []) as Hne by (intros Hn; rewrite Hn in Hchk; by boolify).
  unfold wp, cached. pose proof (entries_wp (fun c' r => match r with Ok _ => Q c' r | Err e => ~ valid end) a cur (sc_Entries msg) c Hc Hs) as Hwp.
  unfold wp in Hwp. assert (forall x y, claims_ok (set_Claims x y c) -> x = fold_left (write_entry a) (sc_Entries msg) (ClaimRecipients c) ->
    Forall (claim_entry_ok cur) (sc_Entries msg) -> Q (set_Claims x y c) (Ok tt)) as Happ.
  { intros x y Hxy -> Hall. split; [done|]. split; [done|]. split; [done|].
    intros b e He. cbn. apply written_other. intros en Hin [= -> ->]. rewrite Forall_forall in Hall. destruct (Hall en Hin) as [? _].
    unfold MaxClaimRecipientLookahead in *. destruct He as [?|[?|?]]; [done|lia|lia]. }
  destruct (mfold _ tt (sc_Entries msg) c) as [c' [[]|e]]; [|split; [|done]]; (apply Hwp; [done|intros ? ? Hn (_ & _ & ?); done]).
Qed.

End Properties.
