(* ===== verification/ChainTrace.v ===== *)
(** * The chain over many messages and blocks

    The handlers and the pruners interleaved in any order, with steps of the other
    modules in between ([step_other], which may do anything that keeps the books of
    devshard escrows): the module's account always covers the open escrows and the
    coin balances, and an escrow is paid out at most once; and escrows that the pruner's
    mark has passed are never pruned. *)

From stdpp Require Import pretty sorting.
From S2P Require Import Prelude.
From S2P Require Import GoStd.
From S2P Require Import DevshardTypes.
From S2P Require Import ChainSlots.
From S2P Require Import ChainSettlement.
From S2P Require Import ChainStore.
From S2P Require Import ChainState.
From S2P Require Import ChainEscrow.
From S2P Require Import ChainEscrowSpec.
From S2P Require Import ChainPruning.
Open Scope Z_scope.
Open Scope go_scope.

Section Trace.
Context {W : Type} `{!AccAddressCodec} `{!ChainEnv W} `{!ChainEnvLaws W}.
Context `{!ParticipantStatusKeeper W} `{!ParticipantStatusLaws W} `{!ChainCodec} `{!Secp256k1}.
Abbreviation CS := (Chain W).
Implicit Types (c : CS).

(** Epochs are far from the limits of [int64]. *)
Definition epoch_small (e : Z) : Prop := 0 <= e < 2 ^ 62.
Definition epochs_small c : Prop :=
  (forall cur, EffectiveEpochIndex c = Some cur -> epoch_small cur) /\
  exists st, ch_PruningState c = Some st /\ epoch_small (ps_DevshardPrunedEpoch st) /\ epoch_small (ps_ClaimRecipientsPrunedEpoch st).

(** The invariant. *)
Definition chain_inv c : Prop := chain_ok c /\ claims_ok c.

(** What the other modules may do between two steps of this one: pay into the module,
    change participants, epochs and parameters, as long as they cover the coin
    balances they promise. *)
Record other_step c c' : Prop := {
  os_escrows : DevshardEscrows c' = DevshardEscrows c /\ DevshardEscrowsByEpoch c' = DevshardEscrowsByEpoch c /\
    DevshardEscrowCounter c' = DevshardEscrowCounter c;
  os_claims : ClaimRecipients c' = ClaimRecipients c /\ ClaimRecipientsByEpoch c' = ClaimRecipientsByEpoch c;
  os_participants : participants_ok c';
  os_slack : 0 <= slack c'
}.

(** The steps of this module: messages run in a transaction, the pruners at the end of
    a block.  Escrows are created for a [user]. *)
Inductive module_step (SortFunc : list slotRandom -> list slotRandom) (user : string -> Prop) : CS -> CS -> Prop :=
| step_create c msg : user (mc_Creator msg) -> create_typed c msg -> module_step SortFunc user c (deliver (CreateDevshardEscrow SortFunc msg) c)
| step_settle c msg : msg_sized msg -> Forall entry_sized (ms_HostStats msg) -> ModuleBalance (ch_World c) < 2 ^ 63 ->
    module_step SortFunc user c (deliver (SettleDevshardEscrow msg) c)
| step_claims c msg : epochs_small c -> module_step SortFunc user c (deliver (SetClaimRecipients msg) c)
| step_prune c current : epochs_small c -> epoch_small current ->
    module_step SortFunc user c (Prune GetDevshardPruner current c).1
| step_prune_claims c current : epochs_small c -> epoch_small current ->
    module_step SortFunc user c (Prune GetClaimRecipientPruner current c).1.

(** The steps of the chain. *)
Inductive chain_step (SortFunc : list slotRandom -> list slotRandom) : CS -> CS -> Prop :=
| step_module c c' : module_step SortFunc (fun _ => True) c c' -> chain_step SortFunc c c'
| step_other c c' : other_step c c' -> chain_step SortFunc c c'.

(** How the escrows known at [c] look later: as they were, settled, or gone; a settled
    one does not open again and an id is never used again. *)
Definition escrow_evolves (before after : option DevshardEscrow) : Prop :=
  match before, after with
  | None, Some _ => False
  | Some e, Some e' => e' = e \/ (de_Settled e = false /\ e' = de_set_Settled true e)
  | _, None => True
  end.
Record evolves c c' : Prop := {
  ev_counter : default 0 (DevshardEscrowCounter c) <= default 0 (DevshardEscrowCounter c');
  ev_escrow : forall id, id <= default 0 (DevshardEscrowCounter c) ->
    escrow_evolves (DevshardEscrows c !! id) (DevshardEscrows c' !! id)
}.

Lemma escrow_evolves_refl o : escrow_evolves o o.
Proof. destruct o; cbn; auto. Qed.

Lemma escrow_evolves_trans o1 o2 o3 : escrow_evolves o1 o2 -> escrow_evolves o2 o3 -> escrow_evolves o1 o3.
Proof.
  destruct o1 as [e1|], o2 as [e2|], o3 as [e3|]; cbn; try tauto.
  intros [->|[? ->]] [->|[? ->]]; auto.
Qed.

Lemma evolves_trans c1 c2 c3 : evolves c1 c2 -> evolves c2 c3 -> evolves c1 c3.
Proof.
  intros [Hc1 He1] [Hc2 He2]. split; [lia|]. intros id Hid. eapply escrow_evolves_trans; [by apply He1|]. apply He2. lia.
Qed.

Lemma evolves_same c c' :
  DevshardEscrows c' = DevshardEscrows c -> DevshardEscrowCounter c' = DevshardEscrowCounter c -> evolves c c'.
Proof. intros He Hc. split; [by rewrite Hc|]. intros id _. rewrite He. apply escrow_evolves_refl. Qed.

(** What the steps of this module do: the escrows evolve, and the surplus does not shrink. *)
Definition grows c c' : Prop := evolves c c' /\ slack c <= slack c'.

Lemma grows_same c c' :
  DevshardEscrows c' = DevshardEscrows c -> DevshardEscrowCounter c' = DevshardEscrowCounter c -> slack c <= slack c' -> grows c c'.
Proof. intros He Hc Hs. split; [by apply evolves_same|done]. Qed.

(** A transaction is the handler's effect or nothing. *)
Lemma deliver_cases {A} (m : GoM CS string A) c (R : CS -> Prop) :
  R c -> (forall c' a, m c = (c', Ok a) -> R c') -> R (deliver m c).
Proof. unfold deliver, cached. destruct (m c) as [c' [a|e]]; cbn; eauto. Qed.

Lemma claims_same c c' :
  ClaimRecipients c' = ClaimRecipients c -> ClaimRecipientsByEpoch c' = ClaimRecipientsByEpoch c -> claims_ok c -> claims_ok c'.
Proof. intros Hm Hi Hs a e. rewrite Hm, Hi. apply Hs. Qed.

Lemma create_step SortFunc c msg :
  sorts_randoms SortFunc -> chain_inv c -> create_typed c msg ->
  let c' := deliver (CreateDevshardEscrow SortFunc msg) c in chain_inv c' /\ grows c c'.
Proof.
  intros Hsort [Hok Hcl] Ht c'. apply (deliver_cases _ c (fun c' => chain_inv c' /\ grows c c')).
  { split; [done|]. by apply grows_same. }
  intros c1 id Hrun. pose proof (create_wp False SortFunc c msg Hsort (conj Hok Ht) ltac:(done)) as Hwp. unfold wp in Hwp. rewrite Hrun in Hwp.
  destruct Hwp as [(Hid & Hctr & Hnew) (ep & sl & l & _ & _ & He & _) _ _ _ (_ & Hc1 & Hc2 & _) Hsl Hok'].
  split; [split; [done|by eapply claims_same]|]. split; [|by rewrite Hsl]. split; [rewrite Hctr; cbn; lia|].
  intros k Hk. rewrite He, lookup_insert_ne by lia. apply escrow_evolves_refl.
Qed.

(** A settlement of an escrow that does not exist fails. *)
Lemma settle_missing c msg c' : DevshardEscrows c !! ms_EscrowId msg = None -> SettleDevshardEscrow msg c <> (c', Ok tt).
Proof.
  intros He. unfold SettleDevshardEscrow. intros (c2 & [] & Hperm & Hrun)%bind_Ok.
  assert (c2 = c) as ->.
  { unfold CheckPermission in Hperm. destruct (AccAddressFromBech32 _); by injection Hperm as <- _. }
  apply bind_Ok in Hrun as (c3 & c3' & [= <- <-] & Hrun). apply bind_Ok in Hrun as (c4 & e & Hl & _). by rewrite He in Hl.
Qed.

Lemma settle_step c msg :
  chain_inv c -> msg_sized msg -> Forall entry_sized (ms_HostStats msg) -> ModuleBalance (ch_World c) < 2 ^ 63 ->
  let c' := deliver (SettleDevshardEscrow msg) c in chain_inv c' /\ grows c c'.
Proof.
  intros [Hok Hcl] Hsz Hes Hsup c'. apply (deliver_cases _ c (fun c' => chain_inv c' /\ grows c c')).
  { split; [done|]. by apply grows_same. }
  intros c1 [] Hrun. destruct (DevshardEscrows c !! ms_EscrowId msg) as [e|] eqn:He.
  - pose proof (settle_handler_wp False c e msg ltac:(by split) ltac:(done)) as Hwp. unfold wp in Hwp. rewrite Hrun in Hwp.
    destruct Hwp as [(ps & _ & Hac) _ Hesc _ _ _ Href (Hctr & Hc1 & Hc2 & _) Hsl Hok'].
    split; [split; [done|by eapply claims_same]|]. split; [|rewrite Hsl; pose proof (stuck_nonneg c e msg Hsz Href); lia]. split; [by rewrite Hctr|].
    intros k Hk. rewrite Hesc. destruct (decide (ms_EscrowId msg = k)) as [<-|Hne]; [|rewrite lookup_insert_ne by done; apply escrow_evolves_refl].
    rewrite lookup_insert_eq, He. right. split; [apply (ac_open _ _ _ _ Hac)|done].
  - by destruct (settle_missing c msg c1).
Qed.

Lemma claims_step c msg :
  chain_inv c -> epochs_small c -> let c' := deliver (SetClaimRecipients msg) c in chain_inv c' /\ grows c c'.
Proof.
  intros [Hok Hcl] [Hep _] c'. unfold c', deliver, cached.
  assert (wp (SetClaimRecipients msg) (fun c' r => match r with Ok _ => exists x y, c' = set_Claims x y c /\ claims_ok c' | Err _ => True end) c) as Hwp.
  { unfold SetClaimRecipients. wp_step. apply wp_run. intros c1 r Hr. assert (c1 = c) as ->.
    { unfold CheckPermission in Hr. destruct (AccAddressFromBech32 _); by injection Hr as <- _. }
    destruct r as [[]|]; [|done]. wp_step. wp_step; [|done]. wp_step. apply wp_reads. wp_step. wp_step; [|done]. wp_step. wp_step; [|done].
    specialize (Hep _ Hopt0). unfold epoch_small in Hep.
    pose proof (entries_wp (fun c' r => match r with Ok _ => exists x y, c' = set_Claims x y c /\ claims_ok c' | Err _ => True end)
      v v0 (sc_Entries msg) c ltac:(lia) Hcl ltac:(intros x y ? _ _; by exists x, y) ltac:(done)) as Hwp.
    unfold wp, cached in *. by destruct (mfold _ tt (sc_Entries msg) c) as [c1 [[]|e]]. }
  unfold wp in Hwp. destruct (SetClaimRecipients msg c) as [c1 [[]|e]]; cbn [fst]; [|split; [done|by apply grows_same]].
  destruct Hwp as (x & y & -> & Hcl'). split; [split; [|done]|by apply grows_same].
  destruct Hok as [Ho1 Ho2 Ho3 Ho4 Ho5]. by split.
Qed.

Lemma prune_step c current :
  chain_inv c -> epochs_small c -> epoch_small current ->
  let c' := (Prune GetDevshardPruner current c).1 in chain_inv c' /\ grows c c'.
Proof.
  intros [Hok Hcl] (_ & st & Hst & Hm & _) Hc. unfold epoch_small in *.
  destruct (devshard_prune_run c st current) as (c' & st' & -> & Hap & _); [by split|].
  pose proof (ap_slack _ _ _ _ Hap) as Hsl. destruct Hap as [Hok' (_ & Hc1 & Hc2 & Hctr & _) Hsub _ _ _ _]. cbn. split; [split; [done|by eapply claims_same]|].
  split; [|done]. split; [by rewrite Hctr|]. intros id _. destruct (DevshardEscrows c' !! id) as [e|] eqn:He.
  - apply Hsub in He. rewrite He. by left.
  - by destruct (DevshardEscrows c !! id).
Qed.

Lemma prune_claims_step c current :
  chain_inv c -> epochs_small c -> epoch_small current ->
  let c' := (Prune GetClaimRecipientPruner current c).1 in chain_inv c' /\ grows c c'.
Proof.
  intros [Hok Hcl] (_ & st & Hst & _ & Hm) Hc. unfold epoch_small in *.
  set (lo := ps_ClaimRecipientsPrunedEpoch st + 1). set (hi := Z.max 0 (current - ClaimRecipientPruningThreshold)).
  destruct (prune_run GetClaimRecipientPruner lo hi (after_claims c lo hi)
    (claim_pruner_laws c lo hi ltac:(unfold lo; lia) ltac:(unfold hi, ClaimRecipientPruningThreshold; lia)) ltac:(unfold lo; lia)
    ltac:(unfold hi, ClaimRecipientPruningThreshold; lia) c st current) as (c' & st' & -> & Hap & _);
    try (cbn; unfold lo, hi, ClaimRecipientPruningThreshold; lia); [|done|].
  { split; [done| |by left]. exists (ClaimRecipients c), (ClaimRecipientsByEpoch c), (ch_PruningState c). by destruct c. }
  destruct Hap as [Hcl' (x & y & st2 & ->) _]. cbn. split; [split; [|done]|by apply grows_same].
  destruct Hok as [Ho1 Ho2 Ho3 Ho4 Ho5]. by split.
Qed.

Lemma module_inv SortFunc user c c' :
  sorts_randoms SortFunc -> chain_inv c -> module_step SortFunc user c c' -> chain_inv c' /\ grows c c'.
Proof.
  intros Hsort HI Hs. destruct Hs as [c msg _ Ht|c msg Hsz Hes Hsup|c msg He|c cur He Hc|c cur He Hc].
  - by apply create_step.
  - by apply settle_step.
  - by apply claims_step.
  - by apply prune_step.
  - by apply prune_claims_step.
Qed.

Lemma other_inv c c' : chain_inv c -> other_step c c' -> chain_inv c' /\ evolves c c'.
Proof.
  intros [[Ho1 Ho2 Ho3 Ho4 Ho5] Hcl] [(He & Hix & Hctr) (Hc1 & Hc2) Hp Hs].
  split; [split; [|by eapply claims_same]|by apply evolves_same]. split; rewrite ?He, ?Hix, ?Hctr; done.
Qed.

Lemma step_inv SortFunc c c' :
  sorts_randoms SortFunc -> chain_inv c -> chain_step SortFunc c c' -> chain_inv c' /\ evolves c c'.
Proof. intros Hsort HI Hs. destruct Hs as [c c' Hs|c c' Hs]; [by destruct (module_inv _ _ _ _ Hsort HI Hs) as [? [? _]]|by apply other_inv]. Qed.

Lemma trace_inv SortFunc c c' :
  sorts_randoms SortFunc -> chain_inv c -> rtc (chain_step SortFunc) c c' -> chain_inv c' /\ evolves c c'.
Proof.
  intros Hsort HI Hr. induction Hr as [c|c c1 c' Hs Hr IH]; [split; [done|by apply evolves_same]|].
  destruct (step_inv _ _ _ Hsort HI Hs) as [HI1 Hev]. destruct (IH HI1) as [HI' Hev']. split; [done|]. by eapply evolves_trans.
Qed.


(** C19: An escrow is paid out once.  After a settlement went through, whatever happens
    next, no other settlement of the same escrow goes through, and the pruner that
    removes it pays nothing. *)
Theorem escrow_paid_once SortFunc c escrow msg c1 c2 msg' :
  sorts_randoms SortFunc -> chain_inv c -> settling c escrow msg -> SettleDevshardEscrow msg c = (c1, Ok tt) ->
  rtc (chain_step SortFunc) c1 c2 -> ms_EscrowId msg' = ms_EscrowId msg -> msg_sized msg' ->
  Forall entry_sized (ms_HostStats msg') -> ModuleBalance (ch_World c2) < 2 ^ 63 ->
  (forall c3, SettleDevshardEscrow msg' c2 <> (c3, Ok tt)) /\
  (forall e, DevshardEscrows c2 !! ms_EscrowId msg = Some e ->
     remove_escrow (de_EpochIndex e, ms_EscrowId msg) c2 = (without c2 (de_EpochIndex e) (ms_EscrowId msg) (ch_World c2), Ok tt)).
Proof.
  intros Hsort HI Hset Hrun Hr Hid Hsz Hes Hsup.
  pose proof (settle_handler_wp False c escrow msg Hset ltac:(done)) as Hwp. unfold wp in Hwp. rewrite Hrun in Hwp.
  destruct Hwp as [_ _ Hesc _ _ _ _ (Hctr & Hc1 & Hc2 & _) _ Hok1].
  assert (DevshardEscrows c1 !! ms_EscrowId msg = Some (de_set_Settled true escrow)) as He1 by (by rewrite Hesc, lookup_insert_eq).
  destruct (trace_inv _ _ _ Hsort (conj Hok1 (claims_same _ _ Hc1 Hc2 (proj2 HI))) Hr) as [[Hok2 _] Hev].
  pose proof (ev_escrow _ _ Hev (ms_EscrowId msg) ltac:(apply (co_counter _ Hok1); eauto)) as Hee. rewrite He1 in Hee.
  assert (forall e, DevshardEscrows c2 !! ms_EscrowId msg = Some e -> de_Settled e = true) as Hsettled.
  { intros e He. rewrite He in Hee. destruct Hee as [->|[[=] _]]. done. }
  split.
  - intros c3 Hrun3. destruct (DevshardEscrows c2 !! ms_EscrowId msg) as [e|] eqn:He.
    + rewrite <-Hid in He. pose proof (settle_handler_wp False c2 e msg' ltac:(by split) ltac:(done)) as Hwp. unfold wp in Hwp. rewrite Hrun3 in Hwp.
      destruct (st_accepted _ _ _ _ Hwp) as (ps & _ & Hac). pose proof (ac_open _ _ _ _ Hac). specialize (Hsettled e eq_refl). congruence.
    + rewrite <-Hid in He. by apply (settle_missing c2 msg' c3).
  - intros e He. destruct (co_escrow _ Hok2 _ _ He) as (_ & Ha & _). specialize (Hsettled e He).
    destruct (remove_escrow_run False c2 (ms_EscrowId msg) e He Ha ltac:(done)) as (w & -> & Hw). rewrite Hsettled in Hw. by subst w.
Qed.

(* ------------------------------------------------------------------ *)
(** ** Escrows that pruning leaves behind *)

(** The pruner's mark is [m] or later; an escrow of [epoch] is stored under [id]. *)
Definition marked c (m : Z) : Prop := exists st, ch_PruningState c = Some st /\ m <= ps_DevshardPrunedEpoch st.
Definition stored c (epoch id : Z) : Prop := exists e, DevshardEscrows c !! id = Some e /\ de_EpochIndex e = epoch.

(** The steps of the chain where nothing but the pruner moves its mark back. *)
Inductive marking_step (SortFunc : list slotRandom -> list slotRandom) : CS -> CS -> Prop :=
| marking_module c c' : module_step SortFunc (fun _ => True) c c' -> marking_step SortFunc c c'
| marking_other c c' : other_step c c' -> (forall m, marked c m -> marked c' m) -> marking_step SortFunc c c'.

(** What is marked stays marked, and what the mark has passed stays stored. *)
Definition keeps_passed c c' : Prop :=
  forall m, marked c m -> marked c' m /\ forall epoch id, epoch <= m -> stored c epoch id -> stored c' epoch id.

Lemma passed_same c c' : (forall m, marked c m -> marked c' m) -> DevshardEscrows c' = DevshardEscrows c -> keeps_passed c c'.
Proof. intros Hm He m Hc. split; [by apply Hm|]. intros epoch id _. unfold stored. by rewrite He. Qed.
Lemma marked_same c c' m : ch_PruningState c' = ch_PruningState c -> marked c m -> marked c' m.
Proof. intros Hs. unfold marked. by rewrite Hs. Qed.
Lemma passed_trans c1 c2 c3 : keeps_passed c1 c2 -> keeps_passed c2 c3 -> keeps_passed c1 c3.
Proof.
  intros H12 H23 m Hm. destruct (H12 m Hm) as [Hm2 Hs2]. destruct (H23 m Hm2) as [Hm3 Hs3]. split; [done|]. eauto.
Qed.

Lemma passed_create SortFunc c msg : sorts_randoms SortFunc -> chain_inv c -> create_typed c msg ->
  keeps_passed c (deliver (CreateDevshardEscrow SortFunc msg) c).
Proof.
  intros Hsort [Hok Hcl] Ht. apply (deliver_cases _ c (keeps_passed c)); [by apply passed_same|].
  intros c1 id Hrun. pose proof (create_wp False SortFunc c msg Hsort (conj Hok Ht) ltac:(done)) as Hwp. unfold wp in Hwp. rewrite Hrun in Hwp.
  destruct Hwp as [(_ & _ & Hnew) (ep & sl & l & _ & _ & He & _) _ _ _ (_ & _ & _ & Hst) _ _]. intros m Hm. split; [by eapply marked_same|].
  intros epoch k _ (e & Hk & Hep). exists e. split; [|done]. rewrite He, lookup_insert_ne; [done|]. intros <-. by rewrite Hk in Hnew.
Qed.
Lemma passed_settle c msg : chain_inv c -> msg_sized msg -> Forall entry_sized (ms_HostStats msg) -> ModuleBalance (ch_World c) < 2 ^ 63 ->
  keeps_passed c (deliver (SettleDevshardEscrow msg) c).
Proof.
  intros [Hok Hcl] Hsz Hes Hsup. apply (deliver_cases _ c (keeps_passed c)); [by apply passed_same|].
  intros c1 [] Hrun. destruct (DevshardEscrows c !! ms_EscrowId msg) as [e|] eqn:He; [|by destruct (settle_missing c msg c1)].
  pose proof (settle_handler_wp False c e msg ltac:(by split) ltac:(done)) as Hwp. unfold wp in Hwp. rewrite Hrun in Hwp.
  destruct Hwp as [_ _ Hesc _ _ _ _ (_ & _ & _ & Hst) _ _]. intros m Hm. split; [by eapply marked_same|].
  intros epoch k _ (e1 & Hk & Hep). unfold stored. rewrite Hesc. destruct (decide (ms_EscrowId msg = k)) as [<-|Hne].
  - rewrite lookup_insert_eq. rewrite He in Hk. injection Hk as <-. by eexists.
  - rewrite lookup_insert_ne by done. by exists e1.
Qed.

Abbreviation books := (fun c => (ch_PruningState c, DevshardEscrows c)).
Lemma passed_claims c msg : keeps_passed c (deliver (SetClaimRecipients msg) c).
Proof.
  assert (keeps books eq (SetClaimRecipients msg : GoM CS string unit)) as Hk.
  { unfold SetClaimRecipients, applyClaimRecipientEntry, SetClaimRecipientForEpoch, RemoveClaimRecipientForEpoch.
    repeat ((apply keeps_pure; [exact _|intros x; unfold CheckPermission; by destruct (AccAddressFromBech32 _)]) || (apply keeps_cached; [exact _|]) || keeps_step). }
  apply (deliver_cases _ c (keeps_passed c)); [by apply passed_same|]. intros c' a Hrun. apply Hk in Hrun. injection Hrun as Hst He.
  apply passed_same; [|done]. intros m. by apply marked_same.
Qed.

Lemma passed_prune c current : chain_inv c -> epochs_small c -> epoch_small current -> keeps_passed c (Prune GetDevshardPruner current c).1.
Proof.
  intros [Hok Hcl] (_ & st & Hst & Hm & _) Hc. unfold epoch_small in *.
  destruct (devshard_prune_run c st current) as (c' & st' & -> & Hap & _ & Hst' & Hmark); [by split|]. cbn [fst].
  assert (ps_DevshardPrunedEpoch st <= ps_DevshardPrunedEpoch st') as Hge.
  { rewrite Hmark. apply mark_after_ge. intros x Hx%elem_of_seqZ. unfold prune_first in Hx. lia. }
  intros m (st0 & Hst0 & Hle). rewrite Hst in Hst0. injection Hst0 as <-. split; [exists st'; split; [done|lia]|].
  intros epoch id Hep (e & He & <-). exists e. split; [|done]. apply (ap_kept _ _ _ _ Hap); [done|]. unfold prune_first. lia.
Qed.

(** The pruner of claim recipients has a mark of its own. *)
Lemma passed_prune_claims c current : keeps_passed c (Prune GetClaimRecipientPruner current c).1.
Proof.
  set (marks := fun c : CS => (ps_DevshardPrunedEpoch <$> ch_PruningState c, DevshardEscrows c)).
  assert (forall A (m : GoM CS string A), keeps marks eq m -> keeps marks eq (attempt m)) as Hatt.
  { intros A m Hm x x' r. unfold attempt. destruct (m x) as [x1 [y|e]] eqn:Hx; [|case_bool_decide]; intros [= <- _]; by eapply Hm. }
  assert (forall e, keeps marks eq (prune_one GetClaimRecipientPruner tt e)) as Hone.
  { intros e. unfold prune_one, PruneEpoch. apply keeps_bind; [exact _| |].
    - apply Hatt. apply keeps_bind; [exact _|apply keeps_reads; exact _|]. intros keys. generalize (i64 (pr_PruningMax (GetClaimRecipientPruner (W := W)) - 0)) as left. generalize 0 as n.
      induction keys as [|k keys IH]; intros n left; cbn [prune_keys]; [keeps_step|].
      apply keeps_bind; [exact _| |intros _]; [|destruct (_ <=? _); [keeps_step|apply IH]]. cbn [pr_Remover GetClaimRecipientPruner]. unfold RemoveClaimRecipientForEpoch. keeps_step.
    - intros [n|err]; [|keeps_step]. destruct (n =? 0); [|keeps_step]. cbn [pr_PostPruneEpoch GetClaimRecipientPruner]. apply keeps_bind; [exact _|keeps_step|]. intros _.
      intros x x' r. unfold bind, reads, lift_option, marks. destruct (ch_PruningState x) as [st|] eqn:Hx; [|intros [= <- _]; by rewrite Hx]. cbn.
      destruct (_ <? e); intros [= <- _]; cbn; by rewrite ?Hx. }
  assert (keeps marks eq (Prune GetClaimRecipientPruner current)) as Hk.
  { unfold Prune. repeat (apply Hone || keeps_step). }
  destruct (Prune GetClaimRecipientPruner current c) as [c' r] eqn:Hrun. apply Hk in Hrun. injection Hrun as Hst He. cbn [fst]. apply passed_same; [|done].
  intros m (st & Hc & Hle). rewrite Hc in Hst. cbn in Hst. destruct (ch_PruningState c') as [st'|] eqn:Hc'; [|done]. injection Hst as Hst. exists st'. split; [done|lia].
Qed.

Lemma marking_passed SortFunc c c' : sorts_randoms SortFunc -> chain_inv c -> marking_step SortFunc c c' -> chain_inv c' /\ keeps_passed c c'.
Proof.
  intros Hsort HI Hs. destruct Hs as [c c' Hs|c c' Hs Hm].
  - split; [by destruct (module_inv _ _ _ _ Hsort HI Hs)|]. destruct Hs as [c msg _ Ht|c msg Hsz Hes Hsup|c msg He|c cur He Hc|c cur He Hc].
    + by apply passed_create.
    + by apply passed_settle.
    + apply passed_claims.
    + by apply passed_prune.
    + apply passed_prune_claims.
  - split; [by destruct (other_inv c c' HI Hs)|]. apply passed_same; [done|]. apply Hs.
Qed.

Lemma marking_trace SortFunc c c' : sorts_randoms SortFunc -> chain_inv c -> rtc (marking_step SortFunc) c c' -> chain_inv c' /\ keeps_passed c c'.
Proof.
  intros Hsort HI Hr. induction Hr as [c|c c1 c2 Hs Hr IH]; [split; [done|by apply passed_same]|].
  destruct (marking_passed _ _ _ Hsort HI Hs) as [HI1 Hp1]. destruct (IH HI1). split; [done|]. by eapply passed_trans.
Qed.

(** C39: Pruning leaves escrows behind.  When an epoch [e] of the window has more than 100
    escrows and a later epoch [e'] of the window has none, a run removes the first 100
    escrows of [e] and moves the mark to [e'] or later.  From then on, over any
    interleaving of opened and settled escrows, claim recipients, runs of the pruners and
    steps of other modules that do not move the mark back, the mark stays there and every
    escrow of [e] that is left stays stored and indexed: runs start after the mark.  Only
    a reset of the mark, such as that of an upgrade, can bring the pruner back to [e]. *)
Theorem prune_strands SortFunc c st current e e' :
  sorts_randoms SortFunc -> claims_ok c -> pruning c st current ->
  e ∈ prune_window st current -> e' ∈ prune_window st current -> e < e' ->
  100 < Z.of_nat (length (epoch_keys Z.le (DevshardEscrowsByEpoch c) e)) -> epoch_keys Z.le (DevshardEscrowsByEpoch c) e' = [] ->
  let left := drop 100 (epoch_keys Z.le (DevshardEscrowsByEpoch c) e) in
  exists c', Prune GetDevshardPruner current c = (c', Ok tt) /\ left <> [] /\ epoch_keys Z.le (DevshardEscrowsByEpoch c') e = left /\
    forall c2, rtc (marking_step SortFunc) c' c2 ->
      marked c2 e' /\ forall id, (e, id) ∈ left -> stored c2 e id /\ (e, id) ∈ DevshardEscrowsByEpoch c2.
Proof.
  intros Hsort Hcl Hp He He' Hlt Hlen Hnil left. destruct (devshard_prune_run _ _ _ Hp) as (c' & st' & Hrun & Hap & Hk & Hst' & Hmark).
  pose proof Hp as [Hok Hst Hm Hc]. assert (forall x, x ∈ prune_window st current -> prune_first st <= x <= prune_last current) as Hwin.
  { intros x Hx. apply elem_of_seqZ in Hx. lia. }
  assert (e' <= ps_DevshardPrunedEpoch st' <= prune_last current) as Hm'.
  { rewrite Hmark. apply mark_after_bounds; [apply seqZ_sorted|done|done|]. intros x Hx. by apply Hwin. }
  unfold prune_first, prune_last, DevshardPruningThreshold in *. pose proof (Hwin e He) as Hwe.
  assert (epoch_keys Z.le (DevshardEscrowsByEpoch c') e = left) as Hleft.
  { pose proof (Hk e ltac:(lia)) as Hke. cbn in Hke. by rewrite Hke, bool_decide_eq_true_2. }
  exists c'. split; [done|]. split; [|split; [done|]].
  { intros Hd. apply (f_equal length) in Hd. unfold left in Hd. rewrite length_drop in Hd. cbn [length] in Hd. lia. }
  assert (chain_inv c') as HI.
  { split; [apply Hap|]. destruct (ap_frame _ _ _ _ Hap) as (_ & Hc1 & Hc2 & _). by eapply claims_same. }
  intros c2 Hr. destruct (marking_trace _ _ _ Hsort HI Hr) as [[Hok2 _] Hpass].
  destruct (Hpass e') as [Hmk Hsto]; [exists st'; split; [done|lia]|]. split; [done|]. intros id Hid.
  assert (stored c2 e id) as Hs2.
  { apply Hsto; [lia|]. rewrite <-Hleft in Hid. apply elem_epoch_keys in Hid as [_ Hid]. by apply (co_index _ (proj1 HI)). }
  split; [done|]. by apply (co_index _ Hok2).
Qed.

End Trace.
