(* ===== verification/Settle.v ===== *)
(** * Settling the accounts of an epoch and claiming the rewards

    At the end of an epoch [SettleAccounts] (inference-chain/x/inference/keeper/
    accountsettle.go) mints the reward, sends the part of governance, resets the
    participants and records for each of them a settle amount (settle_amount.go);
    a participant claims it with [MsgClaimRewards] (msg_server_claim_rewards.go), which
    pays the work and the reward, directly or through the vesting module
    (payment_handler.go), and grants maintenance credit (maintenance.go).

    The verdict of [validateClaim] on the seed and the missed validations is an argument:
    it reads the state and changes nothing.  Log lines and the sub-account journal are
    left out. *)

From stdpp Require Import sorting.
From S2P Require Import Prelude.
From S2P Require Import GoStd.
From S2P Require Import ChainStore.
From S2P Require Import ChainDecimal.
From S2P Require Import ChainState.
From S2P Require Import ChainCoins.
From S2P Require Import Rewards.
Open Scope Z_scope.
Open Scope go_scope.

(* ------------------------------------------------------------------ *)
(** ** Data *)

(** [types.TokenomicsData] *)
Record TokenomicsData := MkTokenomics { tk_TotalFees : Z; tk_TotalSubsidies : Z; tk_TotalRefunded : Z; tk_TotalBurned : Z }.

(** [types.EpochPerformanceSummary] *)
Record EpochPerformanceSummary := MkPerformance {
  es_EpochIndex : Z; es_ParticipantId : string; es_InferenceCount : Z; es_MissedRequests : Z; es_EarnedCoins : Z;
  es_RewardedCoins : Z; es_BurnedCoins : Z; es_ValidatedInferences : Z; es_InvalidatedInferences : Z; es_Claimed : bool }.
Definition es_set_Claimed (s : EpochPerformanceSummary) : EpochPerformanceSummary :=
  MkPerformance (es_EpochIndex s) (es_ParticipantId s) (es_InferenceCount s) (es_MissedRequests s) (es_EarnedCoins s)
    (es_RewardedCoins s) (es_BurnedCoins s) (es_ValidatedInferences s) (es_InvalidatedInferences s) true.

(** [types.MaintenanceState], and the fields of [types.MaintenanceReservation] that are
    used. *)
Record MaintenanceState := MkMaintenance {
  mt_Participant : string; mt_CreditBlocks : Z; mt_LastMaintenanceEpoch : Z; mt_ActiveReservationId : Z;
  mt_ScheduledReservationId : Z; mt_LastMaintenanceEndEpoch : Z }.
Inductive MaintenanceReservationStatus :=
  Reservation_UNSPECIFIED | Reservation_SCHEDULED | Reservation_ACTIVE | Reservation_COMPLETED | Reservation_CANCELED.
#[export] Instance reservation_status_eq_dec : EqDecision MaintenanceReservationStatus.
Proof. solve_decision. Defined.
Record MaintenanceReservation := MkReservation { rv_StartHeight : Z; rv_DurationBlocks : Z; rv_Status : MaintenanceReservationStatus }.

(** The fields of [types.Params] that are used here: the rewards, the binomial test and
    whether claims are validated, the vesting periods of work and rewards, and the credit
    for maintenance. *)
Record ClaimValidation := MkClaimValidation { cv_BinomTestP0 : option Decimal; cv_ClaimValidationEnabled : bool }.
Record TokenomicsParams := MkTokenomicsParams { tp_WorkVestingPeriod : Z; tp_RewardVestingPeriod : Z }.
Record MaintenanceParams := MkMaintenanceParams { mp_MaintenanceEnabled : bool; mp_CreditCapBlocks : Z; mp_CreditEarnPerEpochBlocks : Z }.
Record SettleParams := MkSettleParams {
  pm_BitcoinRewardParams : option BitcoinRewardParams; pm_ValidationParams : option ClaimValidation;
  pm_TokenomicsParams : option TokenomicsParams; pm_MaintenanceParams : option MaintenanceParams }.

Record GenesisOnlyParams := MkGenesisOnly { go_StandardRewardAmount : Z; go_SupplyDenom : string }.
Record DelegationRewardTransferSnapshot := MkSnapshot {
  sn_EpochIndex : Z; sn_Transfers : list (option DelegationRewardTransfer); sn_Penalties : list (option DelegationRewardPenalty) }.

(** [types.MsgClaimRewards] and its response *)
Record MsgClaimRewards := MkMsgClaim { cr_Creator : string; cr_Seed : Z; cr_EpochIndex : Z }.
Record MsgClaimRewardsResponse := MkResponse { rs_Amount : Z; rs_Result : string }.

(** The collections of the settlement beside those of the escrows. *)
Record Treasury (W : Type) := MkTreasury {
  tr_Chain : Chain W;
  SettleAmounts : gmap AccAddress SettleAmount;
  tr_Tokenomics : option TokenomicsData;
  EpochPerformanceSummaries : gmap (AccAddress * Z) EpochPerformanceSummary;
  MaintenanceStates : gmap AccAddress MaintenanceState
}.
Arguments MkTreasury {W} _ _ _ _ _. Arguments tr_Chain {W} _. Arguments SettleAmounts {W} _. Arguments tr_Tokenomics {W} _.
Arguments EpochPerformanceSummaries {W} _. Arguments MaintenanceStates {W} _.

Section Setters.
Context {W : Type}.
Implicit Types (l : Treasury W).
Definition set_Chain c l : Treasury W := MkTreasury c (SettleAmounts l) (tr_Tokenomics l) (EpochPerformanceSummaries l) (MaintenanceStates l).
Definition set_SettleAmounts m l : Treasury W := MkTreasury (tr_Chain l) m (tr_Tokenomics l) (EpochPerformanceSummaries l) (MaintenanceStates l).
Definition set_Tokenomics t l : Treasury W := MkTreasury (tr_Chain l) (SettleAmounts l) (Some t) (EpochPerformanceSummaries l) (MaintenanceStates l).
Definition set_Performance m l : Treasury W := MkTreasury (tr_Chain l) (SettleAmounts l) (tr_Tokenomics l) m (MaintenanceStates l).
Definition set_Maintenance m l : Treasury W := MkTreasury (tr_Chain l) (SettleAmounts l) (tr_Tokenomics l) (EpochPerformanceSummaries l) m.
End Setters.

(* ------------------------------------------------------------------ *)
(** ** What the settlement calls and reads *)

(** The bank and the vesting module, for coins of this module: [BankKeeper.MintCoins],
    [SendCoinsFromModuleToModule] to the governance module, and
    [StreamVestingKeeper.AddVestedRewards] (recipient, coins, epochs). *)
Class RewardBank (W : Type) `{ChainEnv W} := {
  (** What the vesting module holds for an account. *)
  VestedBalance : W -> AccAddress -> Z;
  MintRewards : Z -> W -> W * outcome string unit;
  SendCoinsToGovernance : Z -> W -> W * outcome string unit;
  VestRewards : string -> Z -> Z -> W -> W * outcome string unit;
  (** [sdkerrors.ErrInsufficientFunds.Is(err)] *)
  ErrInsufficientFunds : string -> bool
}.

(** What other parts of the chain have stored. *)
Class SettleEnv (W : Type) := {
  SettleParamsOf : W -> option SettleParams;
  BlockHeightOf : W -> Z;
  ActiveParticipantsOf : W -> Z -> option (list ActiveParticipant);
  GetEpochGroupData : W -> Z -> string -> option EpochGroupData;
  (** In the order of the keys. *)
  GetAllEpochGroupData : W -> list EpochGroupData;
  DelegationSnapshot : W -> option DelegationRewardTransferSnapshot;
  (** [GraceEpochParams.BinomTestP0] *)
  PunishmentGraceEpoch : W -> Z -> option (option Decimal);
  GetGenesisOnlyParams : W -> option GenesisOnlyParams;
  (** [sdk.NormalizeCoin] *)
  NormalizeCoin : Coin -> Coin;
  MaintenanceReservations : W -> Z -> option MaintenanceReservation;
  (** [Epoch.PocStartBlockHeight] *)
  EpochStart : W -> Z -> option Z
}.

Section Operations.
Context {W : Type} `{!AccAddressCodec} `{!ChainEnv W} `{!ParticipantStatusKeeper W} `{!RewardBank W} `{!SettleEnv W}.
Context `{!CoinLib} `{!DecimalLib} `{!LegacyDecLib} `{!LegacyDecParse}.
Abbreviation TS := (Treasury W).
Abbreviation L := (GoM (Treasury W) fault).
Implicit Types (l : TS).

Definition world l : W := ch_World (tr_Chain l).

(** A call on the collections of [Chain], and on another module. *)
Definition on_chain {A} (m : GoM (Chain W) string A) : L A :=
  fun l => let '(c, r) := m (tr_Chain l) in (set_Chain c l, match r with Ok a => Ok a | Err e => Err (Failed e) end).
Definition on_module {A} (f : W -> W * outcome string A) : L A := on_chain (on_world f).

(** An error that is logged and passed over; a panic is not caught. *)
Definition ignore_error {A} (m : L A) : L unit :=
  fun l => match m l with
           | (l', Ok _) => (l', Ok tt)
           | (l', Err (Failed _)) => (l', Ok tt)
           | (l', Err Panicked) => (l', Err Panicked)
           end.

(* ------------------------------------------------------------------ *)
(** ** Tokenomics data and payments *)

(** [func (k Keeper) AddTokenomicsData(ctx, tokenomicsData) error]: a missing record
    counts as zero. *)
Definition AddTokenomicsData (d : TokenomicsData) : L unit :=
  modify (fun l =>
    let current := default (MkTokenomics 0 0 0 0) (tr_Tokenomics l) in
    set_Tokenomics (MkTokenomics (u64 (tk_TotalFees current + tk_TotalFees d)) (u64 (tk_TotalSubsidies current + tk_TotalSubsidies d))
      (u64 (tk_TotalRefunded current + tk_TotalRefunded d)) (u64 (tk_TotalBurned current + tk_TotalBurned d))) l).

(** [types.GetCoins]: panics on a negative amount. *)
Definition get_coins (n : Z) : L Z := from_outcome (or_panic (GetCoins n)).

(** [func (k *Keeper) MintRewardCoins(ctx, newCoins int64, memo) error] *)
Definition MintRewardCoins (newCoins : Z) : L unit :=
  if newCoins =? 0 then ret tt
  else
    run* check (negb (newCoins <? 0)) (Failed "cannot mint negative coins") in
    let* coins := get_coins newCoins in
    on_module (MintRewards coins).

(** [func (k *Keeper) PayParticipantFromModule(ctx, address, amount int64, moduleName, memo, vestingPeriods *uint64) error]
    for this module; [PayParticipantFromEscrow] is the same call. *)
Definition PayParticipantFromModule (address : string) (amount : Z) (vestingPeriods : option Z) : L unit :=
  let* participantAddress := lift_option (AccAddressFromBech32 address) (Failed "invalid address") in
  if amount =? 0 then ret tt
  else
    let* coins := get_coins amount in
    match vestingPeriods with
    | Some epochs =>
        if 0 <? epochs then cached (on_module (VestRewards address coins epochs))
        else on_module (SendCoinsFromModuleToAccount participantAddress coins)
    | None => on_module (SendCoinsFromModuleToAccount participantAddress coins)
    end.

(* ------------------------------------------------------------------ *)
(** ** Settle amounts *)

(** [func (sa *SettleAmount) GetTotalCoins() int64] *)
Definition GetTotalCoins (sa : SettleAmount) : Z :=
  let '(sum, carry) := Add64 (sa_RewardCoins sa) (sa_WorkCoins sa) in
  if negb (carry =? 0) || (MaxInt64 <? sum) then MaxInt64 else i64 sum.

Definition SetSettleAmount (sa : SettleAmount) : L unit :=
  let* addr := lift_option (AccAddressFromBech32 (sa_Participant sa)) (Failed "invalid address") in
  modify (fun l => set_SettleAmounts (<[addr := sa]> (SettleAmounts l)) l).
Definition GetSettleAmount l (participant : string) : option SettleAmount :=
  addr ← AccAddressFromBech32 participant; SettleAmounts l !! addr.
Definition RemoveSettleAmount (participant : string) : L unit :=
  match AccAddressFromBech32 participant with
  | None => ret tt
  | Some addr => modify (fun l => set_SettleAmounts (delete addr (SettleAmounts l)) l)
  end.
Definition GetAllSettleAmount l : list SettleAmount :=
  omap (fun a => SettleAmounts l !! a) (merge_sort bytes_le (elements (dom (SettleAmounts l)))).

Definition transferUnclaimedSettleAmountToGovernance (sa : SettleAmount) : L unit :=
  let totalCoins := GetTotalCoins sa in
  if 0 <? totalCoins then
    let* coins := get_coins totalCoins in
    on_module (SendCoinsToGovernance coins)
  else ret tt.

Definition SetSettleAmountWithGovernanceTransfer (sa : SettleAmount) : L unit :=
  let* existing := reads (fun l => GetSettleAmount l (sa_Participant sa)) in
  run* match existing with
       | Some existingSettle => ignore_error (transferUnclaimedSettleAmountToGovernance existingSettle)
       | None => ret tt
       end in
  SetSettleAmount sa.

(** One round of the loop of [TransferOldSettleAmountsToGovernance]. *)
Definition transfer_old (beforeEpochIndex : Z) (sa : SettleAmount) : L unit :=
  if sa_EpochIndex sa <? beforeEpochIndex then
    run* transferUnclaimedSettleAmountToGovernance sa in
    RemoveSettleAmount (sa_Participant sa)
  else ret tt.
Definition TransferOldSettleAmountsToGovernance (beforeEpochIndex : Z) : L unit :=
  let* all := reads GetAllSettleAmount in
  mfold (fun _ sa => transfer_old beforeEpochIndex sa) tt all.

(* ------------------------------------------------------------------ *)
(** ** Settling an epoch *)

(** [func (k *Keeper) GetSettleParameters(ctx) ( *SettleParameters, error)] *)
Definition GetSettleParameters l : outcome fault SettleParameters :=
  match tr_Tokenomics l with
  | None => Err (Failed "tokenomics data not found")
  | Some tokenomicsData =>
      match GetGenesisOnlyParams (world l) with
      | None => Err (Failed "genesis only params not found")
      | Some genesis =>
          run! ocheck (negb (go_StandardRewardAmount genesis <? 0)) Panicked in
          let! supply := Int_Int64 (cn_Amount (NormalizeCoin (MkCoin (go_SupplyDenom genesis) (go_StandardRewardAmount genesis)))) in
          Ok (MkSettleParameters (i64 (tk_TotalSubsidies tokenomicsData)) supply)
      end
  end.

(** [func (k Keeper) GetParticipants(ctx, addresses []string)] *)
Definition GetParticipants l (addresses : list string) : list Participant := omap (GetParticipant (tr_Chain l)) addresses.

(** [func (k *Keeper) AggregateMLNodesFromModelSubgroups(ctx, epochIndex, validationWeights)] *)
Definition nodes_of (groups : list EpochGroupData) (epochIndex : Z) (member : string) : gmap string (list (option MLNodeInfo)) :=
  fold_left (fun modelNodes subgroup =>
    if negb (eg_EpochIndex subgroup =? epochIndex) || bool_decide (eg_ModelId subgroup = "") then modelNodes
    else match List.find (fun v => bool_decide (vw_MemberAddress v = member)) (eg_ValidationWeights subgroup) with
         | Some subVw => <[eg_ModelId subgroup := vw_MlNodes subVw]> modelNodes
         | None => modelNodes
         end) groups ∅.
Definition AggregateMLNodesFromModelSubgroups l (epochIndex : Z) (validationWeights : list ValidationWeight) : NodesOf :=
  fold_left (fun nodes vw => <[vw_MemberAddress vw := nodes_of (GetAllEpochGroupData (world l)) epochIndex (vw_MemberAddress vw)]> nodes)
    validationWeights ∅.

(** [GetDelegationRewardTransfersForEpoch] and [GetDelegationRewardPenaltiesForEpoch] *)
Definition snapshot_of l (epochIndex : Z) : option DelegationRewardTransferSnapshot :=
  snapshot ← DelegationSnapshot (world l); if sn_EpochIndex snapshot =? epochIndex then Some snapshot else None.
Definition GetDelegationRewardTransfersForEpoch l (epochIndex : Z) : list (option DelegationRewardTransfer) :=
  default [] (sn_Transfers <$> snapshot_of l epochIndex).
Definition GetDelegationRewardPenaltiesForEpoch l (epochIndex : Z) : list (option DelegationRewardPenalty) :=
  default [] (sn_Penalties <$> snapshot_of l epochIndex).

(** [type bitcoinRewardInputs struct] *)
Record bitcoinRewardInputs := MkInputs {
  bi_Participants : list Participant; bi_EpochGroupData : EpochGroupData; bi_Params : SettleParams;
  bi_BinomTestP0 : option Decimal; bi_SettleParameters : SettleParameters; bi_ParticipantMLNodes : NodesOf;
  bi_RewardTransfers : list (option DelegationRewardTransfer); bi_RewardPenalties : list (option DelegationRewardPenalty) }.

(** The share of misses that is tested against, without and with a grace epoch. *)
Definition binom_p0 l (params : SettleParams) (epochIndex : Z) : option Decimal :=
  let validation := match pm_ValidationParams params with Some v => cv_BinomTestP0 v | None => Some (MkDecimal 1 (-1)) end in
  match PunishmentGraceEpoch (world l) epochIndex with
  | Some (Some grace) => Some grace
  | _ => validation
  end.

(** [func (k *Keeper) loadBitcoinRewardInputs(ctx, epochIndex) ( *bitcoinRewardInputs, bool, error)]:
    [None] when the epoch has no active participants. *)
Definition loadBitcoinRewardInputs l (epochIndex : Z) : outcome fault (option bitcoinRewardInputs) :=
  match ActiveParticipantsOf (world l) epochIndex with
  | None => Ok None
  | Some activeParticipants =>
      let allParticipants := GetParticipants l (ap_Index <$> activeParticipants) in
      match GetEpochGroupData (world l) epochIndex "" with
      | None => Err (Failed "current epoch group not found")
      | Some data =>
          match SettleParamsOf (world l) with
          | None => Err (Failed "params not found")
          | Some params =>
              let! settleParameters := GetSettleParameters l in
              Ok (Some (MkInputs allParticipants data params (binom_p0 l params epochIndex) settleParameters
                (AggregateMLNodesFromModelSubgroups l epochIndex (eg_ValidationWeights data))
                (GetDelegationRewardTransfersForEpoch l epochIndex) (GetDelegationRewardPenaltiesForEpoch l epochIndex)))
          end
      end
  end.

Definition SetEpochPerformanceSummary (s : EpochPerformanceSummary) : L unit :=
  let* addr := lift_option (AccAddressFromBech32 (es_ParticipantId s)) (Failed "invalid address") in
  modify (fun l => set_Performance (<[(addr, es_EpochIndex s) := s]> (EpochPerformanceSummaries l)) l).
Definition GetEpochPerformanceSummary l (epochIndex : Z) (participantId : string) : option EpochPerformanceSummary :=
  addr ← AccAddressFromBech32 participantId; EpochPerformanceSummaries l !! (addr, epochIndex).

(** The participant after its epoch, and the summary of the epoch. *)
Definition settled_participant (p : Participant) : Participant :=
  MkParticipant (pp_Index p) (pp_Address p) (pp_Weight p) (pp_JoinTime p) (pp_JoinHeight p) (pp_LastInferenceTime p)
    (pp_InferenceUrl p) (pp_Status p) 0 (pp_ValidatorKey p) (pp_ConsecutiveInvalidInferences p) (pp_WorkerPublicKey p)
    (if bool_decide (pp_Status p = Participant_ACTIVE) then u32 (pp_EpochsCompleted p + 1) else pp_EpochsCompleted p)
    (Some NewCurrentEpochStats).
Definition performance (epochIndex : Z) (p : Participant) (s : CurrentEpochStats) (sa : SettleAmount) : EpochPerformanceSummary :=
  MkPerformance epochIndex (pp_Address p) (ce_InferenceCount s) (ce_MissedRequests s) (sa_WorkCoins sa) (sa_RewardCoins sa) 0
    (ce_ValidatedInferences s) (ce_InvalidatedInferences s) false.

(** One round of the loop over the participants. *)
Definition settle_participant (epochIndex : Z) (pa : Participant * SettleResult) : L unit :=
  let '(p, amount) := pa in
  let* s := lift_option (pp_CurrentEpochStats p) Panicked in
  run* SetEpochPerformanceSummary (performance epochIndex p s (sr_Settle amount)) in
  on_chain (SetParticipant (settled_participant p)).

(** One round of the loop over the amounts. *)
Definition sa_set_epoch (epochIndex : Z) (signature : option string) (sa : SettleAmount) : SettleAmount :=
  MkSettleAmount (sa_Participant sa) (sa_RewardCoins sa) (sa_WorkCoins sa) epochIndex (default (sa_SeedSignature sa) signature)
    (sa_LastClaimAttempt sa).
Definition write_settle (epochIndex : Z) (seedSigMap : gmap string string) (amount : SettleResult) : L unit :=
  if sr_Error amount then ret tt
  else
    let sa := sr_Settle amount in
    let '(paymentSum, paymentCarry) := Add64 (sa_WorkCoins sa) (sa_RewardCoins sa) in
    if (paymentCarry =? 0) && (paymentSum =? 0) then ret tt
    else SetSettleAmountWithGovernanceTransfer (sa_set_epoch epochIndex (seedSigMap !! sa_Participant sa) sa).

(** The part of [SettleAccounts] that is committed at once. *)
Definition settle_epoch (epochIndex : Z) (inputs : bitcoinRewardInputs) (useBitcoinRewards : bool) (amounts : list SettleResult) (b : BitcoinResult) : L unit :=
  let seedSigMap := fold_left (fun m s => <[s.1 := s.2]> m) (eg_MemberSeedSignatures (bi_EpochGroupData inputs)) ∅ in
  run* MintRewardCoins (bt_Amount b) in
  run* AddTokenomicsData (MkTokenomics 0 (u64 (bt_Amount b)) 0 0) in
  run* (if useBitcoinRewards && (0 <? bt_GovernanceAmount b) then
          let* coins := get_coins (bt_GovernanceAmount b) in
          on_module (SendCoinsToGovernance coins)
        else ret tt) in
  run* mfold (fun _ pa => settle_participant epochIndex pa) tt (zip (bi_Participants inputs) amounts) in
  mfold (fun _ amount => write_settle epochIndex seedSigMap amount) tt amounts.

(** [func (k *Keeper) SettleAccounts(ctx, currentEpochIndex, previousEpochIndex) error] *)
Definition SettleAccounts (currentEpochIndex previousEpochIndex : Z) : L unit :=
  if currentEpochIndex =? 0 then ret tt
  else
    let* l := get in
    let* found := from_outcome (loadBitcoinRewardInputs l currentEpochIndex) in
    match found with
    | None => ret tt
    | Some inputs =>
        let* bitcoinParams := lift_option (pm_BitcoinRewardParams (bi_Params inputs)) (Failed "bitcoinParams cannot be nil") in
        let* (amounts, b) := from_outcome (GetBitcoinSettleAmountsWithTransfers (bi_Participants inputs) (bi_EpochGroupData inputs) bitcoinParams
          (bi_BinomTestP0 inputs) (bi_SettleParameters inputs) (bi_ParticipantMLNodes inputs) (bi_RewardTransfers inputs) (bi_RewardPenalties inputs)) in
        run* check (negb (bt_Amount b <? 0)) (Failed "negative reward amount") in
        run* cached (settle_epoch currentEpochIndex inputs (br_UseBitcoinRewards bitcoinParams) amounts b) in
        if 0 <? previousEpochIndex then ignore_error (TransferOldSettleAmountsToGovernance previousEpochIndex) else ret tt
    end.

(* ------------------------------------------------------------------ *)
(** ** Maintenance credit *)

(** [types.DefaultMaintenanceParams] and [GetMaintenanceParams] *)
Definition DefaultMaintenanceParams : MaintenanceParams := MkMaintenanceParams false 400 20.
Definition GetMaintenanceParams (params : SettleParams) : MaintenanceParams := default DefaultMaintenanceParams (pm_MaintenanceParams params).

(** [func (k Keeper) activeReservationCoversEpoch(ctx, r, epochIndex) bool] *)
Definition activeReservationCoversEpoch l (r : MaintenanceReservation) (epochIndex : Z) : bool :=
  match EpochStart (world l) epochIndex with
  | None => true
  | Some epochStart =>
      let epochEnd := match EpochStart (world l) (u64 (epochIndex + 1)) with
                      | Some next => if 0 <? next then i64 (next - 1) else MaxInt64
                      | None => MaxInt64
                      end in
      let resStart := rv_StartHeight r in
      let resEnd := i64 (i64 (rv_StartHeight r + i64 (rv_DurationBlocks r)) - 1) in
      (resStart <=? epochEnd) && (epochStart <=? resEnd)
  end.

(** [func (k Keeper) maintenanceStateCoversEpoch(ctx, state, epochIndex) bool] *)
Definition maintenanceStateCoversEpoch l (state : MaintenanceState) (epochIndex : Z) : bool :=
  let active :=
    if mt_ActiveReservationId state =? 0 then false
    else match MaintenanceReservations (world l) (mt_ActiveReservationId state) with
         | Some r => bool_decide (rv_Status r = Reservation_ACTIVE) && activeReservationCoversEpoch l r epochIndex
         | None => false
         end in
  active || (negb (epochIndex =? 0) && (mt_LastMaintenanceEpoch state <=? epochIndex) && (epochIndex <=? mt_LastMaintenanceEndEpoch state)).

Definition SetMaintenanceState (state : MaintenanceState) : L unit :=
  let* addr := lift_option (AccAddressFromBech32 (mt_Participant state)) (Failed "invalid address") in
  modify (fun l => set_Maintenance (<[addr := state]> (MaintenanceStates l)) l).
Definition GetOrCreateMaintenanceState l (a : AccAddress) : MaintenanceState :=
  default (MkMaintenance (AccAddress_String a) 0 0 0 0 0) (MaintenanceStates l !! a).

(** [func (k Keeper) GrantMaintenanceCredit(ctx, participant, epochIndex) error] *)
Definition GrantMaintenanceCredit (params : SettleParams) (participant : string) (epochIndex : Z) : L unit :=
  let mp := GetMaintenanceParams params in
  if negb (mp_MaintenanceEnabled mp) || (mp_CreditEarnPerEpochBlocks mp =? 0) then ret tt
  else
    let* a := lift_option (AccAddressFromBech32 participant) (Failed "invalid participant address") in
    let* l := get in
    let state := GetOrCreateMaintenanceState l a in
    if maintenanceStateCoversEpoch l state epochIndex then ret tt
    else
      let earned := u64 (mt_CreditBlocks state + mp_CreditEarnPerEpochBlocks mp) in
      let credit := if mp_CreditCapBlocks mp <? earned then mp_CreditCapBlocks mp else earned in
      SetMaintenanceState (MkMaintenance (mt_Participant state) credit (mt_LastMaintenanceEpoch state) (mt_ActiveReservationId state)
        (mt_ScheduledReservationId state) (mt_LastMaintenanceEndEpoch state)).

(* ------------------------------------------------------------------ *)
(** ** Claims *)

(** A claim that is answered without a payment, or a panic. *)
Inductive refusal := Refused (r : MsgClaimRewardsResponse) | Broken.
Abbreviation R := (GoM (Treasury W) refusal).
Definition refuse {A} (result : string) : R A := fail (Refused (MkResponse 0 result)).
(** A step whose error is answered with [result]. *)
Definition answering {A} (m : L A) (result : string -> string) : R A :=
  fun l => match m l with
           | (l', Ok a) => (l', Ok a)
           | (l', Err (Failed e)) => (l', Err (Refused (MkResponse 0 (result e))))
           | (l', Err Panicked) => (l', Err Broken)
           end.

(** [func (k Keeper) RequireActiveParticipantAtOffset(ctx, addr, epochOffset) error] *)
Definition RequireActiveParticipantAtOffset (c : Chain W) (addr : AccAddress) (epochOffset : Z) : bool :=
  match EffectiveEpochIndex c with
  | None => false
  | Some currentEpoch => negb (currentEpoch <? epochOffset) && bool_decide ((u64 (currentEpoch - epochOffset), addr) ∈ ActiveParticipantsSet c)
  end.
(** [CheckPermission] for a participant that is active in the epoch or was in the
    previous one. *)
Definition CheckClaimPermission l (signer : string) : bool :=
  match AccAddressFromBech32 signer with
  | None => false
  | Some a => RequireActiveParticipantAtOffset (tr_Chain l) a 0 || RequireActiveParticipantAtOffset (tr_Chain l) a 1
  end.

Definition sa_set_attempt (height : Z) (sa : SettleAmount) : SettleAmount :=
  MkSettleAmount (sa_Participant sa) (sa_RewardCoins sa) (sa_WorkCoins sa) (sa_EpochIndex sa) (sa_SeedSignature sa) height.

(** [func (k msgServer) validateRequest(ctx, msg) ( *SettleAmount, *Response)] *)
Definition validateRequest (msg : MsgClaimRewards) : R SettleAmount :=
  let* l := get in
  match EffectiveEpochIndex (tr_Chain l) with
  | None => refuse "Can't validate claim, current epoch group not found"
  | Some currentEpochIndex =>
      if currentEpochIndex =? 0 then refuse "Can't validate claim, current epoch group does not match previous epoch"
      else if negb (u64 (currentEpochIndex - 1) =? cr_EpochIndex msg) then refuse "Can't validate claim, current epoch group does not match previous epoch"
      else match GetSettleAmount l (cr_Creator msg) with
      | None => refuse "No rewards for this address"
      | Some settleAmount =>
          if negb (sa_EpochIndex settleAmount =? cr_EpochIndex msg) then refuse "No rewards for this block height"
          else if i64 (BlockHeightOf (world l) - sa_LastClaimAttempt settleAmount) <? 30 then refuse "Claim rate limited"
          else
            let settleAmount' := sa_set_attempt (BlockHeightOf (world l)) settleAmount in
            run* answering (SetSettleAmount settleAmount') (fun _ => "Internal error updating settle amount") in
            if GetTotalCoins settleAmount' =? 0 then refuse "No rewards for this address" else ret settleAmount'
      end
  end.

(** [func (ms msgServer) resolvePayoutAddress(ctx, participant, epoch) (string, error)] *)
Definition resolvePayoutAddress l (participant : string) (epoch : Z) : outcome fault string :=
  match ResolveClaimRecipientAddress (tr_Chain l) participant epoch with
  | Ok addr => Ok (AccAddress_String addr)
  | Err e => Err (Failed e)
  end.

(** [func (ms msgServer) finishSettle(ctx, settleAmount)] *)
Definition finishSettle (params : SettleParams) (sa : SettleAmount) : L unit :=
  run* RemoveSettleAmount (sa_Participant sa) in
  let* found := reads (fun l => GetEpochPerformanceSummary l (sa_EpochIndex sa) (sa_Participant sa)) in
  run* match found with
       | Some perfSummary => ignore_error (SetEpochPerformanceSummary (es_set_Claimed perfSummary))
       | None => ret tt
       end in
  ignore_error (GrantMaintenanceCredit params (sa_Participant sa) (sa_EpochIndex sa)).

Definition insufficient (yes no : string) (e : string) : string := if ErrInsufficientFunds e then yes else no.

(** [func (ms msgServer) payoutClaim(ctx, msg, settleAmount) ( *Response, error)].  Its
    last check, that the sum is not negative, never fails. *)
Definition payoutClaim (params : SettleParams) (msg : MsgClaimRewards) (sa : SettleAmount) : R MsgClaimRewardsResponse :=
  cached (
    let* payoutAddress := answering (fun l => (l, resolvePayoutAddress l (cr_Creator msg) (cr_EpochIndex msg)))
      (fun _ => "Claim recipient lookup failed, claim can be retried") in
    let* tokenomics := lift_option (pm_TokenomicsParams params) Broken in
    run* answering (PayParticipantFromModule payoutAddress (i64 (sa_WorkCoins sa)) (Some (tp_WorkVestingPeriod tokenomics)))
      (insufficient "Insufficient funds for paying participant for work, claim can be retried" "Error paying participant from escrow, claim can be retried") in
    run* answering (ignore_error (AddTokenomicsData (MkTokenomics (sa_WorkCoins sa) 0 0 0))) (fun e => e) in
    run* answering (PayParticipantFromModule payoutAddress (i64 (sa_RewardCoins sa)) (Some (tp_RewardVestingPeriod tokenomics)))
      (fun _ => "Reward payment failed, claim can be retried") in
    run* answering (finishSettle params sa) (fun e => e) in
    ret (MkResponse (u64 (GetTotalCoins sa)) "Rewards claimed successfully")).

(** The answer that refuses a claim, when claims are validated; [validateClaim] is the
    verdict on the seed and the missed validations. *)
Abbreviation Verdict := (TS -> MsgClaimRewards -> SettleAmount -> option string).
Definition claim_verdict (validateClaim : Verdict) (params : SettleParams) l msg (sa : SettleAmount) : option string :=
  match pm_ValidationParams params with
  | Some v => if cv_ClaimValidationEnabled v then validateClaim l msg sa else None
  | None => None
  end.

(** [func (k msgServer) ClaimRewards(goCtx, msg) ( *Response, error)] *)
Definition ClaimRewards (validateClaim : Verdict) (msg : MsgClaimRewards) : L MsgClaimRewardsResponse :=
  let* l := get in
  run* check (CheckClaimPermission l (cr_Creator msg)) (Failed "active participant not found") in
  let* params := lift_option (SettleParamsOf (world l)) (Failed "params not found") in
  fun l0 =>
    match (let* sa := validateRequest msg in
           let* l1 := get in
           run* match claim_verdict validateClaim params l1 msg sa with Some result => refuse result | None => ret tt end in
           payoutClaim params msg sa) l0 with
    | (l', Ok response) => (l', Ok response)
    | (l', Err (Refused response)) => (l', Ok response)
    | (l', Err Broken) => (l', Err Panicked)
    end.
End Operations.
