(* ===== verification/SettleSpec.v ===== *)
(** * What settling an epoch and claiming promise

    The unclaimed amounts are a debt of the module beside the open escrows and the coin
    balances.  The settlement of an epoch turns coin balances and the minted reward into
    such amounts, coin by coin; a claim pays one of them in full or changes nothing. *)

From stdpp Require Import sorting.
From S2P Require Import Prelude.
From S2P Require Import GoStd.
From S2P Require Import ChainStore.
From S2P Require Import ChainDecimal.
From S2P Require Import ChainState.
From S2P Require Import ChainCoins.
From S2P Require Import Rewards.
From S2P Require Import RewardsSpec.
From S2P Require Import ChainEscrow.
From S2P Require Import Settle.
Open Scope Z_scope.
Open Scope go_scope.

(** What the bank and the vesting module promise: coins move exactly or not at all, and
    governance can always be paid. *)
Class RewardBankLaws (W : Type) `{!AccAddressCodec} `{!ChainEnv W} `{!RewardBank W} := {
  VestingAccount : AccAddress;
  mint_done : forall n w w', 0 < n -> MintRewards n w = (w', Ok tt) ->
    ModuleBalance w' = ModuleBalance w + n /\ (forall a, a <> ModuleAccount -> AccountBalance w' a = AccountBalance w a);
  governance_paid : forall n w, 0 < n <= ModuleBalance w -> exists w', SendCoinsToGovernance n w = (w', Ok tt) /\
    ModuleBalance w' = ModuleBalance w - n /\
    (forall a, a <> ModuleAccount -> AccountBalance w' a = AccountBalance w a + if bool_decide (a = GovernanceAccount) then n else 0);
  vest_done : forall s a n epochs w w', AccAddressFromBech32 s = Some a -> 0 < n -> 0 < epochs -> VestRewards s n epochs w = (w', Ok tt) ->
    n <= ModuleBalance w /\ ModuleBalance w' = ModuleBalance w - n /\
    (forall b, b <> ModuleAccount -> b <> VestingAccount -> AccountBalance w' b = AccountBalance w b) /\
    (forall b, VestedBalance w' b = VestedBalance w b + if bool_decide (b = a) then n else 0);
  send_vested : forall a n w w', SendCoinsFromModuleToAccount a n w = (w', Ok tt) -> forall b, VestedBalance w' b = VestedBalance w b
}.

Section Spec.
Context {W : Type} `{!AccAddressCodec} `{!ChainEnv W} `{!ChainEnvLaws W}.
Context `{!ParticipantStatusKeeper W} `{!ParticipantStatusLaws W} `{!RewardBank W} `{!RewardBankLaws W} `{!SettleEnv W}.
Abbreviation CS := (Chain W).
Abbreviation TS := (Treasury W).
Implicit Types (c : CS) (l : TS) (w : W).

(* ------------------------------------------------------------------ *)
(** ** The books *)

Definition coins (sa : SettleAmount) : Z := sa_RewardCoins sa + sa_WorkCoins sa.
Definition unclaimed l : Z := msum (fun _ sa => coins sa) (SettleAmounts l).
(** What the module has beyond its debts. *)
Definition reserve l : Z := slack (tr_Chain l) - unclaimed l.
Definition holdings l : Z := ModuleBalance (world l).

Record amount_ok (a : AccAddress) (sa : SettleAmount) : Prop := {
  ao_key : AccAddressFromBech32 (sa_Participant sa) = Some a;
  ao_reward : 0 <= sa_RewardCoins sa;
  ao_work : 0 <= sa_WorkCoins sa
}.
Definition amounts_ok l : Prop := forall a sa, SettleAmounts l !! a = Some sa -> amount_ok a sa.
Record treasury_ok l : Prop := {
  lo_chain : chain_ok (tr_Chain l);
  lo_amounts : amounts_ok l;
  lo_solvent : 0 <= reserve l
}.

Lemma coins_nonneg a sa : amount_ok a sa -> 0 <= coins sa.
Proof. intros [_ Hr Hw]. unfold coins. lia. Qed.

Lemma coins_unclaimed l a sa : amounts_ok l -> SettleAmounts l !! a = Some sa -> coins sa <= unclaimed l.
Proof. intros Hok Ha. apply (msum_lookup_le (fun _ sa => coins sa) (SettleAmounts l) a sa); [|done]. intros b x Hb. by eapply coins_nonneg, Hok. Qed.

Lemma unclaimed_nonneg l : amounts_ok l -> 0 <= unclaimed l.
Proof. intros Hok. apply msum_nonneg. intros a sa Ha. by eapply coins_nonneg, Hok. Qed.

Lemma balances_nonneg c : participants_ok c -> 0 <= owed c.
Proof. intros Hok. apply msum_nonneg. intros a p Hp. by apply (Hok a p). Qed.

Lemma locked_nonneg c : chain_ok c -> 0 <= locked c.
Proof. intros Hok. apply msum_nonneg. intros id e He. pose proof (co_escrow _ Hok id e He). unfold open_amount. case_match; lia. Qed.

Lemma slack_holdings c : chain_ok c -> slack c <= ModuleBalance (ch_World c).
Proof. intros Hok. unfold slack. pose proof (balances_nonneg c (co_participant _ Hok)). pose proof (locked_nonneg c Hok). lia. Qed.

Lemma total_coins sa : 0 <= sa_RewardCoins sa -> 0 <= sa_WorkCoins sa -> coins sa < 2 ^ 63 -> GetTotalCoins sa = coins sa.
Proof.
  intros Hr Hw Hs. unfold GetTotalCoins, coins in *. unfold Add64. rewrite Z.div_small, u64_small by (unfold is_u64; lia).
  destruct (Z.ltb_spec MaxInt64 (sa_RewardCoins sa + sa_WorkCoins sa)) as [Hm|_]; [unfold MaxInt64 in Hm; lia|]. apply i64_small. unfold is_i64. lia.
Qed.

(* ------------------------------------------------------------------ *)
(** ** Payments to governance *)

(** The treasury after [n] coins went to governance, with settle amounts [m]. *)
Record gave l n m l' : Prop := {
  gv_state : exists w, l' = set_SettleAmounts m (set_Chain (set_World w (tr_Chain l)) l);
  gv_balance : holdings l' = holdings l - n;
  gv_accounts : forall a, a <> ModuleAccount ->
    AccountBalance (world l') a = AccountBalance (world l) a + if bool_decide (a = GovernanceAccount) then n else 0
}.

Lemma gave_none l : gave l 0 (SettleAmounts l) l.
Proof. split; [exists (world l); by destruct l as [[]]|lia|]. intros a _. case_bool_decide; lia. Qed.

Lemma gave_trans l1 l2 l3 n n' m m' : gave l1 n m l2 -> gave l2 n' m' l3 -> gave l1 (n + n') m' l3.
Proof.
  intros [(w & ->) Hb Ha] [(w' & ->) Hb' Ha']. split.
  - by exists w'.
  - lia.
  - intros a Hm. rewrite Ha', Ha by done. case_bool_decide; lia.
Qed.

Lemma gave_reserve l n m l' : gave l n m l' -> reserve l' = reserve l - n + (unclaimed l - unclaimed l').
Proof. intros [(w & ->) Hb _]. unfold reserve, slack, locked, owed, holdings, world in *. cbn in *. lia. Qed.

Lemma gave_unclaimed l n m l' : gave l n m l' -> SettleAmounts l' = m.
Proof. by intros [(w & ->) _ _]. Qed.

Lemma gave_chain_ok l n m l' : gave l n m l' -> 0 <= slack (tr_Chain l') -> chain_ok (tr_Chain l) -> chain_ok (tr_Chain l').
Proof. intros [(w & ->) _ _] Hs [H1 H2 H3 H4 _]. by split. Qed.

Lemma send_governance_wp l n :
  0 < n <= holdings l -> wp (on_module (SendCoinsToGovernance n)) (fun l' r => r = Ok tt /\ gave l n (SettleAmounts l) l') l.
Proof.
  intros Hn. destruct (governance_paid n (world l) Hn) as (w & Hrun & Hb & Ha). unfold wp, on_module, on_chain, on_world.
  fold (world l). rewrite Hrun. split; [done|]. split; [by exists w|done|done].
Qed.

(** An amount goes to governance whenever the module has it. *)
Lemma to_governance_wp l sa :
  0 <= sa_RewardCoins sa -> 0 <= sa_WorkCoins sa -> coins sa <= holdings l < 2 ^ 63 ->
  wp (transferUnclaimedSettleAmountToGovernance sa) (fun l' r => r = Ok tt /\ gave l (coins sa) (SettleAmounts l) l') l.
Proof.
  intros Hr Hw Hc. unfold transferUnclaimedSettleAmountToGovernance. rewrite total_coins by lia.
  destruct (Z.ltb_spec 0 (coins sa)).
  - unfold get_coins, GetCoins. destruct (Z.ltb_spec (coins sa) 0); [lia|]. wp_step. apply wp_ret. apply send_governance_wp. lia.
  - apply wp_ret. split; [done|]. replace (coins sa) with 0 by (unfold coins in *; lia). apply gave_none.
Qed.

(* ------------------------------------------------------------------ *)
(** ** Old amounts *)

Lemma remove_amount l a sa : amount_ok a sa ->
  RemoveSettleAmount (sa_Participant sa) l = (set_SettleAmounts (delete a (SettleAmounts l)) l, Ok tt).
Proof. intros [Hk _ _]. unfold RemoveSettleAmount. by rewrite Hk. Qed.

(** The amounts that are left when those of the epochs before [e] among [keys] are gone. *)
Definition unexpired (e : Z) (keys : list AccAddress) (m : gmap AccAddress SettleAmount) : gmap AccAddress SettleAmount :=
  filter (fun kv => kv.1 ∉ keys \/ e <= sa_EpochIndex kv.2) m.

Lemma unexpired_nil (e : Z) m : unexpired e [] m = m.
Proof. apply map_filter_id. intros a sa _. left. apply not_elem_of_nil. Qed.

Lemma unexpired_keep (e : Z) (a : AccAddress) (ks : list AccAddress) (m : gmap AccAddress SettleAmount) :
  (forall sa, m !! a = Some sa -> e <= sa_EpochIndex sa) -> unexpired e (a :: ks) m = unexpired e ks m.
Proof.
  intros Hk. apply map_filter_ext. intros b sa Hb. cbn. rewrite not_elem_of_cons.
  destruct (decide (a = b)) as [<-|]; [specialize (Hk _ Hb)|]; naive_solver.
Qed.

Lemma unexpired_drop (e : Z) (a : AccAddress) (ks : list AccAddress) (m : gmap AccAddress SettleAmount) sa :
  a ∉ ks -> m !! a = Some sa -> sa_EpochIndex sa < e -> unexpired e (a :: ks) m = unexpired e ks (delete a m).
Proof.
  intros Hn Ha He. apply map_eq. intros b. unfold unexpired. rewrite !map_lookup_filter.
  destruct (decide (a = b)) as [<-|Hne]; [rewrite lookup_delete_eq, Ha|rewrite lookup_delete_ne by done].
  - cbn. rewrite option_guard_False; [done|]. cbn. rewrite not_elem_of_cons. intros [[]|]; [done|lia].
  - destruct (m !! b) as [x|]; [|done]. cbn. apply option_guard_iff. rewrite not_elem_of_cons. naive_solver.
Qed.

Lemma transfer_old_loop (e : Z) (m0 : gmap AccAddress SettleAmount) (ks : list AccAddress) l :
  NoDup ks -> (forall a, a ∈ ks -> SettleAmounts l !! a = m0 !! a) -> amounts_ok l -> unclaimed l <= holdings l < 2 ^ 63 ->
  wp (mfold (fun _ sa => transfer_old e sa) tt (omap (fun a => m0 !! a) ks)) (fun l' r => r = Ok tt /\
    exists n, gave l n (unexpired e ks (SettleAmounts l)) l' /\ n = unclaimed l - unclaimed l') l.
Proof.
  revert l. induction ks as [|a ks IH]; intros l Hnd Hm0 Hok Hb.
  { change (omap _ []) with (@nil SettleAmount). apply wp_ret. split; [done|]. exists 0. rewrite unexpired_nil. split; [apply gave_none|lia]. }
  apply NoDup_cons in Hnd as [Hn Hnd]. change (omap ?f (a :: ks)) with (match f a with Some y => y :: omap f ks | None => omap f ks end). cbv beta. destruct (m0 !! a) as [sa|] eqn:Ha.
  2: { rewrite unexpired_keep; [apply IH; set_solver|]. intros sa. by rewrite Hm0, Ha by set_solver. }
  assert (SettleAmounts l !! a = Some sa) as Hl by (rewrite Hm0 by set_solver; done). pose proof (Hok _ _ Hl) as Hsa. cbn [mfold]. wp_step.
  unfold transfer_old at 1. destruct (Z.ltb_spec (sa_EpochIndex sa) e) as [He|He].
  2: { apply wp_ret. rewrite unexpired_keep; [apply IH; set_solver|]. intros x. rewrite Hl. by intros [= <-]. }
  rewrite (unexpired_drop e a ks _ sa Hn Hl He). pose proof (coins_unclaimed _ _ _ Hok Hl) as Hc. wp_step.
  eapply wp_mono; [apply (to_governance_wp l sa (ao_reward _ _ Hsa) (ao_work _ _ Hsa)); lia|]. cbv beta. intros l1 r [-> Hg]. cbn.
  unfold wp at 1. rewrite (remove_amount l1 a sa Hsa). set (l2 := set_SettleAmounts _ l1). destruct Hg as [(w & Hl1) Hg1 Hg2].
  assert (SettleAmounts l2 = delete a (SettleAmounts l)) as Hm2 by (subst; done).
  assert (unclaimed l2 = unclaimed l - coins sa) as Hu by (unfold unclaimed; rewrite Hm2, (msum_delete_option coins), Hl; done).
  assert (gave l (coins sa) (delete a (SettleAmounts l)) l2) as Hg by (split; [exists w; by subst|done|done]).
  eapply wp_mono; [apply (IH l2 Hnd)|].
  - intros b Hb'. rewrite Hm2, lookup_delete_ne by set_solver. apply Hm0. set_solver.
  - intros b x. rewrite Hm2. intros [_ Hx]%lookup_delete_Some. by apply Hok.
  - assert (holdings l2 = holdings l1) by done. pose proof (coins_nonneg _ _ Hsa). lia.
  - cbv beta. rewrite Hm2. intros l' r (-> & n & Hg' & ->). split; [done|]. eexists. split; [by eapply gave_trans|]. lia.
Qed.

(** Every amount of an epoch before [e] goes to governance, and only those. *)
Lemma transfer_old_wp e l :
  amounts_ok l -> unclaimed l <= holdings l < 2 ^ 63 ->
  wp (TransferOldSettleAmountsToGovernance e) (fun l' r => r = Ok tt /\
    exists n, gave l n (filter (fun kv => e <= sa_EpochIndex kv.2) (SettleAmounts l)) l' /\ n = unclaimed l - unclaimed l') l.
Proof.
  intros Hok Hb. unfold TransferOldSettleAmountsToGovernance. wp_step. apply wp_reads. unfold GetAllSettleAmount.
  set (ks := merge_sort bytes_le _). assert (forall a, a ∈ ks <-> is_Some (SettleAmounts l !! a)) as Hks.
  { intros a. unfold ks. rewrite (merge_sort_Permutation bytes_le), elem_of_elements. apply elem_of_dom. }
  assert (NoDup ks) as Hnd by (unfold ks; rewrite (merge_sort_Permutation bytes_le); apply NoDup_elements).
  eapply wp_mono; [by apply (transfer_old_loop e (SettleAmounts l) ks l)|]. cbv beta. intros l' r (-> & n & Hg & Hn). split; [done|]. exists n.
  split; [|done]. enough (filter (fun kv => e <= sa_EpochIndex kv.2) (SettleAmounts l) = unexpired e ks (SettleAmounts l)) as -> by done.
  apply map_filter_ext. intros a sa Ha. cbn. rewrite Hks. split; [by right|]. intros [Hx|]; [|done]. destruct Hx. by eexists.
Qed.

(* ------------------------------------------------------------------ *)
(** ** New amounts *)

Implicit Types (r : SettleResult) (m : gmap AccAddress SettleAmount) (sigs : gmap string string).

Definition akey r : AccAddress := default [] (AccAddressFromBech32 (sa_Participant (sr_Settle r))).
Definition payable r : bool := negb (sr_Error r) && (0 <? coins (sr_Settle r)).
Definition owing r : Z := if payable r then coins (sr_Settle r) else 0.
Definition recorded (e : Z) sigs r : SettleAmount := sa_set_epoch e (sigs !! sa_Participant (sr_Settle r)) (sr_Settle r).
Definition record_owing (e : Z) sigs m r : gmap AccAddress SettleAmount := if payable r then <[akey r := recorded e sigs r]> m else m.

Record result_ok r : Prop := {
  ro_key : is_Some (AccAddressFromBech32 (sa_Participant (sr_Settle r)));
  ro_reward : 0 <= sa_RewardCoins (sr_Settle r);
  ro_work : 0 <= sa_WorkCoins (sr_Settle r);
  ro_sum : coins (sr_Settle r) < 2 ^ 63
}.

Lemma recorded_ok e sigs r : result_ok r -> amount_ok (akey r) (recorded e sigs r).
Proof. intros [[a Ha] Hr Hw _]. split; [|done..]. unfold akey, recorded. cbn. by rewrite Ha. Qed.

Lemma owing_nonneg r : 0 <= owing r.
Proof. unfold owing, payable. destruct (sr_Error r); cbn; [lia|]. case_match; lia. Qed.

Lemma record_wp e sigs r l :
  result_ok r -> amounts_ok l -> unclaimed l + owing r <= holdings l < 2 ^ 63 ->
  wp (write_settle e sigs r) (fun l' x => x = Ok tt /\ amounts_ok l' /\
    gave l (unclaimed l + owing r - unclaimed l') (record_owing e sigs (SettleAmounts l) r) l') l.
Proof.
  intros Hr Hok Hb. unfold write_settle, record_owing, owing in *. unfold payable in *. destruct (sr_Error r).
  { apply wp_ret. split; [done|]. split; [done|]. cbn. replace (_ + _ - _) with 0 by lia. apply gave_none. }
  pose proof (ro_reward _ Hr) as Hr1. pose proof (ro_work _ Hr) as Hr2. pose proof (ro_sum _ Hr) as Hr3. destruct (ro_key _ Hr) as [a Ha].
  unfold Add64, coins in *. rewrite Z.div_small, u64_small by (unfold is_u64; lia). cbn [negb andb] in *. change (0 =? 0) with true. cbn [andb].
  destruct (Z.eqb_spec (sa_WorkCoins (sr_Settle r) + sa_RewardCoins (sr_Settle r)) 0) as [Hz|Hz].
  { destruct (Z.ltb_spec 0 (sa_RewardCoins (sr_Settle r) + sa_WorkCoins (sr_Settle r))); [lia|]. apply wp_ret. split; [done|]. split; [done|].
    replace (_ + _ - _) with 0 by lia. apply gave_none. }
  destruct (Z.ltb_spec 0 (sa_RewardCoins (sr_Settle r) + sa_WorkCoins (sr_Settle r))); [|lia]. fold (recorded e sigs r).
  unfold SetSettleAmountWithGovernanceTransfer. wp_step. apply wp_reads. unfold GetSettleAmount. change (sa_Participant (recorded e sigs r)) with (sa_Participant (sr_Settle r)).
  rewrite Ha. cbn [mbind option_bind]. wp_step.
  set (old := from_option coins 0 (SettleAmounts l !! a)).
  eapply (wp_mono _ (fun l1 x => x = Ok tt /\ gave l old (SettleAmounts l) l1)).
  { unfold old. destruct (SettleAmounts l !! a) as [sa|] eqn:Hsa; cbn [from_option]; [|apply wp_ret; split; [done|apply gave_none]].
    pose proof (Hok _ _ Hsa) as Hso. pose proof (coins_unclaimed _ _ _ Hok Hsa). unfold ignore_error, wp.
    pose proof (to_governance_wp l sa (ao_reward _ _ Hso) (ao_work _ _ Hso) ltac:(lia)) as Ht. unfold wp in Ht.
    destruct (transferUnclaimedSettleAmountToGovernance sa l) as [l1 x]. by destruct Ht as [-> Ht]. }
  cbv beta. intros l1 x [-> Hg]. unfold SetSettleAmount. change (sa_Participant (recorded e sigs r)) with (sa_Participant (sr_Settle r)). rewrite Ha.
  wp_step. apply wp_ret. apply wp_modify. assert (akey r = a) as -> by (unfold akey; by rewrite Ha). destruct Hg as [(w & ->) Hg1 Hg2]. cbn in Hg1.
  split; [done|]. split.
  - intros b sb. cbn. destruct (decide (a = b)) as [<-|]; [rewrite lookup_insert_eq; intros [= <-]|rewrite lookup_insert_ne by done; apply Hok].
    destruct (recorded_ok e sigs r Hr) as [Hk ? ?]. split; [|done..]. unfold akey in Hk. by rewrite Ha in Hk.
  - assert (unclaimed l + (sa_RewardCoins (sr_Settle r) + sa_WorkCoins (sr_Settle r)) -
      unclaimed (set_SettleAmounts (<[a:=recorded e sigs r]> (SettleAmounts l)) (set_Chain (set_World w (tr_Chain l)) l)) = old) as Hu.
    { unfold unclaimed. cbn [SettleAmounts set_SettleAmounts]. rewrite (msum_from_option coins). fold old.
      change (coins (recorded e sigs r)) with (sa_RewardCoins (sr_Settle r) + sa_WorkCoins (sr_Settle r)). lia. }
    lazymatch goal with |- gave _ ?n _ _ => replace n with old by (symmetry; exact Hu) end. split; [by exists w|done|done].
Qed.

Lemma record_loop e sigs rs l :
  Forall result_ok rs -> amounts_ok l -> unclaimed l + lsum owing rs <= holdings l < 2 ^ 63 ->
  wp (mfold (fun _ r => write_settle e sigs r) tt rs) (fun l' x => x = Ok tt /\ amounts_ok l' /\ 0 <= unclaimed l + lsum owing rs - unclaimed l' /\
    gave l (unclaimed l + lsum owing rs - unclaimed l') (fold_left (record_owing e sigs) rs (SettleAmounts l)) l') l.
Proof.
  revert l. induction rs as [|r rs IH]; intros l Hr Hok Hb.
  { apply wp_ret. split; [done|]. split; [done|]. cbn. split; [lia|]. replace (_ + _ - _) with 0 by lia. apply gave_none. }
  apply Forall_cons in Hr as [Hr Hrs]. rewrite lsum_cons in *. cbn [mfold fold_left]. wp_step.
  assert (0 <= lsum owing rs) by (apply lsum_nonneg; intros; apply owing_nonneg).
  eapply wp_mono; [apply (record_wp e sigs r l Hr Hok); lia|]. cbv beta. intros l1 x (-> & Hok1 & Hg). pose proof (gave_unclaimed _ _ _ _ Hg) as Hm1.
  pose proof (gv_balance _ _ _ _ Hg) as Hb1. pose proof (owing_nonneg r). pose proof (unclaimed_nonneg _ Hok).
  assert (0 <= unclaimed l + owing r - unclaimed l1).
  { unfold unclaimed at 2. rewrite Hm1. unfold record_owing, owing. destruct (payable r); [|unfold unclaimed; lia]. rewrite (msum_from_option coins).
    change (coins (recorded e sigs r)) with (coins (sr_Settle r)). unfold unclaimed. destruct (SettleAmounts l !! akey r) as [sa|] eqn:Hk; cbn; [|lia].
    pose proof (coins_nonneg _ _ (Hok _ _ Hk)). lia. }
  rewrite <-Hm1. eapply wp_mono; [apply (IH l1 Hrs Hok1); lia|]. cbv beta. intros l2 x (-> & Hok2 & Hn2 & Hg2). split; [done|]. split; [done|]. split; [lia|].
  replace (unclaimed l + (owing r + lsum owing rs) - unclaimed l2) with (unclaimed l + owing r - unclaimed l1 + (unclaimed l1 + lsum owing rs - unclaimed l2)) by lia.
  by eapply gave_trans.
Qed.

(* ------------------------------------------------------------------ *)
(** ** Participants after their epoch *)

Implicit Types (p : Participant).

Definition pkey p : AccAddress := default [] (AccAddressFromBech32 (pp_Index p)).
Record fetched c p : Prop := {
  ld_index : AccAddressFromBech32 (pp_Index p) = Some (pkey p);
  ld_address : is_Some (AccAddressFromBech32 (pp_Address p));
  ld_stored : Participants c !! pkey p = Some p
}.

(** The treasury after the participants [ps] were settled. *)
Record reset l (ps : list Participant) l' : Prop := {
  re_state : exists pm x w perf, l' = set_Performance perf (set_Chain (set_World w (set_Excluded x (set_Participants pm (tr_Chain l)))) l);
  re_balance : holdings l' = holdings l;
  re_accounts : only_slashed (world l) (world l');
  re_owed : owed (tr_Chain l') = owed (tr_Chain l) - lsum pp_CoinBalance ps;
  re_zero : forall p, p ∈ ps -> exists q, Participants (tr_Chain l') !! pkey p = Some q /\ pp_CoinBalance q = 0;
  re_others : forall a, a ∉ (pkey <$> ps) -> Participants (tr_Chain l') !! a = Participants (tr_Chain l) !! a;
  re_participants : participants_ok (tr_Chain l) -> participants_ok (tr_Chain l');
  re_stats : stats_present (tr_Chain l) -> stats_present (tr_Chain l')
}.

Lemma reset_none l : reset l [] l.
Proof. split; try done; [|cbn; lia|set_solver]. destruct l as [[] ? ? ? ?]. by do 4 eexists. Qed.

Lemma reset_trans l1 l2 l3 ps ps' : (forall p, p ∈ ps -> pkey p ∉ (pkey <$> ps')) -> reset l1 ps l2 -> reset l2 ps' l3 -> reset l1 (ps ++ ps') l3.
Proof.
  intros Hd [(pm & x & w & perf & ->) Hb Ha Ho Hz Hot Hp Hs] [(pm' & x' & w' & perf' & ->) Hb' Ha' Ho' Hz' Hot' Hp' Hs']. split; auto.
  - by do 4 eexists.
  - lia.
  - by etransitivity.
  - rewrite lsum_app. lia.
  - intros p [Hin|Hin]%elem_of_app; [|by apply Hz']. destruct (Hz p Hin) as (q & Hq & Hq0). exists q. by rewrite Hot' by auto.
  - intros a. rewrite fmap_app, not_elem_of_app. intros [H1 H2]. by rewrite Hot', Hot.
Qed.

Lemma settle_participant_wp (P : Prop) e p r l :
  fetched (tr_Chain l) p -> is_Some (pp_CurrentEpochStats p) -> (P -> status_ready (tr_Chain l)) ->
  wp (settle_participant e (p, r)) (ok_or P (fun l' _ => reset l [p] l')) l.
Proof.
  intros [Hi [b Hb] Hp] [s Hs] HP. unfold settle_participant. rewrite Hs. wp_step. apply wp_ret. wp_step.
  unfold SetEpochPerformanceSummary. cbn [es_ParticipantId performance]. rewrite Hb. wp_step. apply wp_ret. apply wp_modify.
  set (l1 := set_Performance _ l). unfold wp, on_chain, SetParticipant. change (tr_Chain l1) with (tr_Chain l).
  unfold bind. destruct (UpdateParticipantStatus (settled_participant p) (tr_Chain l)) as [c' [p'|err]] eqn:Hu.
  2: { intros Hp'. destruct (HP Hp') as [Hsp Htot]. destruct (Htot (settled_participant p) (tr_Chain l) eq_refl Hsp) as (? & ? & ?). congruence. }
  apply status_frame in Hu as (Hpi & _ & Hpc & Hps & x & w & -> & Hsl). cbn in Hpi, Hpc. rewrite Hpi, Hi. cbn.
  assert (owed (set_Participants (<[pkey p := p']> (Participants (tr_Chain l))) (tr_Chain l)) = owed (tr_Chain l) - pp_CoinBalance p) as Ho.
  { unfold owed. cbn. rewrite (msum_update _ _ _ p), Hpc by done. lia. }
  split; try done.
  - by do 4 eexists.
  - by destruct Hsl as (n & _ & Hmb & _).
  - rewrite lsum_one. exact Ho.
  - intros q ->%list_elem_of_singleton. exists p'. cbn. by rewrite lookup_insert_eq.
  - intros a Ha. cbn in Ha |- *. rewrite lookup_insert_ne by set_solver. done.
  - intros Hok a q. cbn. destruct (decide (pkey p = a)) as [<-|]; [rewrite lookup_insert_eq; intros [= <-]|rewrite lookup_insert_ne by done; apply Hok].
    rewrite Hpi. split; [done|lia].
  - intros Hst a q. cbn. destruct (decide (pkey p = a)) as [<-|]; [by rewrite lookup_insert_eq; intros [= <-]|rewrite lookup_insert_ne by done; apply Hst].
Qed.

Lemma reset_params l ps l' : reset l ps l' -> ch_Params (tr_Chain l') = ch_Params (tr_Chain l).
Proof. by intros [(pm & x & w & perf & ->) _ _ _ _ _ _ _]. Qed.

Lemma settle_participants_wp (P : Prop) e ps rs l :
  length ps = length rs -> NoDup (pkey <$> ps) -> Forall (fetched (tr_Chain l)) ps -> Forall (fun p => is_Some (pp_CurrentEpochStats p)) ps ->
  (P -> status_ready (tr_Chain l)) ->
  wp (mfold (fun _ pa => settle_participant e pa) tt (zip ps rs)) (ok_or P (fun l' _ => reset l ps l')) l.
Proof.
  revert rs l. induction ps as [|p ps IH]; intros [|r rs] l Hlen Hnd Hld Hst HP; try done; [apply wp_ret, reset_none|].
  apply Forall_cons in Hld as [Hp Hld], Hst as [Hs Hst]. rewrite fmap_cons in Hnd. apply NoDup_cons in Hnd as [Hn Hnd]. cbn [zip zip_with mfold]. wp_step.
  eapply wp_mono; [by apply (settle_participant_wp P)|]. intros l1 [[]|err]; cbn; [|done]. intros Hr1.
  eapply wp_mono; [apply (IH rs l1)|].
  - by injection Hlen.
  - done.
  - apply Forall_forall. intros q Hq. rewrite Forall_forall in Hld. destruct (Hld q Hq) as [H1 H2 H3]. split; [done..|].
    rewrite (re_others _ _ _ Hr1); [done|]. cbn. intros Heq%list_elem_of_singleton. apply Hn. rewrite <-Heq. apply list_elem_of_fmap. eauto.
  - done.
  - intros Hp'. destruct (HP Hp') as [Hsp Htot]. split; [by apply Hr1|]. intros q c' Hpar. apply Htot. by rewrite Hpar, (reset_params _ _ _ Hr1).
  - intros l2 [[]|err]; cbn; [|done]. intros Hr2. apply (reset_trans l l1 l2 [p] ps); [|done..]. by intros q ->%list_elem_of_singleton.
Qed.

(* ------------------------------------------------------------------ *)
(** ** The committed part of a settlement *)

(** What a settlement leaves alone. *)
Record books_same c c' : Prop := {
  bk_escrows : DevshardEscrows c' = DevshardEscrows c /\ DevshardEscrowsByEpoch c' = DevshardEscrowsByEpoch c /\ DevshardEscrowCounter c' = DevshardEscrowCounter c;
  bk_claims : ClaimRecipients c' = ClaimRecipients c /\ ClaimRecipientsByEpoch c' = ClaimRecipientsByEpoch c;
  bk_epoch : EffectiveEpochIndex c' = EffectiveEpochIndex c /\ ActiveParticipantsSet c' = ActiveParticipantsSet c /\ ch_Params c' = ch_Params c
}.
#[export] Instance books_same_preorder : PreOrder books_same.
Proof.
  split; [by split|]. intros c1 c2 c3 [(?&?&?) [? ?] (?&?&?)] [(?&?&?) [? ?] (?&?&?)].
  split; repeat split; congruence.
Qed.

Lemma books_locked c c' : books_same c c' -> locked c' = locked c.
Proof. intros [(He & _) _ _]. unfold locked. by rewrite He. Qed.

Lemma books_chain_ok c c' : books_same c c' -> participants_ok c' -> 0 <= slack c' -> chain_ok c -> chain_ok c'.
Proof. intros [(He & Hi & Hc) _ _] Hp Hs [_ H1 H2 H3 _]. split; rewrite ?He, ?Hi, ?Hc; done. Qed.

Lemma gave_books l n m l' : gave l n m l' -> books_same (tr_Chain l) (tr_Chain l') /\ Participants (tr_Chain l') = Participants (tr_Chain l).
Proof. by intros [(w & ->) _ _]. Qed.

Lemma reset_books l ps l' : reset l ps l' -> books_same (tr_Chain l) (tr_Chain l').
Proof. by intros [(pm & x & w & perf & ->) _ _ _ _ _ _ _]. Qed.

Lemma reset_reserve l ps l' : reset l ps l' -> reserve l' = reserve l + lsum pp_CoinBalance ps.
Proof.
  intros Hr. pose proof (books_locked _ _ (reset_books _ _ _ Hr)) as Hl. destruct Hr as [(pm & x & w & perf & ->) Hb _ Ho _ _ _ _].
  unfold reserve, slack, unclaimed, holdings, world in *. cbn in *. lia.
Qed.

(** Participants are owed at least what distinct ones of them have. *)
Lemma balances_owed c ps : participants_ok c -> NoDup (pkey <$> ps) -> Forall (fetched c) ps -> lsum pp_CoinBalance ps <= owed c.
Proof.
  intros Hok. unfold owed. remember (Participants c) as pm eqn:Hpm. assert (forall a p, pm !! a = Some p -> 0 <= pp_CoinBalance p) as Hn.
  { subst. intros a p Hp. by apply (Hok a p). }
  assert (forall qs, Forall (fetched c) qs -> Forall (fun p => pm !! pkey p = Some p) qs) as Hf.
  { intros qs. subst. intros Hl. eapply Forall_impl; [exact Hl|]. by intros p [_ _ ?]. }
  intros Hnd Hl%Hf. clear Hf Hok Hpm. revert pm Hn Hl. induction ps as [|p ps IH]; intros pm Hn Hl.
  { apply msum_nonneg. intros a p Hp. by eapply Hn. }
  rewrite fmap_cons in Hnd. apply NoDup_cons in Hnd as [Hnp Hnd]. apply Forall_cons in Hl as [Hp Hl]. rewrite lsum_cons.
  pose proof (msum_delete (fun _ p => pp_CoinBalance p) pm (pkey p) p Hp) as Hd.
  enough (lsum pp_CoinBalance ps <= msum (fun _ p => pp_CoinBalance p) (delete (pkey p) pm)) as He by (rewrite Hd in He; lia). apply IH; [done| |].
  - intros a q [_ Hq]%lookup_delete_Some. by eapply Hn.
  - apply Forall_forall. intros q Hq. rewrite Forall_forall in Hl. rewrite lookup_delete_ne; [by apply Hl|].
    intros Heq. apply Hnp. rewrite Heq. apply list_elem_of_fmap. eauto.
Qed.

(** [n] coins appeared on the module's account. *)
Record minted l n l' : Prop := {
  mi_state : exists w, l' = set_Chain (set_World w (tr_Chain l)) l;
  mi_balance : holdings l' = holdings l + n;
  mi_accounts : forall a, a <> ModuleAccount -> AccountBalance (world l') a = AccountBalance (world l) a
}.
Definition mints (n : Z) w : Prop := 0 < n -> exists w', MintRewards n w = (w', Ok tt).

Lemma mint_wp (P : Prop) n l : 0 <= n -> (P -> mints n (world l)) -> wp (MintRewardCoins n) (ok_or P (fun l' _ => minted l n l')) l.
Proof.
  intros Hn HP. unfold MintRewardCoins. destruct (Z.eqb_spec n 0) as [->|].
  { apply wp_ret. split; [exists (world l); by destruct l as [[]]|lia|done]. }
  destruct (Z.ltb_spec n 0); [lia|]. wp_step. apply wp_ret. unfold get_coins, GetCoins. destruct (Z.ltb_spec n 0); [lia|]. wp_step. apply wp_ret.
  unfold wp, on_module, on_chain, on_world. fold (world l). destruct (MintRewards n (world l)) as [w [[]|err]] eqn:Hm.
  - apply mint_done in Hm as [Hb Ha]; [|lia]. split; [by exists w|done|done].
  - intros Hp. destruct (HP Hp) as [w' Hw']; [lia|congruence].
Qed.

Lemma minted_reserve l n l' : minted l n l' -> reserve l' = reserve l + n.
Proof. intros [(w & ->) Hb _]. unfold reserve, slack, locked, owed, unclaimed, holdings, world in *. cbn in *. lia. Qed.

(** The treasury after the epoch [e] of [ps] was settled with results [rs]: [minted] coins
    are new, [G] of them went to governance. *)
Record epoch_settled l (e : Z) sigs (ps : list Participant) (rs : list SettleResult) (new G : Z) l' : Prop := {
  se_amounts : SettleAmounts l' = fold_left (record_owing e sigs) rs (SettleAmounts l);
  se_reserve : reserve l' = reserve l + new - G + lsum pp_CoinBalance ps - lsum owing rs;
  se_accounts : exists slashed, 0 <= slashed /\ forall a, a <> ModuleAccount ->
    AccountBalance (world l') a = AccountBalance (world l) a + slashed_at slashed a +
    if bool_decide (a = GovernanceAccount) then G + (unclaimed l + lsum owing rs - unclaimed l') else 0;
  se_zero : forall p, p ∈ ps -> exists q, Participants (tr_Chain l') !! pkey p = Some q /\ pp_CoinBalance q = 0;
  se_others : forall a, a ∉ (pkey <$> ps) -> Participants (tr_Chain l') !! a = Participants (tr_Chain l) !! a;
  se_subsidies : option_map tk_TotalSubsidies (tr_Tokenomics l') = Some (u64 (default 0 (option_map tk_TotalSubsidies (tr_Tokenomics l)) + u64 new));
  se_books : books_same (tr_Chain l) (tr_Chain l');
  se_balance : holdings l' <= holdings l + new;
  se_amounts_ok : amounts_ok l';
  se_ok : treasury_ok l'
}.

Record can_settle l (ps : list Participant) (rs : list SettleResult) (new G : Z) : Prop := {
  cs_ok : treasury_ok l;
  cs_length : length ps = length rs;
  cs_distinct : NoDup (pkey <$> ps);
  cs_loaded : Forall (fetched (tr_Chain l)) ps;
  cs_stats : Forall (fun p => is_Some (pp_CurrentEpochStats p)) ps;
  cs_results : Forall result_ok rs;
  cs_minted : 0 <= new;
  cs_governance : 0 <= G;
  cs_small : holdings l + new < 2 ^ 63;
  cs_covered : G + lsum owing rs <= reserve l + new + lsum pp_CoinBalance ps
}.

Definition governance_part (use : bool) (b : BitcoinResult) : Z := if use && (0 <? bt_GovernanceAmount b) then bt_GovernanceAmount b else 0.
Definition seeds_of (data : EpochGroupData) : gmap string string := fold_left (fun g s => <[s.1 := s.2]> g) (eg_MemberSeedSignatures data) ∅.

Lemma governance_wp use b l : governance_part use b <= holdings l ->
  wp (if use && (0 <? bt_GovernanceAmount b) then let* n := get_coins (bt_GovernanceAmount b) in on_module (SendCoinsToGovernance n) else ret tt)
    (fun l' x => x = Ok tt /\ gave l (governance_part use b) (SettleAmounts l) l') l.
Proof.
  unfold governance_part. destruct (use && _) eqn:E; intros Hb; [|apply wp_ret; split; [done|apply gave_none]].
  apply andb_true_iff in E as [_ E%Z.ltb_lt]. unfold get_coins, GetCoins. destruct (Z.ltb_spec (bt_GovernanceAmount b) 0); [lia|].
  wp_step. apply wp_ret. by apply send_governance_wp.
Qed.

(** The treasury when the reward is minted and governance has its part. *)
Record funded l (new G : Z) l' : Prop := {
  fu_chain : exists w, tr_Chain l' = set_World w (tr_Chain l);
  fu_amounts : SettleAmounts l' = SettleAmounts l;
  fu_balance : holdings l' = holdings l + new - G;
  fu_accounts : forall a, a <> ModuleAccount -> AccountBalance (world l') a = AccountBalance (world l) a + if bool_decide (a = GovernanceAccount) then G else 0;
  fu_subsidies : option_map tk_TotalSubsidies (tr_Tokenomics l') = Some (u64 (default 0 (option_map tk_TotalSubsidies (tr_Tokenomics l)) + u64 new))
}.

Lemma fund_wp (P : Prop) l use b (k : GoM TS fault unit) (Q : TS -> unit -> Prop) :
  let new := bt_Amount b in let G := governance_part use b in
  0 <= new -> G <= holdings l + new -> (P -> mints new (world l)) ->
  (forall l', funded l new G l' -> wp k (ok_or P Q) l') ->
  wp (run* MintRewardCoins new in run* AddTokenomicsData (MkTokenomics 0 (u64 new) 0 0) in
      run* (if use && (0 <? bt_GovernanceAmount b) then let* n := get_coins (bt_GovernanceAmount b) in on_module (SendCoinsToGovernance n) else ret tt) in
      k) (ok_or P Q) l.
Proof.
  intros new G Hnew HG HP Hk. wp_step. eapply wp_mono; [by apply (mint_wp P)|]. intros l1 [[]|x]; cbn [ok_or]; [|done]. intros [(w1 & ->) Hb1 Ha1].
  unfold AddTokenomicsData. wp_step. apply wp_modify. cbn [tk_TotalFees tk_TotalSubsidies tk_TotalRefunded tk_TotalBurned]. set (l2 := set_Tokenomics _ _).
  assert (holdings l2 = holdings l + new) as Hb2 by exact Hb1.
  wp_step. eapply wp_mono; [apply governance_wp; fold G; lia|]. cbv beta. fold G. intros l3 x [-> [(w & ->) Hb3 Ha3]]. apply Hk. split.
  - by exists w.
  - done.
  - rewrite Hb3. lia.
  - intros a Ha. rewrite Ha3 by done. rewrite <-Ha1 by done. done.
  - cbn. destruct (tr_Tokenomics l); done.
Qed.

Lemma funded_reserve l new G l' : funded l new G l' -> reserve l' = reserve l + new - G.
Proof. intros [(w & Hw) Hs Hb _ _]. unfold reserve, slack, locked, owed, unclaimed, holdings, world in *. rewrite Hs, Hw in *. cbn in *. lia. Qed.

Lemma funded_books l new G l' : funded l new G l' -> books_same (tr_Chain l) (tr_Chain l') /\ Participants (tr_Chain l') = Participants (tr_Chain l).
Proof. by intros [(w & ->) _ _ _ _]. Qed.

(** The rest of the settlement, when the participants are reset. *)
Lemma recorded_settled l e sigs ps rs new G l3 l4 l5 :
  can_settle l ps rs new G -> funded l new G l3 -> reset l3 ps l4 -> amounts_ok l5 -> 0 <= unclaimed l4 + lsum owing rs - unclaimed l5 ->
  gave l4 (unclaimed l4 + lsum owing rs - unclaimed l5) (fold_left (record_owing e sigs) rs (SettleAmounts l4)) l5 ->
  epoch_settled l e sigs ps rs new G l5.
Proof.
  intros Hc Hf Hre Hok Hn Hg. pose proof (funded_reserve _ _ _ _ Hf) as Hr3. pose proof (reset_reserve _ _ _ Hre) as Hr4. pose proof (gave_reserve _ _ _ _ Hg) as Hr5.
  destruct (funded_books _ _ _ _ Hf) as [Hbk3 Hp3]. pose proof (reset_books _ _ _ Hre) as Hbk4. destruct (gave_books _ _ _ _ Hg) as [Hbk5 Hp5].
  assert (books_same (tr_Chain l) (tr_Chain l5)) as Hbk by (etransitivity; [|exact Hbk5]; by etransitivity).
  assert (SettleAmounts l4 = SettleAmounts l) as Hs4.
  { rewrite <-(fu_amounts _ _ _ _ Hf). destruct Hre as [(pm & y & w & perf & ->) _ _ _ _ _ _ _]. done. }
  assert (unclaimed l4 = unclaimed l) as Hu4 by (unfold unclaimed; by rewrite Hs4).
  pose proof (cs_covered _ _ _ _ _ Hc) as Hcov. pose proof (cs_ok _ _ _ _ _ Hc) as [Hch Ham _]. pose proof (unclaimed_nonneg _ Hok) as Hun.
  assert (0 <= reserve l5) as Hres by lia.
  assert (participants_ok (tr_Chain l5)) as Hpo.
  { intros a p. rewrite Hp5. apply (re_participants _ _ _ Hre). intros b q. rewrite Hp3. apply (co_participant _ Hch). }
  assert (treasury_ok l5) as Hl5 by (split; [eapply books_chain_ok; [done..| |done]; unfold reserve in Hres; lia|done..]).
  split.
  - by rewrite (gave_unclaimed _ _ _ _ Hg), Hs4.
  - lia.
  - destruct (re_accounts _ _ _ Hre) as (n & Hn0 & _ & Hsl). exists n. split; [done|]. intros a Ha.
    rewrite (gv_accounts _ _ _ _ Hg), Hsl, (fu_accounts _ _ _ _ Hf), Hu4 by done. case_bool_decide; lia.
  - intros p Hp. rewrite Hp5. by apply Hre.
  - intros a Ha. rewrite Hp5, (re_others _ _ _ Hre) by done. by rewrite Hp3.
  - rewrite <-(fu_subsidies _ _ _ _ Hf). destruct Hg as [(w & ->) _ _], Hre as [(pm & y & w' & perf & ->) _ _ _ _ _ _ _]. done.
  - done.
  - rewrite (gv_balance _ _ _ _ Hg), (re_balance _ _ _ Hre), (fu_balance _ _ _ _ Hf). pose proof (cs_governance _ _ _ _ _ Hc). lia.
  - done.
  - done.
Qed.

Lemma settle_epoch_wp (P : Prop) l e inputs use rs b :
  let ps := bi_Participants inputs in let new := bt_Amount b in let G := governance_part use b in
  can_settle l ps rs new G -> (P -> status_ready (tr_Chain l) /\ mints new (world l)) ->
  wp (settle_epoch e inputs use rs b) (ok_or P (fun l' _ => epoch_settled l e (seeds_of (bi_EpochGroupData inputs)) ps rs new G l')) l.
Proof.
  intros ps new G Hc HP. pose proof (cs_ok _ _ _ _ _ Hc) as [Hch Ham Hres]. pose proof (cs_covered _ _ _ _ _ Hc) as Hcov. pose proof (cs_small _ _ _ _ _ Hc) as Hsm.
  pose proof (cs_minted _ _ _ _ _ Hc) as Hnew. pose proof (cs_governance _ _ _ _ _ Hc) as HG. assert (0 <= lsum owing rs) as Hdue by (apply lsum_nonneg; intros; apply owing_nonneg).
  pose proof (balances_owed _ _ (co_participant _ Hch) (cs_distinct _ _ _ _ _ Hc) (cs_loaded _ _ _ _ _ Hc)) as How. pose proof (unclaimed_nonneg _ Ham) as Hun.
  pose proof (slack_holdings _ Hch) as Hsb.
  unfold settle_epoch. fold (seeds_of (bi_EpochGroupData inputs)). apply fund_wp; [done| |intros; by apply HP|].
  { fold G new. pose proof (locked_nonneg _ Hch). unfold reserve, slack, holdings, world in *. lia. }
  fold new G. intros l3 Hf. destruct (funded_books _ _ _ _ Hf) as [Hbk3 Hp3].
  wp_step. eapply wp_mono; [apply (settle_participants_wp P)|].
  1-2, 4: apply Hc.
  - eapply Forall_impl; [apply (cs_loaded _ _ _ _ _ Hc)|]. intros p [H1 H2 H3]. split; [done..|]. by rewrite Hp3.
  - intros HP'. destruct (HP HP') as [[Hsp Htot] _]. split; [intros a q; rewrite Hp3; apply Hsp|]. intros q c' Hpar. apply Htot.
    rewrite Hpar. apply (bk_epoch _ _ Hbk3).
  - intros l4 [[]|x]; cbn [ok_or]; [|done]. intros Hre. pose proof (funded_reserve _ _ _ _ Hf) as Hr3. pose proof (reset_reserve _ _ _ Hre) as Hr4. fold ps in Hr4.
    assert (amounts_ok l4) as Hok4.
    { destruct Hre as [(pm & y & w & perf & ->) _ _ _ _ _ _ _]. unfold amounts_ok. cbn. by rewrite (fu_amounts _ _ _ _ Hf). }
    assert (participants_ok (tr_Chain l4)) as Hpo.
    { apply (re_participants _ _ _ Hre). intros c q. rewrite Hp3. apply (co_participant _ Hch). }
    pose proof (re_balance _ _ _ Hre) as Hb4. pose proof (fu_balance _ _ _ _ Hf) as Hb3.
    assert (chain_ok (tr_Chain l4)) as Hch4.
    { eapply books_chain_ok; [etransitivity; [exact Hbk3|apply (reset_books _ _ _ Hre)]|done| |done]. unfold reserve in *. pose proof (unclaimed_nonneg _ Hok4). lia. }
    pose proof (slack_holdings _ Hch4) as Hsb4. eapply wp_mono; [apply (record_loop e _ rs l4); [apply Hc|done|]|].
    + unfold reserve, holdings, world in *. lia.
    + cbv beta. intros l5 x (-> & Hok5 & Hn & Hg). cbn [ok_or]. by eapply recorded_settled.
Qed.
End Spec.

(* ------------------------------------------------------------------ *)
(** ** The settlement of an epoch *)

Section Settlement.
Context {W : Type} `{!AccAddressCodec} `{!ChainEnv W} `{!ChainEnvLaws W}.
Context `{!ParticipantStatusKeeper W} `{!ParticipantStatusLaws W} `{!RewardBank W} `{!RewardBankLaws W} `{!SettleEnv W}.
Context `{!CoinLib} `{!DecimalLib} `{!DecimalLaws} `{!LegacyDecLib} `{!LegacyDecLaws} `{!LegacyDecParse}.
Implicit Types (l : Treasury W) (p : Participant) (r : SettleResult).
Abbreviation rewards := (lsum (fun r => sa_RewardCoins (sr_Settle r))).

(** The result of a participant without debt: its work in full, and a reward of at most
    [R]. *)
Record fair (R : Z) p r : Prop := {
  fr_participant : sa_Participant (sr_Settle r) = pp_Address p;
  fr_work : sa_WorkCoins (sr_Settle r) = work p;
  fr_reward : 0 <= sa_RewardCoins (sr_Settle r) <= R;
  fr_error : sr_Error r = false
}.

Lemma divided_fair ps data R rs b :
  0 <= R < 2 ^ 63 -> full_total ps data < 2 ^ 64 -> Forall (fun p => 0 <= pp_CoinBalance p) ps -> divided ps data R rs b -> Forall2 (fair R) ps rs.
Proof.
  intros HR HT Hn [(ws & full & Hws & Hsum & _ & ->) _ _ _]. apply Forall2_fmap_r, Forall_Forall2_diag. eapply Forall_impl; [exact Hn|].
  intros p Hp. pose proof (reward_le ws (full_total ps data) R Hws ltac:(lia) HR p) as Hr. pose proof (gross_range ws (full_total ps data) R Hws ltac:(lia) HR p) as Hg. cbv beta in Hp.
  split; cbn; [done|done|lia|]. apply Z.ltb_ge. unfold debt. lia.
Qed.

(** Away from the limit of the supply, what is paid is what is minted. *)
Lemma supplied_fair ps data R paid supply rs0 b0 rs b :
  0 <= R < 2 ^ 63 -> full_total ps data < 2 ^ 64 -> Forall (fun p => 0 <= pp_CoinBalance p) ps -> supply <= paid \/ paid + R <= supply ->
  divided ps data R rs0 b0 -> supplied paid supply R rs0 b0 rs b ->
  Forall2 (fair R) ps rs /\ rewards rs + bt_GovernanceAmount b = bt_Amount b /\ 0 <= bt_GovernanceAmount b /\ 0 <= bt_Amount b <= R.
Proof.
  intros HR HT Hn Hside Hd [Hm Hl _ Hu]. pose proof (divided_fair _ _ _ _ _ HR HT Hn Hd) as Hf. destruct (decide (supply <= paid)) as [Hle|Hgt].
  - destruct (Hl Hle) as (-> & Hr & Hg). rewrite Hr, Hg. split; [|lia]. apply Forall2_fmap_r. eapply Forall2_impl; [exact Hf|].
    intros p r [Hf1 Hf2 Hf3 Hf4]. split; cbn; [done|done|lia|done].
  - destruct (Hu ltac:(lia) ltac:(lia)) as [-> ->]. pose proof (dv_exact _ _ _ _ _ Hd). pose proof (dv_amount _ _ _ _ _ Hd). pose proof (dv_governance _ _ _ _ _ Hd).
    split; [done|]. lia.
Qed.

(** Coins of participants that were not active: they are not paid out. *)
Definition idle p : Z := if is_active p then 0 else pp_CoinBalance p.

Lemma owing_sum R ps rs :
  Forall (fun p => 0 <= pp_CoinBalance p) ps -> Forall2 (fair R) ps rs -> lsum owing rs = rewards rs + lsum pp_CoinBalance ps - lsum idle ps.
Proof.
  intros Hn Hf. induction Hf as [|p r ps rs [Hf1 Hf2 Hf3 Hf4] Hf IH]; [done|]. apply Forall_cons in Hn as [Hp Hn]. rewrite !lsum_cons, IH by done.
  unfold owing, payable, coins, idle. rewrite Hf4, Hf2. unfold work. cbn [negb andb]. destruct (is_active p); case_match; lia.
Qed.

(** What a settlement needs to go through. *)
Record epoch_ready l (e prev : Z) (inputs : bitcoinRewardInputs) (bp : BitcoinRewardParams) : Prop := {
  sx_epoch : 0 < e /\ prev <= e;
  sx_treasury : treasury_ok l;
  sx_loaded : loadBitcoinRewardInputs l e = Ok (Some inputs);
  sx_params : pm_BitcoinRewardParams (bi_Params inputs) = Some bp;
  sx_inputs : inputs_ok (bi_Participants inputs) (bi_EpochGroupData inputs) (bi_ParticipantMLNodes inputs) (bi_RewardTransfers inputs) (bi_RewardPenalties inputs);
  sx_addresses : Forall (fun p => pp_Address p = pp_Index p) (bi_Participants inputs);
  sx_reward : 0 <= fixed_reward (bi_EpochGroupData inputs) bp < 10 ^ 16;
  sx_small : holdings l + fixed_reward (bi_EpochGroupData inputs) bp < 2 ^ 63;
  sx_supply : 0 <= sp_TotalSubsidyPaid (bi_SettleParameters inputs) < 2 ^ 62 /\ 0 <= sp_TotalSubsidySupply (bi_SettleParameters inputs) < 2 ^ 63;
  sx_status : status_ready (tr_Chain l);
  sx_mint : forall n, mints n (world l)
}.
(** The epoch does not cross the limit of the supply. *)
Definition off_limit (inputs : bitcoinRewardInputs) (bp : BitcoinRewardParams) : Prop :=
  let s := bi_SettleParameters inputs in
  sp_TotalSubsidySupply s <= sp_TotalSubsidyPaid s \/ sp_TotalSubsidyPaid s + fixed_reward (bi_EpochGroupData inputs) bp <= sp_TotalSubsidySupply s.

Lemma fetched_inputs l e inputs :
  loadBitcoinRewardInputs l e = Ok (Some inputs) -> participants_ok (tr_Chain l) ->
  Forall (fun p => pp_Address p = pp_Index p) (bi_Participants inputs) -> Forall (fetched (tr_Chain l)) (bi_Participants inputs).
Proof.
  unfold loadBitcoinRewardInputs. destruct (ActiveParticipantsOf _ _) as [aps|]; [|done]. destruct (GetEpochGroupData _ _ _) as [data|]; [|done].
  destruct (SettleParamsOf _) as [params|]; [|done]. destruct (GetSettleParameters l) as [sp|]; [|done]. intros [= <-] Hok Ha. cbn [bi_Participants] in *.
  apply Forall_forall. intros p Hp. rewrite Forall_forall in Ha. specialize (Ha p Hp). unfold GetParticipants in Hp. apply list_elem_of_omap in Hp as (s & _ & Hs).
  unfold GetParticipant in Hs. destruct (AccAddressFromBech32 s) as [a|]; [|done]. cbn in Hs. destruct (Hok a p Hs) as [Hi _].
  assert (pkey p = a) as Hk by (unfold pkey; by rewrite Hi). split; rewrite ?Hk, ?Ha; [done|by eexists|done].
Qed.

Lemma distinct_keys (c : Chain W) ps : Forall (fetched c) ps -> NoDup (pp_Address <$> ps) -> NoDup (pkey <$> ps).
Proof.
  induction ps as [|p ps IH]; intros Hl Hnd; [constructor|]. apply Forall_cons in Hl as [Hp Hl]. rewrite fmap_cons in *. apply NoDup_cons in Hnd as [Hn Hnd].
  apply NoDup_cons. split; [|by apply IH]. intros (q & Hk & Hq)%list_elem_of_fmap. apply Hn. rewrite Forall_forall in Hl. destruct (Hl q Hq) as [_ _ Hsq].
  destruct Hp as [_ _ Hsp]. rewrite Hk, Hsq in Hsp. injection Hsp as ->. apply list_elem_of_fmap. eauto.
Qed.

Lemma can_settle_fair l ps rs R new G :
  treasury_ok l -> Forall (fetched (tr_Chain l)) ps -> NoDup (pp_Address <$> ps) -> Forall stats_typed ps -> Forall2 (fair R) ps rs ->
  0 <= new <= R -> 0 <= G -> holdings l + R < 2 ^ 63 -> rewards rs + G <= new -> can_settle l ps rs new G.
Proof.
  intros Hok Hl Hnd Hst Hf Hnew HG Hsm Hsum. pose proof (co_participant _ (lo_chain _ Hok)) as Hpo. pose proof (distinct_keys _ _ Hl Hnd) as Hk.
  pose proof (balances_owed _ _ Hpo Hk Hl) as How. pose proof (slack_holdings _ (lo_chain _ Hok)) as Hsb. pose proof (lo_solvent _ Hok) as Hres.
  pose proof (locked_nonneg _ (lo_chain _ Hok)) as Hlk. pose proof (unclaimed_nonneg _ (lo_amounts _ Hok)) as Hun.
  assert (Forall (fun p => 0 <= pp_CoinBalance p) ps) as Hn by (eapply Forall_impl; [exact Hl|]; intros p [_ _ Hs]; by apply (Hpo _ _ Hs)).
  assert (forall p, p ∈ ps -> pp_CoinBalance p <= owed (tr_Chain l)) as Hone.
  { intros p Hp. etransitivity; [|exact How]. apply elem_of_Permutation in Hp as [qs Hp]. rewrite Hp in Hn |- *. rewrite lsum_cons. apply Forall_cons in Hn as [_ Hn].
    assert (0 <= lsum pp_CoinBalance qs); [|lia]. apply lsum_nonneg. intros q Hq. rewrite Forall_forall in Hn. by apply Hn. }
  split; try done; [by eapply Forall2_length| | |lia|lia|].
  - eapply Forall_impl; [exact Hst|]. intros p (s & Hs & _). by exists s.
  - apply Forall_forall. intros r Hr. apply list_elem_of_lookup in Hr as [i Hr]. destruct (Forall2_lookup_r _ _ _ _ _ Hf Hr) as (p & Hp & [Hp1 Hp2 Hp3 _]).
    apply list_elem_of_lookup_2 in Hp. rewrite Forall_forall in Hl, Hn. specialize (Hone p Hp). specialize (Hn p Hp). cbv beta in Hn.
    assert (0 <= work p <= pp_CoinBalance p) as Hw by (unfold work; case_match; lia). split; [rewrite Hp1; by apply Hl|lia|lia|].
    unfold coins. rewrite Hp2. unfold reserve, slack, holdings, world in *. lia.
  - rewrite (owing_sum R ps rs Hn Hf). assert (0 <= lsum idle ps); [|lia]. apply lsum_nonneg. intros p Hp. rewrite Forall_forall in Hn. specialize (Hn p Hp).
    unfold idle. case_match; cbv beta in Hn; lia.
Qed.

(** The amounts after those of [rs] were recorded. *)
Lemma record_other e sigs rs m a : (forall r, r ∈ rs -> payable r = true -> akey r <> a) -> fold_left (record_owing e sigs) rs m !! a = m !! a.
Proof.
  revert m. induction rs as [|r rs IH]; intros m Hn; [done|]. cbn [fold_left]. rewrite IH by (intros; apply Hn; set_solver).
  unfold record_owing. destruct (payable r) eqn:Hp; [|done]. apply lookup_insert_ne. apply Hn; [set_solver|done].
Qed.
Lemma record_lookup e sigs rs m r : NoDup (akey <$> rs) -> r ∈ rs -> payable r = true -> fold_left (record_owing e sigs) rs m !! akey r = Some (recorded e sigs r).
Proof.
  revert m. induction rs as [|q rs IH]; intros m Hnd Hr Hp; [by apply not_elem_of_nil in Hr|]. rewrite fmap_cons in Hnd. apply NoDup_cons in Hnd as [Hn Hnd].
  cbn [fold_left]. apply elem_of_cons in Hr as [->|Hr]; [|by apply IH]. rewrite record_other.
  - unfold record_owing. rewrite Hp. apply lookup_insert_eq.
  - intros x Hx _ Heq. apply Hn. rewrite <-Heq. apply list_elem_of_fmap. eauto.
Qed.

(** The treasury after a settlement: every participant with something due can claim it,
    older amounts went to governance, and no coin is lost. *)
Record accounts_settled l (e prev : Z) (inputs : bitcoinRewardInputs) (rs : list SettleResult) (new G : Z) l' : Prop := {
  as_recorded : forall r, r ∈ rs -> 0 < coins (sr_Settle r) -> SettleAmounts l' !! akey r = Some (recorded e (seeds_of (bi_EpochGroupData inputs)) r);
  as_kept : forall a sa, (forall r, r ∈ rs -> 0 < coins (sr_Settle r) -> akey r <> a) ->
    SettleAmounts l' !! a = Some sa <-> SettleAmounts l !! a = Some sa /\ (0 < prev -> prev <= sa_EpochIndex sa);
  as_reserve : reserve l' = reserve l + new - G - rewards rs + lsum idle (bi_Participants inputs);
  as_accounts : exists slashed, 0 <= slashed /\ forall a, a <> ModuleAccount ->
    AccountBalance (world l') a = AccountBalance (world l) a + slashed_at slashed a +
    if bool_decide (a = GovernanceAccount) then G + (unclaimed l + lsum owing rs - unclaimed l') else 0;
  as_zero : forall p, p ∈ bi_Participants inputs -> exists q, Participants (tr_Chain l') !! pkey p = Some q /\ pp_CoinBalance q = 0;
  as_others : forall a, a ∉ (pkey <$> bi_Participants inputs) -> Participants (tr_Chain l') !! a = Participants (tr_Chain l) !! a;
  as_subsidies : option_map tk_TotalSubsidies (tr_Tokenomics l') = Some (u64 (default 0 (option_map tk_TotalSubsidies (tr_Tokenomics l)) + new));
  as_books : books_same (tr_Chain l) (tr_Chain l');
  as_ok : treasury_ok l'
}.

(** Clearing old amounts after the settlement. *)
Lemma settled_cleared l e prev inputs rs new G l1 l2 n :
  0 <= new < 2 ^ 63 -> NoDup (akey <$> rs) -> (forall r, r ∈ rs -> sr_Error r = false) -> lsum owing rs = rewards rs + lsum pp_CoinBalance (bi_Participants inputs) - lsum idle (bi_Participants inputs) ->
  prev <= e -> epoch_settled l e (seeds_of (bi_EpochGroupData inputs)) (bi_Participants inputs) rs new G l1 ->
  gave l1 n (filter (fun kv => 0 < prev -> prev <= sa_EpochIndex kv.2) (SettleAmounts l1)) l2 -> n = unclaimed l1 - unclaimed l2 ->
  accounts_settled l e prev inputs rs new G l2.
Proof.
  intros Hnew Hnd He Hd Hprev Hs Hg ->. pose proof (gave_reserve _ _ _ _ Hg) as Hr. pose proof (gave_unclaimed _ _ _ _ Hg) as Hu.
  destruct (gave_books _ _ _ _ Hg) as [Hbk Hp]. pose proof (se_reserve _ _ _ _ _ _ _ _ Hs) as Hr1. destruct (se_ok _ _ _ _ _ _ _ _ Hs) as [Hch Ham Hres].
  assert (amounts_ok l2) as Hok2.
  { intros a sa. rewrite Hu. intros [Hx _]%map_lookup_filter_Some. by apply Ham. }
  assert (forall r, r ∈ rs -> 0 < coins (sr_Settle r) -> payable r = true) as Hpay.
  { intros r Hin Hc. unfold payable. rewrite (He r Hin). cbn. lia. }
  split.
  - intros r Hin Hc. rewrite Hu, (se_amounts _ _ _ _ _ _ _ _ Hs). apply map_lookup_filter_Some. split; [by apply record_lookup; auto|done].
  - intros a sa Hn. rewrite Hu, (se_amounts _ _ _ _ _ _ _ _ Hs), map_lookup_filter_Some. cbn. rewrite record_other; [done|].
    intros r Hin Hpr. apply Hn; [done|]. unfold payable in Hpr. apply andb_true_iff in Hpr as [_ Hpr]. lia.
  - lia.
  - destruct (se_accounts _ _ _ _ _ _ _ _ Hs) as (x & Hx & Hacc). exists x. split; [done|]. intros a Ha.
    rewrite (gv_accounts _ _ _ _ Hg), Hacc by done. case_bool_decide; lia.
  - intros p Hin. rewrite Hp. by apply (se_zero _ _ _ _ _ _ _ _ Hs).
  - intros a Ha. rewrite Hp. by apply (se_others _ _ _ _ _ _ _ _ Hs).
  - pose proof (se_subsidies _ _ _ _ _ _ _ _ Hs) as Hsub. rewrite (u64_small new) in Hsub by (unfold is_u64; lia). rewrite <-Hsub. by destruct Hg as [(w & ->) _ _].
  - etransitivity; [apply (se_books _ _ _ _ _ _ _ _ Hs)|done].
  - split; [|done|lia]. eapply books_chain_ok; [done| | |done].
    + intros a q. rewrite Hp. apply (co_participant _ Hch).
    + pose proof (unclaimed_nonneg _ Hok2). unfold reserve in *. lia.
Qed.

Lemma clear_run prev l1 :
  treasury_ok l1 -> holdings l1 < 2 ^ 63 -> exists l2, (if 0 <? prev then ignore_error (TransferOldSettleAmountsToGovernance prev) else ret tt) l1 = (l2, Ok tt) /\
  gave l1 (unclaimed l1 - unclaimed l2) (filter (fun kv => 0 < prev -> prev <= sa_EpochIndex kv.2) (SettleAmounts l1)) l2.
Proof.
  intros Hok Hb. assert (unclaimed l1 <= holdings l1 < 2 ^ 63) as Hub.
  { pose proof (lo_solvent _ Hok). pose proof (slack_holdings _ (lo_chain _ Hok)). unfold reserve, holdings, world in *. lia. }
  destruct (Z.ltb_spec 0 prev) as [Hpos|Hz].
  - pose proof (transfer_old_wp prev l1 (lo_amounts _ Hok) Hub) as Ht. unfold wp in Ht. unfold ignore_error.
    destruct (TransferOldSettleAmountsToGovernance prev l1) as [l2 x]. destruct Ht as (-> & n & Hg & ->). exists l2. split; [done|].
    enough (filter (fun kv => 0 < prev -> prev <= sa_EpochIndex kv.2) (SettleAmounts l1) = filter (fun kv => prev <= sa_EpochIndex kv.2) (SettleAmounts l1)) as -> by done.
    apply map_filter_ext. intros a sa _. cbn. tauto.
  - exists l1. split; [done|]. rewrite map_filter_id by (intros; cbn; lia). replace (unclaimed l1 - unclaimed l1) with 0 by lia. apply gave_none.
Qed.

Lemma fair_keys (c : Chain W) R ps rs :
  Forall (fetched c) ps -> Forall (fun p => pp_Address p = pp_Index p) ps -> Forall2 (fair R) ps rs -> akey <$> rs = pkey <$> ps.
Proof.
  intros Hl Ha Hf. induction Hf as [|p r ps rs [Hf1 _ _ _] Hf IH]; [done|]. apply Forall_cons in Hl as [[Hi _ _] Hl], Ha as [Ha1 Ha].
  rewrite !fmap_cons, IH by done. f_equal. unfold akey, pkey. by rewrite Hf1, Ha1.
Qed.

(** The division of the reward that the settlement works with. *)
Definition epoch_division (inputs : bitcoinRewardInputs) (bp : BitcoinRewardParams) : outcome fault (list SettleResult * BitcoinResult) :=
  GetBitcoinSettleAmountsWithTransfers (bi_Participants inputs) (bi_EpochGroupData inputs) bp (bi_BinomTestP0 inputs) (bi_SettleParameters inputs)
    (bi_ParticipantMLNodes inputs) (bi_RewardTransfers inputs) (bi_RewardPenalties inputs).

Lemma settlement_run l e prev inputs bp :
  epoch_ready l e prev inputs bp -> off_limit inputs bp -> exists rs b l', epoch_division inputs bp = Ok (rs, b) /\
  Forall2 (fair (fixed_reward (bi_EpochGroupData inputs) bp)) (bi_Participants inputs) rs /\ rewards rs + bt_GovernanceAmount b = bt_Amount b /\
  0 <= bt_GovernanceAmount b /\ bt_Amount b <= fixed_reward (bi_EpochGroupData inputs) bp /\ SettleAccounts e prev l = (l', Ok tt) /\ accounts_settled l e prev inputs rs (bt_Amount b) (governance_part (br_UseBitcoinRewards bp) b) l'.
Proof.
  intros [[He Hpe] Hok Hload Hbp Hin Haddr HR Hsm [Hpaid Hsup] Hst Hmint] Hoff. set (ps := bi_Participants inputs) in *. set (R := fixed_reward _ bp) in *.
  pose proof (fetched_inputs _ _ _ Hload (co_participant _ (lo_chain _ Hok)) Haddr) as Hld. fold ps in Hld.
  assert (Forall (fun p => 0 <= pp_CoinBalance p) ps) as Hn.
  { eapply Forall_impl; [exact Hld|]. intros p [_ _ Hs]. by apply (co_participant _ (lo_chain _ Hok) _ _ Hs). }
  destruct (supply_split ps (bi_EpochGroupData inputs) bp (bi_BinomTestP0 inputs) (bi_SettleParameters inputs) _ _ _ Hin HR Hpaid Hsup) as (rs0 & b0 & rs & b & Hdiv & Hrun & Hsupp).
  fold R in Hdiv, Hsupp. pose proof (io_total _ _ _ _ _ Hin) as HT.
  assert (0 <= R < 2 ^ 63) as HR' by lia. destruct (supplied_fair _ _ _ _ _ _ _ _ _ HR' HT Hn Hoff Hdiv Hsupp) as (Hf & Hsum & Hgov & Hb). exists rs, b.
  set (G := governance_part (br_UseBitcoinRewards bp) b). assert (0 <= G <= bt_GovernanceAmount b) as HG by (unfold G, governance_part; case_match; lia).
  pose proof (can_settle_fair l ps rs R (bt_Amount b) G Hok Hld (io_distinct _ _ _ _ _ Hin) (io_stats _ _ _ _ _ Hin) Hf ltac:(lia) ltac:(lia) Hsm ltac:(lia)) as Hcan.
  pose proof (settle_epoch_wp True l e inputs (br_UseBitcoinRewards bp) rs b Hcan ltac:(done)) as Hwp. unfold wp in Hwp.
  destruct (settle_epoch e inputs (br_UseBitcoinRewards bp) rs b l) as [l1 [[]|err]] eqn:Hse; cbn [ok_or] in Hwp; [|by destruct Hwp]. fold ps G in Hwp.
  assert (NoDup (akey <$> rs)) as Hnd by (rewrite (fair_keys _ R ps rs Hld Haddr Hf); by apply (distinct_keys (tr_Chain l)), Hin).
  assert (forall r, r ∈ rs -> sr_Error r = false) as Herr.
  { intros r Hr. apply list_elem_of_lookup in Hr as [i Hr]. destruct (Forall2_lookup_r _ _ _ _ _ Hf Hr) as (p & _ & [_ _ _ ?]). done. }
  assert (SettleAccounts e prev l = (if 0 <? prev then ignore_error (TransferOldSettleAmountsToGovernance prev) else ret tt) l1) as Hacc.
  { unfold SettleAccounts. destruct (Z.eqb_spec e 0); [lia|]. rewrite (bind_run _ _ l l l) by done. rewrite Hload, (bind_run _ _ l l (Some inputs)) by done.
    rewrite Hbp, (bind_run _ _ l l bp) by done. fold ps. rewrite Hrun, (bind_run _ _ l l (rs, b)) by done.
    destruct (Z.ltb_spec (bt_Amount b) 0); [lia|]. rewrite (bind_run _ _ l l tt), (bind_run _ _ l l1 tt); [done| |done]. unfold cached. by rewrite Hse. }
  pose proof (se_ok _ _ _ _ _ _ _ _ Hwp) as Hok1. pose proof (se_balance _ _ _ _ _ _ _ _ Hwp) as Hb1.
  destruct (clear_run prev l1 Hok1 ltac:(lia)) as (l2 & Hrun2 & Hg). rewrite <-Hacc in Hrun2.
  exists l2. split; [exact Hrun|]. do 2 (split; [done|]). do 2 (split; [lia|]). split; [done|]. eapply (settled_cleared l e prev inputs rs (bt_Amount b) G l1 l2); try done; [lia|].
  by apply (owing_sum R).
Qed.

(** C7: The settlement of an epoch goes through and is exact.  It works with the division
    that [GetBitcoinSettleAmountsWithTransfers] makes.  Away from the supply limit
    the participants' rewards and the part of governance add up to the minted coins; every
    participant with work or a reward can claim both in full, its coin balance is zero,
    amounts that nobody claimed in time went to governance, as do coins slashed from the
    collateral of participants whose status turns bad, and the module's surplus
    changes only by the coins of inactive participants, and by the part of governance
    when it is not sent. *)
Theorem settlement_goes_through l e prev inputs bp :
  epoch_ready l e prev inputs bp -> off_limit inputs bp -> exists rs b l', epoch_division inputs bp = Ok (rs, b) /\
  Forall2 (fair (fixed_reward (bi_EpochGroupData inputs) bp)) (bi_Participants inputs) rs /\ rewards rs + bt_GovernanceAmount b = bt_Amount b /\
  0 <= bt_GovernanceAmount b /\ bt_Amount b <= fixed_reward (bi_EpochGroupData inputs) bp /\ SettleAccounts e prev l = (l', Ok tt) /\ accounts_settled l e prev inputs rs (bt_Amount b) (governance_part (br_UseBitcoinRewards bp) b) l'.
Proof. apply settlement_run. Qed.
End Settlement.

(* ------------------------------------------------------------------ *)
(** ** Claims *)

Section Claims.
Context {W : Type} `{!AccAddressCodec} `{!AccAddressLaws} `{!ChainEnv W} `{!ChainEnvLaws W}.
Context `{!ParticipantStatusKeeper W} `{!RewardBank W} `{!RewardBankLaws W} `{!SettleEnv W}.
Implicit Types (l : Treasury W) (msg : MsgClaimRewards) (sa : SettleAmount) (a r : AccAddress).

(** What an account has, in the bank and in the vesting module. *)
Definition wealth l a : Z := AccountBalance (world l) a + VestedBalance (world l) a.

(** The treasury after [n] coins were paid to [r]. *)
Record paid_to l r (n : Z) l' : Prop := {
  po_chain : exists w, l' = set_Chain (set_World w (tr_Chain l)) l;
  po_balance : holdings l - n <= holdings l' <= holdings l /\ (r <> ModuleAccount -> holdings l' = holdings l - n);
  po_wealth : forall b, b <> ModuleAccount -> b <> VestingAccount -> wealth l' b = wealth l b + if bool_decide (b = r) then n else 0
}.

(** The recipient can be paid, directly or by vesting. *)
Definition payee (address : string) r (period : Z) : Prop :=
  if 0 <? period then forall w n, 0 < n <= ModuleBalance w -> exists w', VestRewards address n period w = (w', Ok tt) else accepts r.

Lemma paid_nothing l r : paid_to l r 0 l.
Proof. split; [exists (world l); by destruct l as [[]]|split; lia|]. intros b _ _. case_bool_decide; lia. Qed.

Lemma pay_wp (P : Prop) l address r n period :
  AccAddressFromBech32 address = Some r -> 0 <= n -> (P -> payee address r period /\ n <= holdings l) ->
  wp (PayParticipantFromModule address n (Some period)) (ok_or P (fun l' _ => paid_to l r n l')) l.
Proof.
  intros Ha Hn HP. unfold PayParticipantFromModule. rewrite Ha. wp_step. apply wp_ret. destruct (Z.eqb_spec n 0) as [->|]; [apply wp_ret, paid_nothing|].
  unfold get_coins, GetCoins. destruct (Z.ltb_spec n 0); [lia|]. wp_step. apply wp_ret. unfold payee in HP. destruct (Z.ltb_spec 0 period).
  - unfold wp, cached, on_module, on_chain, on_world. fold (world l). destruct (VestRewards address n period (world l)) as [w [[]|err]] eqn:Hv.
    + apply (vest_done address r) in Hv as (Hle & Hb & Hac & Hve); [|done|lia|done]. split; [by exists w|unfold holdings, world in *; cbn; lia|].
      intros b Hb1 Hb2. unfold wealth. cbn. rewrite Hac, Hve by done. unfold world. lia.
    + intros Hp. destruct (HP Hp) as [Hv' Hle]. destruct (Hv' (world l) n ltac:(unfold holdings in *; lia)) as [w' Hw']. congruence.
  - unfold wp, on_module, on_chain, on_world. fold (world l). destruct (SendCoinsFromModuleToAccount r n (world l)) as [w [[]|err]] eqn:Hv.
    + pose proof (send_vested _ _ _ _ Hv) as Hve. apply send_out in Hv as (Hle & Hb & Hac); [|lia]. unfold outside in Hb. split; [by exists w| |].
      * unfold holdings, world in *. cbn. case_bool_decide; split; try lia; intros; try done; lia.
      * intros b Hb1 _. unfold wealth. cbn. rewrite Hac, Hve by done. unfold world. lia.
    + intros Hp. destruct (HP Hp) as [Hv' Hle]. destruct (Hv' (world l) n ltac:(unfold holdings in *; lia)) as [w' Hw']. congruence.
Qed.

Lemma paid_trans l1 l2 l3 r n n' : paid_to l1 r n l2 -> paid_to l2 r n' l3 -> paid_to l1 r (n + n') l3.
Proof.
  intros [(w & ->) [Hb Hm] Hw] [(w' & ->) [Hb' Hm'] Hw']. split; [by exists w'|split; [lia|]|].
  - intros Hr. rewrite Hm', Hm by done. lia.
  - intros b Hb1 Hb2. rewrite Hw', Hw by done. case_bool_decide; lia.
Qed.

(** The end of a claim changes no coins. *)
Record finished l a l' : Prop := {
  fi_chain : tr_Chain l' = tr_Chain l;
  fi_amounts : SettleAmounts l' = delete a (SettleAmounts l);
  fi_tokenomics : tr_Tokenomics l' = tr_Tokenomics l
}.

Definition other_books l : Chain W * gmap AccAddress SettleAmount * option TokenomicsData := (tr_Chain l, SettleAmounts l, tr_Tokenomics l).

Lemma credit_keeps params participant e : keeps other_books eq (GrantMaintenanceCredit params participant e).
Proof.
  intros l l' x. unfold GrantMaintenanceCredit. destruct (_ || _); [by intros [= <- _]|]. destruct (AccAddressFromBech32 participant); [|by intros [= <- _]].
  cbn. destruct (maintenanceStateCoversEpoch _ _ _); [by intros [= <- _]|]. unfold SetMaintenanceState. cbn [mt_Participant].
  destruct (AccAddressFromBech32 _); by intros [= <- _].
Qed.

Lemma ignore_keeps {V} (pr : Treasury W -> V) (m : GoM (Treasury W) fault unit) : keeps pr eq m -> keeps pr eq (ignore_error m).
Proof. intros Hm l l' x. unfold ignore_error. destruct (m l) as [l1 [[]|[|]]] eqn:Hl; intros [= <- _]; by eapply Hm. Qed.

Lemma performance_keeps s : keeps other_books eq (SetEpochPerformanceSummary (W:=W) s).
Proof. intros l l' x. unfold SetEpochPerformanceSummary. destruct (AccAddressFromBech32 _); by intros [= <- _]. Qed.

(** Whose errors are passed over and which does not panic. *)
Lemma ignored_wp (m : GoM (Treasury W) fault unit) l (Q : Treasury W -> outcome fault unit -> Prop) :
  keeps other_books eq m -> (forall l1 l2, m l1 <> (l2, Err Panicked)) -> (forall l', other_books l' = other_books l -> Q l' (Ok tt)) -> wp (ignore_error m) Q l.
Proof.
  intros Hk Hp HQ. unfold wp. destruct (ignore_error m l) as [l' x] eqn:Hr. assert (x = Ok tt) as ->.
  { unfold ignore_error in Hr. destruct (m l) as [l1 [[]|[|]]] eqn:Hm; try congruence. by destruct (Hp l l1). }
  apply HQ. symmetry. eapply (ignore_keeps other_books m Hk). exact Hr.
Qed.

Lemma finish_claim_wp params sa a l :
  amount_ok a sa -> wp (finishSettle params sa) (fun l' x => x = Ok tt /\ finished l a l') l.
Proof.
  intros Hsa. unfold finishSettle. wp_step. unfold wp at 1. rewrite (remove_amount l a sa Hsa). set (l1 := set_SettleAmounts _ l).
  assert (forall l', other_books l' = other_books l1 -> finished l a l') as Hfin by (intros l' [= H1 H2 H3]; by split).
  wp_step. apply wp_reads. wp_step. eapply (wp_mono _ (fun l' x => x = Ok tt /\ other_books l' = other_books l1)).
  - destruct (GetEpochPerformanceSummary _ _ _) as [s|]; [|by apply wp_ret]. apply ignored_wp; [apply performance_keeps| |by split].
    intros l2 l3. unfold SetEpochPerformanceSummary. by destruct (AccAddressFromBech32 _).
  - intros l2 x [-> H2]. apply ignored_wp; [apply credit_keeps| |].
    + intros l3 l4. unfold GrantMaintenanceCredit. destruct (_ || _); [done|]. destruct (AccAddressFromBech32 _); [|done]. cbn.
      destruct (maintenanceStateCoversEpoch _ _ _); [done|]. unfold SetMaintenanceState. by destruct (AccAddressFromBech32 _).
    + intros l' Heq. split; [done|]. apply Hfin. congruence.
Qed.

(** A step of a claim that succeeds when its body does. *)
Lemma answering_wp {A} (P : Prop) (m : GoM (Treasury W) fault A) f (Q : Treasury W -> A -> Prop) l :
  wp m (ok_or P Q) l -> wp (answering m f) (ok_or P Q) l.
Proof. unfold wp, answering. destruct (m l) as [l' [x|[e|]]]; done. Qed.

(** The treasury after the amount [sa] of [a] was paid to [r]. *)
Record claimed l a sa r l' : Prop := {
  cl_paid : exists w, tr_Chain l' = set_World w (tr_Chain l);
  cl_balance : holdings l - coins sa <= holdings l' <= holdings l /\ (r <> ModuleAccount -> holdings l' = holdings l - coins sa);
  cl_wealth : forall b, b <> ModuleAccount -> b <> VestingAccount -> wealth l' b = wealth l b + if bool_decide (b = r) then coins sa else 0;
  cl_amounts : SettleAmounts l' = delete a (SettleAmounts l);
  cl_fees : option_map tk_TotalFees (tr_Tokenomics l') = Some (u64 (default 0 (option_map tk_TotalFees (tr_Tokenomics l)) + sa_WorkCoins sa))
}.

(** The destination and the vesting periods of a claim can be paid. *)
Definition payable_claim (params : SettleParams) r : Prop :=
  exists t, pm_TokenomicsParams params = Some t /\
    payee (AccAddress_String r) r (tp_WorkVestingPeriod t) /\ payee (AccAddress_String r) r (tp_RewardVestingPeriod t).

Lemma resolved_parses (c : Chain W) participant e r : ResolveClaimRecipientAddress c participant e = Ok r -> AccAddressFromBech32 (AccAddress_String r) = Some r.
Proof.
  unfold ResolveClaimRecipientAddress. destruct (AccAddressFromBech32 participant) as [a|] eqn:Ha; [|done]. destruct (ClaimRecipients c !! _) as [s|].
  - destruct (AccAddressFromBech32 s) as [b|] eqn:Hb; [|done]. intros [= <-]. by eapply bech32_string.
  - intros [= <-]. by eapply bech32_string.
Qed.

Definition add_fees (n : Z) (t : option TokenomicsData) : TokenomicsData :=
  let d := default (MkTokenomics 0 0 0 0) t in
  MkTokenomics (u64 (tk_TotalFees d + n)) (u64 (tk_TotalSubsidies d + 0)) (u64 (tk_TotalRefunded d + 0)) (u64 (tk_TotalBurned d + 0)).
Lemma fees_wp n f l :
  wp (answering (ignore_error (AddTokenomicsData (MkTokenomics n 0 0 0))) f) (fun l' x => x = Ok tt /\ l' = set_Tokenomics (add_fees n (tr_Tokenomics l)) l) l.
Proof. done. Qed.

(** The two payments and the end of a claim. *)
Lemma claimed_steps l a sa r l1 l3 l4 :
  paid_to l r (sa_WorkCoins sa) l1 -> paid_to (set_Tokenomics (add_fees (sa_WorkCoins sa) (tr_Tokenomics l1)) l1) r (sa_RewardCoins sa) l3 -> finished l3 a l4 ->
  claimed l a sa r l4.
Proof.
  intros [(w & ->) [Hb Hm] Hw] [(w' & ->) [Hb' Hm'] Hw'] [Hf1 Hf2 Hf3]. cbn in Hf1, Hf2, Hf3.
  split.
  - exists w'. by rewrite Hf1.
  - unfold holdings, world, coins in *. rewrite Hf1. cbn in *. split; [lia|]. intros Hr. specialize (Hm Hr). specialize (Hm' Hr). lia.
  - intros b Hb1 Hb2. specialize (Hw b Hb1 Hb2). specialize (Hw' b Hb1 Hb2). unfold wealth, world, coins in *. rewrite Hf1. cbn in *. case_bool_decide; lia.
  - done.
  - rewrite Hf3. cbn. by destruct (tr_Tokenomics l).
Qed.

Definition answer_paid l msg a sa (l' : Treasury W) (x : MsgClaimRewardsResponse) : Prop :=
  x = MkResponse (coins sa) "Rewards claimed successfully" /\
  exists r, ResolveClaimRecipientAddress (tr_Chain l) (cr_Creator msg) (cr_EpochIndex msg) = Ok r /\ claimed l a sa r l'.

Lemma cached_wp {A E} (P : Prop) (m : GoM (Treasury W) E A) (Q : Treasury W -> A -> Prop) l : wp m (ok_or P Q) l -> wp (cached m) (ok_or P Q) l.
Proof. unfold wp, cached. by destruct (m l) as [l' [x|x]]. Qed.

Lemma payout_wp (P : Prop) params msg l a sa :
  amount_ok a sa -> coins sa < 2 ^ 63 ->
  (P -> coins sa <= holdings l /\ exists r, ResolveClaimRecipientAddress (tr_Chain l) (cr_Creator msg) (cr_EpochIndex msg) = Ok r /\ payable_claim params r) ->
  wp (payoutClaim params msg sa) (ok_or P (answer_paid l msg a sa)) l.
Proof.
  intros Hsa Hc HP. destruct (Hsa) as [Hk Hr0 Hw0]. apply cached_wp. wp_step. unfold answering at 1, resolvePayoutAddress, wp at 1.
  destruct (ResolveClaimRecipientAddress _ _ _) as [r|err] eqn:Hres; [|intros Hp; by destruct (HP Hp) as (_ & r & ? & _)]. pose proof (resolved_parses _ _ _ _ Hres) as Hpr.
  wp_step. wp_step; [|intros Hp; destruct (HP Hp) as (_ & r' & _ & t & Ht & _); congruence]. rename v into t. unfold coins in Hc.
  assert (P -> payee (AccAddress_String r) r (tp_WorkVestingPeriod t) /\ payee (AccAddress_String r) r (tp_RewardVestingPeriod t) /\ coins sa <= holdings l) as HP'.
  { intros Hp. destruct (HP Hp) as (Hle & r' & [= <-] & t' & Ht' & Hw & Hr). rewrite Hopt in Ht'. by injection Ht' as <-. }
  rewrite !i64_small by (unfold is_i64; lia). wp_step. eapply wp_mono; [apply answering_wp, (pay_wp P); [done|done|]|].
  { intros Hp. destruct (HP' Hp) as (Hw & _ & Hle). unfold coins in Hle. split; [done|lia]. }
  intros l1 [[]|x]; cbn [ok_or]; [|done]. intros Hp1. wp_step. eapply wp_mono; [apply fees_wp|]. cbv beta. intros l2 x [-> ->]. set (l2 := set_Tokenomics _ l1).
  assert (holdings l2 = holdings l1) as Hb2 by done. wp_step. eapply wp_mono; [apply answering_wp, (pay_wp P); [done|done|]|].
  { intros Hp. destruct (HP' Hp) as (_ & Hw & Hle). unfold coins in Hle. split; [done|]. pose proof (po_balance _ _ _ _ Hp1). lia. }
  intros l3 [[]|x]; cbn [ok_or]; [|done]. intros Hp2. wp_step. unfold wp at 1, answering. pose proof (finish_claim_wp params sa a l3 Hsa) as Hf. unfold wp in Hf.
  destruct (finishSettle params sa l3) as [l4 x]. destruct Hf as [-> Hf]. apply wp_ret. cbn [ok_or]. split.
  - rewrite total_coins by (unfold coins; lia). by rewrite u64_small by (unfold is_u64, coins; lia).
  - exists r. split; [done|]. by eapply claimed_steps.
Qed.

(** A claim that may be paid. *)
Record claimable l msg a sa : Prop := {
  cb_creator : AccAddressFromBech32 (cr_Creator msg) = Some a;
  cb_stored : SettleAmounts l !! a = Some sa;
  cb_epoch : exists current, EffectiveEpochIndex (tr_Chain l) = Some current /\ current <> 0 /\ u64 (current - 1) = cr_EpochIndex msg;
  cb_match : sa_EpochIndex sa = cr_EpochIndex msg;
  cb_interval : 30 <= i64 (BlockHeightOf (world l) - sa_LastClaimAttempt sa);
  cb_coins : 0 < coins sa
}.
(** An attempt is noted, and nothing else. *)
Record attempted l a sa l' : Prop := {
  at_stored : SettleAmounts l !! a = Some sa;
  at_treasury : l' = set_SettleAmounts (<[a := sa_set_attempt (BlockHeightOf (world l)) sa]> (SettleAmounts l)) l
}.
Definition refused l msg l' : Prop := l' = l \/ exists a sa, AccAddressFromBech32 (cr_Creator msg) = Some a /\ attempted l a sa l'.
Definition books_small l : Prop := amounts_ok l /\ unclaimed l <= holdings l < 2 ^ 63.

Definition request_post (P : Prop) l msg (l1 : Treasury W) (x : outcome refusal SettleAmount) : Prop :=
  match x with
  | Ok sa' => exists a sa, claimable l msg a sa /\ sa' = sa_set_attempt (BlockHeightOf (world l)) sa /\ attempted l a sa l1
  | Err (Refused response) => rs_Amount response = 0 /\ refused l msg l1 /\ ~ P
  | Err Broken => False
  end.

Lemma request_wp (P : Prop) l msg :
  books_small l -> (P -> exists a sa, claimable l msg a sa) -> wp (validateRequest msg) (request_post P l msg) l.
Proof.
  intros [Hok Hb] HP. unfold validateRequest. wp_step. apply wp_get. unfold wp.
  assert (forall result, (forall a sa, ~ claimable l msg a sa) -> request_post P l msg (refuse (A:=SettleAmount) result l).1 (refuse result l).2) as Hno.
  { intros result Hn. cbn. split; [done|]. split; [by left|]. intros Hp. destruct (HP Hp) as (a & sa & Hc). by apply (Hn a sa). }
  destruct (EffectiveEpochIndex (tr_Chain l)) as [current|] eqn:He; [|apply Hno; intros a sa [_ _ (? & ? & _) _ _ _]; congruence].
  destruct (Z.eqb_spec current 0); [apply Hno; intros a sa [_ _ (? & ? & ? & _) _ _ _]; congruence|].
  destruct (Z.eqb_spec (u64 (current - 1)) (cr_EpochIndex msg)) as [Hcur|]; cbn [negb]; [|apply Hno; intros a sa [_ _ (? & ? & _ & ?) _ _ _]; congruence].
  unfold GetSettleAmount. destruct (AccAddressFromBech32 (cr_Creator msg)) as [a|] eqn:Ha; cbn [mbind option_bind]; [|apply Hno; intros a sa [? _ _ _ _ _]; congruence].
  destruct (SettleAmounts l !! a) as [sa|] eqn:Hsa; [|apply Hno; intros b sa [? ? _ _ _ _]; congruence].
  destruct (Z.eqb_spec (sa_EpochIndex sa) (cr_EpochIndex msg)) as [Hep|]; cbn [negb]; [|apply Hno; intros b sb [? ? _ ? _ _]; congruence].
  destruct (Z.ltb_spec (i64 (BlockHeightOf (world l) - sa_LastClaimAttempt sa)) 30) as [|Hint]; [apply Hno; intros b sb [Hb1 Hb2 _ _ Hb5 _]; simplify_eq; lia|].
  pose proof (Hok _ _ Hsa) as Hsok. pose proof (coins_unclaimed _ _ _ Hok Hsa) as Hle. pose proof (coins_nonneg _ _ Hsok) as Hnn. set (sa' := sa_set_attempt _ sa).
  set (l1 := set_SettleAmounts (<[a := sa']> (SettleAmounts l)) l). assert (attempted l a sa l1) as Hat by by split.
  erewrite (bind_run _ _ l l1 tt) by (unfold answering, SetSettleAmount; change (sa_Participant sa') with (sa_Participant sa); by rewrite (ao_key _ _ Hsok)).
  destruct Hsok as [Hk Hr Hw]. rewrite (total_coins sa') by (done || (change (coins sa') with (coins sa); lia)). change (coins sa') with (coins sa).
  destruct (Z.eqb_spec (coins sa) 0) as [Hz|Hz]; cbn [refuse fail ret fst snd request_post].
  - split; [done|]. split; [right; eauto|]. intros Hp. destruct (HP Hp) as (b & sb & [Hb1 Hb2 _ _ _ Hb6]). simplify_eq. lia.
  - exists a, sa. split; [split; [done|done|by exists current|done|done|lia]|done].
Qed.

Lemma attempted_claimed l a sa l1 r l' : attempted l a sa l1 -> claimed l1 a (sa_set_attempt (BlockHeightOf (world l)) sa) r l' -> claimed l a sa r l'.
Proof.
  intros [Hs ->] [Hp Hb Hw Ha Hf]. split; [exact Hp|exact Hb|exact Hw| |exact Hf]. rewrite Ha. cbn. apply delete_insert_eq.
Qed.

Lemma attempted_ok l a sa l1 : attempted l a sa l1 -> amounts_ok l -> amount_ok a (sa_set_attempt (BlockHeightOf (world l)) sa) /\ amounts_ok l1 /\ unclaimed l1 = unclaimed l.
Proof.
  intros [Hs ->] Hok. destruct (Hok _ _ Hs) as [Hk Hr Hw]. assert (amount_ok a (sa_set_attempt (BlockHeightOf (world l)) sa)) as Hsa by by split.
  split; [done|]. split.
  - intros b sb. cbn. destruct (decide (a = b)) as [<-|]; [rewrite lookup_insert_eq; by intros [= <-]|rewrite lookup_insert_ne by done; apply Hok].
  - unfold unclaimed. cbn. rewrite (msum_from_option coins), Hs. cbn. change (coins (sa_set_attempt _ sa)) with (coins sa). lia.
Qed.

Abbreviation Verdict := (Treasury W -> MsgClaimRewards -> SettleAmount -> option string).

(** Refusals pay nothing. *)
Definition pays_none {A} (m : GoM (Treasury W) refusal A) : Prop := forall l l' response, m l = (l', Err (Refused response)) -> rs_Amount response = 0.

Lemma pays_none_bind {A B} (m : GoM (Treasury W) refusal A) (k : A -> GoM (Treasury W) refusal B) : pays_none m -> (forall x, pays_none (k x)) -> pays_none (bind m k).
Proof. intros Hm Hk l l' response. unfold bind. destruct (m l) as [l1 [x|e]] eqn:Hl; [apply Hk|]. intros [= <- ->]. by eapply Hm. Qed.
Lemma pays_none_answering {A} (m : GoM (Treasury W) fault A) f : pays_none (answering m f).
Proof. intros l l' response. unfold answering. destruct (m l) as [l1 [x|[e|]]]; [done|by intros [= _ <-]|done]. Qed.

Lemma payout_refused params msg sa l l' e :
  payoutClaim params msg sa l = (l', Err e) -> l' = l /\ forall response, e = Refused response -> rs_Amount response = 0.
Proof.
  unfold payoutClaim, cached. lazymatch goal with |- context [match ?m l with _ => _ end] => set (body := m) end.
  assert (pays_none body) as Hz.
  { unfold body. apply pays_none_bind; [apply pays_none_answering|]. intros address. apply pays_none_bind; [intros ? ? ?; by destruct (pm_TokenomicsParams params)|].
    intros t. do 4 (apply pays_none_bind; [apply pays_none_answering|intros _]). intros ? ? ?. done. }
  destruct (body l) as [l1 [x|x]] eqn:Hb; [done|]. intros [= <- <-]. split; [done|]. intros response ->. by eapply Hz.
Qed.

(** What a claim needs to be paid. *)
Record claim_ready (v : Verdict) l msg a sa r : Prop := {
  rd_permitted : CheckClaimPermission l (cr_Creator msg) = true;
  rd_params : exists params, SettleParamsOf (world l) = Some params /\ payable_claim params r /\
    forall l1, attempted l a sa l1 -> claim_verdict v params l1 msg (sa_set_attempt (BlockHeightOf (world l)) sa) = None;
  rd_claimable : claimable l msg a sa;
  rd_recipient : ResolveClaimRecipientAddress (tr_Chain l) (cr_Creator msg) (cr_EpochIndex msg) = Ok r
}.

(** A claim is refused, or paid in full. *)
Definition claim_answer l msg (response : MsgClaimRewardsResponse) l' : Prop :=
  (rs_Amount response = 0 /\ refused l msg l') \/
  (exists a sa r, claimable l msg a sa /\ ResolveClaimRecipientAddress (tr_Chain l) (cr_Creator msg) (cr_EpochIndex msg) = Ok r /\
     rs_Amount response = coins sa /\ claimed l a sa r l').

Lemma claim_wp (P : Prop) v msg l :
  books_small l -> (P -> exists a sa r, claim_ready v l msg a sa r) ->
  wp (ClaimRewards v msg) (ok_or P (fun l' response => claim_answer l msg response l' /\ (P -> 0 < rs_Amount response))) l.
Proof.
  intros Hbk HP. unfold ClaimRewards. wp_step. apply wp_get. wp_step. wp_step; [|intros Hp; destruct (HP Hp) as (a & sa & r & [Hx _ _ _]); congruence].
  wp_step. wp_step; [|intros Hp; destruct (HP Hp) as (a & sa & r & [_ (? & ? & _) _ _]); congruence]. rename v0 into params.
  assert (P -> exists a sa, claimable l msg a sa) as HP1 by (intros Hp; destruct (HP Hp) as (a & sa & r & [_ _ ? _]); eauto).
  pose proof (request_wp P l msg Hbk HP1) as Hreq. unfold wp in *. unfold bind at 1. destruct (validateRequest msg l) as [l1 [sa'|[response|]]]; cbn [request_post] in Hreq.
  3: done.
  2: { destruct Hreq as (Hz & Hr & Hn). cbn [ok_or]. split; [by left|done]. }
  destruct Hreq as (a & sa & Hcl & -> & Hat). set (sa' := sa_set_attempt _ sa). destruct Hbk as [Hok Hb]. destruct (attempted_ok _ _ _ _ Hat Hok) as (Hsa' & Hok1 & Hun1). fold sa' in Hsa'.
  assert (coins sa' <= unclaimed l) as Hle by exact (coins_unclaimed _ _ _ Hok (cb_stored _ _ _ _ Hcl)).
  rewrite (bind_run _ _ l1 l1 l1) by done. unfold bind at 1. destruct (claim_verdict v params l1 msg sa') as [result|] eqn:Hv.
  { cbn [refuse fail ok_or]. split; [left; split; [done|right; exists a, sa; split; [apply Hcl|done]]|]. intros Hp. destruct (HP Hp) as (b & sb & r & [_ (q & Hq & _ & Hver) Hcl' _]).
    destruct Hcl as [Hc1 Hc2 _ _ _ _], Hcl' as [Hc1' Hc2' _ _ _ _]. simplify_eq. specialize (Hver l1 Hat). unfold sa' in Hv. congruence. }
  cbn [ret]. assert (tr_Chain l1 = tr_Chain l) as Hch1 by (by rewrite (at_treasury _ _ _ _ Hat)).
  assert (holdings l1 = holdings l) as Hb1 by (unfold holdings, world; by rewrite Hch1).
  pose proof (payout_wp P params msg l1 a sa' Hsa' ltac:(lia)) as Hpay. unfold wp in Hpay.
  destruct (payoutClaim params msg sa' l1) as [l2 [response|[response|]]] eqn:Hrun; cbn [ok_or] in Hpay |- *.
  - destruct Hpay as (-> & r & Hres & Hcd).
    + intros Hp. destruct (HP Hp) as (b & sb & r & [_ (q & Hq & Hpb & _) Hcl' Hr]). rewrite Hch1. split; [lia|]. exists r. split; [done|]. congruence.
    + split; [|intros _; cbn; apply (cb_coins _ _ _ _ Hcl)]. right. exists a, sa, r. rewrite Hch1 in Hres. split; [done|]. split; [done|]. split; [done|].
      by eapply attempted_claimed.
  - destruct (payout_refused _ _ _ _ _ _ Hrun) as [-> Hz]. split; [left; split; [by apply Hz|right; exists a, sa; split; [apply Hcl|done]]|]. intros Hp. destruct Hpay; [|done].
    intros _. destruct (HP Hp) as (b & sb & r & [_ (q & Hq & Hpb & _) Hcl' Hr]). rewrite Hch1. split; [lia|]. exists r. split; [done|]. congruence.
  - apply Hpay. intros Hp. destruct (HP Hp) as (b & sb & r & [_ (q & Hq & Hpb & _) Hcl' Hr]). rewrite Hch1. split; [lia|]. exists r. split; [done|]. congruence.
Qed.

(** A claim leaves the books in order. *)
Lemma claimed_ok l msg a sa r l' : treasury_ok l -> claimable l msg a sa -> claimed l a sa r l' -> treasury_ok l' /\ reserve l <= reserve l'.
Proof.
  intros [Hch Ham Hres] [_ Hst _ _ _ _] [(w & Hw) [Hb _] _ Ha _]. assert (unclaimed l' = unclaimed l - coins sa) as Hu.
  { unfold unclaimed. by rewrite Ha, (msum_delete_option coins), Hst. }
  assert (reserve l <= reserve l') as Hr.
  { unfold reserve, slack, locked, owed, holdings, world in *. rewrite Hu, Hw in *. cbn in *. lia. }
  assert (amounts_ok l') as Hok by (intros b sb; rewrite Ha; intros [_ Hx]%lookup_delete_Some; by apply Ham).
  split; [|done]. split; [|done|lia]. rewrite Hw in *. apply (books_chain_ok (tr_Chain l)); [by split|apply Hch| |done].
  pose proof (unclaimed_nonneg _ Hok). unfold reserve in *. rewrite Hw in *. lia.
Qed.

Lemma refused_ok l msg l' : treasury_ok l -> refused l msg l' -> treasury_ok l' /\ reserve l' = reserve l.
Proof.
  intros Hok [->|(a & sa & _ & Hat)]; [done|]. destruct (attempted_ok _ _ _ _ Hat (lo_amounts _ Hok)) as (_ & Ham & Hu).
  assert (tr_Chain l' = tr_Chain l) as Hc by (by rewrite (at_treasury _ _ _ _ Hat)). assert (reserve l' = reserve l) as Hr by (unfold reserve; rewrite Hc, Hu; done).
  split; [|done]. split; [rewrite Hc; apply Hok|done|]. rewrite Hr. apply Hok.
Qed.

Lemma treasury_small l : treasury_ok l -> holdings l < 2 ^ 63 -> books_small l.
Proof.
  intros Hok Hb. split; [apply Hok|]. pose proof (lo_solvent _ Hok). pose proof (slack_holdings _ (lo_chain _ Hok)). unfold reserve, holdings, world in *. lia.
Qed.

Lemma claim_answered v msg l l' response :
  treasury_ok l -> holdings l < 2 ^ 63 -> ClaimRewards v msg l = (l', Ok response) -> claim_answer l msg response l'.
Proof.
  intros Hok Hb Hrun. pose proof (claim_wp False v msg l (treasury_small _ Hok Hb) ltac:(done)) as Hwp. unfold wp in Hwp.
  rewrite Hrun in Hwp. apply Hwp.
Qed.

(** C9: A claim pays what was settled, once.  Whatever the validation says, a claim that
    is answered either pays nothing and changes nothing but the time of the attempt, or
    it pays exactly the work and the reward of the claimed epoch to the participant's
    recipient, removes the amount, and leaves every other account as it was; a second
    claim of the same participant is then refused. *)
Theorem claim_exact v msg l l' response :
  treasury_ok l -> holdings l < 2 ^ 63 -> ClaimRewards v msg l = (l', Ok response) ->
  (rs_Amount response = 0 /\ refused l msg l') \/
  exists a sa r, claimable l msg a sa /\ ResolveClaimRecipientAddress (tr_Chain l) (cr_Creator msg) (cr_EpochIndex msg) = Ok r /\
    rs_Amount response = coins sa /\ claimed l a sa r l' /\
    forall v2 msg2 l2 response2, cr_Creator msg2 = cr_Creator msg -> ClaimRewards v2 msg2 l' = (l2, Ok response2) -> rs_Amount response2 = 0 /\ refused l' msg2 l2.
Proof.
  intros Hok Hb Hrun. destruct (claim_answered _ _ _ _ _ Hok Hb Hrun) as [?|(a & sa & r & Hcl & Hres & Hamt & Hcd)]; [by left|right]. exists a, sa, r. do 4 (split; [done|]).
  intros v2 msg2 l2 response2 Hcr Hrun2. destruct (claimed_ok _ _ _ _ _ _ Hok Hcl Hcd) as [Hok' _]. pose proof (cl_balance _ _ _ _ _ Hcd) as Hb'.
  destruct (claim_answered _ _ _ _ _ Hok' ltac:(lia) Hrun2) as [?|(a2 & sa2 & r2 & [Hc1 Hc2 _ _ _ _] & _)]; [done|].
  rewrite Hcr, (cb_creator _ _ _ _ Hcl) in Hc1. injection Hc1 as <-. by rewrite (cl_amounts _ _ _ _ _ Hcd), lookup_delete_eq in Hc2.
Qed.

(** A claim goes through.  A permitted participant with an unclaimed amount of the
    last epoch, whose last attempt is 30 blocks ago and whose recipient can be paid,
    receives it: the module always has the coins. *)
Lemma claim_paid v msg l a sa r :
  treasury_ok l -> holdings l < 2 ^ 63 -> claim_ready v l msg a sa r ->
  exists l' response, ClaimRewards v msg l = (l', Ok response) /\ rs_Amount response = coins sa /\ claimed l a sa r l' /\ treasury_ok l'.
Proof.
  intros Hok Hb Hrd. pose proof (claim_wp True v msg l (treasury_small _ Hok Hb) ltac:(eauto)) as Hwp. unfold wp in Hwp.
  destruct (ClaimRewards v msg l) as [l' [response|e]]; cbn [ok_or] in Hwp; [|tauto]. destruct Hwp as [[[Hz _]|(a2 & sa2 & r2 & Hcl & Hres & Hamt & Hcd)] Hpos]; [specialize (Hpos I); lia|].
  destruct Hrd as [_ _ Hcl' Hres']. assert (a2 = a /\ sa2 = sa /\ r2 = r) as (-> & -> & ->).
  { destruct Hcl as [Hc1 Hc2 _ _ _ _], Hcl' as [Hc1' Hc2' _ _ _ _]. assert (a2 = a) as -> by congruence. split_and!; congruence. }
  exists l', response. do 3 (split; [done|]). by destruct (claimed_ok _ _ _ _ _ _ Hok Hcl Hcd).
Qed.
End Claims.
