(* ===== verification/SettleTrace.v ===== *)
(** * Escrows, settlements and claims in any order

    The steps of the inference module (ChainTrace.v) interleaved with the settlements of
    epochs, the claims of participants and the steps of the other parts of the chain.  The
    module's account covers the open escrows, the coin balances, the unclaimed amounts and
    what the other parts hold on it throughout, and what a participant earned in an epoch
    reaches its recipient. *)

From S2P Require Import Prelude.
From S2P Require Import GoStd.
From S2P Require Import ChainSlots.
From S2P Require Import ChainSettlement.
From S2P Require Import ChainStore.
From S2P Require Import ChainDecimal.
From S2P Require Import ChainState.
From S2P Require Import ChainCoins.
From S2P Require Import Rewards.
From S2P Require Import RewardsSpec.
From S2P Require Import ChainEscrow.
From S2P Require Import ChainEscrowSpec.
From S2P Require Import ChainPruning.
From S2P Require Import ChainTrace.
From S2P Require Import Settle.
From S2P Require Import SettleSpec.
Open Scope Z_scope.
Open Scope go_scope.

Section Trace.
Context {W : Type} `{!AccAddressCodec} `{!AccAddressLaws} `{!ChainEnv W} `{!ChainEnvLaws W}.
Context `{!ParticipantStatusKeeper W} `{!ParticipantStatusLaws W} `{!RewardBank W} `{!RewardBankLaws W} `{!SettleEnv W}.
Context `{!ChainCodec} `{!Secp256k1}.
Context `{!CoinLib} `{!DecimalLib} `{!DecimalLaws} `{!LegacyDecLib} `{!LegacyDecLaws} `{!LegacyDecParse}.
Context (SortFunc : list slotRandom -> list slotRandom) (Hsort : sorts_randoms SortFunc) (user : string -> Prop).
Implicit Types (l : Treasury W) (c : Chain W) (a : AccAddress) (msg : MsgClaimRewards) (s : Treasury W * Z).
Abbreviation Verdict := (Treasury W -> MsgClaimRewards -> SettleAmount -> option string).

(** The books: the treasury, and the coins [x] on the module's account that other parts of
    the chain hold there for purposes of their own, as the escrows of inferences that are
    requested on the chain. *)
Definition treasury_inv s : Prop := treasury_ok s.1 /\ claims_ok (tr_Chain s.1) /\ 0 <= s.2 <= reserve s.1.

(** What those parts may do: anything but to the escrows, claim recipients and settle
    amounts, as long as they spend only coins that they hold and pay for the coin balances
    they promise, out of what they hold or from elsewhere. *)
Record other_move s s' : Prop := {
  om_escrows : DevshardEscrows (tr_Chain s'.1) = DevshardEscrows (tr_Chain s.1) /\
    DevshardEscrowsByEpoch (tr_Chain s'.1) = DevshardEscrowsByEpoch (tr_Chain s.1) /\
    DevshardEscrowCounter (tr_Chain s'.1) = DevshardEscrowCounter (tr_Chain s.1);
  om_claims : ClaimRecipients (tr_Chain s'.1) = ClaimRecipients (tr_Chain s.1) /\
    ClaimRecipientsByEpoch (tr_Chain s'.1) = ClaimRecipientsByEpoch (tr_Chain s.1);
  om_participants : participants_ok (tr_Chain s'.1);
  om_amounts : SettleAmounts s'.1 = SettleAmounts s.1;
  om_held : 0 <= s'.2;
  om_paid : (owed (tr_Chain s'.1) - owed (tr_Chain s.1)) + (s'.2 - s.2) <= holdings s'.1 - holdings s.1
}.

(** The steps of the module between the settlements: messages and pruners, and claims of
    the participants that [claims] admits, under any verdict of the validation. *)
Inductive own_step (claims : AccAddress -> Prop) : Treasury W -> Treasury W -> Prop :=
| own_module l c' : module_step SortFunc user (tr_Chain l) c' -> own_step claims l (set_Chain c' l)
| own_claim l v msg : (forall a, AccAddressFromBech32 (cr_Creator msg) = Some a -> claims a) -> holdings l < 2 ^ 63 ->
    own_step claims l (cached (ClaimRewards v msg) l).1.

(** The settlement of an epoch, for which the chain is ready and which does not cross the
    limit of the supply. *)
Inductive epoch_step : Treasury W -> Treasury W -> Prop :=
| step_epoch l e prev inputs bp : epoch_ready l e prev inputs bp -> off_limit inputs bp -> epoch_step l (SettleAccounts e prev l).1.

Inductive quiet_step (claims : AccAddress -> Prop) : Treasury W * Z -> Treasury W * Z -> Prop :=
| quiet_own l l' x : own_step claims l l' -> quiet_step claims (l, x) (l', x)
| quiet_other s s' : other_move s s' -> quiet_step claims s s'.
Inductive treasury_step : Treasury W * Z -> Treasury W * Z -> Prop :=
| treasury_quiet s s' : quiet_step (fun _ => True) s s' -> treasury_step s s'
| treasury_epoch l l' x : epoch_step l l' -> treasury_step (l, x) (l', x).

Lemma claim_answer_step (claims : AccAddress -> Prop) l v msg l' response :
  (forall a, AccAddressFromBech32 (cr_Creator msg) = Some a -> claims a) -> holdings l < 2 ^ 63 -> ClaimRewards v msg l = (l', Ok response) ->
  own_step claims l l'.
Proof. intros Hc Hb Hrun. pose proof (own_claim claims l v msg Hc Hb) as Hs. unfold cached in Hs. by rewrite Hrun in Hs. Qed.

Lemma epoch_answer l e prev inputs bp l' :
  epoch_ready l e prev inputs bp -> off_limit inputs bp -> SettleAccounts e prev l = (l', Ok tt) -> epoch_step l l'.
Proof. intros Hrd Hoff Hrun. pose proof (step_epoch l e prev inputs bp Hrd Hoff) as Hs. by rewrite Hrun in Hs. Qed.

Lemma books_step c c' : books_same c c' -> claims_ok c -> claims_ok c' /\ evolves c c'.
Proof. intros [(He & _ & Hc) [Hr1 Hr2] _] Hcl. split; [by eapply claims_same|by apply evolves_same]. Qed.

Lemma claimed_books l a sa r l' : claimed l a sa r l' -> books_same (tr_Chain l) (tr_Chain l').
Proof. intros [(w & ->) _ _ _ _]. by split. Qed.

Lemma refused_chain l msg l' : refused l msg l' -> tr_Chain l' = tr_Chain l.
Proof. intros [->|(a & sa & _ & [_ ->])]; done. Qed.

(** What the steps of the module keep: the books in order, and the surplus. *)
Definition advances l l' : Prop := treasury_ok l' /\ claims_ok (tr_Chain l') /\ reserve l <= reserve l' /\ evolves (tr_Chain l) (tr_Chain l').

Lemma module_treasury l c' :
  treasury_ok l -> claims_ok (tr_Chain l) -> module_step SortFunc user (tr_Chain l) c' -> advances l (set_Chain c' l).
Proof.
  intros [Hch Ham Hres] Hcl Hs. destruct (module_inv _ _ _ _ Hsort (conj Hch Hcl) Hs) as [[Hch' Hcl'] [Hev Hsl]].
  assert (reserve l <= reserve (set_Chain c' l)) by (unfold reserve, unclaimed in *; cbn; lia).
  split; [split; [done..|lia]|done].
Qed.

Lemma claim_step v msg l :
  treasury_ok l -> claims_ok (tr_Chain l) -> holdings l < 2 ^ 63 -> let l' := (cached (ClaimRewards v msg) l).1 in
  advances l l' /\ forall a, AccAddressFromBech32 (cr_Creator msg) <> Some a -> SettleAmounts l' !! a = SettleAmounts l !! a.
Proof.
  intros Hok Hcl Hb l'. unfold l', cached. destruct (ClaimRewards v msg l) as [l1 [response|err]] eqn:Hrun; cbn [fst].
  2: { split; [|done]. split; [done|]. split; [done|]. split; [lia|by apply evolves_same]. }
  destruct (claim_answered _ _ _ _ _ Hok Hb Hrun) as [[_ Hr]|(a & sa & r & Hcb & _ & _ & Hcd)].
  - destruct (refused_ok _ _ _ Hok Hr) as [Hok1 Hres]. pose proof (refused_chain _ _ _ Hr) as Hc. split.
    + split; [done|]. rewrite Hc. split; [done|]. split; [lia|by apply evolves_same].
    + intros a Ha. destruct Hr as [->|(b & sa & Hcr & [_ ->])]; [done|]. cbn. apply lookup_insert_ne. congruence.
  - destruct (claimed_ok _ _ _ _ _ _ Hok Hcb Hcd) as [Hok1 Hres]. destruct (books_step _ _ (claimed_books _ _ _ _ _ Hcd) Hcl) as [Hcl1 Hev].
    split; [done|]. intros b Hne. rewrite (cl_amounts _ _ _ _ _ Hcd). apply lookup_delete_ne. intros ->. by apply Hne, Hcb.
Qed.

Lemma own_inv claims l l' : treasury_ok l -> claims_ok (tr_Chain l) -> own_step claims l l' ->
  advances l l' /\ forall a, ~ claims a -> SettleAmounts l' !! a = SettleAmounts l !! a.
Proof.
  intros Hok Hcl Hs. destruct Hs as [l c' Hs|l v msg Hc Hb]; [split; [by apply module_treasury|done]|].
  destruct (claim_step v msg l Hok Hcl Hb) as [? Hk]. split; [done|]. intros a Ha. apply Hk. auto.
Qed.

Lemma epoch_inv l l' : claims_ok (tr_Chain l) -> epoch_step l l' -> advances l l'.
Proof.
  intros Hcl Hs. destruct Hs as [l e prev inputs bp Hrd Hoff]. destruct (settlement_run _ _ _ _ _ Hrd Hoff) as (rs & b & l1 & _ & _ & Hsum & Hg & _ & -> & Has). cbn [fst].
  destruct (books_step _ _ (as_books _ _ _ _ _ _ _ _ Has) Hcl) as [Hcl' Hev]. split; [by apply Has|]. split; [done|]. split; [|done].
  rewrite (as_reserve _ _ _ _ _ _ _ _ Has). assert (0 <= lsum idle (bi_Participants inputs)) as Hi.
  { pose proof (fetched_inputs _ _ _ (sx_loaded _ _ _ _ _ Hrd) (co_participant _ (lo_chain _ (sx_treasury _ _ _ _ _ Hrd))) (sx_addresses _ _ _ _ _ Hrd)) as Hld.
    apply lsum_nonneg. intros p Hp. rewrite Forall_forall in Hld. destruct (Hld p Hp) as [_ _ Hst]. unfold idle. destruct (is_active p); [lia|].
    by apply (co_participant _ (lo_chain _ (sx_treasury _ _ _ _ _ Hrd)) _ _ Hst). }
  assert (governance_part (br_UseBitcoinRewards bp) b <= bt_GovernanceAmount b) by (unfold governance_part; case_match; lia). lia.
Qed.

Lemma advances_inv l l' x : treasury_inv (l, x) -> advances l l' -> treasury_inv (l', x).
Proof. intros (_ & _ & Hx) (Hok & Hcl & Hr & _). cbn in Hx. split; [done|]. split; [done|]. cbn. lia. Qed.

Lemma move_inv s s' : treasury_inv s -> other_move s s' -> treasury_inv s' /\ evolves (tr_Chain s.1) (tr_Chain s'.1).
Proof.
  destruct s as [l x], s' as [l' x']. intros ([Hch Ham Hres] & Hcl & Hx) [(He & Hix & Hctr) (Hc1 & Hc2) Hp Has Hh Hpaid]. cbn [fst snd] in *.
  assert (reserve l' = reserve l + (holdings l' - holdings l) - (owed (tr_Chain l') - owed (tr_Chain l))) as Hr.
  { unfold reserve, slack, locked, unclaimed, holdings, world in *. rewrite He, Has. lia. }
  assert (amounts_ok l') as Ham' by (intros a sa; rewrite Has; apply Ham). pose proof (unclaimed_nonneg _ Ham') as Hun.
  split; [|by apply evolves_same]. unfold treasury_inv. cbn [fst snd]. split; [split; [|done|lia]|split; [by eapply claims_same|lia]].
  destruct Hch as [_ Ho2 Ho3 Ho4 _]. split; rewrite ?He, ?Hix, ?Hctr; try done. unfold reserve in *. lia.
Qed.

Lemma quiet_inv claims s s' :
  treasury_inv s -> quiet_step claims s s' -> treasury_inv s' /\ evolves (tr_Chain s.1) (tr_Chain s'.1) /\
  forall a, ~ claims a -> SettleAmounts s'.1 !! a = SettleAmounts s.1 !! a.
Proof.
  intros HI Hs. destruct Hs as [l l' x Hs|s s' Hs].
  - pose proof HI as (Hok & Hcl & _). destruct (own_inv _ _ _ Hok Hcl Hs) as [Hadv Hk]. split; [by eapply advances_inv|]. split; [by apply Hadv|done].
  - destruct (move_inv _ _ HI Hs) as [HI' Hev]. split; [done|]. split; [done|]. intros a _. by rewrite (om_amounts _ _ Hs).
Qed.

Lemma treasury_step_inv s s' : treasury_inv s -> treasury_step s s' -> treasury_inv s' /\ evolves (tr_Chain s.1) (tr_Chain s'.1).
Proof.
  intros HI Hs. destruct Hs as [s s' Hs|l l' x Hs]; [by destruct (quiet_inv _ _ _ HI Hs) as (? & ? & _)|].
  pose proof HI as (_ & Hcl & _). pose proof (epoch_inv _ _ Hcl Hs) as Hadv. split; [by eapply advances_inv|by apply Hadv].
Qed.

Lemma inv_covers s : treasury_inv s -> locked (tr_Chain s.1) + owed (tr_Chain s.1) + unclaimed s.1 + s.2 <= holdings s.1.
Proof. intros (_ & _ & Hx). unfold reserve, slack, holdings, world in *. lia. Qed.

(** C5: The module never owes more than it has.  Over any interleaving of opened, settled
    and pruned escrows, claims, settlements of epochs that the chain is ready for and that
    do not cross the limit of the supply, and steps of other parts of the chain, which
    spend only the coins they hold on the module's account and pay for the coin balances
    they promise, the account covers the open escrows, the coin balances of the
    participants, the amounts they have not claimed yet and what the other parts hold. *)
Theorem treasury_stays_solvent s s' :
  treasury_inv s -> rtc treasury_step s s' ->
  locked (tr_Chain s'.1) + owed (tr_Chain s'.1) + unclaimed s'.1 + s'.2 <= holdings s'.1 /\ treasury_inv s' /\
  evolves (tr_Chain s.1) (tr_Chain s'.1).
Proof.
  intros HI Hr. enough (treasury_inv s' /\ evolves (tr_Chain s.1) (tr_Chain s'.1)) as [HI' Hev] by (split; [by apply inv_covers|done]).
  induction Hr as [s|s s1 s' Hs Hr IH]; [split; [done|by apply evolves_same]|].
  destruct (treasury_step_inv _ _ HI Hs) as [HI1 Hev]. destruct (IH HI1) as [HI' Hev']. split; [done|]. by eapply evolves_trans.
Qed.

Lemma quiet_run claims s s' :
  treasury_inv s -> rtc (quiet_step claims) s s' -> treasury_inv s' /\ forall a, ~ claims a -> SettleAmounts s'.1 !! a = SettleAmounts s.1 !! a.
Proof.
  intros HI Hr. induction Hr as [s|s s1 s' Hs Hr IH]; [done|]. destruct (quiet_inv _ _ _ HI Hs) as (HI1 & _ & Hk). destruct (IH HI1) as [HI' Hk'].
  split; [done|]. intros a Ha. by rewrite Hk', Hk.
Qed.

(** What the settlement recorded for the participant [p]. *)
Lemma settled_share l e prev inputs bp rs new G l1 i p x :
  epoch_ready l e prev inputs bp -> accounts_settled l e prev inputs rs new G l1 ->
  Forall2 (fair (fixed_reward (bi_EpochGroupData inputs) bp)) (bi_Participants inputs) rs -> bi_Participants inputs !! i = Some p -> rs !! i = Some x ->
  coins (sr_Settle x) = work p + sa_RewardCoins (sr_Settle x) /\
  (0 < coins (sr_Settle x) -> SettleAmounts l1 !! pkey p = Some (recorded e (seeds_of (bi_EpochGroupData inputs)) x)).
Proof.
  intros Hrd Has Hf Hp Hx. destruct (Forall2_lookup_lr _ _ _ _ _ _ Hf Hp Hx) as [Hx1 Hx2 Hx3 Hx4]. apply list_elem_of_lookup_2 in Hp, Hx.
  split; [unfold coins; lia|]. pose proof (sx_addresses _ _ _ _ _ Hrd) as Ha. rewrite Forall_forall in Ha.
  assert (akey x = pkey p) as <- by (unfold akey, pkey; by rewrite Hx1, Ha). by apply Has.
Qed.

(** C2: Work and rewards reach the participants.  The settlement of an epoch that does not
    cross the limit of the supply, on a chain that is ready for it, goes through and
    divides the coins it mints, as [GetBitcoinSettleAmountsWithTransfers] computes it, into
    one share for each participant and the part of governance.  Whatever happens until the
    next settlement, by messages, pruners, claims of others and steps of other parts of the
    chain that spend only what they hold and pay for what they promise, a claim of the participant that is ready then pays exactly the
    work the participant was owed and its share, and the amount is gone. *)
Theorem earnings_reach_participants l x e prev inputs bp :
  treasury_inv (l, x) -> epoch_ready l e prev inputs bp -> off_limit inputs bp -> exists rs b l1,
  let shares := (fun r => sa_RewardCoins (sr_Settle r)) <$> rs in let part := bt_GovernanceAmount b in
  epoch_division inputs bp = Ok (rs, b) /\ SettleAccounts e prev l = (l1, Ok tt) /\ length shares = length (bi_Participants inputs) /\ Forall (fun n => 0 <= n) (part :: shares) /\
  lsum id (part :: shares) <= fixed_reward (bi_EpochGroupData inputs) bp /\
  option_map tk_TotalSubsidies (tr_Tokenomics l1) = Some (u64 (default 0 (option_map tk_TotalSubsidies (tr_Tokenomics l)) + lsum id (part :: shares))) /\
  forall i p n l2 x2 v msg sa r, bi_Participants inputs !! i = Some p -> shares !! i = Some n -> 0 < work p + n ->
    rtc (quiet_step (fun a => a <> pkey p)) (l1, x) (l2, x2) -> holdings l2 < 2 ^ 63 -> cr_Creator msg = pp_Index p -> claim_ready v l2 msg (pkey p) sa r ->
  exists l3 response, ClaimRewards v msg l2 = (l3, Ok response) /\ rs_Amount response = work p + n /\ coins sa = work p + n /\
    sa_EpochIndex sa = e /\ claimed l2 (pkey p) sa r l3 /\ SettleAmounts l3 !! pkey p = None.
Proof.
  intros HI Hrd Hoff. destruct (settlement_run _ _ _ _ _ Hrd Hoff) as (rs & b & l1 & Hdiv & Hf & Hsum & Hgov & Hle & Hrun & Has).
  set (share := fun x => sa_RewardCoins (sr_Settle x)). assert (lsum id (bt_GovernanceAmount b :: (share <$> rs)) = bt_Amount b) as Htot.
  { rewrite lsum_cons, lsum_fmap. cbn [id]. rewrite <-Hsum. unfold share, id. lia. }
  exists rs, b, l1. cbv zeta. fold share. rewrite Htot. split; [done|]. split; [done|]. split; [rewrite length_fmap; symmetry; by eapply Forall2_length|]. split.
  { constructor; [done|]. apply Forall_fmap, Forall_forall. intros y Hx. apply list_elem_of_lookup in Hx as [i Hx].
    destruct (Forall2_lookup_r _ _ _ _ _ Hf Hx) as (p & _ & [_ _ Hx3 _]). apply Hx3. }
  split; [done|]. split; [apply Has|]. intros i p n l2 x2 v msg sa r Hp Hn Hpos Hq Hb Hc Hready. apply list_lookup_fmap_Some in Hn as (y & -> & Hx). unfold share in *.
  destruct (settled_share _ _ _ _ _ _ _ _ _ _ _ _ Hrd Has Hf Hp Hx) as [Hco Hst]. specialize (Hst ltac:(lia)).
  pose proof (advances_inv _ _ x HI (epoch_inv l l1 (proj1 (proj2 HI)) (epoch_answer _ _ _ _ _ _ Hrd Hoff Hrun))) as HI1.
  destruct (quiet_run _ _ _ HI1 Hq) as [[Hok2 _] Hk]. specialize (Hk (pkey p) ltac:(tauto)). cbn [fst] in Hok2, Hk.
  rewrite Hst, (cb_stored _ _ _ _ (rd_claimable _ _ _ _ _ _ Hready)) in Hk. injection Hk as ->.
  destruct (claim_paid _ _ _ _ _ _ Hok2 Hb Hready) as (l3 & response & Hrun3 & Hamt & Hcd & _). exists l3, response.
  split; [done|]. split; [by rewrite Hamt, <-Hco|]. do 3 (split; [done|]). by rewrite (cl_amounts _ _ _ _ _ Hcd), lookup_delete_eq.
Qed.
End Trace.
