(* ===== verification/WholeChain.v ===== *)
(** * The inference module and the collateral module on one chain

    The escrow handlers, the pruners, the settlements of epochs, the claims and the status
    of participants run over the store of the collateral module, with its slashing behind
    the status; the messages, hooks and epochs of the collateral module come in between,
    in any order.  Neither module's account ever falls short of what that module owes. *)

From Stdlib Require Import QArith Qabs Qround Lqa.
From stdpp Require Import sorting pretty.
From S2P Require Import Prelude.
From S2P Require Import GoStd.
From S2P Require Import ChainSlots.
From S2P Require Import ChainSettlement.
From S2P Require Import ChainStore.
From S2P Require Import ChainDecimal.
From S2P Require Import ChainState.
From S2P Require Import ChainCoins.
From S2P Require Import Collateral.
From S2P Require Import CollateralSpec.
From S2P Require Import CollateralTrace.
From S2P Require Import ChainStatus.
From S2P Require Import ChainCollateral.
From S2P Require Import ChainEscrow.
From S2P Require Import ChainEscrowSpec.
From S2P Require Import ChainPruning.
From S2P Require Import ChainTrace.
From S2P Require Import Rewards.
From S2P Require Import RewardsSpec.
From S2P Require Import Settle.
From S2P Require Import SettleSpec.
From S2P Require Import SettleTrace.
Open Scope Z_scope.
Open Scope go_scope.

(* ------------------------------------------------------------------ *)
(** ** What the handlers do to the other modules *)

(** A handler changes the other modules only through the bank and the status of
    participants: what these keep, it keeps. *)
Section Handlers.
Context {W : Type} `{!AccAddressCodec} `{!ChainEnv W} `{!ParticipantStatusKeeper W} `{!ChainCodec} `{!Secp256k1}.
Context (R : W -> W -> Prop) `{!PreOrder R}.
Abbreviation keeps_world := (keeps ch_World R).
Hypothesis out_keeps : forall a n w w' r, SendCoinsFromModuleToAccount a n w = (w', r) -> R w w'.
Hypothesis status_keeps : forall p, keeps_world (UpdateParticipantStatus p).

Lemma keeps_on_world {A} (f : W -> W * outcome string A) : (forall w w' r, f w = (w', r) -> R w w') -> keeps_world (on_world f).
Proof. intros Hf c c' r. unfold on_world. destruct (f (ch_World c)) as [w r'] eqn:Hw. intros [= <- _]. cbn. eauto. Qed.
Lemma keeps_permission signer perm : keeps_world (CheckPermission signer perm).
Proof. apply keeps_pure; [done|]. intros c. unfold CheckPermission. by destruct (AccAddressFromBech32 signer). Qed.
Lemma keeps_attempt {A} (m : GoM (Chain W) string A) : keeps_world m -> keeps_world (attempt m).
Proof.
  intros Hm c c' r. unfold attempt. destruct (m c) as [c1 [x|e]] eqn:Hc; [|case_bool_decide];
  intros [= <- _]; by eapply Hm.
Qed.

Lemma keeps_set_participant p : keeps_world (SetParticipant p).
Proof. unfold SetParticipant. repeat (apply status_keeps || keeps_step). Qed.
Lemma keeps_pay payout r : keeps_world (payCoinsDirectly payout r).
Proof. unfold payCoinsDirectly. repeat (apply keeps_on_world, out_keeps || keeps_step). Qed.
Lemma keeps_refund creator n : keeps_world (refund_creator creator n).
Proof. unfold refund_creator. repeat (apply keeps_on_world, out_keeps || keeps_step). Qed.
Lemma keeps_stats e a hs first : keeps_world (UpdateDevshardHostEpochStats e a hs first).
Proof. unfold UpdateDevshardHostEpochStats. repeat keeps_step. Qed.

Lemma keeps_settle msg : keeps_world (SettleDevshardEscrow msg).
Proof.
  unfold SettleDevshardEscrow, load_participant, pay_validator, record_stats, save_participant, SetDevshardEscrow.
  repeat (apply keeps_permission || apply keeps_set_participant || apply keeps_pay || apply keeps_refund || apply keeps_stats || keeps_step).
Qed.

Lemma keeps_create SortFunc msg :
  (forall a n w w' r, AccAddressFromBech32 (mc_Creator msg) = Some a -> SendCoinsFromAccountToModule a n w = (w', r) -> R w w') ->
  keeps_world (CreateDevshardEscrow SortFunc msg).
Proof.
  intros Hin. unfold CreateDevshardEscrow, StoreDevshardEscrow, SetDevshardEscrow, IncrementDevshardEscrowEpochCount.
  repeat (apply keeps_permission || keeps_step). apply keeps_on_world. by intros w w' r; apply Hin.
Qed.

Lemma keeps_claims msg : keeps_world (SetClaimRecipients msg).
Proof.
  unfold SetClaimRecipients, applyClaimRecipientEntry, SetClaimRecipientForEpoch, RemoveClaimRecipientForEpoch.
  repeat (apply keeps_permission || (apply keeps_cached; [exact _|]) || keeps_step).
Qed.

Lemma keeps_prune {Key} (p : Pruner W Key) current :
  (forall k, keeps_world (pr_Remover p k)) -> (forall post e, pr_PostPruneEpoch p = Some post -> keeps_world (post e)) ->
  keeps_world (Prune p current).
Proof.
  intros Hrem Hpost. unfold Prune, prune_one, PruneEpoch.
  assert (forall left n keys, keeps_world (prune_keys p left n keys)) as Hkeys.
  { intros left n keys. revert n. induction keys as [|k keys IH]; intros n; cbn [prune_keys]; repeat (apply Hrem || apply IH || keeps_step). }
  repeat (apply keeps_attempt || apply Hkeys || (eapply Hpost; done) || keeps_step).
Qed.

Lemma keeps_prune_devshard current : keeps_world (Prune GetDevshardPruner current).
Proof.
  apply keeps_prune.
  - intros [e id]. cbn [pr_Remover GetDevshardPruner]. unfold remove_escrow, distributeUnsettledEscrow, send_share.
    repeat (apply keeps_attempt || apply keeps_on_world, out_keeps || keeps_step).
  - intros post e [= <-]. unfold clear_epoch. repeat keeps_step.
Qed.
Lemma keeps_prune_claims current : keeps_world (Prune GetClaimRecipientPruner current).
Proof.
  apply keeps_prune; [|done]. intros k. cbn [pr_Remover GetClaimRecipientPruner]. unfold RemoveClaimRecipientForEpoch. keeps_step.
Qed.
End Handlers.

(** The same for the settlements of epochs and the claims. *)
Section Settlements.
Context {W : Type} `{!AccAddressCodec} `{!ChainEnv W} `{!ParticipantStatusKeeper W} `{!RewardBank W} `{!SettleEnv W}.
Context `{!CoinLib} `{!DecimalLib} `{!LegacyDecLib} `{!LegacyDecParse}.
Context (R : W -> W -> Prop) `{!PreOrder R}.
Abbreviation keeps_treasury := (keeps world R).
Hypothesis out_keeps : forall a n w w' r, SendCoinsFromModuleToAccount a n w = (w', r) -> R w w'.
Hypothesis mint_keeps : forall n w w' r, MintRewards n w = (w', r) -> R w w'.
Hypothesis governance_keeps : forall n w w' r, SendCoinsToGovernance n w = (w', r) -> R w w'.
Hypothesis vest_keeps : forall a n e w w' r, VestRewards a n e w = (w', r) -> R w w'.
Hypothesis status_keeps : forall p, keeps ch_World R (UpdateParticipantStatus p).

Lemma keeps_on_chain {A} (m : GoM (Chain W) string A) : keeps ch_World R m -> keeps_treasury (on_chain m).
Proof. intros Hm l l' r. unfold on_chain. destruct (m (tr_Chain l)) as [c r'] eqn:Hc. intros [= <- _]. by eapply Hm. Qed.
Lemma keeps_on_module {A} (f : W -> W * outcome string A) : (forall w w' r, f w = (w', r) -> R w w') -> keeps_treasury (on_module f).
Proof. intros Hf. by apply keeps_on_chain, keeps_on_world. Qed.
Lemma keeps_ignore {A} (m : GoM (Treasury W) fault A) : keeps_treasury m -> keeps_treasury (ignore_error m).
Proof. intros Hm l l' r. unfold ignore_error. destruct (m l) as [l1 [x|[e|]]] eqn:Hl; intros [= <- _]; by eapply Hm. Qed.
Lemma keeps_answering {A} (m : GoM (Treasury W) fault A) f : keeps_treasury m -> keeps_treasury (answering m f).
Proof. intros Hm l l' r. unfold answering. destruct (m l) as [l1 [x|[e|]]] eqn:Hl; intros [= <- _]; by eapply Hm. Qed.
Lemma keeps_refuse {A} result : keeps_treasury (refuse result : GoM (Treasury W) refusal A).
Proof. by apply keeps_pure. Qed.

Ltac treasury_step :=
  first [ apply keeps_on_module; intros ? ? ?; first [apply out_keeps | apply mint_keeps | apply governance_keeps | apply vest_keeps]
        | apply keeps_ignore | apply keeps_answering | apply keeps_refuse | (apply keeps_cached; [exact _|]) | keeps_step ].

Lemma keeps_transfer sa : keeps_treasury (transferUnclaimedSettleAmountToGovernance sa).
Proof. unfold transferUnclaimedSettleAmountToGovernance, get_coins. repeat treasury_step. Qed.
Lemma keeps_settle_epoch e inputs use rs b : keeps_treasury (settle_epoch e inputs use rs b).
Proof.
  unfold settle_epoch, MintRewardCoins, AddTokenomicsData, settle_participant, SetEpochPerformanceSummary, write_settle,
    SetSettleAmountWithGovernanceTransfer, SetSettleAmount, get_coins.
  repeat (apply keeps_transfer || (apply keeps_on_chain, keeps_set_participant; [exact _|exact status_keeps]) || treasury_step).
Qed.
Lemma keeps_settle_accounts e prev : keeps_treasury (SettleAccounts e prev).
Proof.
  unfold SettleAccounts, TransferOldSettleAmountsToGovernance, transfer_old, RemoveSettleAmount.
  repeat (apply keeps_settle_epoch || apply keeps_transfer || treasury_step).
Qed.

Lemma keeps_pay_participant a n v : keeps_treasury (PayParticipantFromModule a n v).
Proof. unfold PayParticipantFromModule, get_coins. repeat treasury_step. Qed.
Lemma keeps_finish params sa : keeps_treasury (finishSettle params sa).
Proof.
  unfold finishSettle, RemoveSettleAmount, SetEpochPerformanceSummary, GrantMaintenanceCredit, SetMaintenanceState. repeat treasury_step.
Qed.
Lemma keeps_claim v msg : keeps_treasury (ClaimRewards v msg).
Proof.
  unfold ClaimRewards. repeat keeps_step. intros l l' r.
  match goal with |- match ?m l with _ => _ end = _ -> _ => assert (keeps_treasury m) as Hm; [|destruct (m l) as [l1 [y|[y|]]] eqn:Hl; intros [= <- _]; by eapply Hm] end.
  unfold validateRequest, payoutClaim, SetSettleAmount, AddTokenomicsData.
  repeat (apply keeps_pay_participant || apply keeps_finish || treasury_step). by apply keeps_pure.
Qed.
End Settlements.

(* ------------------------------------------------------------------ *)
(** ** The whole chain *)

(** The accounts of the two modules are different, and only an account's owner takes
    coins from it; whoever can be paid by the bank is no module. *)
Class SeparateAccounts (W : Type) `{!ChainEnv W} `{!CollateralEnv W} `{!RewardBank W} := {
  sep_out : forall a n w w' r, SendCoinsFromModuleToAccount a n w = (w', r) -> CollateralBalance w <= CollateralBalance w';
  sep_in : forall a n w w' r, Payable a -> SendCoinsFromAccountToModule a n w = (w', r) -> CollateralBalance w <= CollateralBalance w';
  sep_mint : forall n w w' r, MintRewards n w = (w', r) -> CollateralBalance w <= CollateralBalance w';
  sep_governance : forall n w w' r, SendCoinsToGovernance n w = (w', r) -> CollateralBalance w <= CollateralBalance w';
  sep_vest : forall a n e w w' r, VestRewards a n e w = (w', r) -> CollateralBalance w <= CollateralBalance w';
  sep_coll_out : forall a x w w' r, coll_SendCoinsFromModuleToAccount a x w = (w', r) -> ModuleBalance w <= ModuleBalance w';
  sep_coll_in : forall a x w w' r, Payable a -> coll_SendCoinsFromAccountToModule a x w = (w', r) -> ModuleBalance w <= ModuleBalance w'
}.

(** The bank and the other modules, seen through the collateral module. *)
Section Through.
Context {W : Type} `{!AccAddressCodec} `{!ChainEnv W} `{!CollateralEnv W}.
Abbreviation CW := (Collateral W).

#[export] Instance collateral_reward_bank `{!RewardBank W} : RewardBank CW := {|
  VestedBalance := fun x => VestedBalance (coll_World x);
  MintRewards := fun n => through (MintRewards n);
  SendCoinsToGovernance := fun n => through (SendCoinsToGovernance n);
  VestRewards := fun a n e => through (VestRewards a n e);
  ErrInsufficientFunds := ErrInsufficientFunds
|}.
#[export] Instance collateral_reward_laws `{!RewardBank W} `{!RewardBankLaws W} : RewardBankLaws CW.
Proof.
  exists (VestingAccount (W := W)); cbn; unfold through.
  - intros n x x' Hn. destruct (MintRewards n (coll_World x)) as [w r] eqn:Hm. intros [= <- ->]. by apply (mint_done n _ w).
  - intros n x Hn. destruct (governance_paid n (coll_World x) Hn) as (w & -> & Hb & Ha). by exists (set_coll_World w x).
  - intros s a n e x x' Ha Hn He. destruct (VestRewards s n e (coll_World x)) as [w r] eqn:Hv. intros [= <- ->]. by apply (vest_done s a n e _ w).
  - intros a n x x'. destruct (SendCoinsFromModuleToAccount a n (coll_World x)) as [w r] eqn:Hs. intros [= <- ->]. by apply (send_vested a n _ w).
Qed.
#[export] Instance collateral_settle_env `{!SettleEnv W} : SettleEnv CW := {|
  SettleParamsOf := fun x => SettleParamsOf (coll_World x);
  BlockHeightOf := fun x => BlockHeightOf (coll_World x);
  ActiveParticipantsOf := fun x => ActiveParticipantsOf (coll_World x);
  GetEpochGroupData := fun x => GetEpochGroupData (coll_World x);
  GetAllEpochGroupData := fun x => GetAllEpochGroupData (coll_World x);
  DelegationSnapshot := fun x => DelegationSnapshot (coll_World x);
  PunishmentGraceEpoch := fun x => PunishmentGraceEpoch (coll_World x);
  GetGenesisOnlyParams := fun x => GetGenesisOnlyParams (coll_World x);
  NormalizeCoin := NormalizeCoin (W := W);
  MaintenanceReservations := fun x => MaintenanceReservations (coll_World x);
  EpochStart := fun x => EpochStart (coll_World x)
|}.
End Through.

Section Whole.
Context {W : Type} `{!AccAddressCodec} `{!AccAddressLaws} `{!ChainEnv W} `{!ChainEnvLaws W} `{!CollateralEnv W} `{!CollateralEnvLaws W}.
Context `{!CollateralParamsEnv W} `{!DecimalLib} `{!DecimalLaws} `{!StatusEnv W} `{!StatusEnvLaws W} `{!CoinLib} `{!CoinLaws}.
Context `{!LegacyDecLib} `{!LegacyDecLaws} `{!LegacyDecParse} `{!CollateralFrameLaws W} `{!RewardBank W} `{!RewardBankLaws W} `{!SettleEnv W}.
Context `{!SeparateAccounts W} `{!ChainCodec} `{!Secp256k1}.
Abbreviation CW := (Collateral W).
Abbreviation Books := (Treasury (Collateral W) * Z)%type.
Implicit Types (l : Treasury CW) (s : Books).

(** A user: an account that is no module's. *)
Definition user (creator : string) : Prop := forall a, AccAddressFromBech32 creator = Some a -> Payable a.

Definition on_coll (x : CW) l : Treasury CW := set_Chain (set_World x (tr_Chain l)) l.

(** The steps of the chain: of the inference module, the creation and settlement of
    escrows, claim recipients, the two pruners and claims ([own_step]) and settlements of
    epochs ([epoch_step]); of the collateral module, its messages, hooks and epochs; the
    staking hook that asks the one for the other; and steps of other parts of the chain,
    that spend only what is theirs: coins which they hold on the account of the inference
    module, and none of the collateral module. *)
Inductive whole_step (SortFunc : list slotRandom -> list slotRandom) : Books -> Books -> Prop :=
| whole_own l l' x : own_step SortFunc user (fun _ => True) l l' -> whole_step SortFunc (l, x) (l', x)
| whole_epoch l l' x : epoch_step l l' -> whole_step SortFunc (l, x) (l', x)
| whole_collateral l x ev : event_ok ev (world l) -> (forall w, ev <> EvOther w) ->
    whole_step SortFunc (l, x) (on_coll (coll_apply ev (world l)) l, x)
| whole_validator_slashed l x a f :
    whole_step SortFunc (l, x) (on_coll (Slash a f "" (Keeper_GetRequiredCollateralForSlash (tr_Chain l) a) (world l)).1 l, x)
| whole_other s s' w : other_move s s' -> world s'.1 = set_coll_World w (world s.1) ->
    CollateralBalance (coll_World (world s.1)) <= CollateralBalance w -> whole_step SortFunc s s'.

(** What a step of one module may do to the account of the other. *)
Definition module_grows (w w' : W) : Prop := ModuleBalance w <= ModuleBalance w'.
#[local] Instance module_grows_preorder : PreOrder module_grows.
Proof. split; intros ?; unfold module_grows; [lia|intros; lia]. Qed.
Definition stays_ok (x x' : CW) : Prop := coll_ok x -> coll_ok x'.
#[local] Instance stays_ok_preorder : PreOrder stays_ok.
Proof. split; intros ?; unfold stays_ok; auto. Qed.

Lemma grown_ok (x : CW) w : CollateralBalance (coll_World x) <= CollateralBalance w -> coll_ok x -> coll_ok (set_coll_World w x).
Proof. intros Hw [Ha Hu Hj Hb Hs]. split; try done. unfold spare, held in *. cbn. lia. Qed.

Lemma through_ok {A} (f : W -> W * outcome string A) : (forall w w' r, f w = (w', r) -> CollateralBalance w <= CollateralBalance w') ->
  forall (x x' : CW) r, through f x = (x', r) -> stays_ok x x'.
Proof. intros Hf x x' r. unfold through. destruct (f (coll_World x)) as [w r'] eqn:Hw. intros [= <- _] Hok. apply grown_ok; [|done]. by eapply Hf. Qed.

Lemma keeps_status p : keeps ch_World stays_ok (Keeper_UpdateParticipantStatus p : GoM (Chain CW) string Participant).
Proof.
  assert (forall fraction reason preserve q why, keeps ch_World stays_ok (punish (slash_for fraction reason) preserve q why)) as Hpun.
  { intros fraction reason preserve q why. unfold punish. keeps_step; [|keeps_step; [|keeps_step; [|by keeps_step]]].
    - intros c c' r [= <- _] Hok. by apply slash_for_ok.
    - apply keeps_modify; [exact _|]. apply recordExclusion_world.
    - apply keeps_on_world, through_ok. intros w w' r (Hb & _)%group_frame. lia. }
  unfold Keeper_UpdateParticipantStatus, invalidateParticipant, deactiveParticipant. repeat (apply Hpun || keeps_step).
Qed.

Lemma out_stays a n (x x' : CW) r : SendCoinsFromModuleToAccount a n x = (x', r) -> stays_ok x x'.
Proof. by apply through_ok, sep_out. Qed.

Lemma inference_keeps_collateral SortFunc (c c' : Chain CW) : module_step SortFunc user c c' -> coll_ok (ch_World c) -> coll_ok (ch_World c').
Proof.
  assert (forall A (m : GoM (Chain CW) string A) c0, keeps ch_World stays_ok m -> coll_ok (ch_World c0) -> coll_ok (ch_World (m c0).1)) as Hkeep.
  { intros A m c0 Hm. destruct (m c0) as [c1 r] eqn:Hc. by apply (Hm c0 c1 r). }
  intros [c1 msg Hu _|c1 msg _ _ _|c1 msg _|c1 cur _ _|c1 cur _ _]; unfold deliver; apply Hkeep.
  - apply keeps_cached; [exact _|]. apply keeps_create; [exact _|]. intros a n w w' r Ha. apply through_ok. intros w0 w1 r0. by apply sep_in, Hu.
  - apply keeps_cached; [exact _|]. apply keeps_settle; [exact _|exact out_stays|exact keeps_status].
  - apply keeps_cached; [exact _|]. apply keeps_claims; exact _.
  - apply keeps_prune_devshard; [exact _|exact out_stays].
  - apply keeps_prune_claims; exact _.
Qed.

Lemma treasury_keeps_collateral SortFunc l l' :
  own_step SortFunc user (fun _ => True) l l' \/ epoch_step l l' -> coll_ok (world l) -> coll_ok (world l').
Proof.
  assert (forall E A (m : GoM (Treasury CW) E A) l0, keeps world stays_ok m -> coll_ok (world l0) -> coll_ok (world (m l0).1)) as Hkeep.
  { intros E A m l0 Hm. destruct (m l0) as [l1 r] eqn:Hl. by apply (Hm l0 l1 r). }
  assert (forall n (x x' : CW) r, MintRewards n x = (x', r) -> stays_ok x x') as Hmint by (intros n; apply through_ok, sep_mint).
  assert (forall n (x x' : CW) r, SendCoinsToGovernance n x = (x', r) -> stays_ok x x') as Hgov by (intros n; apply through_ok, sep_governance).
  assert (forall a n e (x x' : CW) r, VestRewards a n e x = (x', r) -> stays_ok x x') as Hvest by (intros a n e; apply through_ok, sep_vest).
  intros [[l0 c' Hs|l0 v msg _ _]|[l0 e prev inputs bp _ _]].
  - exact (inference_keeps_collateral _ _ _ Hs).
  - apply Hkeep, keeps_cached; [exact _|]. by apply (keeps_claim stays_ok out_stays).
  - apply Hkeep, keeps_settle_accounts; [exact _|exact Hmint|exact Hgov|exact keeps_status].
Qed.

Lemma keeps_on_bank {A} (f : W -> W * outcome string A) : (forall w w' r, f w = (w', r) -> module_grows w w') ->
  keeps coll_World module_grows (on_bank f).
Proof. intros Hf x x' r. unfold on_bank. destruct (f (coll_World x)) as [w r'] eqn:Hw. intros [= <- _]. by eapply Hf. Qed.

Lemma collateral_keeps_module ev (x : CW) : event_ok ev x -> (forall w, ev <> EvOther w) ->
  module_grows (coll_World x) (coll_World (coll_apply ev x)).
Proof.
  assert (forall A (m : GoM CW string A), keeps coll_World module_grows m -> module_grows (coll_World x) (coll_World (m x).1)) as Hkeep.
  { intros A m Hm. destruct (m x) as [x' r] eqn:Hx. by apply (Hm x x' r). }
  assert (forall a f reason required, keeps coll_World module_grows (Slash a f reason required)) as Hslash.
  { intros a f reason required. apply keeps_slash; [exact _|]. intros y w w' r (n & _ & Hm & _)%gov_frame. unfold module_grows. lia. }
  intros Hev Hne. destruct ev as [msg|msg|e|a f reason required|a|a|a f|authority req|w]; cbn [coll_apply]; try apply Hkeep.
  - apply keeps_cached; [exact _|]. destruct Hev as (_ & Hpay & _). unfold DepositCollateral, SetCollateral.
    repeat keeps_step. apply keeps_on_bank. intros w w' r. by eapply sep_coll_in, Hpay.
  - apply keeps_cached; [exact _|].
    unfold WithdrawCollateral, AddUnbondingCollateral, setUnbondingCollateralEntry, RemoveCollateral, SetCollateral. repeat keeps_step.
  - unfold AdvanceEpoch, ProcessUnbondingQueue, pay_unbonded, RemoveUnbondingByEpoch.
    repeat (apply keeps_on_bank, sep_coll_out || keeps_step).
  - apply Hslash.
  - unfold AfterValidatorBonded, RemoveJailed. keeps_step.
  - unfold AfterValidatorBeginUnbonding, SetJailed. repeat keeps_step.
  - unfold BeforeValidatorSlashed. repeat (apply Hslash || keeps_step).
  - apply keeps_cached; [exact _|]. unfold UpdateParams. repeat keeps_step.
  - by destruct (Hne w).
Qed.

(** Both books in order. *)
Definition whole_inv s : Prop := treasury_inv s /\ coll_ok (world s.1).

Lemma event_inv l x ev : whole_inv (l, x) -> event_ok ev (world l) -> (forall w, ev <> EvOther w) ->
  let s' := (on_coll (coll_apply ev (world l)) l, x) in whole_inv s' /\ evolves (tr_Chain l) (tr_Chain s'.1).
Proof.
  intros [HI Hok] Hev Hne s'. pose proof (collateral_keeps_module ev (world l) Hev Hne) as Hgrow. unfold module_grows in Hgrow.
  destruct (move_inv (l, x) s' HI) as [HI' Hevo].
  { destruct HI as ([Hch _ _] & _ & Hx). split; try done; [exact (co_participant _ Hch)|cbn in *; lia|]. unfold holdings, world, owed in *. cbn in *. lia. }
  split; [split; [done|]|done]. by apply apply_evolves.
Qed.

Lemma whole_step_inv SortFunc s s' : sorts_randoms SortFunc -> whole_inv s -> whole_step SortFunc s s' ->
  whole_inv s' /\ evolves (tr_Chain s.1) (tr_Chain s'.1).
Proof.
  intros Hsort HI Hs. destruct Hs as [l l' x Hs|l l' x Hs|l x ev Hev Hne|l x a f|s s' w Hs Hw Hb].
  - destruct HI as [HI Hok]. pose proof HI as (Hto & Hcl & _). destruct (own_inv _ Hsort _ _ _ _ Hto Hcl Hs) as [Hadv _].
    split; [split; [by eapply advances_inv|]|by apply Hadv]. eapply treasury_keeps_collateral; [by left|done].
  - destruct HI as [HI Hok]. pose proof HI as (_ & Hcl & _). pose proof (epoch_inv _ _ Hcl Hs) as Hadv.
    split; [split; [by eapply advances_inv|]|by apply Hadv]. eapply (treasury_keeps_collateral SortFunc); [by right|done].
  - by apply event_inv.
  - by apply (event_inv l x (EvSlash a f "" (Keeper_GetRequiredCollateralForSlash (tr_Chain l) a))).
  - destruct HI as [HI Hok]. destruct (move_inv _ _ HI Hs) as [HI' Hevo]. split; [split; [done|]|done]. rewrite Hw. by apply grown_ok.
Qed.

(** C3: The chain stays solvent as a whole.  Take any interleaving of the creation,
    settlement and pruning of escrows, of claim recipients, claims of rewards and
    settlements of epochs (that the chain is ready for and that do not cross the limit of
    the supply), of the messages, hooks and epochs of the collateral module, with
    participants slashed when settlements turn their status bad, and of steps of other
    parts of the chain, which spend no coins but those they hold and pay for the coin
    balances they promise.  The account of the inference module covers the open escrows,
    the coin balances, the unclaimed amounts and what the other parts hold on it, and that
    of the collateral module the active and the unbonding collateral. *)
Theorem whole_chain_solvent SortFunc s s' :
  sorts_randoms SortFunc -> whole_inv s -> rtc (whole_step SortFunc) s s' ->
  locked (tr_Chain s'.1) + owed (tr_Chain s'.1) + unclaimed s'.1 + s'.2 <= ModuleBalance (world s'.1) /\
  held (world s'.1) <= CollateralBalance (coll_World (world s'.1)) /\ whole_inv s' /\ evolves (tr_Chain s.1) (tr_Chain s'.1).
Proof.
  intros Hsort HI Hr. assert (whole_inv s' /\ evolves (tr_Chain s.1) (tr_Chain s'.1)) as [HI' Hev].
  { induction Hr as [s|s s1 s' Hs Hr IH]; [split; [done|by apply evolves_same]|].
    destruct (whole_step_inv _ _ _ Hsort HI Hs) as [HI1 Hev]. destruct (IH HI1) as [HI' Hev']. split; [done|]. by eapply evolves_trans. }
  pose proof (inv_covers _ (proj1 HI')) as Hc. pose proof (ck_backed _ (proj2 HI')) as Hb. unfold holdings, spare in *.
  split; [exact Hc|]. split; [lia|done].
Qed.
End Whole.
