(* ===== verification/Demo.v ===== *)
(** A concrete environment and a concrete session.

    The classes that stand for third-party code are instantiated by small
    executable functions whose laws are proved: a wire format, a curve whose
    signatures carry the key, a comparison of transactions.  On top of them a
    three-host session runs from its first nonce to settlement.  Every theorem
    with hypotheses is applied here to concrete data ([.._witness]), so its
    hypotheses can be met. *)

From Stdlib Require Import Ascii.
From stdpp Require Import pretty.
From S2P Require Import Prelude.
From S2P Require Import GoStd.
From S2P Require Import DevshardTypes.
From S2P Require Import DevshardHash.
From S2P Require Import DevshardMachine.
From S2P Require Import DevshardLedger.
From S2P Require Import DevshardRefine.
From S2P Require Import DevshardInit.
From S2P Require Import DevshardCommit.
From S2P Require Import DevshardSession.
From S2P Require Import DevshardReach.
From S2P Require Import DevshardSealed.
From S2P Require Import DevshardStorage.
From S2P Require Import DevshardSampling.
From S2P Require Import DevshardSettlement.
From S2P Require Import ChainSettlement.

Open Scope Z_scope.
Open Scope go_scope.

(* ------------------------------------------------------------------ *)
(** ** A wire format *)

Fixpoint bytes_string (l : list Z) : string :=
  match l with [] => EmptyString | b :: l' => String (ascii_of_nat (Z.to_nat b)) (bytes_string l') end.

(** A list with its length in front. *)
Definition put_list (l : list Z) : list Z := Z.of_nat (length l) :: l.
Definition take_list (l : list Z) : option (list Z * list Z) :=
  match l with [] => None | n :: rest => Some (take (Z.to_nat n) rest, drop (Z.to_nat n) rest) end.

Definition put_entry (r : InferenceRecordProto) : list Z :=
  [ ip_InferenceId r; ip_Status r; ip_ExecutorSlot r; ip_InputLength r; ip_MaxTokens r; ip_InputTokens r;
    ip_OutputTokens r; ip_ReservedCost r; ip_ActualCost r; ip_StartedAt r; ip_ConfirmedAt r;
    ip_VotesValid r; ip_VotesInvalid r ]
  ++ put_list (ip_PromptHash r) ++ put_list (ip_ResponseHash r) ++ put_list (ip_ValidatedBy r)
  ++ string_bytes (ip_Model r).
Definition take_entry (b : list Z) : option InferenceRecordProto :=
  match b with
  | id :: st :: ex :: il :: mt :: it :: ot :: rc :: ac :: sa :: ca :: vv :: vi :: rest =>
      '(ph, rest) ← take_list rest; '(rh, rest) ← take_list rest; '(vb, rest) ← take_list rest;
      Some (MkInferenceProto id st ex (bytes_string rest) ph rh il mt it ot rc ac sa ca vv vi vb)
  | _ => None
  end.
Definition put_stats (e : HostStatsProto) : list Z :=
  [hp_SlotId e; hp_Missed e; hp_Invalid e; hp_Cost e; hp_RequiredValidations e; hp_CompletedValidations e].

Definition demo_marshal (m : ProtoMsg) : option (list Z) :=
  Some match m with
  | PDiffContent nonce txs eid root => [0; nonce; Z.of_nat (length txs)] ++ put_list root ++ string_bytes eid
  | PExecutorReceipt id ph model il mt sa eid ca => [1; id; il; mt; sa; ca] ++ put_list ph ++ string_bytes eid
  | PTimeoutVote eid id reason accept => [2; id; if accept then 1 else 0] ++ string_bytes eid
  | PFinish m => [3; fi_InferenceId m; fi_InputTokens m; fi_OutputTokens m; fi_ExecutorSlot m]
  | PValidation m => [4; mv_InferenceId m; mv_ValidatorSlot m; if mv_Valid m then 1 else 0]
  | PValidationVote m => [5; vv_InferenceId m; vv_VoterSlot m; if vv_VoteValid m then 1 else 0]
  | PHostStatsMap entries => concat (put_stats <$> entries)
  | PInferenceRecord r => put_entry r
  | PStateSignature root eid nonce => [8; nonce] ++ put_list root ++ string_bytes eid
  end.

#[export] Instance demo_codec : ProtoCodec := {|
  Marshal := demo_marshal;
  UnmarshalInference := take_entry;
  AppendTag := fun f t => [8 * f + t];
  AppendVarint := fun n => [n]
|}.

Lemma bytes_string_of s : bytes_string (string_bytes s) = s.
Proof. induction s as [|a s IH]; [done|]. cbn. by rewrite Nat2Z.id, ascii_nat_embedding, IH. Qed.

Lemma take_put_list l rest : take_list (put_list l ++ rest) = Some (l, rest).
Proof. cbn. by rewrite Nat2Z.id, take_app_length, drop_app_length. Qed.

Lemma take_put_entry r : take_entry (put_entry r) = Some r.
Proof.
  unfold take_entry, put_entry. cbn [app]. change (?n :: ?l ++ ?r) with ((n :: l) ++ r).
  rewrite take_put_list. cbn [mbind option_bind]. rewrite take_put_list. cbn [mbind option_bind].
  rewrite take_put_list. cbn [mbind option_bind]. rewrite bytes_string_of. by destruct r.
Qed.

Lemma put_stats_inj l1 l2 : concat (put_stats <$> l1) = concat (put_stats <$> l2) -> l1 = l2.
Proof.
  revert l2. induction l1 as [|e1 l1 IH]; intros [|e2 l2]; try done.
  cbn. intros Heq. injection Heq as ? ? ? ? ? ? Hl. f_equal; [by destruct e1, e2; cbn in *; subst|by apply IH].
Qed.

#[export] Instance demo_codec_laws : ProtoCodecLaws.
Proof.
  split.
  - intros r b _ [= <-]. apply take_put_entry.
  - intros l1 l2 b _ _ [= <-] [= Heq]. by apply put_stats_inj.
  - intros r r' _ _. by eexists.
  - intros m n x y _ _ [= -> ->]. done.
Qed.

#[export] Instance demo_chain_codec : ChainCodec := {| XXX_Marshal := demo_marshal |}.
#[export] Instance demo_same_bytes : SameBytes.
Proof. by split. Qed.

(* ------------------------------------------------------------------ *)
(** ** A curve whose signatures carry the key *)

#[export] Instance demo_curve : Secp256k1 := {|
  RecoverCompact := fun c hash => Some (drop 1 c);
  EcrecoverCompressed := fun hash sig => Some (take 64 sig);
  Ripemd160 := fun digest => take 20 digest;
  Bech32 := fun addr => "gonka" +:+ pretty (be_value (take 3 addr))
|}.
#[export] Instance demo_curve_laws : Secp256k1Laws.
Proof. split. intros hash r v Hr _. cbn [EcrecoverCompressed RecoverCompact demo_curve drop]. f_equal. by rewrite <- Hr, take_app_length. Qed.

(** The session's own verifier is simpler still: a signature is the signer's name. *)
#[export] Instance demo_verifier : SigVerifier := {| RecoverAddress := fun _ sig => Some (bytes_string sig) |}.

(* ------------------------------------------------------------------ *)
(** ** Comparison of transactions *)

#[export] Instance TimeoutReason_eq_dec : EqDecision TimeoutReason.
Proof. solve_decision. Defined.
#[export] Instance MsgStartInference_eq_dec : EqDecision MsgStartInference.
Proof. solve_decision. Defined.
#[export] Instance MsgConfirmStart_eq_dec : EqDecision MsgConfirmStart.
Proof. solve_decision. Defined.
#[export] Instance MsgFinishInference_eq_dec : EqDecision MsgFinishInference.
Proof. solve_decision. Defined.
#[export] Instance TimeoutVote_eq_dec : EqDecision TimeoutVote.
Proof. solve_decision. Defined.
#[export] Instance MsgTimeoutInference_eq_dec : EqDecision MsgTimeoutInference.
Proof. solve_decision. Defined.
#[export] Instance MsgValidation_eq_dec : EqDecision MsgValidation.
Proof. solve_decision. Defined.
#[export] Instance MsgValidationVote_eq_dec : EqDecision MsgValidationVote.
Proof. solve_decision. Defined.
#[export] Instance MsgRevealSeed_eq_dec : EqDecision MsgRevealSeed.
Proof. solve_decision. Defined.
#[export] Instance DevshardTx_eq_dec : EqDecision DevshardTx.
Proof. solve_decision. Defined.

#[export] Instance demo_proto_equal : ProtoEqual := {| proto_equal := fun a b => bool_decide (a = b) |}.
#[export] Instance demo_proto_equal_laws : ProtoEqualLaws.
Proof. split. intros a b. apply bool_decide_eq_true. Qed.

(* ------------------------------------------------------------------ *)
(** ** A session of three hosts *)

Definition key (i : Z) : list Z := replicate 64 i.
(** The address of key [i] under [demo_curve] (see [demo_addresses]). *)
Definition address (i : Z) : string :=
  if i =? 0 then "gonka16098813" else if i =? 1 then "gonka8161653"
  else if i =? 2 then "gonka16268083" else "gonka-user".
(** A signature by [i] for the session's verifier, and for the chain. *)
Definition sign (i : Z) : list Z := string_bytes (address i).
Definition chain_sign (i : Z) : list Z := key i ++ [0].

Definition demo_group : list SlotAssignment :=
  [MkSlot 0 (address 0); MkSlot 1 (address 1); MkSlot 2 (address 2)].
Definition demo_config : SessionConfig := MkConfig 60 1920 1 10 1 1 5000 0 0 0.

(** The store knows the session. *)
Definition demo_store : Memory :=
  (CreateSession (MkParams "7" 3 "v1" (address 9) demo_config demo_group 1000) NewMemory).1.

Definition demo_start : outcome DevshardError (StateMachine Memory) :=
  NewStateMachine "v1" "7" demo_config demo_group 1000 (address 9) (Some demo_store) [].
Definition empty_machine : StateMachine Memory :=
  MkSM (MkEscrowState "" "" demo_config [] 0 0 PhaseActive 0 ∅ ∅ ∅ 0 []) "" ∅ ∅ NewMemory ∅ ∅ ∅ 0 None None.
Definition S0 : StateMachine Memory :=
  match demo_start with Ok sm => sm | Err _ => empty_machine end.

(** Start, confirm and finish inference 1 on host 1; then finalize. *)
Definition D1 : Diff := MkDiff 1 [StartInference (MkStart 1 [1; 2] "m" 10 20 1000)] (sign 9) [].
Definition D2 : Diff := MkDiff 2 [ConfirmStart (MkConfirm 1 (sign 1) 1001)] (sign 9) [].
Definition D3 : Diff := MkDiff 3 [FinishInference (MkFinish 1 [3; 4] 10 15 1 (sign 1) "7")] (sign 9) [].
Definition D4 : Diff := MkDiff 4 [FinalizeRound] (sign 9) [].
Definition D5 : Diff := MkDiff 5 [] (sign 9) [].
Definition D6 : Diff := MkDiff 6 [] (sign 9) [].
Definition D7 : Diff := MkDiff 7 [] (sign 9) [].
Definition S1 : StateMachine Memory := (ApplyDiff D1 S0).1.
Definition S2 : StateMachine Memory := (ApplyDiff D2 S1).1.
Definition S3 : StateMachine Memory := (ApplyDiff D3 S2).1.
Definition S4 : StateMachine Memory := (ApplyDiff D4 S3).1.
Definition S5 : StateMachine Memory := (ApplyDiff D5 S4).1.
Definition S6 : StateMachine Memory := (ApplyDiff D6 S5).1.
Definition S7 : StateMachine Memory := (ApplyDiff D7 S6).1.

Lemma demo_addresses :
  addressFromCompressed (key 0) = address 0 /\ addressFromCompressed (key 1) = address 1 /\
  addressFromCompressed (key 2) = address 2.
Proof. vm_compute. repeat split. Qed.

Lemma reach_apply amount (sm : StateMachine Memory) d :
  reachable amount sm -> LatestNonce (state sm) + 1 < 2 ^ 32 -> Forall tx_sized (d_Txs d) ->
  reachable amount (ApplyDiff d sm).1.
Proof. intros Hr Hn Hs. eapply R_step; [done|done|by constructor]. Qed.

Ltac reach H := apply reach_apply; [exact H | vm_compute; reflexivity |
  repeat constructor; unfold is_u64; cbn; lia].

Lemma S0_reachable : reachable 1000 S0.
Proof.
  apply (R_new 1000 "v1" "7" demo_config demo_group (address 9) (Some demo_store) [] S0);
    [reflexivity | by unfold is_u64 | repeat split; cbn; lia | constructor | reflexivity].
Qed.
Lemma S1_reachable : reachable 1000 S1.
Proof. reach S0_reachable. Qed.
Lemma S2_reachable : reachable 1000 S2.
Proof. reach S1_reachable. Qed.
Lemma S3_reachable : reachable 1000 S3.
Proof. reach S2_reachable. Qed.
Lemma S4_reachable : reachable 1000 S4.
Proof. reach S3_reachable. Qed.
Lemma S5_reachable : reachable 1000 S5.
Proof. reach S4_reachable. Qed.
Lemma S6_reachable : reachable 1000 S6.
Proof. reach S5_reachable. Qed.
Lemma S7_reachable : reachable 1000 S7.
Proof. reach S6_reachable. Qed.

Lemma later_apply (sm sm' : StateMachine Memory) d :
  later sm sm' -> LatestNonce (state sm') + 1 < 2 ^ 32 -> Forall tx_sized (d_Txs d) -> later sm (ApplyDiff d sm').1.
Proof. intros Hl Hn Hs. eapply rtc_r; [done|]. split; [done|by constructor]. Qed.

Ltac go_on := apply later_apply; [| vm_compute; reflexivity | repeat constructor; unfold is_u64; cbn; lia].

(* ------------------------------------------------------------------ *)
(** ** Witnesses: the session *)

Lemma session_conservation_witness :
  Balance (state S2) + Fees (state S2) + reserved_total S2 + earned_total S2 = 1000 /\ reserved_total S2 = 30.
Proof. split; [apply (session_conservation 1000 S2 S2_reachable) | vm_compute; reflexivity]. Defined.

Lemma settlement_accounts_witness :
  Phase (state S7) = PhaseSettlement /\ Balance (state S7) + Fees (state S7) + earned_total S7 = 1000.
Proof.
  assert (Phase (state S7) = PhaseSettlement) as Hp by (vm_compute; reflexivity).
  split; [exact Hp | apply (settlement_accounts 1000 S7 S7_reachable Hp)].
Defined.

Lemma diff_refines_ledger_witness :
  match ApplyDiff D3 S2 with
  | (sm', Ok root) => LatestNonce (state sm') = 3 /\ rtc (lstep 3 (slot_of S2)) (abs S2) (abs sm')
  | (_, Err _) => False
  end.
Proof.
  assert (LatestNonce (state S2) + 1 < 2 ^ 32) as Hn by (vm_compute; reflexivity).
  assert (Forall tx_sized (d_Txs D3)) as Hs by (repeat constructor; unfold is_u64; cbn; lia).
  assert (match (ApplyDiff D3 S2).2 with Ok _ => true | Err _ => false end = true) as Hok by (vm_compute; reflexivity).
  pose proof (diff_refines_ledger 1000 S2 D3 S2_reachable Hn Hs) as H.
  destruct (ApplyDiff D3 S2) as [sm' [root|e]]; [|discriminate Hok].
  destruct H as (_ & Hl & Hr & _). split; [exact Hl | exact Hr].
Defined.

Lemma inference_lifecycle_witness :
  exists r, Inferences (state S1) !! 1 = Some r /\
  (is_Some (sealedNonces S3 !! 1) \/
   exists r', Inferences (state S3) !! 1 = Some r' /\ rtc status_edge (Status r) (Status r') /\
              ExecutorSlot r' = ExecutorSlot r /\ ReservedCost r' = ReservedCost r).
Proof.
  eexists. split; [vm_compute; reflexivity|]. eapply (inference_lifecycle 1000 S1 S3 1).
  - exact S1_reachable.
  - do 2 go_on. apply rtc_refl.
  - vm_compute; reflexivity.
Defined.



(** Slot 0 challenges the result of inference 1. *)
Definition C4 : Diff := MkDiff 4 [Validation (MkValidation 1 0 false (sign 0) "7")] (sign 9) [].
Definition S4' : StateMachine Memory := (ApplyDiff C4 S3).1.
Definition C5 : Diff := MkDiff 5 [ValidationVote (MkVote 1 2 false (sign 2) "7")] (sign 9) [].
Definition S5' : StateMachine Memory := (ApplyDiff C5 S4').1.

Lemma S5'_reachable : reachable 1000 S5'.
Proof. assert (reachable 1000 S4') as Hr by (reach S3_reachable). reach Hr. Qed.

Lemma vote_tallies_bounded_witness :
  exists r, Inferences (state S5') !! 1 = Some r /\ VotesInvalid r = 2 /\ VotesValid r + VotesInvalid r <= nslots S5'.
Proof.
  eexists. split; [vm_compute; reflexivity|]. split; [reflexivity|].
  eapply (vote_tallies_bounded 1000 S5' 1); [exact S5'_reachable | vm_compute; reflexivity].
Defined.

Lemma host_counters_bounded_witness :
  exists h, HostStatsMap (state S5') !! 1 = Some h /\ Invalid h = 1 /\ Missed h + Invalid h <= LatestNonce (state S5').
Proof.
  eexists. split; [vm_compute; reflexivity|]. split; [reflexivity|].
  eapply (host_counters_bounded 1000 S5' 1); [exact S5'_reachable | vm_compute; reflexivity].
Defined.

Lemma finalization_deadline_witness :
  match Phase (state S4) with
  | PhaseFinalizing => LatestNonce (state S4) < FinalizeNonce (state S4) + nslots S4
  | _ => False
  end.
Proof.
  pose proof (finalization_deadline 1000 S4 S4_reachable) as H.
  assert (Phase (state S4) = PhaseFinalizing) as Hp by (vm_compute; reflexivity). rewrite Hp in *. apply H.
Defined.

Lemma quorum_intersection_witness : QuorumThreshold S0 = 3 /\ 3 * (2 * QuorumThreshold S0 - nslots S0) > nslots S0.
Proof. split; [vm_compute; reflexivity | apply (quorum_intersection 1000 S0 S0_reachable)]. Defined.

(* ------------------------------------------------------------------ *)
(** ** Witnesses: rollback, trial and commit *)

(** A diff that finishes an inference that was never started is rejected. *)
Definition Bad : Diff := MkDiff 1 [ConfirmStart (MkConfirm 1 (sign 1) 1001)] (sign 9) [].

Lemma rejected_diff_rolled_back_witness :
  (ApplyDiff Bad S0).2 = Err ErrInferenceNotFound /\ obs_only S0 (ApplyDiff Bad S0).1.
Proof.
  assert ((ApplyDiff Bad S0).2 = Err ErrInferenceNotFound) as He by (vm_compute; reflexivity). split; [exact He|].
  apply (proj1 (rejected_diff_rolled_back S0) Bad _ ErrInferenceNotFound); [|discriminate].
  rewrite <- He. apply surjective_pairing.
Defined.

Lemma trial_apply_changes_nothing_witness : (ValidateDiff Bad S0).1 = S0.
Proof.
  apply (proj1 (proj2 (trial_apply_changes_nothing S0 eq_refl)) Bad _ ErrInferenceNotFound); [|discriminate].
  assert ((ValidateDiff Bad S0).2 = Err ErrInferenceNotFound) as <- by (vm_compute; reflexivity). apply surjective_pairing.
Defined.

Lemma commit_validated_is_apply_witness :
  exists root vd, ApplyDiff D1 S0 = (S1, Ok root) /\ ValidateDiff D1 S0 = (S0, Ok vd) /\
                  vd_Root vd = root /\ CommitValidated vd S0 = (S1, true).
Proof.
  assert (exists root, (ApplyDiff D1 S0).2 = Ok root) as [root Hr].
  { assert (match (ApplyDiff D1 S0).2 with Ok _ => true | Err _ => false end = true) as H by (vm_compute; reflexivity).
    destruct (ApplyDiff D1 S0).2 as [root|]; [by exists root|discriminate H]. }
  assert (ApplyDiff D1 S0 = (S1, Ok root)) as Ha by (rewrite <- Hr; apply surjective_pairing).
  destruct (commit_validated_is_apply S0 D1 S1 root eq_refl Ha) as (vd & H1 & H2 & _ & H3).
  exists root, vd. split; [exact Ha|]. split; [exact H1|]. split; [exact H2 | exact H3].
Defined.

(** The preview skips the transaction that cannot be applied. *)
Lemma commit_preview_is_apply_witness :
  exists root vd, (ApplyLocalBestEffort 1 (d_Txs Bad ++ d_Txs D1) S0).2 = Ok (root, d_Txs D1) /\
    PreviewLocalBestEffort 1 (d_Txs Bad ++ d_Txs D1) S0 = (S0, Ok vd) /\ vd_Applied vd = d_Txs D1.
Proof.
  assert (exists root, (ApplyLocalBestEffort 1 (d_Txs Bad ++ d_Txs D1) S0).2 = Ok (root, d_Txs D1)) as [root Hr].
  { assert (match (ApplyLocalBestEffort 1 (d_Txs Bad ++ d_Txs D1) S0).2 with Ok p => p.2 | Err _ => [] end = d_Txs D1) as H by (vm_compute; reflexivity).
    destruct (ApplyLocalBestEffort 1 (d_Txs Bad ++ d_Txs D1) S0).2 as [[root a]|]; [|discriminate H]. cbn in H. subst. by exists root. }
  destruct (commit_preview_is_apply S0 1 (d_Txs Bad ++ d_Txs D1) (ApplyLocalBestEffort 1 (d_Txs Bad ++ d_Txs D1) S0).1 root (d_Txs D1))
    as (vd & H1 & H2 & H3 & _); [reflexivity | rewrite <- Hr; apply surjective_pairing |].
  exists root, vd. split; [exact Hr|]. split; [exact H1 | exact H3].
Defined.

(* ------------------------------------------------------------------ *)
(** ** Witnesses: the store *)

Definition R1 : DiffRecord := MkDiffRecord D1 [5; 6] {[0 := sign 0]} ∅ 100.
Definition R1' : DiffRecord := MkDiffRecord D1 [5; 7] ∅ ∅ 100.
Definition M1 : Memory := (AppendDiff "7" R1 demo_store).1.

Lemma demo_store_reached : rtc mem_step NewMemory demo_store.
Proof. apply rtc_once, M_create. Qed.

Lemma append_then_read_witness :
  exists d, GetDiffs "7" 1 1 M1 = Ok [d] /\ dr_StateHash d = [5; 6].
Proof.
  destruct (append_then_read "7" R1 demo_store M1 demo_store_reached) as [(d & H1 & _ & H2 & _) _]; [vm_compute; reflexivity|].
  exists d. split; [exact H1 | exact H2].
Defined.

Lemma fork_refused_witness : AppendDiff "7" R1' M1 = (M1, Err ErrDiffFork).
Proof.
  apply (fork_refused "7" R1 R1' demo_store M1 demo_store_reached);
    [vm_compute; reflexivity | reflexivity | intros k v H; discriminate H | intros k v H; discriminate H |].
  right; left. discriminate.
Defined.

Definition M2 : Memory := (RecordValidationsAppliedOnce "7" [MkObsEntry 1 0; MkObsEntry 1 2] demo_store).1.

Lemma drain_preserves_observability_witness :
  GetValidationObservability "7" M2 = Ok [MkObs 0 1 1; MkObs 2 1 1] /\
  GetValidationObservability "7" (mem_DrainInferenceValidationObs "7" 1 M2).1 = GetValidationObservability "7" M2.
Proof.
  split; [vm_compute; reflexivity|]. apply (drain_preserves_observability "7" 1 M2).
  eapply rtc_r; [exact demo_store_reached | apply M_record].
Defined.

Definition L1 : Memory := (Acquire 50 "7" 1 3 "host-a" NewMemory).1.
Definition L2 : Memory := (SetResult "7" 1 LeaseStatusSubmitted "host-a" L1).1.

Lemma lease_exclusive_witness :
  (SetResult "7" 1 LeaseStatusSubmitted "host-b" L1).2 = Ok tt <-> "host-b" = "host-a".
Proof. apply (lease_exclusive 50 "7" 1 3 "host-a" NewMemory L1). vm_compute; reflexivity. Defined.

Lemma stale_takeover_witness :
  let m' := (AcquireOneStale 100 20 (map_to_list (escrow_leases "7" L1)) "7" "host-b" L1).1 in
  (SetResult "7" 1 LeaseStatusSubmitted "host-b" m').2 = Ok tt.
Proof.
  cbv zeta. destruct (stale_takeover 100 20 (map_to_list (escrow_leases "7" L1)) "7" "host-b" L1
    (AcquireOneStale 100 20 (map_to_list (escrow_leases "7" L1)) "7" "host-b" L1).1 1 3) as [[_ H]|(l & _ & _ & _ & H)];
    [reflexivity | vm_compute; reflexivity | discriminate H | by apply H].
Defined.

Lemma lease_completed_once_witness : (SetResult "7" 1 LeaseStatusSkipped "host-a" L2).2 = Err ErrLeaseNotOwned.
Proof.
  apply (lease_completed_once "7" 1 LeaseStatusSubmitted "host-a" L1 L2); [discriminate | vm_compute; reflexivity].
Defined.

Lemma rebuild_from_journal_witness :
  exists s, RebuildValidationObsFromDiffs "7" [R1] [1] M2 = (with_obs "7" s (rebuilt_obs [R1] [1]) M2, Ok tt).
Proof.
  eexists. apply (rebuild_from_journal "7" [R1] [1] M2). vm_compute; reflexivity.
Defined.

(* ------------------------------------------------------------------ *)
(** ** Witnesses: sampling *)

Lemma seed_positive_witness : DeriveSeed (replicate 8 0) = Ok 1 /\ 0 < 1 <= MaxInt64.
Proof.
  split; [vm_compute; reflexivity|].
  pose proof (seed_positive (replicate 8 0)) as H.
  assert (DeriveSeed (replicate 8 0) = Ok 1) as He by (vm_compute; reflexivity). rewrite He in H.
  apply H. apply Forall_replicate. unfold is_u8. lia.
Defined.

Lemma sampling_exact_witness :
  exists b, ShouldValidate 5 17 1 1 3 5000 = Some b /\
    (b = true <-> 1 < 3 /\ (Z.shiftr (deterministicHash 5 17) 32 + 1) * (10000 * (3 - 1)) <= 5000 * 1 * 2 ^ 32).
Proof. apply (sampling_exact 5 17 1 1 3 5000); unfold is_u32; lia. Defined.

Lemma penalty_rounds_up_witness :
  exists p, penalizePerInferenceScaled32 5000 1 2 = Some p /\
    4 * p <= 2 ^ 32 * uint32CeilScaledSum32 (4 * p) < 4 * p + 2 ^ 32.
Proof.
  destruct (penalty_rounds_up 5000 1 2 4) as (p & H1 & _ & _ & H2); try (unfold is_u32; lia).
  exists p. split; [exact H1 | exact H2].
Defined.

(* ------------------------------------------------------------------ *)
(** ** Witnesses: settlement *)

Definition session_sigs : gmap Z (list Z) := {[0 := sign 0; 1 := sign 1; 2 := sign 2]}.
Definition chain_sigs : gmap Z (list Z) := {[0 := chain_sign 0; 1 := chain_sign 1; 2 := chain_sign 2]}.

Definition no_payload : SettlementPayload := MkPayload "" "" 0 0 [] ∅ ∅.
Definition payload_for (escrow : string) (sigs : gmap Z (list Z)) (nonce : Z) : SettlementPayload :=
  match BuildSettlement escrow (state S7) sigs nonce with Ok p => p | Err _ => no_payload end.
Definition payload_with (sigs : gmap Z (list Z)) : SettlementPayload := payload_for "7" sigs 7.
Definition root_of (sm : StateMachine Memory) : list Z :=
  match computeStateRootLocked (state sm) with Ok r => r | Err _ => [] end.

Lemma payload_made escrow sigs nonce : BuildSettlement escrow (state S7) sigs nonce = Ok (payload_for escrow sigs nonce).
Proof.
  unfold payload_for, BuildSettlement, ComputeRestHashV2, ComputeInferencesHashV2, computeInferencesHash.
  assert (Inferences (state S7) = ∅) as -> by (vm_compute; reflexivity). reflexivity.
Qed.

Lemma payload_built sigs : BuildSettlement "7" (state S7) sigs 7 = Ok (payload_with sigs).
Proof. apply payload_made. Qed.

Lemma root_computed : computeStateRootLocked (state S7) = Ok (root_of S7).
Proof.
  unfold root_of, computeStateRootLocked, ComputeRestHashV2, ComputeInferencesHashV2, computeInferencesHash.
  assert (Inferences (state S7) = ∅) as -> by (vm_compute; reflexivity). reflexivity.
Qed.

Lemma payload_root_computed sigs : payload_root (payload_with sigs) = Ok (root_of S7).
Proof.
  pose proof (payload_built sigs) as Hb. pose proof root_computed as Hr.
  destruct (BuildSettlement_fields _ _ _ _ _ Hb) as (Hrest & Hv & _ & Hf & Hs & _).
  unfold computeStateRootLocked in Hr. unfold payload_root. rewrite Hs, Hv, Hf.
  destruct (computeHostStatsHash _); [|discriminate Hr]. rewrite Hrest in Hr. cbn [obind] in *. rewrite <- Hr.
  assert (Phase (state S7) = PhaseSettlement) as -> by (vm_compute; reflexivity). reflexivity.
Qed.

(** The session's payload verifies, by evaluation. *)
Lemma session_verified :
  VerifySettlement (payload_with session_sigs) (map_to_list session_sigs) demo_group None = Ok (root_of S7).
Proof. vm_compute. reflexivity. Qed.

Lemma verified_iff_witness :
  2 * 3 / 3 + 1 <= slots_of demo_group (signers demo_group (map_to_list (sp_Signatures (payload_with session_sigs)))).
Proof.
  destruct (proj1 (verified_iff (payload_with session_sigs) (map_to_list session_sigs) demo_group None (root_of S7)
    ltac:(reflexivity) ltac:(vm_compute; reflexivity)) session_verified) as (_ & _ & sigData & _ & _ & Hq).
  exact Hq.
Defined.

Lemma verified_payload_of_session_witness : computeStateRootLocked (state S7) = Ok (root_of S7).
Proof.
  assert (Phase (state S7) = PhaseSettlement) as Hp by (vm_compute; reflexivity).
  pose proof (verified_payload_of_session 1000 S7 "7" session_sigs 7 (payload_with session_sigs) (map_to_list session_sigs) None (root_of S7)
    S7_reachable (payload_built session_sigs)) as H. rewrite Hp in H. apply H.
  assert (Group (state S7) = demo_group) as -> by (vm_compute; reflexivity). exact session_verified.
Defined.

Lemma payload_sized escrow sigs nonce :
  stats_wf (sp_HostStats (payload_for escrow sigs nonce)) /\ is_u64 (sp_Fees (payload_for escrow sigs nonce)).
Proof.
  destruct (BuildSettlement_fields _ _ _ _ _ (payload_made escrow sigs nonce)) as (_ & _ & _ & Hf & Hs & _). rewrite Hf, Hs.
  assert (Fees (state S7) = 13) as -> by (vm_compute; reflexivity). clear. split; [|by unfold is_u64].
  unfold stats_wf. assert (stats_entries (HostStatsMap (state S7)) =
    [MkHostStatsProto 0 0 0 0 0 0; MkHostStatsProto 1 0 0 25 0 0; MkHostStatsProto 2 0 0 0 0 0]) as -> by (vm_compute; reflexivity).
  repeat constructor; cbn; lia.
Qed.

(** The session under another id and nonce verifies to the same root: neither is in it. *)
Definition other_payload : SettlementPayload := payload_for "8" session_sigs 9.
Lemma other_verified : VerifySettlement other_payload (map_to_list session_sigs) demo_group None = Ok (root_of S7).
Proof. vm_compute. reflexivity. Qed.

Lemma verified_root_binds_witness :
  let p1 := payload_with session_sigs in
  sp_EscrowID p1 = "7" /\ sp_EscrowID other_payload = "8" /\
  (sp_HostStats p1 = sp_HostStats other_payload \/ exists x y, sha_collision x y).
Proof.
  cbv zeta. destruct (BuildSettlement_fields _ _ _ _ _ (payload_built session_sigs)) as (_ & _ & _ & _ & _ & _ & ->).
  destruct (BuildSettlement_fields _ _ _ _ _ (payload_made "8" session_sigs 9)) as (_ & _ & _ & _ & _ & _ & He). unfold other_payload. rewrite He.
  split; [reflexivity|]. split; [reflexivity|]. destruct (payload_sized "7" session_sigs 7) as [Hw1 Hf1]. destruct (payload_sized "8" session_sigs 9) as [Hw2 Hf2].
  destruct (verified_root_binds (payload_with session_sigs) (map_to_list session_sigs) demo_group None
    (payload_for "8" session_sigs 9) (map_to_list session_sigs) demo_group None (root_of S7) Hw1 Hw2 Hf1 Hf2 session_verified other_verified)
    as [[H _]|[(h1 & h2 & _ & _ & H)|[(b1 & b2 & _ & _ & H)|H]]]; [left; exact H | right; eauto ..].
Defined.

(* ------------------------------------------------------------------ *)
(** ** Witnesses: the chain *)

Lemma work_bound_exact_witness :
  devshardAssignedUpperBoundForSlot 7 3 1 = Ok 3 /\ 3 = Z.of_nat (length (filter (fun id => id mod 3 = 1) (seqZ 1 7))).
Proof.
  split; [vm_compute; reflexivity|].
  pose proof (work_bound_exact 7 3 1 ltac:(unfold is_u64; lia) ltac:(lia) ltac:(lia)) as H.
  assert (devshardAssignedUpperBoundForSlot 7 3 1 = Ok 3) as He by (vm_compute; reflexivity). rewrite He in H. apply H.
Defined.

Definition demo_params : DevshardEscrowParams :=
  MkEscrowParams 100 10000 100 3 [] 1 [Some "v1"] 20000 0 0 10 1 5000 50 0.
Definition demo_escrow : DevshardEscrow :=
  MkEscrow 7 (address 9) 1000 [address 0; address 1; address 2] 3 "" false 1 "m" 10 1 20 3600 150 5000 0.
Definition demo_msg : MsgSettleDevshardEscrow :=
  let p := payload_with chain_sigs in
  MkMsgSettle (address 9) 7 (root_of S7) (sp_Nonce p) (sp_RestHash p)
    (stats_of_host <$> map_to_list (sp_HostStats p)) (signature_of <$> map_to_list (sp_Signatures p))
    (sp_Version p) (sp_Fees p).
(** The file between the session and the chain. *)
Definition demo_file : SettlementJSON :=
  let p := payload_with chain_sigs in
  MkSettlementJSON "7" (sp_Version p) (EncodeToString (root_of S7)) (sp_Nonce p) (sp_Fees p) (EncodeToString (sp_RestHash p))
    (hostStatsJSONFromDomain <$> map_to_list (sp_HostStats p))
    ((fun e => MkSlotSignatureJSON e.1 (EncodeToString e.2)) <$> map_to_list (sp_Signatures p)).
Definition demo_sig_data : list Z := [8; 7] ++ put_list (root_of S7) ++ string_bytes "7".

Lemma demo_recover data i :
  Secp256k1Verifier_RecoverAddress data (chain_sign i) = Some (addressFromCompressed (key i)).
Proof.
  unfold Secp256k1Verifier_RecoverAddress, chain_sign. rewrite length_app. unfold key at 1. rewrite length_replicate.
  change (64 + length [0])%nat with 65%nat. rewrite Nat.eqb_refl. cbn [negb EcrecoverCompressed demo_curve].
  rewrite (take_app_length' (key i) [0] 64) by (by unfold key; rewrite length_replicate). done.
Qed.

Lemma demo_owners_signed : owners_signed S7 demo_sig_data chain_sigs.
Proof.
  destruct demo_addresses as (H0 & H1 & H2). intros slot sig Hs. unfold chain_sigs in Hs.
  assert (forall i, 0 <= i < 3 -> slotToAddress S7 !! i = Some (address i)) as Ha.
  { intros i Hi. assert (i = 0 \/ i = 1 \/ i = 2) as [->|[->| ->]] by lia; vm_compute; reflexivity. }
  assert (0 <= slot < 3 /\ sig = chain_sign slot) as [Hb ->].
  { repeat (apply lookup_insert_Some in Hs as [[<- <-]|[_ Hs]]; [split; [lia|done]|]).
    apply lookup_singleton_Some in Hs as [<- <-]. split; [lia|done]. }
  assert (slot = 0 \/ slot = 1 \/ slot = 2) as Hc by lia. split.
  - apply Forall_app_2; [apply Forall_replicate; unfold is_u8; lia|]. by repeat constructor.
  - exists (address slot). split; [by apply Ha|]. rewrite demo_recover. f_equal. by destruct Hc as [->|[->| ->]].
Qed.

Lemma demo_state :
  Phase (state S7) = PhaseSettlement /\ EscrowID (state S7) = "7" /\ LatestNonce (state S7) = 7 /\
  StateRootAndProtocolVersion (state S7) = "v1" /\ QuorumThreshold S7 = 3 /\
  ValidatorAddress <$> Group (state S7) = [address 0; address 1; address 2].
Proof. vm_compute. repeat split. Qed.

Lemma demo_file_written :
  buildSettlementJSON (payload_with chain_sigs) (map_to_list (sp_HostStats (payload_with chain_sigs)))
    (map_to_list (sp_Signatures (payload_with chain_sigs))) = Ok demo_file.
Proof.
  pose proof (payload_root_computed chain_sigs) as Hr. destruct (BuildSettlement_fields _ _ _ _ _ (payload_built chain_sigs)) as (_ & _ & _ & _ & _ & _ & He).
  unfold buildSettlementJSON, demo_file. unfold payload_root in Hr. destruct (computeHostStatsHash _) as [h|]; [|discriminate Hr].
  cbn [obind] in *. apply Ok_inj in Hr. rewrite Hr, He. reflexivity.
Qed.

Lemma demo_hashes : Forall is_u8 (root_of S7) /\ Forall is_u8 (sp_RestHash (payload_with chain_sigs)).
Proof.
  pose proof root_computed as Hr. destruct (BuildSettlement_fields _ _ _ _ _ (payload_built chain_sigs)) as (Hrest & _).
  unfold computeStateRootLocked in Hr. apply obind_Ok in Hr as (h & _ & Hr). apply obind_Ok in Hr as (rest & _ & Hr%Ok_inj).
  unfold ComputeRestHashV2 in Hrest. apply obind_Ok in Hrest as (h' & _ & Hrest%Ok_inj). rewrite <-Hr, <-Hrest. split; apply Sum256_bytes.
Qed.

Lemma demo_file_read : SettleDevshardEscrowCmd (address 9) demo_file = Ok demo_msg.
Proof.
  destruct demo_hashes as [Hroot Hrest]. destruct demo_state as (_ & _ & _ & Hv & _ & _).
  destruct (BuildSettlement_fields _ _ _ _ _ (payload_built chain_sigs)) as (_ & Hver & _ & _ & _ & Hs & _). rewrite Hv in Hver.
  assert (forall slot sig, sp_Signatures (payload_with chain_sigs) !! slot = Some sig -> Forall is_u8 sig) as Hsig.
  { intros slot sig. rewrite Hs. intros Hin. by destruct (demo_owners_signed slot sig Hin). }
  clear Hv Hs. unfold SettleDevshardEscrowCmd, demo_file, demo_msg. revert Hroot Hrest Hver Hsig.
  generalize (payload_with chain_sigs) (root_of S7). intros p root Hroot Hrest Hver Hsig. cbv zeta.
  cbn [sj_EscrowID sj_StateRootAndProtocolVersion sj_StateRoot sj_RestHash sj_HostStats sj_Signatures sj_Nonce sj_Fees].
  rewrite (bool_decide_eq_false_2 (sp_Version p = "")) by (rewrite Hver; discriminate). cbn [negb ocheck obind].
  assert (ParseUint "7" = Some 7) as -> by reflexivity. rewrite !DecodeString_Encode by assumption. rewrite decode_signatures.
  2: { apply Forall_forall. intros [slot sig] Hin%elem_of_map_to_list. exact (Hsig slot sig Hin). }
  cbn [obind app]. rewrite <-list_fmap_compose.
  rewrite (list_fmap_ext (settlement_stats ∘ hostStatsJSONFromDomain) stats_of_host) by (intros _ q _; apply stats_of_json). reflexivity.
Qed.

Lemma demo_settled : settled_session 1000 S7 demo_escrow demo_msg.
Proof.
  destruct demo_state as (Hp & He & Hn & Hv & Hq & Hg). split.
  - exact S7_reachable.
  - exact Hp.
  - exists chain_sigs, (root_of S7), demo_sig_data, (payload_with chain_sigs), (map_to_list (sp_HostStats (payload_with chain_sigs))),
      (map_to_list (sp_Signatures (payload_with chain_sigs))), demo_file. rewrite He, Hn, Hq.
    split; [exact root_computed|]. split; [reflexivity|]. split; [exact demo_owners_signed|]. split; [vm_compute; discriminate|].
    split; [exact (payload_built chain_sigs)|]. split; [reflexivity|]. split; [reflexivity|]. split; [exact demo_file_written|exact demo_file_read].
  - split; [reflexivity|]. split; [reflexivity|]. split; [symmetry; exact Hg|]. rewrite He. clear. unfold is_u64. cbn [de_Id demo_escrow].
    split; [lia|reflexivity].
Qed.

Lemma demo_version : version_allowed demo_params (StateRootAndProtocolVersion (state S7)) /\
  LatestNonce (state S7) <= ep_MaxNonce demo_params.
Proof.
  destruct demo_state as (_ & _ & Hn & Hv & _ & _). unfold version_allowed. rewrite Hn, Hv. split; [|vm_compute; discriminate].
  split; [discriminate|]. split; [vm_compute; discriminate|]. right. left.
Qed.

Lemma session_settlement_accepted_witness :
  ms_EscrowId demo_msg = 7 /\ computeStateRootLocked (state S7) = Ok (ms_StateRoot demo_msg) /\
  VerifyDevshardSettlement demo_escrow demo_msg (Some demo_params) None = Ok tt.
Proof.
  exact (session_settlement_accepted 1000 S7 demo_escrow demo_msg demo_params None demo_settled (proj1 demo_version) (proj2 demo_version)).
Defined.

(** A settlement signed by one host only is refused. *)
Definition short_msg : MsgSettleDevshardEscrow :=
  MkMsgSettle (address 9) 7 (ms_StateRoot demo_msg) 7 (ms_RestHash demo_msg) [] [MkSlotSignature 0 (chain_sign 0)] "v1" 13.
Lemma settlement_decided_witness : VerifyDevshardSettlement demo_escrow short_msg (Some demo_params) None <> Ok tt.
Proof.
  intros H. apply (settlement_decided demo_escrow short_msg (Some demo_params) None) in H as (p & _ & Hac).
  - pose proof (ac_quorum _ _ _ _ Hac) as Hq. vm_compute in Hq. apply Hq. reflexivity.
  - repeat split; try constructor; cbn; lia.
  - unfold is_u64; cbn; lia.
  - cbn; lia.
Defined.
