(* ===== verification/DemoChain.v ===== *)
(** * A concrete chain

    The classes of the chain side instantiated by small executable functions whose laws
    are proved: addresses that are their bytes, a bank, decimals that are rationals, and
    the status keeper of [ChainStatus.v] itself.  On this chain the session of [Demo.v]
    is settled, an escrow is opened, old epochs are pruned; the theorems with hypotheses
    are applied to it ([.._witness]). *)

From Stdlib Require Import QArith Qround Qabs Lqa.
From stdpp Require Import pretty sorting.
From S2P Require Import Prelude.
From S2P Require Import GoStd.
From S2P Require Import DevshardTypes.
From S2P Require Import DevshardHash.
From S2P Require Import DevshardMachine.
From S2P Require Import DevshardRefine.
From S2P Require Import DevshardReach.
From S2P Require Import DevshardStorage.
From S2P Require Import DevshardSettlement.
From S2P Require Import ChainSettlement.
From S2P Require Import ChainSlots.
From S2P Require Import ChainStore.
From S2P Require Import ChainDecimal.
From S2P Require Import ChainState.
From S2P Require Import ChainStatus.
From S2P Require Import ChainEscrow.
From S2P Require Import ChainEscrowSpec.
From S2P Require Import ChainPruning.
From S2P Require Import ChainTrace.
From S2P Require Import Demo.

Open Scope Z_scope.
Open Scope go_scope.

(* ------------------------------------------------------------------ *)
(** ** The instances *)

(** An address is the bytes of its string. *)
#[export] Instance demo_addresses_codec : AccAddressCodec := {|
  AccAddressFromBech32 := fun s => if bool_decide (s = "") then None else Some (string_bytes s);
  AccAddress_String := bytes_string
|}.

Lemma canonical_string s : s <> "" -> canonical s.
Proof. intros Hs. exists (string_bytes s). cbn. rewrite bool_decide_eq_false_2 by done. split; [done|apply bytes_string_of]. Qed.

(** The bank: the module's coins and the accounts'. *)
Record World := MkWorld { w_module : Z; w_accounts : gmap AccAddress Z }.

Definition demo_weights : list (string * Z) := [(address 0, 5); (address 1, 3); (address 2, 2)].

(** Moving coins between the module and account [a]; its own account is the byte 0. *)
Definition demo_module : AccAddress := [0].
Definition move (a : AccAddress) (amt : Z) (w : World) : World :=
  if bool_decide (a = demo_module) then w
  else MkWorld (w_module w - amt) (<[a := zget 0 a (w_accounts w) + amt]> (w_accounts w)).

#[export] Instance demo_env : ChainEnv World := {|
  ModuleAccount := demo_module;
  GovernanceAccount := [1];
  CollateralAccount := [2];
  ModuleBalance := w_module;
  AccountBalance := fun w a => zget 0 a (w_accounts w);
  SendCoinsFromModuleToAccount := fun a amt w =>
    if amt <=? w_module w then (move a amt w, Ok tt) else (w, Err "insufficient funds");
  SendCoinsFromAccountToModule := fun a amt w =>
    if amt <=? zget 0 a (w_accounts w) then (move a (- amt) w, Ok tt) else (w, Err "insufficient funds");
  AuthzGrants := fun _ _ _ => None;
  EpochGroupWeights := fun _ _ model => if bool_decide (model = "m") then Some demo_weights else None;
  AppHashHex := fun _ => "c0ffee"
|}.

Lemma move_module a amt w : w_module (move a amt w) = w_module w - outside (W := World) a amt.
Proof. unfold move, outside. cbn [ModuleAccount demo_env]. case_bool_decide; cbn; lia. Qed.
Lemma move_account a amt w b : b <> demo_module ->
  zget 0 b (w_accounts (move a amt w)) = zget 0 b (w_accounts w) + if bool_decide (b = a) then amt else 0.
Proof.
  intros Hb. unfold move. case_bool_decide as Ha.
  - rewrite bool_decide_eq_false_2 by congruence. lia.
  - cbn. case_bool_decide as Hab; [subst b; by rewrite zget_insert_eq|rewrite zget_insert_ne by done; lia].
Qed.

#[export] Instance demo_env_laws : ChainEnvLaws World.
Proof.
  split; cbn [SendCoinsFromModuleToAccount SendCoinsFromAccountToModule ModuleBalance AccountBalance demo_env].
  - intros a amt w w' Ha. destruct (Z.leb_spec amt (w_module w)); [|done]. intros [= <-]. split; [done|]. split; [apply move_module|].
    intros b. apply move_account.
  - intros a amt w w' Ha. destruct (Z.leb_spec amt (zget 0 a (w_accounts w))); [|done]. intros [= <-]. rewrite move_module. split.
    + unfold outside. case_bool_decide; lia.
    + intros b Hb. rewrite move_account by done. case_bool_decide; lia.
  - intros a amt w w' e. destruct (amt <=? w_module w); [done|]. intros [= <- <-]. done.
Qed.

Lemma demo_accepts a : accepts a.
Proof. intros w amt Ha. cbn in Ha |- *. replace (amt <=? w_module w) with true by lia. eauto. Qed.

(** Decimals as rationals. *)
#[export] Instance demo_decimals : DecimalLib := {|
  dec := Q;
  dec_New := fun v e => (inject_Z v * inject_Z 10 ^ e)%Q;
  dec_Add := Qplus; dec_Sub := Qminus; dec_Mul := Qmult; dec_Neg := Qopp; dec_Cmp := Qcompare;
  dec_Div := fun x y => Qfloor (x / y * inject_Z (10 ^ 16) + (1 # 2))%Q # (10 ^ 16);
  dec_Pow := fun x y => (x ^ Qfloor y)%Q;
  dec_PowInt32 := fun x n => if (n =? 0) && Qeq_bool x 0 then None else Some (x ^ n)%Q;
  dec_Round := fun n x => (inject_Z (Qfloor (x * inject_Z 10 ^ n + (1 # 2))) / inject_Z 10 ^ n)%Q;
  dec_CoefficientInt64 := fun x => Qfloor (x * inject_Z (10 ^ 12))%Q;
  dec_Exponent := fun _ => -12;
  dec_IntPart := fun x => i64 (Qfloor x);
  dec_RoundInt := fun x => Qfloor (x + (1 # 2))%Q
|}.
Lemma nearest (q : Q) : (Qabs ((Qfloor (q * inject_Z (10 ^ 16) + (1 # 2))%Q # (10 ^ 16)) - q) <= 1 # (2 * 10 ^ 16))%Q.
Proof.
  set (t := (q * inject_Z (10 ^ 16))%Q). pose proof (Qfloor_le (t + (1 # 2))) as H1. pose proof (Qlt_floor (t + (1 # 2))) as H2.
  rewrite inject_Z_plus in H2. set (f := Qfloor (t + (1 # 2))) in *. rewrite (Qmake_Qdiv f (10 ^ 16)). change (Z.pos (10 ^ 16)) with (10 ^ 16).
  assert (q == t / inject_Z (10 ^ 16))%Q as -> by (unfold t; field; discriminate). change (inject_Z 1) with 1%Q in H2.
  apply Qabs_Qle_condition. change (1 # (2 * 10 ^ 16))%Q with ((1 # 2) / inject_Z (10 ^ 16))%Q.
  unfold Qdiv. assert (0 < / inject_Z (10 ^ 16))%Q by (by vm_compute). split; nra.
Qed.
#[export] Instance demo_decimal_laws : DecimalLaws.
Proof.
  exists (fun x : Q => x); cbn [dec_New dec_Add dec_Sub dec_Mul dec_Neg dec_Cmp dec_Div dec_PowInt32 dec_IntPart demo_decimals]; intros; try reflexivity.
  - eexists. split; [|reflexivity]. by destruct (Z.eqb_spec n 0); [lia|].
  - apply nearest.
  - by eexists.
  - apply i64_small. split; [|done]. rewrite <-(Qfloor_Z 0) in *. transitivity 0; [done|]. by apply (Qfloor_resp_le 0).
  - unfold i64. pose proof (Z.mod_pos_bound (Qfloor x + 2 ^ 63) (2 ^ 64)). lia.
Qed.

(** Parameters under which four consecutive failures are too many. *)
Definition demo_validation : ValidationParams :=
  MkValidationParams (Some (MkDecimal 5 (-2))) (Some (MkDecimal 1 (-5))) (Some (MkDecimal 2 (-1))) (Some (MkDecimal 4 0))
    (Some (MkDecimal 1 (-1))) (Some (MkDecimal 2 (-1))) (Some (MkDecimal 4 0)) (Some (MkDecimal 9 (-1))) (Some (MkDecimal 0 0)).
#[export] Instance demo_status_env : StatusEnv World := {|
  ValidationParamsOf := fun _ => Some demo_validation;
  ConfirmationPoCParamsOf := fun _ => None;
  GetPrecomputedSPRTValues := fun _ =>
    MkPrecomputed (Some (MkDecimal 14 (-1))) (Some (MkDecimal (-2) (-1))) (Some (MkDecimal 7 (-1))) (Some (MkDecimal (-1) (-1)));
  BlockHeight := fun _ => 1000;
  removeFromEpochGroups := fun _ w => (w, Ok tt)
|}.
#[export] Instance demo_slashing : CollateralSlashing World := {|
  SlashForInvalidStatus := fun _ c => ch_World c;
  SlashForDowntime := fun _ c => ch_World c
|}.
#[export] Instance demo_slashing_laws : CollateralSlashingLaws World.
Proof. split; intros p c; cbn; reflexivity. Qed.
#[export] Instance demo_status_env_laws : StatusEnvLaws World.
Proof. split; try done. by intros p w w' r [= <- _]. Qed.

(* ------------------------------------------------------------------ *)
(** ** The chain *)

Definition account (i : Z) : AccAddress := string_bytes (address i).
Definition participant (i balance : Z) : Participant :=
  MkParticipant (address i) (address i) 0 0 0 0 "" Participant_ACTIVE balance "" 0 "" 10 (Some NewCurrentEpochStats).

(** Epoch 3; the three hosts are participants, host 1 is active in it; the escrow of
    the session is open; host 0 has its payouts of epoch 3 sent to host 2. *)
Definition demo_chain : Chain World :=
  MkChain {[7 := demo_escrow]} {[(3, 7)]} {[3 := 1]} (Some 7) ∅
    {[account 0 := participant 0 100; account 1 := participant 1 50; account 2 := participant 2 0]}
    {[(3, account 1)]} ∅ {[(account 0, 3) := address 2]} {[(3, account 0)]} (Some 3) (Some (Some demo_params))
    (Some (MkPruningState 0 0)) (MkWorld 2000 {[account 9 := 5000]}).

Lemma demo_participant a p : Participants demo_chain !! a = Some p ->
  exists i b, 0 <= i < 3 /\ a = account i /\ p = participant i b /\ 0 <= b <= 100.
Proof.
  cbn [Participants demo_chain]. intros Hp.
  repeat (apply lookup_insert_Some in Hp as [[<- <-]|[_ Hp]]; [eexists _, _; split; [|split; [reflexivity|split; [reflexivity|]]]; lia|]).
  apply lookup_singleton_Some in Hp as [<- <-]. eexists _, _. split; [|split; [reflexivity|split; [reflexivity|]]]; lia.
Qed.

Lemma demo_chain_ok : chain_ok demo_chain.
Proof.
  split.
  - intros a p (i & b & Hi & -> & -> & Hb)%demo_participant. split; [|cbn; lia]. cbn [pp_Index participant].
    assert (i = 0 \/ i = 1 \/ i = 2) as [->|[->| ->]] by lia; reflexivity.
  - intros id e. cbn [DevshardEscrows demo_chain]. intros [<- <-]%lookup_singleton_Some. split; [done|]. split; [cbn; lia|]. split; [|cbn; lia].
    repeat constructor; by apply canonical_string.
  - intros id [e Hid]. cbn [DevshardEscrows demo_chain] in Hid. apply lookup_singleton_Some in Hid as [<- _]. cbn. lia.
  - intros epoch id. cbn [DevshardEscrows DevshardEscrowsByEpoch demo_chain]. rewrite elem_of_singleton. split.
    + intros [= -> ->]. by exists demo_escrow.
    + intros (e & [<- <-]%lookup_singleton_Some & <-). done.
  - vm_compute. discriminate.
Qed.

Lemma demo_claims_ok : claims_ok demo_chain.
Proof.
  intros a e. cbn [ClaimRecipients ClaimRecipientsByEpoch demo_chain]. rewrite elem_of_singleton. split.
  - intros [= -> ->]. rewrite lookup_singleton_eq. eauto.
  - intros [r [[= <- <-] _]%lookup_singleton_Some]. done.
Qed.

(* ------------------------------------------------------------------ *)
(** ** Settling the session *)

Definition session_fields (msg : MsgSettleDevshardEscrow) : Prop :=
  ms_HostStats msg ≡ₚ [MkSettlementStats 0 0 0 0 0 0; MkSettlementStats 1 0 0 25 0 0; MkSettlementStats 2 0 0 0 0 0] /\
  ms_Fees msg = 13 /\ ms_Nonce msg = 7 /\ ms_EscrowId msg = 7 /\ ms_Settler msg = address 9.

Lemma demo_msg_fields : session_fields demo_msg.
Proof.
  destruct (BuildSettlement_fields _ _ _ _ _ (payload_built chain_sigs)) as (_ & _ & Hn & Hf & Hs & _).
  unfold session_fields, demo_msg. cbn [ms_HostStats ms_Fees ms_Nonce ms_EscrowId ms_Settler]. rewrite Hs, Hf, Hn.
  assert (map_to_list (HostStatsMap (state S7)) ≡ₚ [(0, MkHostStats 0 0 0 0 0); (1, MkHostStats 0 0 25 0 0); (2, MkHostStats 0 0 0 0 0)]) as ->.
  { assert (HostStatsMap (state S7) = {[0 := MkHostStats 0 0 0 0 0; 1 := MkHostStats 0 0 25 0 0; 2 := MkHostStats 0 0 0 0 0]}) as ->
      by (vm_compute; reflexivity).
    clear. rewrite !map_to_list_insert by reflexivity. rewrite map_to_list_singleton. reflexivity. }
  assert (Fees (state S7) = 13) as -> by (vm_compute; reflexivity). clear. repeat split; reflexivity.
Qed.

Lemma demo_settling msg : session_fields msg -> settling demo_chain demo_escrow msg.
Proof.
  intros (Hs & Hf & Hn & Hid & _). split.
  - exact demo_chain_ok.
  - reflexivity.
  - rewrite Hid. reflexivity.
  - unfold msg_sized. rewrite Hf, Hn, Hs. unfold is_u64. split; [lia|]. split; [lia|].
    repeat constructor; unfold stats_sized, is_u32, is_u64; cbn; lia.
  - rewrite Hs. repeat constructor; unfold is_u32, is_u64; cbn; lia.
Qed.

Lemma demo_slot a : a ∈ de_Slots demo_escrow -> exists i, 0 <= i < 3 /\ a = address i.
Proof.
  cbn [de_Slots demo_escrow]. rewrite !elem_of_cons, elem_of_nil. intros [->|[->|[->|[]]]]; [exists 0|exists 1|exists 2]; split; done || lia.
Qed.

Lemma demo_lookup i : 0 <= i < 3 -> exists b, GetParticipant demo_chain (address i) = Some (participant i b).
Proof. intros Hi. assert (i = 0 \/ i = 1 \/ i = 2) as [->|[->| ->]] by lia; by eexists. Qed.

Lemma demo_ready msg : session_fields msg -> chain_ready demo_chain demo_escrow msg.
Proof.
  intros (Hs & Hf & Hn & _ & Hset). split.
  - rewrite Hset. by eexists.
  - exists 3. split; [reflexivity|]. cbn [de_EpochIndex demo_escrow]. rewrite u64_small; unfold is_u64; lia.
  - intros a (i & Hi & ->)%demo_slot. destruct (demo_lookup i Hi) as [b ->]. eauto.
  - intros a (i & Hi & ->)%demo_slot _. assert (i = 0 \/ i = 1 \/ i = 2) as [->|[->| ->]] by lia;
      (eexists; split; [reflexivity|apply demo_accepts]).
  - intros b _. apply demo_accepts.
  - intros addr a Ha _. unfold room. rewrite !(lsum_perm _ _ _ Hs). cbn [DevshardHostEpochStatsMap demo_chain].
    rewrite lookup_empty. cbn. lia.
  - intros a p (i & Hi & ->)%demo_slot Hg. destruct (demo_lookup i Hi) as [b Hb]. rewrite Hb in Hg. injection Hg as <-.
    unfold counters_room. rewrite Hn, Hs. cbn. lia.
  - split; [intros a p (i & b & _ & _ & -> & _)%demo_participant; by eexists|].
    intros p c' Hp Hst. apply update_total; [by eexists|by rewrite Hp|exact Hst].
Qed.

Lemma demo_settle_ready : settle_ready demo_chain demo_escrow demo_msg.
Proof.
  split.
  - exact (demo_ready _ demo_msg_fields).
  - exists demo_params. split; [reflexivity|].
    apply (session_accepted 1000 S7 demo_escrow demo_msg demo_params (Some (HasWarmKeyGrant demo_chain)) demo_settled (proj1 demo_version) (proj2 demo_version)).
  - destruct demo_msg_fields as (Hs & Hf & _). rewrite Hf, Hs. clear. vm_compute. discriminate.
Qed.

Lemma demo_settles : exists c', SettleDevshardEscrow demo_msg demo_chain = (c', Ok tt).
Proof.
  pose proof (settle_handler_wp True demo_chain demo_escrow demo_msg (demo_settling _ demo_msg_fields) (fun _ => demo_settle_ready)) as Hwp. unfold wp in Hwp.
  destruct (SettleDevshardEscrow demo_msg demo_chain) as [c' [[]|e]]; [by exists c'|by destruct Hwp].
Qed.

(** Host 1 earned 25 and gets 4 of the 13 coins of fees, or 5. *)
Lemma session_paid_out_witness : exists c',
  SettleDevshardEscrow demo_msg demo_chain = (c', Ok tt) /\ refund demo_escrow demo_msg = Balance (state S7).
Proof.
  destruct (session_paid_out 1000 S7 demo_chain demo_escrow demo_msg demo_params demo_settled (demo_settling _ demo_msg_fields) (demo_ready _ demo_msg_fields) eq_refl
    (proj1 demo_version) (proj2 demo_version)) as (_ & c' & Hrun & _ & Href & _). exists c'. split; [exact Hrun|exact Href].
Defined.

Lemma settle_goes_through_witness : exists c', SettleDevshardEscrow demo_msg demo_chain = (c', Ok tt).
Proof. exact (settle_goes_through demo_chain demo_escrow demo_msg (demo_settling _ demo_msg_fields) demo_settle_ready). Defined.

Lemma settle_exact_witness : exists c',
  SettleDevshardEscrow demo_msg demo_chain = (c', Ok tt) /\ 0 <= refund demo_escrow demo_msg /\ slack c' = slack demo_chain + stuck demo_chain demo_escrow demo_msg.
Proof.
  destruct demo_settles as [c' Hrun]. exists c'. split; [exact Hrun|].
  pose proof (settle_exact demo_chain demo_escrow demo_msg c' (demo_settling _ demo_msg_fields) Hrun) as H.
  split; [exact (st_refund _ _ _ _ H)|exact (st_slack _ _ _ _ H)].
Defined.

(* ------------------------------------------------------------------ *)
(** ** Opening an escrow *)

Definition by_random (a b : slotRandom) : Prop := sr_randomVal a <= sr_randomVal b.
#[export] Instance by_random_dec : RelDecision by_random.
Proof. intros a b. unfold by_random. apply _. Defined.
#[export] Instance by_random_trans : Transitive by_random.
Proof. intros a b c. unfold by_random. lia. Qed.
#[export] Instance by_random_total : Total by_random.
Proof. intros a b. unfold by_random. lia. Qed.
Definition demo_sort : list slotRandom -> list slotRandom := merge_sort by_random.

Lemma demo_sorts : sorts_randoms demo_sort.
Proof. intros l. split; [apply merge_sort_Permutation|apply (StronglySorted_merge_sort by_random)]. Qed.

Definition create_msg : MsgCreateDevshardEscrow := MkMsgCreate (address 9) 500 "m".

Lemma demo_create_typed : create_typed demo_chain create_msg.
Proof.
  split; [discriminate|unfold is_u64; cbn; lia|unfold is_u64; cbn; lia|unfold is_u32; cbn; lia|].
  intros epoch l [= <-]. split; [repeat constructor; by apply canonical_string|vm_compute; reflexivity].
Qed.

Lemma demo_creating : creating demo_chain create_msg.
Proof. split; [exact demo_chain_ok|exact demo_create_typed]. Qed.

Lemma demo_create_ready : create_ready demo_chain create_msg.
Proof.
  split.
  - eexists _, _. split; [reflexivity|]. split; reflexivity.
  - discriminate.
  - cbn. lia.
  - cbn. lia.
  - exists 3, demo_weights, (address 0), 5. split; [reflexivity|]. split; [vm_compute; reflexivity|]. split; [reflexivity|]. split; [vm_compute; reflexivity|lia].
  - cbn. lia.
Qed.

Lemma create_opens_witness : exists c' id,
  CreateDevshardEscrow demo_sort create_msg demo_chain = (c', Ok id) /\ id = 8 /\ w_module (ch_World c') = 2500.
Proof.
  pose proof (create_wp True demo_sort demo_chain create_msg demo_sorts demo_creating (fun _ => demo_create_ready)) as Hwp. unfold wp in Hwp.
  destruct (CreateDevshardEscrow demo_sort create_msg demo_chain) as [c' [id|e]] eqn:Hrun; [|by destruct Hwp].
  exists c', id. split; [reflexivity|]. clear Hwp.
  pose proof (create_opens demo_sort demo_chain create_msg c' id demo_sorts demo_creating Hrun) as H.
  split; [exact (proj1 (op_id _ _ _ _ H))|exact (op_module _ _ _ _ H)].
Defined.

Lemma create_goes_through_witness : exists c' id, CreateDevshardEscrow demo_sort create_msg demo_chain = (c', Ok id).
Proof. exact (create_goes_through demo_sort demo_chain create_msg demo_sorts demo_creating demo_create_ready). Defined.

Lemma demo_entries :
  PrepareSortedEntries (weights_of demo_weights) = ([MkWeight (address 0) 5; MkWeight (address 2) 2; MkWeight (address 1) 3], 10).
Proof. vm_compute. reflexivity. Qed.

Lemma slots_sweep_exact_witness :
  let entries := [MkWeight (address 0) 5; MkWeight (address 2) 2; MkWeight (address 1) 3] in
  GetSlotsFromSorted demo_sort "c0ffee" "devshard_escrow:8" "m" entries 10 3 =
  GetSlotFromSorted "c0ffee" "devshard_escrow:8" "m" entries 10 <$> [0; 1; 2]%nat.
Proof.
  cbv zeta. exact (proj1 (slots_sweep_exact demo_sort "c0ffee" "devshard_escrow:8" "m" (weights_of demo_weights) _ 10 3
    demo_sorts ltac:(vm_compute; reflexivity) demo_entries ltac:(lia))).
Defined.

Lemma slots_proportional_witness :
  Z.of_nat (length (filter (fun r => find_entry 0 [MkWeight (address 0) 5; MkWeight (address 2) 2; MkWeight (address 1) 3] r = Some (address 1))
    (seqZ 0 10))) = 3.
Proof.
  exact (proj2 (proj2 (slots_proportional "c0ffee" "devshard_escrow:8" "m" (weights_of demo_weights) _ 10 0 (address 1) 3
    ltac:(vm_compute; reflexivity) demo_entries ltac:(vm_compute; reflexivity) ltac:(lia)))).
Defined.

(* ------------------------------------------------------------------ *)
(** ** Pruning *)

Lemma demo_pruning current : 0 <= current < 2 ^ 62 -> pruning demo_chain (MkPruningState 0 0) current.
Proof. intros Hc. split; [exact demo_chain_ok|reflexivity|cbn; lia|exact Hc]. Qed.

Lemma prune_exact_witness : exists c',
  Prune GetDevshardPruner 5 demo_chain = (c', Ok tt) /\ slack demo_chain <= slack c' /\
  epoch_keys Z.le (DevshardEscrowsByEpoch c') 3 = [].
Proof.
  destruct (prune_exact demo_chain (MkPruningState 0 0) 5 (demo_pruning 5 ltac:(lia))) as (c' & Hrun & Hap & Hk).
  exists c'. split; [exact Hrun|]. split; [exact (ap_slack _ _ _ _ Hap)|]. rewrite (Hk 3 ltac:(lia)). vm_compute. reflexivity.
Defined.

Lemma settleable_not_pruned_witness : exists c',
  Prune GetDevshardPruner 4 demo_chain = (c', Ok tt) /\ DevshardEscrows c' !! 7 = Some demo_escrow.
Proof.
  exact (settleable_not_pruned demo_chain (MkPruningState 0 0) 4 7 demo_escrow (demo_pruning 4 ltac:(lia)) eq_refl ltac:(cbn; lia) ltac:(cbn; lia)).
Defined.

(** A chain with 101 escrows in epoch 1 and none in epoch 2. *)
Definition old_escrow (id : Z) : DevshardEscrow :=
  MkEscrow id (address 9) 0 [] 1 "" false 1 "m" 10 1 20 3600 150 5000 0.
Definition crowded_chain : Chain World :=
  MkChain (list_to_map ((fun id => (id, old_escrow id)) <$> seqZ 1 101)) (list_to_set (pair 1 <$> seqZ 1 101)) ∅ (Some 101) ∅ ∅ ∅ ∅ ∅ ∅
    (Some 4) (Some (Some demo_params)) (Some (MkPruningState 0 0)) (MkWorld 0 ∅).

Lemma crowded_lookup id e :
  DevshardEscrows crowded_chain !! id = Some e <-> 1 <= id <= 101 /\ e = old_escrow id.
Proof.
  cbn [DevshardEscrows crowded_chain]. rewrite <-elem_of_list_to_map.
  - rewrite list_elem_of_fmap. setoid_rewrite elem_of_seqZ. split.
    + intros (x & [= -> ->] & Hx). split; [lia|done].
    + intros [Hid ->]. exists id. split; [done|lia].
  - rewrite <-list_fmap_compose. cbn. rewrite list_fmap_id. apply NoDup_seqZ.
Qed.

Lemma crowded_index k : k ∈ DevshardEscrowsByEpoch crowded_chain <-> k.1 = 1 /\ 1 <= k.2 <= 101.
Proof.
  cbn [DevshardEscrowsByEpoch crowded_chain]. rewrite elem_of_list_to_set, list_elem_of_fmap. setoid_rewrite elem_of_seqZ. destruct k as [e id]. cbn. split.
  - intros (x & [= -> ->] & Hx). lia.
  - intros [-> Hid]. exists id. split; [done|lia].
Qed.

Lemma crowded_ok : chain_ok crowded_chain.
Proof.
  split.
  - intros a p. cbn [Participants crowded_chain]. by rewrite lookup_empty.
  - intros id e [Hid ->]%crowded_lookup. split; [done|]. split; [cbn; lia|]. split; [constructor|cbn; lia].
  - intros id [e [Hid _]%crowded_lookup]. cbn. lia.
  - intros epoch id. rewrite crowded_index. cbn. setoid_rewrite crowded_lookup. split.
    + intros [-> Hid]. by exists (old_escrow id).
    + intros (e & [Hid ->] & <-). done.
  - unfold slack, owed. cbn [Participants ch_World crowded_chain]. rewrite msum_empty.
    assert (locked crowded_chain = 0) as ->; [|done]. unfold locked.
    rewrite (msum_ext _ (fun _ _ => 0)) by (by intros id e [_ ->]%crowded_lookup).
    rewrite msum_map_to_list, (lsum_ext _ (fun _ => 0)) by (by intros []). apply lsum_zero.
Qed.

Lemma crowded_keys : length (epoch_keys Z.le (DevshardEscrowsByEpoch crowded_chain) 1) = 101%nat.
Proof.
  transitivity (length (pair 1 <$> seqZ 1 101)); [|by rewrite length_fmap, length_seqZ]. apply Permutation_length.
  apply NoDup_Permutation; [apply (NoDup_epoch_keys Z.le)|apply NoDup_fmap_2; [by intros ? ? [= ->]|apply NoDup_seqZ]|].
  intros [e id]. rewrite elem_epoch_keys, crowded_index, list_elem_of_fmap. setoid_rewrite elem_of_seqZ. cbn. split.
  - intros (_ & -> & Hid). exists id. split; [done|lia].
  - intros (x & [= -> ->] & Hx). split; [done|]. split; [done|lia].
Qed.

Lemma crowded_claims : claims_ok crowded_chain.
Proof. intros a e. cbn [ClaimRecipients ClaimRecipientsByEpoch crowded_chain]. rewrite lookup_empty. split; [set_solver|by intros [? ?]]. Qed.

(** The chain in epoch [e]. *)
Definition in_epoch (e : Z) (c : Chain World) : Chain World :=
  MkChain (DevshardEscrows c) (DevshardEscrowsByEpoch c) (DevshardEscrowEpochCount c) (DevshardEscrowCounter c) (DevshardHostEpochStatsMap c)
    (Participants c) (ActiveParticipantsSet c) (ExcludedParticipantsMap c) (ClaimRecipients c) (ClaimRecipientsByEpoch c) (Some e)
    (ch_Params c) (ch_PruningState c) (ch_World c).
Lemma next_epoch_marks e c : chain_ok c -> marking_step demo_sort c (in_epoch e c).
Proof. intros [Hp _ _ _ Hs]. apply marking_other; [by split|done]. Qed.

(** The escrow of epoch 1 that the run leaves is still there in epoch 5. *)
Lemma prune_strands_witness : exists c' id, Prune GetDevshardPruner 4 crowded_chain = (c', Ok tt) /\ stored (in_epoch 5 c') 1 id /\ marked (in_epoch 5 c') 2.
Proof.
  assert (pruning crowded_chain (MkPruningState 0 0) 4) as Hp by (split; [exact crowded_ok|reflexivity|cbn; lia|lia]).
  destruct (prune_strands demo_sort crowded_chain (MkPruningState 0 0) 4 1 2) as (c' & Hrun & Hne & _ & Hlater).
  - exact demo_sorts.
  - exact crowded_claims.
  - exact Hp.
  - apply elem_of_seqZ. unfold prune_first, prune_last, DevshardPruningThreshold. cbn. lia.
  - apply elem_of_seqZ. unfold prune_first, prune_last, DevshardPruningThreshold. cbn. lia.
  - lia.
  - rewrite crowded_keys. reflexivity.
  - apply elem_of_nil_inv. intros k [Hk1 Hk2%crowded_index]%elem_epoch_keys. rewrite (proj1 Hk2) in Hk1. discriminate Hk1.
  - assert (chain_ok c') as Hok.
    { destruct (devshard_prune_run _ _ _ Hp) as (c1 & st1 & Hrun1 & Hap & _). rewrite Hrun in Hrun1. injection Hrun1 as <-. apply Hap. }
    destruct (Hlater (in_epoch 5 c') (rtc_once _ _ (next_epoch_marks 5 c' Hok))) as [Hm Hs].
    destruct (drop 100 (epoch_keys Z.le (DevshardEscrowsByEpoch crowded_chain) 1)) as [|[e id] l] eqn:Hd; [by destruct Hne|].
    exists c', id. split; [exact Hrun|]. split; [|exact Hm]. assert (e = 1) as ->.
    { assert ((e, id) ∈ epoch_keys Z.le (DevshardEscrowsByEpoch crowded_chain) 1) as [He _]%elem_epoch_keys; [|exact He].
      apply (subseteq_drop 100). rewrite Hd. left. }
    apply Hs. left.
Defined.

(* ------------------------------------------------------------------ *)
(** ** Claim recipients *)

(** Host 0 schedules a recipient for epoch 5. *)
Definition demo_claims : MsgSetClaimRecipients := MkMsgClaims (address 0) [MkClaimEntry 5 (address 1)].

Lemma claim_recipients_frozen_witness :
  match SetClaimRecipients demo_claims demo_chain with
  | (c', Ok _) => claims_ok c' /\ ClaimRecipients c' !! (account 0, 3) = Some (address 2)
  | (c', Err _) => False
  end.
Proof.
  pose proof (claim_recipients_frozen demo_chain demo_claims 3 (account 0) demo_claims_ok eq_refl ltac:(lia) eq_refl) as H. cbv zeta in H.
  destruct (SetClaimRecipients demo_claims demo_chain) as [c' [[]|e]].
  - destruct H as (_ & Hs & _ & Hf). split; [exact Hs|]. rewrite Hf by (right; left; lia). reflexivity.
  - apply (proj1 H). split; [eexists; reflexivity|]. split; [discriminate|]. constructor; [|constructor].
    split; [unfold MaxClaimRecipientLookahead; cbn; lia|]. right. eexists. reflexivity.
Defined.

(* ------------------------------------------------------------------ *)
(** ** Traces *)

Lemma demo_msg_typed msg : session_fields msg -> msg_sized msg /\ Forall entry_sized (ms_HostStats msg).
Proof. intros Hf. destruct (demo_settling msg Hf). done. Qed.


Lemma demo_module_after msg c' :
  session_fields msg -> settled demo_chain demo_escrow msg c' -> w_module (ch_World c') <= 2000.
Proof.
  intros Hf Hs. pose proof (st_module _ _ _ _ Hs) as Hm. pose proof (st_refund _ _ _ _ Hs) as Hr. cbn [ModuleBalance demo_env] in Hm. rewrite Hm.
  change (w_module (ch_World demo_chain)) with 2000.
  pose proof (paid_out_nonneg demo_chain demo_escrow msg (proj1 (demo_msg_typed msg Hf)) Hr). lia.
Qed.

Lemma escrow_paid_once_witness : exists c1,
  SettleDevshardEscrow demo_msg demo_chain = (c1, Ok tt) /\ forall c3, SettleDevshardEscrow demo_msg c1 <> (c3, Ok tt).
Proof.
  destruct demo_settles as [c1 Hrun]. exists c1. split; [exact Hrun|]. destruct (demo_msg_typed _ demo_msg_fields) as [Hsz Hes].
  pose proof (settle_handler_wp False demo_chain demo_escrow demo_msg (demo_settling _ demo_msg_fields) (fun H => False_ind _ H)) as Hwp.
  unfold wp in Hwp. rewrite Hrun in Hwp. pose proof (demo_module_after _ _ demo_msg_fields Hwp) as Hle.
  apply (escrow_paid_once demo_sort demo_chain demo_escrow demo_msg c1 c1 demo_msg demo_sorts (conj demo_chain_ok demo_claims_ok)
    (demo_settling _ demo_msg_fields) Hrun (rtc_refl _ _) eq_refl Hsz Hes). cbn [ModuleBalance demo_env]. clear -Hle. lia.
Defined.

(* ------------------------------------------------------------------ *)
(** ** Status *)

(** Host 0 after four invalid inferences in a row. *)
Definition failing : Participant :=
  MkParticipant (address 0) (address 0) 0 0 0 0 "" Participant_ACTIVE 100 "" 4 "" 10
    (Some (MkEpochStats 5 0 0 0 0 0 4 None None None)).

(** The participant as it comes back: invalid, its failures reset, and with it the reputation. *)
Definition punished : Participant :=
  MkParticipant (address 0) (address 0) 0 0 0 0 "" Participant_INVALID 100 "" 0 "" 0
    (Some (MkEpochStats 5 0 0 0 0 0 4 (Some (MkDecimal 0 0)) (Some (MkDecimal 0 0)) None)).
Lemma failing_run : UpdateParticipantStatus failing demo_chain =
  (recordExclusion punished ConsecutiveFailures demo_chain, Ok punished).
Proof.
  assert (GetParticipant demo_chain (address 0) = Some (participant 0 100)) as Hfound.
  { change (Participants demo_chain !! account 0 = Some (participant 0 100)).
    cbn [Participants demo_chain]. apply lookup_insert_eq. }
  unfold UpdateParticipantStatus, status_keeper, Keeper_UpdateParticipantStatus.
  rewrite (bind_run _ _ _ demo_chain (Some (participant 0 100))); [reflexivity|].
  unfold reads. by rewrite <- Hfound.
Qed.

Lemma status_consequences_once_witness :
  consequence SlashForInvalidStatus demo_chain punished (recordExclusion punished ConsecutiveFailures demo_chain) /\
  ExcludedParticipantsMap (recordExclusion punished ConsecutiveFailures demo_chain) !! (3, account 0) =
    Some (MkExcluded (address 0) 3 "consecutive_failures" 1000).
Proof.
  split.
  - pose proof (status_consequences_once failing demo_chain _ punished failing_run) as (_ & H & _).
    apply H; [discriminate|reflexivity].
  - apply lookup_insert_eq.
Defined.

(** Fail, pass, fail: one batch of two failures and a pass. *)
Lemma sprt_batch_exact_witness :
  let s := MkSPRT (4 # 1)%Q (0 # 1)%Q (3 # 1)%Q (-1 # 1)%Q in
  Decision (UpdateCounts 2 1 s) = Decision (fold_left (fun s o => UpdateOne o s) [true; false; true] s) /\
  Decision (UpdateCounts 2 1 s) = Fail_.
Proof. intros s. split; [exact (proj1 (proj2 (sprt_batch_exact [true; false; true] s)))|reflexivity]. Defined.
