(* ===== verification/DemoCoins.v ===== *)
(** * Concrete coins

    An instance of the coin interfaces: a set of coins is the sorted list of the entries
    of a map from denominations to amounts. *)

From stdpp Require Import sorting.
From S2P Require Import Prelude.
From S2P Require Import ChainCoins.
Open Scope Z_scope.
Open Scope go_scope.

#[export] Instance coin_eq_dec : EqDecision Coin.
Proof. solve_decision. Defined.

(** Two coins of one denomination, or a panic. *)
Definition same_denom {A} (x y : Coin) (r : outcome string A) : outcome string A :=
  if bool_decide (cn_Denom x = cn_Denom y) then r else Err "invalid coin denominations".
Definition int_result (d : string) (n : Z) : outcome string Coin :=
  if (0 <=? n) && (n <? max_int) then Ok (MkCoin d n) else Err "integer overflow".

Definition demo_denom (d : string) : bool := negb (bool_decide (d = "")).
#[export] Instance demo_coins : CoinLib := {|
  ValidateDenom := demo_denom;
  NewCoin := fun d n => if demo_denom d && (0 <=? n) then Ok (MkCoin d n) else Err "invalid coin";
  Coin_Add := fun x y => same_denom x y (int_result (cn_Denom x) (cn_Amount x + cn_Amount y));
  Coin_Sub := fun x y => same_denom x y
    (if cn_Amount x <? cn_Amount y then Err "negative coin amount" else Ok (MkCoin (cn_Denom x) (cn_Amount x - cn_Amount y)));
  Coin_IsLT := fun x y => same_denom x y (Ok (cn_Amount x <? cn_Amount y));
  Coin_IsValid := fun x => demo_denom (cn_Denom x) && (0 <=? cn_Amount x)
|}.
#[export] Instance demo_coin_laws : CoinLaws.
Proof.
  split; cbn; unfold same_denom, int_result; cbn.
  - done.
  - intros d n x. destruct (demo_denom d); cbn; [|split; [done|by intros (_ & ? & _)]].
    destruct (Z.leb_spec 0 n); split; [by intros [= <-]|by intros (-> & _)|done|intros (_ & _ & ?); lia].
  - intros d m n ? ? Hmax. rewrite bool_decide_eq_true_2 by done.
    by rewrite (proj2 (Z.leb_le 0 (m + n))), (proj2 (Z.ltb_lt (m + n) max_int)) by lia.
  - intros d m n ?. rewrite bool_decide_eq_true_2 by done. by rewrite (proj2 (Z.ltb_ge m n)) by lia.
  - intros d m n. by rewrite bool_decide_eq_true_2 by done.
  - intros x Hx. boolify. done.
Qed.

(* ------------------------------------------------------------------ *)
(** ** Sets of coins *)

Definition coin_le (x y : Coin) : Prop := String.leb (cn_Denom x) (cn_Denom y) = true.
#[export] Instance coin_le_dec : RelDecision coin_le.
Proof. intros x y. unfold coin_le. apply _. Defined.

Definition amounts (cs : Coins) : gmap string Z :=
  foldr (fun x m => <[cn_Denom x := cn_Amount x + default 0 (m !! cn_Denom x)]> m) ∅ cs.
Definition coins_of (m : gmap string Z) : Coins := merge_sort coin_le ((fun p => MkCoin p.1 p.2) <$> map_to_list m).

Definition coin_ok (x : Coin) : bool := demo_denom (cn_Denom x) && (0 <? cn_Amount x) && (cn_Amount x <? max_int).
Definition demo_valid (cs : Coins) : bool := bool_decide (cs = coins_of (amounts cs)) && forallb coin_ok cs.

(** Zero amounts are dropped; what does not fit panics. *)
Definition normal (cs : Coins) : outcome string Coins :=
  let es := coins_of (filter (fun p => p.2 <> 0) (amounts cs)) in
  if forallb coin_ok es then Ok es else Err "invalid coins".

#[export] Instance demo_coins_lib : CoinsLib := {|
  NewCoins := normal;
  Coins_Add := fun cs ds => normal (cs ++ ds);
  Coins_IsValid := demo_valid
|}.

Lemma amounts_default cs d : default 0 (amounts cs !! d) = amount cs d.
Proof.
  induction cs as [|x cs IH]; [done|]. rewrite amount_cons. cbn [amounts foldr]. fold (amounts cs).
  destruct (decide (cn_Denom x = d)) as [<-|Hd].
  - rewrite lookup_insert_eq, bool_decide_eq_true_2 by done. cbn. by rewrite IH.
  - rewrite lookup_insert_ne, bool_decide_eq_false_2 by done. by rewrite IH.
Qed.

Lemma amount_perm cs ds d : cs ≡ₚ ds -> amount cs d = amount ds d.
Proof. intros Hp. unfold amount. by rewrite Hp. Qed.

Lemma coins_of_perm m : coins_of m ≡ₚ (fun p => MkCoin p.1 p.2) <$> map_to_list m.
Proof. apply merge_sort_Permutation. Qed.

Lemma amount_coins_of m d : amount (coins_of m) d = default 0 (m !! d).
Proof.
  rewrite (amount_perm _ _ _ (coins_of_perm m)). induction m as [|k v m Hk IH] using map_ind; [done|].
  rewrite (amount_perm _ (MkCoin k v :: ((fun p => MkCoin p.1 p.2) <$> map_to_list m)))
    by (by rewrite map_to_list_insert). rewrite amount_cons, IH. cbn.
  destruct (decide (k = d)) as [<-|Hd].
  - rewrite bool_decide_eq_true_2, lookup_insert_eq, Hk by done. cbn. lia.
  - by rewrite bool_decide_eq_false_2, lookup_insert_ne by done.
Qed.

Lemma elem_coins_of m x : x ∈ coins_of m <-> m !! cn_Denom x = Some (cn_Amount x).
Proof.
  rewrite coins_of_perm, list_elem_of_fmap. split.
  - intros ([d n] & -> & Hin%elem_of_map_to_list). done.
  - intros Hm%elem_of_map_to_list. exists (cn_Denom x, cn_Amount x). by destruct x.
Qed.

Lemma amounts_some cs d : is_Some (amounts cs !! d) <-> d ∈ cn_Denom <$> cs.
Proof.
  induction cs as [|x cs IH]; [cbn; rewrite lookup_empty, elem_of_nil; split; [by intros [? ?]|done]|].
  cbn [amounts foldr]. fold (amounts cs). rewrite fmap_cons, elem_of_cons, <-IH.
  destruct (decide (d = cn_Denom x)) as [->|Hd]; [rewrite lookup_insert_eq; split; [by left|by eexists]|].
  rewrite lookup_insert_ne by done. tauto.
Qed.

Lemma amounts_coins_of m : amounts (coins_of m) = m.
Proof.
  apply map_eq. intros d. pose proof (amounts_default (coins_of m) d) as Ha. rewrite amount_coins_of in Ha.
  assert (is_Some (amounts (coins_of m) !! d) <-> is_Some (m !! d)) as Hs.
  { rewrite amounts_some, list_elem_of_fmap. split.
    - intros (x & -> & Hx%elem_coins_of). by eexists.
    - intros [n Hn]. exists (MkCoin d n). by rewrite elem_coins_of. }
  destruct (amounts (coins_of m) !! d), (m !! d); cbn in Ha; [by f_equal| | |done]; exfalso.
  - destruct Hs as [Hs _]. by destruct Hs.
  - destruct Hs as [_ Hs]. by destruct Hs.
Qed.

Lemma demo_valid_iff cs : demo_valid cs = true <-> cs = coins_of (amounts cs) /\ forall x, x ∈ cs -> coin_ok x = true.
Proof. unfold demo_valid. rewrite andb_true_iff, bool_decide_eq_true, forallb_forall. by setoid_rewrite list_elem_of_In. Qed.

Lemma coin_ok_iff x : coin_ok x = true <-> demo_denom (cn_Denom x) = true /\ 0 < cn_Amount x < max_int.
Proof. unfold coin_ok. rewrite !andb_true_iff, !Z.ltb_lt. tauto. Qed.

(** A list whose totals are amounts of coins normalizes to a valid set with these totals. *)
Lemma normal_ok cs : (forall d, d ∈ cn_Denom <$> cs -> demo_denom d = true) -> (forall d, 0 <= amount cs d < max_int) ->
  exists es, normal cs = Ok es /\ demo_valid es = true /\ forall d, amount es d = amount cs d.
Proof.
  intros Hd Hn. unfold normal. set (m := filter (fun p => p.2 <> 0) (amounts cs)).
  assert (forall x, x ∈ coins_of m -> coin_ok x = true) as Hok.
  { intros x [Hx Hnz]%elem_coins_of%map_lookup_filter_Some. cbn in Hnz. apply coin_ok_iff. split.
    - apply Hd, amounts_some. by eexists.
    - pose proof (amounts_default cs (cn_Denom x)) as Ha. rewrite Hx in Ha. cbn in Ha. specialize (Hn (cn_Denom x)). lia. }
  exists (coins_of m). rewrite (proj2 (forallb_forall _ _)) by (setoid_rewrite <-list_elem_of_In; exact Hok).
  split; [done|]. split; [apply demo_valid_iff; split; [by rewrite amounts_coins_of|done]|].
  intros d. rewrite amount_coins_of, <-amounts_default. unfold m.
  destruct (amounts cs !! d) as [n|] eqn:Hm.
  - destruct (decide (n = 0)) as [->|Hz].
    + by rewrite (map_lookup_filter_None_2 _ _ d) by (right; intros y; rewrite Hm; intros [= <-]; cbn; tauto).
    + by rewrite (map_lookup_filter_Some_2 _ _ d n) by done.
  - by rewrite (map_lookup_filter_None_2 _ _ d) by (by left).
Qed.

Lemma valid_denoms cs d : demo_valid cs = true -> d ∈ cn_Denom <$> cs -> demo_denom d = true.
Proof. intros [_ Hv]%demo_valid_iff (x & -> & Hx)%list_elem_of_fmap. by apply Hv, coin_ok_iff in Hx as [? _]. Qed.

Lemma valid_amount_nonneg cs d : demo_valid cs = true -> 0 <= amount cs d.
Proof.
  intros [_ Hv]%demo_valid_iff. apply lsum_nonneg. intros x Hx. apply Hv, coin_ok_iff in Hx as [_ ?]. case_bool_decide; lia.
Qed.

Lemma valid_amount_max cs d : demo_valid cs = true -> amount cs d < max_int.
Proof.
  intros [Hc Hv]%demo_valid_iff. rewrite Hc, amount_coins_of. destruct (amounts cs !! d) as [n|] eqn:Hn; [|done]. cbn.
  assert (MkCoin d n ∈ cs) as [_ [_ Hin]]%Hv%coin_ok_iff by (rewrite Hc; by apply elem_coins_of). exact Hin.
Qed.

Lemma amount_app cs ds d : amount (cs ++ ds) d = amount cs d + amount ds d.
Proof. apply lsum_app. Qed.

(** A valid set is the only one with its amounts. *)
Lemma demo_unique cs ds : demo_valid cs = true -> demo_valid ds = true -> (forall d, amount cs d = amount ds d) -> cs = ds.
Proof.
  intros Hcs Hds Heq.
  assert (forall es d, demo_valid es = true -> amounts es !! d = if amount es d =? 0 then None else Some (amount es d)) as Hlk.
  { intros es d Hv. rewrite <-(amounts_default es d). destruct (amounts es !! d) as [n|] eqn:Hn; [|done]. cbn.
    pose proof Hv as [Hc Hok]%demo_valid_iff. rewrite <-(amounts_coins_of (amounts es)), <-Hc in Hn.
    assert (MkCoin d n ∈ es) as Hin by (rewrite Hc; by apply elem_coins_of).
    apply Hok, coin_ok_iff in Hin as [_ ?]. cbn in *. by destruct (Z.eqb_spec n 0); [lia|]. }
  rewrite (proj1 (proj1 (demo_valid_iff cs) Hcs)), (proj1 (proj1 (demo_valid_iff ds) Hds)). f_equal.
  apply map_eq. intros d. by rewrite !Hlk, Heq.
Qed.

Lemma demo_valid_one d n : demo_denom d = true -> 0 < n < max_int -> demo_valid [MkCoin d n] = true.
Proof.
  intros Hd Hn. apply demo_valid_iff. split; [|by intros x ->%list_elem_of_singleton; apply coin_ok_iff].
  cbn. rewrite lookup_empty. cbn. unfold coins_of. rewrite Z.add_0_r, insert_empty, map_to_list_singleton. done.
Qed.

Lemma amount_one d n d' : amount [MkCoin d n] d' = if bool_decide (d = d') then n else 0.
Proof. rewrite amount_cons. cbn. by rewrite Z.add_0_r. Qed.

#[export] Instance demo_coins_laws : CoinsLaws.
Proof.
  split; cbn [NewCoins Coins_Add Coins_IsValid ValidateDenom demo_coins demo_coins_lib].
  - done.
  - intros d n Hd Hn. destruct (normal_ok [MkCoin d n]) as (es & -> & Hv & Ha).
    { intros d'. cbn. by intros ->%list_elem_of_singleton. }
    { intros d'. rewrite amount_one. unfold max_int in *. case_bool_decide; lia. }
    f_equal. apply demo_unique; [done| |].
    + destruct (Z.eqb_spec n 0); [done|]. apply demo_valid_one; [done|lia].
    + intros d'. rewrite Ha. destruct (Z.eqb_spec n 0) as [->|]; rewrite amount_one; [by case_bool_decide|done].
  - done.
  - apply demo_valid_one.
  - intros cs x [_ Hv]%demo_valid_iff Hx. by apply coin_ok_iff, Hv.
  - intros cs [Hc _]%demo_valid_iff. rewrite Hc, coins_of_perm, <-list_fmap_compose. apply NoDup_fst_map_to_list.
  - apply demo_unique.
  - intros cs ds Hcs Hds Hmax. destruct (normal_ok (cs ++ ds)) as (es & Hes & Hv & Ha).
    + intros d. rewrite fmap_app, elem_of_app. intros [Hd|Hd]; [by apply (valid_denoms cs)|by apply (valid_denoms ds)].
    + intros d. rewrite amount_app. specialize (Hmax d). pose proof (valid_amount_nonneg cs d Hcs). pose proof (valid_amount_nonneg ds d Hds). lia.
    + exists es. split; [done|]. split; [done|]. intros d. by rewrite Ha, amount_app.
  - intros cs d n Hcs Hd Hn Hmax. destruct (normal_ok (cs ++ [MkCoin d n])) as (es & Hes & Hv & Ha).
    + intros d'. rewrite fmap_app, elem_of_app. intros [Hd'|Hd']; [by apply (valid_denoms cs)|].
      cbn in Hd'. by apply list_elem_of_singleton in Hd' as ->.
    + intros d'. rewrite amount_app, amount_one. pose proof (valid_amount_nonneg cs d' Hcs).
      pose proof (valid_amount_max cs d' Hcs). case_bool_decide as Heq; [subst d'|]; lia.
    + exists es. split; [done|]. split; [done|]. intros d'. by rewrite Ha, amount_app, amount_one.
Qed.
