(* ===== verification/DemoBank.v ===== *)
(** * A concrete bank

    An instance of the bank with a handful of module accounts, and on it the restrictions,
    the bookkeeper and the vesting module: an exemption that is used, a schedule that is
    paid out, a batch, and an instance of every theorem about them with hypotheses
    ([.._witness]). *)

From stdpp Require Import sorting.
From S2P Require Import Prelude.
From S2P Require Import GoStd.
From S2P Require Import ChainStore.
From S2P Require Import ChainCoins.
From S2P Require Import ChainBank.
From S2P Require Import Restrictions.
From S2P Require Import Bookkeeper.
From S2P Require Import Vesting.
From S2P Require Import VestingSpec.
From S2P Require Import VestingTrace.
From S2P Require Import Demo.
From S2P Require Import DemoCoins.
Open Scope Z_scope.
Open Scope go_scope.

(* ------------------------------------------------------------------ *)
(** ** Addresses and balances *)

(** An address is a string that starts with [@] and has no underscore. *)
#[export] Instance at_codec : AccAddressCodec := {|
  AccAddressFromBech32 := fun s => if String.prefix "@" s && negb (existsb (Z.eqb 95) (string_bytes s)) then Some (string_bytes s) else None;
  AccAddress_String := bytes_string
|}.

Record Bank := MkBank {
  db_balances : gmap (AccAddress * string) Z;
  db_supply : gmap string Z;
  db_height : Z;
  db_modules : gset AccAddress
}.
Definition balance (b : Bank) (a : AccAddress) (d : string) : Z := zget 0 (a, d) (db_balances b).

(** [n] more of [d] at [a]. *)
Definition pay_in (a : AccAddress) (d : string) (n : Z) (b : Bank) : Bank :=
  MkBank (<[(a, d) := balance b a d + n]> (db_balances b)) (db_supply b) (db_height b) (db_modules b).
Definition pay_all (a : AccAddress) (sign : Z) (amt : Coins) (b : Bank) : Bank :=
  fold_left (fun b x => pay_in a (cn_Denom x) (sign * cn_Amount x) b) amt b.
Definition set_supply (sign : Z) (amt : Coins) (b : Bank) : Bank :=
  MkBank (db_balances b) (fold_left (fun m x => <[cn_Denom x := zget 0 (cn_Denom x) m + sign * cn_Amount x]> m) amt (db_supply b))
    (db_height b) (db_modules b).

Definition all_coins (b : Bank) : Z := msum (fun _ v => v) (db_balances b).
Definition can_pay (b : Bank) (a : AccAddress) (amt : Coins) : bool :=
  Coins_IsValid amt && forallb (fun x => cn_Amount x <=? balance b a (cn_Denom x)) amt.

Definition demo_send (restrict : Bank -> AccAddress -> AccAddress -> Coins -> outcome fault AccAddress)
    (from to : AccAddress) (amt : Coins) (b : Bank) : Bank * outcome fault unit :=
  match restrict b from to amt with
  | Err e => (b, Err e)
  | Ok to' => if can_pay b from amt then (pay_all to' 1 amt (pay_all from (-1) amt b), Ok tt) else (b, Err (Failed "insufficient funds"))
  end.

Definition module_names : list string := ["fee_collector"; "inference"; "streamvesting"; "collateral"; "gov"].
Definition module_address (m : string) : AccAddress := string_bytes ("@" +:+ m).
Definition blocked (a : AccAddress) : bool := bool_decide (a = module_address "fee_collector").

#[export] Instance demo_bank : BankKeeper Bank := {|
  NewModuleAddress := module_address;
  has_module := fun m => bool_decide (m ∈ module_names);
  is_module := fun b a => bool_decide (a ∈ db_modules b);
  BlockedAddr := blocked;
  bank_Height := db_height;
  GetBalance := balance;
  Spendable := balance;
  GetSupply := fun b d => zget 0 d (db_supply b);
  bank_SendCoins := demo_send;
  bank_SendCoinsFromModuleToAccount := fun restrict m a amt b =>
    if blocked a then (b, Err (Failed "not allowed to receive funds")) else demo_send restrict (module_address m) a amt b;
  bank_SendCoinsFromModuleToModule := fun restrict m m' amt b => demo_send restrict (module_address m) (module_address m') amt b;
  bank_SendCoinsFromAccountToModule := fun restrict a m amt b => demo_send restrict a (module_address m) amt b;
  bank_MintCoins := fun m amt b =>
    if Coins_IsValid amt && (all_coins b + lsum cn_Amount amt <? max_int)
    then (set_supply 1 amt (pay_all (module_address m) 1 amt b), Ok tt) else (b, Err Panicked);
  bank_BurnCoins := fun m amt b =>
    if can_pay b (module_address m) amt
    then (set_supply (-1) amt (pay_all (module_address m) (-1) amt b), Ok tt) else (b, Err (Failed "insufficient funds"));
  bank_ok := fun b => (forall a d, 0 <= balance b a d) /\ all_coins b < max_int
|}.

Lemma pay_in_balance a d n b a' d' : balance (pay_in a d n b) a' d' = balance b a' d' + if bool_decide (a' = a /\ d' = d) then n else 0.
Proof.
  unfold balance at 1, pay_in. cbn. case_bool_decide as Hk; [destruct Hk as [-> ->]; by rewrite zget_insert_eq|].
  rewrite zget_insert_ne by (intros [=]; by apply Hk). unfold balance. lia.
Qed.

Lemma pay_in_all a d n b : all_coins (pay_in a d n b) = all_coins b + n.
Proof. unfold all_coins, pay_in. cbn. rewrite msum_insert_any. unfold balance, zget. destruct (_ !! _); cbn; lia. Qed.

Lemma pay_all_balance a sign amt b a' d : balance (pay_all a sign amt b) a' d = balance b a' d + if bool_decide (a' = a) then sign * amount amt d else 0.
Proof.
  unfold pay_all. revert b. induction amt as [|x amt IH]; intros b; cbn [fold_left]; [change (amount [] d) with 0; case_bool_decide; lia|].
  rewrite IH, pay_in_balance, amount_cons. destruct (decide (a' = a)) as [->|Ha].
  - rewrite (bool_decide_eq_true_2 (a = a)) by done. rewrite (bool_decide_ext (a = a /\ d = cn_Denom x) (cn_Denom x = d)) by naive_solver. destruct (bool_decide (cn_Denom x = d)); lia.
  - rewrite !bool_decide_eq_false_2 by naive_solver. lia.
Qed.

Lemma pay_all_coins a sign amt b : all_coins (pay_all a sign amt b) = all_coins b + sign * lsum cn_Amount amt.
Proof.
  unfold pay_all. revert b. induction amt as [|x amt IH]; intros b; cbn [fold_left]; [cbn; lia|]. rewrite IH, pay_in_all, lsum_cons. lia.
Qed.

Lemma pay_all_rest a sign amt b :
  db_supply (pay_all a sign amt b) = db_supply b /\ db_height (pay_all a sign amt b) = db_height b /\ db_modules (pay_all a sign amt b) = db_modules b.
Proof. unfold pay_all. revert b. induction amt as [|x amt IH]; intros b; [done|]. cbn [fold_left]. apply (IH (pay_in a (cn_Denom x) (sign * cn_Amount x) b)). Qed.

Lemma supply_after sign amt b d : zget 0 d (db_supply (set_supply sign amt b)) = zget 0 d (db_supply b) + sign * amount amt d.
Proof.
  unfold set_supply. cbn. generalize (db_supply b). induction amt as [|x amt IH]; intros m; cbn [fold_left]; [change (amount [] d) with 0; lia|].
  rewrite IH, amount_cons. destruct (decide (cn_Denom x = d)) as [<-|Hd].
  - rewrite zget_insert_eq, bool_decide_eq_true_2 by done. lia.
  - rewrite zget_insert_ne, bool_decide_eq_false_2 by congruence. lia.
Qed.

Lemma can_pay_iff b a amt : can_pay b a amt = true <-> Coins_IsValid amt = true /\ forall x, x ∈ amt -> cn_Amount x <= balance b a (cn_Denom x).
Proof.
  unfold can_pay. rewrite andb_true_iff, forallb_forall. setoid_rewrite <-list_elem_of_In. by setoid_rewrite Z.leb_le.
Qed.

Lemma can_pay_amount b a amt d : (forall a d, 0 <= balance b a d) -> can_pay b a amt = true -> 0 <= amount amt d <= balance b a d.
Proof.
  intros Hnn [Hv Hp]%can_pay_iff. split; [by apply amount_nonneg|]. destruct (decide (d ∈ cn_Denom <$> amt)) as [(x & -> & Hx)%list_elem_of_fmap|Hd].
  - rewrite amount_elem by (done || by apply valid_distinct). by apply Hp.
  - by rewrite amount_absent.
Qed.

(** Paying [amt] out of [from] into [to]. *)
Lemma demo_moved b from to amt : can_pay b from amt = true -> moved b (pay_all to 1 amt (pay_all from (-1) amt b)) from to amt.
Proof.
  intros Hp. destruct (pay_all_rest to 1 amt (pay_all from (-1) amt b)) as (Hs & Hh & Hm). destruct (pay_all_rest from (-1) amt b) as (Hs' & Hh' & Hm').
  assert (forall a d, balance (pay_all to 1 amt (pay_all from (-1) amt b)) a d = balance b a d - (if bool_decide (a = from) then amount amt d else 0) +
    (if bool_decide (a = to) then amount amt d else 0)) as Hbal by (intros a d; rewrite !pay_all_balance; repeat case_bool_decide; lia).
  split; cbn [GetBalance Spendable GetSupply demo_bank].
  - exact Hbal.
  - intros Hne d. rewrite Hbal, bool_decide_eq_true_2, bool_decide_eq_false_2 by done. lia.
  - intros d. by rewrite Hs, Hs'.
  - split; cbn [bank_Height is_module bank_ok demo_bank]; [congruence|intros a; by rewrite Hm, Hm'|]. intros [Hnn Hall]. split.
    + intros a d. rewrite Hbal. pose proof (can_pay_amount b from amt d Hnn Hp). specialize (Hnn a d). repeat case_bool_decide; subst; lia.
    + rewrite !pay_all_coins. lia.
Qed.

Lemma issue_same b a sign amt : (sign = 1 /\ all_coins b + lsum cn_Amount amt < max_int \/ sign = -1 /\ can_pay b a amt = true) -> Coins_IsValid amt = true ->
  bank_same b (set_supply sign amt (pay_all a sign amt b)).
Proof.
  intros Hsign Hv. destruct (pay_all_rest a sign amt b) as (_ & Hh & Hm).
  split; cbn [bank_Height is_module bank_ok demo_bank set_supply db_height db_modules]; [done|intros x; by rewrite Hm|]. intros [Hnn Hall].
  assert (0 <= lsum cn_Amount amt) as Hpos. { apply lsum_nonneg. intros x Hx. destruct (valid_each amt x Hv Hx). lia. }
  change (all_coins (set_supply sign amt (pay_all a sign amt b))) with (all_coins (pay_all a sign amt b)). split.
  - intros x d. change (balance (set_supply sign amt (pay_all a sign amt b)) x d) with (balance (pay_all a sign amt b) x d).
    rewrite pay_all_balance. pose proof (amount_nonneg amt d Hv). specialize (Hnn x d) as Hx. case_bool_decide as Hxa; [subst x|lia].
    destruct Hsign as [[-> _]|[-> Hp]]; [lia|]. pose proof (can_pay_amount b a amt d Hnn Hp). lia.
  - rewrite pay_all_coins. destruct Hsign as [[-> ?]|[-> _]]; lia.
Qed.

Lemma demo_issued b a sign amt : (sign = 1 /\ all_coins b + lsum cn_Amount amt < max_int \/ sign = -1 /\ can_pay b a amt = true) -> Coins_IsValid amt = true ->
  issued b (set_supply sign amt (pay_all a sign amt b)) a sign amt.
Proof.
  intros Hsign Hv. split; [| |by apply issue_same].
  - intros a' d. cbn [GetBalance demo_bank]. change (balance (set_supply sign amt (pay_all a sign amt b)) a' d) with (balance (pay_all a sign amt b) a' d). apply pay_all_balance.
  - intros d. cbn [GetSupply demo_bank]. rewrite supply_after. by rewrite (proj1 (pay_all_rest a sign amt b)).
Qed.

Lemma balance_le_all b a d : (forall a d, 0 <= balance b a d) -> balance b a d <= all_coins b.
Proof.
  intros Hnn. unfold balance, zget, all_coins. pose proof (msum_option_le (fun v => v) (db_balances b) (a, d)) as Hle.
  destruct (db_balances b !! (a, d)) eqn:Hb; cbn [default from_option id] in *; apply Hle; intros [x y] v Hv; specialize (Hnn x y); unfold balance, zget in Hnn; by rewrite Hv in Hnn.
Qed.

#[export] Instance demo_bank_laws : BankLaws Bank.
Proof.
  split; cbn [GetBalance Spendable bank_SendCoins bank_SendCoinsFromModuleToAccount bank_SendCoinsFromModuleToModule bank_SendCoinsFromAccountToModule
    bank_MintCoins bank_BurnCoins BlockedAddr NewModuleAddress bank_ok demo_bank].
  - intros b a d [Hnn Hall]. pose proof (balance_le_all b a d Hnn). specialize (Hnn a d). lia.
  - done.
  - done.
  - intros restrict from to to' amt b Hok Hr Hv Hbal. unfold demo_send. rewrite Hr. rewrite (proj2 (can_pay_iff b from amt)); [by eexists|].
    split; [done|]. intros x Hx. specialize (Hbal (cn_Denom x)). by rewrite amount_elem in Hbal by (done || by apply valid_distinct).
  - intros restrict from to amt b b'. unfold demo_send. destruct (restrict b from to amt) as [to'|] eqn:Hr; [|discriminate].
    destruct (can_pay b from amt) eqn:Hp; [|discriminate]. intros [= <-]. pose proof Hp as [Hv Hx]%can_pay_iff. split; [done|]. split; [done|].
    exists to'. split; [done|]. by apply demo_moved.
  - intros restrict m a amt b _ Ha. rewrite Ha. by eexists.
  - intros restrict m a amt b _ Ha. by rewrite Ha.
  - done.
  - done.
  - intros m amt b b'. destruct (_ && _) eqn:Hc; [|discriminate]. intros [= <-]. apply andb_true_iff in Hc as [Hv Hs]. split; [done|].
    apply demo_issued; [left; split; [done|lia]|done].
  - intros m amt b b'. destruct (can_pay b (module_address m) amt) eqn:Hp; [|discriminate]. intros [= <-]. pose proof Hp as [Hv _]%can_pay_iff.
    split; [done|]. apply demo_issued; [by right|done].
Qed.

(* ------------------------------------------------------------------ *)
(** ** Restrictions *)

Definition user_a : AccAddress := string_bytes "@a".
Definition user_b : AccAddress := string_bytes "@b".
Definition demo_modules : gset AccAddress := list_to_set (module_address <$> module_names).
Definition demo_balances : Bank :=
  MkBank {[ (user_a, "ngonka") := 200; (module_address "inference", "ngonka") := 1000; (module_address "streamvesting", "ngonka") := 12;
      (module_address "gov", "ngonka") := 30000000000 ]} {[ "ngonka" := 30000001212 ]} 10 demo_modules.

(** Restricted until block 100; one exemption, for anyone, of up to 50 coins, once. *)
Definition demo_exemption : EmergencyTransferExemption := MkExemption "e" "*" "*" "50" 1 20 "".
Definition demo_restrictions : Restrictions Bank := MkRestrictions (Some (MkRestrictionParams 100 [demo_exemption] [])) false demo_balances.

Lemma demo_bank_ok : bank_ok demo_balances.
Proof.
  split; [|vm_compute; reflexivity]. intros a d. unfold balance, zget, demo_balances. cbn [db_balances].
  destruct (_ !! _) as [n|] eqn:Hn; [|done]. cbn.
  do 3 (apply lookup_insert_Some in Hn as [[_ <-]|[_ Hn]]; [lia|]).
  apply lookup_singleton_Some in Hn as [_ <-]. lia.
Qed.

Lemma demo_admits : admits demo_restrictions user_a user_b [base 30] demo_exemption.
Proof. split; [set_solver|done|by left|by left|by exists 50|done]. Qed.

Lemma demo_fits n : 0 <= n < 2 ^ 64 -> fits [base n].
Proof. intros Hn. by constructor. Qed.

(** An exempted transfer is admitted; one of 2^64 coins panics. *)
Lemma exempted_transfer :
  SendRestrictionFn demo_restrictions user_a user_b [base 30] = Ok user_b /\
  SendRestrictionFn demo_restrictions user_a user_b [base (2 ^ 64)] = Err Panicked.
Proof. by vm_compute. Qed.

(** Of two emergency transfers only the first goes through. *)
Definition demo_emergency : MsgExecuteEmergencyTransfer := MkEmergencyTransfer "e" "@a" "@b" "30" "ngonka".
Lemma emergency_uses_limited_witness :
  usage (restr_run [RvEmergency demo_emergency; RvEmergency demo_emergency] demo_restrictions) "e" "@a" = 1.
Proof.
  destruct (emergency_uses_limited [RvEmergency demo_emergency; RvEmergency demo_emergency] demo_restrictions "e" "@a" demo_exemption) as [Hu Hle];
    [done|unfold is_u64; cbn; lia|cbn; lia|].
  rewrite Hu. vm_compute. reflexivity.
Defined.

(** Three transfers under an exemption that may be used once. *)
Lemma exempt_sends_unmetered_witness : exists s', direct_sends user_a user_b [base 30] 3 demo_restrictions = (s', Ok tt) /\
  GetBalance (rs_bank s') user_b "ngonka" = 90.
Proof.
  destruct (exempt_sends_unmetered demo_restrictions user_a user_b [base 30] demo_exemption 3 demo_admits) as (s' & Hrun & _ & Hb);
    [apply demo_fits; lia|vm_compute; reflexivity|discriminate|exact demo_bank_ok| |].
  - intros d. cbn [Spendable demo_bank rs_bank demo_restrictions]. unfold base. rewrite amount_one. case_bool_decide as Hd; [subst d; vm_compute; discriminate|].
    pose proof (proj1 demo_bank_ok user_a d). lia.
  - exists s'. split; [exact Hrun|]. rewrite Hb. vm_compute. reflexivity.
Defined.

(* ------------------------------------------------------------------ *)
(** ** The journal *)

Definition demo_log : LogConfig := MkLogConfig true false "info".
Definition demo_calls : list BookCall :=
  [CallMint "inference" [base 500] "mint"; CallModuleToAccount "inference" user_a [base 70] "pay";
   CallAccountToModule user_a "streamvesting" [base 20] "lock"; CallSub "streamvesting" "@a" "vesting" (base 20) "held"; CallBurn "inference" [base 5] "burn"].

Lemma demo_supply : denotes "supply" = None.
Proof. vm_compute. reflexivity. Qed.

Lemma demo_named : Forall call_named demo_calls.
Proof.
  apply Forall_cons; split; [reflexivity|]. apply Forall_cons; split; [split; reflexivity|]. apply Forall_cons; split; [split; reflexivity|].
  apply Forall_cons; split; [split; [discriminate|split; reflexivity]|]. apply Forall_cons; split; [reflexivity|]. apply Forall_nil; exact I.
Qed.

Lemma journal_explains_balances_witness :
  exists s', mfold (fun _ x => book_call demo_log (restriction demo_restrictions) x) tt demo_calls (MkBook demo_balances []) = (s', Ok tt) /\
  GetBalance (bk_bank s') user_a "ngonka" = GetBalance demo_balances user_a "ngonka" + journal (fun x => bool_decide (denotes x = Some user_a)) "ngonka" (bk_log s').
Proof.
  destruct (mfold _ _ _ _) as [s' r] eqn:Hrun. assert (r = Ok tt) as -> by (apply (f_equal snd) in Hrun; vm_compute in Hrun; symmetry; exact Hrun).
  destruct (journal_explains_balances demo_log (restriction demo_restrictions) eq_refl demo_supply demo_calls _ s' Hrun demo_named) as (lines & Hl & Hacc).
  - unfold demo_calls. repeat apply List.Forall_cons; [..|apply List.Forall_nil]; vm_compute; reflexivity.
  - exists s'. split; [reflexivity|]. cbn [bk_log app bk_bank] in Hl, Hacc. rewrite Hl. apply (af_accounts _ _ _ Hacc user_a "ngonka").
Defined.

(* ------------------------------------------------------------------ *)
(** ** Vesting *)

(** User [a] is paid 3 and then 4 coins; rewards vest over three epochs. *)
Definition demo_epochs : list Coins := [[base 3]; [base 4]].
Definition demo_vesting : Vesting Bank := MkVesting {[ user_a := MkSchedule "@a" demo_epochs ]} (Some 3) (MkBook demo_balances []).

Lemma demo_total d : total demo_epochs d = if bool_decide ("ngonka" = d) then 7 else 0.
Proof. unfold total, demo_epochs, base. rewrite lsum_cons, lsum_one, !amount_one. destruct (decide ("ngonka" = d)) as [Hd|Hd];
  [rewrite !(bool_decide_eq_true_2 _ Hd)|rewrite !(bool_decide_eq_false_2 _ Hd)]; reflexivity. Qed.

Lemma demo_owed d : owed demo_vesting d = if bool_decide ("ngonka" = d) then 7 else 0.
Proof.
  unfold owed. cbn [VestingSchedules demo_vesting]. rewrite <-insert_empty, msum_insert by apply lookup_empty.
  rewrite msum_empty, Z.add_0_r. apply demo_total.
Qed.

Lemma demo_epochs_valid : Forall (fun cs => Coins_IsValid cs = true) demo_epochs.
Proof. repeat apply List.Forall_cons; [..|apply List.Forall_nil]; vm_compute; reflexivity. Qed.

Lemma demo_vest_ok : vest_ok demo_vesting.
Proof.
  split.
  - intros a sch. cbn [VestingSchedules demo_vesting]. intros [<- <-]%lookup_singleton_Some. split; [vm_compute; reflexivity|apply demo_epochs_valid].
  - intros d. unfold free. rewrite demo_owed. case_bool_decide as Hd; [subst d; vm_compute; discriminate|].
    pose proof (proj1 demo_bank_ok vest_addr d). cbn [GetBalance demo_bank]. change (bank_of demo_vesting) with demo_balances. lia.
  - intros d. rewrite demo_owed. case_bool_decide; lia.
  - exact demo_bank_ok.
  - vm_compute. reflexivity.
Qed.

Lemma demo_name : has_module vesting_ModuleName = true.
Proof. vm_compute. reflexivity. Qed.

Lemma demo_small n d : 0 <= n < 2 ^ 62 -> owed demo_vesting d + amount [base n] d < 2 ^ 63.
Proof. intros Hn. rewrite demo_owed. unfold base. rewrite amount_one. repeat case_bool_decide; lia. Qed.

(** 10 coins over 3 epochs, by either routine. *)
Lemma bundles_equal_rewards_witness : apply_bundles 3 [base 10] demo_epochs = add_rewards 3 [base 10] demo_epochs.
Proof.
  apply (bundles_equal_rewards 3 3 [base 10] demo_epochs); [reflexivity|unfold is_i64; lia|lia|exact demo_epochs_valid|vm_compute; reflexivity|].
  intros i d. pose proof (at_epoch_total demo_epochs i d demo_epochs_valid) as Ht. rewrite demo_total in Ht. unfold base. rewrite amount_one. apply small_int.
  repeat case_bool_decide; lia.
Defined.

(** The reward and what was scheduled before are paid after three epochs. *)
Lemma reward_paid_out_witness :
  exists s1 s', AddVestedRewards demo_log (restriction demo_restrictions) "@a" "inference" [base 10] None "reward" demo_vesting = (s1, Ok tt) /\
    advance_epochs demo_log (restriction demo_restrictions) [1; 2; 3] s1 = (s', Ok tt) /\ GetBalance (bank_of s') user_a "ngonka" = 217.
Proof.
  destruct (AddVestedRewards _ _ _ _ _ _ _ demo_vesting) as [s1 r] eqn:Hrun.
  assert (r = Ok tt) as -> by (apply (f_equal snd) in Hrun; vm_compute in Hrun; symmetry; exact Hrun). exists s1.
  destruct (reward_paid_out demo_log (restriction demo_restrictions) demo_name demo_vesting "@a" user_a "inference" [base 10] None "reward" s1 [1; 2; 3])
    as (s' & Hadv & _ & Hall); [exact demo_vest_ok|vm_compute; reflexivity|discriminate|intros d; apply demo_small; lia|change (0 <= 3 < 2 ^ 63); lia|
    vm_compute; reflexivity|vm_compute; reflexivity|discriminate|discriminate|exact Hrun|].
  exists s'. split; [reflexivity|]. split; [exact Hadv|]. destruct Hall as [_ Hb]; [vm_compute; lia|vm_compute; lia|]. rewrite Hb. vm_compute. reflexivity.
Defined.

(** Two outputs for one recipient, one for another. *)
Definition gonkas (n : Z) : Coins := [base (n * MinTransferNgonka)].
Definition demo_batch : MsgBatchTransferWithVesting :=
  MkBatchTransfer "@gov" [MkBatchOutput "@a" (gonkas 1); MkBatchOutput "@b" (gonkas 1); MkBatchOutput "@a" (gonkas 1)] 3.

Lemma demo_batch_ok : vest_event_ok (VvBatch demo_batch) demo_vesting.
Proof.
  split; [vm_compute; reflexivity|]. split; [cbn; lia|]. split; [vm_compute; discriminate|]. intros d. rewrite demo_owed.
  unfold outputs_sum, demo_batch, gonkas, base, MinTransferNgonka. cbn [bt_Outputs]. rewrite !lsum_cons. cbn [bo_Amount lsum foldr]. rewrite !amount_one.
  repeat case_bool_decide; lia.
Qed.

Lemma batch_vested_witness :
  exists s', BatchTransferWithVesting demo_log (restriction demo_restrictions) "@gov" demo_batch demo_vesting = (s', Ok tt) /\
    total (epochs_of s' user_a) "ngonka" = 20000000007.
Proof.
  destruct (BatchTransferWithVesting _ _ _ _ demo_vesting) as [s' r] eqn:Hrun.
  assert (r = Ok tt) as -> by (apply (f_equal snd) in Hrun; vm_compute in Hrun; symmetry; exact Hrun). exists s'. split; [reflexivity|].
  destruct (batch_vested demo_log (restriction demo_restrictions) "@gov" demo_name demo_vesting demo_batch s' demo_vest_ok demo_batch_ok Hrun) as (from & _ & Hb).
  rewrite (ba_schedules _ _ _ _ _ Hb). vm_compute. reflexivity.
Defined.

(** A batch, a reward and a completed epoch. *)
Lemma vesting_backed_witness :
  let apply := vest_apply demo_log (restriction demo_restrictions) "@gov" in
  let s' := apply (VvAdvance 11) (apply (VvBatch demo_batch) demo_vesting) in
  owed s' "ngonka" <= GetBalance (bank_of s') vest_addr "ngonka" /\ 5 <= free s' "ngonka".
Proof.
  cbv zeta. set (s' := vest_apply _ _ _ _ _).
  assert (vest_trace demo_log (restriction demo_restrictions) "@gov" [VvBatch demo_batch; VvAdvance 11] demo_vesting s') as Htr.
  { apply vest_cons; [exact demo_batch_ok|]. apply vest_cons; [exact I|]. apply vest_nil. }
  destruct (vesting_backed demo_log (restriction demo_restrictions) "@gov" demo_name _ demo_vesting s' demo_vest_ok Htr "ngonka") as [Hb Hf].
  split; [exact Hb|]. etransitivity; [|exact Hf]. vm_compute. discriminate.
Defined.

Lemma vesting_genesis_roundtrip_witness :
  exists s', vesting_InitGenesis (vesting_ExportGenesis demo_vesting) (MkVesting ∅ None (MkBook demo_balances [])) = (s', Ok tt) /\
    VestingSchedules s' = VestingSchedules demo_vesting.
Proof.
  destruct (vesting_genesis_roundtrip demo_vesting (MkVesting ∅ None (MkBook demo_balances []))) as (s' & Hrun & Hs & _);
    [intros a sch Hsch; apply (vo_schedules demo_vesting demo_vest_ok a sch Hsch)|reflexivity|]. exists s'. split; [exact Hrun|exact Hs].
Defined.
