(* ===== verification/DemoCollateral.v ===== *)
(** * A concrete chain with collateral

    The classes of the collateral module instantiated by small executable functions whose
    laws are proved: coins, decimals that are rationals, and a bank with the accounts of
    the inference module, the collateral module, governance and the users.  On it a
    participant withdraws, is slashed and loses its status; the theorems about collateral
    are applied to it ([.._witness]). *)

From Stdlib Require Import QArith Qabs Qround Lqa.
From stdpp Require Import pretty sorting.
From S2P Require Import Prelude.
From S2P Require Import GoStd.
From S2P Require Import ChainSettlement.
From S2P Require Import ChainSlots.
From S2P Require Import ChainStore.
From S2P Require Import ChainDecimal.
From S2P Require Import ChainState.
From S2P Require Import ChainCoins.
From S2P Require Import Collateral.
From S2P Require Import CollateralSpec.
From S2P Require Import CollateralTrace.
From S2P Require Import ChainStatus.
From S2P Require Import ChainCollateral.
From S2P Require Import ChainEscrow.
From S2P Require Import ChainEscrowSpec.
From S2P Require Import ChainPruning.
From S2P Require Import ChainTrace.
From S2P Require Import Rewards.
From S2P Require Import Settle.
From S2P Require Import SettleSpec.
From S2P Require Import SettleTrace.
From S2P Require Import WholeChain.
From S2P Require Import Demo.
From S2P Require Import DemoChain.
From S2P Require Import DemoCoins.

Open Scope Z_scope.
Open Scope go_scope.

(* ------------------------------------------------------------------ *)
(** ** The instances *)

#[export] Instance demo_address_laws : AccAddressLaws.
Proof.
  split. intros s a. cbn. case_bool_decide as Hs; [done|]. intros [= <-]. rewrite bytes_string_of.
  by rewrite bool_decide_eq_false_2 by done.
Qed.

#[export] Instance demo_legacy : LegacyDecLib := {|
  LegacyDec := Q; LegacyNewDecFromInt := inject_Z; ld_Add := Qplus; ld_Sub := Qminus; ld_Mul := Qmult; ld_MulInt64 := fun x n => (x * inject_Z n)%Q; ld_Quo := Qdiv;
  ld_Cmp := Qcompare; ld_TruncateInt := Qfloor
|}.
Lemma exact_near x : (Qabs (x - x) <= 1 # 10 ^ 18)%Q.
Proof.
  assert (0 <= 1 # 10 ^ 18)%Q as He by discriminate. revert He. generalize (1 # 10 ^ 18)%Q. intros e He.
  apply Qabs_Qle_condition. split; lra.
Qed.
#[export] Instance demo_legacy_laws : LegacyDecLaws.
Proof.
  exists (fun x : Q => x); cbn [LegacyDec LegacyNewDecFromInt ld_Add ld_Sub ld_Mul ld_MulInt64 ld_Quo ld_Cmp ld_TruncateInt demo_legacy]; try (intros; reflexivity).
  - intros x y. apply exact_near.
  - intros x y Hy. apply exact_near.
  - intros x y z Hy Hz. by apply Qle_shift_div_l.
  - intros x y z Hy Hz. by apply Qle_shift_div_r.
Defined.
#[export] Instance demo_parse : LegacyDecParse := {|
  LegacyNewDecFromDecimal := fun d => Some (Qred (inject_Z (dc_Value d) * inject_Z 10 ^ dc_Exponent d))
|}.

(** The bank of [DemoChain.v] with two more accounts. *)
Record Money := MkMoney { m_bank : World; m_collateral : Z; m_gov : Z }.
Definition in_bank (f : World -> World * outcome string unit) (w : Money) : Money * outcome string unit :=
  let '(b, r) := f (m_bank w) in (MkMoney b (m_collateral w) (m_gov w), r).

Definition gov_account : AccAddress := [1].
Definition collateral_account : AccAddress := [2].
Definition m_own (w : Money) (b : AccAddress) : Z :=
  (if bool_decide (b = gov_account) then m_gov w else 0) + (if bool_decide (b = collateral_account) then m_collateral w else 0).

#[export] Instance money_env : ChainEnv Money := {|
  ModuleAccount := demo_module;
  GovernanceAccount := gov_account;
  CollateralAccount := collateral_account;
  ModuleBalance := fun w => ModuleBalance (m_bank w);
  AccountBalance := fun w b => AccountBalance (m_bank w) b + m_own w b;
  SendCoinsFromModuleToAccount := fun a n => in_bank (SendCoinsFromModuleToAccount a n);
  SendCoinsFromAccountToModule := fun a n => in_bank (SendCoinsFromAccountToModule a n);
  AuthzGrants := fun _ _ _ => None;
  EpochGroupWeights := fun _ _ _ => Some [("a", 10); ("b", 5)];
  AppHashHex := fun _ => "c0ffee"
|}.
#[export] Instance money_env_laws : ChainEnvLaws Money.
Proof.
  split; cbn [SendCoinsFromModuleToAccount SendCoinsFromAccountToModule ModuleBalance AccountBalance money_env]; unfold in_bank; intros a n w w'.
  - intros Hn. destruct (SendCoinsFromModuleToAccount a n (m_bank w)) as [b r] eqn:Hs. intros [= <- ->].
    destruct (send_out a n _ b Hn Hs) as (H1 & H2 & H3). split; [exact H1|]. split; [exact H2|]. intros x Hx. cbn [m_bank]. pose proof (H3 x Hx) as Heq. cbn [AccountBalance demo_env] in Heq |- *. unfold m_own. cbn [m_gov m_collateral]. lia.
  - intros Hn. destruct (SendCoinsFromAccountToModule a n (m_bank w)) as [b r] eqn:Hs. intros [= <- ->].
    destruct (send_in a n _ b Hn Hs) as (H1 & H2). split; [exact H1|]. intros x Hx. cbn [m_bank]. pose proof (H2 x Hx) as Heq. cbn [AccountBalance demo_env] in Heq |- *. unfold m_own. cbn [m_gov m_collateral]. lia.
  - intros e. destruct (SendCoinsFromModuleToAccount a n (m_bank w)) as [b r] eqn:Hs. intros [= <- ->].
    destruct (send_out_failed a n _ b _ Hs) as (H1 & H2 & H3). split; [exact H1|]. split; [|exact H3]. intros x. pose proof (H2 x) as Heq. cbn [AccountBalance demo_env m_bank] in Heq |- *. unfold m_own. cbn [m_gov m_collateral]. lia.
Qed.

Definition credit (a : AccAddress) (n : Z) (b : World) : World :=
  MkWorld (w_module b) (<[a := zget 0 a (w_accounts b) + n]> (w_accounts b)).
#[export] Instance money_collateral : CollateralEnv Money := {|
  CollateralBalance := m_collateral; GovBalance := m_gov;
  UserBalance := fun w a => AccountBalance (m_bank w) a;
  coll_SendCoinsFromModuleToAccount := fun a x w =>
    if cn_Amount x <=? m_collateral w
    then (MkMoney (credit a (cn_Amount x) (m_bank w)) (m_collateral w - cn_Amount x) (m_gov w), Ok tt)
    else (w, Err "insufficient funds");
  coll_SendCoinsFromAccountToModule := fun a x w =>
    if cn_Amount x <=? AccountBalance (m_bank w) a
    then (MkMoney (credit a (- cn_Amount x) (m_bank w)) (m_collateral w + cn_Amount x) (m_gov w), Ok tt)
    else (w, Err "insufficient funds");
  coll_SendCoinsFromModuleToGov := fun x w =>
    if (0 <=? cn_Amount x) && (cn_Amount x <=? m_collateral w)
    then (MkMoney (m_bank w) (m_collateral w - cn_Amount x) (m_gov w + cn_Amount x), Ok tt)
    else (w, Err "insufficient funds");
  GetRequiredCollateralForSlash := fun _ _ => 0;
  IsParticipantInActiveMaintenance := fun _ _ => false;
  Payable := fun _ => True
|}.

Lemma credit_balance a n b c : AccountBalance (credit a n b) c = AccountBalance b c + if bool_decide (c = a) then n else 0.
Proof. cbn. case_bool_decide as Hc; [subst c; by rewrite zget_insert_eq|rewrite zget_insert_ne by done; lia]. Qed.
#[export] Instance money_collateral_laws : CollateralEnvLaws Money.
Proof.
  split; cbn [coll_SendCoinsFromModuleToAccount coll_SendCoinsFromAccountToModule coll_SendCoinsFromModuleToGov
    CollateralBalance GovBalance UserBalance money_collateral cn_Amount base].
  - intros a n w Hn _. replace (n <=? m_collateral w) with true by lia. eexists. do 3 (split; [reflexivity|]). intros b. apply credit_balance.
  - intros a n w w' Hn _. destruct (n <=? _); [|discriminate]. intros [= <-]. do 2 (split; [reflexivity|]). intros b.
    cbn [m_bank]. rewrite credit_balance. case_bool_decide; lia.
  - intros n w Hn. replace ((0 <=? n) && (n <=? m_collateral w)) with true by (symmetry; apply andb_true_intro; lia). eexists. do 3 (split; [reflexivity|]). done.
Qed.

#[export] Instance money_status_env : StatusEnv Money := {|
  ValidationParamsOf := fun w => ValidationParamsOf (m_bank w);
  ConfirmationPoCParamsOf := fun w => ConfirmationPoCParamsOf (m_bank w);
  GetPrecomputedSPRTValues := fun w => GetPrecomputedSPRTValues (m_bank w);
  BlockHeight := fun w => BlockHeight (m_bank w);
  removeFromEpochGroups := fun _ w => (w, Ok tt)
|}.
#[export] Instance money_status_env_laws : StatusEnvLaws Money.
Proof. split. by intros p w w' r [= <- _]. Qed.
#[export] Instance money_frame : CollateralFrameLaws Money.
Proof.
  split.
  - intros x w w' r. cbn [coll_SendCoinsFromModuleToGov money_collateral]. destruct (_ && _) eqn:Hx; [|intros [= <- _]; reflexivity]. boolify.
    intros [= <- _]. exists (cn_Amount x). split; [lia|]. split; [done|]. intros b. unfold slashed_at. cbn [AccountBalance GovernanceAccount CollateralAccount money_env m_bank].
    unfold m_own. cbn [m_gov m_collateral]. destruct (bool_decide (b = gov_account)), (bool_decide (b = collateral_account)); lia.
  - by intros p w w' r [= <- _].
Qed.

(** Rewards: minted to the module, paid to governance; nothing vests on this bank. *)
Definition set_module (n : Z) (w : Money) : Money := MkMoney (MkWorld n (w_accounts (m_bank w))) (m_collateral w) (m_gov w).
#[export] Instance money_rewards : RewardBank Money := {|
  VestedBalance := fun _ _ => 0;
  MintRewards := fun n w => (set_module (w_module (m_bank w) + n) w, Ok tt);
  SendCoinsToGovernance := fun n w =>
    if n <=? w_module (m_bank w)
    then (MkMoney (MkWorld (w_module (m_bank w) - n) (w_accounts (m_bank w))) (m_collateral w) (m_gov w + n), Ok tt)
    else (w, Err "insufficient funds");
  VestRewards := fun _ _ _ w => (w, Err "vesting is not available");
  ErrInsufficientFunds := fun e => bool_decide (e = "insufficient funds")
|}.
#[export] Instance money_reward_laws : RewardBankLaws Money.
Proof.
  exists [3]; cbn [MintRewards SendCoinsToGovernance VestRewards VestedBalance ModuleBalance AccountBalance ModuleAccount GovernanceAccount money_rewards money_env demo_env].
  - intros n w w' Hn [= <-]. done.
  - intros n w Hn. replace (n <=? w_module (m_bank w)) with true by lia. eexists. split; [reflexivity|]. split; [reflexivity|].
    intros a _. unfold m_own. cbn [m_bank m_gov m_collateral w_accounts]. destruct (bool_decide (a = gov_account)); lia.
  - done.
  - done.
Qed.
#[export] Instance money_settle_env : SettleEnv Money := {|
  SettleParamsOf := fun _ => None; BlockHeightOf := fun _ => 1000; ActiveParticipantsOf := fun _ _ => None;
  GetEpochGroupData := fun _ _ _ => None; GetAllEpochGroupData := fun _ => []; DelegationSnapshot := fun _ => None;
  PunishmentGraceEpoch := fun _ _ => None; GetGenesisOnlyParams := fun _ => None; NormalizeCoin := fun x => x;
  MaintenanceReservations := fun _ _ => None; EpochStart := fun _ _ => None
|}.
#[export] Instance money_separate : SeparateAccounts Money.
Proof.
  split; cbn [SendCoinsFromModuleToAccount SendCoinsFromAccountToModule money_env]; unfold in_bank.
  - intros a n w w' r. destruct (SendCoinsFromModuleToAccount a n (m_bank w)). by intros [= <- _].
  - intros a n w w' r _. destruct (SendCoinsFromAccountToModule a n (m_bank w)). by intros [= <- _].
  - by intros n w w' r [= <- _].
  - intros n w w' r. cbn. destruct (n <=? _); by intros [= <- _].
  - by intros a n e w w' r [= <- _].
  - intros a x w w' r. cbn. destruct (cn_Amount x <=? m_collateral w); by intros [= <- _].
  - intros a x w w' r _. cbn. destruct (cn_Amount x <=? _); by intros [= <- _].
Qed.

(** A fifth is slashed for invalid inferences, a tenth for downtime; a fifth of the
    weight needs no collateral, the rest costs two coins per unit. *)
Definition demo_collateral_params : CollateralParams :=
  MkCollateralParams (MkDecimal 2 (-1)) (MkDecimal 1 (-1)) 1 (MkDecimal 2 (-1)) (MkDecimal 2 0).
#[export] Instance money_params : CollateralParamsEnv Money := {|
  CollateralParamsOf := fun _ => Some demo_collateral_params;
  EpochIndexOf := fun _ i => if i <=? 3 then Some i else None
|}.

(* ------------------------------------------------------------------ *)
(** ** The collateral module *)

(** In epoch 5 participant [a] has 100 coins active and 40 that unbond after epoch 6,
    participant [b] has 3. *)
Definition addr_a : AccAddress := string_bytes "a".
Definition addr_b : AccAddress := string_bytes "b".
Definition demo_coll : Collateral Money :=
  MkCollateral {[addr_a := base 100; addr_b := base 3]} {[(6, addr_a) := MkUnbonding "a" 6 (base 40)]} (Some 5) {[addr_b]} ∅ (Some 2)
    (MkMoney (MkWorld 2000 {[addr_a := 500]}) 150 0).

Lemma demo_holder s : s <> "" -> holder (string_bytes s).
Proof. intros Hs. split; [|done]. unfold printable. cbn. rewrite bytes_string_of. by rewrite bool_decide_eq_false_2 by done. Qed.

Lemma demo_coll_ok : coll_ok demo_coll.
Proof.
  split.
  - intros a x. cbn [CollateralMap demo_coll]. intros [[<- <-]|[_ [<- <-]%lookup_singleton_Some]]%lookup_insert_Some;
      eexists; (split; [reflexivity|]); (split; [lia|]); by apply demo_holder.
  - intros e a u. cbn [UnbondingIM demo_coll]. intros [[= <- <-] <-]%lookup_singleton_Some. eexists.
    split; [reflexivity|]. split; [lia|]. split; [unfold is_u64; lia|]. by apply demo_holder.
  - intros a. cbn [Jailed demo_coll]. rewrite elem_of_singleton. intros ->. by apply demo_holder.
  - vm_compute. discriminate.
  - vm_compute. reflexivity.
Qed.

(** A slash and a completed epoch. *)
Lemma collateral_backed_witness :
  let c' := coll_apply (EvAdvance 6) (coll_apply (EvSlash addr_a (1 # 2)%Q "invalidation" 0) demo_coll) in
  held c' <= CollateralBalance (coll_World c') /\ 7 <= spare c'.
Proof.
  assert (coll_trace [EvSlash addr_a (1 # 2)%Q "invalidation" 0; EvAdvance 6] demo_coll
    (coll_apply (EvAdvance 6) (coll_apply (EvSlash addr_a (1 # 2)%Q "invalidation" 0) demo_coll))) as Htr.
  { apply trace_cons; [exact I|]. apply trace_cons; [unfold event_ok, is_u64; lia|]. apply trace_nil. }
  destruct (collateral_backed _ demo_coll _ demo_coll_ok Htr) as (H1 & _ & H2).
  split; [exact H1|]. change (spare demo_coll) with 7 in H2. lia.
Defined.

Definition half : LegacyDec := (1 # 2)%Q.
Definition third : LegacyDec := (1 # 3)%Q.
Definition fifth : LegacyDec := (1 # 5)%Q.
Definition two : LegacyDec := (2 # 1)%Q.

(** Half of everything: 50 active and 20 unbonding coins. *)
Lemma half_taken : taken (ld_val (effective_fraction half 0 (total_of demo_coll addr_a))) demo_coll addr_a = 70.
Proof. reflexivity. Qed.

Lemma not_slashed : ~ already_slashed demo_coll addr_a "invalidation".
Proof. intros [_ Hin]. cbn [SlashedInEpoch demo_coll] in Hin. by apply not_elem_of_empty in Hin. Qed.

Lemma slash_exact_witness :
  match Slash addr_a half "invalidation" 0 demo_coll with
  | (c', Ok x) => coll_ok c' /\ exists q, x = base (taken q demo_coll addr_a) /\ slashed demo_coll addr_a "invalidation" q c' /\ (q == 1 # 2)%Q
  | (c', Err _) => False
  end.
Proof.
  pose proof (slash_exact demo_coll addr_a half "invalidation" 0 demo_coll_ok) as H.
  destruct (Slash _ _ _ _ _) as [c' [x|err]].
  - destruct H as (_ & _ & Hok & q & Hx & Hs & Hc). split; [exact Hok|]. exists q. split; [exact Hx|]. split; [exact Hs|].
    apply (cg_plain _ _ _ _ _ Hc). left. reflexivity.
  - destruct H as [_ [Hf|Hal]]; [apply Hf; split; discriminate|exact (not_slashed Hal)].
Defined.

Lemma slashed_once_witness : exists c1 err,
  Slash addr_a half "invalidation" 0 demo_coll = (c1, Ok (base 70)) /\
  Slash addr_a third "invalidation" 0 c1 = (c1, Err err).
Proof.
  pose proof (slash_run demo_coll addr_a half "invalidation" 0 demo_coll_ok) as Hs. cbv zeta in Hs.
  destruct (Slash addr_a half "invalidation" 0 demo_coll) as [c1 [x|err]] eqn:Hrun.
  - destruct Hs as (_ & _ & -> & Hs). rewrite half_taken in *. exists c1.
    destruct (slashed_once demo_coll addr_a half "invalidation" 0 c1 (base 70) [] c1 third 0 demo_coll_ok Hrun) as [err Herr];
      [discriminate|reflexivity|apply trace_nil|exact (sl_epoch _ _ _ _ _ Hs)|].
    exists err. split; [reflexivity|exact Herr].
  - exfalso. destruct Hs as [_ [Hf|Hal]]; [apply Hf; split; discriminate|exact (not_slashed Hal)].
Defined.

(** 30 coins leave for epoch 7; epoch 6 completes first. *)
Definition demo_withdraw : MsgWithdrawCollateral := MkWithdraw "a" (base 30).
Lemma demo_withdraw_valid : withdraw_ValidateBasic demo_withdraw = Ok tt.
Proof. vm_compute. reflexivity. Qed.
Lemma withdrawal_paid_witness : exists c1 c3,
  WithdrawCollateral demo_withdraw demo_coll = (c1, Ok 7) /\
  AdvanceEpoch 7 (coll_apply (EvAdvance 6) c1) = (c3, Ok tt) /\
  UserBalance (coll_World (coll_apply (EvAdvance 6) c1)) addr_a + 30 <= UserBalance (coll_World c3) addr_a.
Proof.
  assert ((WithdrawCollateral demo_withdraw demo_coll).2 = Ok 7) as Hr by reflexivity.
  destruct (WithdrawCollateral demo_withdraw demo_coll) as [c1 r] eqn:Hrun. cbn in Hr. subst r. exists c1.
  assert (coll_trace [EvAdvance 6] c1 (coll_apply (EvAdvance 6) c1)) as Htr.
  { apply trace_cons; [unfold event_ok, is_u64; lia|apply trace_nil]. }
  destruct (withdrawal_paid demo_coll demo_withdraw addr_a c1 7 [EvAdvance 6] _ demo_coll_ok demo_withdraw_valid eq_refl Hrun Htr) as (_ & _ & c3 & Hadv & _ & Hpaid).
  { constructor; [cbn; lia|constructor]. }
  exists c3. split; [reflexivity|]. split; [exact Hadv|exact Hpaid].
Defined.

(** Imported, then slashed: the withdrawal is still refused. *)
Lemma genesis_roundtrip_witness : exists gs c', ExportGenesis demo_coll = Some gs /\
  InitGenesis gs (empty_store (coll_World demo_coll)) = (c', Ok tt) /\
  forall c2 e, WithdrawCollateral demo_withdraw (coll_apply (EvSlash addr_a half "invalidation" 0) c') <> (c2, Ok e).
Proof.
  destruct (ExportGenesis demo_coll) as [gs|] eqn:Hex; [|discriminate].
  destruct (genesis_roundtrip demo_coll gs (coll_World demo_coll) demo_coll_ok Hex) as (c' & Hinit & _ & Hno).
  exists gs, c'. split; [reflexivity|]. split; [exact Hinit|]. intros c2 e. apply (Hno [EvSlash addr_a half "invalidation" 0]).
  - apply trace_cons; [exact I|apply trace_nil].
  - constructor; [exact (fun H => H)|constructor].
Defined.

(* ------------------------------------------------------------------ *)
(** ** The whole chain *)

(** Epoch 3: participant [a] is about to fail its fourth inference in a row. *)
Definition member (failures : Z) (stats : CurrentEpochStats) : Participant :=
  MkParticipant "a" "a" 0 0 0 0 "" Participant_ACTIVE 100 "" failures "" 10 (Some stats).
Definition demo_whole : Chain (Collateral Money) :=
  MkChain ∅ ∅ ∅ None ∅ {[addr_a := member 3 NewCurrentEpochStats]} {[(3, addr_a)]} ∅ ∅ ∅ (Some 3) (Some (Some demo_params))
    (Some (MkPruningState 0 0)) demo_coll.

Lemma demo_whole_chain : chain_ok demo_whole /\ claims_ok demo_whole.
Proof.
  split.
  - split.
    + intros a p. cbn [Participants demo_whole]. intros [<- <-]%lookup_singleton_Some. split; [reflexivity|cbn; lia].
    + intros id e. cbn [DevshardEscrows demo_whole]. by rewrite lookup_empty.
    + intros id [e He]. cbn [DevshardEscrows demo_whole] in He. by rewrite lookup_empty in He.
    + intros epoch id. cbn [DevshardEscrows DevshardEscrowsByEpoch demo_whole]. rewrite elem_of_empty. split; [done|].
      intros (e & He & _). by rewrite lookup_empty in He.
    + vm_compute. discriminate.
  - intros a e. cbn [ClaimRecipients ClaimRecipientsByEpoch demo_whole]. rewrite elem_of_empty. split; [done|].
    intros [r Hr]. by rewrite lookup_empty in Hr.
Qed.

(** An amount of 50 coins is unclaimed, and other parts of the chain hold 100 coins. *)
Definition demo_books : Treasury (Collateral Money) * Z :=
  (MkTreasury demo_whole {[addr_a := MkSettleAmount "a" 50 0 2 "" 2]} None ∅ ∅, 100).

Lemma demo_books_inv : whole_inv demo_books.
Proof.
  split; [|exact demo_coll_ok]. split; [|split; [exact (proj2 demo_whole_chain)|vm_compute; split; discriminate]].
  split; [exact (proj1 demo_whole_chain)| |vm_compute; discriminate].
  intros a sa. cbn [SettleAmounts demo_books fst]. intros [<- <-]%lookup_singleton_Some. by split.
Qed.

(** Participant [a] keeps its weight, [b] can only pay for a part of it. *)
Lemma weights_adjusted_witness : exists p q,
  AdjustWeightsByCollateral demo_whole [MkActive "a" 10; MkActive "b" 5] = Ok [p; q] /\ ap_Weight p = 10 /\ 1 <= ap_Weight q <= 5.
Proof.
  destruct (weights_adjusted demo_whole demo_collateral_params 3 fifth two [MkActive "a" 10; MkActive "b" 5] demo_coll_ok)
    as (ps & Hrun & _ & Hadj); [reflexivity|reflexivity|reflexivity|reflexivity|split; discriminate|discriminate|repeat constructor; cbn; lia|].
  specialize (Hadj ltac:(reflexivity)). inversion Hadj as [|x p l l' [_ Hp] Hrest]; subst.
  inversion Hrest as [|x q l0 l0' [_ Hq] Hnil]; subst. inversion Hnil; subst.
  exists p, q. split; [exact Hrun|]. split.
  - apply (wb_full _ _ _ _ _ Hp); [reflexivity|discriminate].
  - apply (wb_range _ _ _ _ _ Hq).
Defined.

Definition member_failing : Participant := member 4 (MkEpochStats 5 0 0 0 0 0 4 None None None).
Lemma member_fails : exists c' p', UpdateParticipantStatus member_failing demo_whole = (c', Ok p') /\ pp_Status p' = Participant_INVALID.
Proof.
  assert (exists p', (UpdateParticipantStatus member_failing demo_whole).2 = Ok p' /\ pp_Status p' = Participant_INVALID) as (p' & Hr & Hst)
    by (eexists; split; [vm_compute; reflexivity|reflexivity]).
  destruct (UpdateParticipantStatus member_failing demo_whole) as [c' r]. cbn in Hr. subst r. by exists c', p'.
Qed.

(** It required 16 coins for the weight of 10 and has 140: a fifth of the 16 goes. *)
Lemma bad_status_slashes_witness : exists c' p' q,
  UpdateParticipantStatus member_failing demo_whole = (c', Ok p') /\ coll_ok (ch_World c') /\
  slashed demo_coll addr_a "invalidation" q (ch_World c') /\ charged demo_coll addr_a fifth 16 q.
Proof.
  destruct member_fails as (c' & p' & Hrun & Hst).
  destruct (bad_status_slashes member_failing demo_whole c' p' demo_coll_ok Hrun) as (Hok & _ & Hs).
  rewrite Hst in Hs.
  destruct (Hs cp_SlashFractionInvalid SlashReasonInvalidation demo_collateral_params addr_a fifth) as (q & Hq & Hc);
    [discriminate|reflexivity|reflexivity|reflexivity|reflexivity|split; discriminate|exact not_slashed|].
  exists c', p', q. split; [exact Hrun|]. split; [exact Hok|]. split; [exact Hq|exact Hc].
Defined.

(** The other parts spend 60 of their coins, an epoch completes, and a claim recipient is set. *)
Definition spent_books : Treasury (Collateral Money) * Z :=
  (on_coll (set_coll_World (set_module 1940 (coll_World demo_coll)) demo_coll) demo_books.1, 40).
Lemma demo_spent : whole_step demo_sort demo_books spent_books.
Proof.
  apply (whole_other _ _ _ (set_module 1940 (coll_World demo_coll))); [|reflexivity|cbn; lia].
  split; try done. exact (co_participant _ (proj1 demo_whole_chain)).
Qed.

Lemma whole_chain_solvent_witness : exists s',
  rtc (whole_step demo_sort) demo_books s' /\ s'.2 = 40 /\
  locked (tr_Chain s'.1) + owed (tr_Chain s'.1) + unclaimed s'.1 + 40 <= ModuleBalance (world s'.1) /\
  held (world s'.1) <= CollateralBalance (coll_World (world s'.1)).
Proof.
  set (l1 := on_coll (coll_apply (EvAdvance 6) (world spent_books.1)) spent_books.1).
  set (l2 := set_Chain (deliver (SetClaimRecipients (MkMsgClaims "a" [MkClaimEntry 5 "b"])) (tr_Chain l1)) l1).
  assert (rtc (whole_step demo_sort) demo_books (l2, 40)) as Hr.
  { apply (rtc_l _ _ spent_books); [exact demo_spent|]. apply (rtc_l _ _ (l1, 40)).
    { apply (whole_collateral _ spent_books.1 40 (EvAdvance 6)); [unfold event_ok, is_u64; lia|discriminate]. }
    apply rtc_once, whole_own, own_module, step_claims. split.
    - intros cur [= <-]. unfold epoch_small. lia.
    - eexists. split; [reflexivity|]. unfold epoch_small. cbn. lia. }
  exists (l2, 40). split; [exact Hr|]. split; [reflexivity|].
  destruct (whole_chain_solvent demo_sort demo_books (l2, 40) demo_sorts demo_books_inv Hr) as (H1 & H2 & _). split; [exact H1|exact H2].
Defined.
