(* ===== verification/DemoRewards.v ===== *)
(** * The rewards of a small epoch

    The division of a reward, the caps and the test for missed requests on concrete
    values: the hypotheses of the theorems on rewards hold together. *)

From Stdlib Require Import QArith.
From stdpp Require Import sorting.
From S2P Require Import Prelude.
From S2P Require Import GoStd.
From S2P Require Import ChainStore.
From S2P Require Import ChainDecimal.
From S2P Require Import ChainStats.
From S2P Require Import ChainState.
From S2P Require Import PowerCap.
From S2P Require Import ChainCoins.
From S2P Require Import Rewards.
From S2P Require Import RewardsSpec.
From S2P Require Import RewardsWeights.
From S2P Require Import DemoChain.
From S2P Require Import DemoCollateral.
Open Scope Z_scope.
Open Scope go_scope.

(* ------------------------------------------------------------------ *)
(** ** Caps and tests *)

Definition miners : list ActiveParticipant := [MkActive "a" 800; MkActive "b" 100; MkActive "c" 60; MkActive "d" 40].

Lemma power_cap_optimal_witness :
  let '(ps, wasCapped) := ApplyPowerCappingForWeights miners in
  within_share ps /\
  if wasCapped : bool then exists limit, ps = cut limit <$> miners /\ optimal (tenths (Z.of_nat (length (positive_weights miners)))) (positive_weights miners) limit
  else ps = miners.
Proof.
  apply power_cap_optimal; [by vm_compute|].
  change (positive_weights miners) with [800; 100; 60; 40]. cbn [length]. repeat (constructor; [lia|]). constructor.
Defined.
(** The two largest participants are cut to 30% of the power that is left. *)
Lemma miners_capped : ApplyPowerCappingForWeights miners = ([MkActive "a" 75; MkActive "b" 75; MkActive "c" 60; MkActive "d" 40], true).
Proof. vm_compute. reflexivity. Qed.

Lemma missed_test_monotone_witness :
  (60 <= maxTableN \/ maxTableN < 50 -> MissedStatTestLookupWithP0 2 60 100 = Some true) /\
  MissedStatTestLookupWithP0 114 990 100 = Some true /\ MissedStatTestLookupWithP0 100 991 100 = Some false.
Proof. apply (missed_test_monotone 3 50 2 60 100); first [lia | vm_compute; reflexivity]. Defined.

(* ------------------------------------------------------------------ *)
(** ** An epoch *)

Definition served : CurrentEpochStats := MkEpochStats 90 10 0 0 0 0 0 None None None.
Definition miner (a : string) (status : ParticipantStatus) (balance : Z) : Participant :=
  MkParticipant a a 0 0 0 0 "" status balance "" 0 "" 0 (Some served).
Definition epoch_miners : list Participant :=
  [miner "a" Participant_ACTIVE 500; miner "b" Participant_ACTIVE (-30); miner "c" Participant_INVALID 70; miner "d" Participant_ACTIVE 0].
Definition epoch_data : EpochGroupData :=
  MkEpochGroup 3 "" [MkValidationWeight "a" 400 300 []; MkValidationWeight "b" 300 300 []; MkValidationWeight "c" 200 200 []; MkValidationWeight "d" 100 100 []] [] [].
Definition epoch_params (initial : Z) : BitcoinRewardParams := MkBitcoinParams true initial None 1.
Definition tenth : option Decimal := Some (MkDecimal 1 (-1)).
Definition epoch_transfers : list (option DelegationRewardTransfer) := [Some (MkRewardTransfer "b" "d" tenth)].
Definition epoch_penalties : list (option DelegationRewardPenalty) := [Some (MkRewardPenalty "a" tenth)].

Lemma epoch_inputs : inputs_ok epoch_miners epoch_data ∅ epoch_transfers epoch_penalties.
Proof.
  split; [discriminate| | | | |by vm_compute| | |].
  - apply (bool_decide_unpack _). by vm_compute.
  - repeat (constructor; [exists served; by vm_compute|]). constructor.
  - repeat (constructor; [by vm_compute|]). constructor.
  - repeat (constructor; [by vm_compute|]). constructor.
  - intros p _. exists 0. unfold zget. by rewrite lookup_empty.
  - intros t [= ->]%list_elem_of_singleton. intros d x [= <-] [= <-]. by vm_compute.
  - intros t [= ->]%list_elem_of_singleton. intros d x [= <-] [= <-]. by vm_compute.
Qed.

(** The same epoch with weights that nodes have to confirm: half of what they show for
    model [m] counts, and nothing for model [n]. *)
Definition scaled_data : EpochGroupData :=
  MkEpochGroup 3 "" (eg_ValidationWeights epoch_data) [Some (MkWeightScale "m" (Some (MkDecimal 5 (-1)))); None] [].
Definition scaled_nodes : NodesOf :=
  {["a" := {["m" := [Some (MkMLNode 500); None; Some (MkMLNode 300)]; "n" := [Some (MkMLNode 70)]]};
    "b" := {["m" := [Some (MkMLNode 700)]]}; "d" := {["m" := [Some (MkMLNode 200)]]}]}.

Lemma scaled_lookup a model l : zget ∅ a scaled_nodes !! model = Some l -> (forall n, Some n ∈ l -> 0 <= ml_PocWeight n) /\ nodes_weight l < 2 ^ 63.
Proof.
  assert (map_Forall (fun _ ms => map_Forall (fun _ l => Forall (fun o => 0 <= from_option ml_PocWeight 0 o) l /\ nodes_weight l < 2 ^ 63) ms) scaled_nodes) as Hall
    by (apply (bool_decide_unpack _); by vm_compute).
  unfold zget. destruct (scaled_nodes !! a) as [ms|] eqn:Ha; cbn [from_option id]; [|by rewrite lookup_empty].
  intros Hl. destruct (Hall a ms Ha model l Hl) as [Hf Hs]. split; [|exact Hs]. intros n Hn. rewrite Forall_forall in Hf. exact (Hf (Some n) Hn).
Qed.

Lemma scaled_inputs : inputs_typed epoch_miners scaled_data scaled_nodes epoch_transfers epoch_penalties.
Proof.
  destruct epoch_inputs as [Hne Hnd Hst Hbal Hw Htot _ Htr Hpe]. split; [exact Hne|exact Hnd|exact Hst|by vm_compute|exact Hbal|exact Hw|exact Htot| | | | | | |exact Htr|exact Hpe].
  - apply Forall_forall. repeat (constructor; [by vm_compute|]). constructor.
  - apply Forall_forall. repeat (constructor; [by vm_compute|]). constructor.
  - intros s Hs. cbn [eg_ConfirmationWeightScales scaled_data] in Hs. apply elem_of_cons in Hs as [[= ->]|[=]%list_elem_of_singleton]. by vm_compute.
  - intros p model l n _ Hl. by apply (scaled_lookup _ _ _ Hl).
  - intros p model l _ Hl. by apply (scaled_lookup _ _ _ Hl).
  - apply Forall_forall. repeat (constructor; [by vm_compute|]). constructor.
Qed.

Lemma rewards_divided_witness :
  exists cap results b, is_cap [300; 257; 0; 100] cap /\
    CalculateParticipantBitcoinRewardsWithTransfers epoch_miners scaled_data (epoch_params 1000) tenth scaled_nodes epoch_transfers epoch_penalties = Ok (results, b) /\
    results = share_result scaled_data (final_weight epoch_miners scaled_data scaled_nodes tenth epoch_transfers epoch_penalties cap) 1000 1000 <$> epoch_miners.
Proof.
  destruct (rewards_divided epoch_miners scaled_data (epoch_params 1000) tenth scaled_nodes epoch_transfers epoch_penalties scaled_inputs) as (cap & results & b & Hcap & Hrun & Hres & _); [by vm_compute|].
  exists cap, results, b. split; [exact Hcap|]. split; [exact Hrun|exact Hres].
Defined.

(** Participants [a] and [b] are cut from 300 and 257 to 200, [a] is fined 20 of it, [b] has
    20 moved to [d] and pays its debt of 30. *)
Lemma scaled_example :
  match CalculateParticipantBitcoinRewardsWithTransfers epoch_miners scaled_data (epoch_params 1000) tenth scaled_nodes epoch_transfers epoch_penalties with
  | Ok (rs, b) => Some (sr_RewardWeight <$> rs, (fun r => sa_RewardCoins (sr_Settle r)) <$> rs, bt_GovernanceAmount b)
  | _ => None
  end = Some ([180; 180; 0; 120], [180; 150; 0; 120], 550).
Proof. vm_compute. reflexivity. Qed.

Lemma rewards_at_supply_limit_witness :
  exists rs0 b0 rs b, divided epoch_miners epoch_data (fixed_reward epoch_data (epoch_params 1000)) rs0 b0 /\
    GetBitcoinSettleAmountsWithTransfers epoch_miners epoch_data (epoch_params 1000) tenth (MkSettleParameters 9700 10000) ∅ epoch_transfers epoch_penalties = Ok (rs, b) /\
    supplied 9700 10000 (fixed_reward epoch_data (epoch_params 1000)) rs0 b0 rs b.
Proof. apply (rewards_at_supply_limit epoch_miners epoch_data (epoch_params 1000) tenth (MkSettleParameters 9700 10000)); [exact epoch_inputs| | |]; by vm_compute. Defined.

Lemma emission_bounded_witness :
  (forall e, (S e < 1000)%nat -> reward_at 285000 (Z.of_nat (S e)) <= reward_at 285000 (Z.of_nat e) <= 285000) /\
  lsum (fun e => reward_at 285000 (Z.of_nat e)) (seq 0 1000) <= 2106 * 285000.
Proof. apply emission_bounded; lia. Defined.

(** 300 coins are left to mint; the miners and governance are given 850. *)
Lemma limit_example :
  match GetBitcoinSettleAmountsWithTransfers epoch_miners epoch_data (epoch_params 1000) tenth (MkSettleParameters 9700 10000) ∅ epoch_transfers epoch_penalties with
  | Ok (rs, b) => Some ((fun r => sa_RewardCoins (sr_Settle r)) <$> rs, bt_Amount b, bt_GovernanceAmount b)
  | _ => None
  end = Some ([54; 45; 0; 36], 300, 715).
Proof. vm_compute. reflexivity. Qed.
