(* ===== verification/DemoSettle.v ===== *)
(** * The settlement of a small epoch and its claims

    A bank that mints, pays governance and vests, and a treasury on it: epoch 3 is
    settled, the chain moves to epoch 4, and a participant claims.  The theorems on
    settlements and claims are applied to it. *)

From Stdlib Require Import QArith.
From stdpp Require Import sorting.
From S2P Require Import Prelude.
From S2P Require Import GoStd.
From S2P Require Import ChainStore.
From S2P Require Import ChainDecimal.
From S2P Require Import ChainState.
From S2P Require Import ChainCoins.
From S2P Require Import Rewards.
From S2P Require Import RewardsSpec.
From S2P Require Import ChainStatus.
From S2P Require Import ChainEscrow.
From S2P Require Import ChainEscrowSpec.
From S2P Require Import ChainTrace.
From S2P Require Import Settle.
From S2P Require Import SettleSpec.
From S2P Require Import SettleTrace.
From S2P Require Import Demo.
From S2P Require Import DemoChain.
From S2P Require Import DemoCoins.
From S2P Require Import DemoCollateral.
From S2P Require Import DemoRewards.
Open Scope Z_scope.
Open Scope go_scope.

(* ------------------------------------------------------------------ *)
(** ** The instances *)

(** The bank of [DemoChain.v], with vested coins beside the accounts. *)
Record Vault := MkVault { vt_bank : World; vt_vested : gmap AccAddress Z }.
Definition in_vault (f : World -> World * outcome string unit) (w : Vault) : Vault * outcome string unit :=
  let '(b, r) := f (vt_bank w) in (MkVault b (vt_vested w), r).
Definition vault_gov : AccAddress := [1].
Definition vault_vesting : AccAddress := [2].
Definition vault_collateral : AccAddress := [3].
#[export] Instance vault_env : ChainEnv Vault := {|
  ModuleAccount := demo_module;
  GovernanceAccount := vault_gov;
  CollateralAccount := vault_collateral;
  ModuleBalance := fun w => ModuleBalance (vt_bank w);
  AccountBalance := fun w => AccountBalance (vt_bank w);
  SendCoinsFromModuleToAccount := fun a n => in_vault (SendCoinsFromModuleToAccount a n);
  SendCoinsFromAccountToModule := fun a n => in_vault (SendCoinsFromAccountToModule a n);
  AuthzGrants := fun _ _ _ => None;
  EpochGroupWeights := fun _ _ _ => Some [("a", 10); ("b", 5)];
  AppHashHex := fun _ => "c0ffee"
|}.
#[export] Instance vault_env_laws : ChainEnvLaws Vault.
Proof.
  split; cbn [SendCoinsFromModuleToAccount SendCoinsFromAccountToModule ModuleBalance AccountBalance vault_env]; unfold in_vault; intros a n w w'.
  - intros Hn. destruct (SendCoinsFromModuleToAccount a n (vt_bank w)) as [b r] eqn:Hs. intros [= <- ->]. exact (send_out a n _ b Hn Hs).
  - intros Hn. destruct (SendCoinsFromAccountToModule a n (vt_bank w)) as [b r] eqn:Hs. intros [= <- ->]. exact (send_in a n _ b Hn Hs).
  - intros e. destruct (SendCoinsFromModuleToAccount a n (vt_bank w)) as [b r] eqn:Hs. intros [= <- ->]. by eapply send_out_failed.
Qed.

#[export] Instance vault_rewards : RewardBank Vault := {|
  VestedBalance := fun w a => zget 0 a (vt_vested w);
  MintRewards := fun n w => (MkVault (MkWorld (w_module (vt_bank w) + n) (w_accounts (vt_bank w))) (vt_vested w), Ok tt);
  SendCoinsToGovernance := fun n => in_vault (SendCoinsFromModuleToAccount vault_gov n);
  VestRewards := fun s n _ w =>
    match AccAddressFromBech32 s with
    | None => (w, Err "invalid address")
    | Some a =>
        match SendCoinsFromModuleToAccount vault_vesting n (vt_bank w) with
        | (b, Ok _) => (MkVault b (<[a := zget 0 a (vt_vested w) + n]> (vt_vested w)), Ok tt)
        | (_, Err e) => (w, Err e)
        end
    end;
  ErrInsufficientFunds := fun e => bool_decide (e = "insufficient funds")
|}.

Lemma pays_account a n w : a <> demo_module -> n <= w_module w ->
  exists w', SendCoinsFromModuleToAccount a n w = (w', Ok tt) /\ w_module w' = w_module w - n /\
    forall b, b <> demo_module -> AccountBalance w' b = AccountBalance w b + if bool_decide (b = a) then n else 0.
Proof.
  intros Ha Hn. exists (move a n w). cbn [SendCoinsFromModuleToAccount demo_env]. replace (n <=? w_module w) with true by lia.
  split; [done|]. split; [|intros b Hb; by apply move_account]. rewrite move_module. unfold outside. by rewrite bool_decide_eq_false_2.
Qed.

#[export] Instance vault_rewards_laws : RewardBankLaws Vault.
Proof.
  exists vault_vesting; cbn [MintRewards SendCoinsToGovernance VestRewards SendCoinsFromModuleToAccount ModuleBalance AccountBalance VestedBalance GovernanceAccount
    ModuleAccount vault_rewards vault_env].
  - intros n w w' Hn [= <-]. done.
  - intros n w Hn. destruct (pays_account vault_gov n (vt_bank w)) as (b & Hb & Hm & Ha); [done|apply Hn|]. unfold in_vault. rewrite Hb. eexists. done.
  - intros s a n epochs w w' Hs Hn _. rewrite Hs. destruct (Z.leb_spec n (w_module (vt_bank w))) as [Hle|Hgt].
    + destruct (pays_account vault_vesting n (vt_bank w)) as (b & Hb & Hm & Ha); [done|done|]. rewrite Hb. intros [= <-]. cbn [vt_bank vt_vested].
      split; [done|]. split; [done|]. split.
      * intros c Hc1 Hc2. rewrite Ha, bool_decide_eq_false_2 by done. lia.
      * intros c. case_bool_decide as Hc; [subst c; by rewrite zget_insert_eq|rewrite zget_insert_ne by done; lia].
    + cbn [SendCoinsFromModuleToAccount demo_env]. by replace (n <=? w_module (vt_bank w)) with false by lia.
  - intros a n w w'. unfold in_vault. destruct (SendCoinsFromModuleToAccount a n (vt_bank w)). by intros [= <- _].
Qed.

#[export] Instance vault_status_env : StatusEnv Vault := {|
  ValidationParamsOf := fun w => ValidationParamsOf (vt_bank w);
  ConfirmationPoCParamsOf := fun w => ConfirmationPoCParamsOf (vt_bank w);
  GetPrecomputedSPRTValues := fun w => GetPrecomputedSPRTValues (vt_bank w);
  BlockHeight := fun w => BlockHeight (vt_bank w);
  removeFromEpochGroups := fun _ w => (w, Ok tt)
|}.
#[export] Instance vault_status_env_laws : StatusEnvLaws Vault.
Proof. split. by intros p w w' r [= <- _]. Qed.
#[export] Instance vault_slashing : CollateralSlashing Vault := {|
  SlashForInvalidStatus := fun _ c => ch_World c;
  SlashForDowntime := fun _ c => ch_World c
|}.
#[export] Instance vault_slashing_laws : CollateralSlashingLaws Vault.
Proof. split; intros p c; cbn; reflexivity. Qed.

(** Work is paid at once, rewards vest over five epochs. *)
Definition vault_params : SettleParams :=
  MkSettleParams (Some (epoch_params 1000)) (Some (MkClaimValidation tenth true)) (Some (MkTokenomicsParams 0 5)) (Some (MkMaintenanceParams true 400 20)).
#[export] Instance vault_settle : SettleEnv Vault := {|
  SettleParamsOf := fun _ => Some vault_params;
  BlockHeightOf := fun _ => 1000;
  ActiveParticipantsOf := fun _ e => if e =? 3 then Some [MkActive "a" 400; MkActive "b" 300; MkActive "c" 200; MkActive "d" 100] else None;
  GetEpochGroupData := fun _ e m => if (e =? 3) && bool_decide (m = "") then Some epoch_data else None;
  GetAllEpochGroupData := fun _ => [epoch_data];
  DelegationSnapshot := fun _ => Some (MkSnapshot 3 epoch_transfers epoch_penalties);
  PunishmentGraceEpoch := fun _ _ => None;
  GetGenesisOnlyParams := fun _ => Some (MkGenesisOnly 1000000 "ngonka");
  NormalizeCoin := fun c => c;
  MaintenanceReservations := fun _ _ => None;
  EpochStart := fun _ e => Some (300 * e)
|}.

(* ------------------------------------------------------------------ *)
(** ** The treasury *)

Definition vault_miners : list Participant :=
  [miner "a" Participant_ACTIVE 500; miner "b" Participant_ACTIVE 30; miner "c" Participant_INVALID 70; miner "d" Participant_ACTIVE 0].
Definition vault_chain : Chain Vault :=
  MkChain ∅ ∅ ∅ None ∅ (list_to_map ((fun p => (string_bytes (pp_Index p), p)) <$> vault_miners)) {[(3, addr_a); (3, addr_b)]} ∅ ∅ ∅ (Some 3)
    (Some (Some demo_params)) (Some (MkPruningState 0 0)) (MkVault (MkWorld 700 ∅) ∅).
(** Participant [a] did not claim its 25 coins of epoch 2, and [z] not its 40 of epoch 1. *)
Definition vault : Treasury Vault :=
  MkTreasury vault_chain {[addr_a := MkSettleAmount "a" 20 5 2 "" 0; string_bytes "z" := MkSettleAmount "z" 0 40 1 "" 0]}
    (Some (MkTokenomics 0 9000 0 0)) ∅ ∅.

Lemma vault_participant a p : Participants vault_chain !! a = Some p -> p ∈ vault_miners /\ a = string_bytes (pp_Index p).
Proof.
  intros Hp%elem_of_list_to_map_2. apply list_elem_of_fmap in Hp as (q & [= -> ->] & Hq). done.
Qed.
Lemma vault_chain_ok : chain_ok vault_chain.
Proof.
  split.
  - intros a p [Hp ->]%vault_participant. revert p Hp. apply Forall_forall. repeat (constructor; [by split|]). constructor.
  - intros id e. cbn. by rewrite lookup_empty.
  - intros id. cbn. rewrite lookup_empty. by intros [].
  - intros e id. cbn. rewrite elem_of_empty. split; [done|]. intros (x & Hx & _). by rewrite lookup_empty in Hx.
  - by vm_compute.
Qed.
Lemma vault_ok : treasury_ok vault.
Proof.
  split; [exact vault_chain_ok| |by vm_compute].
  intros a sa. cbn [SettleAmounts vault]. intros [[<- <-]|[_ [<- <-]%lookup_singleton_Some]]%lookup_insert_Some; by split.
Qed.
(** Other parts of the chain hold 20 of the module's coins. *)
Lemma vault_inv : treasury_inv (vault, 20).
Proof.
  split; [exact vault_ok|]. split; [|vm_compute; split; discriminate]. intros a e. cbn. rewrite lookup_empty, elem_of_empty. split; [done|by intros []].
Qed.

(* ------------------------------------------------------------------ *)
(** ** The settlement of epoch 3 *)

Definition vault_inputs : bitcoinRewardInputs :=
  MkInputs vault_miners epoch_data vault_params tenth (MkSettleParameters 9000 1000000)
    (AggregateMLNodesFromModelSubgroups vault 3 (eg_ValidationWeights epoch_data)) epoch_transfers epoch_penalties.

Lemma vault_inputs_ok : inputs_ok vault_miners epoch_data (bi_ParticipantMLNodes vault_inputs) epoch_transfers epoch_penalties.
Proof.
  destruct epoch_inputs as [_ _ _ _ Hw _ _ Ht Hp]. split; [discriminate| | | |exact Hw|by vm_compute| |exact Ht|exact Hp].
  - apply (bool_decide_unpack _). by vm_compute.
  - repeat (constructor; [exists served; by vm_compute|]). constructor.
  - repeat (constructor; [by vm_compute|]). constructor.
  - apply Forall_forall. repeat (constructor; [exists 0; by vm_compute|]). constructor.
Qed.

Lemma vault_ready : epoch_ready vault 3 2 vault_inputs (epoch_params 1000).
Proof.
  split; [lia|exact vault_ok|reflexivity|reflexivity|exact vault_inputs_ok| | | | | |].
  - repeat (constructor; [done|]). constructor.
  - by vm_compute.
  - by vm_compute.
  - cbn. lia.
  - split.
    + intros a p [Hp _]%vault_participant. revert p Hp. apply Forall_forall. repeat (constructor; [by eexists|]). constructor.
    + intros p c' Hp Hst. apply update_total; [by eexists|by rewrite Hp|exact Hst].
  - intros n _. by eexists.
Qed.
Lemma vault_off_limit : off_limit vault_inputs (epoch_params 1000).
Proof. right. by vm_compute. Qed.

Lemma settlement_goes_through_witness : exists rs b l',
  SettleAccounts 3 2 vault = (l', Ok tt) /\ lsum (fun r => sa_RewardCoins (sr_Settle r)) rs + bt_GovernanceAmount b = bt_Amount b /\ treasury_ok l'.
Proof.
  destruct (settlement_goes_through vault 3 2 vault_inputs (epoch_params 1000) vault_ready vault_off_limit) as (rs & b & l' & _ & _ & Hsum & _ & _ & Hrun & Has).
  exists rs, b, l'. split; [exact Hrun|]. split; [exact Hsum|exact (as_ok _ _ _ _ _ _ _ _ Has)].
Defined.

(** Of the 1000 coins minted 520 go to governance, with the 65 that were not claimed;
    the 70 coins of the invalid participant stay with the module. *)
Definition vault_after : Treasury Vault := Eval vm_compute in (SettleAccounts 3 2 vault).1.
Lemma vault_run : SettleAccounts 3 2 vault = (vault_after, Ok tt).
Proof. by vm_compute. Qed.
Lemma vault_settled :
  SettleAmounts vault_after = {[ addr_a := MkSettleAmount "a" 180 500 3 "" 0; addr_b := MkSettleAmount "b" 180 30 3 "" 0;
                                 string_bytes "d" := MkSettleAmount "d" 120 0 3 "" 0 ]} /\
  AccountBalance (world vault_after) vault_gov = 585 /\ holdings vault_after = 1115 /\ reserve vault_after = reserve vault + 70.
Proof. by vm_compute. Qed.

(* ------------------------------------------------------------------ *)
(** ** Claims in epoch 4 *)

Definition next_epoch (l : Treasury Vault) : Treasury Vault :=
  let c := tr_Chain l in
  set_Chain (MkChain (DevshardEscrows c) (DevshardEscrowsByEpoch c) (DevshardEscrowEpochCount c) (DevshardEscrowCounter c) (DevshardHostEpochStatsMap c)
    (Participants c) (ActiveParticipantsSet c) (ExcludedParticipantsMap c) (ClaimRecipients c) (ClaimRecipientsByEpoch c) (Some 4)
    (ch_Params c) (ch_PruningState c) (ch_World c)) l.

Lemma next_epoch_move l x : treasury_inv (l, x) -> other_move (l, x) (next_epoch l, x).
Proof. intros ([Hch _ _] & _ & Hx). split; try done; [apply Hch|apply Hx|]. unfold next_epoch, holdings, world, owed. cbn. lia. Qed.

Lemma vault_epoch_step : epoch_step vault vault_after.
Proof. exact (epoch_answer vault 3 2 _ _ vault_after vault_ready vault_off_limit vault_run). Qed.
Lemma vault_after_inv : treasury_inv (vault_after, 20).
Proof. apply (advances_inv vault vault_after 20 vault_inv), epoch_inv; [exact (proj1 (proj2 vault_inv))|exact vault_epoch_step]. Qed.
Definition vault_next : Treasury Vault := next_epoch vault_after.
Lemma vault_next_inv : treasury_inv (vault_next, 20).
Proof. destruct (move_inv (vault_after, 20) (vault_next, 20) vault_after_inv (next_epoch_move _ _ vault_after_inv)) as [H _]. exact H. Qed.

Lemma vault_small : holdings vault_next < 2 ^ 63.
Proof. by vm_compute. Qed.

Definition claim_msg : MsgClaimRewards := MkMsgClaim "a" 7 3.
Definition fine : Treasury Vault -> MsgClaimRewards -> SettleAmount -> option string := fun _ _ _ => None.
Definition claim_amount : SettleAmount := MkSettleAmount "a" 180 500 3 "" 0.

Lemma vault_claim_ready : claim_ready fine vault_next claim_msg addr_a claim_amount addr_a.
Proof.
  split; [by vm_compute| | |by vm_compute].
  - exists vault_params. split; [done|]. split; [|done]. eexists. split; [reflexivity|]. split; [|].
    + unfold payee. cbn [tp_WorkVestingPeriod]. change (0 <? 0) with false. intros w n Hn. destruct (pays_account addr_a n (vt_bank w)) as (b & Hb & _); [done|apply Hn|].
      exists (MkVault b (vt_vested w)). cbn [SendCoinsFromModuleToAccount vault_env]. unfold in_vault. by rewrite Hb.
    + unfold payee. cbn [tp_RewardVestingPeriod]. change (0 <? 5) with true. intros w n Hn. destruct (pays_account vault_vesting n (vt_bank w)) as (b & Hb & _); [done|apply Hn|].
      exists (MkVault b (<[addr_a := zget 0 addr_a (vt_vested w) + n]> (vt_vested w))). cbn [VestRewards vault_rewards].
      change (AccAddressFromBech32 (AccAddress_String addr_a)) with (Some addr_a). cbn iota. by rewrite Hb.
  - split; [done|by vm_compute| |done|done|done]. exists 4. split; [by vm_compute|]. done.
Qed.

Definition vault_claimed : Treasury Vault := Eval vm_compute in (ClaimRewards fine claim_msg vault_next).1.
Lemma vault_claim_run : ClaimRewards fine claim_msg vault_next = (vault_claimed, Ok (MkResponse 680 "Rewards claimed successfully")).
Proof. by vm_compute. Qed.

(** A second claim is refused. *)
Lemma claim_exact_witness : exists l' response,
  ClaimRewards fine claim_msg vault_claimed = (l', Ok response) /\ rs_Amount response = 0 /\
  wealth vault_claimed addr_a = wealth vault_next addr_a + 680.
Proof.
  destruct (claim_exact fine claim_msg vault_next vault_claimed _ (proj1 vault_next_inv) vault_small vault_claim_run)
    as [[[=] _]|(a & sa & r & Hcb & Hres & Hamt & Hcd & Hagain)].
  destruct (ClaimRewards fine claim_msg vault_claimed) as [l' [response|e]] eqn:Hrun.
  - exists l', response. split; [reflexivity|]. split; [exact (proj1 (Hagain fine claim_msg l' response eq_refl Hrun))|]. by vm_compute.
  - exfalso. revert Hrun. by vm_compute.
Defined.

(** Epoch 3 is settled, epoch 4 begins, [a] claims. *)
Definition anyone (_ : string) : Prop := True.
Lemma vault_trace : rtc (treasury_step demo_sort anyone) (vault, 20) (vault_claimed, 20).
Proof.
  apply (rtc_l _ _ (vault_after, 20)); [exact (treasury_epoch demo_sort anyone _ _ 20 vault_epoch_step)|].
  apply (rtc_l _ _ (vault_next, 20)); [exact (treasury_quiet demo_sort anyone _ _ (quiet_other demo_sort anyone _ _ _ (next_epoch_move _ _ vault_after_inv)))|].
  apply rtc_once, treasury_quiet, quiet_own. exact (claim_answer_step demo_sort anyone _ vault_next fine claim_msg vault_claimed _ (fun _ _ => I) vault_small vault_claim_run).
Qed.
Lemma treasury_stays_solvent_witness :
  locked (tr_Chain vault_claimed) + owed (tr_Chain vault_claimed) + unclaimed vault_claimed + 20 <= holdings vault_claimed /\ holdings vault_claimed = 435.
Proof.
  split; [|by vm_compute].
  exact (proj1 (treasury_stays_solvent demo_sort demo_sorts anyone (vault, 20) (vault_claimed, 20) vault_inv vault_trace)).
Defined.

Lemma earnings_reach_participants_witness : exists l1 l2 l3 response,
  SettleAccounts 3 2 vault = (l1, Ok tt) /\ l2 = next_epoch l1 /\ ClaimRewards fine claim_msg l2 = (l3, Ok response) /\
  rs_Amount response = 680 /\ SettleAmounts l3 !! addr_a = None.
Proof.
  destruct (earnings_reach_participants demo_sort demo_sorts anyone vault 20 3 2 vault_inputs (epoch_params 1000) vault_inv vault_ready vault_off_limit)
    as (rs & b & l1 & _ & Hrun & Hlen & Hnn & _ & _ & Hpay).
  assert (l1 = vault_after) as -> by (rewrite vault_run in Hrun; by injection Hrun).
  set (shares := _ <$> rs) in *. destruct (shares !! 0%nat) as [n|] eqn:Hs; [|apply lookup_ge_None_1 in Hs; cbn in Hlen; lia].
  assert (0 < work (miner "a" Participant_ACTIVE 500) + n) as Hn.
  { apply Forall_cons in Hnn as [_ Hnn]. rewrite Forall_lookup in Hnn. specialize (Hnn _ _ Hs). change (work _) with 500. cbv beta in Hnn. lia. }
  destruct (Hpay 0%nat (miner "a" Participant_ACTIVE 500) n vault_next 20 fine claim_msg claim_amount addr_a eq_refl Hs Hn
    (rtc_once _ _ (quiet_other demo_sort anyone _ _ _ (next_epoch_move _ _ vault_after_inv))) vault_small eq_refl vault_claim_ready)
    as (l3 & response & Hrun3 & Hamt & Hco & _ & _ & Hnone).
  exists vault_after, vault_next, l3, response. split; [exact Hrun|]. split; [reflexivity|]. split; [exact Hrun3|]. split; [|exact Hnone].
  rewrite Hamt, <-Hco. reflexivity.
Defined.
